(* ===== verification/_CoqProject ===== *)
-Q . S2P
Prelude.v
Xerrors.v
GoSem.v
Bytes.v
Sha256.v
Units.v
Crypto.v
Slice.v
FileIO.v
Ledger.v
LedgerSpec.v
LedgerClient.v
Concrete.v
LedgerProps.v
LedgerIter.v
MemLedger.v
GovParams.v
Trx.v
TrxProps.v
WalletKey.v
WalletProps.v
FilePV.v
FilePVProps.v
Sfeeder.v
Account.v
Context.v
AcctCtrler.v
AcctProps.v
AcctClient.v
Stake.v
StakeProps.v
Json.v
StakeLimiter.v
StakeCtrler.v
ValidatorProps.v
Proposal.v
ProposalProps.v
Orders.v
Accessors.v
GovCtrler.v
GovProps.v
GovBlock.v
Locks.v
MetaDB.v
StateDB.v
Executor.v
EvmCtrler.v
Scene.v
EvmProps.v
EvmScene.v
ExecutorProps.v
Staking.v
Unfreezing.v
Unstaking.v
Rewards.v
ProtoWire.v
Issuing.v
BeginBlock.v
App.v
Delivery.v
AppProps.v
Genesis.v
JsonText.v
LocalClient.v
Parallel.v
Lifecycle.v
Rpc.v
Web3.v
Web3Props.v
Transport.v
Prompt.v
CommandTree.v
Frame.v
Restart.v
EvmFrame.v
RestartScene.v
Commands.v
CommandProps.v
GenesisDocs.v
FeederCmds.v
