(* ===== verification/Prelude.v ===== *)
(** * RIGO: a verification library for the rigo-go blockchain node

    rigo-go is a proof-of-stake blockchain node.  A consensus engine
    (Tendermint) drives the application [RigoApp] (node/app.go) through the
    calls of ABCI: [InitChain], then for each block [BeginBlock], [DeliverTx]
    for each transaction, [EndBlock] and [Commit]; [CheckTx] and [Query] come in
    between.  The application owns four controllers, each with its part of the
    state in versioned ledgers: accounts (ctrlers/account), stakes
    (ctrlers/stake), governance (ctrlers/gov) and the EVM (ctrlers/vm/evm).  The
    executor (node/trx_executor.go) validates and runs one transaction over
    them.  This library translates that code to Rocq and proves what makes it
    correct.

    ** How the code is modelled

    - [outcome]: a Go call returns ([Ret]), returns an [XError] ([Err]) or panics
      ([Panic]: nil dereference, index out of range, division by zero, explicit
      [panic], [tmos.Exit]).  [GoM S] threads the state through all three, since
      an error does not undo the mutations before it (GoSem.v).
    - Objects reached through pointers live in a [heap] of the ledger that hands
      the pointers out, so two pointers to one account see each other's
      updates; [lens]/[zoom] runs the method of a field on the enclosing struct.
      Byte slices are values, except in the key files, which overwrite secrets in
      place: there a slice is a window on a shared array (Slice.v).
    - Machine integers are [Z] with the wrap-around written out: [i64], [u64],
      [i32], [u256] (this file); [uint256.Int.Sign] reads two's complement.
    - Go maps are [gmap]; a loop over a map whose order matters takes the order
      as an argument.  [sort.Sort] is insertion sort: the theorems that use it
      hold for total orders, where every sort gives the same result (for the
      options of a proposal: up to the order of options with equal votes);
      Orders.v proves this of the [Less] methods of the code.
    - Goroutines interleave: the callers of the local clients between any two
      instructions of its methods, [Lock] and the deferred [Unlock] among them
      (LocalClient.v), the pool of execution routines (Parallel.v).  Crashes
      are steps of a relation (FilePVProps.v) or a start on the disk that any
      interrupted call leaves (Frame.v, Restart.v).
    - Libraries that are not part of the repository are type classes with their
      documented laws: the IAVL tree ([Iavl], [IavlLaws], [IavlOpen]), protobuf
      and JSON ([Codec], [CodecLaws], [JsonRead]), RLP ([RlpLib]),
      elliptic-curve signatures and SHA-256 ([EthCrypto]), ciphers and key
      derivation ([KeyLib], [Curve]), the key-value database ([TmDB],
      [TmBatch]), go-ethereum's state and interpreter ([GethState], [EthVM]),
      the file system ([FileSystem]), Tendermint's sign bytes ([Canonical]) and
      node tools ([NodeTools]).  Concrete.v, TrxProps.v, Scene.v, EvmScene.v and
      the modules named [...Scene] give instances that satisfy the laws; every
      theorem with assumptions is applied to them in a lemma named
      [..._witness].
      Two of the libraries have instances that are the real thing, for the
      constants of the repository: the proto3 wire format (ProtoWire.v) and
      SHA-256 (Sha256.v), with the JSON of genesis documents (JsonText.v).
    - Left out everywhere: logging, the arguments of formatted error messages,
      and locks where only one goroutine can hold them.

    ** Files

    Foundations: Prelude (integers, bytes, lists, sums, sorting), Xerrors
    (types/xerrors), GoSem (effects), Bytes (types/bytes, types/address.go,
    libs/utils.go), Units (packed versions, coin units), Crypto
    (types/crypto/crypto.go), Sha256 (the default hash, executable), Slice,
    FileIO (libs/file_io.go).

    Ledgers (ledger/): Ledger holds the operations of [FinalityLedger],
    [SimpleLedger] and [memItems]; LedgerSpec the abstract two-sided map that
    they implement, the invariant [ledger_inv] and the simulation; LedgerClient
    the lemmas for code that gets, mutates, stores and deletes an object;
    Concrete an executable tree; LedgerProps the theorems: refinement of the
    abstract ledger, independence of the map order, isolation of [CheckTx],
    durability of commits, and the behaviour of a store after a deletion in one
    block.  LedgerIter holds the iterators, [Clone] and the interfaces [ILedger]
    and [IFinalityLedger]; MemLedger the ledger in memory of mem_ledger.go.

    Data (ctrlers/types): GovParams (parameters, protobuf and JSON forms, power
    and fee conversions, merge), Trx and TrxProps (transactions, payloads, RLP
    and protobuf codecs, signing pre-images, verification), Account, Context
    (transaction and block contexts, the account interface [IAccountHandler]),
    MetaDB (the store of the last block), ProtoWire (the messages of the
    generated pb.go files in their wire format: what is encoded is read back),
    Accessors (the getters and printed forms of the data, the interface
    [IGovHandler]), Orders (the [sort.Interface] types: any sorting algorithm
    gives the same validators and trees).

    Keys: WalletKey and WalletProps (types/crypto/wallet_key.go: encrypted keys,
    what lies in memory and in the file), FilePV and FilePVProps
    (types/crypto/sfile_pv.go: a validator does not sign twice, over any sequence
    of requests, crashes and restarts), Sfeeder (sfeeder/ and libs/sfeeder/: a
    secret is fed to the node that asks for it).

    Accounts: AcctCtrler (ctrlers/account/ctrler.go), AcctProps (transfers
    conserve and are refused without effect; the fees go to the proposer) and
    AcctClient (lookups by the clients of the controller).

    Stakes: Stake (stakes, delegatees, block markers, rewards), Json (the JSON
    form of rewards) and StakeProps; StakeLimiter (limiter.go, with its
    theorem: order and bound are kept); StakeCtrler (ctrler.go, over [IAccountHandler]); ValidatorProps
    (the reported updates turn the old validator set into the new one); Staking,
    Unstaking, Unfreezing and Rewards (the effect of staking and unstaking
    transactions, of the release of frozen stakes and of withdrawals on both
    controllers); Issuing and BeginBlock (the beginning of a block: candidates,
    slashing, rewards, missed votes and the validators that are stopped).

    Governance: Proposal (gov/proposal) and ProposalProps (the tally is the
    power of the voters; the major option); GovCtrler (over [IStakeHandler]) and
    GovProps (accepted proposals, counted votes; over any calls the parameters
    change only at a commit, by a decided proposal); GovBlock (the end of a block refines an abstract one: proposals
    are frozen or dropped, due ones are applied and leave the ledger).  Locks has
    the methods of the controllers that run under their mutex.

    EVM (ctrlers/vm/evm): StateDB (statedb.go, with executions as programs over
    the interface [vm.StateDB]), EvmCtrler (ctrler.go, query.go), EvmProps (a
    failed contract transaction changes no account, a successful one writes
    back what it touched), EvmScene (a small interpreter).

    Executor and application: Executor with ExecutorProps (what an executed
    transaction has passed, replay, transfers), App (node/app.go, node/query.go),
    Delivery (a transfer from its bytes to the accounts and the response),
    AppProps (heights, unreadable transactions), Genesis (genesis/ and
    [InitChain]), JsonText and GenesisDocs (the documents of the public networks:
    their texts, their hashes, and the chains that start from them), LocalClient
    (node/client.go: every method keeps the discipline of the mutex, so that calls
    are atomic and return), Parallel (the pool of trx_executor.go), Lifecycle (the
    databases that starting opens and stopping closes), Scene (a concrete chain
    for the witnesses).

    Restart: Frame (no call but [Commit] reaches the disk), EvmFrame (the same
    of the EVM controller), Restart (NewRigoApp: a node started again resumes at
    its last commit) and RestartScene.

    Clients and commands: Rpc (rpc/), Web3 and Web3Props (libs/web3: what a
    wallet signs and sends, the node accepts), Transport (http_provider.go,
    subscriber.go and the rest of libs/web3), CommandTree (the commands of the
    three programs with their flags), Prompt (libs/sprompt.go, libs/path.go,
    signals, the configuration, and the commands of libs/cli), Commands and
    CommandProps (cmd/commands: init, unsafe-reset-all, start, wallet-key),
    FeederCmds (sfeeder/cmds: the secrets that are set are those that are read).

    ** Bounds

    The loops of the code are structural recursions on lists, except some with
    fuel: [updates_loop] (validatorUpdates) runs on the sum of the two lengths,
    of which every step consumes at least one, and ValidatorProps proves the
    result for that fuel; [dec_digits] prints with a number of digits that is
    enough for its type, as its round trip shows; [receive_loop] of a subscriber
    runs on the number of messages that the connection delivers ([receive_all]);
    the readers of wire format and JSON run on the length of their input, which
    [wire_roundtrip] and [object_roundtrip] show to be enough.  Executions of the EVM are
    finite trees of calls ([evm_prog]): gas bounds them.  Theorems about amounts
    assume balances whose sum does not exceed 256 bits, and for staking less
    than [2^63] powers in one account, where [AmountToPower] does not wrap.

    ** Not modelled

    - The code that protoc generates around its messages (reflection, registration,
      getters, gRPC stubs): it only calls the protobuf and gRPC libraries.  The
      messages themselves are in ProtoWire.v.
    - The gRPC server of the secret feeder (sfeeder/server/server.go) and the shell
      of its older client (libs/sfeeder/client/cli): calls of gRPC, whose handlers
      are in Sfeeder.v; the transport of HTTP and web sockets behind Transport.v.
    - The parsing of flags (cobra, viper), the choice of the logger and the
      Tendermint node itself, which the commands reach through parameters.
    - Random generators, printed forms for debugging, and calls of the EVM state
      that only pass through to go-ethereum; test helpers and mocks. *)

From Stdlib Require Import Strings.Byte.
From Stdlib Require Export ZArith Lia.
From stdpp Require Export sorting.
From stdpp Require Export base tactics list gmap strings countable numbers.

Open Scope Z_scope.

(** ** Hint databases of the development

    [rigo] holds the resolution lemmas of the components, [rigo_z] the
    rewriting rules of machine arithmetic. *)
Create HintDb rigo discriminated.
Create Rewrite HintDb rigo_z.

Declare Scope go_scope.
Delimit Scope go_scope with go.

(** ** Bytes

    A Go [[]byte] is a list of [Byte.byte]; [nil] and the empty slice are
    identified except where a field of the source distinguishes them, in which
    case the field is an [option]. *)
Abbreviation byte := Byte.byte (only parsing).
Abbreviation bytes := (list Byte.byte) (only parsing).

#[export] Instance byte_eq_dec : EqDecision Byte.byte := Byte.byte_eq_dec.

#[export] Program Instance byte_countable : Countable Byte.byte :=
  inj_countable Byte.to_N Byte.of_N _.
Next Obligation. intros b. apply Byte.of_to_N. Qed.

#[export] Instance byte_inhabited : Inhabited Byte.byte := populate Byte.x00.

Definition byte_val (b : byte) : Z := Z.of_N (Byte.to_N b).

Lemma byte_val_inj b1 b2 : byte_val b1 = byte_val b2 -> b1 = b2.
Proof.
  unfold byte_val. intros H%N2Z.inj.
  apply (f_equal Byte.of_N) in H. rewrite !Byte.of_to_N in H. congruence.
Qed.

Lemma byte_val_bound b : 0 <= byte_val b < 256.
Proof. unfold byte_val. pose proof (Byte.to_N_bounded b). lia. Qed.

(** Go's [byte(z)] conversion: the low eight bits. *)
Definition byte_of_Z (z : Z) : byte :=
  match Byte.of_N (Z.to_N (z mod 256)) with Some b => b | None => Byte.x00 end.

Lemma byte_val_of_Z z : byte_val (byte_of_Z z) = z mod 256.
Proof.
  unfold byte_of_Z, byte_val.
  pose proof (Z.mod_pos_bound z 256).
  destruct (Byte.of_N _) as [b|] eqn:E.
  - apply Byte.to_of_N in E. lia.
  - apply Byte.of_N_None_iff in E. lia.
Qed.

Lemma byte_of_Z_val b : byte_of_Z (byte_val b) = b.
Proof.
  apply byte_val_inj. rewrite byte_val_of_Z.
  pose proof (byte_val_bound b). rewrite Z.mod_small; lia.
Qed.
#[export] Hint Rewrite byte_val_of_Z byte_of_Z_val : rigo_z.

(** [bytes.Compare] of Go's standard library: lexicographic order. *)
Fixpoint bytes_cmp (a b : bytes) : comparison :=
  match a, b with
  | [], [] => Eq
  | [], _ :: _ => Lt
  | _ :: _, [] => Gt
  | x :: a', y :: b' =>
      match byte_val x ?= byte_val y with
      | Eq => bytes_cmp a' b'
      | c => c
      end
  end.

Definition bytes_ltb (a b : bytes) : bool :=
  match bytes_cmp a b with Lt => true | _ => false end.

Lemma bytes_cmp_refl a : bytes_cmp a a = Eq.
Proof. induction a as [|x a IH]; simpl; [done|]. by rewrite Z.compare_refl. Qed.

Lemma bytes_cmp_eq a b : bytes_cmp a b = Eq <-> a = b.
Proof.
  split; [|intros ->; apply bytes_cmp_refl].
  revert b. induction a as [|x a IH]; intros [|y b]; simpl; try done.
  destruct (Z.compare_spec (byte_val x) (byte_val y)) as [E| |]; try done.
  intros H%IH. apply byte_val_inj in E. by subst.
Qed.

Lemma bytes_cmp_antisym a b : bytes_cmp b a = CompOpp (bytes_cmp a b).
Proof.
  revert b. induction a as [|x a IH]; intros [|y b]; simpl; try done.
  rewrite (Z.compare_antisym (byte_val x) (byte_val y)).
  destruct (byte_val x ?= byte_val y); simpl; auto.
Qed.

Lemma bytes_cmp_lt_trans a b c :
  bytes_cmp a b = Lt -> bytes_cmp b c = Lt -> bytes_cmp a c = Lt.
Proof.
  revert b c. induction a as [|x a IH]; intros [|y b] [|z c]; simpl; try discriminate; try reflexivity.
  destruct (Z.compare_spec (byte_val x) (byte_val y));
    destruct (Z.compare_spec (byte_val y) (byte_val z)); try done; intros H1 H2;
    destruct (Z.compare_spec (byte_val x) (byte_val z)); try lia; eauto.
Qed.

Lemma bytes_ltb_trans a b c :
  bytes_ltb a b = true -> bytes_ltb b c = true -> bytes_ltb a c = true.
Proof.
  unfold bytes_ltb. destruct (bytes_cmp a b) eqn:E1; try done.
  destruct (bytes_cmp b c) eqn:E2; try done.
  by rewrite (bytes_cmp_lt_trans a b c).
Qed.

Lemma bytes_ltb_irrefl a : bytes_ltb a a = false.
Proof. unfold bytes_ltb. by rewrite bytes_cmp_refl. Qed.

Lemma bytes_ltb_total a b :
  bytes_ltb a b = false -> bytes_ltb b a = false -> a = b.
Proof.
  unfold bytes_ltb. rewrite (bytes_cmp_antisym a b).
  destruct (bytes_cmp a b) eqn:E; simpl; try done. intros _ _. by apply bytes_cmp_eq.
Qed.

Lemma bytes_ltb_asym a b : bytes_ltb a b = true -> bytes_ltb b a = false.
Proof.
  unfold bytes_ltb. rewrite (bytes_cmp_antisym a b). by destruct (bytes_cmp a b).
Qed.

Lemma bytes_ltb_negtrans a b c :
  bytes_ltb a b = false -> bytes_ltb b c = false -> bytes_ltb a c = false.
Proof.
  intros H1 H2. destruct (bytes_ltb a c) eqn:E; [|done].
  destruct (bytes_ltb b a) eqn:E1.
  - by rewrite (bytes_ltb_trans b a c) in H2.
  - rewrite (bytes_ltb_total a b) in E by done. congruence.
Qed.

(** ** Machine integers

    [int64], [int32], [uint64] and [uint256.Int] are [Z] with the wrap-around
    of each operation written out.  Go's [/] truncates towards zero. *)
Definition wrap_u (w z : Z) : Z := z mod 2 ^ w.
Definition wrap_s (w z : Z) : Z := (z + 2 ^ (w - 1)) mod 2 ^ w - 2 ^ (w - 1).

Definition u64 (z : Z) : Z := wrap_u 64 z.
Definition u256 (z : Z) : Z := wrap_u 256 z.
Definition i64 (z : Z) : Z := wrap_s 64 z.
Definition i32 (z : Z) : Z := wrap_s 32 z.

#[global] Arguments wrap_u : simpl never.
#[global] Arguments wrap_s : simpl never.
#[global] Arguments u64 : simpl never.
#[global] Arguments u256 : simpl never.
#[global] Arguments i64 : simpl never.
#[global] Arguments i32 : simpl never.

Definition is_u64 (z : Z) : Prop := 0 <= z < 2 ^ 64.
Definition is_u256 (z : Z) : Prop := 0 <= z < 2 ^ 256.
Definition is_i64 (z : Z) : Prop := - 2 ^ 63 <= z < 2 ^ 63.
Definition is_i32 (z : Z) : Prop := - 2 ^ 31 <= z < 2 ^ 31.

Lemma u64_range z : is_u64 (u64 z).
Proof. apply Z.mod_pos_bound. lia. Qed.
Lemma u256_range z : is_u256 (u256 z).
Proof. apply Z.mod_pos_bound. lia. Qed.
Lemma i64_range z : is_i64 (i64 z).
Proof.
  unfold is_i64, i64, wrap_s. pose proof (Z.mod_pos_bound (z + 2 ^ (64 - 1)) (2 ^ 64)). lia.
Qed.

Lemma u64_id z : is_u64 z -> u64 z = z.
Proof. intros H. by apply Z.mod_small. Qed.
Lemma u256_id z : is_u256 z -> u256 z = z.
Proof. intros H. by apply Z.mod_small. Qed.
Lemma i64_id z : is_i64 z -> i64 z = z.
Proof.
  unfold is_i64, i64, wrap_s. intros H. rewrite Z.mod_small; lia.
Qed.
Lemma i32_id z : is_i32 z -> i32 z = z.
Proof.
  unfold is_i32, i32, wrap_s. intros H. rewrite Z.mod_small; lia.
Qed.
#[export] Hint Resolve u64_range u256_range i64_range : rigo.

(** Addition and subtraction at width 64, and the fact a run of wrapped
    additions is the wrapped sum. *)
Lemma i64_add_l a b : i64 (i64 a + b) = i64 (a + b).
Proof.
  unfold i64, wrap_s.
  replace ((a + 2 ^ (64 - 1)) mod 2 ^ 64 - 2 ^ (64 - 1) + b + 2 ^ (64 - 1))
    with ((a + 2 ^ (64 - 1)) mod 2 ^ 64 + b) by lia.
  rewrite Zplus_mod_idemp_l. do 2 f_equal. lia.
Qed.
Lemma i64_add_r a b : i64 (a + i64 b) = i64 (a + b).
Proof. rewrite Z.add_comm, i64_add_l. f_equal. lia. Qed.
Lemma i64_sub_l a b : i64 (i64 a - b) = i64 (a - b).
Proof. rewrite <- !Z.add_opp_r. apply i64_add_l. Qed.
#[export] Hint Rewrite i64_add_l i64_add_r i64_sub_l : rigo_z.

(** Go's integer division at width 64; [None] is the run-time panic of a zero
    divisor. *)
Definition i64_div (a b : Z) : option Z :=
  if b =? 0 then None else Some (i64 (Z.quot a b)).

(** ** Sums over lists *)
Definition sumZ {A} (f : A -> Z) (l : list A) : Z := foldr (fun x acc => f x + acc) 0 l.
#[global] Arguments sumZ : simpl never.

Lemma sumZ_app {A} (f : A -> Z) l1 l2 : sumZ f (l1 ++ l2) = sumZ f l1 + sumZ f l2.
Proof. unfold sumZ. induction l1; simpl in *; lia. Qed.

Lemma sumZ_nil {A} (f : A -> Z) : sumZ f [] = 0.
Proof. done. Qed.

Lemma sumZ_cons {A} (f : A -> Z) x l : sumZ f (x :: l) = f x + sumZ f l.
Proof. done. Qed.

Lemma sumZ_perm {A} (f : A -> Z) l1 l2 : l1 ≡ₚ l2 -> sumZ f l1 = sumZ f l2.
Proof. unfold sumZ. induction 1; simpl in *; lia. Qed.

Lemma sumZ_nonneg {A} (f : A -> Z) l : (forall x, x ∈ l -> 0 <= f x) -> 0 <= sumZ f l.
Proof.
  induction l as [|x l IH]; intros H; [done|].
  rewrite sumZ_cons. pose proof (H x ltac:(set_solver)).
  assert (0 <= sumZ f l) by (apply IH; set_solver). lia.
Qed.

Lemma sumZ_ext {A} (f g : A -> Z) l : (forall x, x ∈ l -> f x = g x) -> sumZ f l = sumZ g l.
Proof.
  induction l as [|x l IH]; intros H; [done|].
  rewrite !sumZ_cons, (H x) by set_solver. rewrite IH; set_solver.
Qed.

Lemma sumZ_filter_split {A} (f : A -> Z) (p : A -> bool) l :
  sumZ f l = sumZ f (List.filter p l) + sumZ f (List.filter (fun x => negb (p x)) l).
Proof.
  induction l as [|x l IH]; [done|]. rewrite sumZ_cons, IH. simpl.
  destruct (p x); simpl; rewrite ?sumZ_cons; lia.
Qed.

(** Loops that accumulate into an [int64] compute the wrapped sum. *)
Definition sum_i64 {A} (f : A -> Z) (l : list A) : Z :=
  fold_left (fun acc x => i64 (acc + f x)) l 0.

Lemma fold_left_i64 {A} (f : A -> Z) l acc :
  fold_left (fun a x => i64 (a + f x)) l (i64 acc) = i64 (acc + sumZ f l).
Proof.
  revert acc. induction l as [|x l IH]; intros acc; simpl.
  - f_equal. unfold sumZ; simpl. lia.
  - rewrite i64_add_l, IH, sumZ_cons. f_equal. lia.
Qed.

Lemma sum_i64_spec {A} (f : A -> Z) l : sum_i64 f l = i64 (sumZ f l).
Proof. unfold sum_i64. exact (fold_left_i64 f l 0). Qed.

Lemma sum_i64_exact {A} (f : A -> Z) l : is_i64 (sumZ f l) -> sum_i64 f l = sumZ f l.
Proof. intros H. rewrite sum_i64_spec. by apply i64_id. Qed.

(** ** [sort.Sort]

    Go's [sort.Sort] on at most twelve elements is the insertion sort below:
    each element is moved left past the elements it is [less] than.  On longer
    slices the library may pick another algorithm; [sort_unique] shows that when
    [less] separates the elements the result does not depend on that choice. *)
Section Sort.
Context {A : Type} (less : A -> A -> bool).

(** The already sorted prefix is kept reversed. *)
Fixpoint insert_left (x : A) (rprefix : list A) : list A :=
  match rprefix with
  | [] => [x]
  | y :: rp => if less x y then y :: insert_left x rp else x :: y :: rp
  end.

Definition sort_Sort (l : list A) : list A :=
  reverse (fold_left (fun rp x => insert_left x rp) l []).

Definition not_less (x y : A) : Prop := less y x = false.

Lemma insert_left_perm x rp : insert_left x rp ≡ₚ x :: rp.
Proof.
  induction rp as [|y rp IH]; simpl; [done|].
  destruct (less x y); [|done]. rewrite IH. apply Permutation_swap.
Qed.

Lemma fold_insert_perm l rp : fold_left (fun rp x => insert_left x rp) l rp ≡ₚ l ++ rp.
Proof.
  revert rp. induction l as [|x l IH]; intros rp; simpl; [done|].
  rewrite IH, insert_left_perm. apply Permutation_sym, Permutation_middle.
Qed.

Lemma sort_perm l : sort_Sort l ≡ₚ l.
Proof.
  unfold sort_Sort. rewrite reverse_Permutation, fold_insert_perm. by rewrite app_nil_r.
Qed.

Lemma elem_of_sort x l : x ∈ sort_Sort l <-> x ∈ l.
Proof. by rewrite sort_perm. Qed.

Lemma length_sort l : length (sort_Sort l) = length l.
Proof. by rewrite sort_perm. Qed.

Context (less_asym : forall x y, less x y = true -> less y x = false).
Context (not_less_trans : forall x y z, not_less x y -> not_less y z -> not_less x z).

Lemma insert_left_sorted x rp :
  StronglySorted (flip not_less) rp -> StronglySorted (flip not_less) (insert_left x rp).
Proof.
  induction rp as [|y rp IH]; simpl; intros Hs.
  { repeat constructor. }
  apply StronglySorted_inv in Hs as [Hs Hall].
  destruct (less x y) eqn:E.
  - constructor; [by apply IH|]. rewrite insert_left_perm. constructor; [|done].
    by apply less_asym.
  - constructor.
    + by constructor.
    + constructor; [done|]. rewrite list.Forall_forall in Hall |- *.
      intros z Hz. specialize (Hall z Hz). unfold flip in *. by eapply not_less_trans.
Qed.

Lemma StronglySorted_reverse (R : relation A) l :
  StronglySorted (flip R) l -> StronglySorted R (reverse l).
Proof.
  induction 1 as [|x l Hs IH Hall]; [constructor|].
  rewrite reverse_cons. apply StronglySorted_app. split_and!; [|done|repeat constructor].
  intros x1 x2 Hx1 Hx2. rewrite elem_of_reverse in Hx1. apply list_elem_of_singleton in Hx2.
  subst. rewrite list.Forall_forall in Hall. exact (Hall _ Hx1).
Qed.

Lemma sort_sorted l : StronglySorted not_less (sort_Sort l).
Proof.
  unfold sort_Sort. apply StronglySorted_reverse.
  assert (Hnil : StronglySorted (flip not_less) (@nil A)) by constructor.
  revert Hnil. generalize (@nil A). induction l as [|x l IH]; intros rp Hrp; simpl; [done|].
  apply IH. by apply insert_left_sorted.
Qed.

(** Any sorted permutation is the one computed above as soon as [less]
    separates the elements of the list. *)
Lemma sort_unique l l' :
  (forall x y, x ∈ l -> y ∈ l -> not_less x y -> not_less y x -> x = y) ->
  l' ≡ₚ l -> StronglySorted not_less l' -> l' = sort_Sort l.
Proof.
  intros Hanti Hperm Hs.
  assert (Hp : l' ≡ₚ sort_Sort l) by (rewrite Hperm; symmetry; apply sort_perm).
  assert (Hin : forall x, x ∈ l' -> x ∈ l) by (intros x; by rewrite Hperm).
  clear Hperm. pose proof (sort_sorted l) as Hs2. revert Hp Hs2.
  generalize (sort_Sort l). induction Hs as [|x k Hs IH Hall]; intros m Hp Hs2.
  - by apply Permutation_nil_l in Hp as ->.
  - destruct m as [|y m]; [by apply Permutation_nil_r in Hp|].
    apply StronglySorted_inv in Hs2 as [Hs2 Hall2].
    assert (x = y) as ->.
    { assert (Hx : x ∈ y :: m) by (rewrite <- Hp; set_solver).
      apply elem_of_cons in Hx as [->|Hxm]; [done|].
      assert (Hy : y ∈ x :: k) by (rewrite Hp; set_solver).
      apply elem_of_cons in Hy as [->|Hy]; [done|].
      rewrite list.Forall_forall in Hall, Hall2.
      apply Hanti; [apply Hin; set_solver|apply Hin; set_solver|by apply Hall|by apply Hall2]. }
    f_equal. apply IH; [set_solver| |done]. by apply Permutation_cons_inv in Hp.
Qed.

(** Hence the order in which the elements were collected is irrelevant. *)
Lemma sort_perm_eq l l' :
  (forall x y, x ∈ l -> y ∈ l -> not_less x y -> not_less y x -> x = y) ->
  l' ≡ₚ l -> sort_Sort l' = sort_Sort l.
Proof.
  intros Hanti Hp. apply sort_unique; [done| |apply sort_sorted].
  etrans; [apply sort_perm|done].
Qed.
End Sort.
