(* ===== verification/Xerrors.v ===== *)
(** * Errors: [types/xerrors/xerror.go]

    [XError] values carry a code, a message and an optional cause.  The
    package variables ([ErrNotFoundResult], ...) are pointers which the code
    compares with [==]; the field [xvar] records which variable a value is, and
    is [None] for an error built at run time.  A formatted message
    ([Wrapf], [fmt.Errorf]) is represented by its format string. *)

From S2P Require Import Prelude.

Inductive XError : Type :=
  | xerror (xvar : option string) (code : Z) (msg : string) (cause : goerror)
with goerror : Type :=
  | nilerr
  | plainerr (msg : string)
  | xcause (e : XError).

Scheme XError_mut := Induction for XError Sort Prop
  with goerror_mut := Induction for goerror Sort Prop.

Definition xvar (e : XError) : option string := let 'xerror v _ _ _ := e in v.
Definition Code (e : XError) : Z := let 'xerror _ c _ _ := e in c.
Definition xmsg (e : XError) : string := let 'xerror _ _ m _ := e in m.
Definition Cause (e : XError) : goerror := let 'xerror _ _ _ c := e in c.

(** Error codes, in declaration order ([iota]). *)
Definition ErrCodeSuccess : Z := 0.
Definition ErrCodeOrdinary : Z := 1.
Definition ErrCodeInitChain : Z := 2.
Definition ErrCodeCheckTx : Z := 3.
Definition ErrCodeBeginBlock : Z := 4.
Definition ErrCodeDeliverTx : Z := 5.
Definition ErrCodeEndBlock : Z := 6.
Definition ErrCodeCommit : Z := 7.
Definition ErrCodeNotFoundAccount : Z := 8.
Definition ErrCodeInvalidAccountType : Z := 9.
Definition ErrCodeInvalidTrx : Z := 10.
Definition ErrCodeNotFoundTx : Z := 11.
Definition ErrCodeNotFoundDelegatee : Z := 12.
Definition ErrCodeNotFoundStake : Z := 13.
Definition ErrCodeNotFoundProposal : Z := 14.
Definition ErrCodeNotFoundVoter : Z := 15.
Definition ErrCodeNotFoundReward : Z := 16.
Definition ErrCodeUpdatableStakeRatio : Z := 17.
Definition ErrCodeQuery : Z := 1000.
Definition ErrCodeInvalidQueryPath : Z := 1001.
Definition ErrCodeInvalidQueryParams : Z := 1002.
Definition ErrCodeNotFoundResult : Z := 1003.

Definition New (code : Z) (msg : string) (err : goerror) : XError := xerror None code msg err.
Definition NewOrdinary (msg : string) : XError := xerror None ErrCodeOrdinary msg nilerr.

(** The text of an error: the message, then the text of the cause. *)
Fixpoint ErrorText (e : XError) : string :=
  let 'xerror _ _ m c := e in
  match c with
  | nilerr => m
  | plainerr t => (m +:+ String (Ascii.ascii_of_nat 10) (String (Ascii.ascii_of_nat 9) t))%string
  | xcause e' => (m +:+ String (Ascii.ascii_of_nat 10) (String (Ascii.ascii_of_nat 9) (ErrorText e')))%string
  end.

Definition goerror_text (c : goerror) : string :=
  match c with nilerr => "<nil>" | plainerr t => t | xcause e => ErrorText e end.

(** [From err]: an ordinary error with the text of [err]; [nil] stays [nil]. *)
Definition From (err : goerror) : option XError :=
  match err with nilerr => None | _ => Some (NewOrdinary (goerror_text err)) end.

(** [xerrors.Wrap(err, msg)], the package function. *)
Definition WrapMsg (err : goerror) (msg : string) : XError := xerror None ErrCodeOrdinary msg err.

(** [Wrap] of [xerror]: the new cause goes to the end of the chain of
    [XError] causes; a plain error at the end of the chain is replaced. *)
Fixpoint Wrap (e : XError) (err : goerror) : XError :=
  let 'xerror _ c m cause := e in
  match cause with
  | xcause w => xerror None c m (xcause (Wrap w err))
  | _ => xerror None c m err
  end.

Definition Wrapf (e : XError) (format : string) : XError := Wrap e (plainerr format).

(** [xerrors.Cause(err)]: follow the causes while they are [XError]s. *)
Fixpoint RootCause (e : XError) : goerror :=
  let 'xerror _ _ _ c := e in
  match c with xcause e' => RootCause e' | _ => c end.

(** Package variables. *)
Definition errvar (name : string) (code : Z) (msg : string) : XError :=
  xerror (Some name) code msg nilerr.
Definition errwrap (name : string) (code : Z) (msg detail : string) : XError :=
  xerror (Some name) code msg (plainerr detail).

Definition ErrInitChain := errvar "ErrInitChain" ErrCodeInitChain "InitChain failed".
Definition ErrCheckTx := errvar "ErrCheckTx" ErrCodeCheckTx "CheckTx failed".
Definition ErrBeginBlock := errvar "ErrBeginBlock" ErrCodeBeginBlock "BeginBlock failed".
Definition ErrDeliverTx := errvar "ErrDeliverTx" ErrCodeDeliverTx "DeliverTx failed".
Definition ErrCommit := errvar "ErrCommit" ErrCodeCommit "Commit failed".
Definition ErrQuery := errvar "ErrQuery" ErrCodeQuery "query failed".
Definition ErrNotFoundAccount := errvar "ErrNotFoundAccount" ErrCodeNotFoundAccount "not found account".
Definition ErrInvalidTrx := errvar "ErrInvalidTrx" ErrCodeInvalidTrx "invalid transaction".
Definition ErrInvalidGas := errwrap "ErrInvalidGas" ErrCodeInvalidTrx "invalid transaction" "invalid gas".
Definition ErrInvalidGasPrice := errwrap "ErrInvalidGasPrice" ErrCodeInvalidTrx "invalid transaction" "invalid gas price".
Definition ErrInvalidAddress := errwrap "ErrInvalidAddress" ErrCodeInvalidTrx "invalid transaction" "invalid address".
Definition ErrInvalidNonce := errwrap "ErrInvalidNonce" ErrCodeInvalidTrx "invalid transaction" "invalid nonce".
Definition ErrInvalidAmount := errwrap "ErrInvalidAmount" ErrCodeInvalidTrx "invalid transaction" "invalid amount".
Definition ErrInsufficientFund := errwrap "ErrInsufficientFund" ErrCodeInvalidTrx "invalid transaction" "insufficient fund".
Definition ErrInvalidTrxPayloadType := errwrap "ErrInvalidTrxPayloadType" ErrCodeInvalidTrx "invalid transaction" "wrong transaction payload type".
Definition ErrInvalidTrxPayloadParams := errwrap "ErrInvalidTrxPayloadParams" ErrCodeInvalidTrx "invalid transaction" "invalid params of transaction payload".
Definition ErrInvalidTrxSig := errwrap "ErrInvalidTrxSig" ErrCodeInvalidTrx "invalid transaction" "invalid signature".
Definition ErrNotFoundDelegatee := errvar "ErrNotFoundDelegatee" ErrCodeNotFoundDelegatee "not found delegatee".
Definition ErrNotFoundStake := errvar "ErrNotFoundStake" ErrCodeNotFoundStake "not found stake".
Definition ErrNotFoundProposal := errvar "ErrNotFoundProposal" ErrCodeNotFoundProposal "not found proposal".
Definition ErrNotFoundVoter := errvar "ErrNotFoundVoter" ErrCodeNotFoundVoter "not found voter".
Definition ErrUpdatableStakeRatio := errvar "ErrUpdatableStakeRatio" ErrCodeUpdatableStakeRatio "exceeded updatable stake ratio".
Definition ErrInvalidQueryPath := errvar "ErrInvalidQueryPath" ErrCodeInvalidQueryPath "invalid query path".
Definition ErrNotFoundResult := errvar "ErrNotFoundResult" ErrCodeNotFoundResult "not found result".
Definition ErrUnknownTrxType := errvar "ErrUnknownTrxType" ErrCodeOrdinary "unknown transaction type".
Definition ErrNoRight := errvar "ErrNoRight" ErrCodeOrdinary "no right".
Definition ErrNotVotingPeriod := errvar "ErrNotVotingPeriod" ErrCodeOrdinary "not voting period".
Definition ErrDuplicatedKey := errvar "ErrDuplicatedKey" ErrCodeOrdinary "already existed key".

(** [xerr == xerrors.ErrX]: pointer equality with a package variable. *)
Definition is_errvar (e v : XError) : bool :=
  match xvar e, xvar v with Some a, Some b => bool_decide (a = b) | _, _ => false end.

(** The chain of [XError]s of an error, outermost first. *)
Fixpoint xchain (e : XError) : list (Z * string) :=
  let 'xerror _ c m cause := e in
  (c, m) :: match cause with xcause e' => xchain e' | _ => [] end.

Lemma wrap_code e err : Code (Wrap e err) = Code e.
Proof. destruct e as [v c m [| |w]]; done. Qed.

Lemma wrap_fresh e err : xvar (Wrap e err) = None.
Proof. destruct e as [v c m [| |w]]; done. Qed.
#[export] Hint Rewrite wrap_code wrap_fresh : rigo_z.

Lemma wrap_not_var e err v : is_errvar (Wrap e err) v = false.
Proof. unfold is_errvar. by rewrite wrap_fresh. Qed.

(** [Wrap] keeps the whole chain of error codes and messages of the error
    it extends, appends the wrapped error at its end (with its own chain when it
    is an [XError] itself) and makes it the root cause; in particular the code
    reported to the consensus engine is that of the outermost error. *)
Theorem wrap_appends (e : XError) (err : goerror) :
  Code (Wrap e err) = Code e /\
  xchain (Wrap e err) = xchain e ++ match err with xcause e' => xchain e' | _ => [] end /\
  RootCause (Wrap e err) = match err with xcause e' => RootCause e' | _ => err end.
Proof.
  split; [apply wrap_code|].
  revert e. apply (XError_mut
    (fun e => xchain (Wrap e err) = xchain e ++ match err with xcause e' => xchain e' | _ => [] end /\
              RootCause (Wrap e err) = match err with xcause e' => RootCause e' | _ => err end)
    (fun c => match c with
              | xcause e => xchain (Wrap e err) = xchain e ++ match err with xcause e' => xchain e' | _ => [] end /\
                            RootCause (Wrap e err) = match err with xcause e' => RootCause e' | _ => err end
              | _ => True end)); try done.
  intros v c m [|t|w] IH; simpl.
  - by destruct err.
  - by destruct err.
  - destruct IH as [-> ->]. done.
Qed.
