(* ===== verification/GoSem.v ===== *)
(** * The effects of the Go code

    - [outcome]: a call returns a value, returns an [XError], or panics;
    - [GoM S]: a computation over a state [S].  An error does not undo the
      mutations made before it: the state is threaded through all outcomes;
    - [heap]: the objects that pointers of one struct type refer to, so that
      two pointers to one object see each other's updates;
    - [lens]/[zoom]: running the method of a field on the enclosing struct. *)

From S2P Require Import Prelude Xerrors.

Inductive outcome (A : Type) : Type :=
  | Ret (a : A)
  | Err (e : XError)
  | Panic.
Arguments Ret {A} _.
Arguments Err {A} _.
Arguments Panic {A}.

Definition GoM (S A : Type) : Type := S -> outcome A * S.

Section Monad.
Context {S : Type}.

Definition retM {A} (a : A) : GoM S A := fun s => (Ret a, s).
Definition errM {A} (e : XError) : GoM S A := fun s => (Err e, s).
Definition panicM {A} : GoM S A := fun s => (Panic, s).
Definition liftO {A} (o : outcome A) : GoM S A := fun s => (o, s).

Definition bindM {A B} (m : GoM S A) (k : A -> GoM S B) : GoM S B :=
  fun s => match m s with
           | (Ret a, s') => k a s'
           | (Err e, s') => (Err e, s')
           | (Panic, s') => (Panic, s')
           end.

(** [x, xerr := f()]: the error becomes a value, a panic goes through. *)
Definition tryM {A} (m : GoM S A) : GoM S (XError + A) :=
  fun s => match m s with
           | (Ret a, s') => (Ret (inr a), s')
           | (Err e, s') => (Ret (inl e), s')
           | (Panic, s') => (Panic, s')
           end.

(** [_ = f()] *)
Definition ignoreM {A} (m : GoM S A) : GoM S unit :=
  fun s => match m s with
           | (Panic, s') => (Panic, s')
           | (_, s') => (Ret tt, s')
           end.

Definition getM : GoM S S := fun s => (Ret s, s).
Definition getsM {A} (f : S -> A) : GoM S A := fun s => (Ret (f s), s).
Definition modifyM (f : S -> S) : GoM S unit := fun s => (Ret tt, f s).

(** [for _, x := range l { ... }] with early return on error. *)
Fixpoint forM_ {A} (l : list A) (f : A -> GoM S unit) : GoM S unit :=
  match l with
  | [] => retM tt
  | x :: l' => bindM (f x) (fun _ => forM_ l' f)
  end.

(** The same loop with an accumulator. *)
Fixpoint foldM {A B} (f : B -> A -> GoM S B) (l : list A) (acc : B) : GoM S B :=
  match l with
  | [] => retM acc
  | x :: l' => bindM (f acc x) (fun acc' => foldM f l' acc')
  end.
End Monad.

Notation "'let!' x ':=' m 'in' k" := (bindM m (fun x => k))
  (at level 10, x binder, m at level 150, k at level 200,
   format "'[v' '[' 'let!'  x  ':='  m  'in' ']' '/' k ']'") : go_scope.
Notation "'do!' m 'in' k" := (bindM m (fun _ => k))
  (at level 10, m at level 150, k at level 200,
   format "'[v' '[' 'do!'  m  'in' ']' '/' k ']'") : go_scope.
Open Scope go_scope.

(** [if b { return nil, e }] *)
Definition guardM {S} (b : bool) (e : XError) : GoM S unit := if b then retM tt else errM e.

Lemma bindM_ret {S A B} (a : A) (k : A -> GoM S B) s : bindM (retM a) k s = k a s.
Proof. done. Qed.

Lemma bindM_assoc {S A B C} (m : GoM S A) (k : A -> GoM S B) (h : B -> GoM S C) s :
  bindM (bindM m k) h s = bindM m (fun a => bindM (k a) h) s.
Proof. unfold bindM. by destruct (m s) as [[]]. Qed.

Lemma bindM_inv {S A B} (m : GoM S A) (k : A -> GoM S B) s b s' :
  bindM m k s = (Ret b, s') -> exists a s1, m s = (Ret a, s1) /\ k a s1 = (Ret b, s').
Proof. unfold bindM. destruct (m s) as [[a|e|] s1]; [eauto|done|done]. Qed.

Lemma bindM_step {S A B} (m : GoM S A) (k : A -> GoM S B) s a s1 :
  m s = (Ret a, s1) -> bindM m k s = k a s1.
Proof. unfold bindM. by intros ->. Qed.

Lemma tryM_ret {S A} (m : GoM S A) s a s1 : m s = (Ret a, s1) -> tryM m s = (Ret (inr a), s1).
Proof. unfold tryM. by intros ->. Qed.

Lemma tryM_err {S A} (m : GoM S A) s e s1 : m s = (Err e, s1) -> tryM m s = (Ret (inl e), s1).
Proof. unfold tryM. by intros ->. Qed.

Lemma tryM_inv {S A} (m : GoM S A) s r s' : tryM m s = (Ret r, s') -> m s = (match r with inl e => Err e | inr a => Ret a end, s').
Proof. unfold tryM. by destruct (m s) as [[]]; intros [= <- <-]. Qed.

Lemma forM_app {S A} (l1 l2 : list A) (f : A -> GoM S unit) s :
  forM_ (l1 ++ l2) f s = bindM (forM_ l1 f) (fun _ => forM_ l2 f) s.
Proof.
  revert s. induction l1 as [|x l1 IH]; intros s; simpl; [done|].
  rewrite bindM_assoc. unfold bindM in *. destruct (f x s) as [[a|e|] s1]; [apply IH|done|done].
Qed.

(** A loop keeps every property that its body keeps. *)
Lemma forM_invariant {S A} (P : S -> Prop) (l : list A) (f : A -> GoM S unit) :
  (forall x s, x ∈ l -> P s -> P (f x s).2) -> forall s, P s -> P (forM_ l f s).2.
Proof.
  induction l as [|x l IH]; intros Hf s Hs; simpl; [done|].
  unfold bindM. pose proof (Hf x s ltac:(set_solver) Hs) as Hx.
  destruct (f x s) as [[a|e|] s1]; simpl in *; try done.
  apply IH; [|done]. intros; apply Hf; set_solver.
Qed.

(** ** Frames

    [keeps R m]: the state after [m] is related by [R] to the state before it,
    whatever the outcome. *)
Definition keeps {S A} (R : relation S) (m : GoM S A) : Prop := forall s, R s (m s).2.

Section Keeps.
Context {S : Type} (R : relation S) `{!Reflexive R, !Transitive R}.

Lemma keeps_bind {A B} (m : GoM S A) (k : A -> GoM S B) :
  keeps R m -> (forall a, keeps R (k a)) -> keeps R (bindM m k).
Proof.
  intros Hm Hk s. unfold bindM. specialize (Hm s). destruct (m s) as [[a|e|] s1]; simpl in *; [|done|done].
  etrans; [exact Hm|apply Hk].
Qed.
Lemma keeps_ret {A} (a : A) : keeps R (retM a). Proof. by intros s. Qed.
Lemma keeps_err {A} e : keeps R (errM (A := A) e). Proof. by intros s. Qed.
Lemma keeps_panic {A} : keeps R (panicM (A := A)). Proof. by intros s. Qed.
Lemma keeps_lift {A} (o : outcome A) : keeps R (liftO o). Proof. by intros s. Qed.
Lemma keeps_gets {A} (f : S -> A) : keeps R (getsM f). Proof. by intros s. Qed.
Lemma keeps_guard b e : keeps R (guardM b e). Proof. by destruct b. Qed.
Lemma keeps_modify f : (forall s, R s (f s)) -> keeps R (modifyM f). Proof. by intros H s. Qed.
Lemma keeps_try {A} (m : GoM S A) : keeps R m -> keeps R (tryM m).
Proof. intros Hm s. specialize (Hm s). unfold tryM. by destruct (m s) as [[a|e|] s1]. Qed.
Lemma keeps_ignore {A} (m : GoM S A) : keeps R m -> keeps R (ignoreM m).
Proof. intros Hm s. specialize (Hm s). unfold ignoreM. by destruct (m s) as [[a|e|] s1]. Qed.
Lemma keeps_forM {A} (l : list A) (f : A -> GoM S unit) :
  (forall x, keeps R (f x)) -> keeps R (forM_ l f).
Proof.
  intros Hf. induction l as [|x l IH]; cbn [forM_]; [apply keeps_ret|by apply keeps_bind].
Qed.
Lemma keeps_forM_in {A} (l : list A) (f : A -> GoM S unit) :
  (forall x, x ∈ l -> keeps R (f x)) -> keeps R (forM_ l f).
Proof.
  induction l as [|x l IH]; intros Hf; cbn [forM_]; [apply keeps_ret|]. apply keeps_bind; [apply Hf; left|intros _; apply IH].
  intros y Hy. apply Hf. by right.
Qed.
End Keeps.

(** Walks through a computation; leaves the primitive steps to the caller. *)
Ltac keeps_tac :=
  repeat first
    [ apply keeps_bind; [exact _| |intros ?]
    | apply keeps_ret; exact _ | apply keeps_err; exact _ | apply keeps_panic; exact _
    | apply keeps_lift; exact _ | apply keeps_gets; exact _ | apply keeps_guard; exact _
    | apply keeps_try | apply keeps_ignore | apply keeps_forM; [exact _|exact _|intros ?]
    | case_match ].

(** ** Computations that return or panic

    Methods without an error result. *)
Definition never_err {S A} (m : GoM S A) : Prop := forall s e, (m s).1 <> Err e.

Section NeverErr.
Context {S : Type}.
Lemma ne_bind {A B} (m : GoM S A) (k : A -> GoM S B) : never_err m -> (forall a, never_err (k a)) -> never_err (bindM m k).
Proof. intros Hm Hk s e. unfold bindM. specialize (Hm s). destruct (m s) as [[a|x|] s1]; cbn in *; [apply Hk|naive_solver|done]. Qed.
Lemma ne_ret {A} (a : A) : never_err (S := S) (retM a). Proof. done. Qed.
Lemma ne_panic {A} : never_err (S := S) (panicM (A := A)). Proof. done. Qed.
Lemma ne_gets {A} (f : S -> A) : never_err (getsM f). Proof. done. Qed.
Lemma ne_modify (f : S -> S) : never_err (modifyM f). Proof. done. Qed.
Lemma ne_try {A} (m : GoM S A) : never_err (tryM m).
Proof. intros s e. unfold tryM. by destruct (m s) as [[a|x|] s1]. Qed.
Lemma ne_ignore {A} (m : GoM S A) : never_err (ignoreM m).
Proof. intros s e. unfold ignoreM. by destruct (m s) as [[a|x|] s1]. Qed.
Lemma ne_lift {A} (o : outcome A) : (forall e, o <> Err e) -> never_err (S := S) (liftO o).
Proof. intros H s e. apply H. Qed.
Lemma ne_forM {A} (l : list A) (f : A -> GoM S unit) : (forall x, never_err (f x)) -> never_err (forM_ l f).
Proof. intros Hf. induction l as [|x l IH]; cbn [forM_]; [done|by apply ne_bind]. Qed.

(** The two ways in which a sequence fails. *)
Lemma bindM_err_inv {A B} (m : GoM S A) (k : A -> GoM S B) s e s' :
  bindM m k s = (Err e, s') -> m s = (Err e, s') \/ exists a s1, m s = (Ret a, s1) /\ k a s1 = (Err e, s').
Proof. unfold bindM. destruct (m s) as [[a|x|] s1]; [eauto|intros [= <- <-]; by left|done]. Qed.

Lemma ne_err_inv {A B} (m : GoM S A) (k : A -> GoM S B) s e s' :
  never_err m -> bindM m k s = (Err e, s') -> exists a s1, m s = (Ret a, s1) /\ k a s1 = (Err e, s').
Proof. intros Hm [H|H]%bindM_err_inv; [|done]. specialize (Hm s e). by rewrite H in Hm. Qed.
End NeverErr.

Ltac ne_tac :=
  repeat first
    [ apply ne_bind; [|intros ?] | apply ne_ret | apply ne_panic | apply ne_gets | apply ne_modify | apply ne_try | apply ne_ignore
    | apply ne_forM; intros ? | case_match ].

(** ** Lenses *)
Record lens (S A : Type) : Type := Lens { lget : S -> A; lset : A -> S -> S }.
Arguments Lens {S A} _ _.
Arguments lget {S A} _ _.
Arguments lset {S A} _ _ _.

Class LensLaws {S A} (l : lens S A) : Prop := {
  lget_lset : forall a s, lget l (lset l a s) = a;
  lset_lget : forall s, lset l (lget l s) s = s;
  lset_lset : forall a b s, lset l a (lset l b s) = lset l a s;
}.

Definition zoom {S A B} (l : lens S A) (m : GoM A B) : GoM S B :=
  fun s => let '(r, a) := m (lget l s) in (r, lset l a s).

Definition lens_id {S} : lens S S := Lens (fun s => s) (fun a _ => a).
Definition lens_comp {S A B} (l1 : lens S A) (l2 : lens A B) : lens S B :=
  Lens (fun s => lget l2 (lget l1 s)) (fun b s => lset l1 (lset l2 b (lget l1 s)) s).
Definition lens_fst {A B} : lens (A * B) A := Lens fst (fun a p => (a, p.2)).
Definition lens_snd {A B} : lens (A * B) B := Lens snd (fun b p => (p.1, b)).

#[export] Instance lens_id_laws {S} : LensLaws (@lens_id S).
Proof. by constructor. Qed.
#[export] Instance lens_fst_laws {A B} : LensLaws (@lens_fst A B).
Proof. constructor; simpl; auto. by intros []. Qed.
#[export] Instance lens_snd_laws {A B} : LensLaws (@lens_snd A B).
Proof. constructor; simpl; auto. by intros []. Qed.

Lemma zoom_eq {S A B} (l : lens S A) (m : GoM A B) s r a :
  m (lget l s) = (r, a) -> zoom l m s = (r, lset l a s).
Proof. unfold zoom. by intros ->. Qed.

Lemma zoom_inv {S A B} (l : lens S A) (m : GoM A B) s r s' :
  zoom l m s = (r, s') -> exists a, m (lget l s) = (r, a) /\ s' = lset l a s.
Proof. unfold zoom. destruct (m (lget l s)) as [r0 a]. intros [= <- <-]. eauto. Qed.

Lemma ne_zoom {S A B} (l : lens S A) (m : GoM A B) : never_err m -> never_err (zoom l m).
Proof. intros Hm s e. unfold zoom. specialize (Hm (lget l s)). destruct (m (lget l s)) as [r a]. apply Hm. Qed.

(** ** Heaps of objects of one struct type *)
Abbreviation loc := positive (only parsing).

Record heap (T : Type) : Type := Heap { objs : gmap positive T; hnext : positive }.
Arguments Heap {T} _ _.
Arguments objs {T} _.
Arguments hnext {T} _.

Definition heap_empty {T} : heap T := Heap ∅ 1%positive.
Definition heap_alloc {T} (x : T) (h : heap T) : loc * heap T :=
  (hnext h, Heap (<[hnext h := x]> (objs h)) (Pos.succ (hnext h))).
Definition heap_store {T} (p : loc) (x : T) (h : heap T) : heap T :=
  Heap (<[p := x]> (objs h)) (hnext h).

(** Every allocated address is below [hnext]. *)
Definition heap_wf {T} (h : heap T) : Prop := forall p x, objs h !! p = Some x -> (p < hnext h)%positive.

Lemma heap_wf_empty {T} : heap_wf (@heap_empty T).
Proof. intros p x H. simpl in H. by rewrite lookup_empty in H. Qed.

Lemma heap_alloc_wf {T} (x : T) h : heap_wf h -> heap_wf (heap_alloc x h).2.
Proof.
  intros Hwf p y; simpl. rewrite lookup_insert. case_decide; intros Hq; simplify_eq; [lia|].
  apply Hwf in Hq. lia.
Qed.

Lemma heap_store_wf {T} p (x y : T) h : objs h !! p = Some y -> heap_wf h -> heap_wf (heap_store p x h).
Proof.
  intros Hp Hwf q z; simpl. rewrite lookup_insert. case_decide; intros Hq; simplify_eq; eauto.
Qed.

Lemma heap_alloc_fresh {T} (x : T) h q y :
  heap_wf h -> objs h !! q = Some y -> objs (heap_alloc x h).2 !! q = Some y.
Proof.
  intros Hwf Hq. simpl. rewrite lookup_insert_ne; [done|]. apply Hwf in Hq. lia.
Qed.
#[export] Hint Resolve heap_wf_empty heap_alloc_wf heap_store_wf heap_alloc_fresh : rigo.
