(* ===== verification/Bytes.v ===== *)
(** * Bytes, addresses and amounts

    [types/bytes/hex_bytes.go], [types/address.go], [types/asset.go],
    [libs/utils.go] and [ToLedgerKey] of [ledger/types.go], with what they use
    of [encoding/hex] and of the big-endian form of [uint256.Int]. *)

From Stdlib Require Import Strings.Byte.
From S2P Require Import Prelude Xerrors GoSem.

(** ** [libs/utils.go] *)
Definition MAX (a b : Z) : Z := if b <? a then a else b.
Definition MIN (a b : Z) : Z := if a <? b then a else b.

(** ** [encoding/hex] *)
Definition hexdigits : list byte :=
  ["0"; "1"; "2"; "3"; "4"; "5"; "6"; "7"; "8"; "9"; "A"; "B"; "C"; "D"; "E"; "F"]%byte.

(** The upper-case digit of a value below 16. *)
Definition hexdigit (v : Z) : byte := default "0"%byte (hexdigits !! Z.to_nat v).

Definition hexval (c : byte) : option Z :=
  let v := byte_val c in
  if (48 <=? v) && (v <=? 57) then Some (v - 48)
  else if (65 <=? v) && (v <=? 70) then Some (v - 55)
  else if (97 <=? v) && (v <=? 102) then Some (v - 87)
  else None.

(** [strings.ToUpper(hex.EncodeToString(hb))] *)
Definition hex_Upper (hb : bytes) : bytes :=
  concat (map (fun b => [hexdigit (byte_val b / 16); hexdigit (byte_val b mod 16)]) hb).

(** [hex.EncodeToString], which writes small letters. *)
Definition hexdigit_lower (d : Z) : Byte.byte := byte_of_Z (if d <? 10 then 48 + d else 87 + d).
Definition hex_EncodeToString (hb : bytes) : bytes :=
  concat (map (fun b => [hexdigit_lower (byte_val b / 16); hexdigit_lower (byte_val b mod 16)]) hb).

(** [hex.DecodeString]: an odd length or a wrong digit is an error. *)
Fixpoint hex_DecodeString (s : bytes) : option bytes :=
  match s with
  | [] => Some []
  | [_] => None
  | c1 :: c2 :: s' =>
      h ← hexval c1; l ← hexval c2; r ← hex_DecodeString s'; Some (byte_of_Z (h * 16 + l) :: r)
  end.

(** ** Decimal numbers, as written by [%d] and [strconv] *)
Definition digit_char (d : Z) : Ascii.ascii := Ascii.ascii_of_N (48 + Z.to_N d).
Definition char_digit (c : Ascii.ascii) : option Z :=
  let n := Z.of_N (Ascii.N_of_ascii c) in if (48 <=? n) && (n <=? 57) then Some (n - 48) else None.

Fixpoint dec_digits (fuel : nat) (z : Z) (acc : string) : string :=
  let acc' := String.String (digit_char (z mod 10)) acc in
  match fuel with
  | O => acc'
  | S n => if z / 10 =? 0 then acc' else dec_digits n (z / 10) acc'
  end.

Fixpoint parse_digits (s : string) (acc : Z) : option Z :=
  match s with
  | String.EmptyString => Some acc
  | String.String c s' => d ← char_digit c; parse_digits s' (acc * 10 + d)
  end.

(** [strconv.FormatInt(z, 10)] and [strconv.ParseInt(s, 10, 64)]. *)
Definition FormatInt (z : Z) : string := if z <? 0 then String.String (Ascii.ascii_of_nat 45) (dec_digits 19 (- z) "") else dec_digits 19 z "".
Definition ParseInt (s : string) : option Z :=
  let check o := z ← o; if (- 2 ^ 63 <=? z) && (z <? 2 ^ 63) then Some z else None in
  match s with
  | String.EmptyString => None
  | String.String c s' =>
      if bool_decide (c = Ascii.ascii_of_nat 45) then (match s' with String.EmptyString => None | _ => check (Z.opp <$> parse_digits s' 0) end)
      else if bool_decide (c = Ascii.ascii_of_nat 43) then (match s' with String.EmptyString => None | _ => check (parse_digits s' 0) end)
      else check (parse_digits s 0)
  end.

(** ** [HexBytes] *)
Definition Compare (h1 h2 : bytes) : Z :=
  match bytes_cmp h1 h2 with Lt => -1 | Eq => 0 | Gt => 1 end.

Definition HexBytes_String (hb : bytes) : bytes := hex_Upper hb.

Definition HexBytes_MarshalJSON (hb : bytes) : bytes :=
  [Byte.x22] ++ hex_Upper hb ++ [Byte.x22].

Definition trim_0x (s : bytes) : bytes :=
  match s with
  | c1 :: c2 :: r => if bool_decide (c1 = "0"%byte) && bool_decide (c2 = "x"%byte) then r else s
  | _ => s
  end.

(** [UnmarshalJSON]: at least two bytes, quotes at both ends, an optional [0x]. *)
Definition HexBytes_UnmarshalJSON (data : bytes) : option bytes :=
  match data with
  | q :: rest =>
      match reverse rest with
      | q' :: inner =>
          if bool_decide (q = Byte.x22) && bool_decide (q' = Byte.x22)
          then hex_DecodeString (trim_0x (reverse inner)) else None
      | [] => None
      end
  | [] => None
  end.

(** Copies into arrays of fixed size: truncate, then pad with zeros. *)
Definition to_array (n : nat) (hb : bytes) : bytes := take n hb ++ replicate (n - length hb) Byte.x00.
Definition Array20 (hb : bytes) : bytes := to_array 20 hb.
Definition Array32 (hb : bytes) : bytes := to_array 32 hb.

Definition LEDGERKEYSIZE : nat := 32.
Definition ToLedgerKey (s : bytes) : bytes :=
  let n := Nat.min (length s) LEDGERKEYSIZE in
  take n s ++ replicate (LEDGERKEYSIZE - n) Byte.x00.

Definition ZeroBytes (n : nat) : bytes := replicate n Byte.x00.

(** ** Addresses *)
Definition AddrSize : nat := 20.
Definition ZeroAddress : bytes := ZeroBytes AddrSize.
Definition IsZeroAddress (addr : bytes) : bool := forallb (fun b => bool_decide (b = Byte.x00)) addr.

Definition HexToAddress (hex : bytes) : outcome bytes :=
  match hex_DecodeString (trim_0x hex) with
  | None => Err (NewOrdinary "encoding/hex")
  | Some bz =>
      if (length bz =? AddrSize)%nat then Ret bz
      else Err (NewOrdinary "error of address length: address length should be 20 bytes")
  end.

(** ** Amounts *)
Definition oneCoinInFons : Z := 1000000000000000000.
Definition ToFons (n : Z) : Z := u256 (n * oneCoinInFons).
Definition FromFons (sau : Z) : Z * Z := (u64 (sau / oneCoinInFons), u64 (sau mod oneCoinInFons)).

(** [Bytes] of [uint256.Int]: big-endian without leading zeros;
    [SetBytes]: big-endian, the last 32 bytes of a longer slice. *)
Fixpoint be_fixed (n : nat) (z : Z) : bytes :=
  match n with O => [] | S n' => be_fixed n' (z / 256) ++ [byte_of_Z z] end.

Fixpoint strip_zeros (l : bytes) : bytes :=
  match l with
  | b :: l' => if bool_decide (b = Byte.x00) then strip_zeros l' else l
  | [] => []
  end.

Definition be_value (l : bytes) : Z := fold_left (fun acc b => acc * 256 + byte_val b) l 0.

Definition u256_Bytes (z : Z) : bytes := strip_zeros (be_fixed 32 z).
Definition u256_SetBytes (l : bytes) : Z := be_value (drop (length l - 32) l).

#[global] Arguments u256_Bytes : simpl never.
#[global] Arguments u256_SetBytes : simpl never.
#[global] Arguments ToLedgerKey : simpl never.
#[global] Arguments Array32 : simpl never.

(** ** Lemmas *)
Lemma compare_eq h1 h2 : Compare h1 h2 = 0 <-> h1 = h2.
Proof.
  unfold Compare. rewrite <- bytes_cmp_eq. destruct (bytes_cmp h1 h2); split; done || lia.
Qed.

Lemma compare_lt h1 h2 : (Compare h1 h2 <? 0) = bytes_ltb h1 h2.
Proof. unfold Compare, bytes_ltb. by destruct (bytes_cmp h1 h2). Qed.

Lemma length_to_array n hb : length (to_array n hb) = n.
Proof. unfold to_array. rewrite length_app, length_take, length_replicate. lia. Qed.

Lemma to_ledger_key_array s : ToLedgerKey s = Array32 s.
Proof.
  unfold ToLedgerKey, Array32, to_array, LEDGERKEYSIZE.
  destruct (decide (length s <= 32)%nat).
  - rewrite Nat.min_l by lia. rewrite !take_ge by lia. done.
  - rewrite Nat.min_r by lia. do 2 f_equal. lia.
Qed.

Lemma length_ledger_key s : length (ToLedgerKey s) = LEDGERKEYSIZE.
Proof. rewrite to_ledger_key_array. apply length_to_array. Qed.

(** Distinct addresses have distinct ledger keys. *)
Lemma ledger_key_inj a b :
  (length a = length b)%nat -> (length a <= 32)%nat -> ToLedgerKey a = ToLedgerKey b -> a = b.
Proof.
  intros Hl Hle. rewrite !to_ledger_key_array. unfold Array32, to_array.
  rewrite !take_ge by lia. intros H. apply app_inj_1 in H as [H _]; done.
Qed.

Lemma to_ledger_key_id k : length k = LEDGERKEYSIZE -> ToLedgerKey k = k.
Proof.
  intros H. rewrite to_ledger_key_array. unfold Array32, to_array, LEDGERKEYSIZE in *.
  rewrite take_ge by lia. rewrite H, Nat.sub_diag. apply app_nil_r.
Qed.

Lemma hexval_digit v : 0 <= v < 16 -> hexval (hexdigit v) = Some v.
Proof.
  intros H. assert (Hv : exists n, v = Z.of_nat n /\ (n < 16)%nat)
    by (exists (Z.to_nat v); lia).
  destruct Hv as (n & -> & Hn). do 16 (destruct n as [|n]; [reflexivity|]). lia.
Qed.

Lemma hex_decode_upper hb : hex_DecodeString (hex_Upper hb) = Some hb.
Proof.
  unfold hex_Upper. induction hb as [|b hb IH]; [done|]. cbn [map concat app hex_DecodeString].
  pose proof (byte_val_bound b).
  rewrite !hexval_digit by (Z.div_mod_to_equations; lia).
  simpl. rewrite IH. simpl. do 2 f_equal.
  replace (byte_val b / 16 * 16 + byte_val b mod 16) with (byte_val b);
    [apply byte_of_Z_val|rewrite (Z.div_mod (byte_val b) 16) at 1; lia].
Qed.

Lemma hexdigit_not_x v : hexdigit v <> "x"%byte.
Proof.
  unfold hexdigit. destruct (hexdigits !! Z.to_nat v) as [c|] eqn:E; [|done]. simpl.
  apply list_elem_of_lookup_2 in E. unfold hexdigits in E. intros ->.
  repeat (apply elem_of_cons in E as [E|E]; [discriminate E|]). by apply not_elem_of_nil in E.
Qed.

Lemma trim_0x_upper hb : trim_0x (hex_Upper hb) = hex_Upper hb.
Proof.
  destruct hb as [|b hb]; [done|]. unfold hex_Upper. cbn [map concat app trim_0x].
  rewrite (bool_decide_eq_false_2 (hexdigit (byte_val b mod 16) = "x"%byte)) by apply hexdigit_not_x.
  by rewrite andb_false_r.
Qed.

Lemma be_value_app l1 l2 : be_value (l1 ++ l2) = fold_left (fun acc b => acc * 256 + byte_val b) l2 (be_value l1).
Proof. unfold be_value. by rewrite fold_left_app. Qed.

Lemma be_value_fixed n z : be_value (be_fixed n z) = z mod 256 ^ Z.of_nat n.
Proof.
  revert z. induction n as [|n IH]; intros z; cbn [be_fixed].
  { rewrite Z.mod_1_r. done. }
  rewrite be_value_app, IH. simpl fold_left. rewrite byte_val_of_Z.
  rewrite Nat2Z.inj_succ, Z.pow_succ_r by lia.
  rewrite Z.rem_mul_r by lia. lia.
Qed.

Lemma be_value_bound l : 0 <= be_value l < 256 ^ Z.of_nat (length l).
Proof.
  induction l as [|b l IH] using rev_ind; [done|]. rewrite be_value_app, length_app. cbn [fold_left length].
  rewrite Nat.add_1_r, Nat2Z.inj_succ, Z.pow_succ_r by lia. pose proof (byte_val_bound b). lia.
Qed.

Lemma be_value_strip l : be_value (strip_zeros l) = be_value l.
Proof.
  induction l as [|b l IH]; simpl; [done|]. case_bool_decide as E; [|done]. subst.
  rewrite IH. unfold be_value. simpl. done.
Qed.

Lemma length_be_fixed n z : length (be_fixed n z) = n.
Proof. revert z; induction n; intros; simpl; [done|]. rewrite length_app, IHn. simpl. lia. Qed.

Lemma length_strip l : (length (strip_zeros l) <= length l)%nat.
Proof. induction l as [|b l IH]; simpl; [done|]. case_bool_decide; simpl; lia. Qed.

Lemma u256_set_bytes_range l : is_u256 (u256_SetBytes l).
Proof.
  unfold u256_SetBytes, is_u256. pose proof (be_value_bound (drop (length l - 32) l)) as [H0 H]. split; [done|]. eapply Z.lt_le_trans; [exact H|].
  change (2 ^ 256) with (256 ^ 32). apply Z.pow_le_mono_r; [lia|]. rewrite length_drop. lia.
Qed.

Lemma u256_set_bytes z : is_u256 z -> u256_SetBytes (u256_Bytes z) = z.
Proof.
  intros Hz. unfold u256_SetBytes.
  pose proof (length_strip (be_fixed 32 z)) as Hl. rewrite length_be_fixed in Hl.
  fold (u256_Bytes z) in Hl. replace (length (u256_Bytes z) - 32)%nat with 0%nat by lia.
  rewrite drop_0. unfold u256_Bytes. rewrite be_value_strip, be_value_fixed.
  apply Z.mod_small. unfold is_u256 in Hz. lia.
Qed.
#[export] Hint Resolve u256_set_bytes length_ledger_key : rigo.
#[export] Hint Rewrite length_ledger_key : rigo_z.

Lemma char_digit_char d : 0 <= d < 10 -> char_digit (digit_char d) = Some d.
Proof.
  intros H. assert (Hd : exists n, d = Z.of_nat n /\ (n < 10)%nat) by (exists (Z.to_nat d); lia).
  destruct Hd as (n & -> & Hn). do 10 (destruct n as [|n]; [reflexivity|]). lia.
Qed.

Lemma parse_dec_digits fuel z acc a :
  0 <= z < 10 ^ Z.of_nat (S fuel) ->
  exists k, parse_digits (dec_digits fuel z acc) a = parse_digits acc (a * k + z).
Proof.
  revert z acc. induction fuel as [|fuel IH]; intros z acc Hz; cbn [dec_digits].
  - exists 10. change (10 ^ Z.of_nat 1) with 10 in Hz. cbn [parse_digits].
    rewrite Z.mod_small, char_digit_char by lia. done.
  - pose proof (Z.mod_pos_bound z 10). destruct (z / 10 =? 0) eqn:E.
    + exists 10. cbn [parse_digits]. rewrite char_digit_char by lia. cbn.
      f_equal. pose proof (Z.div_mod z 10). lia.
    + destruct (IH (z / 10) (String.String (digit_char (z mod 10)) acc)) as [k Hk].
      { rewrite Nat2Z.inj_succ, Z.pow_succ_r in Hz by lia.
        split; [apply Z.div_pos; lia|apply Z.div_lt_upper_bound; lia]. }
      exists (k * 10). rewrite Hk. cbn [parse_digits]. rewrite char_digit_char by lia. cbn.
      f_equal. pose proof (Z.div_mod z 10). lia.
Qed.

Lemma dec_digits_nonempty fuel z acc : dec_digits fuel z acc <> ""%string.
Proof. revert z acc. induction fuel; intros; cbn [dec_digits]; [done|]. case_match; [done|apply IHfuel]. Qed.

Lemma digit_char_code d : 0 <= d < 10 -> Ascii.N_of_ascii (digit_char d) = (48 + Z.to_N d)%N.
Proof. intros Hd. unfold digit_char. apply Ascii.N_ascii_embedding. lia. Qed.

Lemma dec_digits_head fuel z acc : exists d s, dec_digits fuel z acc = String.String (digit_char d) s /\ 0 <= d < 10.
Proof.
  revert z acc. induction fuel as [|fuel IH]; intros z acc; cbn [dec_digits].
  - eexists _, _. split; [done|]. apply Z.mod_pos_bound. lia.
  - case_match; [|apply IH]. eexists _, _. split; [done|]. apply Z.mod_pos_bound. lia.
Qed.

Lemma parse_format z : 0 <= z < 2 ^ 63 -> ParseInt (FormatInt z) = Some z.
Proof.
  intros Hz. unfold FormatInt. rewrite (proj2 (Z.ltb_ge z 0)) by lia.
  destruct (parse_dec_digits 19 z "" 0) as [k Hk]; [change (10 ^ Z.of_nat 20) with 100000000000000000000; lia|]. cbn [parse_digits] in Hk.
  destruct (dec_digits_head 19 z "") as (d & s & Hd & Hr). unfold ParseInt. rewrite Hd in *. pose proof (digit_char_code d Hr) as Hc.
  assert (H45 : Ascii.N_of_ascii (Ascii.ascii_of_nat 45) = 45%N) by done. assert (H43 : Ascii.N_of_ascii (Ascii.ascii_of_nat 43) = 43%N) by done.
  rewrite !bool_decide_eq_false_2 by (intros He; rewrite He, ?H45, ?H43 in Hc; lia). rewrite Hk. cbn [mbind option_bind].
  replace (0 * k + z) with z by lia. rewrite (proj2 (Z.leb_le _ _)), (proj2 (Z.ltb_lt _ _)) by lia. done.
Qed.

(** A larger number has at least as many digits. *)
Lemma dec_digits_length fuel z z' acc acc' :
  0 <= z <= z' -> (String.length acc <= String.length acc')%nat ->
  (String.length (dec_digits fuel z acc) <= String.length (dec_digits fuel z' acc'))%nat.
Proof.
  assert (Hge : forall f y a, (String.length a < String.length (dec_digits f y a))%nat).
  { induction f as [|f IH]; intros y a; cbn [dec_digits]; [cbn; lia|].
    destruct (y / 10 =? 0); [cbn; lia|]. specialize (IH (y / 10) (String.String (digit_char (y mod 10)) a)).
    cbn in IH. lia. }
  revert z z' acc acc'. induction fuel as [|fuel IH]; intros z z' acc acc' Hz Hl; cbn [dec_digits]; [cbn; lia|].
  assert (z / 10 <= z' / 10) by (apply Z.div_le_mono; lia).
  assert (0 <= z / 10) by (apply Z.div_pos; lia).
  destruct (z / 10 =? 0) eqn:E; destruct (z' / 10 =? 0) eqn:E'; [cbn; lia| |lia|].
  - specialize (Hge fuel (z' / 10) (String.String (digit_char (z' mod 10)) acc')). cbn in *. lia.
  - apply IH; [lia|cbn; lia].
Qed.

(** JSON form of [HexBytes] (addresses, hashes and public keys in every
    stored delegatee, stake and proposal): decoding what [MarshalJSON] writes
    gives the bytes back, for every byte slice. *)
Theorem hexbytes_json_roundtrip (hb : bytes) :
  HexBytes_UnmarshalJSON (HexBytes_MarshalJSON hb) = Some hb.
Proof.
  unfold HexBytes_UnmarshalJSON, HexBytes_MarshalJSON. cbn [app].
  rewrite reverse_snoc, !bool_decide_eq_true_2 by done. cbn [andb].
  rewrite reverse_involutive, trim_0x_upper. apply hex_decode_upper.
Qed.
