(* ===== verification/Sha256.v ===== *)
(** * SHA-256, the default hash

    [crypto/sha256] of Go's standard library, which [DefaultHasher] of
    [types/crypto/crypto.go] returns: an executable definition over 32-bit words,
    with the constants computed from the primes they come from, test vectors and
    the length of a digest.  The components take the hash as a parameter; where a
    constant of the repository is a hash, this one checks it. *)

From Stdlib Require Import Strings.Byte.
From S2P Require Import Prelude Bytes.

(** ** Words *)
Definition word (z : Z) : Z := z mod 2 ^ 32.
Definition rotr (n x : Z) : Z := Z.lor (Z.shiftr x n) (word (Z.shiftl x (32 - n))).
Definition xor3 (a b c : Z) : Z := Z.lxor a (Z.lxor b c).
Definition choose (x y z : Z) : Z := Z.lxor (Z.land x y) (Z.land (2 ^ 32 - 1 - x) z).
Definition maj3 (x y z : Z) : Z := xor3 (Z.land x y) (Z.land x z) (Z.land y z).
Definition big0 (x : Z) : Z := xor3 (rotr 2 x) (rotr 13 x) (rotr 22 x).
Definition big1 (x : Z) : Z := xor3 (rotr 6 x) (rotr 11 x) (rotr 25 x).
Definition small0 (x : Z) : Z := xor3 (rotr 7 x) (rotr 18 x) (Z.shiftr x 3).
Definition small1 (x : Z) : Z := xor3 (rotr 17 x) (rotr 19 x) (Z.shiftr x 10).

(** ** Constants: the fractions of the square and cube roots of the first primes *)
Fixpoint primes_from (fuel : nat) (n : Z) (found : list Z) (k : nat) : list Z :=
  match fuel, k with
  | O, _ | _, O => found
  | S fuel', S k' =>
      if forallb (fun p => negb (n mod p =? 0)) found then primes_from fuel' (n + 1) (found ++ [n]) k' else primes_from fuel' (n + 1) found k
  end.
(** The 64th prime is 311. *)
Definition first_primes : list Z := primes_from 310 2 [] 64.

(** The cube root, bit by bit. *)
Fixpoint cbrt_from (bits : nat) (x r : Z) : Z :=
  match bits with
  | O => r
  | S b => let r' := r + 2 ^ Z.of_nat b in cbrt_from b x (if r' ^ 3 <=? x then r' else r)
  end.
Definition round_constants : list Z := Eval vm_compute in map (fun p => word (cbrt_from 36 (p * 2 ^ 96) 0)) first_primes.

Record digest : Type := mkDigest { d0 : Z; d1 : Z; d2 : Z; d3 : Z; d4 : Z; d5 : Z; d6 : Z; d7 : Z }.
Definition root_word (p : Z) : Z := word (Z.sqrt (p * 2 ^ 64)).
Definition initial : digest := Eval vm_compute in
  mkDigest (root_word 2) (root_word 3) (root_word 5) (root_word 7) (root_word 11) (root_word 13) (root_word 17) (root_word 19).

(** ** A block *)

(** The schedule, newest word first: each new word comes from four older ones. *)
Fixpoint schedule (n : nat) (ws : list Z) : list Z :=
  match n with
  | O => ws
  | S n' => schedule n' (word (small1 (nth 1 ws 0) + nth 6 ws 0 + small0 (nth 14 ws 0) + nth 15 ws 0) :: ws)
  end.
Definition round (s : digest) (kw : Z * Z) : digest :=
  let t1 := d7 s + big1 (d4 s) + choose (d4 s) (d5 s) (d6 s) + kw.1 + kw.2 in
  let t2 := big0 (d0 s) + maj3 (d0 s) (d1 s) (d2 s) in
  mkDigest (word (t1 + t2)) (d0 s) (d1 s) (d2 s) (word (d3 s + t1)) (d4 s) (d5 s) (d6 s).
Definition block (s : digest) (ws : list Z) : digest :=
  let r := fold_left round (combine round_constants (rev (schedule 48 (rev ws)))) s in
  mkDigest (word (d0 s + d0 r)) (word (d1 s + d1 r)) (word (d2 s + d2 r)) (word (d3 s + d3 r))
           (word (d4 s + d4 r)) (word (d5 s + d5 r)) (word (d6 s + d6 r)) (word (d7 s + d7 r)).

(** ** Messages *)

(** A one bit, zeros and the length in bits, up to a whole number of blocks. *)
Definition padded (m : list Byte.byte) : list Byte.byte :=
  m ++ [Byte.x80] ++ replicate (Z.to_nat ((55 - Z.of_nat (length m)) mod 64)) Byte.x00 ++ be_fixed 8 (8 * Z.of_nat (length m)).
Fixpoint words (m : list Byte.byte) : list Z :=
  match m with
  | a :: b :: c :: d :: r => (((byte_val a * 256 + byte_val b) * 256 + byte_val c) * 256 + byte_val d) :: words r
  | _ => []
  end.
Fixpoint blocks (n : nat) (ws : list Z) (s : digest) : digest :=
  match n with O => s | S n' => blocks n' (drop 16 ws) (block s (take 16 ws)) end.
Definition SHA256 (m : list Byte.byte) : list Byte.byte :=
  let ws := words (padded m) in
  let s := blocks (length ws / 16) ws initial in
  be_fixed 4 (d0 s) ++ be_fixed 4 (d1 s) ++ be_fixed 4 (d2 s) ++ be_fixed 4 (d3 s) ++ be_fixed 4 (d4 s) ++ be_fixed 4 (d5 s) ++ be_fixed 4 (d6 s) ++ be_fixed 4 (d7 s).

(** Test vectors: the empty message, one block, two blocks. *)
Example sha256_vectors :
  map (fun m => String.string_of_list_byte (hex_Upper (SHA256 (String.list_byte_of_string m))))
    [""; "abc"; "abcdbcdecdefdefgefghfghighijhijkijkljklmklmnlmnomnopnopq"]%string =
  ["E3B0C44298FC1C149AFBF4C8996FB92427AE41E4649B934CA495991B7852B855";
   "BA7816BF8F01CFEA414140DE5DAE2223B00361A396177A9CB410FF61F20015AD";
   "248D6A61D20638B8E5C026930C3E6039A33CE45964FF2167F6ECEDD419DB06C1"]%string.
Proof. vm_compute. reflexivity. Qed.

Lemma sha_length m : length (SHA256 m) = 32%nat.
Proof. unfold SHA256. cbv zeta. generalize (blocks (length (words (padded m)) / 16) (words (padded m)) initial). intros s. reflexivity. Qed.

(** Padding makes whole blocks. *)
Lemma sha_padded m : (64 | Z.of_nat (length (padded m))).
Proof.
  unfold padded. rewrite !length_app, length_replicate. change (length (be_fixed 8 (8 * Z.of_nat (length m)))) with 8%nat. cbn [length].
  set (n := Z.of_nat (length m)). pose proof (Z.mod_pos_bound (55 - n) 64). pose proof (Z.div_mod (55 - n) 64).
  exists (1 - (55 - n) / 64). lia.
Qed.
