(* ===== verification/Units.v ===== *)
(** * Packed versions and coin units: [cmd/version/version.go], [types/asset.go] *)

From Stdlib Require Import Strings.Byte.
From S2P Require Import Prelude Bytes.

(** ** Version numbers

    The four parts are variables of the package; the last is set when the program
    is built. *)
Record Version_ : Type := mkVersion { majorVer : Z; minorVer : Z; patchVer : Z; commitVer : Z }.

Definition MASK_MAJOR_VER : Z := 0xFF00000000000000.
Definition MASK_MINOR_VER : Z := 0x00FF000000000000.
Definition MASK_PATCH_VER : Z := 0x0000FFFF00000000.
Definition MASK_COMMIT_VER : Z := 0x00000000FFFFFFFF.

Definition version_mask (masks : list Z) : Z :=
  match masks with
  | [] => Z.lor (Z.lor (Z.lor MASK_MAJOR_VER MASK_MINOR_VER) MASK_PATCH_VER) MASK_COMMIT_VER
  | _ => fold_left Z.lor masks 0
  end.
Definition Uint64 (v : Version_) (masks : list Z) : Z :=
  Z.land (u64 (u64 (u64 (u64 (Z.shiftl (majorVer v) 56) + u64 (Z.shiftl (minorVer v) 48)) + u64 (Z.shiftl (patchVer v) 32)) + commitVer v)) (version_mask masks).
Definition Uint64Formated (v : Version_) (masks : list Z) : Z :=
  let mask := version_mask masks in
  let r := 0 in
  let r := if Z.land mask MASK_MAJOR_VER =? 0 then r else u64 (r + u64 (majorVer v * 1000000)) in
  let r := if Z.land mask MASK_MINOR_VER =? 0 then r else u64 (r + u64 (minorVer v * 1000)) in
  if Z.land mask MASK_PATCH_VER =? 0 then r else u64 (r + patchVer v).
(** The numbers that [Parse] prints. *)
Definition Parse (c : Z) : Version_ :=
  mkVersion (Z.land (Z.shiftr c 56) 0xFF) (Z.land (Z.shiftr c 48) 0xFF) (Z.land (Z.shiftr c 32) 0xFFFF) (Z.land c 0xFFFFFFFF).

(** The parts fit into their fields. *)
Definition version_fits (v : Version_) : Prop :=
  0 <= majorVer v < 2 ^ 8 /\ 0 <= minorVer v < 2 ^ 8 /\ 0 <= patchVer v < 2 ^ 16 /\ 0 <= commitVer v < 2 ^ 32.

Definition packed (v : Version_) : Z := majorVer v * 2 ^ 56 + minorVer v * 2 ^ 48 + patchVer v * 2 ^ 32 + commitVer v.

Lemma uint64_packed v : version_fits v -> Uint64 v [] = packed v.
Proof.
  intros (H1 & H2 & H3 & H4). unfold Uint64, packed. rewrite !Z.shiftl_mul_pow2 by lia.
  rewrite (u64_id (majorVer v * _)), (u64_id (minorVer v * _)), (u64_id (patchVer v * _)) by (unfold is_u64; lia). rewrite (u64_id (majorVer v * _ + _)) by (unfold is_u64; lia).
  rewrite (u64_id (_ + patchVer v * _)) by (unfold is_u64; lia). rewrite (u64_id (_ + commitVer v)) by (unfold is_u64; lia).
  change (version_mask []) with (Z.ones 64). rewrite Z.land_ones by lia. rewrite Z.mod_small by lia. done.
Qed.

(** A version that fits is printed from its packed form as it was. *)
Lemma version_roundtrip v : version_fits v -> Parse (Uint64 v []) = v.
Proof.
  intros Hv. rewrite (uint64_packed v Hv). destruct v as [a b c d]. destruct Hv as (H1 & H2 & H3 & H4). unfold Parse, packed in *. cbn [majorVer minorVer patchVer commitVer] in *.
  change 255 with (Z.ones 8). change 65535 with (Z.ones 16). change 4294967295 with (Z.ones 32). rewrite !Z.land_ones, !Z.shiftr_div_pow2 by lia.
  f_equal.
  - rewrite <-(Z.div_unique _ (2 ^ 56) a (b * 2 ^ 48 + c * 2 ^ 32 + d)) by lia. apply Z.mod_small. lia.
  - rewrite <-(Z.div_unique _ (2 ^ 48) (a * 2 ^ 8 + b) (c * 2 ^ 32 + d)) by lia. symmetry. apply (Z.mod_unique _ _ a); lia.
  - rewrite <-(Z.div_unique _ (2 ^ 32) (a * 2 ^ 24 + b * 2 ^ 16 + c) d) by lia. symmetry. apply (Z.mod_unique _ _ (a * 2 ^ 8 + b)); lia.
  - symmetry. apply (Z.mod_unique _ _ (a * 2 ^ 24 + b * 2 ^ 16 + c)); lia.
Qed.

(** ** Coins

    [ToFons] and [FromFons] of Bytes undo each other. *)
Lemma coins_roundtrip n : is_u64 n -> FromFons (ToFons n) = (n, 0).
Proof.
  unfold is_u64, FromFons, ToFons, oneCoinInFons. intros Hn. rewrite u256_id by (unfold is_u256; lia).
  rewrite Z.div_mul, Z.mod_mul by lia. by rewrite !u64_id by (unfold is_u64; lia).
Qed.

(** No coin is lost below 2^64 coins. *)
Lemma fons_roundtrip sau : 0 <= sau < 2 ^ 64 * oneCoinInFons -> let (q, r) := FromFons sau in u256 (ToFons q + r) = sau.
Proof.
  unfold FromFons, ToFons, oneCoinInFons. intros H. pose proof (Z.mod_pos_bound sau (1000000000000000000)). assert (sau / 1000000000000000000 < 2 ^ 64) by (apply Z.div_lt_upper_bound; lia).
  assert (0 <= sau / 1000000000000000000) by (apply Z.div_pos; lia). rewrite !u64_id by (unfold is_u64; lia).
  rewrite (u256_id (_ * _)) by (unfold is_u256; lia). pose proof (Z.div_mod sau (1000000000000000000)). rewrite u256_id by (unfold is_u256; lia). lia.
Qed.
