(* ===== verification/Crypto.v ===== *)
(** * Keys, signatures, hashes and padding: [types/crypto/crypto.go]

    The elliptic-curve library, the address of a public key and SHA-256 are
    parameters ([EthCrypto]); what the code builds from them is defined. *)

From Stdlib Require Import Strings.Byte.
From S2P Require Import Prelude Xerrors GoSem Bytes.

(** [go-ethereum/crypto], [tendermint/crypto/secp256k1] and [crypto/sha256]. *)
Class EthCrypto := {
  PrivateKey : Type;
  PublicKey : Type;
  public_of : PrivateKey -> PublicKey;
  eth_Sign : list Byte.byte -> PrivateKey -> string + list Byte.byte;
  eth_SigToPub : list Byte.byte -> list Byte.byte -> string + PublicKey;
  eth_CompressPubkey : PublicKey -> list Byte.byte;
  eth_VerifySignature : list Byte.byte -> list Byte.byte -> list Byte.byte -> bool;
  tm_Address : list Byte.byte -> list Byte.byte;
  sha256 : list Byte.byte -> list Byte.byte;
}.

Section Crypto.
Context {EC : EthCrypto}.

(** The hasher is fed piece by piece. *)
Definition DefaultHash (datas : list (list Byte.byte)) : list Byte.byte := sha256 (concat datas).

Definition Sign (msg : list Byte.byte) (prv : PrivateKey) : outcome (list Byte.byte) :=
  match eth_Sign (DefaultHash [msg]) prv with inl err => Err (NewOrdinary err) | inr sig => Ret sig end.

Definition SignatureLength : nat := 65.
Definition VerifySig (pubkey msg sig : list Byte.byte) : bool :=
  let hmsg := DefaultHash [msg] in
  let sig := if (length sig =? SignatureLength)%nat then take 64 sig else sig in
  eth_VerifySignature pubkey hmsg sig.

(** Tendermint's [Address] panics when the key has not 33 bytes. *)
Definition PubBytes2Addr (pubBytes : list Byte.byte) : outcome (list Byte.byte) :=
  if (length pubBytes =? 33)%nat then Ret (tm_Address pubBytes) else Panic.

Definition CompressPubkey (pub : PublicKey) : list Byte.byte := eth_CompressPubkey pub.

Definition Pub2Addr (pub : PublicKey) : outcome (list Byte.byte) := PubBytes2Addr (CompressPubkey pub).

Definition Sig2Addr (msg sig : list Byte.byte) : outcome (list Byte.byte * list Byte.byte) :=
  let hmsg := DefaultHash [msg] in
  match eth_SigToPub hmsg sig with
  | inl err => Err (NewOrdinary err)
  | inr pubKey =>
      match Pub2Addr pubKey with
      | Ret addr => Ret (addr, CompressPubkey pubKey)
      | Err e => Err e
      | Panic => Panic
      end
  end.
End Crypto.

(** Documented behaviour of the libraries: a compressed key has 33 bytes, and a
    signature made with a private key recovers to its public key. *)
Class EthCryptoLaws {EC : EthCrypto} : Prop := {
  compress_length : forall pub, length (eth_CompressPubkey pub) = 33%nat;
  sign_recovers : forall h prv sig, eth_Sign h prv = inr sig -> eth_SigToPub h sig = inr (public_of prv);
}.

(** The address of a key. *)
Definition addr_of {EC : EthCrypto} (pub : PublicKey) : list Byte.byte := tm_Address (CompressPubkey pub).

Lemma sig2addr_sign {EC : EthCrypto} {ECL : EthCryptoLaws} msg prv sig :
  Sign msg prv = Ret sig -> Sig2Addr msg sig = Ret (addr_of (public_of prv), CompressPubkey (public_of prv)).
Proof.
  unfold Sign, Sig2Addr. destruct (eth_Sign (DefaultHash [msg]) prv) as [|s] eqn:E; [done|]. intros [= <-].
  rewrite (sign_recovers _ _ _ E). unfold Pub2Addr, PubBytes2Addr, CompressPubkey. by rewrite compress_length.
Qed.

Lemma sig2addr_total {EC : EthCrypto} {ECL : EthCryptoLaws} msg sig : Sig2Addr msg sig <> Panic.
Proof.
  unfold Sig2Addr. destruct (eth_SigToPub _ _) as [|pub]; [done|]. unfold Pub2Addr, PubBytes2Addr, CompressPubkey. by rewrite compress_length.
Qed.

(** ** Padding *)
Definition ErrInvalidBlockSize : XError := NewOrdinary "invalid blocksize".
Definition ErrInvalidPKCS5Data : XError := NewOrdinary "invalid PKCS5 data (empty or not padded)".
Definition ErrInvalidPKCS5Padding : XError := NewOrdinary "invalid PKCS5 padding on input".
Definition ErrInvalidPKCS7Data : XError := NewOrdinary "invalid PKCS7 data (empty or not padded)".
Definition ErrInvalidPKCS7Padding : XError := NewOrdinary "invalid PKCS7 padding on input".

Abbreviation len b := (Z.of_nat (length b)).

(** [append(b, bytes.Repeat([]byte{byte(pad)}, pad)...)] *)
Definition append_pad (b : list Byte.byte) (pad : Z) : outcome (list Byte.byte) :=
  if pad <? 0 then Panic else Ret (b ++ replicate (Z.to_nat pad) (byte_of_Z pad)).

(** The last [n] bytes of [b] are [c]. *)
Definition padded_with (b : list Byte.byte) (n : Z) (c : Byte.byte) : bool :=
  forallb (fun x => bool_decide (x = c)) (drop (Z.to_nat (len b - n)) b).

(** A remainder by zero panics. *)
Definition PKCS5Padding (b : list Byte.byte) (blocksize : Z) : outcome (list Byte.byte) :=
  if negb (Z.rem blocksize 8 =? 0) then Err ErrInvalidBlockSize
  else if bool_decide (b = []) then Err ErrInvalidPKCS5Data
  else if blocksize =? 0 then Panic
  else append_pad b (blocksize - Z.rem (len b) blocksize).

Definition PKCS5UnPadding (b : list Byte.byte) (blocksize : Z) : outcome (list Byte.byte) :=
  if negb (Z.rem blocksize 8 =? 0) then Err ErrInvalidBlockSize
  else match list.last b with
  | None => Err ErrInvalidPKCS5Data
  | Some pad =>
      if negb (Z.rem (len b) 8 =? 0) then Err ErrInvalidPKCS5Data
      else
        let padlen := byte_val pad in
        if (padlen =? 0) || (len b <? padlen) || (blocksize <? padlen) then Err ErrInvalidPKCS5Data
        else if negb (padded_with b padlen pad) then Err ErrInvalidPKCS5Padding
        else Ret (take (Z.to_nat (len b - padlen)) b)
  end.

Definition PKCS7Padding (b : list Byte.byte) (blocksize : Z) : outcome (list Byte.byte) :=
  if blocksize <=? 0 then Err ErrInvalidBlockSize
  else if bool_decide (b = []) then Err ErrInvalidPKCS7Data
  else append_pad b (blocksize - Z.rem (len b) blocksize).

Definition PKCS7UnPadding (b : list Byte.byte) (blocksize : Z) : outcome (list Byte.byte) :=
  if blocksize <=? 0 then Err ErrInvalidBlockSize
  else match list.last b with
  | None => Err ErrInvalidPKCS7Data
  | Some c =>
      if negb (Z.rem (len b) blocksize =? 0) then Err ErrInvalidPKCS7Padding
      else
        let n := byte_val c in
        if (n =? 0) || (len b <? n) || (blocksize <? n) then Err ErrInvalidPKCS7Padding
        else if negb (padded_with b n c) then Err ErrInvalidPKCS7Padding
        else Ret (take (Z.to_nat (len b - n)) b)
  end.

(** ** The paddings are inverses *)
Section Padding.
Context (b : list Byte.byte) (bs : Z).
Context (Hb : b <> []) (Hbs : 0 < bs <= 255).
Abbreviation pad := (bs - Z.rem (len b) bs).
Abbreviation padded := (b ++ replicate (Z.to_nat pad) (byte_of_Z pad)).

Lemma pad_range : 0 < pad <= bs.
Proof. rewrite Z.rem_mod_nonneg by lia. pose proof (Z.mod_pos_bound (len b) bs). lia. Qed.

Lemma padded_len : len padded = len b + pad.
Proof. pose proof pad_range. rewrite length_app, length_replicate. lia. Qed.

Lemma padded_multiple : Z.rem (len padded) bs = 0.
Proof.
  pose proof pad_range. rewrite padded_len, Z.rem_mod_nonneg by lia. rewrite (Z.rem_mod_nonneg (len b)) by lia.
  rewrite (Z.div_mod (len b) bs) at 1 by lia.
  replace (bs * (len b / bs) + len b mod bs + (bs - len b mod bs)) with ((len b / bs + 1) * bs) by lia.
  by apply Z.mod_mul; lia.
Qed.

Lemma padded_last : list.last padded = Some (byte_of_Z pad) /\ byte_val (byte_of_Z pad) = pad.
Proof.
  pose proof pad_range. split; [|rewrite byte_val_of_Z, Z.mod_small; lia].
  rewrite last_app. destruct (Z.to_nat pad) as [|n] eqn:En; [lia|]. by rewrite replicate_S_end, last_snoc.
Qed.

Lemma padded_tail : padded_with padded pad (byte_of_Z pad) = true /\ take (Z.to_nat (len padded - pad)) padded = b.
Proof.
  rewrite padded_len. replace (Z.to_nat (len b + pad - pad)) with (length b) by lia. split; [|apply take_app_length].
  unfold padded_with. rewrite padded_len. replace (Z.to_nat (len b + pad - pad)) with (length b) by lia.
  rewrite drop_app_length. apply forallb_forall. intros x Hx%list_elem_of_In%elem_of_replicate_inv. by apply bool_decide_eq_true_2.
Qed.

Lemma pkcs7_forward : PKCS7Padding b bs = Ret padded /\ PKCS7UnPadding padded bs = Ret b.
Proof.
  pose proof pad_range as Hr. destruct padded_last as [Hl Hv]. destruct padded_tail as [Ht Hd].
  unfold PKCS7Padding, PKCS7UnPadding, append_pad. rewrite (bool_decide_eq_false_2 _ Hb), Hl, padded_multiple, Hv, Ht, Hd, padded_len.
  rewrite !(proj2 (Z.leb_gt bs 0)) by lia. rewrite !(proj2 (Z.ltb_ge _ _)) by lia. rewrite (proj2 (Z.eqb_neq pad 0)) by lia. done.
Qed.

Lemma pkcs5_forward : Z.rem bs 8 = 0 -> PKCS5Padding b bs = Ret padded /\ PKCS5UnPadding padded bs = Ret b.
Proof.
  intros H8. pose proof pad_range as Hr. destruct padded_last as [Hl Hv]. destruct padded_tail as [Ht Hd].
  assert (Hm : Z.rem (len padded) 8 = 0).
  { pose proof padded_multiple as Hm. rewrite Z.rem_mod_nonneg in * by lia. apply Z.mod_divide in Hm, H8; [|lia..].
    apply Z.mod_divide; [lia|]. by etrans. }
  unfold PKCS5Padding, PKCS5UnPadding, append_pad. rewrite H8, (bool_decide_eq_false_2 _ Hb), Hl, Hm, Hv, Ht, Hd, padded_len.
  cbn [Z.eqb negb]. rewrite (proj2 (Z.eqb_neq bs 0)) by lia. rewrite !(proj2 (Z.ltb_ge _ _)) by lia.
  by rewrite (proj2 (Z.eqb_neq pad 0)) by lia.
Qed.
End Padding.

Lemma padded_with_split c n x :
  0 < n <= len c -> padded_with c n x = true -> c = take (Z.to_nat (len c - n)) c ++ replicate (Z.to_nat n) x.
Proof.
  intros Hn Hp. rewrite <- (take_drop (Z.to_nat (len c - n)) c) at 1. f_equal.
  assert (Hl : length (drop (Z.to_nat (len c - n)) c) = Z.to_nat n) by (rewrite length_drop; lia). rewrite <- Hl.
  symmetry. apply replicate_as_elem_of. split; [done|]. intros y Hy. unfold padded_with in Hp.
  rewrite forallb_forall in Hp. by apply list_elem_of_In, Hp, bool_decide_eq_true in Hy.
Qed.

(** Padding and unpadding are inverses.  For a block size of 1 to 255
    bytes, unpadding (PKCS7) what was padded gives the bytes back, and whatever
    non-empty bytes unpadding returns are those whose padding was given; for
    block sizes that are multiples of 8 the same way round holds of PKCS5. *)
Theorem padding_roundtrip (b c : list Byte.byte) (bs : Z) :
  b <> [] -> 0 < bs <= 255 ->
  (exists p, PKCS7Padding b bs = Ret p /\ PKCS7UnPadding p bs = Ret b /\ Z.rem (len p) bs = 0) /\
  (PKCS7UnPadding c bs = Ret b -> PKCS7Padding b bs = Ret c) /\
  (Z.rem bs 8 = 0 -> exists p, PKCS5Padding b bs = Ret p /\ PKCS5UnPadding p bs = Ret b).
Proof.
  intros Hb Hbs. split_and!.
  - eexists. split_and!; [by apply pkcs7_forward..|by apply padded_multiple].
  - unfold PKCS7UnPadding. rewrite (proj2 (Z.leb_gt bs 0)) by lia. destruct (list.last c) as [x|] eqn:El; [|done].
    destruct (Z.rem (len c) bs =? 0) eqn:Em; [|done]. cbn [negb]. destruct (byte_val x =? 0) eqn:E0; [done|].
    destruct (len c <? byte_val x) eqn:E1; [done|]. destruct (bs <? byte_val x) eqn:E2; [done|]. cbn [orb].
    destruct (padded_with c (byte_val x) x) eqn:Ep; [|done]. cbn [negb]. intros [= <-].
    pose proof (byte_val_bound x). set (d := take (Z.to_nat (len c - byte_val x)) c) in *.
    pose proof (padded_with_split c (byte_val x) x ltac:(lia) Ep) as Hc. fold d in Hc.
    assert (Hd : len d = len c - byte_val x) by (unfold d; rewrite length_take; lia).
    assert (Hpad : bs - Z.rem (len d) bs = byte_val x).
    { apply Z.eqb_eq in Em. rewrite Z.rem_mod_nonneg in * by lia. rewrite Hd.
      replace (len c - byte_val x) with ((bs - byte_val x) + (len c / bs - 1) * bs) by (pose proof (Z.div_mod (len c) bs ltac:(lia)); lia).
      rewrite Z.mod_add by lia. rewrite Z.mod_small; lia. }
    unfold PKCS7Padding, append_pad. rewrite (proj2 (Z.leb_gt bs 0)), (bool_decide_eq_false_2 _ Hb), Hpad by lia.
    rewrite (proj2 (Z.ltb_ge _ _)) by lia. rewrite byte_of_Z_val. by rewrite <- Hc.
  - intros H8. eexists. by apply pkcs5_forward.
Qed.

Lemma padding_roundtrip_witness :
  exists p, PKCS7Padding [Byte.x01; Byte.x02] 16 = Ret p /\ PKCS7UnPadding p 16 = Ret [Byte.x01; Byte.x02].
Proof.
  destruct (padding_roundtrip [Byte.x01; Byte.x02] [] 16) as ((p & H1 & H2 & _) & _); [discriminate|lia|].
  exists p. split; assumption.
Defined.
