(* ===== verification/Slice.v ===== *)
(** * Byte slices that share their memory

    Most of the library treats a [[]byte] as a value.  The key files of
    [types/crypto/wallet_key.go] overwrite secrets in place and append to slices
    they did not allocate, so there two slices can be windows on one array: a
    [slice] is the array it points to with its length, the capacity is the size
    of the array.  (All slices of that code start at the first byte.) *)

From Stdlib Require Import Strings.Byte.
From S2P Require Import Prelude Xerrors GoSem Bytes Crypto.

Record slice : Type := Slice { s_base : positive; s_len : nat }.

(** The arrays. *)
Abbreviation mem := (heap (list Byte.byte)).

Definition array (m : mem) (p : positive) : list Byte.byte := default [] (objs m !! p).
Definition sread (m : mem) (s : slice) : list Byte.byte := take (s_len s) (array m (s_base s)).
Definition scap (m : mem) (s : slice) : nat := length (array m (s_base s)).

(** A freshly made slice with the given contents. *)
Definition smake (l : list Byte.byte) : GoM mem slice :=
  fun m => let '(p, m') := heap_alloc l m in (Ret (Slice p (length l)), m').

(** Overwrite the array of [s] from position [i] on. *)
Definition swrite (s : slice) (i : nat) (l : list Byte.byte) : GoM mem unit :=
  modifyM (fun m => let a := array m (s_base s) in heap_store (s_base s) (take i a ++ l ++ drop (i + length l) a) m).

(** [append(s, l...)]: in place while the capacity lasts, else in a new array.
    (The capacity of a new array is at least the length asked for; the code
    never appends to the result.) *)
Definition sappend (s : slice) (l : list Byte.byte) : GoM mem slice :=
  fun m => if (s_len s + length l <=? scap m s)%nat
           then (do! swrite s (s_len s) l in retM (Slice (s_base s) (s_len s + length l))) m
           else smake (sread m s ++ l) m.

(** [ClearBytes], called through [ClearCredential]. *)
Definition ClearBytes (s : slice) : GoM mem unit := swrite s 0 (replicate (s_len s) Byte.x00).

(** [PKCS7Padding] on the slice it is given. *)
Definition PKCS7Padding_in (b : slice) (blocksize : Z) : GoM mem slice :=
  if blocksize <=? 0 then errM ErrInvalidBlockSize
  else if (s_len b =? 0)%nat then errM ErrInvalidPKCS7Data
  else let pad := blocksize - Z.rem (Z.of_nat (s_len b)) blocksize in
       sappend b (replicate (Z.to_nat pad) (byte_of_Z pad)).

(** ** Slices in their arrays *)
Definition slice_ok (m : mem) (s : slice) : Prop :=
  exists a, objs m !! s_base s = Some a /\ (s_len s <= length a)%nat.

Lemma slice_ok_array m s : slice_ok m s -> objs m !! s_base s = Some (array m (s_base s)) /\ (s_len s <= scap m s)%nat.
Proof. intros (a & Ha & Hl). unfold scap, array. by rewrite Ha. Qed.

Lemma sread_length m s : slice_ok m s -> length (sread m s) = s_len s.
Proof. intros [_ H]%slice_ok_array. unfold sread. rewrite length_take. unfold scap in H. lia. Qed.

Lemma array_store m p l q : array (heap_store p l m) q = if decide (q = p) then l else array m q.
Proof.
  unfold array, heap_store. cbn [objs]. destruct (decide (q = p)) as [->|Hn]; [by rewrite lookup_insert_eq|by rewrite lookup_insert_ne].
Qed.

(** *** Allocation *)
Lemma smake_spec l m :
  heap_wf m -> exists m', smake l m = (Ret (Slice (hnext m) (length l)), m') /\ heap_wf m' /\
    sread m' (Slice (hnext m) (length l)) = l /\ slice_ok m' (Slice (hnext m) (length l)) /\
    scap m' (Slice (hnext m) (length l)) = length l /\
    forall p a, objs m !! p = Some a -> objs m' !! p = Some a.
Proof.
  intros Hwf. exists (heap_alloc l m).2. split; [done|]. split; [by apply heap_alloc_wf|].
  assert (Ha : array (heap_alloc l m).2 (hnext m) = l) by (unfold array; cbn; by rewrite lookup_insert_eq).
  split_and!.
  - unfold sread. cbn [s_base s_len]. by rewrite Ha, firstn_all.
  - exists l. cbn. by rewrite lookup_insert_eq.
  - unfold scap. cbn [s_base]. by rewrite Ha.
  - intros p a Hp. by apply heap_alloc_fresh.
Qed.

(** *** Writing inside the array *)
Lemma swrite_spec s i l m :
  slice_ok m s -> (i + length l <= scap m s)%nat -> heap_wf m ->
  exists m', swrite s i l m = (Ret tt, m') /\ heap_wf m' /\
    array m' (s_base s) = take i (array m (s_base s)) ++ l ++ drop (i + length l) (array m (s_base s)) /\
    scap m' s = scap m s /\ slice_ok m' s /\ hnext m' = hnext m /\
    (forall p, p <> s_base s -> objs m' !! p = objs m !! p).
Proof.
  intros Hok Hi Hwf. apply slice_ok_array in Hok as [Ha Hl]. eexists. split; [reflexivity|].
  assert (Hlen : length (take i (array m (s_base s)) ++ l ++ drop (i + length l) (array m (s_base s))) = scap m s).
  { unfold scap in *. rewrite !length_app, length_take, length_drop. lia. }
  cbn [fst snd modifyM]. split; [by eapply heap_store_wf|]. rewrite array_store, decide_True by done. split; [done|].
  unfold scap at 1. rewrite array_store, decide_True by done. split; [done|].
  split; [eexists; cbn; rewrite lookup_insert_eq; split; [done|]; by rewrite Hlen|]. split; [done|].
  intros p Hp. cbn. by rewrite lookup_insert_ne.
Qed.

(** A slice in another array, or one with fewer bytes than were kept. *)
Lemma sread_other m m' s : objs m' !! s_base s = objs m !! s_base s -> sread m' s = sread m s.
Proof. unfold sread, array. by intros ->. Qed.

Lemma slice_ok_other m m' s : objs m' !! s_base s = objs m !! s_base s -> slice_ok m s -> slice_ok m' s.
Proof. unfold slice_ok. by intros ->. Qed.

(** From [m] to [m'] the slice [s'] was made by extending [s]: in place or in a
    fresh array; the bytes of [s] and all other arrays are as before. *)
Record extended (m m' : mem) (s s' : slice) : Prop := {
  ext_wf : heap_wf m';
  ext_ok : slice_ok m' s';
  ext_old_ok : slice_ok m' s;
  ext_old : sread m' s = sread m s;
  ext_len : (s_len s <= s_len s')%nat;
  ext_base : s_base s' = s_base s \/ s_base s' = hnext m;
  ext_next : (hnext m <= hnext m')%positive;
  ext_full : scap m s = s_len s -> (s_len s < s_len s')%nat -> s_base s' = hnext m;
  ext_others : forall p a, objs m !! p = Some a -> p <> s_base s -> objs m' !! p = Some a;
}.

Lemma sappend_spec s l m :
  slice_ok m s -> heap_wf m ->
  exists s' m', sappend s l m = (Ret s', m') /\ sread m' s' = sread m s ++ l /\ s_len s' = (s_len s + length l)%nat /\ extended m m' s s'.
Proof.
  intros Hok Hwf. pose proof (slice_ok_array _ _ Hok) as [Ha Hl]. unfold sappend. destruct (Nat.leb_spec (s_len s + length l) (scap m s)) as [Hc|Hc].
  - destruct (swrite_spec s (s_len s) l m Hok Hc Hwf) as (m' & Hw & Hwf' & Harr & Hcap & Hok' & Hn & Hoth).
    rewrite (bindM_step _ _ _ _ _ Hw). exists (Slice (s_base s) (s_len s + length l)), m'. unfold scap in Hc.
    assert (Hts : length (take (s_len s) (array m (s_base s))) = s_len s) by (rewrite length_take; unfold scap in Hl; lia).
    split; [done|]. split; [|split; [done|constructor]]; cbn [s_base s_len]; try done; try lia; try by left.
    + unfold sread. cbn [s_base s_len]. rewrite Harr, (app_assoc (take _ _) l). apply take_app_length'. by rewrite length_app, Hts.
    + destruct Hok' as (a & Ha' & _). exists a. split; [done|]. cbn [s_len]. unfold scap, array in Hcap, Hc. rewrite Ha' in Hcap. cbn in Hcap. lia.
    + unfold sread. rewrite Harr. by apply take_app_length'.
    + unfold scap in *. lia.
    + intros p a Hp Hne. by rewrite Hoth.
  - destruct (smake_spec (sread m s ++ l) m Hwf) as (m' & Hm & Hwf' & Hr & Hok' & _ & Hoth).
    specialize (Hoth _ _ Ha) as Ha'. rewrite length_app, sread_length in * by done. rewrite Hm.
    eexists _, m'. split; [done|]. split; [done|]. split; [done|]. constructor; cbn [s_base s_len]; try done; try lia; try by right.
    + unfold slice_ok. eauto.
    + apply sread_other. by rewrite Ha', Ha.
    + apply (f_equal snd) in Hm. cbn in Hm. subst m'. cbn. lia.
    + auto.
Qed.

(** [ClearBytes] leaves zeros in the slice, and no other array changes. *)
Lemma clear_spec s m :
  slice_ok m s -> heap_wf m ->
  exists m', ClearBytes s m = (Ret tt, m') /\ heap_wf m' /\ sread m' s = replicate (s_len s) Byte.x00 /\ slice_ok m' s /\
    (forall p, p <> s_base s -> objs m' !! p = objs m !! p).
Proof.
  intros Hok Hwf. pose proof (slice_ok_array _ _ Hok) as [Ha Hl]. unfold ClearBytes.
  destruct (swrite_spec s 0 (replicate (s_len s) Byte.x00) m Hok) as (m' & Hw & Hwf' & Harr & _ & Hok' & _ & Hoth); [rewrite length_replicate; lia|done|].
  exists m'. split_and!; try done. unfold sread. rewrite Harr, take_0, app_nil_l. apply take_app_length'. by rewrite length_replicate.
Qed.

(** Padding in place computes the padding of Crypto.v. *)
Lemma padding_in_spec s bs m :
  slice_ok m s -> heap_wf m -> s_len s <> 0%nat -> 0 < bs ->
  exists s' m', PKCS7Padding_in s bs m = (Ret s', m') /\ PKCS7Padding (sread m s) bs = Ret (sread m' s') /\
    (s_len s < s_len s')%nat /\ extended m m' s s'.
Proof.
  intros Hok Hwf Hne Hbs. unfold PKCS7Padding_in, PKCS7Padding. rewrite (proj2 (Z.leb_gt bs 0)), (proj2 (Nat.eqb_neq _ _)) by done.
  rewrite bool_decide_eq_false_2 by (intros Hnil; apply (f_equal length) in Hnil; rewrite sread_length in Hnil; done).
  rewrite sread_length by done. set (pad := bs - Z.rem _ _).
  assert (Hpad : 0 < pad) by (unfold pad; rewrite Z.rem_mod_nonneg by lia; pose proof (Z.mod_pos_bound (Z.of_nat (s_len s)) bs); lia).
  destruct (sappend_spec s (replicate (Z.to_nat pad) (byte_of_Z pad)) m Hok Hwf) as (s' & m' & Hs & Hr & Hlen & Hext).
  exists s', m'. rewrite length_replicate in Hlen. split_and!; [done| |lia|done]. unfold append_pad.
  rewrite (proj2 (Z.ltb_ge pad 0)) by lia. by rewrite Hr.
Qed.
