(* ===== verification/FileIO.v ===== *)
(** * Files: [libs/file_io.go]

    The file system is a parameter with the documented behaviour of the calls
    the code makes: [os.ReadFile], [os.OpenFile] with truncation, [File.Write]
    and Tendermint's [tempfile.WriteFileAtomic], which replaces a file in one
    step or fails and leaves it. *)

From Stdlib Require Import Strings.Byte.
From S2P Require Import Prelude Xerrors GoSem.

Class FileSystem := {
  Disk : Type;
  os_ReadFile : string -> Disk -> option (list Byte.byte);
  tmos_FileExists : string -> Disk -> bool;
  tempfile_WriteFileAtomic : string -> list Byte.byte -> GoM Disk unit;
  os_OpenTrunc : string -> GoM Disk unit;
  file_Write : string -> list Byte.byte -> GoM Disk unit;
}.

(** [d'] is [d] with the file [path] holding [bz]. *)
Definition file_set `{FileSystem} (path : string) (bz : list Byte.byte) (d d' : Disk) : Prop :=
  os_ReadFile path d' = Some bz /\ forall p, p <> path -> os_ReadFile p d' = os_ReadFile p d.
Definition files_kept `{FileSystem} (d d' : Disk) : Prop := forall p, os_ReadFile p d' = os_ReadFile p d.

Class FileSystemLaws `{FS : FileSystem} : Prop := {
  read_exists : forall path d bz, os_ReadFile path d = Some bz -> tmos_FileExists path d = true;
  write_atomic : forall path bz d,
    (exists d', tempfile_WriteFileAtomic path bz d = (Ret tt, d') /\ file_set path bz d d') \/
    (exists e d', tempfile_WriteFileAtomic path bz d = (Err e, d') /\ files_kept d d');
  open_trunc : forall path d,
    (exists d', os_OpenTrunc path d = (Ret tt, d') /\ file_set path [] d d') \/
    (exists e d', os_OpenTrunc path d = (Err e, d') /\ files_kept d d');
  (** on a file that was just truncated: everything, or a part and an error *)
  file_write : forall path bz d, os_ReadFile path d = Some [] ->
    (exists d', file_Write path bz d = (Ret tt, d') /\ file_set path bz d d') \/
    (exists e d' n, file_Write path bz d = (Err e, d') /\ file_set path (take n bz) d d');
}.

Section FileIO.
Context `{FS : FileSystem}.

(** [FileIO.Read] into a buffer of [n] bytes; [io.EOF] on an empty file. *)
Definition FileIO_Read (path : string) (n : nat) (d : Disk) : outcome (list Byte.byte) :=
  match os_ReadFile path d with
  | None => Err (NewOrdinary "open")
  | Some bz => match take n bz with [] => Err (NewOrdinary "EOF") | b => Ret b end
  end.

(** [FileIO.Write]: the calls it makes on the file system, in order.  A failure
    of the first panics, the file is then opened again, truncated and written a
    second time. *)
Definition FileIO_Write_calls (path : string) (d : list Byte.byte) : list (GoM Disk unit) :=
  [(let! r := tryM (tempfile_WriteFileAtomic path d) in
    match r with inl _ => panicM | inr _ => retM tt end);
   os_OpenTrunc path;
   file_Write path d].
Definition FileIO_Write (path : string) (d : list Byte.byte) : GoM Disk unit :=
  forM_ (FileIO_Write_calls path d) (fun call => call).

(** The file system after a crash behind the first [k] calls. *)
Definition crash_after (k : nat) (calls : list (GoM Disk unit)) (d : Disk) : Disk :=
  (forM_ (take k calls) (fun call => call) d).2.

Context {FSL : FileSystemLaws}.

Lemma file_set_read path bz d d' : file_set path bz d d' -> os_ReadFile path d' = Some bz.
Proof. by intros []. Qed.

Lemma file_set_trans path b1 b2 d1 d2 d3 : file_set path b1 d1 d2 -> file_set path b2 d2 d3 -> file_set path b2 d1 d3.
Proof. intros [_ H1] [H2 H3]. split; [done|]. intros p Hp. rewrite H3 by done. auto. Qed.

(** When it returns without an error the file holds the bytes. *)
Lemma file_io_write_ret path bz d d' : FileIO_Write path bz d = (Ret tt, d') -> file_set path bz d d'.
Proof.
  unfold FileIO_Write, FileIO_Write_calls. cbn [forM_]. intros Hw.
  destruct (write_atomic path bz d) as [(d1 & H1 & S1)|(e & d1 & H1 & _)].
  2: { erewrite bindM_assoc, bindM_step in Hw by (eapply tryM_err, H1). done. }
  erewrite bindM_assoc, bindM_step in Hw by (eapply tryM_ret, H1). cbn in Hw.
  apply bindM_inv in Hw as ([] & d2 & H2 & Hw). apply bindM_inv in Hw as ([] & d3 & H3 & [= <-]).
  destruct (open_trunc path d1) as [(d2' & H2' & S2)|(e & d2' & H2' & _)]; [|congruence].
  replace d2' with d2 in * by congruence.
  destruct (file_write path bz d2 (file_set_read _ _ _ _ S2)) as [(d3' & H3' & S3)|(e & d3' & n & H3' & _)]; [|congruence].
  replace d3' with d3 in * by congruence. eauto using file_set_trans.
Qed.

(** However it ends, other files are untouched and the file does not vanish. *)
Lemma file_io_write_frame path bz d :
  (forall p, p <> path -> os_ReadFile p (FileIO_Write path bz d).2 = os_ReadFile p d) /\
  (is_Some (os_ReadFile path d) -> is_Some (os_ReadFile path (FileIO_Write path bz d).2)).
Proof.
  unfold FileIO_Write, FileIO_Write_calls. cbn [forM_].
  destruct (write_atomic path bz d) as [(d1 & H1 & S1)|(e & d1 & H1 & K1)].
  2: { erewrite bindM_assoc, bindM_step by (eapply tryM_err, H1). cbn. split; [by intros; apply K1|by rewrite K1]. }
  erewrite bindM_assoc, bindM_step by (eapply tryM_ret, H1). cbn -[forM_].
  destruct (open_trunc path d1) as [(d2 & H2 & S2)|(e & d2 & H2 & K2)].
  2: { unfold bindM. rewrite H2. cbn. destruct S1 as [R1 O1]. split; [intros p Hp; by rewrite K2, O1|intros _; rewrite K2, R1; eauto]. }
  rewrite (bindM_step _ _ _ _ _ H2). pose proof (file_set_trans _ _ _ _ _ _ S1 S2) as S12.
  destruct (file_write path bz d2 (file_set_read _ _ _ _ S2)) as [(d3 & H3 & S3)|(e & d3 & n & H3 & S3)];
    unfold bindM; rewrite H3; cbn; destruct (file_set_trans _ _ _ _ _ _ S12 S3) as [R O]; (split; [done|intros _; rewrite R; eauto]).
Qed.

(** Between the second and the third call the file is empty. *)
Lemma file_io_write_gap path bz d :
  tempfile_WriteFileAtomic path bz d = (Ret tt, (tempfile_WriteFileAtomic path bz d).2) ->
  os_OpenTrunc path (tempfile_WriteFileAtomic path bz d).2 = (Ret tt, (os_OpenTrunc path (tempfile_WriteFileAtomic path bz d).2).2) ->
  os_ReadFile path (crash_after 1 (FileIO_Write_calls path bz) d) = Some bz /\
  os_ReadFile path (crash_after 2 (FileIO_Write_calls path bz) d) = Some [].
Proof.
  intros H1 H2. set (d1 := (tempfile_WriteFileAtomic path bz d).2) in *. set (d2 := (os_OpenTrunc path d1).2) in *.
  assert (Hc : (let! r := tryM (tempfile_WriteFileAtomic path bz) in match r with inl _ => panicM | inr _ => retM tt end) d = (Ret tt, d1)).
  { by erewrite bindM_step by (eapply tryM_ret, H1). }
  unfold crash_after, FileIO_Write_calls. cbn [take forM_]. rewrite !(bindM_step _ _ _ _ _ Hc), (bindM_step _ _ _ _ _ H2). cbn.
  split.
  - destruct (write_atomic path bz d) as [(d' & H' & [S _])|(e & d' & H' & _)]; congruence.
  - destruct (open_trunc path d1) as [(d' & H' & [S _])|(e & d' & H' & _)]; congruence.
Qed.
End FileIO.

(** ** A concrete file system: a map in which every write succeeds *)
Definition map_write (path : string) (bz : list Byte.byte) : GoM (gmap string (list Byte.byte)) unit :=
  fun d => (Ret tt, <[path := bz]> d).

#[export] Instance mapFS : FileSystem := {
  Disk := gmap string (list Byte.byte);
  os_ReadFile p d := d !! p;
  tmos_FileExists p d := bool_decide (is_Some (d !! p));
  tempfile_WriteFileAtomic := map_write;
  os_OpenTrunc p := map_write p [];
  file_Write := map_write;
}.

Lemma map_write_spec path bz (d : Disk) : exists d', map_write path bz d = (Ret tt, d') /\ file_set path bz d d'.
Proof.
  unfold map_write. eexists. split; [done|]. split; cbn.
  - by rewrite lookup_insert_eq.
  - intros p Hp. by rewrite lookup_insert_ne.
Qed.

#[export] Instance mapFS_laws : FileSystemLaws (FS := mapFS).
Proof. constructor; cbn [tempfile_WriteFileAtomic os_OpenTrunc file_Write mapFS]; intros; [|left; apply map_write_spec..].
  cbn in *. apply bool_decide_eq_true_2. eauto.
Qed.
