(* ===== verification/Ledger.v ===== *)
(** * Ledgers: [ledger/*.go]

    A [FinalityLedger] keeps the items of one type in an IAVL tree with two
    write-back caches of pointers: [cachedItems] for [CheckTx] and
    [finalityItems] for [DeliverTx].  Both caches have the same operations, so
    each operation is written once over a [side] and instantiated twice.  The
    IAVL tree is third-party code: the ledger is parameterised by the interface
    [Iavl]. *)

From Stdlib Require Import Strings.Byte.
From S2P Require Import Prelude Xerrors GoSem Bytes.

(** ** Interfaces *)

(** What the ledger calls of [iavl.MutableTree]; [inl] is a storage error. *)
Class Iavl (Tr : Type) := {
  iavl_Get : Tr -> bytes -> string + option bytes;
  iavl_Set : Tr -> bytes -> bytes -> string + Tr;
  iavl_Remove : Tr -> bytes -> string + Tr;
  iavl_Iterate : Tr -> string + list (bytes * bytes);
  iavl_SaveVersion : Tr -> string + (bytes * Z * Tr);
  iavl_Version : Tr -> Z;
  iavl_LazyLoadVersion : Tr -> Z -> string + Tr;
}.

(** [ILedgerItem]: [Decode] runs on a new zero object, so it returns one. *)
Class ILedgerItem (T : Type) := {
  Key : T -> bytes;
  Encode : T -> outcome bytes;
  Decode : bytes -> outcome T;
}.

(** [LedgerKeyList.Less]: descending order. *)
Definition LedgerKeyLess (a b : bytes) : bool := bytes_ltb b a.

(** ** [mem_items.go] *)
Record memItems : Type := MemItems {
  gotItems : gmap bytes positive;
  updatedItems : gmap bytes positive;
  removedKeys : list bytes;
}.

Module MemItems.
Definition newMemItems : memItems := MemItems ∅ ∅ [].

Definition appendRemovedKey (key : bytes) (m : memItems) : memItems :=
  MemItems (gotItems m) (updatedItems m) (removedKeys m ++ [key]).

Definition isRemovedKey (key : bytes) (m : memItems) : bool :=
  existsb (fun k => bool_decide (key = k)) (removedKeys m).

Definition setGotItem (key : bytes) (p : loc) (m : memItems) : memItems :=
  MemItems (<[key := p]> (gotItems m)) (updatedItems m) (removedKeys m).

Definition setUpdatedItem (key : bytes) (p : loc) (m : memItems) : memItems :=
  MemItems (gotItems m) (<[key := p]> (updatedItems m)) (removedKeys m).

Definition getGotItem (key : bytes) (m : memItems) : option loc := gotItems m !! key.
Definition getUpdatedItem (key : bytes) (m : memItems) : option loc := updatedItems m !! key.

Definition delGotItem (key : bytes) (m : memItems) : memItems :=
  MemItems (delete key (gotItems m)) (updatedItems m) (removedKeys m).

Definition delUpdatedItem (key : bytes) (m : memItems) : memItems :=
  MemItems (gotItems m) (delete key (updatedItems m)) (removedKeys m).

(** Only the first occurrence is removed. *)
Fixpoint remove_first (key : bytes) (l : list bytes) : list bytes :=
  match l with
  | [] => []
  | k :: l' => if bool_decide (k = key) then l' else k :: remove_first key l'
  end.

Definition delRemovedKey (key : bytes) (m : memItems) : memItems :=
  MemItems (gotItems m) (updatedItems m) (remove_first key (removedKeys m)).

Definition reset (m : memItems) : memItems := newMemItems.

Definition refresh (m : memItems) : memItems :=
  MemItems (updatedItems m ∪ gotItems m) ∅ [].
End MemItems.
Import MemItems.

(** The cache an operation works on: [Check] is [cachedItems] ([Get], [Set],
    [Del]), [Deliver] is [finalityItems] ([GetFinality], ...). *)
Inductive side := Check | Deliver.
#[export] Instance side_eq_dec : EqDecision side.
Proof. solve_decision. Defined.

Definition side_of (exec : bool) : side := if exec then Deliver else Check.

Section LedgerOps.
Context {T Tr : Type} {Item : ILedgerItem T} {Tree : Iavl Tr}.

(** [SimpleLedger] and the [FinalityLedger] that embeds it: a [SimpleLedger]
    (the result of [ImmutableLedgerAt]) has no use of [finalityItems]. *)
Record FinalityLedger : Type := MkLedger {
  tree : Tr;
  cachedItems : memItems;
  finalityItems : memItems;
  lheap : heap T;
}.

Definition mem_of (sd : side) (L : FinalityLedger) : memItems :=
  match sd with Check => cachedItems L | Deliver => finalityItems L end.

Definition upd_mem (sd : side) (f : memItems -> memItems) (L : FinalityLedger) : FinalityLedger :=
  match sd with
  | Check => MkLedger (tree L) (f (cachedItems L)) (finalityItems L) (lheap L)
  | Deliver => MkLedger (tree L) (cachedItems L) (f (finalityItems L)) (lheap L)
  end.

Definition set_tree (t : Tr) (L : FinalityLedger) : FinalityLedger :=
  MkLedger t (cachedItems L) (finalityItems L) (lheap L).
Definition set_heap (h : heap T) (L : FinalityLedger) : FinalityLedger :=
  MkLedger (tree L) (cachedItems L) (finalityItems L) h.

(** Objects: a new one, [*p], and an in-place update through the pointer. *)
Definition alloc (x : T) : GoM FinalityLedger loc := fun L =>
  let '(p, h) := heap_alloc x (lheap L) in (Ret p, set_heap h L).
Definition load (p : loc) : GoM FinalityLedger T := fun L =>
  match objs (lheap L) !! p with Some x => (Ret x, L) | None => (Panic, L) end.
Definition store (p : loc) (x : T) : GoM FinalityLedger unit := fun L =>
  (Ret tt, set_heap (heap_store p x (lheap L)) L).

(** ** [simple_ledger.go], [finality_ledger.go] *)
Definition NewFinalityLedger (t : Tr) : FinalityLedger :=
  MkLedger t newMemItems newMemItems heap_empty.

Definition Version : GoM FinalityLedger Z := getsM (fun L => iavl_Version (tree L)).

Definition ImmutableLedgerAt (n : Z) : GoM FinalityLedger FinalityLedger := fun L =>
  match iavl_LazyLoadVersion (tree L) n with
  | inl msg => (Err (NewOrdinary msg), L)
  | inr t => (Ret (NewFinalityLedger t), L)
  end.

(** [read]: the object is new and not cached. *)
Definition read (key : bytes) : GoM FinalityLedger T := fun L =>
  match iavl_Get (tree L) key with
  | inl msg => (Err (NewOrdinary msg), L)
  | inr None => (Err ErrNotFoundResult, L)
  | inr (Some bz) =>
      match Decode bz with
      | Err e => (Err (NewOrdinary (ErrorText e)), L)
      | Panic => (Panic, L)
      | Ret x =>
          if bool_decide (key = Key x) then (Ret x, L)
          else (Err (NewOrdinary "simple_ledger: the key is compromised - the requested key is not equal to the key encoded in value"), L)
      end
  end.

Definition Read (key : bytes) : GoM FinalityLedger T := read key.

(** [get] / [getFinality] *)
Definition get_on (sd : side) (key : bytes) : GoM FinalityLedger loc :=
  let! m := getsM (mem_of sd) in
  if isRemovedKey key m then errM ErrNotFoundResult
  else match getGotItem key m with
       | Some p => retM p
       | None =>
           let! x := read key in
           let! p := alloc x in
           do! modifyM (upd_mem sd (setGotItem (Key x) p)) in
           retM p
       end.
Definition Get := get_on Check.
Definition GetFinality := get_on Deliver.

(** The pattern [xerr != nil && xerr != ErrNotFoundResult] of the callers: the
    pointer found, [None] when there is none, or another error. *)
Definition get_opt (sd : side) (key : bytes) : GoM FinalityLedger (option loc) :=
  let! r := tryM (get_on sd key) in
  match r with
  | inr p => retM (Some p)
  | inl e => if is_errvar e ErrNotFoundResult then retM None else errM e
  end.
Definition load_opt (o : option loc) : GoM FinalityLedger (option T) :=
  match o with None => retM None | Some p => let! x := load p in retM (Some x) end.

(** [Set] / [SetFinality] *)
Definition set_on (sd : side) (p : loc) : GoM FinalityLedger unit :=
  let! x := load p in
  do! modifyM (upd_mem sd (setUpdatedItem (Key x) p)) in
  modifyM (upd_mem sd (setGotItem (Key x) p)).
Definition Set_ := set_on Check.
Definition SetFinality := set_on Deliver.

(** [CancelSet] / [CancelSetFinality] *)
Definition cancel_set_on (sd : side) (key : bytes) : GoM FinalityLedger unit :=
  do! modifyM (upd_mem sd (delUpdatedItem key)) in
  modifyM (upd_mem sd (delGotItem key)).
Definition CancelSet := cancel_set_on Check.
Definition CancelSetFinality := cancel_set_on Deliver.

(** [del], and the part of [DelFinality] on [finalityItems] *)
Definition del_on (sd : side) (key : bytes) : GoM FinalityLedger loc :=
  let! p := get_on sd key in
  do! modifyM (upd_mem sd (delGotItem key)) in
  do! modifyM (upd_mem sd (delUpdatedItem key)) in
  do! modifyM (upd_mem sd (appendRemovedKey key)) in
  retM p.
Definition Del := del_on Check.

(** An item deleted in [DeliverTx] is also deleted for [CheckTx]. *)
Definition DelFinality (key : bytes) : GoM FinalityLedger loc :=
  do! ignoreM (del_on Check key) in
  del_on Deliver key.

Definition del_for (exec : bool) : bytes -> GoM FinalityLedger loc :=
  if exec then DelFinality else Del.

Definition cancel_del_on (sd : side) (key : bytes) : GoM FinalityLedger unit :=
  modifyM (upd_mem sd (delRemovedKey key)).
Definition CancelDel := cancel_del_on Check.
Definition CancelDelFinality := cancel_del_on Deliver.

(** [IterateReadAllItems]: every item of the tree, decoded afresh; the
    callback runs on the state that holds the ledger. *)
Definition IterateReadAllItems {S} (l : lens S FinalityLedger) (cb : T -> GoM S unit) : GoM S unit :=
  let! L := getsM (lget l) in
  match iavl_Iterate (tree L) with
  | inl msg => errM (NewOrdinary msg)
  | inr entries =>
      forM_ entries (fun kv =>
        match Decode kv.2 with
        | Err e => errM (NewOrdinary "item decode error - Key:%X vs. err:%v")
        | Panic => panicM
        | Ret item =>
            if bool_decide (Key item = ToLedgerKey kv.1) then cb item
            else errM (NewOrdinary "wrong key - Key:%X vs. stake's txhash:%X")
        end)
  end.

(** [Commit].  [keys] is the slice filled by ranging over the map
    [updatedItems], whose order Go leaves open. *)
Definition tree_Remove (k : bytes) : GoM FinalityLedger unit := fun L =>
  match iavl_Remove (tree L) k with
  | inl msg => (Err (NewOrdinary msg), L)
  | inr t => (Ret tt, set_tree t L)
  end.
Definition tree_Set (k v : bytes) : GoM FinalityLedger unit := fun L =>
  match iavl_Set (tree L) k v with
  | inl msg => (Err (NewOrdinary msg), L)
  | inr t => (Ret tt, set_tree t L)
  end.
Definition tree_SaveVersion : GoM FinalityLedger (bytes * Z) := fun L =>
  match iavl_SaveVersion (tree L) with
  | inl msg => (Err (NewOrdinary msg), L)
  | inr (h, v, t) => (Ret (h, v), set_tree t L)
  end.

Definition write_item (m : memItems) (k : bytes) : GoM FinalityLedger unit :=
  match updatedItems m !! k with
  | None => panicM
  | Some p =>
      let! v := load p in
      let! bz := liftO (Encode v) in
      tree_Set (Key v) bz
  end.

Definition commit_keys (keys : list bytes) : GoM FinalityLedger (bytes * Z) :=
  let! m := getsM finalityItems in
  do! forM_ (removedKeys m) tree_Remove in
  do! forM_ (sort_Sort LedgerKeyLess keys) (write_item m) in
  let! hv := tree_SaveVersion in
  do! modifyM (upd_mem Check reset) in
  do! modifyM (upd_mem Deliver refresh) in
  retM hv.

Definition updated_keys (m : memItems) : list bytes := (map_to_list (updatedItems m)).*1.

Definition Commit : GoM FinalityLedger (bytes * Z) :=
  let! m := getsM finalityItems in commit_keys (updated_keys m).
End LedgerOps.
Arguments FinalityLedger : clear implicits.
