(* ===== verification/LedgerSpec.v ===== *)
(** * What the ledgers promise

    The laws assumed of the IAVL tree and of the items, an abstract ledger
    ([absLedger]: the committed items, and per side the items the next commit
    will write and the keys hidden by a deletion), and the proof that the
    pointer-and-cache implementation of [Ledger.v] refines it. *)

From Stdlib Require Import Strings.Byte.
From S2P Require Import Prelude Xerrors GoSem Bytes Ledger.
Import MemItems.

(** ** Laws of the parameters *)

(** The working tree and the saved versions, as finite maps. *)
Class IavlView (Tr : Type) := {
  tree_map : Tr -> gmap bytes (list Byte.byte);
  tree_saved : Tr -> gmap Z (gmap bytes (list Byte.byte));
}.

(** Documented behaviour of [iavl.MutableTree]. *)
Class IavlLaws (Tr : Type) {I : Iavl Tr} {V : IavlView Tr} : Prop := {
  iavl_Get_spec : forall t k r, iavl_Get t k = inr r -> r = tree_map t !! k;
  iavl_Set_spec : forall t k v t', iavl_Set t k v = inr t' ->
    tree_map t' = <[k := v]> (tree_map t) /\ tree_saved t' = tree_saved t /\ iavl_Version t' = iavl_Version t;
  iavl_Remove_spec : forall t k t', iavl_Remove t k = inr t' ->
    tree_map t' = delete k (tree_map t) /\ tree_saved t' = tree_saved t /\ iavl_Version t' = iavl_Version t;
  iavl_Iterate_spec : forall t l, iavl_Iterate t = inr l ->
    l ≡ₚ map_to_list (tree_map t) /\ StronglySorted (fun a b => bytes_ltb a.1 b.1 = true) l;
  iavl_Save_spec : forall t h v t', iavl_SaveVersion t = inr (h, v, t') ->
    v = iavl_Version t + 1 /\ iavl_Version t' = v /\ tree_map t' = tree_map t /\
    tree_saved t' = <[v := tree_map t]> (tree_saved t);
  iavl_Load_spec : forall t n m, 0 < n -> tree_saved t !! n = Some m ->
    exists t', iavl_LazyLoadVersion t n = inr t' /\ tree_map t' = m;
}.

(** No storage failure. *)
Class IavlTotal (Tr : Type) {I : Iavl Tr} : Prop := {
  iavl_Get_total : forall t k, exists r, iavl_Get t k = inr r;
  iavl_Set_total : forall t k v, exists t', iavl_Set t k v = inr t';
  iavl_Remove_total : forall t k, exists t', iavl_Remove t k = inr t';
  iavl_Save_total : forall t, exists h v t', iavl_SaveVersion t = inr (h, v, t');
  iavl_Iterate_total : forall t, exists l, iavl_Iterate t = inr l;
}.

(** Items within their machine ranges ([ok]) survive encoding. *)
Class LedgerItemLaws {T : Type} {I : ILedgerItem T} (ok : T -> Prop) : Prop := {
  encode_total : forall x, ok x -> exists bz, Encode x = Ret bz;
  decode_encode : forall x bz, ok x -> Encode x = Ret bz -> Decode bz = Ret x;
}.

(** ** The abstract ledger *)
Section AbsLedger.
Context {T : Type} {Item : ILedgerItem T}.

Record absLedger : Type := AbsLedger {
  a_committed : gmap bytes T;
  a_pend : side -> gmap bytes T;
  a_hid : side -> gset bytes;
}.

Inductive lop : Type :=
  | OGet (sd : side) (k : list Byte.byte)
  | OPut (sd : side) (x : T)
  | OUpdate (sd : side) (k : list Byte.byte) (f : T -> T)
  | OCancelSet (sd : side) (k : list Byte.byte)
  | ODel (exec : bool) (k : list Byte.byte)
  | OCommit.

Definition on_side {A} (sd : side) (a : A) (f : side -> A) : side -> A :=
  fun sd' => if decide (sd' = sd) then a else f sd'.

Definition abs_get (A : absLedger) (sd : side) (k : bytes) : option T :=
  if decide (k ∈ a_hid A sd) then None else a_pend A sd !! k.

Definition abs_put (sd : side) (x : T) (A : absLedger) : absLedger :=
  AbsLedger (a_committed A) (on_side sd (<[Key x := x]> (a_pend A sd)) (a_pend A)) (a_hid A).

Definition abs_cancel (sd : side) (k : bytes) (A : absLedger) : absLedger :=
  AbsLedger (a_committed A)
    (on_side sd (if decide (k ∈ a_hid A sd) then delete k (a_pend A sd)
                 else partial_alter (fun _ => a_committed A !! k) k (a_pend A sd)) (a_pend A))
    (a_hid A).

Definition abs_del (sd : side) (k : bytes) (A : absLedger) : absLedger :=
  match abs_get A sd k with
  | None => A
  | Some _ => AbsLedger (a_committed A) (on_side sd (delete k (a_pend A sd)) (a_pend A))
                        (on_side sd ({[k]} ∪ a_hid A sd) (a_hid A))
  end.

Definition abs_commit (A : absLedger) : absLedger :=
  AbsLedger (a_pend A Deliver) (fun _ => a_pend A Deliver) (fun _ => ∅).

Definition abs_step (o : lop) (A : absLedger) : absLedger :=
  match o with
  | OGet _ _ => A
  | OPut sd x => abs_put sd x A
  | OUpdate sd k f => match abs_get A sd k with Some x => abs_put sd (f x) A | None => A end
  | OCancelSet sd k => abs_cancel sd k A
  | ODel false k => abs_del Check k A
  | ODel true k => abs_del Deliver k (abs_del Check k A)
  | OCommit => abs_commit A
  end.

(** The item an operation returns. *)
Definition abs_res (o : lop) (A : absLedger) : option T :=
  match o with
  | OGet sd k => abs_get A sd k
  | OUpdate sd k f => f <$> abs_get A sd k
  | ODel exec k => abs_get A (side_of exec) k
  | _ => None
  end.
End AbsLedger.
Arguments absLedger : clear implicits.
Arguments lop : clear implicits.

Section Refinement.
Context {T Tr : Type} {Item : ILedgerItem T} {Tree : Iavl Tr} {View : IavlView Tr}.
Context (ok : T -> Prop).
Context {Laws : IavlLaws Tr} {Total : IavlTotal Tr} {ItemLaws : LedgerItemLaws ok}.

Implicit Types (L : FinalityLedger T Tr) (A : absLedger T).

(** The calls behind an abstract operation.  [OPut] stores a new object,
    [OUpdate] updates an object through the pointer that [Get] returned and
    stores it again, as every controller does. *)
Definition opt_item (r : XError + loc) : GoM (FinalityLedger T Tr) (option (loc * T)) :=
  match r with
  | inl e => if is_errvar e ErrNotFoundResult then retM None else errM e
  | inr p => let! x := load p in retM (Some (p, x))
  end.

Definition run_op (o : lop T) : GoM (FinalityLedger T Tr) (option T) :=
  match o with
  | OGet sd k =>
      let! r := tryM (get_on sd k) in let! o := opt_item r in retM (snd <$> o)
  | OPut sd x => let! p := alloc x in do! set_on sd p in retM None
  | OUpdate sd k f =>
      let! r := tryM (get_on sd k) in
      let! o := opt_item r in
      match o with
      | None => retM None
      | Some (p, x) => do! store p (f x) in do! set_on sd p in retM (Some (f x))
      end
  | OCancelSet sd k => do! cancel_set_on sd k in retM None
  | ODel exec k =>
      let! r := tryM (del_for exec k) in let! o := opt_item r in retM (snd <$> o)
  | OCommit => do! Commit in retM None
  end.

(** ** The representation invariant *)
Definition tree_item (t : Tr) (k : bytes) : option T :=
  match tree_map t !! k with
  | None => None
  | Some bz =>
      match Decode bz with
      | Ret x => if decide (Key x = k) then Some x else None
      | _ => None
      end
  end.

Abbreviation got sd L := (gotItems (mem_of sd L)).
Abbreviation upd sd L := (updatedItems (mem_of sd L)).
Abbreviation rem sd L := (removedKeys (mem_of sd L)).
Abbreviation objects L := (objs (lheap L)).

(** What the next commit of a side writes under [k]. *)
Definition pendOf (L : FinalityLedger T Tr) (sd : side) (k : bytes) : option T :=
  match upd sd L !! k with
  | Some p => objects L !! p
  | None => if decide (k ∈ rem sd L) then None else tree_item (tree L) k
  end.

Definition visible (L : FinalityLedger T Tr) (sd : side) (k : bytes) : option T :=
  if decide (k ∈ rem sd L) then None else pendOf L sd k.

(** Cached pointers refer to live objects stored under their own key; an
    updated item is the cached one; a cached item that is not updated is the
    committed one; the two sides never share an object. *)
Record ledger_inv (L : FinalityLedger T Tr) : Prop := {
  li_heap : heap_wf (lheap L);
  li_got : forall sd k p, got sd L !! k = Some p -> exists x, objects L !! p = Some x /\ Key x = k /\ ok x;
  li_upd : forall sd k p, upd sd L !! k = Some p -> got sd L !! k = Some p;
  li_clean : forall sd k p, got sd L !! k = Some p -> upd sd L !! k = None ->
    (k ∉ rem sd L) /\ objects L !! p = tree_item (tree L) k;
  li_sides : forall k k' p q, got Check L !! k = Some p -> got Deliver L !! k' = Some q -> p <> q;
  li_tree : forall k bz, tree_map (tree L) !! k = Some bz -> exists x, Decode bz = Ret x /\ Key x = k /\ ok x;
}.

Record sim (L : FinalityLedger T Tr) (A : absLedger T) : Prop := {
  sim_inv : ledger_inv L;
  sim_committed : forall k, a_committed A !! k = tree_item (tree L) k;
  sim_pend : forall sd k, a_pend A sd !! k = pendOf L sd k;
  sim_hid : forall sd k, k ∈ a_hid A sd <-> k ∈ rem sd L;
}.

Lemma isRemovedKey_spec k m : isRemovedKey k m = bool_decide (k ∈ removedKeys m).
Proof.
  unfold isRemovedKey. induction (removedKeys m) as [|a l IH].
  { symmetry. apply bool_decide_eq_false_2, not_elem_of_nil. }
  cbn [existsb]. rewrite IH. repeat case_bool_decide; set_solver.
Qed.

Lemma mem_upd_eq sd f L : mem_of sd (upd_mem sd f L) = f (mem_of sd L).
Proof. by destruct sd. Qed.
Lemma mem_upd_ne sd sd' f L : sd' <> sd -> mem_of sd' (upd_mem sd f L) = mem_of sd' L.
Proof. by destruct sd, sd'. Qed.
Lemma tree_upd sd f L : tree (upd_mem sd f L) = tree L.
Proof. by destruct sd. Qed.
Lemma heap_upd sd f L : lheap (upd_mem sd f L) = lheap L.
Proof. by destruct sd. Qed.
Lemma mem_set_heap sd h L : mem_of sd (set_heap h L) = mem_of sd L.
Proof. by destruct sd. Qed.
Lemma upd_upd sd f g L : upd_mem sd f (upd_mem sd g L) = upd_mem sd (fun m => f (g m)) L.
Proof. by destruct sd, L. Qed.

Lemma tree_item_some L k x :
  ledger_inv L -> tree_item (tree L) k = Some x -> exists bz, tree_map (tree L) !! k = Some bz /\ Decode bz = Ret x /\ Key x = k /\ ok x.
Proof.
  intros Hinv. unfold tree_item. destruct (tree_map (tree L) !! k) as [bz|] eqn:E; simpl; [|done].
  destruct (li_tree L Hinv k bz E) as (y & Hd & Hk & Hok). rewrite Hd.
  case_decide; [|done]. intros [= <-]. by exists bz.
Qed.

Lemma tree_item_none L k :
  ledger_inv L -> tree_item (tree L) k = None -> tree_map (tree L) !! k = None.
Proof.
  intros Hinv. unfold tree_item. destruct (tree_map (tree L) !! k) as [bz|] eqn:E; simpl; [|done].
  destruct (li_tree L Hinv k bz E) as (y & Hd & Hk & _). rewrite Hd. by rewrite decide_True.
Qed.

Lemma pend_ok L sd k x : ledger_inv L -> pendOf L sd k = Some x -> Key x = k /\ ok x.
Proof.
  intros Hinv. unfold pendOf. destruct (upd sd L !! k) as [p|] eqn:E.
  - apply (li_upd L Hinv) in E. destruct (li_got L Hinv _ _ _ E) as (y & Hy & ? & ?).
    intros. by simplify_eq.
  - case_decide; [done|]. intros (bz & ? & ? & ? & ?)%tree_item_some; [|done]. done.
Qed.

Lemma read_spec L k :
  ledger_inv L ->
  read k L = (match tree_item (tree L) k with Some x => Ret x | None => Err ErrNotFoundResult end, L).
Proof.
  intros Hinv. unfold read. destruct (iavl_Get_total (tree L) k) as [r Hr]. rewrite Hr.
  apply iavl_Get_spec in Hr. subst r. unfold tree_item.
  destruct (tree_map (tree L) !! k) as [bz|] eqn:E; simpl; [|done].
  destruct (li_tree L Hinv k bz E) as (x & -> & Hk & _).
  rewrite bool_decide_eq_true_2 by done. by rewrite decide_True.
Qed.

(** A cached, visible item is the object the cache points to. *)
Lemma got_visible L sd k p :
  ledger_inv L -> k ∉ rem sd L -> got sd L !! k = Some p -> visible L sd k = objects L !! p.
Proof.
  intros Hinv Hr Hp. unfold visible, pendOf. rewrite decide_False by done.
  destruct (upd sd L !! k) as [q|] eqn:E.
  - apply (li_upd L Hinv) in E. by simplify_eq.
  - rewrite decide_False by done. symmetry. by apply (li_clean L Hinv _ _ _ Hp E).
Qed.

(** ** Each operation *)

(** Filling a cache changes neither side. *)
Definition preserved (L L' : FinalityLedger T Tr) : Prop :=
  tree L' = tree L /\ (forall sd, rem sd L' = rem sd L) /\ (forall sd, upd sd L' = upd sd L) /\
  (forall p x, objects L !! p = Some x -> objects L' !! p = Some x) /\
  (forall sd k p, got sd L !! k = Some p -> got sd L' !! k = Some p).

Lemma preserved_pend L L' : ledger_inv L -> preserved L L' -> forall sd k, pendOf L' sd k = pendOf L sd k.
Proof.
  intros Hinv (Ht & Hr & Hu & Ho & _) sd k. unfold pendOf. rewrite Hu, Hr, Ht.
  destruct (upd sd L !! k) as [p|] eqn:E; [|done].
  apply (li_upd L Hinv) in E. destruct (li_got L Hinv _ _ _ E) as (x & Hx & _).
  rewrite Hx. by apply Ho.
Qed.

Lemma fill_inv L sd k x :
  ledger_inv L -> k ∉ rem sd L -> got sd L !! k = None -> tree_item (tree L) k = Some x ->
  let p := hnext (lheap L) in
  let L' := upd_mem sd (setGotItem k p) (set_heap (heap_alloc x (lheap L)).2 L) in
  ledger_inv L' /\ preserved L L' /\ objects L' !! p = Some x /\ got sd L' !! k = Some p.
Proof.
  intros Hinv Hr Hg Hx p L'. destruct (tree_item_some L k x Hinv Hx) as (bz & Hb & Hd & Hk & Hok).
  assert (Hlt : forall sd' k' q, got sd' L !! k' = Some q -> (q < p)%positive).
  { intros sd' k' q Hq. destruct (li_got L Hinv _ _ _ Hq) as (y & Hy & _). by apply (li_heap L Hinv) in Hy. }
  assert (Hgot : forall sd' k', got sd' L' !! k' = if decide (sd' = sd /\ k' = k) then Some p else got sd' L !! k').
  { intros sd' k'. unfold L'. destruct (decide (sd' = sd)) as [->|Hne].
    - rewrite mem_upd_eq, mem_set_heap. unfold setGotItem; cbn [gotItems].
      rewrite lookup_insert. repeat case_decide; naive_solver.
    - rewrite mem_upd_ne, mem_set_heap by done. rewrite decide_False by tauto. done. }
  assert (Hupd : forall sd', upd sd' L' = upd sd' L) by (intros []; by destruct sd).
  assert (Hrem : forall sd', rem sd' L' = rem sd' L) by (intros []; by destruct sd).
  assert (Htree : tree L' = tree L) by (unfold L'; by rewrite tree_upd).
  assert (Hheap : lheap L' = (heap_alloc x (lheap L)).2) by (unfold L'; by rewrite heap_upd).
  assert (Hold : forall q y, objects L !! q = Some y -> objects L' !! q = Some y).
  { intros q y Hq. rewrite Hheap. apply heap_alloc_fresh; [apply (li_heap L Hinv)|done]. }
  assert (Hnew : objects L' !! p = Some x) by (rewrite Hheap; simpl; apply lookup_insert_eq).
  split_and!; [constructor| |done|].
  - rewrite Hheap. apply heap_alloc_wf, (li_heap L Hinv).
  - intros sd' k' q. rewrite Hgot. case_decide as Hc.
    + destruct Hc as [-> ->]. intros [= <-]. eauto.
    + intros Hq. destruct (li_got L Hinv _ _ _ Hq) as (y & Hy & ? & ?). eauto.
  - intros sd' k' q. rewrite Hupd, Hgot. intros Hq%(li_upd L Hinv).
    case_decide as Hc; [|done]. destruct Hc as [-> ->]. congruence.
  - intros sd' k' q. rewrite Hupd, Hrem, Hgot, Htree. case_decide as Hc.
    + destruct Hc as [-> ->]. intros [= <-] _. by rewrite Hnew, Hx.
    + intros Hq Hu. destruct (li_clean L Hinv _ _ _ Hq Hu) as [? Ho].
      destruct (li_got L Hinv _ _ _ Hq) as (y & Hy & _). rewrite <- Ho, Hy. split; [done|]. by apply Hold.
  - intros k1 k2 q1 q2. rewrite !Hgot. intros Hq1 Hq2 Heq. subst q2.
    destruct (decide (Check = sd /\ k1 = k)) as [[Hd1 ->]|Hc1];
      destruct (decide (Deliver = sd /\ k2 = k)) as [[Hd2 ->]|Hc2]; try congruence; simplify_eq.
    + apply Hlt in Hq2. lia.
    + apply Hlt in Hq1. lia.
    + by eapply (li_sides L Hinv).
  - rewrite Htree. apply (li_tree L Hinv).
  - split_and!; try done. intros sd' k' q Hq. rewrite Hgot. case_decide as Hc; [|done].
    destruct Hc as [-> ->]. congruence.
  - rewrite Hgot. by rewrite decide_True.
Qed.

Lemma get_on_unfold L sd k :
  get_on sd k L =
  if bool_decide (k ∈ rem sd L) then (Err ErrNotFoundResult, L)
  else match got sd L !! k with
       | Some p => (Ret p, L)
       | None =>
           bindM (read k) (fun x => let! p := alloc x in
             do! modifyM (upd_mem sd (setGotItem (Key x) p)) in retM p) L
       end.
Proof.
  rewrite <- isRemovedKey_spec. unfold get_on, getsM, getGotItem.
  unfold bindM at 1. destruct (isRemovedKey k (mem_of sd L)); [done|].
  by destruct (gotItems (mem_of sd L) !! k).
Qed.

Lemma get_on_spec L sd k :
  ledger_inv L ->
  match visible L sd k with
  | None => get_on sd k L = (Err ErrNotFoundResult, L)
  | Some x => exists p L', get_on sd k L = (Ret p, L') /\ ledger_inv L' /\ preserved L L' /\
                           objects L' !! p = Some x /\ got sd L' !! k = Some p
  end.
Proof.
  intros Hinv. rewrite get_on_unfold. case_bool_decide as Hr.
  { unfold visible. by rewrite decide_True. }
  destruct (got sd L !! k) as [p|] eqn:Hg.
  - rewrite (got_visible L sd k p) by done. destruct (li_got L Hinv _ _ _ Hg) as (x & Hx & _).
    rewrite Hx. exists p, L. by split_and!.
  - assert (Hv : visible L sd k = tree_item (tree L) k).
    { unfold visible, pendOf. rewrite decide_False by done.
      destruct (upd sd L !! k) as [q|] eqn:E; [|by rewrite decide_False].
      apply (li_upd L Hinv) in E. congruence. }
    rewrite Hv. pose proof (read_spec L k Hinv) as Hread.
    destruct (tree_item (tree L) k) as [x|] eqn:Hx; [|by unfold bindM; rewrite Hread].
    rewrite (bindM_step _ _ _ _ _ Hread).
    destruct (tree_item_some L k x Hinv Hx) as (_ & _ & _ & Hk & _). rewrite Hk.
    destruct (fill_inv L sd k x) as (Hi & Hp & Ho & Hgo); try done.
    eexists _, _. split_and!; [reflexivity|exact Hi|exact Hp|exact Ho|exact Hgo].
Qed.

Lemma store_set_spec L sd p x y :
  ledger_inv L -> objects L !! p = Some y -> ok x ->
  (forall sd' k', got sd' L !! k' = Some p -> sd' = sd /\ k' = Key x) ->
  exists L', set_on sd p (set_heap (heap_store p x (lheap L)) L) = (Ret tt, L') /\ ledger_inv L' /\
    tree L' = tree L /\ (forall sd', rem sd' L' = rem sd' L) /\
    (forall sd' k', pendOf L' sd' k' = if decide (sd' = sd /\ k' = Key x) then Some x else pendOf L sd' k').
Proof.
  intros Hinv Hp Hok Huniq.
  set (L1 := set_heap (heap_store p x (lheap L)) L).
  set (L' := upd_mem sd (fun m => setGotItem (Key x) p (setUpdatedItem (Key x) p m)) L1).
  assert (Hrun : set_on sd p L1 = (Ret tt, L')).
  { unfold set_on, load, bindM, modifyM. cbn [lheap L1 set_heap heap_store objs].
    rewrite lookup_insert_eq. unfold L'. by rewrite upd_upd. }
  assert (Hheap : lheap L' = heap_store p x (lheap L)) by (unfold L'; by rewrite heap_upd).
  assert (Htree : tree L' = tree L) by (unfold L'; by rewrite tree_upd).
  assert (Hrem : forall sd', rem sd' L' = rem sd' L) by (intros []; by destruct sd).
  assert (Hgot : forall sd' k', got sd' L' !! k' = if decide (sd' = sd /\ k' = Key x) then Some p else got sd' L !! k').
  { intros sd' k'. unfold L', L1. destruct (decide (sd' = sd)) as [->|Hne].
    - rewrite mem_upd_eq, mem_set_heap. cbn [setGotItem setUpdatedItem gotItems].
      rewrite lookup_insert. repeat case_decide; naive_solver.
    - rewrite mem_upd_ne, mem_set_heap by done. rewrite decide_False by tauto. done. }
  assert (Hupd : forall sd' k', upd sd' L' !! k' = if decide (sd' = sd /\ k' = Key x) then Some p else upd sd' L !! k').
  { intros sd' k'. unfold L', L1. destruct (decide (sd' = sd)) as [->|Hne].
    - rewrite mem_upd_eq, mem_set_heap. cbn [setGotItem setUpdatedItem updatedItems].
      rewrite lookup_insert. repeat case_decide; naive_solver.
    - rewrite mem_upd_ne, mem_set_heap by done. rewrite decide_False by tauto. done. }
  assert (Hnew : objects L' !! p = Some x) by (rewrite Hheap; simpl; apply lookup_insert_eq).
  assert (Hold : forall q, q <> p -> objects L' !! q = objects L !! q).
  { intros q Hq. rewrite Hheap. simpl. by apply lookup_insert_ne. }
  exists L'. split_and!; [done|constructor|done|done|].
  - rewrite Hheap. by eapply heap_store_wf, (li_heap L Hinv).
  - intros sd' k' q. rewrite Hgot. case_decide as Hc.
    + destruct Hc as [-> ->]. intros [= <-]. eauto.
    + intros Hq. destruct (li_got L Hinv _ _ _ Hq) as (z & Hz & ? & ?).
      exists z. rewrite Hold; [done|]. intros ->. by apply Hc, Huniq.
  - intros sd' k' q. rewrite Hgot, Hupd. case_decide; [done|]. apply (li_upd L Hinv).
  - intros sd' k' q. rewrite Hgot, Hupd, Hrem, Htree. case_decide as Hc; [done|].
    intros Hq Hu. destruct (li_clean L Hinv _ _ _ Hq Hu) as [? Ho]. rewrite Hold; [done|].
    intros ->. by apply Hc, Huniq.
  - intros k1 k2 q1 q2. rewrite !Hgot. intros Hq1 Hq2 Heq. subst q2.
    destruct (decide (Check = sd /\ k1 = Key x)) as [[Hd1 ->]|Hc1];
      destruct (decide (Deliver = sd /\ k2 = Key x)) as [[Hd2 ->]|Hc2]; try congruence; simplify_eq.
    + by apply Huniq in Hq2 as [? _].
    + by apply Huniq in Hq1 as [? _].
    + by eapply (li_sides L Hinv).
  - rewrite Htree. apply (li_tree L Hinv).
  - intros sd' k'. unfold pendOf. rewrite Hupd, Hrem, Htree. case_decide as Hc; [done|].
    destruct (upd sd' L !! k') as [q|] eqn:E; [|done]. apply Hold. intros ->.
    apply (li_upd L Hinv) in E. by apply Hc, Huniq.
Qed.

(** Forgetting the cached item of a key on one side. *)
Lemma forget_inv L sd k r :
  ledger_inv L -> (forall k', k' ∈ rem sd L -> k' ∈ r) -> (forall k', k' ∈ r -> k' ∈ rem sd L \/ k' = k) ->
  let L' := upd_mem sd (fun m => MemItems (delete k (gotItems m)) (delete k (updatedItems m)) r) L in
  ledger_inv L' /\ tree L' = tree L /\ objects L' = objects L /\
  (forall sd', rem sd' L' = if decide (sd' = sd) then r else rem sd' L) /\
  (forall sd' k', pendOf L' sd' k' =
     if decide (sd' = sd /\ k' = k) then (if decide (k ∈ r) then None else tree_item (tree L) k)
     else pendOf L sd' k').
Proof.
  intros Hinv Hr1 Hr2 L'.
  assert (Hheap : lheap L' = lheap L) by (unfold L'; by rewrite heap_upd).
  assert (Htree : tree L' = tree L) by (unfold L'; by rewrite tree_upd).
  assert (Hrem : forall sd', rem sd' L' = if decide (sd' = sd) then r else rem sd' L).
  { intros sd'. unfold L'. case_decide; [subst; by rewrite mem_upd_eq|by rewrite mem_upd_ne]. }
  assert (Hgot : forall sd' k', got sd' L' !! k' = if decide (sd' = sd /\ k' = k) then None else got sd' L !! k').
  { intros sd' k'. unfold L'. destruct (decide (sd' = sd)) as [->|Hne].
    - rewrite mem_upd_eq. cbn [gotItems]. rewrite lookup_delete. repeat case_decide; naive_solver.
    - rewrite mem_upd_ne by done. rewrite decide_False by tauto. done. }
  assert (Hupd : forall sd' k', upd sd' L' !! k' = if decide (sd' = sd /\ k' = k) then None else upd sd' L !! k').
  { intros sd' k'. unfold L'. destruct (decide (sd' = sd)) as [->|Hne].
    - rewrite mem_upd_eq. cbn [updatedItems]. rewrite lookup_delete. repeat case_decide; naive_solver.
    - rewrite mem_upd_ne by done. rewrite decide_False by tauto. done. }
  split_and!; [constructor|done|by rewrite Hheap|done|].
  - rewrite Hheap. apply (li_heap L Hinv).
  - intros sd' k' p. rewrite Hgot, Hheap. case_decide; [done|]. apply (li_got L Hinv).
  - intros sd' k' p. rewrite Hgot, Hupd. case_decide; [done|]. apply (li_upd L Hinv).
  - intros sd' k' p. rewrite Hgot, Hupd, Hrem, Hheap, Htree. case_decide as Hc; [done|].
    intros Hg Hu. destruct (li_clean L Hinv _ _ _ Hg Hu) as [? ?]. split; [|done].
    case_decide; [subst|done]. intros [?|?]%Hr2; tauto.
  - intros k1 k2 p q. rewrite !Hgot. repeat case_decide; try done. apply (li_sides L Hinv).
  - rewrite Htree. apply (li_tree L Hinv).
  - intros sd' k'. unfold pendOf. rewrite Hupd, Hrem, Hheap, Htree.
    destruct (decide (sd' = sd /\ k' = k)) as [[-> ->]|Hc].
    + by destruct (decide (sd = sd)).
    + destruct (upd sd' L !! k') as [p|]; [done|].
      destruct (decide (sd' = sd)) as [->|]; [|done].
      destruct (decide (k' ∈ rem sd L)) as [Hi|Hi].
      * by rewrite decide_True by auto.
      * rewrite decide_False; [done|]. intros [?|?]%Hr2; tauto.
Qed.

Lemma cancel_set_spec L sd k :
  ledger_inv L ->
  exists L', cancel_set_on sd k L = (Ret tt, L') /\ ledger_inv L' /\ tree L' = tree L /\
    (forall sd', rem sd' L' = rem sd' L) /\
    (forall sd' k', pendOf L' sd' k' =
       if decide (sd' = sd /\ k' = k) then (if decide (k ∈ rem sd L) then None else tree_item (tree L) k)
       else pendOf L sd' k').
Proof.
  intros Hinv. destruct (forget_inv L sd k (rem sd L)) as (Hi & Ht & _ & Hr & Hp); auto.
  eexists. split_and!; [|exact Hi|exact Ht| |exact Hp].
  - unfold cancel_set_on, bindM, modifyM. rewrite upd_upd. by destruct sd.
  - intros sd'. rewrite Hr. destruct (decide (sd' = sd)) as [->|]; done.
Qed.

Lemma del_on_spec L sd k :
  ledger_inv L ->
  match visible L sd k with
  | None => del_on sd k L = (Err ErrNotFoundResult, L)
  | Some x => exists p L', del_on sd k L = (Ret p, L') /\ ledger_inv L' /\ tree L' = tree L /\
      objects L' !! p = Some x /\
      (forall sd', rem sd' L' = if decide (sd' = sd) then rem sd L ++ [k] else rem sd' L) /\
      (forall sd' k', pendOf L' sd' k' = if decide (sd' = sd /\ k' = k) then None else pendOf L sd' k')
  end.
Proof.
  intros Hinv. pose proof (get_on_spec L sd k Hinv) as Hget.
  destruct (visible L sd k) as [x|] eqn:Hv.
  - destruct Hget as (p & L1 & Hrun & Hi & Hp & Hx & Hg).
    destruct (forget_inv L1 sd k (rem sd L1 ++ [k])) as (Hi2 & Ht & Ho & Hr & Hpd); [done|set_solver|set_solver|].
    destruct Hp as (Htr & Hrm & Hup & Hob & Hgo).
    eexists p, _. split_and!; [|exact Hi2| | | |].
    + unfold del_on. rewrite (bindM_step _ _ _ _ _ Hrun). unfold bindM, modifyM, retM.
      rewrite !upd_upd. by destruct sd.
    + by rewrite Ht.
    + by rewrite Ho.
    + intros sd'. rewrite Hr, !Hrm. done.
    + intros sd' k'. rewrite Hpd.
      rewrite (decide_True (P := k ∈ removedKeys (mem_of sd L1) ++ [k]))
        by (apply elem_of_app; right; by apply list_elem_of_singleton).
      destruct (decide (sd' = sd /\ k' = k)); [done|].
      apply preserved_pend; [done|by repeat split].
  - unfold del_on, bindM. by rewrite Hget.
Qed.

(** ** Commit *)
Lemma remove_all_spec ks L :
  exists t, forM_ ks tree_Remove L = (Ret tt, set_tree t L) /\
    (forall k, tree_map t !! k = if decide (k ∈ ks) then None else tree_map (tree L) !! k) /\
    tree_saved t = tree_saved (tree L) /\ iavl_Version t = iavl_Version (tree L).
Proof.
  revert L. induction ks as [|k ks IH]; intros L; cbn [forM_].
  { exists (tree L). split_and!; [by destruct L|intros k; by rewrite decide_False by set_solver|done|done]. }
  destruct (iavl_Remove_total (tree L) k) as [t1 Ht1].
  destruct (iavl_Remove_spec _ _ _ Ht1) as (Hm & Hs & Hv).
  destruct (IH (set_tree t1 L)) as (t & Hrun & Hmap & Hsv & Hver).
  exists t. split_and!.
  - unfold bindM, tree_Remove at 1. rewrite Ht1. exact Hrun.
  - intros k'. rewrite Hmap. cbn [tree set_tree]. rewrite Hm, lookup_delete.
    repeat case_decide; set_solver.
  - by rewrite Hsv.
  - by rewrite Hver.
Qed.

Lemma write_all_spec m ks L :
  (forall k, k ∈ ks -> exists p x, updatedItems m !! k = Some p /\ objects L !! p = Some x /\ Key x = k /\ ok x) ->
  exists t, forM_ ks (write_item m) L = (Ret tt, set_tree t L) /\
    (forall k, k ∈ ks -> exists p x bz, updatedItems m !! k = Some p /\ objects L !! p = Some x /\
                                      Encode x = Ret bz /\ tree_map t !! k = Some bz) /\
    (forall k, k ∉ ks -> tree_map t !! k = tree_map (tree L) !! k) /\
    tree_saved t = tree_saved (tree L) /\ iavl_Version t = iavl_Version (tree L).
Proof.
  revert L. induction ks as [|k ks IH]; intros L Hks; cbn [forM_].
  { exists (tree L). split_and!; [by destruct L|set_solver|done|done|done]. }
  destruct (Hks k ltac:(set_solver)) as (p & x & Hp & Hx & Hk & Hok).
  destruct (encode_total x Hok) as [bz Hbz].
  destruct (iavl_Set_total (tree L) k bz) as [t1 Ht1].
  destruct (iavl_Set_spec _ _ _ _ Ht1) as (Hm & Hs & Hv).
  destruct (IH (set_tree t1 L)) as (t & Hrun & Hin & Hout & Hsv & Hver).
  { intros k' Hk'. apply Hks. set_solver. }
  exists t. split_and!; [| | |by rewrite Hsv|by rewrite Hver].
  - assert (Hw : write_item m k L = (Ret tt, set_tree t1 L)).
    { unfold write_item. rewrite Hp. unfold bindM, load. rewrite Hx. unfold liftO. rewrite Hbz, Hk.
      unfold tree_Set. by rewrite Ht1. }
    by rewrite (bindM_step _ _ _ _ _ Hw).
  - intros k' Hk'. destruct (decide (k' ∈ ks)) as [Hi|Hi]; [by apply Hin|].
    assert (k' = k) as -> by set_solver. exists p, x, bz. rewrite Hout by done. cbn [tree set_tree].
    rewrite Hm, lookup_insert_eq. done.
  - intros k' Hk'. rewrite Hout by set_solver. cbn [tree set_tree]. rewrite Hm, lookup_insert_ne by set_solver.
    done.
Qed.

Lemma elem_of_updated_keys m k : k ∈ updated_keys m <-> is_Some (updatedItems m !! k).
Proof.
  unfold updated_keys. rewrite list_elem_of_fmap. split.
  - intros ([k' p] & -> & H%elem_of_map_to_list). simpl. eauto.
  - intros [p H]. exists (k, p). by rewrite elem_of_map_to_list.
Qed.

Lemma ledger_sort_eq (l l' : list bytes) :
  l' ≡ₚ l -> sort_Sort LedgerKeyLess l' = sort_Sort LedgerKeyLess l.
Proof.
  apply sort_perm_eq.
  - intros x y. apply bytes_ltb_asym.
  - intros x y z. unfold not_less, LedgerKeyLess. apply bytes_ltb_negtrans.
  - intros x y _ _. unfold not_less, LedgerKeyLess. apply bytes_ltb_total.
Qed.

Lemma commit_spec L :
  ledger_inv L ->
  exists h v L', Commit L = (Ret (h, v), L') /\ ledger_inv L' /\
    v = iavl_Version (tree L) + 1 /\ iavl_Version (tree L') = v /\
    tree_saved (tree L') = <[v := tree_map (tree L')]> (tree_saved (tree L)) /\
    (forall sd, rem sd L' = []) /\
    (forall k, tree_item (tree L') k = pendOf L Deliver k) /\
    (forall sd k, pendOf L' sd k = pendOf L Deliver k).
Proof.
  intros Hinv. set (m := finalityItems L).
  assert (Hks : forall k, k ∈ sort_Sort LedgerKeyLess (updated_keys m) <-> is_Some (updatedItems m !! k))
    by (intros k; rewrite elem_of_sort; apply elem_of_updated_keys).
  destruct (remove_all_spec (removedKeys m) L) as (t1 & Hrun1 & Hm1 & Hs1 & Hv1).
  destruct (write_all_spec m (sort_Sort LedgerKeyLess (updated_keys m)) (set_tree t1 L))
    as (t2 & Hrun2 & Hin & Hout & Hs2 & Hv2).
  { intros k [p Hp]%Hks. pose proof (li_upd L Hinv Deliver k p Hp) as Hg.
    destruct (li_got L Hinv _ _ _ Hg) as (x & ? & ? & ?). eauto 10. }
  destruct (iavl_Save_total t2) as (h & v & t3 & Hsave).
  destruct (iavl_Save_spec _ _ _ _ Hsave) as (Hv & Hv3 & Hm3 & Hs3).
  cbn [tree set_tree] in *.
  set (L' := MkLedger t3 newMemItems (refresh m) (lheap L)).
  assert (Hitem : forall k, tree_item t3 k = pendOf L Deliver k).
  { intros k. unfold tree_item, pendOf. rewrite Hm3. cbn [mem_of]. fold m.
    destruct (updatedItems m !! k) as [p|] eqn:Hp.
    - destruct (Hin k) as (p' & x & bz & Hp' & Hx & Hbz & ->); [by rewrite Hks, Hp|].
      assert (p' = p) as -> by congruence.
      destruct (li_got L Hinv Deliver k p) as (x' & Hx' & Hk & Hok); [by apply (li_upd L Hinv)|].
      cbn [lheap set_tree] in Hx. rewrite Hx. assert (x' = x) as -> by congruence.
      rewrite (decode_encode x bz Hok Hbz). by rewrite decide_True.
    - rewrite Hout by (rewrite Hks, Hp; by intros [? ?]). rewrite Hm1. by case_decide. }
  exists h, v, L'. split_and!; [|constructor|lia|done| | |done|].
  - unfold Commit. unfold getsM at 1, bindM at 1. fold m. unfold commit_keys.
    unfold getsM at 1, bindM at 1. fold m.
    rewrite (bindM_step _ _ _ _ _ Hrun1), (bindM_step _ _ _ _ _ Hrun2).
    unfold bindM, tree_SaveVersion. cbn [tree set_tree]. by rewrite Hsave.
  - apply (li_heap L Hinv).
  - intros [] k p; cbn; [by rewrite lookup_empty|]. intros Hp. apply (li_got L Hinv Deliver).
    apply lookup_union_Some_raw in Hp as [Hp|[_ Hp]]; [by apply (li_upd L Hinv)|done].
  - intros [] k p; cbn; by rewrite lookup_empty.
  - intros [] k p; cbn; [by rewrite lookup_empty|]. intros Hp _. split; [set_solver|].
    rewrite Hitem. unfold pendOf. cbn [mem_of]. fold m.
    destruct (updatedItems m !! k) as [q|] eqn:Hq.
    + rewrite (lookup_union_Some_l _ _ _ _ Hq) in Hp. by simplify_eq.
    + rewrite lookup_union_r in Hp by done.
      destruct (li_clean L Hinv Deliver k p Hp Hq) as [Hr Ho]. by rewrite decide_False.
  - intros k k' p q; cbn. by rewrite lookup_empty.
  - intros k bz; cbn. rewrite Hm3. intros Hb.
    destruct (decide (k ∈ sort_Sort LedgerKeyLess (updated_keys m))) as [Hi|Hi].
    + destruct (Hin k Hi) as (p & x & bz' & Hp & Hx & He & Hb'). simplify_eq.
      destruct (li_got L Hinv Deliver k p) as (x' & Hx' & Hk & Hok); [by apply (li_upd L Hinv)|].
      cbn [lheap set_tree] in Hx. simplify_eq. exists x. by rewrite (decode_encode x bz).
    + rewrite Hout, Hm1 in Hb by done. case_decide; [done|]. by apply (li_tree L Hinv).
  - cbn. rewrite Hs3, Hs2, Hs1, Hm3. done.
  - by intros [].
  - intros sd k. rewrite <- Hitem. unfold pendOf, L'. destruct sd; cbn; by rewrite lookup_empty.
Qed.

(** ** The simulation *)

(** Objects put into the ledger encode; in-place updates keep the key. *)
Definition op_ok (o : lop T) : Prop :=
  match o with
  | OPut _ x => ok x
  | OUpdate _ _ f => forall x, ok x -> Key (f x) = Key x /\ ok (f x)
  | _ => True
  end.

Fixpoint run_ops (os : list (lop T)) : GoM (FinalityLedger T Tr) (list (option T)) :=
  match os with
  | [] => retM []
  | o :: os' => let! r := run_op o in let! rs := run_ops os' in retM (r :: rs)
  end.

Fixpoint abs_run (os : list (lop T)) (A : absLedger T) : list (option T) * absLedger T :=
  match os with
  | [] => ([], A)
  | o :: os' => let '(rs, A') := abs_run os' (abs_step o A) in (abs_res o A :: rs, A')
  end.

Lemma abs_get_visible L A sd k : sim L A -> abs_get A sd k = visible L sd k.
Proof.
  intros Hs. unfold abs_get, visible. rewrite <- (sim_pend L A Hs).
  destruct (decide (k ∈ a_hid A sd)) as [H|H]; rewrite (sim_hid L A Hs) in H.
  - by rewrite decide_True.
  - by rewrite decide_False.
Qed.

Lemma sim_intro L L' A' :
  ledger_inv L' -> tree L' = tree L -> (forall k, a_committed A' !! k = tree_item (tree L) k) ->
  (forall sd k, a_pend A' sd !! k = pendOf L' sd k) ->
  (forall sd k, k ∈ a_hid A' sd <-> k ∈ rem sd L') -> sim L' A'.
Proof. intros Hi Ht Hc Hp Hh. constructor; [done| |done|done]. by rewrite Ht. Qed.

Lemma load_some L p x : objects L !! p = Some x -> load p L = (Ret x, L).
Proof. unfold load. by intros ->. Qed.

Lemma opt_item_some L p x : objects L !! p = Some x -> opt_item (inr p) L = (Ret (Some (p, x)), L).
Proof. intros H. unfold opt_item, bindM. by rewrite (load_some L p x). Qed.

(** [Get] and [Del], as a caller sees them. *)
Lemma try_get_spec L sd k :
  ledger_inv L ->
  match visible L sd k with
  | None => (let! r := tryM (get_on sd k) in opt_item r) L = (Ret None, L)
  | Some x => exists p L', (let! r := tryM (get_on sd k) in opt_item r) L = (Ret (Some (p, x)), L') /\
                           ledger_inv L' /\ preserved L L' /\ objects L' !! p = Some x /\ got sd L' !! k = Some p
  end.
Proof.
  intros Hinv. pose proof (get_on_spec L sd k Hinv) as H. destruct (visible L sd k) as [x|].
  - destruct H as (p & L' & Hrun & Hi & Hp & Ho & Hg). exists p, L'. split_and!; try done.
    rewrite (bindM_step _ _ _ _ _ (tryM_ret _ _ _ _ Hrun)). by apply opt_item_some.
  - by rewrite (bindM_step _ _ _ _ _ (tryM_err _ _ _ _ H)).
Qed.

Lemma abs_del_sim L A sd k x p L' :
  sim L A -> visible L sd k = Some x -> del_on sd k L = (Ret p, L') -> sim L' (abs_del sd k A).
Proof.
  intros Hs Hv Hd. pose proof (del_on_spec L sd k (sim_inv L A Hs)) as H. rewrite Hv in H.
  destruct H as (p' & L'' & Hd' & Hi & Ht & _ & Hr & Hp). assert (L'' = L') as -> by congruence.
  unfold abs_del. rewrite (abs_get_visible L A sd k Hs), Hv.
  apply (sim_intro L); cbn; [done|done|apply (sim_committed L A Hs)| |].
  - intros sd' k'. rewrite Hp. unfold on_side. destruct (decide (sd' = sd)) as [->|Hne].
    + rewrite lookup_delete, (sim_pend L A Hs). repeat case_decide; naive_solver.
    + rewrite decide_False by naive_solver. apply (sim_pend L A Hs).
  - intros sd' k'. rewrite Hr. unfold on_side. destruct (decide (sd' = sd)) as [->|Hne].
    + rewrite elem_of_union, elem_of_singleton, (sim_hid L A Hs), elem_of_app, list_elem_of_singleton. tauto.
    + apply (sim_hid L A Hs).
Qed.

Lemma abs_put_sim L L' A sd x :
  sim L A -> ledger_inv L' -> tree L' = tree L -> (forall sd', rem sd' L' = rem sd' L) ->
  (forall sd' k', pendOf L' sd' k' = if decide (sd' = sd /\ k' = Key x) then Some x else pendOf L sd' k') ->
  sim L' (abs_put sd x A).
Proof.
  intros Hs Hi Ht Hr Hp. apply (sim_intro L); cbn; [done|done|apply (sim_committed L A Hs)| |].
  - intros sd' k'. rewrite Hp. unfold on_side. destruct (decide (sd' = sd)) as [->|Hne].
    + rewrite lookup_insert, (sim_pend L A Hs). repeat case_decide; naive_solver.
    + rewrite decide_False by naive_solver. apply (sim_pend L A Hs).
  - intros sd' k'. rewrite Hr. apply (sim_hid L A Hs).
Qed.

Lemma sim_preserved L L' A : sim L A -> ledger_inv L' -> preserved L L' -> sim L' A.
Proof.
  intros Hs Hi Hp. pose proof (preserved_pend L L' (sim_inv L A Hs) Hp) as Hpd.
  destruct Hp as (Ht & Hr & _ & _ & _). apply (sim_intro L); [done|done|apply (sim_committed L A Hs)| |].
  - intros. rewrite Hpd. apply (sim_pend L A Hs).
  - intros. rewrite Hr. apply (sim_hid L A Hs).
Qed.

Definition step_sim (o : lop T) : Prop := forall L A, sim L A -> op_ok o ->
  exists L', run_op o L = (Ret (abs_res o A), L') /\ sim L' (abs_step o A).

Lemma step_get sd k : step_sim (OGet sd k).
Proof.
  intros L A Hs _. pose proof (try_get_spec L sd k (sim_inv L A Hs)) as H. cbn [abs_res abs_step run_op].
  rewrite (abs_get_visible L A sd k Hs). rewrite <- bindM_assoc.
  destruct (visible L sd k) as [x|].
  - destruct H as (p & L' & Hrun & Hi & Hp & _). exists L'. rewrite (bindM_step _ _ _ _ _ Hrun).
    split; [done|]. by eapply sim_preserved.
  - exists L. by rewrite (bindM_step _ _ _ _ _ H).
Qed.

Lemma step_put sd x : step_sim (OPut sd x).
Proof.
  intros L A Hs Hok. pose proof (sim_inv L A Hs) as Hinv. cbn [abs_res abs_step run_op] in *.
  set (p := hnext (lheap L)). set (h1 := (heap_alloc x (lheap L)).2).
  assert (Hfresh : forall sd' k', got sd' L !! k' <> Some p).
  { intros sd' k' Hg. destruct (li_got L Hinv _ _ _ Hg) as (y & Hy & _).
    apply (li_heap L Hinv) in Hy. unfold p in Hy. lia. }
  assert (Hold : forall q y, objects L !! q = Some y -> objs h1 !! q = Some y)
    by (intros; apply heap_alloc_fresh; [apply (li_heap L Hinv)|done]).
  assert (Hinv1 : ledger_inv (set_heap h1 L)).
  { constructor; cbn [tree lheap set_heap]; intros *; rewrite ?mem_set_heap.
    - apply heap_alloc_wf, (li_heap L Hinv).
    - intros (y & Hy & ? & ?)%(li_got L Hinv). eauto.
    - apply (li_upd L Hinv).
    - intros Hg Hu. destruct (li_clean L Hinv _ _ _ Hg Hu) as [? Ho].
      destruct (li_got L Hinv _ _ _ Hg) as (y & Hy & _). rewrite <- Ho, Hy. auto.
    - apply (li_sides L Hinv).
    - apply (li_tree L Hinv). }
  destruct (store_set_spec (set_heap h1 L) sd p x x) as (L' & Hrun & Hi & Ht & Hr & Hp); [done| |done| |].
  { apply lookup_insert_eq. }
  { intros sd' k' Hg. rewrite mem_set_heap in Hg. by apply Hfresh in Hg. }
  assert (Hpres : forall sd' k', pendOf (set_heap h1 L) sd' k' = pendOf L sd' k').
  { apply preserved_pend; [done|]. split_and!; try done; intros; by rewrite mem_set_heap. }
  exists L'. split.
  - unfold bindM at 1, alloc. cbn [heap_alloc].
    replace (heap_store p x (lheap (set_heap h1 L))) with h1 in Hrun
      by (unfold h1, heap_store, p; cbn; by rewrite insert_insert_eq).
    fold p h1. cbn [set_heap] in Hrun. by rewrite (bindM_step _ _ _ _ _ Hrun).
  - apply (abs_put_sim L); [done|done|done| |].
    + intros sd'. by rewrite Hr, mem_set_heap.
    + intros sd' k'. by rewrite Hp, Hpres.
Qed.

Lemma step_update sd k f : step_sim (OUpdate sd k f).
Proof.
  intros L A Hs Hok. pose proof (try_get_spec L sd k (sim_inv L A Hs)) as H.
  cbn [abs_res abs_step run_op op_ok] in *. rewrite (abs_get_visible L A sd k Hs). rewrite <- bindM_assoc.
  destruct (visible L sd k) as [x|] eqn:Hv; [|exists L; by rewrite (bindM_step _ _ _ _ _ H)].
  destruct H as (p & L1 & Hrun & Hi & Hpr & Ho & Hg).
  destruct (li_got L1 Hi _ _ _ Hg) as (x' & Hx' & Hk & Hokx). assert (x' = x) as -> by congruence.
  destruct (Hok x Hokx) as [Hkf Hokf].
  destruct (store_set_spec L1 sd p (f x) x) as (L' & Hset & Hi' & Ht & Hr & Hp); [done|done|done| |].
  { intros sd' k' Hg'. destruct (li_got L1 Hi _ _ _ Hg') as (z & Hz & Hkz & _).
    assert (z = x) as -> by congruence. split; [|congruence].
    destruct sd, sd'; try done; exfalso;
      by (eapply (li_sides L1 Hi); [| |reflexivity]; eassumption). }
  exists L'. split.
  - rewrite (bindM_step _ _ _ _ _ Hrun). unfold bindM at 1, store. by rewrite (bindM_step _ _ _ _ _ Hset).
  - simpl. apply (abs_put_sim L1); [by eapply sim_preserved|done|done|done|done].
Qed.

Lemma step_cancel sd k : step_sim (OCancelSet sd k).
Proof.
  intros L A Hs _. destruct (cancel_set_spec L sd k (sim_inv L A Hs)) as (L' & Hrun & Hi & Ht & Hr & Hp).
  exists L'. cbn [abs_res abs_step run_op]. rewrite (bindM_step _ _ _ _ _ Hrun). split; [done|].
  apply (sim_intro L); cbn; [done|done|apply (sim_committed L A Hs)| |].
  - intros sd' k'. rewrite Hp. unfold on_side. destruct (decide (sd' = sd)) as [->|Hne].
    + destruct (decide (k ∈ a_hid A sd)) as [Hh|Hh]; rewrite (sim_hid L A Hs) in Hh.
      * rewrite (decide_True _ _ Hh), lookup_delete, (sim_pend L A Hs). repeat case_decide; naive_solver.
      * rewrite (decide_False _ _ Hh), lookup_partial_alter, (sim_pend L A Hs), (sim_committed L A Hs).
        repeat case_decide; naive_solver.
    + rewrite decide_False by naive_solver. apply (sim_pend L A Hs).
  - intros. rewrite Hr. apply (sim_hid L A Hs).
Qed.

(** One deletion on one side: its result and the simulation after it. *)
Lemma del_on_sim L A sd k :
  sim L A ->
  match abs_get A sd k with
  | None => del_on sd k L = (Err ErrNotFoundResult, L) /\ abs_del sd k A = A
  | Some x => exists p L', del_on sd k L = (Ret p, L') /\ objects L' !! p = Some x /\ sim L' (abs_del sd k A)
  end.
Proof.
  intros Hs. pose proof (del_on_spec L sd k (sim_inv L A Hs)) as H.
  destruct (abs_get A sd k) as [x|] eqn:Hg; pose proof Hg as Hv; rewrite (abs_get_visible L A sd k Hs) in Hv;
    rewrite Hv in H.
  - destruct H as (p & L' & Hd & _ & _ & Ho & _). exists p, L'. split_and!; [done|done|].
    by eapply abs_del_sim.
  - split; [done|]. unfold abs_del. by rewrite Hg.
Qed.

Lemma abs_get_del_other sd sd' k A : sd' <> sd -> abs_get (abs_del sd k A) sd' k = abs_get A sd' k.
Proof.
  intros Hne. unfold abs_del. destruct (abs_get A sd k); [|done].
  unfold abs_get, on_side; cbn. by destruct (decide (sd' = sd)).
Qed.

Lemma step_del exec k : step_sim (ODel exec k).
Proof.
  intros L A Hs _. cbn [abs_res abs_step run_op].
  assert (Hex : exists L1 A1, sim L1 A1 /\ abs_get A1 (side_of exec) k = abs_get A (side_of exec) k /\
            tryM (del_for exec k) L = tryM (del_on (side_of exec) k) L1 /\
            abs_step (ODel exec k) A = abs_del (side_of exec) k A1).
  { destruct exec; [|by exists L, A].
    exists (del_on Check k L).2, (abs_del Check k A). cbn [side_of del_for abs_step].
    pose proof (del_on_sim L A Check k Hs) as H.
    unfold DelFinality, tryM, bindM, ignoreM. rewrite abs_get_del_other by done.
    destruct (abs_get A Check k).
    - destruct H as (p & L' & -> & _ & ?). done.
    - destruct H as [-> ->]. done. }
  destruct Hex as (L1 & A1 & Hs1 & Hget & Htry & Hstep). cbn [abs_step] in Hstep. rewrite Hstep.
  pose proof (del_on_sim L1 A1 (side_of exec) k Hs1) as H. rewrite Hget in H.
  unfold bindM at 1. rewrite Htry. destruct (abs_get A (side_of exec) k) as [x|].
  - destruct H as (p & L' & Hd & Ho & Hs'). exists L'. rewrite (tryM_ret _ _ _ _ Hd).
    by rewrite (bindM_step _ _ _ _ _ (opt_item_some L' p x Ho)).
  - destruct H as [Hd ->]. exists L1. by rewrite (tryM_err _ _ _ _ Hd).
Qed.

Lemma step_commit : step_sim OCommit.
Proof.
  intros L A Hs _. destruct (commit_spec L (sim_inv L A Hs)) as (h & v & L' & Hrun & Hi & _ & _ & _ & Hr & Ht & Hp).
  exists L'. cbn [abs_res abs_step run_op]. rewrite (bindM_step _ _ _ _ _ Hrun). split; [done|].
  constructor; cbn; [done| | |].
  - intros k. rewrite Ht. apply (sim_pend L A Hs).
  - intros sd k. rewrite Hp. apply (sim_pend L A Hs).
  - intros sd k. rewrite Hr. split; set_solver.
Qed.

Lemma step_simulation o : step_sim o.
Proof.
  destruct o; eauto using step_get, step_put, step_update, step_cancel, step_del, step_commit.
Qed.

Lemma run_ops_sim os L A :
  sim L A -> Forall op_ok os ->
  exists L', run_ops os L = (Ret (abs_run os A).1, L') /\ sim L' (abs_run os A).2.
Proof.
  intros Hs Hos. revert L A Hs. induction Hos as [|o os Ho _ IH]; intros L A Hs; cbn [run_ops abs_run].
  { by exists L. }
  destruct (step_simulation o L A Hs Ho) as (L1 & Hrun & Hs1).
  destruct (IH L1 (abs_step o A) Hs1) as (L2 & Hrun2 & Hs2).
  destruct (abs_run os (abs_step o A)) as [rs A'] eqn:E.
  exists L2. rewrite (bindM_step _ _ _ _ _ Hrun), (bindM_step _ _ _ _ _ Hrun2). done.
Qed.
End Refinement.
