(* ===== verification/LedgerClient.v ===== *)
(** * Reasoning about code that uses a ledger

    A controller obtains a pointer from the ledger (or allocates an object),
    mutates the object through it, and stores it again.  [handle] states that a
    pointer may be used in this way for one key of one side; the lemmas follow
    it through [get_on], [alloc] and the mutate-then-store sequences. *)

From Stdlib Require Import Strings.Byte.
From S2P Require Import Prelude Xerrors GoSem Bytes Ledger LedgerSpec.
Import MemItems.

Section Client.
Context {T Tr : Type} {Item : ILedgerItem T} {Tree : Iavl Tr} {View : IavlView Tr}.
Context (ok : T -> Prop).
Context {Laws : IavlLaws Tr} {Total : IavlTotal Tr} {ItemLaws : LedgerItemLaws ok}.
Implicit Types (L : FinalityLedger T Tr).

Abbreviation got sd L := (gotItems (mem_of sd L)).
Abbreviation upd sd L := (updatedItems (mem_of sd L)).
Abbreviation rem sd L := (removedKeys (mem_of sd L)).
Abbreviation objects L := (objs (lheap L)).

(** No side changed. *)
Definition same_view (L L' : FinalityLedger T Tr) : Prop :=
  tree L' = tree L /\ (forall sd, rem sd L' = rem sd L) /\ (forall sd k, pendOf L' sd k = pendOf L sd k).

Lemma same_view_visible L L' sd k : same_view L L' -> visible L' sd k = visible L sd k.
Proof. intros (_ & Hr & Hp). unfold visible. by rewrite Hr, Hp. Qed.

Lemma preserved_view L L' : ledger_inv ok L -> preserved L L' -> same_view L L'.
Proof.
  intros Hi Hp. pose proof (preserved_pend ok L L' Hi Hp). destruct Hp as (? & ? & _). by split_and!.
Qed.

#[export] Instance same_view_refl : Reflexive same_view.
Proof. by intros L. Qed.
#[export] Instance same_view_trans : Transitive same_view.
Proof.
  intros L1 L2 L3 (? & Hr & Hp) (? & Hr' & Hp'). split_and!; [congruence| |]; intros; by rewrite ?Hr', ?Hp'.
Qed.

(** [p] is the object of [x] on side [sd]: no cache entry but that of [Key x]
    on [sd] can point to it. *)
Definition handle (L : FinalityLedger T Tr) (sd : side) (p : positive) (x : T) : Prop :=
  objects L !! p = Some x /\ ok x /\ (forall sd' k', got sd' L !! k' = Some p -> sd' = sd /\ k' = Key x).

(** A handle that the cache knows. *)
Definition cached (L : FinalityLedger T Tr) (sd : side) (p : positive) (x : T) : Prop :=
  objects L !! p = Some x /\ got sd L !! Key x = Some p.

Lemma cached_handle L sd p x : ledger_inv ok L -> cached L sd p x -> handle L sd p x.
Proof.
  intros Hi [Hx Hg]. destruct (li_got ok L Hi _ _ _ Hg) as (y & Hy & _ & Hok). assert (y = x) as -> by congruence.
  split_and!; [done|done|]. intros sd' k' Hg'. destruct (li_got ok L Hi _ _ _ Hg') as (z & Hz & Hk & _).
  assert (z = x) as -> by congruence. split; [|done].
  destruct sd, sd'; try done; exfalso; by (eapply (li_sides ok L Hi); [| |reflexivity]; eassumption).
Qed.

Lemma cached_preserved L L' sd p x : preserved L L' -> cached L sd p x -> cached L' sd p x.
Proof. intros (_ & _ & _ & Ho & Hg) [Hx Hp]. split; auto. Qed.

Lemma handle_live L sd p x : handle L sd p x -> is_Some (objects L !! p).
Proof. intros (Hx & _). eauto. Qed.

(** ** Obtaining a pointer *)
Lemma find_spec L sd k :
  ledger_inv ok L ->
  match visible L sd k with
  | None => get_on sd k L = (Err ErrNotFoundResult, L)
  | Some x => exists p L', get_on sd k L = (Ret p, L') /\ ledger_inv ok L' /\ preserved L L' /\
                           cached L' sd p x /\ Key x = k
  end.
Proof.
  intros Hi. pose proof (get_on_spec ok L sd k Hi) as H. destruct (visible L sd k) as [x|] eqn:Hv; [|done].
  destruct H as (p & L' & Hrun & Hi' & Hp & Ho & Hg). exists p, L'.
  assert (Hk : Key x = k).
  { destruct (li_got ok L' Hi' _ _ _ Hg) as (y & Hy & Hk & _). congruence. }
  split_and!; try done. split; [done|]. by rewrite Hk.
Qed.

Lemma get_opt_spec L sd k :
  ledger_inv ok L ->
  match visible L sd k with
  | None => get_opt sd k L = (Ret None, L)
  | Some x => exists p L', get_opt sd k L = (Ret (Some p), L') /\ ledger_inv ok L' /\ preserved L L' /\
                           cached L' sd p x /\ Key x = k
  end.
Proof.
  intros Hi. pose proof (find_spec L sd k Hi) as H. unfold get_opt. destruct (visible L sd k) as [x|].
  - destruct H as (p & L' & Hrun & H). exists p, L'. by rewrite (bindM_step _ _ _ _ _ (tryM_ret _ _ _ _ Hrun)).
  - by rewrite (bindM_step _ _ _ _ _ (tryM_err _ _ _ _ H)).
Qed.

(** Reading an item through the cache. *)
Lemma read_opt_spec L sd k :
  ledger_inv ok L ->
  exists L', (let! o := get_opt sd k in load_opt o) L = (Ret (visible L sd k), L') /\ ledger_inv ok L' /\ preserved L L'.
Proof.
  intros Hi. pose proof (get_opt_spec L sd k Hi) as H. destruct (visible L sd k) as [x|].
  - destruct H as (p & L' & Hrun & Hi' & Hp & [Hx _] & _). exists L'. rewrite (bindM_step _ _ _ _ _ Hrun).
    cbn [load_opt]. unfold bindM, load. by rewrite Hx.
  - exists L. rewrite (bindM_step _ _ _ _ _ H). split_and!; [done|done|]. by split_and!.
Qed.

Lemma alloc_spec L sd x :
  ledger_inv ok L -> ok x ->
  exists p L', alloc x L = (Ret p, L') /\ ledger_inv ok L' /\ preserved L L' /\ handle L' sd p x /\
               (forall q y, objects L !! q = Some y -> q <> p) /\ (forall sd' k, got sd' L' !! k <> Some p).
Proof.
  intros Hi Hok. set (p := hnext (lheap L)). set (h1 := (heap_alloc x (lheap L)).2).
  assert (Hlt : forall q y, objects L !! q = Some y -> q <> p).
  { intros q y Hq%(li_heap ok L Hi). unfold p. lia. }
  assert (Hold : forall q y, objects L !! q = Some y -> objs h1 !! q = Some y)
    by (intros; apply heap_alloc_fresh; [apply (li_heap ok L Hi)|done]).
  assert (Hfresh : forall sd' k', got sd' L !! k' <> Some p).
  { intros sd' k' Hg. destruct (li_got ok L Hi _ _ _ Hg) as (y & Hy & _). by apply Hlt in Hy. }
  exists p, (set_heap h1 L). split_and!; [done| | | |done|].
  - constructor; cbn [tree lheap set_heap]; intros *; rewrite ?mem_set_heap.
    + apply heap_alloc_wf, (li_heap ok L Hi).
    + intros (y & Hy & ? & ?)%(li_got ok L Hi). eauto.
    + apply (li_upd ok L Hi).
    + intros Hg Hu. destruct (li_clean ok L Hi _ _ _ Hg Hu) as [? Ho].
      destruct (li_got ok L Hi _ _ _ Hg) as (y & Hy & _). rewrite <- Ho, Hy. auto.
    + apply (li_sides ok L Hi).
    + apply (li_tree ok L Hi).
  - split_and!; try done; intros; by rewrite mem_set_heap.
  - split_and!; [apply lookup_insert_eq|done|]. intros sd' k' Hg. rewrite mem_set_heap in Hg. by apply Hfresh in Hg.
  - intros sd' k'. rewrite mem_set_heap. apply Hfresh.
Qed.

(** ** Mutate and store *)
Definition put_state (sd : side) (p : positive) (x : T) (L : FinalityLedger T Tr) : FinalityLedger T Tr :=
  upd_mem sd (fun m => setGotItem (Key x) p (setUpdatedItem (Key x) p m)) (set_heap (heap_store p x (lheap L)) L).

Lemma set_on_run L sd p x :
  objects L !! p = Some x ->
  set_on sd p L = (Ret tt, upd_mem sd (fun m => setGotItem (Key x) p (setUpdatedItem (Key x) p m)) L).
Proof. intros H. unfold set_on, load, bindM, modifyM. rewrite H. by rewrite upd_upd. Qed.

Lemma put_run L sd p x : (do! store p x in set_on sd p) L = (Ret tt, put_state sd p x L).
Proof. unfold bindM, store. rewrite (set_on_run _ sd p x); [done|]. cbn. apply lookup_insert_eq. Qed.

Lemma put_spec L sd p x x' :
  ledger_inv ok L -> handle L sd p x -> ok x' -> Key x' = Key x ->
  let L' := put_state sd p x' L in
  ledger_inv ok L' /\ tree L' = tree L /\ (forall sd', rem sd' L' = rem sd' L) /\
  (forall sd' k', pendOf L' sd' k' = if decide (sd' = sd /\ k' = Key x) then Some x' else pendOf L sd' k') /\
  cached L' sd p x'.
Proof.
  intros Hi (Hx & Hok & Hu) Hok' Hk L'.
  destruct (store_set_spec ok L sd p x' x) as (L'' & Hrun & Hi' & Ht & Hr & Hp); [done|done|done|by rewrite Hk|].
  assert (L'' = L') as ->.
  { pose proof (put_run L sd p x') as Hput. unfold bindM, store in Hput. rewrite Hrun in Hput. by injection Hput. }
  rewrite <- Hk. split_and!; try done. split; unfold L', put_state.
  - rewrite heap_upd. cbn. apply lookup_insert_eq.
  - rewrite mem_upd_eq. cbn. apply lookup_insert_eq.
Qed.

Lemma visible_key L sd k x : ledger_inv ok L -> visible L sd k = Some x -> Key x = k /\ ok x /\ k ∉ rem sd L.
Proof.
  intros Hi. unfold visible. case_decide as Hr; [done|]. intros Hp. destruct (pend_ok ok L sd k x Hi Hp). done.
Qed.

(** What a stored object changes of the view. *)
Lemma put_visible L sd p x x' :
  ledger_inv ok L -> handle L sd p x -> ok x' -> Key x' = Key x -> Key x ∉ rem sd L ->
  ledger_inv ok (put_state sd p x' L) /\ tree (put_state sd p x' L) = tree L /\
  (forall sd', rem sd' (put_state sd p x' L) = rem sd' L) /\
  forall sd' k', visible (put_state sd p x' L) sd' k' = if decide (sd' = sd /\ k' = Key x) then Some x' else visible L sd' k'.
Proof.
  intros Hi Hh Hok Hk Hr. destruct (put_spec L sd p x x') as (Hi' & Ht & Hr' & Hp & _); [done..|].
  split_and!; [done|done|done|]. intros sd' k'. unfold visible. rewrite Hr', Hp.
  destruct (decide (sd' = sd /\ k' = Key x)) as [[-> ->]|Hd]; [|done]. by rewrite decide_False.
Qed.

Lemma set_same L sd p x : objects L !! p = Some x -> set_on sd p L = (Ret tt, put_state sd p x L).
Proof.
  intros Hx. rewrite (set_on_run L sd p x Hx). do 2 f_equal. unfold put_state. f_equal.
  unfold set_heap, heap_store. rewrite insert_id by done.
  assert (Hh : Heap (objects L) (hnext (lheap L)) = lheap L) by (by destruct (lheap L)). rewrite Hh. by destruct L.
Qed.

(** A new object is stored. *)
Lemma alloc_put L sd x :
  ledger_inv ok L -> ok x -> Key x ∉ rem sd L ->
  exists L', (let! p := alloc x in set_on sd p) L = (Ret tt, L') /\ ledger_inv ok L' /\ tree L' = tree L /\
    (forall sd', rem sd' L' = rem sd' L) /\
    forall sd' k', visible L' sd' k' = if decide (sd' = sd /\ k' = Key x) then Some x else visible L sd' k'.
Proof.
  intros Hi Hok Hr. destruct (alloc_spec L sd x Hi Hok) as (p & L1 & Hrun & Hi1 & Hp & Hh & _).
  pose proof (preserved_view L L1 Hi Hp) as Hsv. pose proof Hsv as (Ht & Hrem & _).
  destruct (put_visible L1 sd p x x) as (Hi2 & Ht2 & Hr2 & Hv2); [done|done|done|done|by rewrite Hrem|].
  exists (put_state sd p x L1). split_and!; [|done|congruence|intros; by rewrite Hr2|].
  - rewrite (bindM_step _ _ _ _ _ Hrun). apply set_same. apply Hh.
  - intros sd' k'. rewrite Hv2. case_decide; [done|]. by apply same_view_visible.
Qed.

(** Other handles survive. *)
Lemma put_frame L sd p x' sd2 q y :
  handle L sd2 q y -> q <> p -> handle (put_state sd p x' L) sd2 q y.
Proof.
  intros (Hy & Hok & Hu) Hne. unfold put_state. split_and!; [|done|].
  - rewrite heap_upd. cbn. by rewrite lookup_insert_ne.
  - intros sd' k'. destruct (decide (sd' = sd)) as [->|Hs].
    + rewrite mem_upd_eq. cbn. rewrite mem_set_heap, lookup_insert. case_decide; [congruence|]. apply Hu.
    + rewrite mem_upd_ne by done. rewrite mem_set_heap. apply Hu.
Qed.

(** Two mutations followed by two stores, on distinct objects and on one. *)
Lemma put_put_ne L sd p q x y :
  p <> q ->
  (do! store p x in do! store q y in do! set_on sd p in set_on sd q) L
  = (Ret tt, put_state sd q y (put_state sd p x L)).
Proof.
  intros Hne. unfold bindM, store.
  rewrite (set_on_run _ sd p x) by (cbn; rewrite lookup_insert_ne, lookup_insert_eq; done).
  rewrite (set_on_run _ sd q y) by (rewrite heap_upd; cbn; apply lookup_insert_eq).
  unfold put_state. by destruct sd, L.
Qed.

Lemma put_put_eq L sd p x y :
  (do! store p x in do! store p y in do! set_on sd p in set_on sd p) L = (Ret tt, put_state sd p y L).
Proof.
  unfold bindM, store.
  rewrite (set_on_run _ sd p y) by (cbn; apply lookup_insert_eq).
  rewrite (set_on_run _ sd p y) by (rewrite heap_upd; cbn; apply lookup_insert_eq).
  unfold put_state, setGotItem, setUpdatedItem, heap_store. destruct sd, L; cbn; by rewrite !insert_insert_eq.
Qed.

(** ** Deletion *)
Lemma del_side L sd k :
  ledger_inv ok L ->
  exists r L', del_on sd k L = (r, L') /\ r <> Panic /\ (is_Some (visible L sd k) -> exists p, r = Ret p) /\
    ledger_inv ok L' /\ tree L' = tree L /\ visible L' sd k = None /\
    forall sd' k', sd' <> sd \/ k' <> k -> visible L' sd' k' = visible L sd' k'.
Proof.
  intros Hi. pose proof (del_on_spec ok L sd k Hi) as H. destruct (visible L sd k) as [s|] eqn:Hv.
  - destruct H as (p & L' & Hrun & Hi' & Ht & _ & Hr & Hp). exists (Ret p), L'. split_and!; try done; [by exists p| |].
    + unfold visible. rewrite Hr, (decide_True (P := sd = sd)) by done. rewrite decide_True; [done|]. apply elem_of_app. right. by apply list_elem_of_singleton.
    + intros sd' k' Hk. unfold visible. rewrite Hp, Hr. rewrite (decide_False (P := sd' = sd /\ k' = k)) by tauto.
      destruct (decide (sd' = sd)) as [->|]; [|done]. assert (Hiff : k' ∈ rem sd L ++ [k] <-> k' ∈ rem sd L).
      { rewrite elem_of_app, list_elem_of_singleton. naive_solver. }
      by destruct (decide (k' ∈ rem sd L ++ [k])), (decide (k' ∈ rem sd L)); try tauto.
  - exists (Err ErrNotFoundResult), L. split_and!; try done.
Qed.

(** A deletion in a block hides the item from both sides. *)
Lemma del_for_spec L exec k :
  ledger_inv ok L -> is_Some (visible L (side_of exec) k) ->
  exists p L', del_for exec k L = (Ret p, L') /\ ledger_inv ok L' /\ tree L' = tree L /\ visible L' (side_of exec) k = None /\
    forall sd' k', k' <> k \/ (exec = false /\ sd' = Deliver) -> visible L' sd' k' = visible L sd' k'.
Proof.
  intros Hi Hs. unfold del_for. destruct exec; cbn [side_of] in *.
  - destruct (del_side L Check k Hi) as (r1 & L1 & H1 & Hp1 & _ & Hi1 & Ht1 & _ & Hv1).
    destruct (del_side L1 Deliver k Hi1) as (r2 & L2 & H2 & _ & Hr2 & Hi2 & Ht2 & Hn2 & Hv2). destruct Hr2 as [p ->]; [rewrite Hv1 by auto; done|].
    exists p, L2. split_and!; [|done|congruence|done|].
    + unfold DelFinality, bindM, ignoreM. rewrite H1. by destruct r1.
    + intros sd' k' [Hk|[? _]]; [|done]. by rewrite Hv2, Hv1 by auto.
  - destruct (del_side L Check k Hi) as (r1 & L1 & H1 & _ & Hr1 & Hi1 & Ht1 & Hn1 & Hv1). destruct (Hr1 Hs) as [p ->].
    exists p, L1. split_and!; try done. intros sd' k' [Hk|[_ ->]]; apply Hv1; auto.
Qed.

Lemma get_cached L sd k p : k ∉ rem sd L -> got sd L !! k = Some p -> get_on sd k L = (Ret p, L).
Proof.
  intros Hr Hg. unfold get_on, bindM, getsM. rewrite (isRemovedKey_spec ok), bool_decide_eq_false_2 by done. unfold getGotItem. by rewrite Hg.
Qed.

(** The other side of the cache is not looked at. *)
Lemma del_on_comm L sd sd' f k :
  sd <> sd' -> del_on sd k (upd_mem sd' f L) = let '(r, L') := del_on sd k L in (r, upd_mem sd' f L').
Proof.
  intros Hne. unfold del_on, get_on, bindM, getsM, modifyM, retM, errM, read, alloc. destruct L as [t mc mf h], sd, sd'; try done; cbn.
  - destruct (isRemovedKey k mc); [done|]. destruct (getGotItem k mc); [done|]. cbn [tree].
    destruct (iavl_Get t k) as [|[bz|]]; cbn; [done| |done]. destruct (Decode bz); [|done|done]. by case_bool_decide.
  - destruct (isRemovedKey k mf); [done|]. destruct (getGotItem k mf); [done|]. cbn [tree].
    destruct (iavl_Get t k) as [|[bz|]]; cbn; [done| |done]. destruct (Decode bz); [|done|done]. by case_bool_decide.
Qed.

(** An object that was changed in place and is deleted: the change is not seen. *)
Lemma del_changed L exec p x x' :
  ledger_inv ok (put_state (side_of exec) p x' L) -> cached L (side_of exec) p x -> Key x' = Key x -> Key x ∉ rem (side_of exec) L ->
  (del_for exec (Key x) (set_heap (heap_store p x' (lheap L)) L)) = del_for exec (Key x) (put_state (side_of exec) p x' L).
Proof.
  intros Hi [Hx Hg] Hk Hr. unfold put_state in *. rewrite Hk in *. set (L1 := set_heap (heap_store p x' (lheap L)) L).
  set (f := fun m => setGotItem (Key x) p (setUpdatedItem (Key x) p m)).
  assert (Hd : forall sd L2, Key x ∉ rem sd L2 -> got sd L2 !! Key x = Some p -> del_on sd (Key x) (upd_mem sd f L2) = del_on sd (Key x) L2).
  { intros sd L2 Hr2 Hg2. unfold del_on. rewrite (bindM_step _ _ _ _ _ (get_cached L2 sd _ p Hr2 Hg2)).
    rewrite (bindM_step _ _ _ p (upd_mem sd f L2)) by (apply get_cached; rewrite mem_upd_eq; [done|apply lookup_insert_eq]).
    unfold bindM, modifyM, retM. rewrite !upd_upd. f_equal. unfold f, setGotItem, setUpdatedItem, delGotItem, delUpdatedItem, appendRemovedKey.
    destruct sd; cbn; by rewrite !delete_insert_eq. }
  assert (Hm : forall sd, mem_of sd L1 = mem_of sd L) by (by intros []). unfold del_for. destruct exec; cbn [side_of] in *.
  - unfold DelFinality, bindM, ignoreM. rewrite del_on_comm by done. destruct (del_on Check (Key x) L1) as [r L2] eqn:E.
    assert (H2 : mem_of Deliver L2 = mem_of Deliver L).
    { pose proof (del_on_comm L1 Check Deliver (fun _ => mem_of Deliver L) (Key x) ltac:(done)) as Hc. rewrite E in Hc.
      assert (HL : upd_mem Deliver (fun _ => mem_of Deliver L) L1 = L1) by done. rewrite HL, E in Hc. injection Hc as Hc. by rewrite Hc. }
    destruct (del_side _ Check (Key x) Hi) as (r' & L' & Hdel & Hnp & _). rewrite (del_on_comm L1) in Hdel by done. rewrite E in Hdel. injection Hdel as <- <-.
    destruct r; [..|done]; symmetry; apply Hd; by rewrite H2.
  - symmetry. apply Hd; by rewrite Hm.
Qed.

(** An object that is changed after it was stored. *)
Lemma put_changed L sd p x y : Key y = Key x -> set_heap (heap_store p y (lheap (put_state sd p x L))) (put_state sd p x L) = put_state sd p y L.
Proof. intros Hk. unfold put_state, set_heap, heap_store. rewrite Hk, heap_upd. destruct sd, L; cbn; by rewrite insert_insert_eq. Qed.

(** A deletion does not look into the objects. *)
Lemma del_on_store L sd k p y :
  heap_wf (lheap L) -> is_Some (objects L !! p) ->
  del_on sd k (set_heap (heap_store p y (lheap L)) L) = let '(r, L') := del_on sd k L in (r, set_heap (heap_store p y (lheap L')) L').
Proof.
  intros Hw [x Hx]. pose proof (Hw p x Hx) as Hlt. unfold del_on, get_on, bindM, getsM, modifyM, retM, errM, read, alloc.
  destruct L as [t mc mf h], sd; cbn in *;
    match goal with |- context [isRemovedKey k ?m] => destruct (isRemovedKey k m); [done|]; destruct (getGotItem k m); [done|] end; cbn;
    destruct (iavl_Get t k) as [|[bz|]]; cbn; try done; destruct (Decode bz); try done; case_bool_decide; cbn; try done;
    unfold heap_store; cbn; rewrite insert_insert_ne by lia; done.
Qed.

Lemma get_on_got L sd k r L' p x :
  heap_wf (lheap L) -> objects L !! p = Some x -> get_on sd k L = (r, L') ->
  objects L' !! p = Some x /\ (forall sd' k', got sd' L' !! k' = Some p -> got sd' L !! k' = Some p).
Proof.
  intros Hw Hx. pose proof (Hw p x Hx) as Hlt. unfold get_on, bindM, getsM, modifyM, retM, errM, read, alloc.
  destruct (isRemovedKey k (mem_of sd L)); [by intros [= <- <-]|]. destruct (getGotItem k (mem_of sd L)); [by intros [= <- <-]|].
  destruct (iavl_Get (tree L) k) as [|[bz|]]; try (by intros [= <- <-]). destruct (Decode bz) as [y| |]; try (by intros [= <- <-]).
  case_bool_decide; [|by intros [= <- <-]]. cbn. intros [= <- <-]. rewrite heap_upd. cbn. split; [rewrite lookup_insert_ne by lia; done|].
  intros sd' k'. destruct (decide (sd' = sd)) as [->|Hne].
  - rewrite mem_upd_eq. cbn. rewrite mem_set_heap, lookup_insert. case_decide; [intros [= <-]; lia|done].
  - by rewrite mem_upd_ne, mem_set_heap.
Qed.

(** After a deletion no cache has a new pointer to an old object. *)
Lemma del_on_got L sd k r L' p x :
  heap_wf (lheap L) -> objects L !! p = Some x -> del_on sd k L = (r, L') ->
  objects L' !! p = Some x /\ (forall sd' k', got sd' L' !! k' = Some p -> got sd' L !! k' = Some p) /\ (forall q, r = Ret q -> got sd L' !! k = None).
Proof.
  intros Hw Hx. unfold del_on, bindM at 1. destruct (get_on sd k L) as [g L1] eqn:E. destruct (get_on_got L sd k g L1 p x Hw Hx E) as [Hx1 Hg1].
  destruct g as [q| |]; [|by intros [= <- <-]..]. unfold bindM, modifyM, retM. intros [= <- <-]. rewrite !heap_upd. split_and!; [done| |].
  - intros sd' k' Hg. apply Hg1. destruct (decide (sd' = sd)) as [->|Hne]; [|by rewrite !mem_upd_ne in Hg].
    rewrite !mem_upd_eq in Hg. cbn in Hg. rewrite lookup_delete in Hg. by case_decide.
  - intros _ _. rewrite !mem_upd_eq. cbn. apply lookup_delete_eq.
Qed.

(** An object that no cache points to may hold anything. *)
Lemma store_free L p y :
  ledger_inv ok L -> is_Some (objects L !! p) -> (forall sd k, got sd L !! k <> Some p) ->
  let L' := set_heap (heap_store p y (lheap L)) L in
  ledger_inv ok L' /\ forall sd k, visible L' sd k = visible L sd k.
Proof.
  intros Hi [x Hx] Hfree L'.
  assert (Ho : forall sd k q, got sd L !! k = Some q -> objects L' !! q = objects L !! q) by (intros sd k q Hq; apply lookup_insert_ne; intros ->; by apply (Hfree sd k)).
  assert (Hm : forall sd, mem_of sd L' = mem_of sd L) by (intros sd; apply mem_set_heap). assert (Ht : tree L' = tree L) by done.
  split; [constructor|].
  - eapply heap_store_wf; [exact Hx|apply (li_heap ok L Hi)].
  - intros sd k q. rewrite Hm. intros Hq. rewrite (Ho sd k q Hq). by apply (li_got ok L Hi sd).
  - intros sd k q. rewrite Hm. apply (li_upd ok L Hi).
  - intros sd k q. rewrite Hm, Ht. intros Hq. rewrite (Ho sd k q Hq). by apply (li_clean ok L Hi sd).
  - intros k k' q1 q2. rewrite !Hm. apply (li_sides ok L Hi).
  - apply (li_tree ok L Hi).
  - intros sd k. unfold visible, pendOf. rewrite Hm, Ht. destruct (upd sd L !! k) as [q|] eqn:E; [|done].
    by rewrite (Ho sd k q (li_upd ok L Hi sd k q E)).
Qed.

(** [DelFinality] of an object that was changed in place, to whatever. *)
Lemma drop_changed L p x y :
  ledger_inv ok L -> cached L Deliver p x -> Key x ∉ rem Deliver L ->
  exists q L', DelFinality (Key x) (set_heap (heap_store p y (lheap L)) L) = (Ret q, L') /\ ledger_inv ok L' /\ tree L' = tree L /\
    visible L' Deliver (Key x) = None /\ forall sd k, k <> Key x -> visible L' sd k = visible L sd k.
Proof.
  intros Hi [Hx Hg] Hr. destruct (cached_handle L Deliver p x Hi (conj Hx Hg)) as (_ & Hok & Hu). pose proof (li_heap ok L Hi) as Hw.
  destruct (del_for_spec L true (Key x) Hi) as (q & L' & Hrun & Hi' & Ht & Hn & Hv).
  { cbn [side_of]. unfold visible. rewrite decide_False by done. unfold pendOf. destruct (upd Deliver L !! Key x) as [p'|] eqn:E.
    - apply (li_upd ok L Hi) in E. assert (p' = p) as -> by congruence. eauto.
    - destruct (li_clean ok L Hi _ _ _ Hg E) as [_ <-]. rewrite decide_False by done. eauto. }
  cbn [del_for side_of] in *. unfold DelFinality, ignoreM, bindM in Hrun |- *. rewrite (del_on_store L Check) by eauto.
  destruct (del_on Check (Key x) L) as [r L1] eqn:E1. destruct (del_on_got L Check (Key x) r L1 p x Hw Hx E1) as (Hx1 & Hg1 & _).
  destruct (del_side L Check (Key x) Hi) as (r' & L1' & E1' & Hnp & _ & Hi1 & _). rewrite E1 in E1'. injection E1' as <- <-.
  destruct r; [..|done]; rewrite (del_on_store L1 Deliver), Hrun by (apply (li_heap ok L1 Hi1) || eauto);
    destruct (del_on_got L1 Deliver (Key x) _ L' p x (li_heap ok L1 Hi1) Hx1 Hrun) as (Hx2 & Hg2 & Hd);
    (destruct (store_free L' p y Hi') as [HiF HvF]; [eauto|intros sd k Hk; pose proof Hk as [-> ->]%Hg2%Hg1%Hu; by rewrite (Hd q eq_refl) in Hk|]);
    eexists _, _; (split_and!; [reflexivity|exact HiF|exact Ht|by rewrite HvF|intros sd k Hk; rewrite HvF; apply Hv; by left]).
Qed.

(** ** Iteration *)

(** A property that the callback keeps for every committed item. *)
Lemma iterate_invariant {S} (l : lens S (FinalityLedger T Tr)) (cb : T -> GoM S unit) (P : S -> Prop) s :
  (forall k bz x s', tree_map (tree (lget l s)) !! k = Some bz -> Decode bz = Ret x -> P s' -> P (cb x s').2) ->
  P s -> P (IterateReadAllItems l cb s).2.
Proof.
  intros Hcb Hs. unfold IterateReadAllItems, bindM at 1, getsM at 1.
  destruct (iavl_Iterate (tree (lget l s))) as [msg|entries] eqn:E; [done|].
  destruct (iavl_Iterate_spec _ _ E) as [Hperm _]. apply forM_invariant; [|done].
  intros [k bz] s' Hin Hs'. rewrite Hperm in Hin. apply elem_of_map_to_list in Hin. cbn [snd fst].
  destruct (Decode bz) as [x|e|] eqn:Ed; [|done|done]. case_bool_decide; [|done]. by eapply Hcb.
Qed.

(** The committed items, in the order of their keys. *)
Lemma iterate_run L :
  ledger_inv ok L -> (forall x : T, ToLedgerKey (Key x) = Key x) ->
  exists items, (forall S (l : lens S (FinalityLedger T Tr)) cb s, tree (lget l s) = tree L -> IterateReadAllItems l cb s = forM_ items cb s) /\
    NoDup (map Key items) /\ (forall x, x ∈ items <-> tree_item (tree L) (Key x) = Some x) /\ (forall x, x ∈ items -> ok x).
Proof.
  intros Hi Hkey. destruct (iavl_Iterate_total (tree L)) as [entries E]. destruct (iavl_Iterate_spec _ _ E) as [Hperm _].
  assert (Hdec : forall kv, kv ∈ entries -> exists x, Decode kv.2 = Ret x /\ Key x = kv.1 /\ ok x).
  { intros [k bz] Hin. rewrite Hperm in Hin. apply elem_of_map_to_list in Hin. by apply (li_tree ok L Hi). }
  assert (Hnd : NoDup (map fst entries)) by (rewrite Hperm; apply NoDup_fst_map_to_list).
  assert (Hmem : forall k bz, (k, bz) ∈ entries <-> tree_map (tree L) !! k = Some bz).
  { intros k bz. by rewrite Hperm, elem_of_map_to_list. }
  assert (Hitems : exists items, map Key items = map fst entries /\ Forall2 (fun kv x => Decode kv.2 = Ret x /\ Key x = kv.1 /\ ok x) entries items).
  { clear Hperm Hnd Hmem E. induction entries as [|kv es IH]; [by exists []|].
    destruct (Hdec kv) as (x & Hd & Hk & Hok); [set_solver|]. destruct IH as (xs & Hm & Hf); [intros; apply Hdec; set_solver|].
    exists (x :: xs). split; [by cbn; rewrite Hk, Hm|]. by constructor. }
  destruct Hitems as (items & Hm & Hf). exists items. split_and!.
  - intros S l cb s Ht. unfold IterateReadAllItems, bindM at 1, getsM at 1. rewrite Ht, E. clear - Hf Hkey. revert s.
    induction Hf as [|[k bz] x es xs (Hd & Hk & _) _ IH]; intros s; [done|]. cbn [forM_ snd fst]. cbn in Hd, Hk. rewrite Hd.
    rewrite bool_decide_eq_true_2 by (rewrite <- Hk; by rewrite Hkey). unfold bindM. destruct (cb x s) as [[u|e|] s']; [apply IH|done|done].
  - by rewrite Hm.
  - intros x. split.
    + intros Hx. apply list_elem_of_lookup in Hx as [i Hx]. destruct (Forall2_lookup_r _ _ _ _ _ Hf Hx) as ([k bz] & He & Hd & Hk & _).
      cbn in Hd, Hk. apply list_elem_of_lookup_2 in He. apply Hmem in He. unfold tree_item. rewrite Hk, He, Hd. by rewrite decide_True.
    + unfold tree_item. destruct (tree_map (tree L) !! Key x) as [bz|] eqn:Eb; [|done]. destruct (Decode bz) as [y|e|] eqn:Ed; [|done|done].
      case_decide as Hk; [|done]. intros [= ->]. apply Hmem, list_elem_of_lookup in Eb as [i He].
      destruct (Forall2_lookup_l _ _ _ _ _ Hf He) as (y & Hy & Hd & _). cbn in Hd. assert (y = x) as -> by congruence. by apply list_elem_of_lookup_2 in Hy.
  - intros x Hx. apply list_elem_of_lookup in Hx as [i Hx]. by destruct (Forall2_lookup_r _ _ _ _ _ Hf Hx) as (kv & _ & _ & _ & Hok).
Qed.

(** ** Installing new objects

    The item of a key after [xs] have been stored one after the other. *)
Definition installed (xs : list T) (k : list Byte.byte) (old : option T) : option T :=
  fold_left (fun o x => if decide (Key x = k) then Some x else o) xs old.

Lemma installed_other xs k old : k ∉ map Key xs -> installed xs k old = old.
Proof.
  unfold installed. revert old. induction xs as [|x xs IH]; intros old Hk; [done|]. cbn in *. rewrite decide_False by set_solver. apply IH. set_solver.
Qed.

Lemma installed_in xs x old : NoDup (map Key xs) -> x ∈ xs -> installed xs (Key x) old = Some x.
Proof.
  unfold installed. revert old. induction xs as [|y xs IH]; intros old Hn Hx; [by apply not_elem_of_nil in Hx|]. cbn in *. apply list.NoDup_cons in Hn as [Hy Hn].
  apply elem_of_cons in Hx as [->|Hx]; [|by apply IH]. rewrite decide_True by done. by apply (installed_other xs).
Qed.

Definition install (x : T) : GoM (FinalityLedger T Tr) unit := let! p := alloc x in set_on Deliver p.

Lemma install_run L x : ledger_inv ok L -> (forall sd, rem sd L = []) -> ok x ->
  exists L', install x L = (Ret tt, L') /\ ledger_inv ok L' /\ (forall sd, rem sd L' = []) /\
    forall sd k, visible L' sd k = if decide (sd = Deliver /\ k = Key x) then Some x else visible L sd k.
Proof.
  intros Hi Hn Hx. destruct (alloc_spec L Deliver x Hi Hx) as (q & L1 & Hrun & Hi1 & Hp & Hh & _). pose proof (preserved_view L L1 Hi Hp) as Hsv.
  destruct (put_visible L1 Deliver q x x) as (Hi2 & _ & Hr2 & Hv2); [done..|destruct Hsv as (_ & Hr & _); rewrite Hr, Hn; apply not_elem_of_nil|].
  exists (put_state Deliver q x L1). split_and!; [|done| |].
  - unfold install. rewrite (bindM_step _ _ _ _ _ Hrun). apply set_same, Hh.
  - intros sd. destruct Hsv as (_ & Hr & _). by rewrite Hr2, Hr, Hn.
  - intros sd k. rewrite Hv2. case_decide; [done|]. by apply same_view_visible.
Qed.

Lemma install_all L xs : ledger_inv ok L -> (forall sd, rem sd L = []) -> Forall ok xs ->
  exists L', forM_ xs install L = (Ret tt, L') /\ ledger_inv ok L' /\ (forall sd, rem sd L' = []) /\
    forall sd k, visible L' sd k = if decide (sd = Deliver) then installed xs k (visible L sd k) else visible L sd k.
Proof.
  intros Hi Hn Hxs. revert L Hi Hn. induction Hxs as [|x xs Hx _ IH]; intros L Hi Hn.
  - exists L. split_and!; [done..|]. intros sd k. by case_decide.
  - destruct (install_run L x Hi Hn Hx) as (L1 & Hrun & Hi1 & Hn1 & Hv1). destruct (IH L1 Hi1 Hn1) as (L' & Hrun' & Hi' & Hn' & Hv').
    exists L'. split_and!; [|done|done|].
    + cbn [forM_]. by rewrite (bindM_step _ _ _ _ _ Hrun).
    + intros sd k. rewrite Hv'. destruct (decide (sd = Deliver)) as [->|Hsd]; [|rewrite Hv1, decide_False by tauto; done].
      cbn [installed fold_left]. rewrite Hv1. destruct (decide (Key x = k)) as [<-|Hk]; [by rewrite decide_True|]. rewrite decide_False by (intros [_ ?]; congruence). done.
Qed.
End Client.
