(* ===== verification/Concrete.v ===== *)
(** * A concrete tree and codec

    An IAVL tree kept as a finite map with its saved versions, and an encoding
    of every countable type as bytes: they satisfy the laws that the theorems
    assume of the tree and of the items, and the theorems are applied to them. *)

From Stdlib Require Import Strings.Byte.
From S2P Require Import Prelude Xerrors GoSem Bytes Ledger LedgerSpec.

Record mapTree : Type := MapTree {
  mt_map : gmap bytes (list Byte.byte);
  mt_saved : gmap Z (gmap bytes (list Byte.byte));
  mt_version : Z;
}.

Definition entry_less (a b : list Byte.byte * list Byte.byte) : bool := bytes_ltb a.1 b.1.

#[export] Instance mapTree_iavl : Iavl mapTree := {|
  iavl_Get t k := inr (mt_map t !! k);
  iavl_Set t k v := inr (MapTree (<[k := v]> (mt_map t)) (mt_saved t) (mt_version t));
  iavl_Remove t k := inr (MapTree (delete k (mt_map t)) (mt_saved t) (mt_version t));
  iavl_Iterate t := inr (sort_Sort entry_less (map_to_list (mt_map t)));
  iavl_SaveVersion t :=
    let v := mt_version t + 1 in
    inr (concat (map (fun kv => kv.1 ++ kv.2) (sort_Sort entry_less (map_to_list (mt_map t)))), v,
         MapTree (mt_map t) (<[v := mt_map t]> (mt_saved t)) v);
  iavl_Version := mt_version;
  iavl_LazyLoadVersion t n :=
    if n =? 0 then inr t
    else match mt_saved t !! n with
         | Some m => inr (MapTree m (mt_saved t) n)
         | None => inl "version does not exist"%string
         end;
|}.

#[export] Instance mapTree_view : IavlView mapTree := {| tree_map := mt_map; tree_saved := mt_saved |}.

Lemma entries_sorted (m : gmap bytes (list Byte.byte)) :
  StronglySorted (fun a b => bytes_ltb a.1 b.1 = true) (sort_Sort entry_less (map_to_list m)).
Proof.
  assert (Hs : StronglySorted (not_less entry_less) (sort_Sort entry_less (map_to_list m))).
  { apply sort_sorted.
    - intros x y. apply bytes_ltb_asym.
    - intros x y z H1 H2. unfold not_less, entry_less in *. by eapply bytes_ltb_negtrans. }
  assert (Hnd : NoDup (sort_Sort entry_less (map_to_list m)).*1).
  { rewrite sort_perm. apply NoDup_fst_map_to_list. }
  induction Hs as [|[k v] l Hs IH Hall]; [constructor|].
  cbn in Hnd. apply list.NoDup_cons in Hnd as [Hk Hnd].
  constructor; [by apply IH|]. rewrite list.Forall_forall in Hall |- *. intros [k' v'] Hin.
  specialize (Hall _ Hin). unfold not_less, entry_less in Hall. cbn in *.
  destruct (bytes_ltb k k') eqn:E; [done|]. exfalso. apply Hk. rewrite (bytes_ltb_total k k') by done.
  apply list_elem_of_fmap. by exists (k', v').
Qed.

#[export] Instance mapTree_laws : IavlLaws mapTree.
Proof.
  constructor; cbn.
  - by intros t k r [= <-].
  - by intros t k v t' [= <-].
  - by intros t k t' [= <-].
  - intros t l [= <-]. split; [apply sort_perm|apply entries_sorted].
  - by intros t h v t' [= <- <- <-].
  - intros t n m Hn Hm. rewrite (proj2 (Z.eqb_neq n 0)) by lia. rewrite Hm. eauto.
Qed.

#[export] Instance mapTree_total : IavlTotal mapTree.
Proof. constructor; cbn; eauto. Qed.

Definition emptyTree : mapTree := MapTree ∅ ∅ 0.

(** ** Countable types as bytes *)
Fixpoint pos_bytes (p : positive) : bytes :=
  match p with xH => [] | xO q => Byte.x00 :: pos_bytes q | xI q => Byte.x01 :: pos_bytes q end.
Fixpoint bytes_pos (l : bytes) : positive :=
  match l with
  | [] => xH
  | b :: l' => if bool_decide (b = Byte.x00) then xO (bytes_pos l') else xI (bytes_pos l')
  end.

Lemma bytes_pos_bytes p : bytes_pos (pos_bytes p) = p.
Proof. induction p as [p IH|p IH|]; cbn; rewrite ?IH; done. Qed.

Definition count_encode {A} `{Countable A} (x : A) : bytes := pos_bytes (encode x).
Definition count_decode {A} `{Countable A} (l : bytes) : option A := decode (bytes_pos l).

Lemma count_decode_encode {A} `{Countable A} (x : A) : count_decode (count_encode x) = Some x.
Proof. unfold count_decode, count_encode. by rewrite bytes_pos_bytes, countable.decode_encode. Qed.

(** A small item: a key and a number. *)
Definition noteItem : Type := bytes * Z.

#[export] Instance note_item : ILedgerItem noteItem := {|
  Key x := x.1;
  Encode x := Ret (count_encode x);
  Decode bz := match count_decode bz with Some x => Ret x | None => Err (NewOrdinary "decode") end;
|}.

#[export] Instance note_laws : LedgerItemLaws (fun _ : noteItem => True).
Proof.
  constructor; cbn; [eauto|]. intros x bz _ [= <-]. by rewrite count_decode_encode.
Qed.
