(* ===== verification/LedgerProps.v ===== *)
(** * Theorems about the ledgers

    The refinement of [LedgerSpec.v] from a freshly opened ledger, determinism
    of [Commit], isolation of [CheckTx] from [DeliverTx], durability of the
    committed versions, and the behaviour of [SetFinality] after
    [DelFinality]; with a concrete tree and item type that satisfy the laws. *)

From Stdlib Require Import Strings.Byte.
From S2P Require Import Prelude Xerrors GoSem Bytes Ledger LedgerSpec Concrete.
Import MemItems.

Section LedgerTheorems.
Context {T Tr : Type} {Item : ILedgerItem T} {Tree : Iavl Tr} {View : IavlView Tr}.
Context (ok : T -> Prop).
Context {Laws : IavlLaws Tr} {Total : IavlTotal Tr} {ItemLaws : LedgerItemLaws ok}.

Implicit Types (L : FinalityLedger T Tr).

(** Every stored item decodes to an item of its key. *)
Definition tree_valid (t : Tr) : Prop :=
  forall k bz, tree_map t !! k = Some bz -> exists x, Decode bz = Ret x /\ Key x = k /\ ok x.

Definition abs_open (M : gmap bytes T) : absLedger T := AbsLedger M (fun _ => M) (fun _ => ∅).

Lemma fresh_inv t : tree_valid t -> ledger_inv ok (NewFinalityLedger t).
Proof.
  intros Ht. constructor; cbn; [apply heap_wf_empty|..|exact Ht].
  all: intros *; try destruct sd; cbn; by rewrite lookup_empty.
Qed.

Lemma fresh_pend t sd k : pendOf (NewFinalityLedger (T := T) t) sd k = tree_item t k.
Proof. unfold pendOf. destruct sd; cbn; by rewrite lookup_empty. Qed.

Lemma fresh_sim t M :
  tree_valid t -> (forall k, M !! k = tree_item t k) -> sim ok (NewFinalityLedger t) (abs_open M).
Proof.
  intros Ht HM. constructor; cbn; [by apply fresh_inv|done| |].
  - intros sd k. by rewrite fresh_pend.
  - intros sd k. destruct sd; cbn; split; set_solver.
Qed.

(** ** Frames of the cache operations *)

(** Nothing but [cachedItems] and the heap changes. *)
Definition check_frame (L L' : FinalityLedger T Tr) : Prop :=
  tree L' = tree L /\ finalityItems L' = finalityItems L.
Definition tree_frame (L L' : FinalityLedger T Tr) : Prop := tree L' = tree L.

#[local] Instance check_frame_refl : Reflexive check_frame.
Proof. by intros L. Qed.
#[local] Instance check_frame_trans : Transitive check_frame.
Proof. intros L1 L2 L3 [? ?] [? ?]. split; congruence. Qed.
#[local] Instance tree_frame_refl : Reflexive tree_frame.
Proof. by intros L. Qed.
#[local] Instance tree_frame_trans : Transitive tree_frame.
Proof. intros L1 L2 L3 ? ?. unfold tree_frame in *. congruence. Qed.

Lemma read_same k L : (read (T := T) k L).2 = L.
Proof.
  unfold read. destruct (iavl_Get (tree L) k) as [|[bz|]]; [done| |done].
  destruct (Decode bz); [|done|done]. by case_bool_decide.
Qed.

Lemma load_same p L : (load p L).2 = L.
Proof. unfold load. by destruct (objs (lheap L) !! p). Qed.

Definition is_check_op (o : lop T) : bool :=
  match o with
  | OGet sd _ | OPut sd _ | OUpdate sd _ _ | OCancelSet sd _ => bool_decide (sd = Check)
  | ODel exec _ => negb exec
  | OCommit => false
  end.

Lemma check_op_frame o : is_check_op o = true -> keeps check_frame (run_op o).
Proof.
  assert (Hread : forall k, keeps check_frame (read k)) by (intros k L; by rewrite read_same).
  assert (Hload : forall p, keeps check_frame (load p)) by (intros p L; by rewrite load_same).
  assert (Hmod : forall f, keeps check_frame (modifyM (upd_mem Check f))) by (by intros f L).
  assert (Halloc : forall x, keeps check_frame (alloc x)) by (by intros x L).
  assert (Hst : forall p x, keeps check_frame (store p x)) by (by intros p x L).
  destruct o as [sd k|sd x|sd k f|sd k|[]|]; cbn [is_check_op run_op]; try done;
    try (intros ->%bool_decide_eq_true_1); try intros _;
    unfold del_for, Del, del_on, set_on, get_on, cancel_set_on, opt_item; keeps_tac; auto.
Qed.

Lemma op_tree_frame o : o <> OCommit -> keeps tree_frame (run_op o).
Proof.
  assert (Hread : forall k, keeps tree_frame (read k)) by (intros k L; by rewrite read_same).
  assert (Hload : forall p, keeps tree_frame (load p)) by (intros p L; by rewrite load_same).
  assert (Hmod : forall sd f, keeps tree_frame (modifyM (upd_mem sd f))) by (by intros [] f L).
  assert (Halloc : forall x, keeps tree_frame (alloc x)) by (by intros x L).
  assert (Hst : forall p x, keeps tree_frame (store p x)) by (by intros p x L).
  destruct o as [sd k|sd x|sd k f|sd k|[]|]; cbn [run_op]; intros Hne; try done;
    unfold del_for, Del, DelFinality, del_on, set_on, get_on, cancel_set_on, opt_item; keeps_tac; auto.
Qed.

Lemma check_ops_frame os : Forall (fun o => is_check_op o = true) os -> keeps check_frame (run_ops os).
Proof.
  induction 1 as [|o os Ho _ IH]; cbn [run_ops]; keeps_tac; [by apply check_op_frame|done].
Qed.

Lemma check_op_abs o A :
  is_check_op o = true -> a_pend (abs_step o A) Deliver = a_pend A Deliver /\ a_hid (abs_step o A) Deliver = a_hid A Deliver.
Proof.
  destruct o as [sd k|sd x|sd k f|sd k|[]|]; cbn [is_check_op abs_step]; try done.
  - intros ->%bool_decide_eq_true_1. done.
  - intros ->%bool_decide_eq_true_1. by destruct (abs_get A Check k).
  - intros ->%bool_decide_eq_true_1. done.
  - intros _. unfold abs_del. by destruct (abs_get A Check k).
Qed.

Lemma check_ops_abs os A :
  Forall (fun o => is_check_op o = true) os ->
  a_pend (abs_run os A).2 Deliver = a_pend A Deliver /\ a_hid (abs_run os A).2 Deliver = a_hid A Deliver.
Proof.
  intros H. revert A. induction H as [|o os Ho _ IH]; intros A; cbn [abs_run]; [done|].
  destruct (IH (abs_step o A)) as [H1 H2]. destruct (check_op_abs o A Ho) as [H3 H4].
  destruct (abs_run os (abs_step o A)) as [rs A']. cbn in *. split; congruence.
Qed.

(** ** What [Commit] depends on *)

(** Two ledgers with the same tree, the same [finalityItems] and the same
    objects behind its updated items. *)
Definition same_input (m : memItems) (L1 L2 : FinalityLedger T Tr) : Prop :=
  tree L1 = tree L2 /\
  (forall k p, updatedItems m !! k = Some p -> objs (lheap L1) !! p = objs (lheap L2) !! p).

(** Equal outcomes, and states that are again related. *)
Definition agree {A} (m : memItems) (c : GoM (FinalityLedger T Tr) A) : Prop :=
  forall L1 L2, same_input m L1 L2 -> (c L1).1 = (c L2).1 /\ same_input m (c L1).2 (c L2).2.

Lemma agree_bind {A B} m (c : GoM _ A) (k : A -> GoM _ B) :
  agree m c -> (forall a, agree m (k a)) -> agree m (bindM c k).
Proof.
  intros Hc Hk L1 L2 Hs. destruct (Hc L1 L2 Hs) as [H1 H2]. unfold bindM.
  destruct (c L1) as [[a|e|] L1'], (c L2) as [[a'|e'|] L2']; simpl in *; try done; simplify_eq; [|done].
  by apply Hk.
Qed.

Lemma agree_forM {X} m (l : list X) f : (forall x, agree m (f x)) -> agree m (forM_ l f).
Proof. intros Hf. induction l; cbn [forM_]; [by intros ?|]. by apply agree_bind. Qed.

(** A step that only replaces the tree, by a function of the tree. *)
Lemma agree_tree {A} m (c : Tr -> outcome A * Tr) :
  agree m (fun L => let '(r, t) := c (tree L) in (r, set_tree t L)).
Proof. intros L1 L2 [Ht Ho]. rewrite Ht. destruct (c (tree L2)) as [r t]. done. Qed.

Lemma agree_ext {A} m (c c' : GoM _ A) : (forall L, c L = c' L) -> agree m c' -> agree m c.
Proof. intros He Ha L1 L2 Hs. rewrite !He. by apply Ha. Qed.

Lemma set_tree_id L : set_tree (tree L) L = L.
Proof. by destruct L. Qed.

Lemma agree_write m k : agree m (write_item m k).
Proof.
  unfold write_item. destruct (updatedItems m !! k) as [p|] eqn:Hp; [|by intros ?].
  apply agree_bind.
  - intros L1 L2 Hs. destruct (Hs) as [Ht Ho]. unfold load. rewrite (Ho k p Hp).
    by destruct (objs (lheap L2) !! p).
  - intros v. apply agree_bind; [by intros ?|]. intros bz.
    apply agree_ext with (c' := fun L => let '(r, t) := (match iavl_Set (tree L) (Key v) bz with
      | inl msg => (Err (NewOrdinary msg), tree L) | inr t => (Ret tt, t) end) in (r, set_tree t L)).
    + intros L. unfold tree_Set. destruct (iavl_Set (tree L) (Key v) bz); [by rewrite set_tree_id|done].
    + exact (agree_tree m (fun t0 => match iavl_Set t0 (Key v) bz with
        | inl msg => (Err (NewOrdinary msg), t0) | inr t => (Ret tt, t) end)).
Qed.

Lemma agree_remove m k : agree m (tree_Remove k).
Proof.
  intros L1 L2 [Ht Ho]. unfold tree_Remove. rewrite Ht. by destruct (iavl_Remove (tree L2) k).
Qed.

Lemma agree_save m : agree m tree_SaveVersion.
Proof.
  intros L1 L2 [Ht Ho]. unfold tree_SaveVersion. rewrite Ht.
  by destruct (iavl_SaveVersion (tree L2)) as [|[[h v] t]].
Qed.

Lemma commit_agree L1 L2 :
  finalityItems L1 = finalityItems L2 -> same_input (finalityItems L1) L1 L2 ->
  (Commit L1).1 = (Commit L2).1 /\ tree (Commit L1).2 = tree (Commit L2).2.
Proof.
  intros Hf Hs. set (m := finalityItems L1).
  set (c := do! forM_ (removedKeys m) tree_Remove in
            do! forM_ (sort_Sort LedgerKeyLess (updated_keys m)) (write_item m) in
            let! hv := tree_SaveVersion in
            do! modifyM (upd_mem Check reset) in
            do! modifyM (upd_mem Deliver refresh) in
            retM hv).
  assert (Hc : agree m c).
  { repeat (apply agree_bind; [|intros ?]);
      eauto using agree_forM, agree_remove, agree_write, agree_save; by intros ?. }
  assert (H1 : Commit L1 = c L1) by done.
  assert (H2 : Commit L2 = c L2) by (unfold c, m; rewrite Hf; done).
  rewrite H1, H2. destruct (Hc L1 L2 Hs) as [? [? _]]. done.
Qed.

Lemma check_ops_input L os L1 rs :
  ledger_inv ok L -> Forall (fun o => is_check_op o = true) os -> run_ops os L = (Ret rs, L1) ->
  (forall k, pendOf L1 Deliver k = pendOf L Deliver k) ->
  finalityItems L1 = finalityItems L /\ same_input (finalityItems L1) L1 L.
Proof.
  intros Hinv Hos Hrun Hp. pose proof (check_ops_frame os Hos L) as [Ht Hf].
  rewrite Hrun in Ht, Hf. cbn in Ht, Hf. split; [done|]. split; [done|].
  intros k p Hu. specialize (Hp k). unfold pendOf in Hp. cbn [mem_of] in Hp.
  rewrite Hf in Hp. rewrite Hf in Hu. by rewrite Hu in Hp.
Qed.

(** Every ledger reachable by operations simulates some abstract ledger. *)
Lemma inv_sim_pend L A os :
  sim ok L A -> Forall (op_ok ok) os -> Forall (fun o => is_check_op o = true) os ->
  exists L1, run_ops os L = (Ret (abs_run os A).1, L1) /\ sim ok L1 (abs_run os A).2 /\
    (forall k, pendOf L1 Deliver k = pendOf L Deliver k) /\
    (forall k, visible L1 Deliver k = visible L Deliver k).
Proof.
  intros Hs Hok Hch. destruct (run_ops_sim ok os L A Hs Hok) as (L1 & Hrun & Hs1).
  destruct (check_ops_abs os A Hch) as [Hp Hh]. exists L1. split_and!; [done|done| |].
  - intros k. by rewrite <- (sim_pend _ _ _ Hs1), <- (sim_pend _ _ _ Hs), Hp.
  - intros k. rewrite <- (abs_get_visible ok _ _ _ _ Hs1), <- (abs_get_visible ok _ _ _ _ Hs).
    unfold abs_get. by rewrite Hp, Hh.
Qed.

Lemma saved_grows v M o L A :
  sim ok L A -> op_ok ok o -> 0 < v <= iavl_Version (tree L) -> tree_saved (tree L) !! v = Some M ->
  exists r L', run_op o L = (Ret r, L') /\ sim ok L' (abs_step o A) /\
    v <= iavl_Version (tree L') /\ tree_saved (tree L') !! v = Some M.
Proof.
  intros Hs Ho Hv Hsv. destruct (step_simulation ok o L A Hs Ho) as (L' & Hrun & Hs').
  exists (abs_res o A), L'. split_and!; [done|done| |].
  all: destruct o as [sd k|sd x|sd k f|sd k|b k|];
    try (match type of Hrun with run_op ?o _ = _ =>
           pose proof (op_tree_frame o ltac:(done) L) as Hf; rewrite Hrun in Hf; cbn in Hf; unfold tree_frame in Hf;
           cbn in Hf; rewrite Hf; first [lia|done] end).
  all: destruct (commit_spec ok L (sim_inv ok L A Hs)) as (h & v' & L2 & Hc & _ & Hv' & Hver & Hsave & _);
    cbn [run_op] in Hrun; rewrite (bindM_step _ _ _ _ _ Hc) in Hrun; injection Hrun as <-.
  - lia.
  - rewrite Hsave, lookup_insert_ne by lia. done.
Qed.

Lemma saved_grows_ops v M os L A :
  sim ok L A -> Forall (op_ok ok) os -> 0 < v <= iavl_Version (tree L) -> tree_saved (tree L) !! v = Some M ->
  exists rs L', run_ops os L = (Ret rs, L') /\ tree_saved (tree L') !! v = Some M.
Proof.
  intros Hs Hos. revert L A Hs. induction Hos as [|o os Ho _ IH]; intros L A Hs Hv Hsv; cbn [run_ops]; [by eauto|].
  destruct (saved_grows v M o L A Hs Ho Hv Hsv) as (r & L1 & Hrun & Hs1 & Hv1 & Hsv1).
  destruct (IH L1 _ Hs1) as (rs & L2 & Hrun2 & ?); [lia|done|].
  exists (r :: rs), L2. rewrite (bindM_step _ _ _ _ _ Hrun), (bindM_step _ _ _ _ _ Hrun2). done.
Qed.

(** ** Properties *)

(** C2: the ledger refines a simple map-with-two-sides specification.  From a
    freshly opened ledger over any tree of well-formed items, every sequence
    of [Get]/[Set]/in-place update/[CancelSet]/[Del] on either side and
    [Commit] returns exactly the results of the abstract ledger, never fails
    and never panics, and ends in a state that again represents the abstract
    one (so the caches of pointers are never stale, and what [Commit] writes
    is what [DeliverTx] has set). *)
Theorem ledger_refines (t : Tr) (M : gmap bytes T) (os : list (lop T)) :
  tree_valid t -> (forall k, M !! k = tree_item t k) -> Forall (op_ok ok) os ->
  exists L', run_ops os (NewFinalityLedger t) = (Ret (abs_run os (abs_open M)).1, L') /\
             sim ok L' (abs_run os (abs_open M)).2.
Proof. intros Ht HM Hos. by apply (run_ops_sim ok); [apply fresh_sim|]. Qed.

(** C25: [Commit] is deterministic although it ranges over a Go map: whatever
    the order in which the keys of [updatedItems] are visited, the outcome
    (root hash and version) and the resulting ledger are the same, so that
    all validators compute one app hash. *)
Theorem commit_order_independent (L : FinalityLedger T Tr) (keys : list bytes) :
  keys ≡ₚ updated_keys (finalityItems L) -> commit_keys keys L = Commit L.
Proof.
  intros Hp. unfold Commit, commit_keys, getsM, bindM at 1 7. by rewrite (ledger_sort_eq _ _ Hp).
Qed.

(** C26: [CheckTx] cannot influence consensus.  Any sequence of operations on
    the check side leaves every item seen by [DeliverTx] unchanged, and a
    [Commit] after it returns the same hash and version and leaves the same
    tree as a [Commit] without it. *)
Theorem check_isolated (L : FinalityLedger T Tr) (A : absLedger T) (os : list (lop T)) :
  sim ok L A -> Forall (op_ok ok) os -> Forall (fun o => is_check_op o = true) os ->
  exists rs L1, run_ops os L = (Ret rs, L1) /\
    (forall k, visible L1 Deliver k = visible L Deliver k) /\
    (Commit L1).1 = (Commit L).1 /\ tree (Commit L1).2 = tree (Commit L).2.
Proof.
  intros Hs Hok Hch. destruct (inv_sim_pend L A os Hs Hok Hch) as (L1 & Hrun & _ & Hp & Hv).
  destruct (check_ops_input L os L1 _ (sim_inv ok L A Hs) Hch Hrun Hp) as [Hf Hin].
  eexists _, L1. split_and!; [exact Hrun|exact Hv|..]; by apply commit_agree.
Qed.

(** C27: committed versions are durable.  After a [Commit] that returned
    version [v], and after any further operations and commits, the ledger
    opened at [v] reads back exactly the items that were pending on the
    deliver side when that [Commit] ran. *)
Theorem commit_durable (L L1 : FinalityLedger T Tr) (A : absLedger T) h v (os : list (lop T)) :
  sim ok L A -> 0 <= iavl_Version (tree L) -> Commit L = (Ret (h, v), L1) -> Forall (op_ok ok) os ->
  exists rs L2 Lv, run_ops os L1 = (Ret rs, L2) /\ ImmutableLedgerAt v L2 = (Ret Lv, L2) /\
    forall k, Read k Lv = (match a_pend A Deliver !! k with Some x => Ret x | None => Err ErrNotFoundResult end, Lv).
Proof.
  intros Hs Hv0 Hc Hos. destruct (step_commit ok L A Hs I) as (L1' & Hrun & Hs1).
  destruct (commit_spec ok L (sim_inv ok L A Hs)) as (h' & v' & L1'' & Hc' & Hi & Hv & Hver & Hsave & _ & Ht & _).
  cbn [run_op] in Hrun. rewrite (bindM_step _ _ _ _ _ Hc) in Hrun. rewrite Hc in Hc'.
  injection Hc' as <- <- <-. injection Hrun as <-.
  destruct (saved_grows_ops v (tree_map (tree L1)) os L1 _ Hs1 Hos) as (rs & L2 & Hrun2 & Hsv);
    [lia|rewrite Hsave; apply lookup_insert_eq|].
  destruct (iavl_Load_spec (tree L2) v _ ltac:(lia) Hsv) as (t & Hload & Hmap).
  exists rs, L2, (NewFinalityLedger t). split_and!; [done|by unfold ImmutableLedgerAt; rewrite Hload|].
  intros k. unfold Read. rewrite (read_spec ok).
  - replace (tree_item (tree (NewFinalityLedger t)) k) with (tree_item (tree L1) k).
    + by rewrite Ht, <- (sim_pend _ _ _ Hs).
    + unfold tree_item. cbn. by rewrite Hmap.
  - apply fresh_inv. intros k' bz. rewrite Hmap. apply (li_tree _ _ Hi).
Qed.

(** [SetFinality] does not lift a deletion made in the same block.  When
    an item is deleted with [DelFinality] and an item with the same key is
    then stored with [SetFinality], [GetFinality] still reports it as not
    found until the next [Commit], which does write it. *)
Theorem set_after_del_hidden (L : FinalityLedger T Tr) (A : absLedger T) (y : T) :
  sim ok L A -> ok y -> is_Some (abs_get A Deliver (Key y)) ->
  exists L', run_ops [ODel true (Key y); OPut Deliver y; OGet Deliver (Key y); OCommit; OGet Deliver (Key y)] L
    = (Ret [abs_get A Deliver (Key y); None; None; None; Some y], L').
Proof.
  intros Hs Hy [x Hx].
  destruct (run_ops_sim ok [ODel true (Key y); OPut Deliver y; OGet Deliver (Key y); OCommit; OGet Deliver (Key y)] L A)
    as (L' & Hrun & _); [done|by repeat constructor|].
  exists L'. rewrite Hrun. do 2 f_equal. set (A1 := abs_del Check (Key y) A).
  assert (Hg : abs_get A1 Deliver (Key y) = Some x) by (unfold A1; by rewrite abs_get_del_other).
  cbn [abs_run abs_step abs_res side_of]. fold A1. unfold abs_del. rewrite Hg. cbn.
  repeat f_equal.
  - unfold abs_get. cbn. rewrite decide_True; [done|]. set_solver.
  - unfold abs_get. cbn. rewrite decide_False by set_solver. unfold on_side at 1. rewrite decide_True by done.
    by rewrite lookup_insert_eq.
Qed.
End LedgerTheorems.

(** ** Witnesses *)
Definition note1 : noteItem := ([Byte.x01], 10).
Definition note1' : noteItem := ([Byte.x01], 11).
Definition noteTree : mapTree := MapTree {[ [Byte.x01] := count_encode note1 ]} ∅ 0.
Definition noteLedger : FinalityLedger noteItem mapTree := NewFinalityLedger noteTree.
Definition noteAbs : absLedger noteItem := abs_open {[ [Byte.x01] := note1 ]}.
Abbreviation note_ok := (fun _ : noteItem => True).

Lemma noteTree_valid : tree_valid note_ok noteTree.
Proof.
  intros k bz. cbn. rewrite lookup_singleton. case_decide as Hk; [|done]. intros [= <-].
  exists note1. by rewrite count_decode_encode.
Qed.

Lemma noteTree_item k : ({[ [Byte.x01] := note1 ]} : gmap bytes noteItem) !! k = tree_item noteTree k.
Proof.
  unfold tree_item. cbn. rewrite !lookup_singleton. case_decide as Hk; [|done].
  rewrite count_decode_encode. by rewrite decide_True.
Qed.

Lemma note_sim : sim note_ok noteLedger noteAbs.
Proof. exact (fresh_sim note_ok noteTree _ noteTree_valid noteTree_item). Qed.

Definition note_ops : list (lop noteItem) :=
  [OGet Deliver [Byte.x01]; OPut Check note1'; OUpdate Deliver [Byte.x01] (fun x => (x.1, x.2 + 5));
   OGet Check [Byte.x01]; OCommit; OGet Check [Byte.x01]].

Lemma note_ops_ok : Forall (op_ok note_ok) note_ops.
Proof. by repeat constructor. Qed.

Lemma ledger_refines_witness :
  exists L', run_ops note_ops noteLedger =
    (Ret [Some note1; None; Some ([Byte.x01], 15); Some note1'; None; Some ([Byte.x01], 15)], L').
Proof.
  destruct (ledger_refines note_ok noteTree {[ [Byte.x01] := note1 ]} note_ops noteTree_valid noteTree_item note_ops_ok)
    as (L' & H & _).
  exists L'. exact H.
Defined.

Lemma commit_order_independent_witness :
  let L := (run_ops [OPut Deliver note1'; OPut Deliver ([Byte.x02], 3)] noteLedger).2 in
  commit_keys [[Byte.x01]; [Byte.x02]] L = Commit L /\ commit_keys [[Byte.x02]; [Byte.x01]] L = Commit L.
Proof.
  intros L. split; apply (commit_order_independent L); vm_compute;
    [apply perm_swap|apply Permutation_refl].
Defined.

Definition note_check_ops : list (lop noteItem) :=
  [OPut Check note1'; OUpdate Check [Byte.x01] (fun x => (x.1, x.2 + 5)); ODel false [Byte.x01]].

Lemma check_isolated_witness :
  exists rs L1, run_ops note_check_ops noteLedger = (Ret rs, L1) /\
    (forall k, visible L1 Deliver k = visible noteLedger Deliver k) /\
    (Commit L1).1 = (Commit noteLedger).1 /\ tree (Commit L1).2 = tree (Commit noteLedger).2.
Proof.
  apply (check_isolated note_ok noteLedger noteAbs note_check_ops note_sim); by repeat constructor.
Defined.

Lemma commit_durable_witness :
  exists rs L2 Lv, run_ops [OPut Deliver note1'; OCommit] (Commit noteLedger).2 = (Ret rs, L2) /\
    ImmutableLedgerAt 1 L2 = (Ret Lv, L2) /\ Read [Byte.x01] Lv = (Ret note1, Lv).
Proof.
  destruct (commit_durable note_ok noteLedger (Commit noteLedger).2 noteAbs ([Byte.x01] ++ count_encode note1) 1
    [OPut Deliver note1'; OCommit] note_sim) as (rs & L2 & Lv & H1 & H2 & H3).
  - cbn. lia.
  - vm_compute. reflexivity.
  - by repeat constructor.
  - exists rs, L2, Lv. split; [exact H1|split; [exact H2|]]. rewrite H3. reflexivity.
Defined.

Lemma set_after_del_hidden_witness :
  exists L', run_ops [ODel true (Key note1'); OPut Deliver note1'; OGet Deliver (Key note1'); OCommit; OGet Deliver (Key note1')] noteLedger
    = (Ret [Some note1; None; None; None; Some note1'], L').
Proof.
  apply (set_after_del_hidden note_ok noteLedger noteAbs note1' note_sim I). eexists. reflexivity.
Defined.
