(* ===== verification/LedgerIter.v ===== *)
(** * The interfaces of the ledgers, and the iterators over their caches

    [ledger/types.go], [ledger/helpers.go] and the iterators of
    [ledger/mem_items.go], [simple_ledger.go] and [finality_ledger.go].  Go
    ranges over a map in any order: the order is an argument here, and the
    theorem holds for every one. *)

From Stdlib Require Import Strings.Byte.
From S2P Require Import Prelude Xerrors GoSem Bytes Ledger.

(** An order of a map lists its keys, each once. *)
Definition map_order (m : gmap bytes loc) (ks : list bytes) : Prop := NoDup ks /\ forall k, k ∈ ks <-> is_Some (m !! k).

(** [iterateItems]: the callback runs on the state [S], and an error ends the loop. *)
Definition iterateItems {S : Type} (order : gmap bytes loc -> list bytes) (m : gmap bytes loc) (cb : loc -> GoM S unit) : GoM S unit :=
  forM_ (order m) (fun k => match m !! k with Some p => cb p | None => retM tt end).

(** Every order visits every cached item exactly once. *)
Lemma iterate_visits_all order m : map_order m (order m) ->
  exists ps, iterateItems order m (fun p => modifyM (fun seen => seen ++ [p])) [] = (Ret tt, ps) /\ ps ≡ₚ (map_to_list m).*2.
Proof.
  intros [Hnd Hks]. unfold iterateItems. assert (Hgen : forall ks seen, (forall k, k ∈ ks -> is_Some (m !! k)) ->
    forM_ ks (fun k => match m !! k with Some p => modifyM (fun seen => seen ++ [p]) | None => retM tt end) seen = (Ret tt, seen ++ omap (fun k => m !! k) ks)).
  { induction ks as [|k ks IH]; intros seen Hall; [cbn; by rewrite app_nil_r|]. destruct (Hall k) as [p Hp]; [by apply elem_of_cons; left|].
    cbn [forM_]. unfold bindM. cbn [omap list_omap]. rewrite Hp. unfold modifyM. rewrite IH; [by rewrite <- app_assoc|]. intros k' Hk'. apply Hall. by apply elem_of_cons; right. }
  rewrite Hgen by (intros k Hk; by apply Hks). eexists. split; [done|]. cbn.
  assert (Hp : order m ≡ₚ (map_to_list m).*1).
  { apply NoDup_Permutation; [done|apply NoDup_fst_map_to_list|]. intros k. rewrite Hks, list_elem_of_fmap. split.
    - intros [p Hp]. exists (k, p). by rewrite elem_of_map_to_list.
    - intros ([k' p] & -> & Hin). apply elem_of_map_to_list in Hin. by eexists. }
  rewrite Hp. assert (Hsub : forall kv, kv ∈ map_to_list m -> m !! kv.1 = Some kv.2) by (intros [k p] Hin; by apply elem_of_map_to_list in Hin).
  revert Hsub. generalize (map_to_list m). induction l as [|[k p] l IH]; intros Hsub; [done|]. cbn. pose proof (Hsub (k, p) ltac:(by apply elem_of_cons; left)) as Hk. cbn in Hk. rewrite Hk.
  constructor. apply IH. intros kv Hin. apply Hsub. by apply elem_of_cons; right.
Qed.

Section MemIter.
Context {S : Type} (order : gmap bytes loc -> list bytes).
Definition iterateGotItems (m : memItems) (cb : loc -> GoM S unit) : GoM S unit := iterateItems order (gotItems m) cb.
Definition iterateUpdatedItems (m : memItems) (cb : loc -> GoM S unit) : GoM S unit := iterateItems order (updatedItems m) cb.
Definition iterateRemovedKeys (m : memItems) (cb : bytes -> GoM S unit) : GoM S unit := forM_ (removedKeys m) cb.
End MemIter.

Section Iterators.
Context {T Tr : Type} {Item : ILedgerItem T} {Tree : Iavl Tr}.
Abbreviation ledger := (FinalityLedger T Tr).
Context {S : Type} (order : gmap bytes loc -> list bytes) (l : lens S ledger).

(** [IterateGotItems], [IterateUpdatedItems] (the side of [CheckTx]) and their
    [Finality] twins. *)
Definition iterate_got (sd : side) (cb : loc -> GoM S unit) : GoM S unit :=
  let! m := getsM (fun s => gotItems (mem_of sd (lget l s))) in iterateItems order m cb.
Definition iterate_updated (sd : side) (cb : loc -> GoM S unit) : GoM S unit :=
  let! m := getsM (fun s => updatedItems (mem_of sd (lget l s))) in iterateItems order m cb.
Definition IterateGotItems := iterate_got Check.
Definition IterateUpdatedItems := iterate_updated Check.
Definition IterateFinalityGotItems := iterate_got Deliver.
Definition IterateFinalityUpdatedItems := iterate_updated Deliver.
Definition IterateReadAllFinalityItems (cb : T -> GoM S unit) : GoM S unit := IterateReadAllItems l cb.
End Iterators.

Section Interfaces.
Context {T Tr : Type} {Item : ILedgerItem T} {Tree : Iavl Tr}.
Abbreviation ledger := (FinalityLedger T Tr).

(** [SimpleLedger.Commit] is not to be called; a clone has the tree and an empty
    cache; the finality ledger gives a past state of its simple ledger. *)
Definition SimpleLedger_Commit : GoM ledger (list Byte.byte * Z) := panicM.
Definition SimpleLedger_Clone (L : ledger) : ledger := NewFinalityLedger (tree L).
Definition Finality_ImmutableLedgerAt (n cacheSize : Z) : GoM ledger ledger :=
  let! r := tryM (ImmutableLedgerAt n) in
  match r with inl xerr => errM xerr | inr simledger => retM simledger end.

(** [ILedger] and [IFinalityLedger] *)
Class ILedger (L : Type) := {
  il_Version : GoM L Z;
  il_Set : loc -> GoM L unit;
  il_CancelSet : bytes -> GoM L unit;
  il_Get : bytes -> GoM L loc;
  il_Del : bytes -> GoM L loc;
  il_CancelDel : bytes -> GoM L unit;
  il_Read : bytes -> GoM L T;
  il_IterateReadAllItems : forall S, lens S L -> (T -> GoM S unit) -> GoM S unit;
  il_IterateGotItems : forall S, (gmap bytes loc -> list bytes) -> lens S L -> (loc -> GoM S unit) -> GoM S unit;
  il_IterateUpdatedItems : forall S, (gmap bytes loc -> list bytes) -> lens S L -> (loc -> GoM S unit) -> GoM S unit;
  il_Commit : GoM L (list Byte.byte * Z);
  il_Clone : L -> L;
}.
Class IFinalityLedger (L : Type) := {
  ifl_ledger :: ILedger L;
  ifl_SetFinality : loc -> GoM L unit;
  ifl_CancelSetFinality : bytes -> GoM L unit;
  ifl_GetFinality : bytes -> GoM L loc;
  ifl_DelFinality : bytes -> GoM L loc;
  ifl_CancelDelFinality : bytes -> GoM L unit;
  ifl_IterateReadAllFinalityItems : forall S, lens S L -> (T -> GoM S unit) -> GoM S unit;
  ifl_IterateFinalityGotItems : forall S, (gmap bytes loc -> list bytes) -> lens S L -> (loc -> GoM S unit) -> GoM S unit;
  ifl_IterateFinalityUpdatedItems : forall S, (gmap bytes loc -> list bytes) -> lens S L -> (loc -> GoM S unit) -> GoM S unit;
  ifl_ImmutableLedgerAt : Z -> Z -> GoM L L;
}.

(** The ledger implements both; the [Commit] of the finality ledger hides the one
    of the simple ledger. *)
Definition simple_ledger : ILedger ledger := {|
  il_Version := Version; il_Set := Set_; il_CancelSet := CancelSet; il_Get := Get; il_Del := Del; il_CancelDel := CancelDel; il_Read := Read;
  il_IterateReadAllItems S l cb := IterateReadAllItems l cb;
  il_IterateGotItems S order l cb := IterateGotItems order l cb;
  il_IterateUpdatedItems S order l cb := IterateUpdatedItems order l cb;
  il_Commit := SimpleLedger_Commit; il_Clone := SimpleLedger_Clone;
|}.
Definition finality_ledger : IFinalityLedger ledger := {|
  ifl_ledger := {|
    il_Version := Version; il_Set := Set_; il_CancelSet := CancelSet; il_Get := Get; il_Del := Del; il_CancelDel := CancelDel; il_Read := Read;
    il_IterateReadAllItems S l cb := IterateReadAllItems l cb;
    il_IterateGotItems S order l cb := IterateGotItems order l cb;
    il_IterateUpdatedItems S order l cb := IterateUpdatedItems order l cb;
    il_Commit := Commit; il_Clone := SimpleLedger_Clone |};
  ifl_SetFinality := SetFinality; ifl_CancelSetFinality := CancelSetFinality; ifl_GetFinality := GetFinality; ifl_DelFinality := DelFinality;
  ifl_CancelDelFinality := CancelDelFinality;
  ifl_IterateReadAllFinalityItems S l cb := IterateReadAllFinalityItems l cb;
  ifl_IterateFinalityGotItems S order l cb := IterateFinalityGotItems order l cb;
  ifl_IterateFinalityUpdatedItems S order l cb := IterateFinalityUpdatedItems order l cb;
  ifl_ImmutableLedgerAt := Finality_ImmutableLedgerAt;
|}.
End Interfaces.
