(* ===== verification/MemLedger.v ===== *)
(** * The ledger in memory: [ledger/mem_ledger.go]

    [MemLedger] keeps committed items as pointers in a map instead of encoding
    them into a tree: whoever changes an object that [Get] returned changes the
    committed item. *)

From Stdlib Require Import Strings.Byte.
From S2P Require Import Prelude Xerrors GoSem Bytes Ledger.
Import Ledger.MemItems.

Section MemLedger.
Context {T : Type} {Item : ILedgerItem T}.

Record MemLedger : Type := MkMemLedger {
  memStorage : gmap bytes positive;
  ml_cachedItems : memItems;
  ml_heap : heap T;
}.
Definition upd_cache (f : memItems -> memItems) (L : MemLedger) : MemLedger := MkMemLedger (memStorage L) (f (ml_cachedItems L)) (ml_heap L).

Definition NewMemLedger (h : heap T) : MemLedger := MkMemLedger ∅ newMemItems h.
Definition mem_Version (L : MemLedger) : Z := 0.

Definition mem_load (p : positive) : GoM MemLedger T := fun L => match objs (ml_heap L) !! p with Some x => (Ret x, L) | None => (Panic, L) end.

Definition mem_Set (p : positive) : GoM MemLedger unit :=
  let! x := mem_load p in
  modifyM (upd_cache (setUpdatedItem (Key x) p)).
Definition mem_CancelSet (key : bytes) : GoM MemLedger unit := modifyM (upd_cache (delUpdatedItem key)).

(** The object in the map is returned itself. *)
Definition mem_read (key : bytes) : GoM MemLedger positive :=
  let! L := getM in
  match memStorage L !! key with
  | None => errM (NewOrdinary "simple_ledger: not found")
  | Some p =>
      let! x := mem_load p in
      if bool_decide (key = Key x) then retM p
      else errM (NewOrdinary "simple_ledger: the key is compromised - the requested key is not equal to the key encoded in value")
  end.

Definition mem_get (key : bytes) : GoM MemLedger positive :=
  let! L := getM in
  match getGotItem key (ml_cachedItems L) with
  | Some p => retM p
  | None =>
      let! p := mem_read key in
      let! x := mem_load p in
      do! modifyM (upd_cache (setGotItem (Key x) p)) in
      retM p
  end.
Definition mem_Get : bytes -> GoM MemLedger positive := mem_get.

Definition mem_Del (key : bytes) : GoM MemLedger positive :=
  let! p := mem_get key in
  do! modifyM (upd_cache (delGotItem key)) in
  do! modifyM (upd_cache (delUpdatedItem key)) in
  do! modifyM (upd_cache (appendRemovedKey key)) in
  retM p.
Definition mem_CancelDel (key : bytes) : GoM MemLedger unit := modifyM (upd_cache (delRemovedKey key)).

Definition mem_Read (key : bytes) : GoM MemLedger positive :=
  let! p := mem_read key in
  let! x := mem_load p in
  do! modifyM (upd_cache (setGotItem (Key x) p)) in
  retM p.

(** [order]: the keys of a map in the order in which Go ranges over it. *)
Definition iterate_items {S} (l : lens S MemLedger) (order : gmap bytes positive -> list bytes) (items : MemLedger -> gmap bytes positive)
    (cb : positive -> GoM S unit) : GoM S unit :=
  let! m := getsM (fun s => items (lget l s)) in
  forM_ (order m) (fun k => match m !! k with Some p => cb p | None => retM tt end).
Definition mem_IterateReadAllItems {S} (l : lens S MemLedger) order cb := iterate_items l order memStorage cb.
Definition mem_IterateGotItems {S} (l : lens S MemLedger) order cb := iterate_items l order (fun L => gotItems (ml_cachedItems L)) cb.
Definition mem_IterateUpdatedItems {S} (l : lens S MemLedger) order cb := iterate_items l order (fun L => updatedItems (ml_cachedItems L)) cb.

(** The updates are written first, then the removed keys are deleted. *)
Definition mem_Commit : GoM MemLedger (list Byte.byte * Z) := fun L =>
  let updated := updatedItems (ml_cachedItems L) ∪ memStorage L in
  let storage := fold_left (fun m k => delete k m) (removedKeys (ml_cachedItems L)) updated in
  (Ret ([], 0), MkMemLedger storage newMemItems (ml_heap L)).

(** The clone shares the map; the model keeps the value it has at the time. *)
Definition mem_Close : GoM MemLedger unit := modifyM (fun L => MkMemLedger ∅ newMemItems (ml_heap L)).

Lemma fold_delete_lookup (l : list bytes) (m : gmap bytes positive) k : fold_left (fun m k => delete k m) l m !! k = if decide (k ∈ l) then None else m !! k.
Proof.
  revert m. induction l as [|k0 l IH]; intros m; cbn [fold_left]; [by rewrite decide_False by apply not_elem_of_nil|]. rewrite IH.
  destruct (decide (k ∈ l)) as [Hin|Hout]; [by rewrite decide_True by (by apply list_elem_of_further)|].
  destruct (decide (k = k0)) as [->|Hne]; [by rewrite lookup_delete_eq, decide_True by apply list_elem_of_here|].
  rewrite lookup_delete_ne by done. rewrite decide_False; [done|]. intros [?|?]%elem_of_cons; done.
Qed.

(** What is in the store after a commit: a removed key is gone even when an item
    was set under it afterwards. *)
Lemma mem_commit_lookup L r L' k : mem_Commit L = (r, L') ->
  memStorage L' !! k = if decide (k ∈ removedKeys (ml_cachedItems L)) then None else updatedItems (ml_cachedItems L) !! k ∪ memStorage L !! k.
Proof. intros [= <- <-]. cbn [memStorage]. rewrite fold_delete_lookup. case_decide; [done|]. apply lookup_union. Qed.

(** Items that were set are not seen by [Get] before the commit, and removed items
    still are: only the committed store and its cache are looked at. *)
Lemma mem_get_ignores_pending L key p x f :
  getGotItem key (ml_cachedItems L) = None -> memStorage L !! key = Some p -> objs (ml_heap L) !! p = Some x -> Key x = key ->
  (f = setUpdatedItem key p \/ f = appendRemovedKey key) -> (mem_get key (upd_cache f L)).1 = Ret p.
Proof.
  intros Hg Hs Hp Hk Hf. assert (Hg' : getGotItem key (ml_cachedItems (upd_cache f L)) = None) by (destruct Hf as [-> | ->]; done).
  unfold mem_get. rewrite (bindM_step _ _ _ (upd_cache f L) (upd_cache f L)) by done. rewrite Hg'.
  assert (Hl : mem_load p (upd_cache f L) = (Ret x, upd_cache f L)) by (unfold mem_load; cbn; by rewrite Hp).
  rewrite (bindM_step _ _ _ p (upd_cache f L)).
  - by rewrite (bindM_step _ _ _ _ _ Hl).
  - unfold mem_read. rewrite (bindM_step _ _ _ (upd_cache f L) (upd_cache f L)) by done. cbn [upd_cache memStorage]. rewrite Hs.
    rewrite (bindM_step _ _ _ _ _ Hl). by rewrite bool_decide_eq_true_2.
Qed.
End MemLedger.
