(* ===== verification/GovParams.v ===== *)
(** * Governance parameters: [ctrlers/types/gov_params.go]

    The parameters every controller reads, their accessors, the fee and voting
    power conversions, the merge of a proposal into the current parameters, and
    the protobuf and JSON forms.  A nil [uint256.Int] pointer is [None]; using it
    is a run-time panic.  The protobuf and JSON libraries are parameters
    ([Codec]); only their message structs are modelled. *)

From Stdlib Require Import Strings.Byte.
From S2P Require Import Prelude Xerrors GoSem Bytes Ledger LedgerSpec Concrete.

(** ** Serialization libraries *)

(** [Marshal] and [Unmarshal] of one message type; [inl] is the library's error. *)
Class Codec (M : Type) := {
  codec_Marshal : M -> string + list Byte.byte;
  codec_Unmarshal : list Byte.byte -> string + M;
}.

(** A message with its numbers in range is read back as it was written (laws),
    and it is written when it is valid (totality: for protobuf, strings must
    also be in UTF-8). *)
Class CodecLaws (M : Type) {C : Codec M} (codec_valid : M -> Prop) : Prop := {
  codec_roundtrip : forall x bz, codec_valid x -> codec_Marshal x = inr bz -> codec_Unmarshal bz = inr x;
}.

Class CodecTotal (M : Type) {C : Codec M} (codec_valid : M -> Prop) : Prop := {
  codec_total : forall x, codec_valid x -> exists bz, codec_Marshal x = inr bz;
}.

(** [Dec] and [FromDecimal] of [uint256.Int]. *)
Class DecCodec := {
  u256_Dec : Z -> string;
  u256_FromDecimal : string -> string + Z;
}.

Class DecLaws {D : DecCodec} : Prop := {
  dec_nonempty : forall z, u256_Dec z <> ""%string;
  dec_roundtrip : forall z, is_u256 z -> u256_FromDecimal (u256_Dec z) = inr z;
}.

(** ** The parameters *)
Record GovParams : Type := mkGovParams {
  version : Z;
  maxValidatorCnt : Z;
  minValidatorStake : option Z;
  minDelegatorStake : option Z;
  rewardPerPower : option Z;
  lazyRewardBlocks : Z;
  lazyApplyingBlocks : Z;
  gasPrice : option Z;
  minTrxGas : Z;
  maxTrxGas : Z;
  maxBlockGas : Z;
  minVotingPeriodBlocks : Z;
  maxVotingPeriodBlocks : Z;
  minSelfStakeRatio : Z;
  maxUpdatableStakeRatio : Z;
  maxIndividualStakeRatio : Z;
  slashRatio : Z;
  signedBlocksWindow : Z;
  minSignedBlocks : Z;
}.

#[export] Instance gov_params_eq_dec : EqDecision GovParams.
Proof. solve_decision. Defined.

Definition MaxUint64 : Z := 2 ^ 64 - 1.

Definition DefaultGovParams : GovParams := {|
  version := 1;
  maxValidatorCnt := 21;
  minValidatorStake := Some 7000000000000000000000000;
  minDelegatorStake := Some 0;
  rewardPerPower := Some 4756468797;
  lazyRewardBlocks := 2592000;
  lazyApplyingBlocks := 259200;
  gasPrice := Some 250000000000;
  minTrxGas := 4000;
  maxTrxGas := 25000000;
  maxBlockGas := MaxUint64;
  minVotingPeriodBlocks := 259200;
  maxVotingPeriodBlocks := 2592000;
  minSelfStakeRatio := 50;
  maxUpdatableStakeRatio := 33;
  maxIndividualStakeRatio := 33;
  slashRatio := 50;
  signedBlocksWindow := 10000;
  minSignedBlocks := 500;
|}.

Definition Test1GovParams : GovParams := {|
  version := 1;
  maxValidatorCnt := 10;
  minValidatorStake := Some 1000000000000000000;
  minDelegatorStake := Some 0;
  rewardPerPower := Some 2000000000;
  lazyRewardBlocks := 10;
  lazyApplyingBlocks := 10;
  gasPrice := Some 10;
  minTrxGas := 10;
  maxTrxGas := MaxUint64;
  maxBlockGas := MaxUint64;
  minVotingPeriodBlocks := 10;
  maxVotingPeriodBlocks := 10;
  minSelfStakeRatio := 50;
  maxUpdatableStakeRatio := 33;
  maxIndividualStakeRatio := 33;
  slashRatio := 50;
  signedBlocksWindow := 30;
  minSignedBlocks := 3;
|}.

Definition Test2GovParams : GovParams := {|
  version := 2;
  maxValidatorCnt := 10;
  minValidatorStake := Some 5000000000000000000;
  minDelegatorStake := Some 0;
  rewardPerPower := Some 2000000000;
  lazyRewardBlocks := 30;
  lazyApplyingBlocks := 40;
  gasPrice := Some 20;
  minTrxGas := 20;
  maxTrxGas := MaxUint64;
  maxBlockGas := MaxUint64;
  minVotingPeriodBlocks := 50;
  maxVotingPeriodBlocks := 60;
  minSelfStakeRatio := 50;
  maxUpdatableStakeRatio := 33;
  maxIndividualStakeRatio := 33;
  slashRatio := 50;
  signedBlocksWindow := 10000;
  minSignedBlocks := 5;
|}.

Definition Test3GovParams : GovParams := {|
  version := 4;
  maxValidatorCnt := 13;
  minValidatorStake := Some 0;
  minDelegatorStake := Some 0;
  rewardPerPower := Some 0;
  lazyRewardBlocks := 20;
  lazyApplyingBlocks := 0;
  gasPrice := None;
  minTrxGas := 0;
  maxTrxGas := MaxUint64;
  maxBlockGas := MaxUint64;
  minVotingPeriodBlocks := 0;
  maxVotingPeriodBlocks := 0;
  minSelfStakeRatio := 0;
  maxUpdatableStakeRatio := 10;
  maxIndividualStakeRatio := 10;
  slashRatio := 50;
  signedBlocksWindow := 10000;
  minSignedBlocks := 500;
|}.

Definition Test5GovParams : GovParams := {|
  version := 3;
  maxValidatorCnt := 0;
  minValidatorStake := Some 0;
  minDelegatorStake := None;
  rewardPerPower := None;
  lazyRewardBlocks := 0;
  lazyApplyingBlocks := 0;
  gasPrice := None;
  minTrxGas := 0;
  maxTrxGas := 0;
  maxBlockGas := 0;
  minVotingPeriodBlocks := 0;
  maxVotingPeriodBlocks := 0;
  minSelfStakeRatio := 40;
  maxUpdatableStakeRatio := 50;
  maxIndividualStakeRatio := 50;
  slashRatio := 60;
  signedBlocksWindow := 0;
  minSignedBlocks := 0;
|}.

(** ** Accessors that dereference a pointer *)
Definition deref (p : option Z) : outcome Z := match p with Some z => Ret z | None => Panic end.

Definition MinDelegatorStake (r : GovParams) : Z := default 0 (minDelegatorStake r).
Definition RewardPerPower (r : GovParams) : outcome Z := deref (rewardPerPower r).
Definition GasPrice (r : GovParams) : outcome Z := deref (gasPrice r).

(** ** Conversions *)
Definition amountPerPower : Z := 1000000000000000000.

Definition AmountToPower (amt : Z) : outcome Z :=
  let vp := i64 (u64 (amt / amountPerPower)) in
  if vp <? 0 then Panic else Ret vp.

Definition PowerToAmount (power : Z) : Z := u256 (u64 power * amountPerPower).

(** [Div] of [uint256.Int] by zero is zero. *)
Definition u256_Div (a b : Z) : Z := if b =? 0 then 0 else a / b.

Definition FeeToGas (fee price : Z) : Z := u64 (u256_Div fee price).
Definition GasToFee (gas price : Z) : Z := u256 (gas * price).

Definition MinTrxFee (r : GovParams) : outcome Z :=
  match gasPrice r with Some p => Ret (GasToFee (minTrxGas r) p) | None => Panic end.
Definition MaxTrxFee (r : GovParams) : outcome Z :=
  match gasPrice r with Some p => Ret (GasToFee (maxTrxGas r) p) | None => Panic end.

(** ** [MergeGovParams]: fields that the proposal leaves unset keep their value *)
Definition merge_int (old new : Z) : Z := if new =? 0 then old else new.
Definition merge_ptr (old new : option Z) : option Z :=
  match new with
  | None => old
  | Some z => if z =? 0 then old else new
  end.

Definition MergeGovParams (oldParams newParams : GovParams) : GovParams := {|
  version := merge_int (version oldParams) (version newParams);
  maxValidatorCnt := merge_int (maxValidatorCnt oldParams) (maxValidatorCnt newParams);
  minValidatorStake := merge_ptr (minValidatorStake oldParams) (minValidatorStake newParams);
  minDelegatorStake := merge_ptr (minDelegatorStake oldParams) (minDelegatorStake newParams);
  rewardPerPower := merge_ptr (rewardPerPower oldParams) (rewardPerPower newParams);
  lazyRewardBlocks := merge_int (lazyRewardBlocks oldParams) (lazyRewardBlocks newParams);
  lazyApplyingBlocks := merge_int (lazyApplyingBlocks oldParams) (lazyApplyingBlocks newParams);
  gasPrice := merge_ptr (gasPrice oldParams) (gasPrice newParams);
  minTrxGas := merge_int (minTrxGas oldParams) (minTrxGas newParams);
  maxTrxGas := merge_int (maxTrxGas oldParams) (maxTrxGas newParams);
  maxBlockGas := merge_int (maxBlockGas oldParams) (maxBlockGas newParams);
  minVotingPeriodBlocks := merge_int (minVotingPeriodBlocks oldParams) (minVotingPeriodBlocks newParams);
  maxVotingPeriodBlocks := merge_int (maxVotingPeriodBlocks oldParams) (maxVotingPeriodBlocks newParams);
  minSelfStakeRatio := merge_int (minSelfStakeRatio oldParams) (minSelfStakeRatio newParams);
  maxUpdatableStakeRatio := merge_int (maxUpdatableStakeRatio oldParams) (maxUpdatableStakeRatio newParams);
  maxIndividualStakeRatio := merge_int (maxIndividualStakeRatio oldParams) (maxIndividualStakeRatio newParams);
  slashRatio := merge_int (slashRatio oldParams) (slashRatio newParams);
  signedBlocksWindow := merge_int (signedBlocksWindow oldParams) (signedBlocksWindow newParams);
  minSignedBlocks := merge_int (minSignedBlocks oldParams) (minSignedBlocks newParams);
|}.

(** ** Protobuf *)
Record GovParamsProto : Type := mkGovParamsProto {
  pb_Version : Z;
  pb_MaxValidatorCnt : Z;
  pb_XMinValidatorStake : list Byte.byte;
  pb_XMinDelegatorStake : list Byte.byte;
  pb_XRewardPerPower : list Byte.byte;
  pb_LazyRewardBlocks : Z;
  pb_LazyApplyingBlocks : Z;
  pb_XGasPrice : list Byte.byte;
  pb_MinTrxGas : Z;
  pb_MaxTrxGas : Z;
  pb_MaxBlockGas : Z;
  pb_MinVotingPeriodBlocks : Z;
  pb_MaxVotingPeriodBlocks : Z;
  pb_MinSelfStakeRatio : Z;
  pb_MaxUpdatableStakeRatio : Z;
  pb_MaxIndividualStakeRatio : Z;
  pb_SlashRatio : Z;
  pb_SignedBlocksWindow : Z;
  pb_MinSignedBlocks : Z;
}.

Definition toProto (r : GovParams) : outcome GovParamsProto :=
  match minValidatorStake r, minDelegatorStake r, rewardPerPower r, gasPrice r with
  | Some vs, Some ds, Some rp, Some gp => Ret {|
      pb_Version := version r;
      pb_MaxValidatorCnt := maxValidatorCnt r;
      pb_XMinValidatorStake := u256_Bytes vs;
      pb_XMinDelegatorStake := u256_Bytes ds;
      pb_XRewardPerPower := u256_Bytes rp;
      pb_LazyRewardBlocks := lazyRewardBlocks r;
      pb_LazyApplyingBlocks := lazyApplyingBlocks r;
      pb_XGasPrice := u256_Bytes gp;
      pb_MinTrxGas := minTrxGas r;
      pb_MaxTrxGas := maxTrxGas r;
      pb_MaxBlockGas := maxBlockGas r;
      pb_MinVotingPeriodBlocks := minVotingPeriodBlocks r;
      pb_MaxVotingPeriodBlocks := maxVotingPeriodBlocks r;
      pb_MinSelfStakeRatio := minSelfStakeRatio r;
      pb_MaxUpdatableStakeRatio := maxUpdatableStakeRatio r;
      pb_MaxIndividualStakeRatio := maxIndividualStakeRatio r;
      pb_SlashRatio := slashRatio r;
      pb_SignedBlocksWindow := signedBlocksWindow r;
      pb_MinSignedBlocks := minSignedBlocks r;
    |}
  | _, _, _, _ => Panic
  end.

Definition fromProto (pm : GovParamsProto) : GovParams := {|
  version := pb_Version pm;
  maxValidatorCnt := pb_MaxValidatorCnt pm;
  minValidatorStake := Some (u256_SetBytes (pb_XMinValidatorStake pm));
  minDelegatorStake := Some (u256_SetBytes (pb_XMinDelegatorStake pm));
  rewardPerPower := Some (u256_SetBytes (pb_XRewardPerPower pm));
  lazyRewardBlocks := pb_LazyRewardBlocks pm;
  lazyApplyingBlocks := pb_LazyApplyingBlocks pm;
  gasPrice := Some (u256_SetBytes (pb_XGasPrice pm));
  minTrxGas := pb_MinTrxGas pm;
  maxTrxGas := pb_MaxTrxGas pm;
  maxBlockGas := pb_MaxBlockGas pm;
  minVotingPeriodBlocks := pb_MinVotingPeriodBlocks pm;
  maxVotingPeriodBlocks := pb_MaxVotingPeriodBlocks pm;
  minSelfStakeRatio := pb_MinSelfStakeRatio pm;
  maxUpdatableStakeRatio := pb_MaxUpdatableStakeRatio pm;
  maxIndividualStakeRatio := pb_MaxIndividualStakeRatio pm;
  slashRatio := pb_SlashRatio pm;
  signedBlocksWindow := pb_SignedBlocksWindow pm;
  minSignedBlocks := pb_MinSignedBlocks pm;
|}.

(** ** JSON: the anonymous struct of [MarshalJSON] and [UnmarshalJSON] *)
Record GovParamsJSON : Type := mkGovParamsJSON {
  js_Version : Z;
  js_MaxValidatorCnt : Z;
  js_MinValidatorStake : string;
  js_MinDelegatorStake : string;
  js_RewardPerPower : string;
  js_LazyRewardBlocks : Z;
  js_LazyApplyingBlocks : Z;
  js_GasPrice : string;
  js_MinTrxGas : Z;
  js_MaxTrxGas : Z;
  js_MaxBlockGas : Z;
  js_MinVotingPeriodBlocks : Z;
  js_MaxVotingPeriodBlocks : Z;
  js_MinSelfStakeRatio : Z;
  js_MaxUpdatableStakeRatio : Z;
  js_MaxIndividualStakeRatio : Z;
  js_SlashRatio : Z;
  js_SignedBlocksWindow : Z;
  js_MinSignedBlocks : Z;
}.

Section Serialization.
Context {ProtoC : Codec GovParamsProto} {JsonC : Codec GovParamsJSON} {Dec : DecCodec}.

Definition GovParams_Encode (r : GovParams) : outcome bytes :=
  match toProto r with
  | Ret pm => match codec_Marshal pm with inl msg => Err (NewOrdinary msg) | inr bz => Ret bz end
  | Err e => Err e
  | Panic => Panic
  end.

Definition GovParams_Decode (bz : bytes) : outcome GovParams :=
  match codec_Unmarshal bz with
  | inl msg => Err (NewOrdinary msg)
  | inr pm => Ret (fromProto pm)
  end.

Definition DecodeGovParams (bz : bytes) : outcome GovParams := GovParams_Decode bz.

Definition GovParams_Key : bytes := ToLedgerKey (ZeroBytes 32).

#[export] Instance gov_params_item : ILedgerItem GovParams := {|
  Key _ := GovParams_Key;
  Encode := GovParams_Encode;
  Decode := GovParams_Decode;
|}.

Definition uint256ToString (value : option Z) : string :=
  match value with None => ""%string | Some z => u256_Dec z end.

Definition stringToUint256 (value : string) : string + option Z :=
  if bool_decide (value = ""%string) then inr None
  else match u256_FromDecimal value with inl e => inl e | inr z => inr (Some z) end.

Definition toJSON (r : GovParams) : GovParamsJSON := {|
  js_Version := version r;
  js_MaxValidatorCnt := maxValidatorCnt r;
  js_MinValidatorStake := uint256ToString (minValidatorStake r);
  js_MinDelegatorStake := uint256ToString (minDelegatorStake r);
  js_RewardPerPower := uint256ToString (rewardPerPower r);
  js_LazyRewardBlocks := lazyRewardBlocks r;
  js_LazyApplyingBlocks := lazyApplyingBlocks r;
  js_GasPrice := uint256ToString (gasPrice r);
  js_MinTrxGas := minTrxGas r;
  js_MaxTrxGas := maxTrxGas r;
  js_MaxBlockGas := maxBlockGas r;
  js_MinVotingPeriodBlocks := minVotingPeriodBlocks r;
  js_MaxVotingPeriodBlocks := maxVotingPeriodBlocks r;
  js_MinSelfStakeRatio := minSelfStakeRatio r;
  js_MaxUpdatableStakeRatio := maxUpdatableStakeRatio r;
  js_MaxIndividualStakeRatio := maxIndividualStakeRatio r;
  js_SlashRatio := slashRatio r;
  js_SignedBlocksWindow := signedBlocksWindow r;
  js_MinSignedBlocks := minSignedBlocks r;
|}.

Definition GovParams_MarshalJSON (r : GovParams) : string + bytes := codec_Marshal (toJSON r).

(** The fields are assigned one after the other: an error in a decimal leaves
    the earlier assignments in place, but the object is then dropped by every
    caller, so only the error is kept.  A missing [minDelegatorStake] is zero
    (RG-78). *)
Definition GovParams_UnmarshalJSON (bz : bytes) : string + GovParams :=
  match codec_Unmarshal bz with
  | inl e => inl e
  | inr tm =>
      match stringToUint256 (js_MinValidatorStake tm) with
      | inl e => inl e
      | inr vs =>
      match stringToUint256 (js_MinDelegatorStake tm) with
      | inl e => inl e
      | inr ds =>
      match stringToUint256 (js_RewardPerPower tm) with
      | inl e => inl e
      | inr rp =>
      match stringToUint256 (js_GasPrice tm) with
      | inl e => inl e
      | inr gp => inr {|
          version := js_Version tm;
          maxValidatorCnt := js_MaxValidatorCnt tm;
          minValidatorStake := vs;
          minDelegatorStake := Some (default 0 ds);
          rewardPerPower := rp;
          lazyRewardBlocks := js_LazyRewardBlocks tm;
          lazyApplyingBlocks := js_LazyApplyingBlocks tm;
          gasPrice := gp;
          minTrxGas := js_MinTrxGas tm;
          maxTrxGas := js_MaxTrxGas tm;
          maxBlockGas := js_MaxBlockGas tm;
          minVotingPeriodBlocks := js_MinVotingPeriodBlocks tm;
          maxVotingPeriodBlocks := js_MaxVotingPeriodBlocks tm;
          minSelfStakeRatio := js_MinSelfStakeRatio tm;
          maxUpdatableStakeRatio := js_MaxUpdatableStakeRatio tm;
          maxIndividualStakeRatio := js_MaxIndividualStakeRatio tm;
          slashRatio := js_SlashRatio tm;
          signedBlocksWindow := js_SignedBlocksWindow tm;
          minSignedBlocks := js_MinSignedBlocks tm;
        |}
      end end end end
  end.
End Serialization.

(** ** Ranges *)

(** Every number is within its Go type; [gov_set] also asks for the pointers. *)
Definition gov_range (r : GovParams) : Prop :=
  is_i64 (version r) /\
  is_i64 (maxValidatorCnt r) /\
  (forall z, minValidatorStake r = Some z -> is_u256 z) /\
  (forall z, minDelegatorStake r = Some z -> is_u256 z) /\
  (forall z, rewardPerPower r = Some z -> is_u256 z) /\
  is_i64 (lazyRewardBlocks r) /\
  is_i64 (lazyApplyingBlocks r) /\
  (forall z, gasPrice r = Some z -> is_u256 z) /\
  is_u64 (minTrxGas r) /\
  is_u64 (maxTrxGas r) /\
  is_u64 (maxBlockGas r) /\
  is_i64 (minVotingPeriodBlocks r) /\
  is_i64 (maxVotingPeriodBlocks r) /\
  is_i64 (minSelfStakeRatio r) /\
  is_i64 (maxUpdatableStakeRatio r) /\
  is_i64 (maxIndividualStakeRatio r) /\
  is_i64 (slashRatio r) /\
  is_i64 (signedBlocksWindow r) /\
  is_i64 (minSignedBlocks r).

Definition gov_set (r : GovParams) : Prop :=
  is_Some (minValidatorStake r) /\ is_Some (minDelegatorStake r) /\ is_Some (rewardPerPower r) /\ is_Some (gasPrice r).

(** No parameter is zero or missing, except [minDelegatorStake], for which zero
    means that it is not checked. *)
Definition gov_complete (r : GovParams) : Prop :=
  version r <> 0 /\
  maxValidatorCnt r <> 0 /\
  (exists z, minValidatorStake r = Some z /\ z <> 0) /\
  (exists z, rewardPerPower r = Some z /\ z <> 0) /\
  lazyRewardBlocks r <> 0 /\
  lazyApplyingBlocks r <> 0 /\
  (exists z, gasPrice r = Some z /\ z <> 0) /\
  minTrxGas r <> 0 /\
  maxTrxGas r <> 0 /\
  maxBlockGas r <> 0 /\
  minVotingPeriodBlocks r <> 0 /\
  maxVotingPeriodBlocks r <> 0 /\
  minSelfStakeRatio r <> 0 /\
  maxUpdatableStakeRatio r <> 0 /\
  maxIndividualStakeRatio r <> 0 /\
  slashRatio r <> 0 /\
  signedBlocksWindow r <> 0 /\
  minSignedBlocks r <> 0 /\
  is_Some (minDelegatorStake r).

(** The zero value of the struct: a proposal that sets nothing. *)
Definition zeroGovParams : GovParams := {|
  version := 0;
  maxValidatorCnt := 0;
  minValidatorStake := None;
  minDelegatorStake := None;
  rewardPerPower := None;
  lazyRewardBlocks := 0;
  lazyApplyingBlocks := 0;
  gasPrice := None;
  minTrxGas := 0;
  maxTrxGas := 0;
  maxBlockGas := 0;
  minVotingPeriodBlocks := 0;
  maxVotingPeriodBlocks := 0;
  minSelfStakeRatio := 0;
  maxUpdatableStakeRatio := 0;
  maxIndividualStakeRatio := 0;
  slashRatio := 0;
  signedBlocksWindow := 0;
  minSignedBlocks := 0;
|}.

(** ** Lemmas *)
Lemma power_of_amount_exact amt :
  0 <= amt < 2 ^ 63 * amountPerPower -> AmountToPower amt = Ret (amt / amountPerPower).
Proof.
  intros H. unfold AmountToPower.
  assert (0 <= amt / amountPerPower < 2 ^ 63).
  { unfold amountPerPower in *. split; [apply Z.div_pos; lia|apply Z.div_lt_upper_bound; lia]. }
  rewrite u64_id, i64_id by (unfold is_u64, is_i64; lia).
  destruct (amt / amountPerPower <? 0) eqn:E; [lia|done].
Qed.

Lemma amount_of_power_exact p : 0 <= p < 2 ^ 63 -> PowerToAmount p = p * amountPerPower.
Proof.
  intros H. unfold PowerToAmount. rewrite u64_id by (unfold is_u64; lia).
  apply u256_id. unfold is_u256, amountPerPower. lia.
Qed.
#[export] Hint Rewrite amount_of_power_exact : rigo_z.

Lemma merge_int_assoc a b c : merge_int a (merge_int b c) = merge_int (merge_int a b) c.
Proof. unfold merge_int. repeat case_match; lia. Qed.
Lemma merge_ptr_assoc a b c : merge_ptr a (merge_ptr b c) = merge_ptr (merge_ptr a b) c.
Proof. unfold merge_ptr. destruct c as [c|]; [|done]. by destruct (c =? 0) eqn:E; [|rewrite E]. Qed.

Lemma merge_assoc a b c : MergeGovParams a (MergeGovParams b c) = MergeGovParams (MergeGovParams a b) c.
Proof. unfold MergeGovParams; cbn. f_equal; auto using merge_int_assoc, merge_ptr_assoc. Qed.

Lemma merge_zero a : MergeGovParams a zeroGovParams = a.
Proof. by destruct a. Qed.

Lemma merge_int_nz a b : a <> 0 -> merge_int a b <> 0.
Proof. unfold merge_int. intros. case_match; lia. Qed.
Lemma merge_ptr_nz a b :
  (exists z, a = Some z /\ z <> 0) -> exists z, merge_ptr a b = Some z /\ z <> 0.
Proof. intros (z & -> & ?). unfold merge_ptr. destruct b as [b|]; [case_match|]; eauto with lia. Qed.
Lemma merge_ptr_some a b : is_Some a -> is_Some (merge_ptr a b).
Proof. intros [z ->]. unfold merge_ptr. destruct b as [b|]; [case_match|]; eauto. Qed.

(** ** Properties *)

(** Voting power and stake amount convert into each other without loss: a
    power below [2^63] survives the round trip through [PowerToAmount], the
    amount of the power of an amount is that amount rounded down to a multiple
    of [10^18], and [AmountToPower] panics exactly when the low 64 bits of the
    quotient have their top bit set. *)
Theorem power_amount_roundtrip :
  (forall p, 0 <= p < 2 ^ 63 -> AmountToPower (PowerToAmount p) = Ret p) /\
  (forall amt p, 0 <= amt < 2 ^ 63 * amountPerPower -> AmountToPower amt = Ret p ->
     PowerToAmount p <= amt < PowerToAmount p + amountPerPower) /\
  (forall amt, is_u256 amt -> AmountToPower amt = Panic <-> 2 ^ 63 <= u64 (amt / amountPerPower)).
Proof.
  split_and!.
  - intros p Hp. rewrite amount_of_power_exact by done. rewrite power_of_amount_exact.
    + by rewrite Z.div_mul by (unfold amountPerPower; lia).
    + unfold amountPerPower. lia.
  - intros amt p Ha. rewrite power_of_amount_exact by done. intros [= <-].
    assert (0 <= amt / amountPerPower < 2 ^ 63).
    { unfold amountPerPower in *. split; [apply Z.div_pos; lia|apply Z.div_lt_upper_bound; lia]. }
    rewrite amount_of_power_exact by done. unfold amountPerPower in *. Z.div_mod_to_equations. lia.
  - intros amt _. unfold AmountToPower. pose proof (u64_range (amt / amountPerPower)) as Hr.
    set (q := u64 (amt / amountPerPower)) in *. unfold is_u64 in Hr.
    destruct (decide (q < 2 ^ 63)) as [Hq|Hq].
    + rewrite i64_id by (unfold is_i64; lia). destruct (q <? 0) eqn:E; split; intros; try done; lia.
    + assert (i64 q = q - 2 ^ 64).
      { unfold i64, wrap_s. rewrite <- (Z.mod_unique (q + 2 ^ (64 - 1)) (2 ^ 64) 1 (q + 2 ^ 63 - 2 ^ 64)); lia. }
      destruct (i64 q <? 0) eqn:E; split; intros; try done; lia.
Qed.

(** [MergeGovParams] treats zero and nil as "not set": an empty proposal
    changes nothing, merging is associative (so successive merges can be
    grouped in any way), and merging any proposal into a complete parameter set
    gives a complete parameter set, so no governance decision can leave a
    parameter unset. *)
Theorem merge_laws :
  (forall a, MergeGovParams a zeroGovParams = a) /\
  (forall a b c, MergeGovParams a (MergeGovParams b c) = MergeGovParams (MergeGovParams a b) c) /\
  (forall a b, gov_complete a -> gov_complete (MergeGovParams a b)).
Proof.
  split_and!; [apply merge_zero|apply merge_assoc|].
  unfold gov_complete. intros a b H. destruct_and! H.
  split_and!; cbn; auto using merge_int_nz, merge_ptr_nz, merge_ptr_some.
Qed.

Section Roundtrips.
Context {ProtoC : Codec GovParamsProto} {JsonC : Codec GovParamsJSON} {Dec : DecCodec}.
Context (pvalid : GovParamsProto -> Prop) (jvalid : GovParamsJSON -> Prop).
Context {ProtoL : CodecLaws GovParamsProto pvalid} {JsonL : CodecLaws GovParamsJSON jvalid} {DecL : DecLaws}.

Lemma string_uint256 p : (forall z, p = Some z -> is_u256 z) -> stringToUint256 (uint256ToString p) = inr p.
Proof.
  intros H. unfold stringToUint256, uint256ToString. destruct p as [z|]; [|done].
  rewrite bool_decide_eq_false_2 by apply dec_nonempty. by rewrite dec_roundtrip by auto.
Qed.

Lemma proto_roundtrip r pm : gov_range r -> toProto r = Ret pm -> fromProto pm = r.
Proof.
  intros (_ & _ & Hvs & Hds & Hrp & _ & _ & Hgp & _).
  destruct r as [? ? [vs|] [ds|] [rp|] ? ? [gp|] ? ? ? ? ? ? ? ? ? ? ?]; try discriminate.
  intros [= <-]. unfold fromProto; cbn [pb_XMinValidatorStake pb_XMinDelegatorStake pb_XRewardPerPower pb_XGasPrice].
  rewrite !u256_set_bytes; [done|..]; auto.
Qed.

(** The stored form and the JSON form of the parameters are faithful.
    Decoding the protobuf encoding of in-range parameters gives them back, and
    so does decoding their JSON, except that a nil [minDelegatorStake] becomes
    zero; parameters with a nil pointer panic in [Encode]. *)
Theorem gov_params_roundtrip (r : GovParams) (Hr : gov_range r) :
  (forall pm bz, toProto r = Ret pm -> pvalid pm -> GovParams_Encode r = Ret bz -> DecodeGovParams bz = Ret r) /\
  (forall bz, jvalid (toJSON r) -> GovParams_MarshalJSON r = inr bz ->
     exists r', GovParams_UnmarshalJSON bz = inr r' /\
       (is_Some (minDelegatorStake r) -> r' = r) /\ minDelegatorStake r' = Some (MinDelegatorStake r)) /\
  (~ gov_set r <-> GovParams_Encode r = Panic).
Proof.
  split_and!.
  - intros pm bz Hp Hv. unfold GovParams_Encode, DecodeGovParams, GovParams_Decode. rewrite Hp.
    destruct (codec_Marshal pm) as [|bz'] eqn:Hm; [done|]. intros [= <-].
    rewrite (codec_roundtrip pm bz' Hv Hm). f_equal. by apply (proto_roundtrip r pm).
  - intros bz Hv Hm. unfold GovParams_UnmarshalJSON. rewrite (codec_roundtrip _ _ Hv Hm).
    unfold gov_range in Hr. destruct_and! Hr. cbn [toJSON js_MinValidatorStake js_MinDelegatorStake js_RewardPerPower js_GasPrice].
    rewrite !string_uint256 by done. eexists. split_and!; [reflexivity| |done].
    intros [z Hz]. destruct r; cbn in *. by subst.
  - unfold gov_set, GovParams_Encode, toProto. destruct r as [v1 v2 [a|] [b|] [c|] v6 v7 [d|] ? ? ? ? ? ? ? ? ? ? ?]; cbn.
    1: { split; [intros H; exfalso; apply H; split_and!; eauto|]. by destruct (codec_Marshal _). }
    all: split; [done|intros _ H; destruct_and! H; by repeat match goal with H : is_Some None |- _ => destruct H as [? H] end].
Qed.
End Roundtrips.

(** ** Concrete codecs *)

(** Any countable message type, encoded as in [Concrete.v]. *)
Definition countCodec (M : Type) `{Countable M} : Codec M := {|
  codec_Marshal x := inr (count_encode x);
  codec_Unmarshal bz := match count_decode bz with Some x => inr x | None => inl "cannot parse invalid wire-format data"%string end;
|}.

Lemma countCodec_laws (M : Type) `{Countable M} (valid : M -> Prop) : @CodecLaws M (countCodec M) valid.
Proof. constructor; cbn. intros x bz _ [= <-]. by rewrite count_decode_encode. Qed.
Lemma countCodec_total (M : Type) `{Countable M} (valid : M -> Prop) : @CodecTotal M (countCodec M) valid.
Proof. constructor; cbn. eauto. Qed.

#[export] Instance GovParamsProto_eq_dec : EqDecision GovParamsProto.
Proof. solve_decision. Defined.

#[export] Program Instance GovParamsProto_countable : Countable GovParamsProto :=
  inj_countable' (fun m => (pb_Version m, pb_MaxValidatorCnt m, pb_XMinValidatorStake m, pb_XMinDelegatorStake m, pb_XRewardPerPower m, pb_LazyRewardBlocks m, pb_LazyApplyingBlocks m, pb_XGasPrice m, pb_MinTrxGas m, pb_MaxTrxGas m, pb_MaxBlockGas m, pb_MinVotingPeriodBlocks m, pb_MaxVotingPeriodBlocks m, pb_MinSelfStakeRatio m, pb_MaxUpdatableStakeRatio m, pb_MaxIndividualStakeRatio m, pb_SlashRatio m, pb_SignedBlocksWindow m, pb_MinSignedBlocks m))
    (fun '(v0, v1, v2, v3, v4, v5, v6, v7, v8, v9, v10, v11, v12, v13, v14, v15, v16, v17, v18) => mkGovParamsProto v0 v1 v2 v3 v4 v5 v6 v7 v8 v9 v10 v11 v12 v13 v14 v15 v16 v17 v18) _.
Next Obligation. by intros []. Qed.

#[export] Instance GovParamsJSON_eq_dec : EqDecision GovParamsJSON.
Proof. solve_decision. Defined.

#[export] Program Instance GovParamsJSON_countable : Countable GovParamsJSON :=
  inj_countable' (fun m => (js_Version m, js_MaxValidatorCnt m, js_MinValidatorStake m, js_MinDelegatorStake m, js_RewardPerPower m, js_LazyRewardBlocks m, js_LazyApplyingBlocks m, js_GasPrice m, js_MinTrxGas m, js_MaxTrxGas m, js_MaxBlockGas m, js_MinVotingPeriodBlocks m, js_MaxVotingPeriodBlocks m, js_MinSelfStakeRatio m, js_MaxUpdatableStakeRatio m, js_MaxIndividualStakeRatio m, js_SlashRatio m, js_SignedBlocksWindow m, js_MinSignedBlocks m))
    (fun '(v0, v1, v2, v3, v4, v5, v6, v7, v8, v9, v10, v11, v12, v13, v14, v15, v16, v17, v18) => mkGovParamsJSON v0 v1 v2 v3 v4 v5 v6 v7 v8 v9 v10 v11 v12 v13 v14 v15 v16 v17 v18) _.
Next Obligation. by intros []. Qed.

(** A 256-bit number has at most 78 decimal digits. *)
Definition decDec : DecCodec := {|
  u256_Dec z := dec_digits 78 z "";
  u256_FromDecimal s := match parse_digits s 0 with
                        | Some z => if z <? 2 ^ 256 then inr z else inl "decimal number > 256 bits"%string
                        | None => inl "strconv"%string
                        end;
|}.

Lemma decDec_laws : @DecLaws decDec.
Proof.
  constructor; [intros; apply dec_digits_nonempty|]. intros z Hz. cbn [u256_FromDecimal u256_Dec decDec].
  destruct (parse_dec_digits 78 z "" 0) as [k ->]; [unfold is_u256 in Hz; lia|].
  cbn [parse_digits]. replace (0 * k + z) with z by lia. unfold is_u256 in Hz.
  by rewrite (proj2 (Z.ltb_lt z (2 ^ 256))) by lia.
Qed.

Lemma default_range : gov_range DefaultGovParams.
Proof.
  unfold gov_range, is_u256, is_u64, is_i64; cbn [version maxValidatorCnt minValidatorStake minDelegatorStake rewardPerPower lazyRewardBlocks lazyApplyingBlocks gasPrice minTrxGas maxTrxGas maxBlockGas minVotingPeriodBlocks maxVotingPeriodBlocks minSelfStakeRatio maxUpdatableStakeRatio maxIndividualStakeRatio slashRatio signedBlocksWindow minSignedBlocks DefaultGovParams].
  unfold MaxUint64. split_and!; try (intros z [= <-]); lia.
Qed.

Lemma gov_params_roundtrip_witness :
  let P := countCodec GovParamsProto in let J := countCodec GovParamsJSON in let D := decDec in
  (exists bz, GovParams_Encode DefaultGovParams = Ret bz /\ DecodeGovParams bz = Ret DefaultGovParams) /\
  (exists bz, GovParams_MarshalJSON DefaultGovParams = inr bz /\ GovParams_UnmarshalJSON bz = inr DefaultGovParams).
Proof.
  intros P J D. pose proof (countCodec_laws GovParamsProto (fun _ => True)) as PL.
  pose proof (countCodec_laws GovParamsJSON (fun _ => True)) as JL.
  destruct (@gov_params_roundtrip P J D _ _ PL JL decDec_laws DefaultGovParams default_range) as (H1 & H2 & _).
  split.
  - eexists. split; [reflexivity|]. eapply H1; [reflexivity|exact I|reflexivity].
  - eexists. split; [reflexivity|].
    destruct (H2 _ I eq_refl) as (r' & Hr & Heq & _). rewrite Hr. f_equal. apply Heq. by eexists.
Defined.
