(* ===== verification/Trx.v ===== *)
(** * Transactions: [ctrlers/types/trx.go] and the payload files

    The transaction struct and its payloads, equality, the protobuf form that
    travels in blocks, the RLP form that is signed, and signature verification.
    Protobuf, RLP and the recovery of a secp256k1 signer are parameters. *)

From Stdlib Require Import Strings.Byte.
From S2P Require Import Prelude Xerrors GoSem Bytes Crypto Ledger Concrete GovParams.

(** ** Types of transactions *)
Definition TRX_TRANSFER : Z := 1.
Definition TRX_STAKING : Z := 2.
Definition TRX_UNSTAKING : Z := 3.
Definition TRX_PROPOSAL : Z := 4.
Definition TRX_VOTING : Z := 5.
Definition TRX_CONTRACT : Z := 6.
Definition TRX_SETDOC : Z := 7.
Definition TRX_WITHDRAW : Z := 8.

(** The keys of the attributes of events. *)
Definition EVENT_ATTR_TXSTATUS : string := "status".
Definition EVENT_ATTR_TXTYPE : string := "type".
Definition EVENT_ATTR_TXSENDER : string := "sender".
Definition EVENT_ATTR_TXRECVER : string := "receiver".
Definition EVENT_ATTR_ADDRPAIR : string := "addrpair".
Definition EVENT_ATTR_AMOUNT : string := "amount".

(** ** Payloads *)
Record TrxPayloadProposal : Type := mkPayloadProposal {
  pp_Message : string;
  pp_StartVotingHeight : Z;
  pp_VotingPeriodBlocks : Z;
  pp_ApplyingHeight : Z;
  pp_OptType : Z;
  pp_Options : list (list Byte.byte);
}.

(** [ITrxPayload], one constructor per implementation. *)
Inductive ITrxPayload : Type :=
  | PayloadAssetTransfer
  | PayloadStaking
  | PayloadUnstaking (TxHash : list Byte.byte)
  | PayloadWithdraw (ReqAmt : Z)
  | PayloadProposal (p : TrxPayloadProposal)
  | PayloadVoting (TxHash : list Byte.byte) (Choice : Z)
  | PayloadContract (Data : list Byte.byte)
  | PayloadSetDoc (Name URL : string).

Definition payload_Type (p : ITrxPayload) : Z :=
  match p with
  | PayloadAssetTransfer => TRX_TRANSFER
  | PayloadStaking => TRX_STAKING
  | PayloadUnstaking _ => TRX_UNSTAKING
  | PayloadWithdraw _ => TRX_WITHDRAW
  | PayloadProposal _ => TRX_PROPOSAL
  | PayloadVoting _ _ => TRX_VOTING
  | PayloadContract _ => TRX_CONTRACT
  | PayloadSetDoc _ _ => TRX_SETDOC
  end.

Fixpoint options_Equal (l l' : list (list Byte.byte)) : bool :=
  match l, l' with
  | [], [] => true
  | d :: r, d' :: r' => (Compare d d' =? 0) && options_Equal r r'
  | _, _ => false
  end.

Definition proposal_Equal (a b : TrxPayloadProposal) : bool :=
  bool_decide (pp_Message a = pp_Message b) &&
  (pp_StartVotingHeight a =? pp_StartVotingHeight b) &&
  (pp_VotingPeriodBlocks a =? pp_VotingPeriodBlocks b) &&
  (pp_ApplyingHeight a =? pp_ApplyingHeight b) &&
  (pp_OptType a =? pp_OptType b) &&
  options_Equal (pp_Options a) (pp_Options b).

(** [Equal] of each payload; the transfer and staking payloads accept any
    argument, a nil one included. *)
Definition Unstaking_Equal (TxHash : list Byte.byte) (_tx : option ITrxPayload) : bool :=
  match _tx with Some (PayloadUnstaking h) => Compare TxHash h =? 0 | _ => false end.
Definition Withdraw_Equal (ReqAmt : Z) (_tx : option ITrxPayload) : bool :=
  match _tx with Some (PayloadWithdraw a) => ReqAmt =? a | _ => false end.
Definition Proposal_Equal (p : TrxPayloadProposal) (_tx : option ITrxPayload) : bool :=
  match _tx with Some (PayloadProposal _tx0) => proposal_Equal p _tx0 | _ => false end.
Definition Voting_Equal (TxHash : list Byte.byte) (Choice : Z) (_tx : option ITrxPayload) : bool :=
  match _tx with Some (PayloadVoting h c) => (Compare TxHash h =? 0) && (Choice =? c) | _ => false end.
Definition Contract_Equal (Data : list Byte.byte) (_tx : option ITrxPayload) : bool :=
  match _tx with Some (PayloadContract d) => Compare Data d =? 0 | _ => false end.
Definition SetDoc_Equal (Name URL : string) (_tx : option ITrxPayload) : bool :=
  match _tx with Some (PayloadSetDoc n u) => bool_decide (Name = n) && bool_decide (URL = u) | _ => false end.

Definition payload_Equal (p : ITrxPayload) (q : option ITrxPayload) : bool :=
  match p with
  | PayloadAssetTransfer | PayloadStaking => true
  | PayloadUnstaking h => Unstaking_Equal h q
  | PayloadWithdraw a => Withdraw_Equal a q
  | PayloadProposal p => Proposal_Equal p q
  | PayloadVoting h c => Voting_Equal h c q
  | PayloadContract d => Contract_Equal d q
  | PayloadSetDoc n u => SetDoc_Equal n u q
  end.

(** ** The transaction *)
Record Trx : Type := mkTrx {
  tx_Version : Z;
  tx_Time : Z;
  tx_Nonce : Z;
  tx_From : list Byte.byte;
  tx_To : list Byte.byte;
  tx_Amount : Z;
  tx_Gas : Z;
  tx_GasPrice : Z;
  tx_Type : Z;
  tx_Payload : option ITrxPayload;
  tx_Sig : list Byte.byte;
}.

Definition set_Sig (sig : bytes) (tx : Trx) : Trx :=
  mkTrx (tx_Version tx) (tx_Time tx) (tx_Nonce tx) (tx_From tx) (tx_To tx) (tx_Amount tx) (tx_Gas tx)
        (tx_GasPrice tx) (tx_Type tx) (tx_Payload tx) sig.

Definition set_Payload (p : option ITrxPayload) (tx : Trx) : Trx :=
  mkTrx (tx_Version tx) (tx_Time tx) (tx_Nonce tx) (tx_From tx) (tx_To tx) (tx_Amount tx) (tx_Gas tx)
        (tx_GasPrice tx) (tx_Type tx) p (tx_Sig tx).

Definition Trx_Equal (tx _tx : Trx) : bool :=
  (tx_Version tx =? tx_Version _tx) &&
  (tx_Time tx =? tx_Time _tx) &&
  (tx_Nonce tx =? tx_Nonce _tx) &&
  (Compare (tx_From tx) (tx_From _tx) =? 0) &&
  (Compare (tx_To tx) (tx_To _tx) =? 0) &&
  (tx_Amount tx =? tx_Amount _tx) &&
  (tx_Gas tx =? tx_Gas _tx) &&
  (tx_GasPrice tx =? tx_GasPrice _tx) &&
  (tx_Type tx =? tx_Type _tx) &&
  (Compare (tx_Sig tx) (tx_Sig _tx) =? 0) &&
  match tx_Payload tx with
  | Some p => payload_Equal p (tx_Payload _tx)
  | None => match tx_Payload _tx with Some _ => false | None => true end
  end.

(** [NewTrx]; [now] is the clock. *)
Definition NewTrx (now ver : Z) (from to : bytes) (nonce gas gasPrice amt : Z) (payload : ITrxPayload) : Trx :=
  mkTrx ver now nonce from to amt gas gasPrice (payload_Type payload) (Some payload) [].

Definition TypeString (tx : Trx) : string :=
  if tx_Type tx =? TRX_TRANSFER then "transfer"
  else if tx_Type tx =? TRX_STAKING then "staking"
  else if tx_Type tx =? TRX_UNSTAKING then "unstaking"
  else if tx_Type tx =? TRX_WITHDRAW then "withdraw"
  else if tx_Type tx =? TRX_PROPOSAL then "proposal"
  else if tx_Type tx =? TRX_VOTING then "voting"
  else if tx_Type tx =? TRX_CONTRACT then "contract"
  else if tx_Type tx =? TRX_SETDOC then "setdoc"
  else "".

(** ** Messages of the serialization libraries *)
Record TrxProto : Type := mkTrxProto {
  px_Version : Z;
  px_Time : Z;
  px_Nonce : Z;
  px_From : list Byte.byte;
  px_To : list Byte.byte;
  px_XAmount : list Byte.byte;
  px_Gas : Z;
  px_XGasPrice : list Byte.byte;
  px_Type : Z;
  px_XPayload : list Byte.byte;
  px_Sig : list Byte.byte;
}.

Record TrxPayloadUnstakingProto : Type := mkUnstakingProto { pu_TxHash : list Byte.byte }.
Record TrxPayloadWithdrawProto : Type := mkWithdrawProto { pw_XReqAmt : list Byte.byte }.
Record TrxPayloadProposalProto : Type := mkProposalProto {
  pr_Message : string;
  pr_StartVotingHeight : Z;
  pr_VotingBlocks : Z;
  pr_ApplyingHeight : Z;
  pr_OptType : Z;
  pr_Options : list (list Byte.byte);
}.
Record TrxPayloadVotingProto : Type := mkVotingProto { pv_TxHash : list Byte.byte; pv_Choice : Z }.
Record TrxPayloadContractProto : Type := mkContractProto { pc_XData : list Byte.byte }.
Record TrxPayloadSetDocProto : Type := mkSetDocProto { ps_Name : string; ps_Url : string }.

(** [trxRPL], the struct given to the RLP library. *)
Record trxRPL : Type := mkTrxRPL {
  rl_Version : Z;
  rl_Time : Z;
  rl_Nonce : Z;
  rl_From : list Byte.byte;
  rl_To : list Byte.byte;
  rl_Amount : list Byte.byte;
  rl_Gas : Z;
  rl_GasPrice : list Byte.byte;
  rl_Type : Z;
  rl_Payload : list Byte.byte;
  rl_Sig : list Byte.byte;
}.

(** The values that payloads give to the RLP library: a byte string, or the
    anonymous structs of the proposal, voting and setdoc payloads. *)
Inductive rlpItem : Type :=
  | RBytes (bz : list Byte.byte)
  | RProposal (msg : string) (start period apply opttype : Z) (opts : list (list Byte.byte))
  | RVoting (TxHash : list Byte.byte) (Choice : Z)
  | RSetDoc (Name URL : string).

(** What a payload of a given transaction type asks the RLP library to read. *)
Inductive rlpShape : Type := ShBytes | ShProposal | ShVoting | ShSetDoc.

Definition shape_of (i : rlpItem) : rlpShape :=
  match i with
  | RBytes _ => ShBytes | RProposal _ _ _ _ _ _ => ShProposal
  | RVoting _ _ => ShVoting | RSetDoc _ _ => ShSetDoc
  end.

Class RlpLib := {
  rlp_EncodeTrx : trxRPL -> string + list Byte.byte;
  rlp_DecodeTrx : list Byte.byte -> string + trxRPL;
  rlp_EncodeItem : rlpItem -> string + list Byte.byte;
  rlp_DecodeItem : rlpShape -> list Byte.byte -> string + rlpItem;
}.

(** Documented behaviour of RLP: what is encoded is decoded again, and an
    encoding of a value is never empty. *)
Class RlpLaws {R : RlpLib} : Prop := {
  rlp_trx_roundtrip : forall m bz, rlp_EncodeTrx m = inr bz -> rlp_DecodeTrx bz = inr m;
  rlp_item_roundtrip : forall i bz, rlp_EncodeItem i = inr bz -> rlp_DecodeItem (shape_of i) bz = inr i;
  rlp_item_nonempty : forall i bz, rlp_EncodeItem i = inr bz -> bz <> [];
}.

(** The prefix of every signed message: the byte 0x19, then
    [RIGO(chainId) Signed Message:], a line feed and the length in decimal. *)
Definition sign_prefix (chainId : string) (len : Z) : bytes :=
  [Byte.x19] ++ String.list_byte_of_string "RIGO(" ++ String.list_byte_of_string chainId
  ++ String.list_byte_of_string ") Signed Message:" ++ [Byte.x0a]
  ++ String.list_byte_of_string (dec_digits 20 len "").

Section TrxCodec.
Context {CU : Codec TrxPayloadUnstakingProto} {CW : Codec TrxPayloadWithdrawProto}
        {CP : Codec TrxPayloadProposalProto} {CV : Codec TrxPayloadVotingProto}
        {CC : Codec TrxPayloadContractProto} {CS : Codec TrxPayloadSetDocProto} {CT : Codec TrxProto}.

(** ** Protobuf *)
Definition of_marshal (r : string + list Byte.byte) : outcome bytes :=
  match r with inl msg => Err (NewOrdinary msg) | inr bz => Ret bz end.

Definition encode_Unstaking (TxHash : list Byte.byte) : outcome bytes := of_marshal (codec_Marshal (mkUnstakingProto TxHash)).
Definition encode_Withdraw (ReqAmt : Z) : outcome bytes := of_marshal (codec_Marshal (mkWithdrawProto (u256_Bytes ReqAmt))).
Definition encode_Proposal (p : TrxPayloadProposal) : outcome bytes :=
  of_marshal (codec_Marshal (mkProposalProto (pp_Message p) (pp_StartVotingHeight p) (pp_VotingPeriodBlocks p)
                               (pp_ApplyingHeight p) (pp_OptType p) (pp_Options p))).
Definition encode_Voting (TxHash : list Byte.byte) (Choice : Z) : outcome bytes := of_marshal (codec_Marshal (mkVotingProto TxHash Choice)).
Definition encode_Contract (Data : list Byte.byte) : outcome bytes := of_marshal (codec_Marshal (mkContractProto Data)).
Definition encode_SetDoc (Name URL : string) : outcome bytes := of_marshal (codec_Marshal (mkSetDocProto Name URL)).

Definition payload_Encode (p : ITrxPayload) : outcome bytes :=
  match p with
  | PayloadAssetTransfer | PayloadStaking => Ret []
  | PayloadUnstaking h => encode_Unstaking h
  | PayloadWithdraw a => encode_Withdraw a
  | PayloadProposal p => encode_Proposal p
  | PayloadVoting h c => encode_Voting h c
  | PayloadContract d => encode_Contract d
  | PayloadSetDoc n u => encode_SetDoc n u
  end.

Definition of_unmarshal {M A} (r : string + M) (f : M -> A) : outcome A :=
  match r with inl msg => Err (NewOrdinary msg) | inr m => Ret (f m) end.

Definition decode_Unstaking (bz : bytes) : outcome ITrxPayload :=
  of_unmarshal (codec_Unmarshal bz) (fun m => PayloadUnstaking (pu_TxHash m)).
Definition decode_Withdraw (bz : bytes) : outcome ITrxPayload :=
  of_unmarshal (codec_Unmarshal bz) (fun m => PayloadWithdraw (u256_SetBytes (pw_XReqAmt m))).
Definition decode_Proposal (bz : bytes) : outcome ITrxPayload :=
  of_unmarshal (codec_Unmarshal bz) (fun m => PayloadProposal
    (mkPayloadProposal (pr_Message m) (pr_StartVotingHeight m) (pr_VotingBlocks m) (pr_ApplyingHeight m)
       (pr_OptType m) (pr_Options m))).
Definition decode_Voting (bz : bytes) : outcome ITrxPayload :=
  of_unmarshal (codec_Unmarshal bz) (fun m => PayloadVoting (pv_TxHash m) (pv_Choice m)).
Definition decode_Contract (bz : bytes) : outcome ITrxPayload :=
  of_unmarshal (codec_Unmarshal bz) (fun m => PayloadContract (pc_XData m)).
Definition decode_SetDoc (bz : bytes) : outcome ITrxPayload :=
  of_unmarshal (codec_Unmarshal bz) (fun m => PayloadSetDoc (ps_Name m) (ps_Url m)).

Definition omap_outcome {A B} (f : A -> B) (o : outcome A) : outcome B :=
  match o with Ret a => Ret (f a) | Err e => Err e | Panic => Panic end.

Definition Trx_toProto (tx : Trx) : outcome TrxProto :=
  let payload := match tx_Payload tx with Some p => payload_Encode p | None => Ret [] end in
  omap_outcome (fun bz =>
    mkTrxProto (tx_Version tx) (tx_Time tx) (tx_Nonce tx) (tx_From tx) (tx_To tx) (u256_Bytes (tx_Amount tx))
      (tx_Gas tx) (u256_Bytes (tx_GasPrice tx)) (tx_Type tx) bz (tx_Sig tx)) payload.

(** The payload that [fromProto] reads, by transaction type. *)
Definition payload_fromProto (ty : Z) (bz : bytes) : outcome (option ITrxPayload) :=
  if (ty =? TRX_TRANSFER) || (ty =? TRX_STAKING) then Ret None
  else if ty =? TRX_UNSTAKING then omap_outcome Some (decode_Unstaking bz)
  else if ty =? TRX_WITHDRAW then omap_outcome Some (decode_Withdraw bz)
  else if ty =? TRX_PROPOSAL then omap_outcome Some (decode_Proposal bz)
  else if ty =? TRX_VOTING then omap_outcome Some (decode_Voting bz)
  else if ty =? TRX_CONTRACT then omap_outcome Some (decode_Contract bz)
  else if ty =? TRX_SETDOC then omap_outcome Some (decode_SetDoc bz)
  else Err ErrInvalidTrxPayloadType.

Definition Trx_fromProto (pm : TrxProto) : outcome Trx :=
  omap_outcome (fun payload =>
    mkTrx (px_Version pm) (px_Time pm) (px_Nonce pm) (px_From pm) (px_To pm) (u256_SetBytes (px_XAmount pm))
      (px_Gas pm) (u256_SetBytes (px_XGasPrice pm)) (px_Type pm) payload (px_Sig pm))
    (payload_fromProto (px_Type pm) (px_XPayload pm)).

Definition Trx_Encode (tx : Trx) : outcome bytes :=
  match Trx_toProto tx with
  | Ret pm => of_marshal (codec_Marshal pm)
  | Err e => Err (NewOrdinary (ErrorText e))
  | Panic => Panic
  end.

Definition Trx_Decode (bz : bytes) : outcome Trx :=
  match codec_Unmarshal bz with
  | inl msg => Err (NewOrdinary msg)
  | inr pm => Trx_fromProto pm
  end.
End TrxCodec.

(** ** RLP *)
Section TrxRlp.
Context {R : RlpLib}.

(** [EncodeRLP] and [DecodeRLP] of the payloads. *)
Definition encodeRLP_Unstaking (TxHash : list Byte.byte) : string + list Byte.byte := rlp_EncodeItem (RBytes TxHash).
Definition encodeRLP_Withdraw (ReqAmt : Z) : string + list Byte.byte := rlp_EncodeItem (RBytes (u256_Bytes ReqAmt)).
Definition encodeRLP_Proposal (p : TrxPayloadProposal) : string + list Byte.byte :=
  rlp_EncodeItem (RProposal (pp_Message p) (u64 (pp_StartVotingHeight p)) (u64 (pp_VotingPeriodBlocks p))
                    (u64 (pp_ApplyingHeight p)) (wrap_u 32 (pp_OptType p)) (pp_Options p)).
Definition encodeRLP_Voting (TxHash : list Byte.byte) (Choice : Z) : string + list Byte.byte := rlp_EncodeItem (RVoting TxHash (wrap_u 32 Choice)).
Definition encodeRLP_Contract (Data : list Byte.byte) : string + list Byte.byte := rlp_EncodeItem (RBytes Data).
Definition encodeRLP_SetDoc (Name URL : string) : string + list Byte.byte := rlp_EncodeItem (RSetDoc Name URL).

(** The stream gives a value of the requested shape, or an error. *)
Definition rlp_get {A} (bz : bytes) (sh : rlpShape) (f : rlpItem -> option A) : string + A :=
  match rlp_DecodeItem sh bz with
  | inl e => inl e
  | inr i => match f i with Some p => inr p | None => inl "rlp"%string end
  end.
Definition stream_Bytes (bz : bytes) : string + list Byte.byte := rlp_get bz ShBytes (fun i => match i with RBytes b => Some b | _ => None end).

Definition decodeRLP_Unstaking (bz : bytes) : string + ITrxPayload :=
  match stream_Bytes bz with inl e => inl e | inr b => inr (PayloadUnstaking b) end.
Definition decodeRLP_Withdraw (bz : bytes) : string + ITrxPayload :=
  match stream_Bytes bz with inl e => inl e | inr b => inr (PayloadWithdraw (u256_SetBytes b)) end.
Definition decodeRLP_Proposal (bz : bytes) : string + ITrxPayload :=
  rlp_get bz ShProposal (fun i => match i with
    | RProposal m s p a o opts => Some (PayloadProposal (mkPayloadProposal m (i64 s) (i64 p) (i64 a) (i32 o) opts))
    | _ => None end).
Definition decodeRLP_Voting (bz : bytes) : string + ITrxPayload :=
  rlp_get bz ShVoting (fun i => match i with RVoting h c => Some (PayloadVoting h (i32 c)) | _ => None end).
Definition decodeRLP_Contract (bz : bytes) : string + ITrxPayload :=
  match stream_Bytes bz with inl e => inl e | inr b => inr (PayloadContract b) end.
Definition decodeRLP_SetDoc (bz : bytes) : string + ITrxPayload :=
  rlp_get bz ShSetDoc (fun i => match i with RSetDoc n u => Some (PayloadSetDoc n u) | _ => None end).

(** The transfer and staking payloads write and read nothing at all. *)
Definition payload_EncodeRLP (p : ITrxPayload) : string + list Byte.byte :=
  match p with
  | PayloadAssetTransfer | PayloadStaking => inr []
  | PayloadUnstaking h => encodeRLP_Unstaking h
  | PayloadWithdraw a => encodeRLP_Withdraw a
  | PayloadProposal p => encodeRLP_Proposal p
  | PayloadVoting h c => encodeRLP_Voting h c
  | PayloadContract d => encodeRLP_Contract d
  | PayloadSetDoc n u => encodeRLP_SetDoc n u
  end.

Definition payload_DecodeRLP (ty : Z) (bz : bytes) : string + ITrxPayload :=
  if ty =? TRX_TRANSFER then inr PayloadAssetTransfer
  else if ty =? TRX_STAKING then inr PayloadStaking
  else if ty =? TRX_UNSTAKING then decodeRLP_Unstaking bz
  else if ty =? TRX_WITHDRAW then decodeRLP_Withdraw bz
  else if ty =? TRX_PROPOSAL then decodeRLP_Proposal bz
  else if ty =? TRX_VOTING then decodeRLP_Voting bz
  else if ty =? TRX_CONTRACT then decodeRLP_Contract bz
  else if ty =? TRX_SETDOC then decodeRLP_SetDoc bz
  else inl (ErrorText ErrInvalidTrxPayloadType).

Definition EncodeRLP (tx : Trx) : string + list Byte.byte :=
  match (match tx_Payload tx with Some p => payload_EncodeRLP p | None => inr [] end) with
  | inl e => inl e
  | inr payload =>
      rlp_EncodeTrx (mkTrxRPL (u64 (tx_Version tx)) (u64 (tx_Time tx)) (tx_Nonce tx) (tx_From tx) (tx_To tx)
        (u256_Bytes (tx_Amount tx)) (u64 (tx_Gas tx)) (u256_Bytes (tx_GasPrice tx)) (u64 (tx_Type tx)) payload (tx_Sig tx))
  end.

Definition DecodeRLP (bz : bytes) : string + Trx :=
  match rlp_DecodeTrx bz with
  | inl e => inl e
  | inr rtx =>
      let mk payload := mkTrx (wrap_u 32 (rl_Version rtx)) (i64 (rl_Time rtx)) (rl_Nonce rtx) (rl_From rtx) (rl_To rtx)
        (u256_SetBytes (rl_Amount rtx)) (rl_Gas rtx) (u256_SetBytes (rl_GasPrice rtx)) (i32 (rl_Type rtx)) payload (rl_Sig rtx) in
      match rl_Payload rtx with
      | [] => inr (mk None)
      | _ => match payload_DecodeRLP (i32 (rl_Type rtx)) (rl_Payload rtx) with
             | inl e => inl e
             | inr p => inr (mk (Some p))
             end
      end
  end.

(** ** Signatures *)
Context {SL : EthCrypto}.

(** The signature field is cleared while the pre-image is built. *)
Definition PreImageToSignTrxRLP (tx : Trx) (chainId : string) : XError + list Byte.byte :=
  match EncodeRLP (set_Sig [] tx) with
  | inl e => inl (NewOrdinary e)
  | inr bz => inr (sign_prefix chainId (Z.of_nat (length bz)) ++ bz)
  end.

Definition VerifyTrxRLP (tx : Trx) (chainId : string) : outcome (list Byte.byte * list Byte.byte) :=
  match PreImageToSignTrxRLP tx chainId with
  | inl e => Err e
  | inr preimg =>
      match Sig2Addr preimg (tx_Sig tx) with
      | Err e => Err (Wrap ErrInvalidTrxSig (xcause e))
      | Panic => Panic
      | Ret (fromAddr, pubKey) =>
          if Compare fromAddr (tx_From tx) =? 0 then Ret (fromAddr, pubKey)
          else Err (Wrap ErrInvalidTrxSig (plainerr "wrong address or sig - expected: %v, actual: %v"))
      end
  end.
End TrxRlp.

Section TrxProtoSign.
Context {CU : Codec TrxPayloadUnstakingProto} {CW : Codec TrxPayloadWithdrawProto}
        {CP : Codec TrxPayloadProposalProto} {CV : Codec TrxPayloadVotingProto}
        {CC : Codec TrxPayloadContractProto} {CS : Codec TrxPayloadSetDocProto} {CT : Codec TrxProto}.
Context {SL : EthCrypto}.

Definition PreImageToSignTrxProto (tx : Trx) (chainId : string) : outcome bytes :=
  omap_outcome (fun bz => sign_prefix chainId (Z.of_nat (length bz)) ++ bz) (Trx_Encode (set_Sig [] tx)).

Definition VerifyTrxProto (tx : Trx) (chainId : string) : outcome (list Byte.byte * list Byte.byte) :=
  match PreImageToSignTrxProto tx chainId with
  | Err e => Err e
  | Panic => Panic
  | Ret preimg =>
      match Sig2Addr preimg (tx_Sig tx) with
      | Err e => Err (Wrap ErrInvalidTrxSig (xcause e))
      | Panic => Panic
      | Ret (fromAddr, pubKey) =>
          if Compare fromAddr (tx_From tx) =? 0 then Ret (fromAddr, pubKey)
          else Err (Wrap ErrInvalidTrxSig (plainerr "wrong address or sig - expected: %v, actual: %v"))
      end
  end.
End TrxProtoSign.
