(* ===== verification/TrxProps.v ===== *)
(** * Theorems about transactions

    Equality, the round trip through the protobuf form, and the message that is
    signed: it determines the transaction, and a correct signature verifies. *)

From Stdlib Require Import Strings.Byte.
From S2P Require Import Prelude Xerrors GoSem Bytes Crypto Ledger Concrete GovParams Trx.

(** ** Ranges and well-formedness *)
Definition is_u32 (z : Z) : Prop := 0 <= z < 2 ^ 32.

Definition payload_range (p : ITrxPayload) : Prop :=
  match p with
  | PayloadWithdraw a => is_u256 a
  | PayloadProposal p => is_i64 (pp_StartVotingHeight p) /\ is_i64 (pp_VotingPeriodBlocks p) /\
                         is_i64 (pp_ApplyingHeight p) /\ is_i32 (pp_OptType p)
  | PayloadVoting _ c => is_i32 c
  | _ => True
  end.

(** Every field is within its Go type. *)
Definition trx_range (tx : Trx) : Prop :=
  is_u32 (tx_Version tx) /\ is_i64 (tx_Time tx) /\ is_u64 (tx_Nonce tx) /\ is_u256 (tx_Amount tx) /\
  is_u64 (tx_Gas tx) /\ is_u256 (tx_GasPrice tx) /\ is_i32 (tx_Type tx) /\
  (forall p, tx_Payload tx = Some p -> payload_range p).

(** The payload is that of the transaction type; only transfer and staking
    transactions may lack one. *)
Definition trx_typed (tx : Trx) : Prop :=
  match tx_Payload tx with
  | Some p => tx_Type tx = payload_Type p
  | None => tx_Type tx = TRX_TRANSFER \/ tx_Type tx = TRX_STAKING
  end.

Definition empty_payload (p : option ITrxPayload) : bool :=
  match p with Some PayloadAssetTransfer | Some PayloadStaking | None => true | _ => false end.

(** What a receiver sees: an empty payload is dropped. *)
Definition canonical (tx : Trx) : Trx :=
  if empty_payload (tx_Payload tx) then set_Payload None tx else tx.

Definition proposal_proto_range (m : TrxPayloadProposalProto) : Prop :=
  is_i64 (pr_StartVotingHeight m) /\ is_i64 (pr_VotingBlocks m) /\ is_i64 (pr_ApplyingHeight m) /\ is_i32 (pr_OptType m).
Definition voting_proto_range (m : TrxPayloadVotingProto) : Prop := is_i32 (pv_Choice m).
Definition trx_proto_range (m : TrxProto) : Prop :=
  is_u32 (px_Version m) /\ is_i64 (px_Time m) /\ is_u64 (px_Nonce m) /\ is_u64 (px_Gas m) /\ is_i32 (px_Type m).

(** ** Equality *)
Lemma compare_refl b : (Compare b b =? 0) = true.
Proof. apply Z.eqb_eq. by apply compare_eq. Qed.

Lemma compare_eqb a b : (Compare a b =? 0) = true <-> a = b.
Proof. rewrite Z.eqb_eq. apply compare_eq. Qed.

Lemma options_equal_iff l l' : options_Equal l l' = true <-> l = l'.
Proof.
  revert l'. induction l as [|d l IH]; intros [|d' l']; cbn; try done.
  rewrite andb_true_iff, compare_eqb, IH. split; [by intros [-> ->]|by intros [= -> ->]].
Qed.

Lemma proposal_equal_iff a b : proposal_Equal a b = true <-> a = b.
Proof.
  unfold proposal_Equal. rewrite !andb_true_iff, !Z.eqb_eq, bool_decide_eq_true, options_equal_iff.
  destruct a, b; cbn. split; [|by intros [= -> -> -> -> -> ->]].
  intros [[[[[-> ->] ->] ->] ->] ->]. done.
Qed.

Lemma payload_equal_refl p : payload_Equal p (Some p) = true.
Proof.
  destruct p; cbn; rewrite ?compare_refl, ?Z.eqb_refl; try done.
  - by apply proposal_equal_iff.
  - by rewrite !bool_decide_eq_true_2.
Qed.

Lemma payload_equal_iff p q :
  payload_Equal p q = true <-> q = Some p \/ empty_payload (Some p) = true.
Proof.
  split.
  - destruct p, q as [[]|]; cbn; auto; try done;
      rewrite ?andb_true_iff, ?compare_eqb, ?Z.eqb_eq, ?bool_decide_eq_true, ?proposal_equal_iff;
      intros; destruct_and?; subst; auto.
  - intros [->|He]; [apply payload_equal_refl|]. by destruct p, q.
Qed.

Lemma trx_equal_iff tx tx' :
  Trx_Equal tx tx' = true <->
  tx' = set_Payload (tx_Payload tx') tx /\
  (tx_Payload tx' = tx_Payload tx \/ exists p, tx_Payload tx = Some p /\ empty_payload (Some p) = true).
Proof.
  unfold Trx_Equal. rewrite !andb_true_iff, !Z.eqb_eq, !compare_eq.
  destruct tx as [v ti n f t a g gp ty p s], tx' as [v' ti' n' f' t' a' g' gp' ty' p' s']; cbn.
  assert (Hp : (match p with Some q => payload_Equal q p' | None => match p' with Some _ => false | None => true end end) = true
     <-> (p' = p \/ exists q, p = Some q /\ empty_payload (Some q) = true)).
  { destruct p as [q|].
    - rewrite payload_equal_iff. split; [intros [?|?]; eauto|]. intros [?|(q' & [= <-] & ?)]; auto.
    - destruct p'; split; try done; auto. by intros [?|(? & ? & ?)]. }
  rewrite Hp. unfold set_Payload; cbn. split.
  - intros [(((((((((-> & ->) & ->) & ->) & ->) & ->) & ->) & ->) & ->) & ->) H]. done.
  - intros [[= -> -> -> -> -> -> -> -> -> ->] H]. by split_and!.
Qed.

(** [Trx.Equal] decides equality of all fields, with one exception: a
    transaction with an empty payload object (transfer, staking) equals any
    transaction with the same remaining fields, whatever its payload.  It is
    therefore reflexive but not symmetric. *)
Theorem trx_equal_spec :
  (forall tx tx', empty_payload (tx_Payload tx) = false \/ tx_Payload tx = None ->
     Trx_Equal tx tx' = true <-> tx' = tx) /\
  (forall tx, Trx_Equal tx tx = true) /\
  (exists tx tx', Trx_Equal tx tx' = true /\ Trx_Equal tx' tx = false).
Proof.
  assert (Hid : forall tx, set_Payload (tx_Payload tx) tx = tx) by (by intros []).
  split_and!.
  - intros tx tx' Hp. rewrite trx_equal_iff. split.
    + intros [Htx [Heq|(p & Hs & He)]]; [by rewrite Htx, Heq, Hid|].
      destruct Hp as [Hp|Hp]; congruence.
    + intros ->. rewrite Hid. auto.
  - intros tx. rewrite trx_equal_iff, Hid. auto.
  - exists (mkTrx 1 0 0 [] [] 0 0 0 1 (Some PayloadAssetTransfer) []), (mkTrx 1 0 0 [] [] 0 0 0 1 None []).
    done.
Qed.

(** ** The protobuf form *)
Section ProtoRoundtrip.
Context {CU : Codec TrxPayloadUnstakingProto} {CW : Codec TrxPayloadWithdrawProto}
        {CP : Codec TrxPayloadProposalProto} {CV : Codec TrxPayloadVotingProto}
        {CC : Codec TrxPayloadContractProto} {CS : Codec TrxPayloadSetDocProto} {CT : Codec TrxProto}.
Context {LU : CodecLaws TrxPayloadUnstakingProto (fun _ => True)}
        {LW : CodecLaws TrxPayloadWithdrawProto (fun _ => True)}
        {LP : CodecLaws TrxPayloadProposalProto proposal_proto_range}
        {LV : CodecLaws TrxPayloadVotingProto voting_proto_range}
        {LC : CodecLaws TrxPayloadContractProto (fun _ => True)}
        {LS : CodecLaws TrxPayloadSetDocProto (fun _ => True)}
        {LT : CodecLaws TrxProto trx_proto_range}.

Lemma of_marshal_ret r bz : of_marshal r = Ret bz -> r = inr bz.
Proof. destruct r; cbn; [done|]. by intros [= ->]. Qed.

Lemma payload_roundtrip p bz :
  payload_range p -> payload_Encode p = Ret bz ->
  payload_fromProto (payload_Type p) bz = Ret (if empty_payload (Some p) then None else Some p).
Proof.
  intros Hr. destruct p as [| |h|a|p|h c|d|n u]; cbn [payload_Encode payload_range] in *; try done.
  all: intros Hm%of_marshal_ret; cbn [payload_Type]; unfold payload_fromProto; cbn [TRX_TRANSFER TRX_STAKING TRX_UNSTAKING TRX_WITHDRAW TRX_PROPOSAL TRX_VOTING TRX_CONTRACT TRX_SETDOC Z.eqb Pos.eqb orb];
    unfold decode_Unstaking, decode_Withdraw, decode_Proposal, decode_Voting, decode_Contract, decode_SetDoc.
  - by rewrite (codec_roundtrip _ _ I Hm).
  - rewrite (codec_roundtrip _ _ I Hm). cbn [of_unmarshal pw_XReqAmt omap_outcome empty_payload]. by rewrite u256_set_bytes.
  - rewrite (codec_roundtrip (codec_valid := proposal_proto_range) _ _ (Hr : proposal_proto_range (mkProposalProto _ _ _ _ _ _)) Hm). by destruct p.
  - by rewrite (codec_roundtrip (codec_valid := voting_proto_range) _ _ (Hr : voting_proto_range (mkVotingProto _ _)) Hm).
  - by rewrite (codec_roundtrip _ _ I Hm).
  - by rewrite (codec_roundtrip _ _ I Hm).
Qed.

Lemma trx_decode_encode (tx : Trx) (bz : bytes) :
  trx_range tx -> trx_typed tx -> Trx_Encode tx = Ret bz -> Trx_Decode bz = Ret (canonical tx).
Proof.
  intros (Hv & Ht & Hn & Ha & Hg & Hgp & Hty & Hp) Htyped Henc. unfold Trx_Encode, Trx_toProto in Henc. unfold trx_typed in Htyped.
  set (pl := match tx_Payload tx with Some p => payload_Encode p | None => Ret [] end) in Henc.
  destruct pl as [pbz|e|] eqn:Epl; cbn [omap_outcome] in Henc; [|done|done].
  apply of_marshal_ret in Henc. unfold Trx_Decode.
  rewrite (fun H => codec_roundtrip (codec_valid := trx_proto_range) _ _ H Henc) by (by split_and!).
  unfold Trx_fromProto. cbn [px_Type px_XPayload].
  assert (Hpf : payload_fromProto (tx_Type tx) pbz = Ret (tx_Payload (canonical tx))).
  { unfold canonical. destruct (tx_Payload tx) as [p|] eqn:Ep.
    - rewrite Htyped, (payload_roundtrip p pbz (Hp p eq_refl) Epl). by destruct (empty_payload (Some p)) eqn:E; rewrite ?E, ?Ep.
    - cbn. by destruct Htyped as [-> | ->]. }
  rewrite Hpf. cbn [omap_outcome px_Version px_Time px_Nonce px_From px_To px_XAmount px_Gas px_XGasPrice px_Sig px_Type].
  rewrite !u256_set_bytes by done. f_equal. unfold canonical. by destruct tx as [? ? ? ? ? ? ? ? ? [[]|] ?].
Qed.

(** A transaction survives the wire.  Encoding an in-range transaction
    whose payload matches its type and decoding the bytes gives the same
    transaction (with the empty payload object of transfer and staking
    transactions dropped), and the original [Equal]s the decoded one. *)
Theorem trx_proto_roundtrip (tx : Trx) (bz : bytes) :
  trx_range tx -> trx_typed tx -> Trx_Encode tx = Ret bz ->
  Trx_Decode bz = Ret (canonical tx) /\ Trx_Equal tx (canonical tx) = true.
Proof.
  intros Hr Htyped Henc. split; [by apply trx_decode_encode|].
  rewrite trx_equal_iff. unfold canonical. destruct (empty_payload (tx_Payload tx)) eqn:E.
  - split; [done|]. cbn. destruct (tx_Payload tx) as [p|] eqn:Ep; [right; eauto|by left].
  - split; [by destruct tx|by left].
Qed.
End ProtoRoundtrip.

(** ** The signed message *)
Lemma length_list_byte s : length (String.list_byte_of_string s) = String.length s.
Proof.
  induction s as [|c s IH]; [done|]. cbn [String.length]. rewrite <- IH.
  unfold String.list_byte_of_string. cbn [String.list_ascii_of_string map length]. done.
Qed.

Lemma sign_prefix_length c l l' :
  0 <= l <= l' -> (length (sign_prefix c l) <= length (sign_prefix c l'))%nat.
Proof.
  intros H. unfold sign_prefix. rewrite !length_app, !length_list_byte.
  pose proof (dec_digits_length 20 l l' "" "" H ltac:(lia)). lia.
Qed.

Lemma sign_prefix_inj c (b b' : bytes) :
  sign_prefix c (Z.of_nat (length b)) ++ b = sign_prefix c (Z.of_nat (length b')) ++ b' -> b = b'.
Proof.
  intros H. assert (Hl : length b = length b').
  { pose proof (f_equal length H) as Hlen. rewrite !length_app in Hlen.
    destruct (Nat.lt_trichotomy (length b) (length b')) as [Hlt|[He|Hlt]]; [|done|].
    - pose proof (sign_prefix_length c (Z.of_nat (length b)) (Z.of_nat (length b')) ltac:(lia)). lia.
    - pose proof (sign_prefix_length c (Z.of_nat (length b')) (Z.of_nat (length b)) ltac:(lia)). lia. }
  rewrite Hl in H. by apply app_inv_head in H.
Qed.

(** A chain id without a line feed; the length of the message follows the first
    line feed of the prefix. *)
Definition one_line (chain : string) : Prop := Byte.x0a ∉ String.list_byte_of_string chain.
#[export] Instance one_line_dec chain : Decision (one_line chain).
Proof. unfold one_line. apply _. Defined.

Lemma split_first {A} (x : A) l1 l2 r1 r2 : x ∉ l1 -> x ∉ l2 -> l1 ++ x :: r1 = l2 ++ x :: r2 -> l1 = l2.
Proof.
  revert l2. induction l1 as [|y l1 IH]; intros [|z l2] H1 H2; cbn; intros He; try done.
  - injection He as -> _. by destruct H2; left.
  - injection He as -> _. by destruct H1; left.
  - injection He as -> He. f_equal. apply IH; [|..|done]; intros Hx; [destruct H1|destruct H2]; by right.
Qed.

Lemma sign_prefix_chain c c' l l' (b b' : bytes) :
  one_line c -> one_line c' -> sign_prefix c l ++ b = sign_prefix c' l' ++ b' -> c = c'.
Proof.
  intros Hc Hc'. unfold sign_prefix. set (msg := String.list_byte_of_string ") Signed Message:"). set (pre := String.list_byte_of_string "RIGO(").
  assert (Hmsg : Byte.x0a ∉ msg) by (apply (bool_decide_unpack _); vm_compute; exact I). clearbody msg pre.
  generalize (String.list_byte_of_string (dec_digits 20 l "")) (String.list_byte_of_string (dec_digits 20 l' "")). intros d d' H.
  rewrite <- !app_assoc in H. do 2 apply app_inv_head in H. rewrite !(app_assoc _ msg) in H. cbn [app] in H.
  apply split_first in H; [|rewrite elem_of_app; intros [?|?]; [by apply Hc|by apply Hmsg]|rewrite elem_of_app; intros [?|?]; [by apply Hc'|by apply Hmsg]].
  apply app_inv_tail in H. by rewrite <- (String.string_of_list_byte_of_string c), H, String.string_of_list_byte_of_string.
Qed.

Lemma wrap_u32_i32 z : is_i32 z -> i32 (wrap_u 32 z) = z.
Proof.
  unfold is_i32, i32, wrap_s, wrap_u. intros H.
  replace ((z mod 2 ^ 32 + 2 ^ (32 - 1)) mod 2 ^ 32) with ((z + 2 ^ (32 - 1)) mod 2 ^ 32)
    by (by rewrite Zplus_mod_idemp_l).
  rewrite Z.mod_small; lia.
Qed.

Lemma i64_u64 z : is_i64 z -> i64 (u64 z) = z.
Proof.
  unfold is_i64, i64, u64, wrap_s, wrap_u. intros H. rewrite Zplus_mod_idemp_l. rewrite Z.mod_small; lia.
Qed.

(** Sign extension to 64 bits and truncation to 32. *)
Lemma i32_u64 z : is_i32 z -> i32 (u64 z) = z.
Proof.
  unfold is_i32, i32, u64, wrap_s, wrap_u. intros H.
  assert (Hm : (z mod 2 ^ 64 + 2 ^ (32 - 1)) mod 2 ^ 32 = (z + 2 ^ (32 - 1)) mod 2 ^ 32).
  { rewrite Zplus_mod, <- Znumtheory.Zmod_div_mod, <- Zplus_mod; [done|lia|lia|]. exists (2 ^ 32). lia. }
  rewrite Hm, Z.mod_small; lia.
Qed.

Section Signing.
Context {R : RlpLib} {RL : RlpLaws} {SL : EthCrypto} {SLL : EthCryptoLaws}.

Lemma payload_rlp_roundtrip p bz :
  payload_range p -> payload_EncodeRLP p = inr bz -> empty_payload (Some p) = false ->
  bz <> [] /\ payload_DecodeRLP (payload_Type p) bz = inr p.
Proof.
  intros Hr He Hne. destruct p as [| |h|a|p|h c|d|n u]; try done; cbn [payload_EncodeRLP payload_range] in *;
    (split; [by eapply rlp_item_nonempty|]); pose proof (rlp_item_roundtrip _ _ He) as Hd; cbn [shape_of] in Hd;
    cbn; unfold decodeRLP_Unstaking, decodeRLP_Withdraw, decodeRLP_Proposal, decodeRLP_Voting, decodeRLP_Contract, decodeRLP_SetDoc, stream_Bytes, rlp_get; rewrite Hd; cbn; try done.
  - by rewrite u256_set_bytes.
  - destruct Hr as (? & ? & ? & ?). rewrite !i64_u64, wrap_u32_i32 by done. by destruct p.
  - by rewrite wrap_u32_i32.
Qed.

(** Decoding the RLP form gives the transaction back. *)
Lemma trx_rlp_roundtrip (tx : Trx) (bz : bytes) :
  trx_range tx -> trx_typed tx -> EncodeRLP tx = inr bz -> DecodeRLP bz = inr (canonical tx).
Proof.
  intros (Hv & Ht & Hn & Ha & Hg & Hgp & Hty & Hp) Htyped Henc.
  unfold EncodeRLP in Henc. unfold trx_typed in Htyped.
  destruct (match tx_Payload tx with Some p => payload_EncodeRLP p | None => inr [] end) as [|pbz] eqn:Epl; [done|].
  unfold DecodeRLP. rewrite (rlp_trx_roundtrip _ _ Henc).
  cbn [rl_Version rl_Time rl_Nonce rl_From rl_To rl_Amount rl_Gas rl_GasPrice rl_Type rl_Payload rl_Sig].
  assert (Hver : wrap_u 32 (u64 (tx_Version tx)) = tx_Version tx).
  { unfold is_u32 in Hv. rewrite u64_id by (unfold is_u64; lia). unfold wrap_u. rewrite Z.mod_small; lia. }
  rewrite Hver, (u64_id (tx_Gas tx)) by done. rewrite i64_u64, i32_u64, !u256_set_bytes by done.
  destruct (empty_payload (tx_Payload tx)) eqn:Ee.
  - assert (pbz = []) as -> by (destruct (tx_Payload tx) as [[]|]; cbn in *; congruence).
    unfold canonical. by rewrite Ee.
  - destruct (tx_Payload tx) as [p|] eqn:Ep; [|done].
    destruct (payload_rlp_roundtrip p pbz (Hp p eq_refl) Epl Ee) as [Hne Hd].
    rewrite Htyped, Hd. destruct pbz; [done|]. unfold canonical. rewrite Ep, Ee. f_equal. destruct tx; cbn in *. congruence.
Qed.

(** C39: the signed message determines the transaction and the chain.  If two
    in-range, well-typed transactions have the same signing pre-image for two
    chains, whose ids, if they are not the same, have no line feed, then the
    chains are the same and the transactions agree on every field but the
    signature (and an empty payload object): a signature cannot be moved to
    another chain, nor to a transaction with another sender, nonce, receiver,
    amount, fee or payload. *)
Theorem preimage_injective (tx tx' : Trx) (chain chain' : string) (m : bytes) :
  trx_range tx -> trx_typed tx -> trx_range tx' -> trx_typed tx' -> (chain <> chain' -> one_line chain /\ one_line chain') ->
  PreImageToSignTrxRLP tx chain = inr m -> PreImageToSignTrxRLP tx' chain' = inr m ->
  chain = chain' /\ canonical (set_Sig [] tx) = canonical (set_Sig [] tx').
Proof.
  intros Hr Ht Hr' Ht' Hl. unfold PreImageToSignTrxRLP.
  destruct (EncodeRLP (set_Sig [] tx)) as [|b] eqn:E; [done|].
  destruct (EncodeRLP (set_Sig [] tx')) as [|b'] eqn:E'; [discriminate|].
  intros <-%(inj inr) H%(inj inr). assert (chain = chain') as <-.
  { destruct (decide (chain = chain')) as [|Hne]; [done|]. destruct (Hl Hne) as [H1 H2]. by eapply sign_prefix_chain. }
  apply sign_prefix_inj in H. subst b'. split; [done|].
  apply trx_rlp_roundtrip in E; [|done|done]. apply trx_rlp_roundtrip in E'; [|done|done]. congruence.
Qed.

(** Signatures.  Let a transaction be signed with a private key over its
    pre-image for a chain.  If its sender is the address of that key,
    [VerifyTrxRLP] accepts it for that chain with that address and public key;
    otherwise it fails with the invalid-transaction code. *)
Theorem sign_verify (prv : PrivateKey) (tx : Trx) (chain : string) (m sig : list Byte.byte) :
  PreImageToSignTrxRLP tx chain = inr m -> Sign m prv = Ret sig ->
  let addr := addr_of (public_of prv) in
  if decide (tx_From tx = addr) then VerifyTrxRLP (set_Sig sig tx) chain = Ret (addr, CompressPubkey (public_of prv))
  else exists e, VerifyTrxRLP (set_Sig sig tx) chain = Err e /\ Code e = ErrCodeInvalidTrx.
Proof.
  intros Hm Hsig addr. assert (Hpre : PreImageToSignTrxRLP (set_Sig sig tx) chain = inr m) by exact Hm.
  unfold VerifyTrxRLP. rewrite Hpre. cbn [tx_Sig set_Sig tx_From]. rewrite (sig2addr_sign m prv sig Hsig). fold addr. case_decide as Hf.
  - by rewrite Hf, compare_refl.
  - destruct (Compare addr (tx_From tx) =? 0) eqn:E; [|by eexists]. apply compare_eqb in E. congruence.
Qed.
End Signing.

(** ** Concrete libraries and witnesses *)
#[export] Instance TrxPayloadUnstakingProto_eq_dec : EqDecision TrxPayloadUnstakingProto.
Proof. solve_decision. Defined.
#[export] Program Instance TrxPayloadUnstakingProto_countable : Countable TrxPayloadUnstakingProto :=
  inj_countable' (fun m => (pu_TxHash m))
    (fun v0 => mkUnstakingProto v0) _.
Next Obligation. by intros []. Qed.
#[export] Instance TrxPayloadWithdrawProto_eq_dec : EqDecision TrxPayloadWithdrawProto.
Proof. solve_decision. Defined.
#[export] Program Instance TrxPayloadWithdrawProto_countable : Countable TrxPayloadWithdrawProto :=
  inj_countable' (fun m => (pw_XReqAmt m))
    (fun v0 => mkWithdrawProto v0) _.
Next Obligation. by intros []. Qed.
#[export] Instance TrxPayloadProposalProto_eq_dec : EqDecision TrxPayloadProposalProto.
Proof. solve_decision. Defined.
#[export] Program Instance TrxPayloadProposalProto_countable : Countable TrxPayloadProposalProto :=
  inj_countable' (fun m => (pr_Message m, pr_StartVotingHeight m, pr_VotingBlocks m, pr_ApplyingHeight m, pr_OptType m, pr_Options m))
    (fun '(v0, v1, v2, v3, v4, v5) => mkProposalProto v0 v1 v2 v3 v4 v5) _.
Next Obligation. by intros []. Qed.
#[export] Instance TrxPayloadVotingProto_eq_dec : EqDecision TrxPayloadVotingProto.
Proof. solve_decision. Defined.
#[export] Program Instance TrxPayloadVotingProto_countable : Countable TrxPayloadVotingProto :=
  inj_countable' (fun m => (pv_TxHash m, pv_Choice m))
    (fun '(v0, v1) => mkVotingProto v0 v1) _.
Next Obligation. by intros []. Qed.
#[export] Instance TrxPayloadContractProto_eq_dec : EqDecision TrxPayloadContractProto.
Proof. solve_decision. Defined.
#[export] Program Instance TrxPayloadContractProto_countable : Countable TrxPayloadContractProto :=
  inj_countable' (fun m => (pc_XData m))
    (fun v0 => mkContractProto v0) _.
Next Obligation. by intros []. Qed.
#[export] Instance TrxPayloadSetDocProto_eq_dec : EqDecision TrxPayloadSetDocProto.
Proof. solve_decision. Defined.
#[export] Program Instance TrxPayloadSetDocProto_countable : Countable TrxPayloadSetDocProto :=
  inj_countable' (fun m => (ps_Name m, ps_Url m))
    (fun '(v0, v1) => mkSetDocProto v0 v1) _.
Next Obligation. by intros []. Qed.
#[export] Instance TrxProto_eq_dec : EqDecision TrxProto.
Proof. solve_decision. Defined.
#[export] Program Instance TrxProto_countable : Countable TrxProto :=
  inj_countable' (fun m => (px_Version m, px_Time m, px_Nonce m, px_From m, px_To m, px_XAmount m, px_Gas m, px_XGasPrice m, px_Type m, px_XPayload m, px_Sig m))
    (fun '(v0, v1, v2, v3, v4, v5, v6, v7, v8, v9, v10) => mkTrxProto v0 v1 v2 v3 v4 v5 v6 v7 v8 v9 v10) _.
Next Obligation. by intros []. Qed.
#[export] Instance trxRPL_eq_dec : EqDecision trxRPL.
Proof. solve_decision. Defined.
#[export] Program Instance trxRPL_countable : Countable trxRPL :=
  inj_countable' (fun m => (rl_Version m, rl_Time m, rl_Nonce m, rl_From m, rl_To m, rl_Amount m, rl_Gas m, rl_GasPrice m, rl_Type m, rl_Payload m, rl_Sig m))
    (fun '(v0, v1, v2, v3, v4, v5, v6, v7, v8, v9, v10) => mkTrxRPL v0 v1 v2 v3 v4 v5 v6 v7 v8 v9 v10) _.
Next Obligation. by intros []. Qed.

Definition votingTrx : Trx :=
  mkTrx 1 1700000000 7 (replicate 20 Byte.x01) (replicate 20 Byte.x00) 0 4000 250000000000 TRX_VOTING
        (Some (PayloadVoting (replicate 32 Byte.xaa) 1)) [Byte.x05].

Lemma votingTrx_range : trx_range votingTrx.
Proof.
  unfold trx_range, is_u32, is_u64, is_i64, is_i32, is_u256, votingTrx, TRX_VOTING.
  cbn [tx_Version tx_Time tx_Nonce tx_Amount tx_Gas tx_GasPrice tx_Type tx_Payload].
  split_and!; [lia..|]. intros p Hp. injection Hp as Hp. subst p. unfold payload_range, is_i32. lia.
Qed.

Lemma trx_proto_roundtrip_witness :
  let CU := countCodec TrxPayloadUnstakingProto in let CW := countCodec TrxPayloadWithdrawProto in
  let CP := countCodec TrxPayloadProposalProto in let CV := countCodec TrxPayloadVotingProto in
  let CC := countCodec TrxPayloadContractProto in let CS := countCodec TrxPayloadSetDocProto in
  let CT := countCodec TrxProto in
  exists bz, Trx_Encode votingTrx = Ret bz /\ Trx_Decode bz = Ret votingTrx.
Proof.
  intros CU CW CP CV CC CS CT. eexists. split; [reflexivity|].
  apply (@trx_proto_roundtrip CU CW CP CV CC CS CT (countCodec_laws _ _) (countCodec_laws _ _) (countCodec_laws _ _)
    (countCodec_laws _ _) (countCodec_laws _ _) (countCodec_laws _ _) (countCodec_laws _ _) votingTrx);
    [exact votingTrx_range|reflexivity|reflexivity].
Defined.

(** An RLP-like library: a tag byte and the countable encoding. *)
Definition item_tuple (i : rlpItem) : rlpShape * (list Byte.byte * (string * string) * (Z * Z * Z * Z) * list (list Byte.byte)) :=
  match i with
  | RBytes b => (ShBytes, (b, ("", "")%string, (0, 0, 0, 0), []))
  | RProposal m s p a o l => (ShProposal, ([], (m, ""%string), (s, p, a, o), l))
  | RVoting h c => (ShVoting, (h, ("", "")%string, (c, 0, 0, 0), []))
  | RSetDoc n u => (ShSetDoc, ([], (n, u), (0, 0, 0, 0), []))
  end.

Definition countRlp : RlpLib := {|
  rlp_EncodeTrx m := inr (count_encode m);
  rlp_DecodeTrx bz := match count_decode bz with Some m => inr m | None => inl "rlp"%string end;
  rlp_EncodeItem i := inr (Byte.xc0 :: count_encode (item_tuple i).2);
  rlp_DecodeItem sh bz :=
    match bz with
    | [] => inl "EOF"%string
    | _ :: bz' =>
        match count_decode bz' with
        | Some (b, (n, u), (s, p, a, o), l) =>
            inr (match sh with
                 | ShBytes => RBytes b
                 | ShProposal => RProposal n s p a o l
                 | ShVoting => RVoting b s
                 | ShSetDoc => RSetDoc n u
                 end)
        | None => inl "rlp"%string
        end
    end;
|}.

Lemma countRlp_laws : @RlpLaws countRlp.
Proof.
  constructor; cbn.
  - intros m bz [= <-]. by rewrite count_decode_encode.
  - intros i bz [= <-]. rewrite count_decode_encode. by destruct i.
  - by intros i bz [= <-].
Qed.

Lemma preimage_injective_witness :
  let R := countRlp in
  (exists m, PreImageToSignTrxRLP votingTrx "mainnet" = inr m /\
            canonical (set_Sig [] votingTrx) = canonical (set_Sig [] (set_Sig [Byte.x09] votingTrx))) /\
  PreImageToSignTrxRLP votingTrx "testnet" <> PreImageToSignTrxRLP votingTrx "mainnet".
Proof.
  intros R. split.
  - eexists. split; [reflexivity|].
    eapply (@preimage_injective R countRlp_laws votingTrx (set_Sig [Byte.x09] votingTrx) "mainnet" "mainnet");
      [exact votingTrx_range|reflexivity|exact votingTrx_range|reflexivity|by intros []|reflexivity|reflexivity].
  - intros H. assert (Hne : "mainnet" = "testnet"); [|discriminate Hne].
    eapply (@preimage_injective R countRlp_laws votingTrx votingTrx "mainnet" "testnet");
      [exact votingTrx_range|reflexivity|exact votingTrx_range|reflexivity| |reflexivity|rewrite H; reflexivity].
    intros _. split; apply (bool_decide_unpack (one_line _)); vm_compute; exact I.
Defined.

(** A toy signature scheme: the signature of a key is the key itself, its
    compressed form is filled up to 33 bytes and its address is the first 20. *)
Definition toyCrypto : EthCrypto := {|
  PrivateKey := list Byte.byte;
  PublicKey := list Byte.byte;
  public_of prv := prv;
  eth_Sign h prv := inr prv;
  eth_SigToPub h sig := inr sig;
  eth_CompressPubkey pub := take 33 (pub ++ replicate 33 Byte.x00);
  eth_VerifySignature pub h sig := bool_decide (take 20 pub = take 20 sig);
  tm_Address pub := take 20 pub;
  sha256 m := take 32 m;
|}.

Lemma toyCrypto_laws : @EthCryptoLaws toyCrypto.
Proof.
  constructor; cbn.
  - intros pub. rewrite length_take, length_app. cbn [length]. lia.
  - by intros h prv sig [= ->].
Qed.

Lemma sign_verify_witness :
  let R := countRlp in let S := toyCrypto in
  let key := replicate 20 Byte.x01 in
  VerifyTrxRLP (set_Sig key votingTrx) "mainnet" = Ret (key, key ++ replicate 13 Byte.x00).
Proof.
  intros R S key.
  exact (@sign_verify R S toyCrypto_laws key votingTrx "mainnet"
    match PreImageToSignTrxRLP votingTrx "mainnet" with inr m => m | inl _ => [] end key eq_refl eq_refl).
Defined.
