(* ===== verification/WalletKey.v ===== *)
(** * Encrypted key files: [types/crypto/wallet_key.go]

    A [WalletKey] holds a private key encrypted with a key derived from a
    passphrase, and in memory the private key itself while it is unlocked.  The
    private key and the text of the file are slices ([Slice.v]): locking
    overwrites the bytes of the key in place.  The ciphers and the curve are
    parameters; random bytes are arguments. *)

From Stdlib Require Import Strings.Byte.
From S2P Require Import Prelude Xerrors GoSem Bytes Crypto GovParams Slice FileIO.

(** [pbkdf2], AES in CBC mode (block by block, after the checks of [crypto/cipher]),
    Tendermint's and go-ethereum's secp256k1. *)
Class KeyLib := {
  pbkdf2_Key : list Byte.byte -> list Byte.byte -> Z -> Z -> list Byte.byte;
  cbc_encrypt : list Byte.byte -> list Byte.byte -> list Byte.byte -> list Byte.byte;
  cbc_decrypt : list Byte.byte -> list Byte.byte -> list Byte.byte -> list Byte.byte;
  tm_PubKey : list Byte.byte -> list Byte.byte;
  tm_Sign : list Byte.byte -> list Byte.byte -> string + list Byte.byte;
  ethec_Sign : list Byte.byte -> list Byte.byte -> string + list Byte.byte;
  ethec_VerifySignature : list Byte.byte -> list Byte.byte -> list Byte.byte -> bool;
}.

Definition aes_BlockSize : Z := 16.
(** [aes.NewCipher] *)
Definition aes_key_ok (sk : list Byte.byte) : bool :=
  ((length sk =? 16) || (length sk =? 24) || (length sk =? 32))%nat.

(** What the key files rely on. *)
Class KeyLibLaws {KL : KeyLib} : Prop := {
  pbkdf2_length : forall pass salt iter n, 0 <= n -> Z.of_nat (length (pbkdf2_Key pass salt iter n)) = n;
  cbc_length : forall sk iv l, length (cbc_encrypt sk iv l) = length l;
  cbc_inverse : forall sk iv l, aes_key_ok sk = true -> length iv = 16%nat -> Z.rem (len l) 16 = 0 ->
    cbc_decrypt sk iv (cbc_encrypt sk iv l) = l;
  pubkey_length : forall prv, length (tm_PubKey prv) = 33%nat;
}.

Record cipherTextParams : Type := mkCipherTextParams { ct_Algo : string; ct_Text : slice; ct_Iv : list Byte.byte; ct_Salt : list Byte.byte }.
Record dkParams : Type := mkDkParams { dk_Algo : string; dk_Prf : string; dk_Iter : Z; dk_Salt : list Byte.byte; dk_DkLen : Z }.

Record WalletKey : Type := mkWalletKey {
  wk_Version : Z;
  wk_Address : list Byte.byte;
  wk_Algo : string;
  CipherTextParams : option cipherTextParams;
  DKParams : option dkParams;
  wk_prvKey : option slice;
  wk_pubKey : list Byte.byte;
}.

(** The exported fields, which the JSON form holds. *)
Record WalletKeyJSON : Type := mkWalletKeyJSON {
  wj_Version : Z;
  wj_Address : list Byte.byte;
  wj_Algo : string;
  wj_cp : option (string * list Byte.byte * list Byte.byte * list Byte.byte);
  wj_dkp : option dkParams;
}.

Definition SymmAlgo : string := "aes-256-cbc".
Definition AsymmAlgo : string := "secp256k1".
Definition DKLEN : Z := 32.
Definition DefaultHasherName : string := "sha256".

Section WalletKey.
Context {EC : EthCrypto} {KL : KeyLib}.

(** [600000 + int(binary.BigEndian.Uint16(append([]byte{0x00}, salt[:1]...)))] *)
Definition iterations (salt : list Byte.byte) : Z := 600000 + be_value (Byte.x00 :: take 1 salt).

(** [NewCBCEncrypter] or [NewCBCDecrypter], then [CryptBlocks]. *)
Definition crypt_blocks (f : list Byte.byte -> list Byte.byte -> list Byte.byte -> list Byte.byte) (sk iv l : list Byte.byte) : outcome (list Byte.byte) :=
  if negb (length iv =? 16)%nat then Panic
  else if negb (Z.rem (len l) aes_BlockSize =? 0) then Panic
  else Ret (f sk iv l).

(** Any error panics. *)
Definition must {S A} (m : GoM S A) : GoM S A :=
  let! r := tryM m in match r with inl _ => panicM | inr a => retM a end.

(** The encryption with a passphrase, which [NewWalletKeyWith] and [LockWith]
    do in the same way. *)
Definition seal (keyBytes : slice) (pass salt iv : list Byte.byte) : GoM mem (dkParams * cipherTextParams) :=
  let iter := iterations salt in
  let sk := pbkdf2_Key pass salt iter DKLEN in
  let dk := mkDkParams "pbkdf2" DefaultHasherName iter salt DKLEN in
  if negb (aes_key_ok sk) then panicM else
  let! plaintext := must (PKCS7Padding_in keyBytes aes_BlockSize) in
  let! pt := getsM (fun m => sread m plaintext) in
  let! ct := liftO (crypt_blocks cbc_encrypt sk iv pt) in
  let! ciphertext := smake ct in
  do! ClearBytes plaintext in
  retM (dk, mkCipherTextParams SymmAlgo ciphertext iv []).

(** Without a passphrase the text of the file is the key itself: [append] of
    nothing returns the slice it was given. *)
Definition NewWalletKeyWith (keyBytes : slice) (pass : option (list Byte.byte)) (salt iv : list Byte.byte) : GoM mem WalletKey :=
  let! r := match pass with
            | Some pass =>
                let! '(dk, ct) := seal keyBytes pass salt iv in
                retM (Some dk, ct, None)
            | None =>
                let! prv := sappend keyBytes [] in
                retM (None, mkCipherTextParams SymmAlgo keyBytes [] [], Some prv)
            end in
  let '(dk, ct, prv) := r in
  let! key := getsM (fun m => sread m keyBytes) in
  let pub := tm_PubKey key in
  let! addr := must (liftO (PubBytes2Addr pub)) in
  retM (mkWalletKey 1 addr AsymmAlgo (Some ct) dk prv pub).

(** The methods, on the key and the memory. *)
Definition setPrv (prv : option slice) (w : WalletKey) : WalletKey :=
  mkWalletKey (wk_Version w) (wk_Address w) (wk_Algo w) (CipherTextParams w) (DKParams w) prv (wk_pubKey w).
Definition setPub (pub : list Byte.byte) (w : WalletKey) : WalletKey :=
  mkWalletKey (wk_Version w) (wk_Address w) (wk_Algo w) (CipherTextParams w) (DKParams w) (wk_prvKey w) pub.
Definition setSealed (ct : cipherTextParams) (dk : dkParams) (w : WalletKey) : WalletKey :=
  mkWalletKey (wk_Version w) (wk_Address w) (wk_Algo w) (Some ct) (Some dk) (wk_prvKey w) (wk_pubKey w).

Abbreviation WkM A := (GoM (WalletKey * mem) A).
Definition on_wk (f : WalletKey -> WalletKey) : WkM unit := modifyM (fun s => (f s.1, s.2)).

Definition IsLock (w : WalletKey) : bool := match wk_prvKey w with None => true | Some _ => false end.

Definition wk_Lock : WkM unit :=
  let! w := getsM fst in
  do! match wk_prvKey w with None => retM tt | Some p => zoom lens_snd (ClearBytes p) end in
  on_wk (setPrv None).

(** The deferred function of [LockWith] is [Lock]. *)
Definition LockWith (pass salt iv : list Byte.byte) : WkM unit :=
  let! w := getsM fst in
  match wk_prvKey w with
  | None => retM tt
  | Some p =>
      let! '(dk, ct) := zoom lens_snd (seal p pass salt iv) in
      do! on_wk (setSealed ct dk) in
      wk_Lock
  end.

Definition ErrWrongPassphrase : XError := NewOrdinary "wrong passphrase: the passphrase can not be empty".

(** [append([]byte(nil), text...)] *)
Definition clone_bytes (l : list Byte.byte) : GoM mem (option slice) :=
  match l with [] => retM None | _ => let! s := smake l in retM (Some s) end.

(** The bytes [PKCS7UnPadding] returns are a prefix of the decrypted buffer. *)
Definition decrypt_key (dk : dkParams) (ct : cipherTextParams) (s : list Byte.byte) : GoM mem (option slice) :=
  let sk := pbkdf2_Key s (dk_Salt dk) (dk_Iter dk) (dk_DkLen dk) in
  do! guardM (aes_key_ok sk) (NewOrdinary "crypto/aes: invalid key size") in
  let! text := getsM (fun m => sread m (ct_Text ct)) in
  let! pt := liftO (crypt_blocks cbc_decrypt sk (ct_Iv ct) text) in
  let! buf := smake pt in
  let! key := liftO (PKCS7UnPadding pt aes_BlockSize) in
  retM (Some (Slice (s_base buf) (length key))).

Definition Unlock (s : option (list Byte.byte)) : WkM unit :=
  let! w := getsM fst in
  if negb (IsLock w) then retM tt else
  let! prv := match s, DKParams w, CipherTextParams w with
              | Some s, Some dk, Some ct => zoom lens_snd (decrypt_key dk ct s)
              | Some _, _, _ => panicM
              | None, None, Some ct =>
                  let! text := getsM (fun st => sread st.2 (ct_Text ct)) in zoom lens_snd (clone_bytes text)
              | None, None, None => panicM
              | None, Some _, _ => errM ErrWrongPassphrase
              end in
  do! on_wk (setPrv prv) in
  let! key := getsM (fun st => match prv with Some p => sread st.2 p | None => [] end) in
  on_wk (setPub (tm_PubKey key)).

(** The bytes of the private key, [None] when locked. *)
Definition PrvKey (st : WalletKey * mem) : option (list Byte.byte) := sread st.2 <$> wk_prvKey st.1.

Definition PrvKeyClone : WkM (option slice) :=
  let! w := getsM fst in
  match wk_prvKey w with
  | None => retM None
  | Some p => let! k := getsM (fun st => sread st.2 p) in let! c := zoom lens_snd (smake k) in retM (Some c)
  end.

Definition wk_Sign (msg : list Byte.byte) (st : WalletKey * mem) : outcome (list Byte.byte) :=
  match PrvKey st with
  | None => Err (NewOrdinary "error: WalletKey is locked")
  | Some prv => match ethec_Sign (DefaultHash [msg]) prv with inl e => Err (NewOrdinary e) | inr sig => Ret sig end
  end.

Definition wk_VerifySig (w : WalletKey) (msg sig : list Byte.byte) : bool :=
  ethec_VerifySignature (wk_pubKey w) (DefaultHash [msg]) sig.

(** ** Key files *)
Definition wk_toJSON (w : WalletKey) (m : mem) : WalletKeyJSON :=
  mkWalletKeyJSON (wk_Version w) (wk_Address w) (wk_Algo w)
    ((fun ct => (ct_Algo ct, sread m (ct_Text ct), ct_Iv ct, ct_Salt ct)) <$> CipherTextParams w) (DKParams w).

(** Reading allocates the text. *)
Definition wk_fromJSON (j : WalletKeyJSON) : GoM mem WalletKey :=
  let! ct := match wj_cp j with
             | None => retM None
             | Some (algo, text, iv, salt) => let! t := smake text in retM (Some (mkCipherTextParams algo t iv salt))
             end in
  retM (mkWalletKey (wj_Version j) (wj_Address j) (wj_Algo j) ct (wj_dkp j) None []).

Context `{FS : FileSystem} {CW : Codec WalletKeyJSON}.

Definition wk_Save (w : WalletKey) (path : string) : GoM (mem * Disk) unit :=
  let! j := getsM (fun s => wk_toJSON w s.1) in
  match codec_Marshal j with
  | inl e => errM (NewOrdinary e)
  | inr bz => zoom lens_snd (FileIO_Write path bz)
  end.

(** The buffer has 1000 bytes. *)
Definition OpenWalletKey (path : string) : GoM (mem * Disk) WalletKey :=
  let! buf := fun s => (FileIO_Read path 1000 s.2, s) in
  match codec_Unmarshal buf with
  | inl e => errM (NewOrdinary e)
  | inr j => zoom lens_fst (wk_fromJSON j)
  end.

(** The file name is a function of the address. *)
Definition createWalletKeyFile (keyName : list Byte.byte -> string) (prv : list Byte.byte) (s : option (list Byte.byte)) (salt iv : list Byte.byte) : GoM (mem * Disk) WalletKey :=
  let! key := zoom lens_fst (smake prv) in
  let! wk := zoom lens_fst (NewWalletKeyWith key s salt iv) in
  do! wk_Save wk (keyName (wk_Address wk)) in
  retM wk.

(** One round of randomness (private key, salt, iv) per file. *)
Fixpoint CreateWalletKeyFiles (keyName : list Byte.byte -> string) (s : option (list Byte.byte)) (rnd : list (list Byte.byte * list Byte.byte * list Byte.byte)) : GoM (mem * Disk) (list WalletKey) :=
  match rnd with
  | [] => retM []
  | (prv, salt, iv) :: rnd' =>
      let! wk := createWalletKeyFile keyName prv s salt iv in
      let! wks := CreateWalletKeyFiles keyName s rnd' in
      retM (wk :: wks)
  end.

(** [resetPassphrase] of cmd/commands/wallet_key.go; the two passphrases are
    read from the terminal (blank input is nil).  The deferred [Lock] runs on every way out, and
    nothing observes the key after it. *)
Definition resetPassphrase (path : string) (pass0 : option (list Byte.byte)) (pass1 salt iv : list Byte.byte) : GoM (mem * Disk) unit :=
  let! wk := OpenWalletKey path in
  let! wk := fun s => let '(r, (w, m)) := Unlock pass0 (wk, s.1) in
                      (match r with Ret _ => Ret w | Err e => Err e | Panic => Panic end, (m, s.2)) in
  let! wk := fun s => let '(r, (w, m)) := LockWith pass1 salt iv (wk, s.1) in
                      (match r with Ret _ => Ret w | Err e => Err e | Panic => Panic end, (m, s.2)) in
  wk_Save wk path.
End WalletKey.
