(* ===== verification/WalletProps.v ===== *)
(** * Key files keep the key

    What a sealed wallet key holds, that locking, unlocking and changing the
    passphrase keep it, that it survives the way through a file, and what
    happens to a key that was stored without a passphrase. *)

From Stdlib Require Import Strings.Byte.
From S2P Require Import Prelude Xerrors GoSem Bytes Crypto GovParams Slice FileIO WalletKey.

Section Sealed.
Context {EC : EthCrypto} {KL : KeyLib} {KLL : KeyLibLaws}.

(** [w] stores [key] encrypted with [pass]. *)
Definition sealed (pass key : list Byte.byte) (dk : dkParams) (ct : cipherTextParams) (m : mem) : Prop :=
  slice_ok m (ct_Text ct) /\ length (ct_Iv ct) = 16%nat /\
  (length (dk_Salt dk) = 32%nat /\ dk = mkDkParams "pbkdf2" DefaultHasherName (iterations (dk_Salt dk)) (dk_Salt dk) DKLEN) /\
  (ct_Algo ct = SymmAlgo /\ ct_Salt ct = []) /\
  exists pt, PKCS7Padding key aes_BlockSize = Ret pt /\
    sread m (ct_Text ct) = cbc_encrypt (pbkdf2_Key pass (dk_Salt dk) (dk_Iter dk) (dk_DkLen dk)) (ct_Iv ct) pt.

Lemma sk_ok pass salt iter : aes_key_ok (pbkdf2_Key pass salt iter DKLEN) = true.
Proof.
  unfold aes_key_ok. pose proof (pbkdf2_length pass salt iter DKLEN ltac:(done)) as H. unfold DKLEN in *.
  replace (length _) with 32%nat by lia. done.
Qed.

Lemma sealed_kept pass key dk ct m m' :
  objs m' !! s_base (ct_Text ct) = objs m !! s_base (ct_Text ct) -> sealed pass key dk ct m -> sealed pass key dk ct m'.
Proof.
  intros He (Hok & Hiv & Hdk & Hct & pt & Hp & Hr). split_and!; [by eapply slice_ok_other|try done; apply Hdk || apply Hct..|]. exists pt.
  by rewrite (sread_other m m' _ He).
Qed.

Lemma padded_blocks key pt : key <> [] -> PKCS7Padding key aes_BlockSize = Ret pt ->
  Z.rem (len pt) 16 = 0 /\ PKCS7UnPadding pt aes_BlockSize = Ret key.
Proof.
  intros Hk. unfold aes_BlockSize. destruct (pkcs7_forward key 16 Hk ltac:(lia)) as [-> Hu]. intros [= <-].
  split; [apply padded_multiple; lia|done].
Qed.

Lemma must_ret {S A} (f : GoM S A) s a s' : f s = (Ret a, s') -> must f s = (Ret a, s').
Proof. intros H. unfold must. by erewrite bindM_step by (eapply tryM_ret, H). Qed.

Lemma crypt_ok f sk iv l : length iv = 16%nat -> Z.rem (len l) 16 = 0 -> crypt_blocks f sk iv l = Ret (f sk iv l).
Proof. intros Hiv Hrem. unfold crypt_blocks, aes_BlockSize. by rewrite Hiv, Hrem. Qed.

(** Sealing writes a new array; of the old ones only that of the key can change,
    and only when the array has room behind the key. *)
Lemma seal_spec p pass salt iv m :
  slice_ok m p -> heap_wf m -> sread m p <> [] -> length salt = 32%nat -> length iv = 16%nat ->
  exists dk ct m', seal p pass salt iv m = (Ret (dk, ct), m') /\ heap_wf m' /\ sealed pass (sread m p) dk ct m' /\
    (hnext m <= s_base (ct_Text ct))%positive /\ slice_ok m' p /\
    (forall q a, objs m !! q = Some a -> q <> s_base p -> objs m' !! q = Some a) /\
    (scap m p = s_len p -> sread m' p = sread m p).
Proof.
  intros Hok Hwf Hne Hsalt Hiv. unfold seal. rewrite sk_ok. cbn [negb].
  assert (Hl : s_len p <> 0%nat) by (intros E0; apply Hne, nil_length_inv; by rewrite sread_length).
  destruct (padding_in_spec p aes_BlockSize m Hok Hwf Hl ltac:(done)) as (s' & m1 & H1 & Hpad & Hlen & Hext).
  rewrite (bindM_step _ _ _ _ _ (must_ret _ _ _ _ H1)), (bindM_step _ _ _ (sread m1 s') m1) by done.
  destruct (padded_blocks _ _ Hne Hpad) as [Hrem _].
  rewrite crypt_ok by done. set (c := cbc_encrypt _ _ _). rewrite (bindM_step _ _ _ c m1) by done.
  destruct Hext as [Hwf1 Hok1 Hokp Hrp _ Hb Hnx Hfull Hoth1].
  destruct (smake_spec c m1 Hwf1) as (m2 & H2 & Hwf2 & Hr2 & Hok2 & _ & Hoth2). rewrite (bindM_step _ _ _ _ _ H2).
  destruct (slice_ok_array _ _ Hok1) as [Ha1 _]. destruct (slice_ok_array _ _ Hokp) as [Hap _]. destruct (slice_ok_array _ _ Hok) as [Ham _].
  assert (Hlt1 : (s_base s' < hnext m1)%positive) by (by eapply Hwf1).
  assert (Hltp : (s_base p < hnext m)%positive) by (by eapply Hwf).
  assert (Hok2' : slice_ok m2 s') by (apply (slice_ok_other m1); [by rewrite (Hoth2 _ _ Ha1)|done]).
  destruct (clear_spec s' m2 Hok2' Hwf2) as (m3 & H3 & Hwf3 & _ & Hok3 & Hoth3).
  rewrite (bindM_step _ _ _ _ _ H3). eexists _, _, m3. split; [done|]. cbn [ct_Text ct_Iv ct_Salt s_base].
  split; [done|]. split_and!; try done.
  - apply (sealed_kept _ _ _ _ m2); [apply Hoth3; cbn; lia|]. split_and!; [done..|]. by exists (sread m1 s').
  - destruct (decide (s_base p = s_base s')) as [E0|E0].
    + destruct Hok3 as (a & Ha & Hl3). exists a. rewrite E0. split; [done|lia].
    + apply (slice_ok_other m1); [by rewrite Hoth3, (Hoth2 _ _ Hap)|done].
  - intros q a Hq Hn. rewrite Hoth3; [apply Hoth2; eauto|]. destruct Hb as [->| ->]; [done|]. intros ->. apply Hwf in Hq. lia.
  - intros Hcap. specialize (Hfull Hcap Hlen). rewrite <- Hrp. apply sread_other. rewrite Hoth3 by (rewrite Hfull; lia).
    by rewrite (Hoth2 _ _ Hap).
Qed.

(** *** Opening a sealed key *)
Lemma decrypt_spec pass key dk ct m :
  heap_wf m -> key <> [] -> sealed pass key dk ct m ->
  exists p m', decrypt_key dk ct pass m = (Ret (Some p), m') /\ heap_wf m' /\ slice_ok m' p /\ sread m' p = key /\
    s_base p = hnext m /\ forall q a, objs m !! q = Some a -> objs m' !! q = Some a.
Proof.
  intros Hwf Hne (Hok & Hiv & [_ Hdk] & _ & pt & Hp & Hr). assert (Hl : dk_DkLen dk = DKLEN) by (by rewrite Hdk). clear Hdk. destruct (padded_blocks _ _ Hne Hp) as [Hrem Hun].
  unfold decrypt_key. rewrite Hl in *. rewrite sk_ok. cbn [guardM]. rewrite (bindM_step _ _ _ tt m) by done.
  rewrite (bindM_step _ _ _ _ _ (eq_refl : getsM _ m = _)), Hr.
  rewrite crypt_ok by (rewrite ?cbc_length; done). rewrite cbc_inverse by (done || apply sk_ok).
  rewrite (bindM_step _ _ _ pt m) by done.
  destruct (smake_spec pt m Hwf) as (m' & Hm & Hwf' & Hr' & Hok' & Hcap & Hoth).
  rewrite (bindM_step _ _ _ _ _ Hm), Hun, (bindM_step _ _ _ key m') by done. eexists _, m'. split; [done|]. cbn [s_base].
  assert (Hkey : key = take (length key) pt).
  { clear -Hne Hp. revert Hp. unfold aes_BlockSize. destruct (pkcs7_forward key 16 Hne ltac:(lia)) as [-> _]. intros [= <-].
    by rewrite take_app_length. }
  unfold sread in Hr'. cbn [s_len s_base] in Hr'.
  split_and!; try done.
  - destruct Hok' as (a & Ha & Hla). exists a. split; [done|]. cbn [s_len] in *. rewrite Hkey, length_take. lia.
  - unfold sread. cbn [s_len s_base]. rewrite Hkey at 2. rewrite <- Hr', take_take. f_equal.
    rewrite Hkey, length_take. lia.
Qed.

(** A failed or a wrong decryption only allocates. *)
Lemma decrypt_allocates dk ct pass m :
  heap_wf m -> exists r m', decrypt_key dk ct pass m = (r, m') /\ heap_wf m' /\
    forall q a, objs m !! q = Some a -> objs m' !! q = Some a.
Proof.
  intros Hwf. unfold decrypt_key. destruct (aes_key_ok _); [|by eexists _, m]. cbn [guardM].
  rewrite (bindM_step _ _ _ tt m) by done. rewrite (bindM_step _ _ _ _ _ (eq_refl : getsM _ m = _)).
  unfold liftO at 1. unfold bindM at 1. destruct (crypt_blocks _ _ _ _) as [pt| |]; [|by eexists _, m..].
  destruct (smake_spec pt m Hwf) as (m' & Hm & Hwf' & _ & _ & _ & Hoth). rewrite (bindM_step _ _ _ _ _ Hm).
  unfold bindM, liftO. destruct (PKCS7UnPadding _ _); by eexists _, m'.
Qed.

(** The fields no method changes. *)
Definition same_id (w w' : WalletKey) : Prop :=
  wk_Version w' = wk_Version w /\ wk_Address w' = wk_Address w /\ wk_Algo w' = wk_Algo w.

(** *** The state of a wallet key that protects [key] with [pass] *)
Definition holds (pass key : list Byte.byte) (st : WalletKey * mem) : Prop :=
  heap_wf st.2 /\ exists dk ct,
    DKParams st.1 = Some dk /\ CipherTextParams st.1 = Some ct /\ sealed pass key dk ct st.2 /\
    (IsLock st.1 = true \/ exists p, wk_prvKey st.1 = Some p /\ slice_ok st.2 p /\ sread st.2 p = key /\ s_base p <> s_base (ct_Text ct)).

Context (key : list Byte.byte) (Hkey : key <> []).

Lemma lock_holds pass st : holds pass key st ->
  exists st', wk_Lock st = (Ret tt, st') /\ holds pass key st' /\ IsLock st'.1 = true /\ same_id st.1 st'.1.
Proof.
  destruct st as [w m]. intros (Hwf & dk & ct & Hd & Hc & Hs & Hp). unfold wk_Lock. cbn in Hwf, Hd, Hc, Hs, Hp.
  rewrite (bindM_step _ _ _ w (w, m)) by done. unfold IsLock in Hp. destruct (wk_prvKey w) as [p|] eqn:Ep.
  - destruct Hp as [|(p' & [= <-] & Hok & Hr & Hne)]; [done|].
    destruct (clear_spec p m Hok Hwf) as (m' & Hcl & Hwf' & _ & _ & Hoth).
    rewrite (bindM_step _ _ _ tt (w, m')) by (by apply (zoom_eq lens_snd)). eexists. split; [done|]. split; [|done].
    split; [done|]. exists dk, ct. cbn. split_and!; [done..| |by left]. eapply sealed_kept; [by apply Hoth|done].
  - rewrite (bindM_step _ _ _ tt (w, m)) by done. eexists. split; [done|]. split; [|done]. split; [done|]. exists dk, ct. cbn. by split_and!; [..|left].
Qed.

Lemma unlock_holds pass st : holds pass key st ->
  exists st', Unlock (Some pass) st = (Ret tt, st') /\ holds pass key st' /\ PrvKey st' = Some key /\ same_id st.1 st'.1.
Proof.
  destruct st as [w m]. intros (Hwf & dk & ct & Hd & Hc & Hs & Hp). unfold Unlock. cbn in Hwf, Hd, Hc, Hs, Hp.
  rewrite (bindM_step _ _ _ w (w, m)) by done. unfold IsLock in *. destruct (wk_prvKey w) as [p|] eqn:Ep; cbn [negb].
  - destruct Hp as [|(p' & [= <-] & Hok & Hr & Hne)]; [done|]. exists (w, m). split; [done|]. split_and!; [|unfold PrvKey; cbn; by rewrite Ep, <- Hr|done].
    split; [done|]. exists dk, ct. cbn. split_and!; [done..|]. right. eauto.
  - rewrite Hd, Hc. destruct (decrypt_spec _ _ _ _ _ Hwf Hkey Hs) as (p & m' & He & Hwf' & Hok & Hr & Hb & Hoth).
    rewrite (bindM_step _ _ _ (Some p) (w, m')) by (by apply (zoom_eq lens_snd)).
    eexists. split; [done|]. split_and!; [|unfold PrvKey; cbn; by rewrite <- Hr|done].
    destruct Hs as (Hokt & Hs). destruct (slice_ok_array _ _ Hokt) as [Hat _].
    split; [done|]. exists dk, ct. cbn. split_and!; [done..| |].
    + eapply sealed_kept; [by rewrite (Hoth _ _ Hat)|by split].
    + right. exists p. split_and!; try done. rewrite Hb. intros Heq. rewrite <- Heq in Hat. apply Hwf in Hat. lia.
Qed.

Lemma unlock_nil_holds pass st : holds pass key st ->
  Unlock None st = (if IsLock st.1 then Err ErrWrongPassphrase else Ret tt, st).
Proof.
  destruct st as [w m]. intros (Hwf & dk & ct & Hd & Hc & Hs & Hp). unfold Unlock. cbn in Hwf, Hd, Hc, Hs, Hp.
  rewrite (bindM_step _ _ _ w (w, m)) by done. cbn [fst]. destruct (IsLock w) eqn:El; cbn [negb]; [|done]. by rewrite Hd.
Qed.

(** A refused passphrase changes nothing that matters. *)
Lemma unlock_refused_holds pass p st e st' : holds pass key st -> Unlock (Some p) st = (Err e, st') -> holds pass key st'.
Proof.
  destruct st as [w m]. intros (Hwf & dk & ct & Hd & Hc & Hs & Hp). unfold Unlock. cbn in Hwf, Hd, Hc, Hs, Hp.
  rewrite (bindM_step _ _ _ w (w, m)) by done. destruct (IsLock w) eqn:El; [|done]. cbn [negb]. rewrite Hd, Hc.
  destruct (decrypt_allocates dk ct p m Hwf) as (r & m' & He & Hwf' & Hoth). unfold bindM at 1.
  rewrite (zoom_eq lens_snd _ (w, m) _ _ He). destruct r as [prv|e'|]; cbn; [done| |done]. intros [= <- <-].
  destruct Hs as (Hokt & Hs). destruct (slice_ok_array _ _ Hokt) as [Hat _].
  split; [done|]. exists dk, ct. cbn. split_and!; [done..| |by left]. eapply sealed_kept; [by rewrite (Hoth _ _ Hat)|by split].
Qed.

Lemma lock_with_holds pass pass' salt iv st : holds pass key st -> length salt = 32%nat -> length iv = 16%nat ->
  exists st', LockWith pass' salt iv st = (Ret tt, st') /\ holds (if IsLock st.1 then pass else pass') key st' /\
    IsLock st'.1 = true /\ same_id st.1 st'.1.
Proof.
  destruct st as [w m]. intros (Hwf & dk & ct & Hd & Hc & Hs & Hp) Hsalt Hiv. unfold LockWith. cbn in Hwf, Hd, Hc, Hs, Hp.
  rewrite (bindM_step _ _ _ w (w, m)) by done. cbn [fst]. unfold IsLock in *. destruct (wk_prvKey w) as [p|] eqn:Ep.
  - destruct Hp as [|(p' & [= <-] & Hok & Hr & Hne)]; [done|].
    destruct (seal_spec p pass' salt iv m Hok Hwf ltac:(by rewrite Hr) Hsalt Hiv) as (dk' & ct' & m' & He & Hwf' & Hs' & Hge & Hokp & _ & _).
    rewrite (bindM_step _ _ _ (dk', ct') (w, m')) by (by apply (zoom_eq lens_snd)). rewrite (bindM_step _ _ _ tt (setSealed ct' dk' w, m')) by done.
    unfold wk_Lock. rewrite (bindM_step _ _ _ _ _ (eq_refl : getsM fst _ = _)). cbn [wk_prvKey setSealed fst]. rewrite Ep.
    destruct (clear_spec p m' Hokp Hwf') as (m2 & Hcl & Hwf2 & _ & _ & Hoth).
    rewrite (bindM_step _ _ _ tt (setSealed ct' dk' w, m2)) by (by apply (zoom_eq lens_snd)). eexists. split; [done|]. split; [|done].
    rewrite Hr in Hs'. split; [done|]. exists dk', ct'. cbn. split_and!; [done..| |by left]. eapply sealed_kept; [apply Hoth|done].
    destruct (slice_ok_array _ _ Hok) as [Ham _]. apply Hwf in Ham. lia.
  - exists (w, m). split; [done|]. cbn [fst]. rewrite Ep. split; [|done]. split; [done|]. exists dk, ct. cbn. split_and!; [done..|]. left. unfold IsLock. by rewrite Ep.
Qed.

(** What a user of the key can do: the index is the passphrase in force. *)
Inductive wk_step : list Byte.byte * (WalletKey * mem) -> list Byte.byte * (WalletKey * mem) -> Prop :=
  | step_Lock pass st r st' : wk_Lock st = (r, st') -> wk_step (pass, st) (pass, st')
  | step_Unlock pass st r st' : Unlock (Some pass) st = (r, st') -> wk_step (pass, st) (pass, st')
  | step_Unlock_refused pass p st e st' : Unlock (Some p) st = (Err e, st') -> wk_step (pass, st) (pass, st')
  | step_Unlock_nil pass st r st' : Unlock None st = (r, st') -> wk_step (pass, st) (pass, st')
  | step_LockWith pass p salt iv st r st' : length salt = 32%nat -> length iv = 16%nat -> LockWith p salt iv st = (r, st') ->
      wk_step (pass, st) (if IsLock st.1 then pass else p, st').

Lemma step_holds a b : wk_step a b -> holds a.1 key a.2 -> holds b.1 key b.2.
Proof.
  destruct 1 as [pass st r st' H|pass st r st' H|pass p st e st' H|pass st r st' H|pass p salt iv st r st' Hsalt Hiv H]; cbn [fst snd]; intros Hh.
  - destruct (lock_holds _ _ Hh) as (? & He & ? & _). congruence.
  - destruct (unlock_holds _ _ Hh) as (? & He & ? & _). congruence.
  - by eapply unlock_refused_holds.
  - pose proof (unlock_nil_holds _ _ Hh). congruence.
  - destruct (lock_with_holds _ p salt _ _ Hh Hsalt Hiv) as (? & He & ? & _). congruence.
Qed.

Lemma steps_hold a b : rtc wk_step a b -> holds a.1 key a.2 -> holds b.1 key b.2.
Proof. induction 1; eauto using step_holds. Qed.

(** *** A new key *)
Lemma new_holds k pass salt iv m :
  slice_ok m k -> heap_wf m -> sread m k = key -> scap m k = s_len k -> length salt = 32%nat -> length iv = 16%nat ->
  exists w m', NewWalletKeyWith k (Some pass) salt iv m = (Ret w, m') /\ holds pass key (w, m') /\ IsLock w = true /\
    wk_Version w = 1 /\ wk_Address w = tm_Address (tm_PubKey key) /\ wk_Algo w = AsymmAlgo /\ sread m' k = key.
Proof.
  intros Hok Hwf Hk Hcap Hsalt Hiv. subst key.
  destruct (seal_spec k pass salt iv m Hok Hwf Hkey Hsalt Hiv) as (dk & ct & m' & He & Hwf' & Hs & _ & _ & _ & Hrd).
  specialize (Hrd Hcap). unfold NewWalletKeyWith.
  rewrite (bindM_step _ _ _ (Some dk, ct, None) m') by (by rewrite (bindM_step _ _ _ _ _ He)).
  rewrite (bindM_step _ _ _ _ _ (eq_refl : getsM _ m' = _)), Hrd.
  assert (Ha : must (liftO (PubBytes2Addr (tm_PubKey (sread m k)))) m' = (Ret (tm_Address (tm_PubKey (sread m k))), m')).
  { apply must_ret. unfold liftO, PubBytes2Addr. by rewrite pubkey_length. }
  rewrite (bindM_step _ _ _ _ _ Ha). eexists _, m'. split; [done|]. split_and!; try done.
  split; [done|]. exists dk, ct. cbn. by split_and!; [..|left].
Qed.

(** Without a passphrase the key, the text of the file and the slice of the
    caller are one array. *)
Lemma new_plain k salt iv m :
  slice_ok m k -> exists w,
    NewWalletKeyWith k None salt iv m = (Ret w, heap_store (s_base k) (array m (s_base k)) m) /\ 
    CipherTextParams w = Some (mkCipherTextParams SymmAlgo k [] []) /\ DKParams w = None /\ wk_prvKey w = Some k.
Proof.
  intros Hok. destruct (slice_ok_array _ _ Hok) as [Ha Hl]. unfold NewWalletKeyWith.
  set (m' := heap_store (s_base k) (array m (s_base k)) m).
  assert (Hs : sappend k [] m = (Ret k, m')).
  { unfold sappend. cbn [length]. rewrite Nat.add_0_r, (proj2 (Nat.leb_le _ _)) by done.
    unfold bindM, swrite, modifyM. cbn [length app]. rewrite Nat.add_0_r, take_drop. by destruct k. }
  rewrite (bindM_step _ _ _ (None, mkCipherTextParams SymmAlgo k [] [], Some k) m') by (by rewrite (bindM_step _ _ _ _ _ Hs)).
  rewrite (bindM_step _ _ _ _ _ (eq_refl : getsM _ m' = _)).
  erewrite bindM_step by (apply must_ret; unfold liftO, PubBytes2Addr; by rewrite pubkey_length). by eexists.
Qed.
End Sealed.

Section Theorems.
Context {EC : EthCrypto} {KL : KeyLib} {KLL : KeyLibLaws}.

(** C28: a wallet key never loses the private key it was made from.  Start from
    a key made with a passphrase (the slice of the caller has no room behind the
    key) and lock it, unlock it, try wrong passphrases that are refused and
    change the passphrase in any order: no call panics, the address stays the
    address of the key, and unlocking with the passphrase in force succeeds and
    gives back exactly the key.  The caller's copy is untouched.  (A wrong
    passphrase under which the padding of the cipher happens to be valid is not
    refused; it is not among the steps.) *)
Theorem wallet_keeps_key k pass salt iv m :
  slice_ok m k -> heap_wf m -> sread m k <> [] -> scap m k = s_len k -> length salt = 32%nat -> length iv = 16%nat ->
  exists w m', NewWalletKeyWith k (Some pass) salt iv m = (Ret w, m') /\ IsLock w = true /\ sread m' k = sread m k /\
    wk_Address w = tm_Address (tm_PubKey (sread m k)) /\
    forall pass' st, rtc wk_step (pass, (w, m')) (pass', st) ->
      (exists st', Unlock (Some pass') st = (Ret tt, st') /\ PrvKey st' = Some (sread m k)) /\
      (exists st', wk_Lock st = (Ret tt, st') /\ IsLock st'.1 = true /\ PrvKey st' = None) /\
      (forall p salt' iv', length salt' = 32%nat -> length iv' = 16%nat ->
         exists st', LockWith p salt' iv' st = (Ret tt, st') /\ IsLock st'.1 = true).
Proof.
  intros Hok Hwf Hne Hcap Hsalt Hiv.
  destruct (new_holds (sread m k) Hne k pass salt iv m) as (w & m' & He & Hh & Hl & _ & Ha & _ & Hr); try done.
  exists w, m'. split_and!; try done. intros pass' st Hst. apply (steps_hold (sread m k) Hne) in Hst; [|done]. cbn [fst snd] in Hst.
  split_and!.
  - destruct (unlock_holds _ Hne _ _ Hst) as (st' & ? & _ & ? & _). eauto.
  - destruct (lock_holds _ _ _ Hst) as (st' & ? & _ & Hl' & _). exists st'. split_and!; try done.
    unfold PrvKey. revert Hl'. unfold IsLock. by destruct (wk_prvKey st'.1).
  - intros p salt' iv' Hs' Hi'. destruct (lock_with_holds _ Hne _ p _ _ _ Hst Hs' Hi') as (st' & ? & _ & ? & _). eauto.
Qed.

(** A wallet key made without a passphrase is destroyed by locking it.  The
    text of the file, the unlocked key and the slice of the caller are the same
    array, and [Lock] overwrites it: unlocking afterwards yields zeros, and the
    caller's key has been zeroed as well. *)
Theorem plain_wallet_lost_by_lock k salt iv m :
  slice_ok m k -> heap_wf m -> sread m k <> [] ->
  exists w m', NewWalletKeyWith k None salt iv m = (Ret w, m') /\ PrvKey (w, m') = Some (sread m k) /\
  exists st, wk_Lock (w, m') = (Ret tt, st) /\ sread st.2 k = replicate (s_len k) Byte.x00 /\
  exists st', Unlock None st = (Ret tt, st') /\ PrvKey st' = Some (replicate (s_len k) Byte.x00).
Proof.
  intros Hok Hwf Hne. destruct (slice_ok_array _ _ Hok) as [Ha Hl].
  destruct (new_plain k salt iv m Hok) as (w & He & Hct & Hdk & Hp). eexists w, _. split; [done|].
  set (m' := heap_store (s_base k) (array m (s_base k)) m).
  assert (Hm' : objs m' !! s_base k = objs m !! s_base k) by (cbn; by rewrite lookup_insert_eq, Ha).
  assert (Hr : sread m' k = sread m k) by (by apply sread_other). assert (Hok' : slice_ok m' k) by (by apply (slice_ok_other m)).
  assert (Hwf' : heap_wf m') by (by eapply heap_store_wf).
  split; [unfold PrvKey; cbn [fst snd]; rewrite Hp; cbn; by f_equal|].
  destruct (clear_spec k m' Hok' Hwf') as (m2 & Hcl & Hwf2 & Hz & Hok2 & _).
  assert (Hlock : wk_Lock (w, m') = (Ret tt, (setPrv None w, m2))).
  { unfold wk_Lock. rewrite (bindM_step _ _ _ w (w, m')) by done. rewrite Hp.
    by rewrite (bindM_step _ _ _ tt (w, m2)) by (by apply (zoom_eq lens_snd)). }
  eexists. split; [exact Hlock|]. split; [done|]. unfold Unlock. rewrite (bindM_step _ _ _ _ _ (eq_refl : getsM fst _ = _)).
  cbn [fst setPrv IsLock wk_prvKey negb DKParams CipherTextParams]. rewrite Hdk, Hct. cbn [ct_Text].
  destruct (smake_spec (sread m2 k) m2 Hwf2) as (m3 & Hm3 & _ & Hr3 & _).
  assert (Hc : clone_bytes (sread m2 k) m2 = (Ret (Some (Slice (hnext m2) (length (sread m2 k)))), m3)).
  { unfold clone_bytes. destruct (sread m2 k) eqn:Ez; [|by rewrite (bindM_step _ _ _ _ _ Hm3)].
    apply (f_equal length) in Ez. rewrite sread_length in Ez by done. destruct Hne. apply nil_length_inv. by rewrite sread_length. }
  erewrite bindM_step; [|erewrite bindM_step by done; by apply (zoom_eq lens_snd); apply Hc].
  eexists. split; [done|]. unfold PrvKey. cbn [fmap option_fmap option_map fst snd on_wk wk_prvKey setPrv setPub lset lens_snd].
  f_equal. by rewrite <- Hz.
Qed.
End Theorems.

(** ** Key files *)

(** The documents the code writes: its own names, short byte strings. *)
Definition wj_ok (j : WalletKeyJSON) : Prop :=
  wj_Version j = 1 /\ wj_Algo j = AsymmAlgo /\ length (wj_Address j) = 20%nat /\
  match wj_cp j with
  | None => True
  | Some (algo, text, iv, salt) => algo = SymmAlgo /\ (length text <= 64)%nat /\ (length iv <= 16)%nat /\ salt = []
  end /\
  match wj_dkp j with
  | None => True
  | Some dk => dk_Algo dk = "pbkdf2"%string /\ dk_Prf dk = DefaultHasherName /\ 600000 <= dk_Iter dk < 600256 /\
               length (dk_Salt dk) = 32%nat /\ dk_DkLen dk = DKLEN
  end.

(** Such a document is written in at most 1000 bytes and read back as it was. *)
Class KeyFileLaws {EC : EthCrypto} {CW : Codec WalletKeyJSON} : Prop := {
  key_file_written : forall j, wj_ok j -> exists bz, codec_Marshal j = inr bz /\ (0 < length bz <= 1000)%nat /\ codec_Unmarshal bz = inr j;
  address_length : forall pub, length (tm_Address pub) = 20%nat;
}.

Section Files.
Context {EC : EthCrypto} {KL : KeyLib} {KLL : KeyLibLaws} `{FSL : FileSystemLaws} {CW : Codec WalletKeyJSON} {KFL : KeyFileLaws}.

(** Opening the file, in whatever memory, gives a locked key that protects [key]
    with [pass] and has the address of [key]. *)
Definition file_holds (path : string) (pass key : list Byte.byte) (d : Disk) : Prop :=
  forall m, heap_wf m -> exists w m', OpenWalletKey path (m, d) = (Ret w, (m', d)) /\ holds pass key (w, m') /\
    IsLock w = true /\ wk_Version w = 1 /\ wk_Address w = tm_Address (tm_PubKey key) /\ wk_Algo w = AsymmAlgo.

(** The path can be written. *)
Definition writable (path : string) : Prop := forall bz d, exists d', FileIO_Write path bz d = (Ret tt, d').

Lemma be_value_one x : be_value (Byte.x00 :: [x]) = byte_val x.
Proof. unfold be_value. cbn [fold_left]. change (byte_val Byte.x00) with 0. lia. Qed.

Lemma iterations_range salt : 600000 <= iterations salt < 600256.
Proof.
  unfold iterations. destruct salt as [|x salt]; [done|]. change (take 1 (x :: salt)) with [x]. rewrite be_value_one.
  pose proof (byte_val_bound x). lia.
Qed.

Lemma padding_length key pt : length key = 32%nat -> PKCS7Padding key aes_BlockSize = Ret pt -> length pt = 48%nat.
Proof.
  intros Hk. unfold PKCS7Padding, aes_BlockSize. cbn [Z.leb Z.compare]. rewrite bool_decide_eq_false_2 by (by intros ->).
  rewrite Hk. cbn. intros [= <-]. rewrite length_app. by rewrite Hk.
Qed.

Context (key : list Byte.byte) (Hkey : length key = 32%nat).

Lemma key_nonempty : key <> []. Proof using Hkey. by intros ->. Qed.

Lemma holds_json pass w m :
  holds pass key (w, m) -> wk_Version w = 1 -> wk_Address w = tm_Address (tm_PubKey key) -> wk_Algo w = AsymmAlgo -> wj_ok (wk_toJSON w m).
Proof.
  intros (_ & dk & ct & Hd & Hc & (Hok & Hiv & [Hsl Hdk] & [Ha Hsa] & pt & Hp & Hr) & _) Hv Had Hal. cbn in Hd, Hc, Hok, Hr.
  unfold wk_toJSON, wj_ok. cbn. rewrite Hv, Had, Hal, Hc, Hd, address_length. cbn. rewrite Hr, cbc_length, (padding_length _ _ Hkey Hp), Hiv.
  split_and!; try done; try lia; rewrite Hdk; cbn; try done; apply iterations_range.
Qed.

(** The file holds a document that can be read and opened with [pass]. *)
Definition doc_holds (path : string) (pass : list Byte.byte) (d : Disk) : Prop :=
  exists bz j, os_ReadFile path d = Some bz /\ (0 < length bz <= 1000)%nat /\ codec_Unmarshal bz = inr j /\
    forall m, heap_wf m -> exists w m', wk_fromJSON j m = (Ret w, m') /\ holds pass key (w, m') /\
      IsLock w = true /\ wk_Version w = 1 /\ wk_Address w = tm_Address (tm_PubKey key) /\ wk_Algo w = AsymmAlgo.

Lemma doc_file_holds path pass d : doc_holds path pass d -> file_holds path pass key d.
Proof.
  intros (bz & j & Hr & Hlen & Hu & Hj) m Hwf. destruct (Hj m Hwf) as (w & m' & Hw & H). exists w, m'. split; [|exact H].
  unfold OpenWalletKey, FileIO_Read.
  assert (Hb : (match os_ReadFile path d with
               | Some bz0 => match take 1000 bz0 with [] => Err (NewOrdinary "EOF") | b => Ret b end
               | None => Err (NewOrdinary "open") end) = Ret bz).
  { rewrite Hr, firstn_all2 by lia. destruct bz; [cbn in Hlen; lia|done]. }
  rewrite (bindM_step _ _ _ bz (m, d)) by (by rewrite <- Hb). rewrite Hu. by apply (zoom_eq lens_fst).
Qed.

Lemma save_doc pass w m path d d' :
  holds pass key (w, m) -> wk_Version w = 1 -> wk_Address w = tm_Address (tm_PubKey key) -> wk_Algo w = AsymmAlgo ->
  wk_Save w path (m, d) = (Ret tt, (m, d')) -> doc_holds path pass d' /\ forall p, p <> path -> os_ReadFile p d' = os_ReadFile p d.
Proof.
  intros Hh Hv Ha Hal Hs. pose proof (holds_json _ _ _ Hh Hv Ha Hal) as Hj. destruct (key_file_written _ Hj) as (bz & Hm & Hlen & Hu).
  unfold wk_Save in Hs. rewrite (bindM_step _ _ _ (wk_toJSON w m) (m, d)) in Hs by done. rewrite Hm in Hs.
  apply zoom_inv in Hs as (d'' & Hd' & [= <-]). destruct (file_io_write_ret _ _ _ _ Hd') as [Hrd Hfr]. split; [|exact Hfr].
  exists bz, (wk_toJSON w m). split_and!; [done|lia|lia|done|]. intros m0 Hwf0. unfold wk_fromJSON, wk_toJSON. cbn [wj_cp wj_dkp wj_Version wj_Address wj_Algo].
  destruct Hh as (_ & dk & ct & Hd & Hc & (Hok & Hiv & Hdk & Hct & pt & Hp & Hr) & _). cbn in Hd, Hc, Hok, Hr. rewrite Hc, Hd. cbn [fmap option_fmap option_map].
  destruct (smake_spec (sread m (ct_Text ct)) m0 Hwf0) as (m1 & Hm1 & Hwf1 & Hr1 & Hok1 & _).
  eexists _, m1. split.
  { erewrite bindM_step; [done|]. by erewrite bindM_step by exact Hm1. }
  split; [|by rewrite Hv, Ha, Hal]. split; [done|]. eexists _, _. split; [done|]. split; [done|]. split; [|by left].
  split; [done|]. split; [done|]. split; [apply Hdk|]. split; [apply Hct|]. exists pt. split; [done|]. etrans; [exact Hr1|exact Hr].
Qed.

Lemma save_runs pass w m path d :
  holds pass key (w, m) -> wk_Version w = 1 -> wk_Address w = tm_Address (tm_PubKey key) -> wk_Algo w = AsymmAlgo -> writable path ->
  exists d', wk_Save w path (m, d) = (Ret tt, (m, d')).
Proof.
  intros Hh Hv Ha Hal Hw. destruct (key_file_written _ (holds_json _ _ _ Hh Hv Ha Hal)) as (bz & Hm & _).
  destruct (Hw bz d) as [d' Hd']. exists d'. unfold wk_Save. rewrite (bindM_step _ _ _ (wk_toJSON w m) (m, d)) by done. rewrite Hm. by apply (zoom_eq lens_snd).
Qed.

Lemma save_holds pass w m path d :
  holds pass key (w, m) -> wk_Version w = 1 -> wk_Address w = tm_Address (tm_PubKey key) -> wk_Algo w = AsymmAlgo -> writable path ->
  exists d', wk_Save w path (m, d) = (Ret tt, (m, d')) /\ file_holds path pass key d'.
Proof.
  intros Hh Hv Ha Hal Hw. destruct (save_runs _ _ _ _ d Hh Hv Ha Hal Hw) as [d' Hs]. exists d'. split; [done|].
  apply doc_file_holds. by apply (save_doc _ _ _ _ _ _ Hh Hv Ha Hal Hs).
Qed.

(** Key files.  Creating a key file with a passphrase (on a path that can be
    written) leaves a file from which, after any restart, the key can be opened
    and unlocked to the very bytes it was made from; changing its passphrase
    with the old one leaves a file that opens with the new one to the same key
    and the same address. *)
Theorem key_file_roundtrip keyName pass pass' salt iv salt' iv' m d :
  heap_wf m -> length salt = 32%nat -> length iv = 16%nat -> length salt' = 32%nat -> length iv' = 16%nat ->
  let path := keyName (tm_Address (tm_PubKey key)) in writable path ->
  exists w m1 d1, createWalletKeyFile keyName key (Some pass) salt iv (m, d) = (Ret w, (m1, d1)) /\
    file_holds path pass key d1 /\
    forall m2, heap_wf m2 -> exists m3 d3,
      resetPassphrase path (Some pass) pass' salt' iv' (m2, d1) = (Ret tt, (m3, d3)) /\ file_holds path pass' key d3 /\
      forall m4, heap_wf m4 -> exists w5 m5 st, OpenWalletKey path (m4, d3) = (Ret w5, (m5, d3)) /\
        Unlock (Some pass') (w5, m5) = (Ret tt, st) /\ PrvKey st = Some key /\ wk_Address st.1 = wk_Address w.
Proof.
  intros Hwf Hs Hi Hs' Hi' path Hw. pose proof key_nonempty as Hne.
  destruct (smake_spec key m Hwf) as (m0 & Hm0 & Hwf0 & Hr0 & Hok0 & Hcap0 & _).
  destruct (new_holds key Hne _ pass salt iv m0 Hok0 Hwf0 Hr0 Hcap0 Hs Hi) as (w & m1 & Hn & Hh & _ & Hv & Ha & Hal & _).
  destruct (save_holds _ _ _ path d Hh Hv Ha Hal Hw) as (d1 & Hsv & Hf).
  exists w, m1, d1. split; [|split; [done|]].
  { unfold createWalletKeyFile. erewrite bindM_step by (apply (zoom_eq lens_fst); exact Hm0).
    erewrite bindM_step by (apply (zoom_eq lens_fst); exact Hn). rewrite Ha. by erewrite bindM_step by exact Hsv. }
  intros m2 Hwf2. destruct (Hf m2 Hwf2) as (w2 & m2' & Ho & Hh2 & Hl2 & Hv2 & Ha2 & Hal2).
  destruct (unlock_holds _ Hne _ _ Hh2) as ([w3 m3] & Hu & Hh3 & Hpk & (Hi1 & Hi2 & Hi3)).
  assert (Hul : IsLock w3 = false) by (revert Hpk; unfold PrvKey, IsLock; cbn; by destruct (wk_prvKey w3)).
  destruct (lock_with_holds _ Hne _ pass' salt' iv' _ Hh3 Hs' Hi') as ([w4 m4] & Hlk & Hh4 & _ & (Hj1 & Hj2 & Hj3)). cbn [fst] in *. rewrite Hul in Hh4.
  destruct (save_holds _ _ _ path d1 Hh4 ltac:(congruence) ltac:(congruence) ltac:(congruence) Hw) as (d3 & Hsv3 & Hf3).
  exists m4, d3. split; [|split; [done|]].
  { unfold resetPassphrase. rewrite (bindM_step _ _ _ _ _ Ho). rewrite (bindM_step _ _ _ w3 (m3, d1)) by (cbn [fst snd]; by rewrite Hu).
    rewrite (bindM_step _ _ _ w4 (m4, d1)) by (cbn [fst snd]; by rewrite Hlk). exact Hsv3. }
  intros m5 Hwf5. destruct (Hf3 m5 Hwf5) as (w6 & m6 & Ho6 & Hh6 & _ & _ & Ha6 & _).
  destruct (unlock_holds _ Hne _ _ Hh6) as (st & Hu6 & _ & Hp6 & (_ & Hi6 & _)). exists w6, m6, st. split_and!; try done. cbn in Hi6. congruence.
Qed.

(** Writing a key file is not atomic.  [FileIO.Write] replaces the file in
    one step and then truncates and writes it again: a crash between the last
    two calls leaves an empty file, from which the key cannot be opened. *)
Theorem key_file_write_gap path bz m d :
  tempfile_WriteFileAtomic path bz d = (Ret tt, (tempfile_WriteFileAtomic path bz d).2) ->
  os_OpenTrunc path (tempfile_WriteFileAtomic path bz d).2 = (Ret tt, (os_OpenTrunc path (tempfile_WriteFileAtomic path bz d).2).2) ->
  OpenWalletKey path (m, crash_after 2 (FileIO_Write_calls path bz) d) = (Err (NewOrdinary "EOF"), (m, crash_after 2 (FileIO_Write_calls path bz) d)).
Proof.
  intros H1 H2. destruct (file_io_write_gap path bz d H1 H2) as [_ Hg]. set (d' := crash_after _ _ _) in *.
  unfold OpenWalletKey, FileIO_Read. unfold bindM at 1. cbn [snd]. by rewrite Hg.
Qed.
End Files.

(** ** Instances for the examples *)

(** A toy cipher: it shifts every byte by the first byte of the key. *)
Definition toy_shift (d : Z) (sk : list Byte.byte) (l : list Byte.byte) : list Byte.byte :=
  map (fun b => byte_of_Z (byte_val b + d * byte_val (default Byte.x00 (head sk)))) l.

Definition toyKeys : KeyLib := {|
  pbkdf2_Key pass salt iter n := take (Z.to_nat n) (pass ++ salt ++ replicate (Z.to_nat n) Byte.x00);
  cbc_encrypt sk iv l := toy_shift 1 sk l;
  cbc_decrypt sk iv l := toy_shift (-1) sk l;
  tm_PubKey prv := take 33 (prv ++ replicate 33 Byte.x00);
  tm_Sign msg prv := inr (Byte.x01 :: take 2 prv ++ take 2 msg);
  ethec_Sign h prv := inr prv;
  ethec_VerifySignature pub h sig := bool_decide (take 20 pub = take 20 sig);
|}.

Lemma toyKeys_laws : @KeyLibLaws toyKeys.
Proof.
  constructor; cbn.
  - intros. rewrite length_take, !length_app, length_replicate. lia.
  - intros. unfold toy_shift. by rewrite length_map.
  - intros sk iv l _ _ _. unfold toy_shift. rewrite map_map. rewrite <- (map_id l) at 2. apply map_ext. intros b.
    apply byte_val_inj. rewrite !byte_val_of_Z. set (k := byte_val (default _ _)). pose proof (byte_val_bound b).
    rewrite Zplus_mod_idemp_l. replace (byte_val b + 1 * k + -1 * k) with (byte_val b) by lia. by apply Z.mod_small.
  - intros. rewrite length_take, length_app. cbn [length]. lia.
Qed.

(** A toy document format: byte strings with their length in front. *)
Definition put_bytes (l : list Byte.byte) : list Byte.byte := byte_of_Z (len l) :: l.
Definition get_bytes (l : list Byte.byte) : option (list Byte.byte * list Byte.byte) :=
  match l with [] => None | n :: l' => Some (take (Z.to_nat (byte_val n)) l', drop (Z.to_nat (byte_val n)) l') end.

Lemma get_put_bytes l r : (length l < 256)%nat -> get_bytes (put_bytes l ++ r) = Some (l, r).
Proof.
  intros Hl. unfold get_bytes, put_bytes. cbn. rewrite byte_val_of_Z, Z.mod_small, Nat2Z.id by lia.
  by rewrite take_app_length, drop_app_length.
Qed.

Definition doc_bytes (j : WalletKeyJSON) : list Byte.byte :=
  put_bytes (wj_Address j) ++
  match wj_cp j with None => [Byte.x00] | Some (_, text, iv, _) => Byte.x01 :: put_bytes text ++ put_bytes iv end ++
  match wj_dkp j with None => [Byte.x00] | Some dk => Byte.x01 :: put_bytes (dk_Salt dk) ++ [byte_of_Z (dk_Iter dk - 600000)] end.

Definition get_flag (l : list Byte.byte) : option (bool * list Byte.byte) :=
  match l with [] => None | x :: l' => Some (bool_decide (x = Byte.x01), l') end.

Definition doc_parse (bz : list Byte.byte) : option WalletKeyJSON :=
  '(addr, r) ← get_bytes bz;
  '(has_cp, r) ← get_flag r;
  '(cp, r) ← (if has_cp : bool then '(text, r) ← get_bytes r; '(iv, r) ← get_bytes r; Some (Some (SymmAlgo, text, iv, []), r)
              else Some (None, r));
  '(has_dk, r) ← get_flag r;
  dkp ← (if has_dk : bool then '(salt, r) ← get_bytes r;
           n ← head r; Some (Some (mkDkParams "pbkdf2" DefaultHasherName (600000 + byte_val n) salt DKLEN))
         else Some None);
  Some (mkWalletKeyJSON 1 addr AsymmAlgo cp dkp).

Definition docCodec : Codec WalletKeyJSON := {|
  codec_Marshal j := inr (doc_bytes j);
  codec_Unmarshal bz := match doc_parse bz with Some j => inr j | None => inl "malformed"%string end;
|}.

Definition walletCrypto : EthCrypto := {|
  PrivateKey := list Byte.byte; PublicKey := list Byte.byte; public_of prv := prv;
  eth_Sign h prv := inr prv; eth_SigToPub h sig := inr sig;
  eth_CompressPubkey pub := take 33 (pub ++ replicate 33 Byte.x00);
  eth_VerifySignature pub h sig := bool_decide (take 20 pub = take 20 sig);
  tm_Address pub := take 20 (pub ++ replicate 20 Byte.x00);
  sha256 m := take 32 m;
|}.

Lemma get_flags r : get_flag (Byte.x00 :: r) = Some (false, r) /\ get_flag (Byte.x01 :: r) = Some (true, r).
Proof. done. Qed.

Ltac parse_doc :=
  repeat first
    [ rewrite (proj1 (get_flags _)) | rewrite (proj2 (get_flags _)) | rewrite get_put_bytes by lia
    | rewrite <- app_assoc | progress cbn [app mbind option_bind dk_Salt dk_Iter head] ].

Lemma doc_parse_bytes j : wj_ok j -> doc_parse (doc_bytes j) = Some j /\ (0 < length (doc_bytes j) <= 1000)%nat.
Proof.
  destruct j as [v a al cp dk]. intros (Hv & Hal & Ha & Hcp & Hdk). cbn [wj_Version wj_Address wj_Algo wj_cp wj_dkp] in *. subst.
  split.
  - unfold doc_parse, doc_bytes. cbn [wj_Address wj_cp wj_dkp].
    destruct cp as [[[[algo text] iv] salt]|]; [destruct Hcp as (-> & Ht & Hi & ->)|];
    (destruct dk as [[da dp di ds dl]|]; [cbn in Hdk; destruct Hdk as (-> & -> & Hit & Hs & ->)|]); parse_doc; try done;
    rewrite byte_val_of_Z, Z.mod_small by lia; by rewrite Zplus_minus.
  - unfold doc_bytes, put_bytes. cbn [wj_Address wj_cp wj_dkp app length]. rewrite !length_app.
    destruct cp as [[[[algo text] iv] salt]|], dk as [[da dp di ds dl]|]; cbn in Hcp, Hdk; cbn [app length dk_Salt]; rewrite ?length_app; cbn [length]; lia.
Qed.

Lemma docCodec_laws : @KeyFileLaws walletCrypto docCodec.
Proof.
  constructor.
  - intros j Hj. destruct (doc_parse_bytes j Hj) as [Hp Hl]. exists (doc_bytes j). split; [done|]. split; [done|].
    unfold codec_Unmarshal, docCodec. by rewrite Hp.
  - intros pub. cbn. rewrite length_take, length_app. cbn [length]. lia.
Qed.

Definition keyMem : mem := Heap {[ 1%positive := replicate 32 Byte.x07 ]} 2.
Lemma keyMem_wf : heap_wf keyMem.
Proof. intros p a. cbn [objs keyMem hnext]. rewrite lookup_singleton. case_decide; [intros _; subst; lia|done]. Qed.

Lemma wallet_keeps_key_witness :
  let EC := walletCrypto in let KL := toyKeys in
  exists w m', NewWalletKeyWith (Slice 1 32) (Some [Byte.x05]) (replicate 32 Byte.x02) (replicate 16 Byte.x03) keyMem = (Ret w, m') /\
  exists st', Unlock (Some [Byte.x05]) (w, m') = (Ret tt, st') /\ PrvKey st' = Some (replicate 32 Byte.x07).
Proof.
  intros EC KL.
  destruct (@wallet_keeps_key EC KL toyKeys_laws (Slice 1 32) [Byte.x05] (replicate 32 Byte.x02) (replicate 16 Byte.x03) keyMem)
    as (w & m' & Hn & _ & _ & _ & Hall).
  - exists (replicate 32 Byte.x07). split; [reflexivity|cbn; lia].
  - exact keyMem_wf.
  - discriminate.
  - reflexivity.
  - reflexivity.
  - reflexivity.
  - exists w, m'. split; [exact Hn|]. destruct (Hall [Byte.x05] (w, m')) as [Hu _]; [apply rtc_refl|exact Hu].
Defined.

Lemma plain_wallet_lost_by_lock_witness :
  let EC := walletCrypto in let KL := toyKeys in
  exists w m' st st', NewWalletKeyWith (Slice 1 32) None [] [] keyMem = (Ret w, m') /\ wk_Lock (w, m') = (Ret tt, st) /\
    Unlock None st = (Ret tt, st') /\ PrvKey st' = Some (replicate 32 Byte.x00).
Proof.
  intros EC KL.
  destruct (@plain_wallet_lost_by_lock EC KL toyKeys_laws (Slice 1 32) [] [] keyMem) as (w & m' & Hn & _ & st & Hl & _ & st' & Hu & Hp).
  - exists (replicate 32 Byte.x07). split; [reflexivity|cbn; lia].
  - exact keyMem_wf.
  - discriminate.
  - exists w, m', st, st'. auto.
Defined.

Lemma key_file_roundtrip_witness :
  let EC := walletCrypto in let KL := toyKeys in let CW := docCodec in
  exists w m1 d1, createWalletKeyFile (fun _ => "wk.json") (replicate 32 Byte.x07) (Some [Byte.x05]) (replicate 32 Byte.x02) (replicate 16 Byte.x03)
    (heap_empty, ∅) = (Ret w, (m1, d1)) /\ file_holds "wk.json" [Byte.x05] (replicate 32 Byte.x07) d1.
Proof.
  intros EC KL CW.
  destruct (@key_file_roundtrip EC KL toyKeys_laws mapFS mapFS_laws CW docCodec_laws (replicate 32 Byte.x07) eq_refl (fun _ => "wk.json"%string)
    [Byte.x05] [Byte.x06] (replicate 32 Byte.x02) (replicate 16 Byte.x03) (replicate 32 Byte.x02) (replicate 16 Byte.x03) heap_empty ∅)
    as (w & m1 & d1 & Hc & Hf & _).
  - exact heap_wf_empty.
  - reflexivity.
  - reflexivity.
  - reflexivity.
  - reflexivity.
  - intros bz d. eexists. reflexivity.
  - exists w, m1, d1. auto.
Defined.

Lemma key_file_write_gap_witness :
  let CW := docCodec in
  let d : Disk := ∅ in
  OpenWalletKey "wk.json" (heap_empty, crash_after 2 (FileIO_Write_calls "wk.json" [Byte.x07]) d) =
  (Err (NewOrdinary "EOF"), (heap_empty, crash_after 2 (FileIO_Write_calls "wk.json" [Byte.x07]) d)).
Proof. intros CW d. apply (@key_file_write_gap mapFS mapFS_laws CW "wk.json" [Byte.x07] heap_empty d); reflexivity. Defined.
