(* ===== verification/FilePV.v ===== *)
(** * The signing state of a validator: [types/crypto/sfile_pv.go]

    A validator signs votes and proposals.  [SFilePV] keeps the height, round
    and step of the last signature, with the signature and the bytes that were
    signed, in memory and in a file, and refuses to sign twice for one height,
    round and step.  Tendermint's messages and their canonical encodings are
    parameters; the current time is an argument.  [tmos.Exit] ends the process
    like a panic. *)

From Stdlib Require Import Strings.Byte.
From S2P Require Import Prelude Xerrors GoSem Bytes Crypto GovParams Slice FileIO WalletKey.

Definition stepNone : Z := 0.
Definition stepPropose : Z := 1.
Definition stepPrevote : Z := 2.
Definition stepPrecommit : Z := 3.

(** [SignedMsgType] of Tendermint. *)
Definition PrevoteType : Z := 1.
Definition PrecommitType : Z := 2.

(** Tendermint's messages: the fields the code reads or writes, and the rest. *)
Record Vote (Time Rest : Type) : Type := mkVote {
  v_Type : Z; v_Height : Z; v_Round : Z; v_Timestamp : Time; v_Signature : option (list Byte.byte); v_rest : Rest;
}.
Record TmProposal (Time Rest : Type) : Type := mkTmProposal {
  p_Height : Z; p_Round : Z; p_Timestamp : Time; p_Signature : option (list Byte.byte); p_rest : Rest;
}.
Arguments mkVote {Time Rest}. Arguments v_Type {Time Rest}. Arguments v_Height {Time Rest}. Arguments v_Round {Time Rest}.
Arguments v_Timestamp {Time Rest}. Arguments v_Signature {Time Rest}. Arguments v_rest {Time Rest}.
Arguments mkTmProposal {Time Rest}. Arguments p_Height {Time Rest}. Arguments p_Round {Time Rest}.
Arguments p_Timestamp {Time Rest}. Arguments p_Signature {Time Rest}. Arguments p_rest {Time Rest}.

(** A canonical message: what is signed.  [C] is [CanonicalVote] or
    [CanonicalProposal]. *)
Class Canonical (Time M C : Type) := {
  Canonicalize : string -> M -> C;
  MarshalDelimited : C -> list Byte.byte;
  UnmarshalDelimited : list Byte.byte -> option C;
  c_Timestamp : C -> Time;
  c_set_Timestamp : Time -> C -> C;
  proto_Equal : C -> C -> bool;
}.

(** [VoteSignBytes] and [ProposalSignBytes]: "the proto-encoding of the
    canonicalized message, for signing". *)
Definition SignBytesOf {Time M C} `{Canonical Time M C} (chainID : string) (msg : M) : list Byte.byte :=
  MarshalDelimited (Canonicalize chainID msg).

Record SFilePVKey : Type := mkSFilePVKey {
  k_Address : list Byte.byte; k_PubKey : list Byte.byte; k_PrivKey : list Byte.byte; k_filePath : string;
}.
Record SFilePVLastSignState : Type := mkLastSignState {
  ls_Height : Z; ls_Round : Z; ls_Step : Z;
  ls_Signature : option (list Byte.byte); ls_SignBytes : option (list Byte.byte);
  ls_filePath : string;
}.
Record SFilePV : Type := mkSFilePV { pv_Key : SFilePVKey; LastSignState : SFilePVLastSignState }.

(** The fields written to the state file. *)
Record LastSignJSON : Type := mkLastSignJSON {
  lj_Height : Z; lj_Round : Z; lj_Step : Z; lj_Signature : option (list Byte.byte); lj_SignBytes : option (list Byte.byte);
}.
Definition ls_toJSON (l : SFilePVLastSignState) : LastSignJSON :=
  mkLastSignJSON (ls_Height l) (ls_Round l) (ls_Step l) (ls_Signature l) (ls_SignBytes l).
Definition ls_fromJSON (j : LastSignJSON) (path : string) : SFilePVLastSignState :=
  mkLastSignState (lj_Height j) (lj_Round j) (lj_Step j) (lj_Signature j) (lj_SignBytes j) path.

Definition voteToStep {Time Rest} (vote : Vote Time Rest) : outcome Z :=
  if v_Type vote =? PrevoteType then Ret stepPrevote
  else if v_Type vote =? PrecommitType then Ret stepPrecommit
  else Panic.

(** [CheckHRS]: may we sign for this height, round and step, and has it been
    signed already? *)
Definition CheckHRS (lss : SFilePVLastSignState) (height round step : Z) : outcome bool :=
  if height <? ls_Height lss then Err (NewOrdinary "height regression. Got %v, last height %v")
  else if ls_Height lss =? height then
    if round <? ls_Round lss then Err (NewOrdinary "round regression at height %v. Got %v, last round %v")
    else if ls_Round lss =? round then
      if step <? ls_Step lss then Err (NewOrdinary "step regression at height %v round %v. Got %v, last step %v")
      else if ls_Step lss =? step then
        match ls_SignBytes lss, ls_Signature lss with
        | Some _, None => Panic
        | Some _, Some _ => Ret true
        | None, _ => Err (NewOrdinary "no SignBytes found")
        end
      else Ret false
    else Ret false
  else Ret false.

Section FilePV.
Context {EC : EthCrypto} {KL : KeyLib} `{FS : FileSystem} {CW : Codec WalletKeyJSON} {CL : Codec LastSignJSON}.
Context {Time VRest PRest CVote CProposal : Type}.
Context {CanV : Canonical Time (Vote Time VRest) CVote} {CanP : Canonical Time (TmProposal Time PRest) CProposal}.

Definition v_set (ts : Time) (sig : option (list Byte.byte)) (v : Vote Time VRest) : Vote Time VRest :=
  mkVote (v_Type v) (v_Height v) (v_Round v) ts sig (v_rest v).
Definition p_set (ts : Time) (sig : option (list Byte.byte)) (p : TmProposal Time PRest) : TmProposal Time PRest :=
  mkTmProposal (p_Height p) (p_Round p) ts sig (p_rest p).

(** ** Saving *)
Definition Save (lss : SFilePVLastSignState) : GoM Disk unit :=
  if bool_decide (ls_filePath lss = ""%string) then panicM
  else match codec_Marshal (ls_toJSON lss) with
       | inl _ => panicM
       | inr jsonBytes => must (tempfile_WriteFileAtomic (ls_filePath lss) jsonBytes)
       end.

(** The state of the process: the validator, the memory and the files. *)
Abbreviation PvSt := (SFilePV * (mem * Disk))%type.
Definition lens_disk : lens PvSt Disk := Lens (fun s => s.2.2) (fun d s => (s.1, (s.2.1, d))).
Definition lens_env : lens PvSt (mem * Disk) := Lens (fun s => s.2) (fun e s => (s.1, e)).
Definition setState (l : SFilePVLastSignState) : GoM PvSt unit := modifyM (fun s => (mkSFilePV (pv_Key s.1) l, s.2)).

Definition saveSigned (height round step : Z) (signBytes : list Byte.byte) (sig : list Byte.byte) : GoM PvSt unit :=
  let! pv := getsM fst in
  do! setState (mkLastSignState height round step (Some sig) (Some signBytes) (ls_filePath (LastSignState pv))) in
  let! pv := getsM fst in
  zoom lens_disk (Save (LastSignState pv)).

(** ** Signing *)

(** [checkVotesOnlyDifferByTimestamp] and [checkProposalsOnlyDifferByTimestamp]
    differ in the type [C] of the message. *)
Definition checkOnlyDifferByTimestamp {M C} `{Canonical Time M C} (now : Time) (lastSignBytes newSignBytes : list Byte.byte) : outcome (Time * bool) :=
  match UnmarshalDelimited lastSignBytes, UnmarshalDelimited newSignBytes with
  | Some last, Some new =>
      let lastTime := c_Timestamp last in
      Ret (lastTime, proto_Equal (c_set_Timestamp now new) (c_set_Timestamp now last))
  | _, _ => Panic
  end.
Definition checkVotesOnlyDifferByTimestamp : Time -> list Byte.byte -> list Byte.byte -> outcome (Time * bool) :=
  checkOnlyDifferByTimestamp (H := CanV).
Definition checkProposalsOnlyDifferByTimestamp : Time -> list Byte.byte -> list Byte.byte -> outcome (Time * bool) :=
  checkOnlyDifferByTimestamp (H := CanP).

(** The common body of [signVote] and [signProposal].  [set ts sig] writes the
    timestamp and the signature of the message. *)
Definition signMessage {M} (height round : Z) (step : outcome Z) (signBytes : list Byte.byte)
    (differ : list Byte.byte -> list Byte.byte -> outcome (Time * bool))
    (set : Time -> option (list Byte.byte) -> M -> M) (ts : Time) (msg : M) : GoM PvSt M :=
  let! step := liftO step in
  let! pv := getsM fst in
  let lss := LastSignState pv in
  let! sameHRS := liftO (CheckHRS lss height round step) in
  if sameHRS : bool then
    let lastBytes := default [] (ls_SignBytes lss) in
    if bool_decide (signBytes = lastBytes) then retM (set ts (ls_Signature lss) msg)
    else
      let! '(timestamp, ok) := liftO (differ lastBytes signBytes) in
      if ok : bool then retM (set timestamp (ls_Signature lss) msg)
      else errM (NewOrdinary "conflicting data")
  else
    match tm_Sign signBytes (k_PrivKey (pv_Key pv)) with
    | inl e => errM (NewOrdinary e)
    | inr sig =>
        do! saveSigned height round step signBytes sig in
        retM (set ts (Some sig) msg)
    end.

Definition signVote (now : Time) (chainID : string) (vote : Vote Time VRest) : GoM PvSt (Vote Time VRest) :=
  signMessage (v_Height vote) (v_Round vote) (voteToStep vote) (SignBytesOf chainID vote)
    (checkVotesOnlyDifferByTimestamp now) v_set (v_Timestamp vote) vote.

Definition signProposal (now : Time) (chainID : string) (proposal : TmProposal Time PRest) : GoM PvSt (TmProposal Time PRest) :=
  signMessage (p_Height proposal) (p_Round proposal) (Ret stepPropose) (SignBytesOf chainID proposal)
    (checkProposalsOnlyDifferByTimestamp now) p_set (p_Timestamp proposal) proposal.

Definition SignVote (now : Time) (chainID : string) (vote : Vote Time VRest) : GoM PvSt (Vote Time VRest) :=
  let! r := tryM (signVote now chainID vote) in
  match r with inl _ => errM (NewOrdinary "error signing vote: %v") | inr v => retM v end.

Definition SignProposal (now : Time) (chainID : string) (proposal : TmProposal Time PRest) : GoM PvSt (TmProposal Time PRest) :=
  let! r := tryM (signProposal now chainID proposal) in
  match r with inl _ => errM (NewOrdinary "error signing proposal: %v") | inr p => retM p end.

(** ** Making, saving and loading a validator *)
Definition NewSFilePV (privKey : list Byte.byte) (keyFilePath stateFilePath : string) : outcome SFilePV :=
  match PubBytes2Addr (tm_PubKey privKey) with
  | Ret addr => Ret (mkSFilePV (mkSFilePVKey addr (tm_PubKey privKey) privKey keyFilePath)
                      (mkLastSignState 0 0 stepNone None None stateFilePath))
  | _ => Panic
  end.

(** The slice handed to the wallet key is not used after the file is written. *)
Definition Key_SaveWith (k : SFilePVKey) (s : option (list Byte.byte)) (salt iv : list Byte.byte) : GoM (mem * Disk) unit :=
  if bool_decide (k_filePath k = ""%string) then panicM
  else
    let! key := zoom lens_fst (smake (k_PrivKey k)) in
    let! walKey := zoom lens_fst (NewWalletKeyWith key s salt iv) in
    must (wk_Save walKey (k_filePath k)).

Definition SaveWith (s : option (list Byte.byte)) (salt iv : list Byte.byte) : GoM PvSt unit :=
  let! pv := getsM fst in
  do! zoom lens_env (Key_SaveWith (pv_Key pv) s salt iv) in
  zoom lens_disk (Save (LastSignState pv)).

Definition ResetWith (s : option (list Byte.byte)) (salt iv : list Byte.byte) : GoM PvSt unit :=
  let! pv := getsM fst in
  do! setState (mkLastSignState 0 0 0 None None (ls_filePath (LastSignState pv))) in
  SaveWith s salt iv.

Definition loadSFilePV (keyFilePath stateFilePath : string) (loadState : bool) (s : option (list Byte.byte)) : GoM (mem * Disk) SFilePV :=
  let! d := getsM snd in
  match os_ReadFile keyFilePath d with
  | None => panicM
  | Some jsonWalKeyBytes =>
      match codec_Unmarshal (M := WalletKeyJSON) jsonWalKeyBytes with
      | inl _ => panicM
      | inr j =>
          let! walKey := zoom lens_fst (wk_fromJSON j) in
          let! keyBytes := fun e => let '(r, (w, m)) := Unlock s (walKey, e.1) in
                                    match r with
                                    | Ret _ => let clone := default [] (PrvKey (w, m)) in
                                               let '(_, (_, m')) := wk_Lock (w, m) in (Ret clone, (m', e.2))
                                    | _ => (Panic, (m, e.2))
                                    end in
          let! addr := must (liftO (PubBytes2Addr (tm_PubKey keyBytes))) in
          let pvKey := mkSFilePVKey addr (tm_PubKey keyBytes) keyBytes keyFilePath in
          if loadState then
            match os_ReadFile stateFilePath d with
            | None => panicM
            | Some stateJSONBytes =>
                match codec_Unmarshal (M := LastSignJSON) stateJSONBytes with
                | inl _ => panicM
                | inr pvState => retM (mkSFilePV pvKey (ls_fromJSON pvState stateFilePath))
                end
            end
          else retM (mkSFilePV pvKey (mkLastSignState 0 0 0 None None stateFilePath))
      end
  end.

Definition LoadSFilePV (keyFilePath stateFilePath : string) (s : option (list Byte.byte)) := loadSFilePV keyFilePath stateFilePath true s.
Definition LoadSFilePVEmptyState (keyFilePath stateFilePath : string) (s : option (list Byte.byte)) := loadSFilePV keyFilePath stateFilePath false s.

(** [privKey]: the key [GenPrivKey] draws. *)
Definition LoadOrGenSFilePV (keyFilePath stateFilePath : string) (s : option (list Byte.byte)) (privKey salt iv : list Byte.byte) : GoM (mem * Disk) SFilePV :=
  let! d := getsM snd in
  let! pv := if tmos_FileExists keyFilePath d then LoadSFilePV keyFilePath stateFilePath s
             else liftO (NewSFilePV privKey keyFilePath stateFilePath) in
  fun e => let '(r, (pv', e')) := SaveWith s salt iv (pv, e) in
           match r with Ret _ => (Ret pv', e') | Err x => (Err x, e') | Panic => (Panic, e') end.
End FilePV.
