(* ===== verification/FilePVProps.v ===== *)
(** * A validator does not sign twice

    The check of height, round and step, the behaviour of the two signing
    functions, and the main theorem: over any sequence of signing requests,
    crashes, restarts and changes to other files, two released signatures for
    one height, round and step are the same signature of the same bytes. *)

From Stdlib Require Import Strings.Byte.
From S2P Require Import Prelude Xerrors GoSem Bytes Crypto GovParams Slice FileIO WalletKey WalletProps FilePV.

(** ** Heights, rounds and steps *)
Record HRS : Type := mkHRS { hh : Z; hr : Z; hs : Z }.
Definition hrs_of (l : SFilePVLastSignState) : HRS := mkHRS (ls_Height l) (ls_Round l) (ls_Step l).
Definition hrs_lt (a b : HRS) : Prop := hh a < hh b \/ (hh a = hh b /\ (hr a < hr b \/ (hr a = hr b /\ hs a < hs b))).

Lemma hrs_trichotomy a b : hrs_lt a b \/ a = b \/ hrs_lt b a.
Proof.
  destruct a as [h r s], b as [h' r' s']. unfold hrs_lt. cbn.
  destruct (Z.lt_trichotomy h h') as [|[->|]]; [lia| |lia].
  destruct (Z.lt_trichotomy r r') as [|[->|]]; [lia| |lia].
  destruct (Z.lt_trichotomy s s') as [|[->|]]; [lia|auto|lia].
Qed.

Lemma hrs_lt_irrefl a : ~ hrs_lt a a. Proof. unfold hrs_lt. lia. Qed.
Lemma hrs_lt_trans a b c : hrs_lt a b -> hrs_lt b c -> hrs_lt a c. Proof. unfold hrs_lt. lia. Qed.

(** Signing is allowed exactly above the last signature; at the last signature
    the signature is reused; below it there is an error. *)
Lemma check_lt l h r s : hrs_lt (hrs_of l) (mkHRS h r s) -> CheckHRS l h r s = Ret false.
Proof.
  unfold hrs_lt, CheckHRS. cbn. intros H. repeat case_match; try done; rewrite ?Z.ltb_lt, ?Z.ltb_ge, ?Z.eqb_eq, ?Z.eqb_neq in *; lia.
Qed.

Lemma check_gt l h r s : hrs_lt (mkHRS h r s) (hrs_of l) -> exists e, CheckHRS l h r s = Err e.
Proof.
  unfold hrs_lt, CheckHRS. cbn. intros H. repeat case_match; eauto; rewrite ?Z.ltb_lt, ?Z.ltb_ge, ?Z.eqb_eq, ?Z.eqb_neq in *; lia.
Qed.

Lemma check_eq l h r s : hrs_of l = mkHRS h r s ->
  CheckHRS l h r s = match ls_SignBytes l, ls_Signature l with
                     | Some _, None => Panic | Some _, Some _ => Ret true | None, _ => Err (NewOrdinary "no SignBytes found") end.
Proof. intros [= <- <- <-]. unfold CheckHRS. by rewrite !Z.ltb_irrefl, !Z.eqb_refl. Qed.

(** [CheckHRS] compares in lexicographic order.  It lets a height, round
    and step be signed exactly when it lies above the last one; says to reuse the
    signature exactly when it is the last one and has a signature; panics exactly
    when the state has sign bytes without a signature; and fails otherwise. *)
Theorem check_hrs_spec l h r s :
  (CheckHRS l h r s = Ret false <-> hrs_lt (hrs_of l) (mkHRS h r s)) /\
  (CheckHRS l h r s = Ret true <-> hrs_of l = mkHRS h r s /\ is_Some (ls_SignBytes l) /\ is_Some (ls_Signature l)) /\
  (CheckHRS l h r s = Panic <-> hrs_of l = mkHRS h r s /\ is_Some (ls_SignBytes l) /\ ls_Signature l = None) /\
  ((exists e, CheckHRS l h r s = Err e) <-> hrs_lt (mkHRS h r s) (hrs_of l) \/ (hrs_of l = mkHRS h r s /\ ls_SignBytes l = None)).
Proof.
  destruct (hrs_trichotomy (hrs_of l) (mkHRS h r s)) as [H|[H|H]].
  - pose proof (check_lt _ _ _ _ H) as ->. assert (hrs_of l <> mkHRS h r s) by (intros He; rewrite He in H; by apply hrs_lt_irrefl in H).
    assert (~ hrs_lt (mkHRS h r s) (hrs_of l)) by (intros H'; apply (hrs_lt_irrefl (hrs_of l)); eauto using hrs_lt_trans). naive_solver.
  - rewrite (check_eq _ _ _ _ H), H. pose proof (hrs_lt_irrefl (mkHRS h r s)). unfold is_Some.
    destruct (ls_SignBytes l), (ls_Signature l); naive_solver.
  - destruct (check_gt _ _ _ _ H) as [e ->]. assert (hrs_of l <> mkHRS h r s) by (intros He; rewrite He in H; by apply hrs_lt_irrefl in H).
    assert (~ hrs_lt (hrs_of l) (mkHRS h r s)) by (intros H'; apply (hrs_lt_irrefl (hrs_of l)); eauto using hrs_lt_trans). naive_solver.
Qed.

Lemma vote_step_range {Time Rest} (v : Vote Time Rest) s : voteToStep v = Ret s -> s = stepPrevote \/ s = stepPrecommit.
Proof. unfold voteToStep. repeat case_match; intros; simplify_eq; auto. Qed.

(** ** Laws *)

(** Tendermint's canonical messages, for a message with a timestamp [ts] and a
    function [set] that replaces timestamp and signature: the sign bytes decode
    to what was encoded, and depend on the timestamp but not on the signature. *)
Class CanonicalLaws {Time M C} {Can : Canonical Time M C} (ts : M -> Time) (set : Time -> option (list Byte.byte) -> M -> M) : Prop := {
  sign_bytes_decode : forall ch m, UnmarshalDelimited (SignBytesOf ch m) = Some (Canonicalize ch m);
  sign_bytes_nonempty : forall ch m, SignBytesOf ch m <> [];
  canonical_set : forall ch t sig m, Canonicalize ch (set t sig m) = c_set_Timestamp t (Canonicalize ch m);
  canonical_ts : forall ch m, c_Timestamp (Canonicalize ch m) = ts m;
  c_set_get : forall c, c_set_Timestamp (c_Timestamp c) c = c;
  c_set_set : forall t t' c, c_set_Timestamp t (c_set_Timestamp t' c) = c_set_Timestamp t c;
  proto_equal_spec : forall a b, proto_Equal a b = true <-> a = b;
}.

(** Empty byte strings are not written ([omitempty]), so they would be read back
    as nil; a signature has 64 bytes. *)
Definition lj_valid (j : LastSignJSON) : Prop :=
  is_i64 (lj_Height j) /\ is_i32 (lj_Round j) /\ -128 <= lj_Step j < 128 /\ lj_Signature j <> Some [] /\ lj_SignBytes j <> Some [].

Class SignLaws {KL : KeyLib} : Prop := { tm_sign_nonempty : forall msg prv sig, tm_Sign msg prv = inr sig -> sig <> [] }.

Section Signer.
Context {EC : EthCrypto} {KL : KeyLib} {SL : SignLaws} {FS : FileSystem} {FSL : FileSystemLaws}.
Context {CW : Codec WalletKeyJSON} {CL : Codec LastSignJSON} {CLL : CodecLaws LastSignJSON lj_valid} {CLT : CodecTotal LastSignJSON lj_valid}.
Context {Time VRest PRest CVote CProposal : Type}.
Context {CanV : Canonical Time (Vote Time VRest) CVote} {CanP : Canonical Time (TmProposal Time PRest) CProposal}.
Context {LV : CanonicalLaws v_Timestamp v_set} {LP : CanonicalLaws p_Timestamp p_set}.
Context (kf sf : string) (Hsf : sf <> ""%string) (Hkf : kf <> sf).

(** The state file holds [j]. *)
Definition state_file (d : Disk) (j : LastSignJSON) : Prop := exists bz, os_ReadFile sf d = Some bz /\ codec_Unmarshal bz = inr j.

Lemma must_inv {S A} (f : GoM S A) s :
  must f s = match f s with (Ret a, s') => (Ret a, s') | (_, s') => (Panic, s') end.
Proof. unfold must, bindM, tryM. by destruct (f s) as [[]]. Qed.

Lemma save_spec lss d :
  ls_filePath lss = sf -> lj_valid (ls_toJSON lss) ->
  (exists d', Save lss d = (Ret tt, d') /\ state_file d' (ls_toJSON lss) /\ forall p, p <> sf -> os_ReadFile p d' = os_ReadFile p d) \/
  (exists d', Save lss d = (Panic, d') /\ files_kept d d').
Proof.
  intros Hp Hv. unfold Save. rewrite Hp, bool_decide_eq_false_2 by done. destruct (codec_total _ Hv) as [bz Hbz]. rewrite Hbz, must_inv.
  destruct (write_atomic sf bz d) as [(d' & -> & Hs & Ho)|(e & d' & -> & Hk)]; [left|right]; exists d'; [|done].
  split; [done|]. split; [|done]. exists bz. split; [done|]. by apply codec_roundtrip.
Qed.

Section Message.
Context {M C : Type} {Can : Canonical Time M C} (ts : M -> Time) (set : Time -> option (list Byte.byte) -> M -> M) {LC : CanonicalLaws ts set}.
Abbreviation SB := (SignBytesOf (H := Can)).

Lemma sign_bytes_same ch sig m : SB ch (set (ts m) sig m) = SB ch m.
Proof using LC. unfold SignBytesOf. by rewrite canonical_set, <- (canonical_ts (Can := Can) ch m), c_set_get. Qed.

Lemma only_differ now ch0 m0 ch m :
  exists t ok, checkOnlyDifferByTimestamp (H := Can) now (SB ch0 m0) (SB ch m) = Ret (t, ok) /\
    (ok = true -> forall sig, SB ch (set t sig m) = SB ch0 m0).
Proof using LC.
  unfold checkOnlyDifferByTimestamp. rewrite !sign_bytes_decode. eexists _, _. split; [done|].
  intros Heq%proto_equal_spec sig. unfold SignBytesOf. rewrite canonical_set. f_equal.
  apply (f_equal (c_set_Timestamp (Canonical := Can) (c_Timestamp (Canonicalize (Canonical := Can) ch0 m0)))) in Heq. rewrite !c_set_set in Heq. by rewrite Heq, c_set_get.
Qed.

(** What one signing request can do. *)
Inductive sign_result (pv : SFilePV) (e : mem * Disk) (ch : string) (m : M) (x : HRS) : outcome M * (SFilePV * (mem * Disk)) -> Prop :=
  | sign_reused m' b sig t :
      hrs_of (LastSignState pv) = x -> ls_SignBytes (LastSignState pv) = Some b -> ls_Signature (LastSignState pv) = Some sig ->
      m' = set t (Some sig) m -> SB ch m' = b ->
      sign_result pv e ch m x (Ret m', (pv, e))
  | sign_fresh m' sig d' lss :
      hrs_lt (hrs_of (LastSignState pv)) x -> tm_Sign (SB ch m) (k_PrivKey (pv_Key pv)) = inr sig ->
      m' = set (ts m) (Some sig) m -> SB ch m' = SB ch m ->
      lss = mkLastSignState (hh x) (hr x) (hs x) (Some sig) (Some (SB ch m)) sf ->
      state_file d' (ls_toJSON lss) -> (forall p, p <> sf -> os_ReadFile p d' = os_ReadFile p e.2) ->
      sign_result pv e ch m x (Ret m', (mkSFilePV (pv_Key pv) lss, (e.1, d')))
  | sign_refused err : sign_result pv e ch m x (Err err, (pv, e))
  | sign_down pv' d' : files_kept e.2 d' -> hrs_lt (hrs_of (LastSignState pv)) x -> sign_result pv e ch m x (Panic, (pv', (e.1, d'))).

Lemma sign_message_spec now ch m h r s pv e :
  ls_filePath (LastSignState pv) = sf -> is_i64 h -> is_i32 r -> -128 <= s < 128 ->
  (forall b, ls_SignBytes (LastSignState pv) = Some b -> is_Some (ls_Signature (LastSignState pv)) /\
     (hrs_of (LastSignState pv) = mkHRS h r s -> exists ch0 m0, b = SB ch0 m0)) ->
  sign_result pv e ch m (mkHRS h r s)
    (signMessage h r (Ret s) (SB ch m) (checkOnlyDifferByTimestamp (H := Can) now) set (ts m) m (pv, e)).
Proof using SL FSL CLL CLT LC Hsf.
  intros Hp Hh Hr Hs Hwf. destruct e as [mm d]. unfold signMessage.
  rewrite (bindM_step _ _ _ s (pv, (mm, d))) by done. rewrite (bindM_step _ _ _ pv (pv, (mm, d))) by done.
  destruct (hrs_trichotomy (hrs_of (LastSignState pv)) (mkHRS h r s)) as [Hc|[Hc|Hc]].
  - rewrite (check_lt _ _ _ _ Hc). rewrite (bindM_step _ _ _ false (pv, (mm, d))) by done.
    destruct (tm_Sign _ _) as [err|sig] eqn:Es; [constructor|]. unfold saveSigned. rewrite bindM_assoc.
    rewrite (bindM_step _ _ _ pv (pv, (mm, d))) by done. set (lss := mkLastSignState _ _ _ _ _ _).
    rewrite bindM_assoc, (bindM_step _ _ _ tt (mkSFilePV (pv_Key pv) lss, (mm, d))) by done.
    rewrite bindM_assoc, (bindM_step _ _ _ (mkSFilePV (pv_Key pv) lss) (mkSFilePV (pv_Key pv) lss, (mm, d))) by done.
    cbn [LastSignState]. assert (Hv : lj_valid (ls_toJSON lss)).
    { unfold lj_valid. cbn. pose proof (tm_sign_nonempty _ _ _ Es). pose proof (sign_bytes_nonempty (Can := Can) ch m). split_and!; try done; try lia; congruence. }
    destruct (save_spec lss d Hp Hv) as [(d' & Hd & Hf & Ho)|(d' & Hd & Hk)].
    + rewrite (bindM_step _ _ _ tt (mkSFilePV (pv_Key pv) lss, (mm, d'))) by (by apply (zoom_eq lens_disk)).
      eapply (sign_fresh _ (mm, d)); try done. 2: { unfold lss. by rewrite Hp. } apply sign_bytes_same.
    + unfold bindM at 1. rewrite (zoom_eq lens_disk _ (mkSFilePV (pv_Key pv) lss, (mm, d)) _ _ Hd). by apply (sign_down pv (mm, d)).
  - rewrite (check_eq _ _ _ _ Hc). destruct (ls_SignBytes (LastSignState pv)) as [b|] eqn:Eb; [|constructor].
    destruct (Hwf b eq_refl) as [[sig Hsig] Hk]. destruct (Hk Hc) as (ch0 & m0 & ->). rewrite Hsig.
    rewrite (bindM_step _ _ _ true (pv, (mm, d))) by done. cbn [default from_option id].
    destruct (bool_decide _) eqn:Eeq.
    + apply bool_decide_eq_true in Eeq. eapply sign_reused; try done. rewrite <- Eeq. apply sign_bytes_same.
    + destruct (only_differ now ch0 m0 ch m) as (t & ok & Hd & Hok). rewrite Hd. rewrite (bindM_step _ _ _ (t, ok) (pv, (mm, d))) by done.
      destruct ok; [|constructor]. eapply sign_reused; try done. by apply Hok.
  - destruct (check_gt _ _ _ _ Hc) as [err ->]. constructor.
Qed.
End Message.

(** ** The process and its files *)

(** The signed bytes in the state are those of a message of the recorded step. *)
Definition state_wf (j : LastSignJSON) : Prop :=
  lj_valid j /\ forall b, lj_SignBytes j = Some b -> is_Some (lj_Signature j) /\
    (lj_Step j = stepPropose -> exists ch p, b = SignBytesOf (H := CanP) ch p) /\
    (lj_Step j = stepPrevote \/ lj_Step j = stepPrecommit -> exists ch v, b = SignBytesOf (H := CanV) ch v).

(** A signature that left the process. *)
Record signed : Type := mkSigned { sg_at : HRS; sg_bytes : list Byte.byte; sg_sig : option (list Byte.byte) }.

Definition outcome_map {A B} (f : A -> B) (r : outcome A) : outcome B :=
  match r with Ret a => Ret (f a) | Err e => Err e | Panic => Panic end.

Definition vote_at (v : Vote Time VRest) : HRS :=
  mkHRS (v_Height v) (v_Round v) (match voteToStep v with Ret s => s | _ => stepNone end).
Definition proposal_at (p : TmProposal Time PRest) : HRS := mkHRS (p_Height p) (p_Round p) stepPropose.

(** A request to the signer, and its result. *)
Inductive request (pv : SFilePV) (e : mem * Disk) : outcome signed * (SFilePV * (mem * Disk)) -> Prop :=
  | request_vote now ch v r st : is_i64 (v_Height v) -> is_i32 (v_Round v) ->
      SignVote (CanV := CanV) now ch v (pv, e) = (r, st) ->
      request pv e (outcome_map (fun v' => mkSigned (vote_at v') (SignBytesOf (H := CanV) ch v') (v_Signature v')) r, st)
  | request_proposal now ch p r st : is_i64 (p_Height p) -> is_i32 (p_Round p) ->
      SignProposal (CanP := CanP) now ch p (pv, e) = (r, st) ->
      request pv e (outcome_map (fun p' => mkSigned (proposal_at p') (SignBytesOf (H := CanP) ch p') (p_Signature p')) r, st).

(** The validator process ([None] while it is down), its memory and files, and
    the signatures it has released. *)
Record node : Type := mkNode { nd_pv : option SFilePV; nd_env : mem * Disk; nd_log : list signed }.

Inductive node_step : node -> node -> Prop :=
  (** a signature leaves the process *)
  | step_release pv e log x pv' e' : request pv e (Ret x, (pv', e')) ->
      node_step (mkNode (Some pv) e log) (mkNode (Some pv') e' (x :: log))
  | step_refuse pv e log err pv' e' : request pv e (Err err, (pv', e')) ->
      node_step (mkNode (Some pv) e log) (mkNode (Some pv') e' log)
  (** the process dies in a request: by a panic, or after saving the state and
      before the signature is used *)
  | step_down pv e log r pv' e' : request pv e (r, (pv', e')) ->
      node_step (mkNode (Some pv) e log) (mkNode None e' log)
  | step_crash pv e log : node_step (mkNode pv e log) (mkNode None e log)
  (** other files change, the key file too (a write that was interrupted) *)
  | step_files pv mm mm' d d' log : os_ReadFile sf d' = os_ReadFile sf d -> is_Some (os_ReadFile kf d') ->
      node_step (mkNode pv (mm, d) log) (mkNode pv (mm', d') log)
  | step_start e log s prv salt iv r e' : LoadOrGenSFilePV kf sf s prv salt iv e = (r, e') ->
      node_step (mkNode None e log) (mkNode (match r with Ret pv => Some pv | _ => None end) e' log).

(** *** What the state file promises about the log *)
Definition hrs_json (j : LastSignJSON) : HRS := mkHRS (lj_Height j) (lj_Round j) (lj_Step j).
Definition covered (j : LastSignJSON) (x : signed) : Prop :=
  hrs_lt (sg_at x) (hrs_json j) \/
  (sg_at x = hrs_json j /\ lj_SignBytes j = Some (sg_bytes x) /\ lj_Signature j = sg_sig x).
Definition follows (newer older : signed) : Prop :=
  hrs_lt (sg_at older) (sg_at newer) \/ (sg_at older = sg_at newer /\ sg_bytes older = sg_bytes newer /\ sg_sig older = sg_sig newer).

Definition node_inv (n : node) : Prop :=
  exists j, state_file (nd_env n).2 j /\ is_Some (os_ReadFile kf (nd_env n).2) /\ state_wf j /\
    Forall (covered j) (nd_log n) /\ StronglySorted follows (nd_log n) /\
    (forall pv, nd_pv n = Some pv -> LastSignState pv = ls_fromJSON j sf).

Lemma covered_follows j x y :
  covered j y -> sg_at x = hrs_json j -> lj_SignBytes j = Some (sg_bytes x) -> lj_Signature j = sg_sig x -> follows x y.
Proof. intros [Hc|(Hc & Hb & Hs)] Ha Hx Hy; [left; congruence|right]. split_and!; congruence. Qed.

Lemma covered_later j j' x : covered j x -> hrs_lt (hrs_json j) (hrs_json j') -> covered j' x.
Proof. intros [Hc|(Hc & _)] Hl; left; [by eapply hrs_lt_trans|by rewrite Hc]. Qed.

(** A signature for the present state, or for a new one, extends the log. *)
Lemma log_extend j x log :
  Forall (covered j) log -> StronglySorted follows log ->
  sg_at x = hrs_json j -> lj_SignBytes j = Some (sg_bytes x) -> lj_Signature j = sg_sig x ->
  Forall (covered j) (x :: log) /\ StronglySorted follows (x :: log).
Proof.
  intros Hf Hs Ha Hb Hg. split; constructor; try done; [right; done|]. eapply list.Forall_impl; [exact Hf|]. intros y Hy. by eapply covered_follows.
Qed.

(** *** A request *)
Inductive request_result (j : LastSignJSON) (pv : SFilePV) (e : mem * Disk) : outcome signed * (SFilePV * (mem * Disk)) -> Prop :=
  | rr_reused x : sg_at x = hrs_json j -> lj_SignBytes j = Some (sg_bytes x) -> lj_Signature j = sg_sig x ->
      request_result j pv e (Ret x, (pv, e))
  | rr_fresh x j' pv' e' : hrs_lt (hrs_json j) (hrs_json j') -> state_file e'.2 j' -> state_wf j' -> 
      LastSignState pv' = ls_fromJSON j' sf -> (forall p, p <> sf -> os_ReadFile p e'.2 = os_ReadFile p e.2) ->
      sg_at x = hrs_json j' -> lj_SignBytes j' = Some (sg_bytes x) -> lj_Signature j' = sg_sig x ->
      request_result j pv e (Ret x, (pv', e'))
  | rr_refused err : request_result j pv e (Err err, (pv, e))
  | rr_down pv' e' : files_kept e.2 e'.2 -> request_result j pv e (Panic, (pv', e')).

Lemma try_message {S A} (f : GoM S A) (e : XError) s :
  (let! r := tryM f in match r with inl _ => errM e | inr v => retM v end) s =
  match f s with (Ret a, s') => (Ret a, s') | (Err _, s') => (Err e, s') | (Panic, s') => (Panic, s') end.
Proof. unfold bindM, tryM. by destruct (f s) as [[]]. Qed.

Lemma sign_result_request {M C} {Can : Canonical Time M C} (ts : M -> Time) set (at_ : M -> HRS) (sg : M -> option (list Byte.byte)) j pv e ch m res :
  LastSignState pv = ls_fromJSON j sf ->
  (forall t s, at_ (set t s m) = at_ m) -> (forall t s, sg (set t s m) = s) ->
  (forall sig, sig <> [] -> state_wf (ls_toJSON (mkLastSignState (hh (at_ m)) (hr (at_ m)) (hs (at_ m)) (Some sig) (Some (SignBytesOf (H := Can) ch m)) sf))) ->
  sign_result ts set pv e ch m (at_ m) res ->
  request_result j pv e (outcome_map (fun m' => mkSigned (at_ m') (SignBytesOf (H := Can) ch m') (sg m')) res.1, res.2).
Proof using SL.
  intros Hl Hat Hsg Hwf H. destruct H as [m' b sig t Ha Hb Hs Hm Hsb|m' sig d' lss Ha Hsig Hm Hsb Hlss Hsf' Ho|err|pv' d' Hfk Ha];
    cbn [outcome_map fst snd].
  - rewrite Hl in Ha, Hb, Hs. subst m'. apply rr_reused; cbn; [by rewrite Hat|by rewrite Hsb|by rewrite Hsg].
  - rewrite Hl in Ha. eapply (rr_fresh _ _ _ _ (ls_toJSON lss)); try done; subst; cbn.
    + exact Ha.
    + apply Hwf. by eapply tm_sign_nonempty.
    + done.
    + rewrite Hat. by destruct (at_ m).
    + by rewrite Hsb.
    + by rewrite Hsg.
  - apply rr_refused.
  - by apply rr_down.
Qed.

Lemma request_spec j pv e res :
  state_wf j -> LastSignState pv = ls_fromJSON j sf -> request pv e res -> request_result j pv e res.
Proof.
  intros [Hv Hk] Hl Hreq. destruct Hreq as [now ch v r st Hh Hr He|now ch p r st Hh Hr He].
  - unfold SignVote in He. rewrite try_message in He. unfold signVote in He.
    destruct (voteToStep v) as [s| |] eqn:Es.
    2: { by unfold voteToStep in Es; repeat case_match. }
    2: { cbn in He. injection He as <- <-. by constructor. }
    pose proof (vote_step_range _ _ Es) as Hs.
    assert (Hat : vote_at v = mkHRS (v_Height v) (v_Round v) s) by (unfold vote_at; by rewrite Es).
    assert (Hrange : -128 <= s < 128) by (by destruct Hs as [-> | ->]).
    assert (Hst : lj_Step j = s -> lj_Step j = stepPrevote \/ lj_Step j = stepPrecommit) by (intros ->; done).
    pose proof (sign_message_spec v_Timestamp v_set now ch v (v_Height v) (v_Round v) s pv e) as H. rewrite <- Hat in H.
    eapply (sign_result_request _ _ vote_at v_Signature j) in H; try done.
    + unfold checkVotesOnlyDifferByTimestamp in He. destruct (signMessage _ _ _ _ _ _ _ _ _) as [[a|er|] st1]; cbn in H; injection He as <- <-; [done| |done].
      inversion H; subst. apply rr_refused.
    + intros sig Hne. rewrite Hat. cbn. split; [|naive_solver]. 
      split_and!; cbn; try done; try lia; [congruence|]. pose proof (sign_bytes_nonempty (Can := CanV) ch v). congruence.
    + by rewrite Hl.
    + rewrite Hl. cbn. intros b Hb. destruct (Hk b Hb) as (? & _ & Hvv). split; [done|]. rewrite Hat. intros [= _ _ Hj]. auto.
  - unfold SignProposal in He. rewrite try_message in He. unfold signProposal in He.
    pose proof (sign_message_spec p_Timestamp p_set now ch p (p_Height p) (p_Round p) stepPropose pv e) as H. fold (proposal_at p) in H.
    eapply (sign_result_request _ _ proposal_at p_Signature j) in H; try done.
    + unfold checkProposalsOnlyDifferByTimestamp in He. destruct (signMessage _ _ _ _ _ _ _ _ _) as [[a|er|] st1]; cbn in H; injection He as <- <-; [done| |done].
      inversion H; subst. apply rr_refused.
    + intros sig Hne. cbn. split; [|naive_solver].
      split_and!; cbn; try done; try lia; [congruence|]. pose proof (sign_bytes_nonempty (Can := CanP) ch p). congruence.
    + by rewrite Hl.
    + rewrite Hl. cbn. intros b Hb. destruct (Hk b Hb) as (? & Hpp & _). split; [done|]. intros [= _ _ Hj]. auto.
Qed.

(** *** Starting *)
Lemma load_keeps_disk s e : (loadSFilePV kf sf true s e).2.2 = e.2.
Proof.
  revert e. change (keeps (fun e e' : mem * Disk => e'.2 = e.2) (loadSFilePV kf sf true s)).
  assert (Refl : Reflexive (fun e e' : mem * Disk => e'.2 = e.2)) by done.
  assert (Trans : Transitive (fun e e' : mem * Disk => e'.2 = e.2)) by (intros ??? H1 H2; congruence).
  unfold loadSFilePV. apply keeps_bind; [done|by intros e|]. intros d. destruct (os_ReadFile kf d) as [bz|]; [|by intros e].
  destruct (codec_Unmarshal bz) as [|jw]; [by intros e|]. apply keeps_bind; [done| |].
  { intros [mm d1]. unfold zoom. by destruct (wk_fromJSON _ _) as [? ?]. }
  intros w. apply keeps_bind; [done| |].
  { intros [mm d1]. destruct (Unlock _ _) as [[| |] [? ?]]; [|done..]. by destruct (wk_Lock _) as [? [? ?]]. }
  intros key. apply keeps_bind; [done| |].
  { intros e. rewrite must_inv. unfold liftO. by destruct (PubBytes2Addr _). }
  intros addr e. by repeat case_match.
Qed.

Lemma load_state s e pv e' j :
  loadSFilePV kf sf true s e = (Ret pv, e') -> state_file e.2 j -> LastSignState pv = ls_fromJSON j sf /\ k_filePath (pv_Key pv) = kf.
Proof.
  intros Hl (bz & Hbz & Hj). unfold loadSFilePV in Hl. erewrite bindM_step in Hl by done. rewrite Hbz, Hj in Hl.
  destruct (os_ReadFile kf e.2) as [kz|]; [|done]. destruct (codec_Unmarshal kz) as [|jw]; [done|].
  apply bindM_inv in Hl as (w & e1 & _ & Hl). apply bindM_inv in Hl as (key & e2 & _ & Hl). apply bindM_inv in Hl as (addr & e3 & _ & Hl).
  injection Hl as <- _. done.
Qed.

(** Only the file [path] can change, and it does not vanish. *)
Definition file_frame (path : string) (e e' : mem * Disk) : Prop :=
  (forall p, p <> path -> os_ReadFile p e'.2 = os_ReadFile p e.2) /\ (is_Some (os_ReadFile path e.2) -> is_Some (os_ReadFile path e'.2)).

Lemma file_frame_refl path e e' : e'.2 = e.2 -> file_frame path e e'.
Proof. intros H. split; by rewrite H. Qed.

Lemma zoom_mem_frame {A} path (f : GoM mem A) : keeps (file_frame path) (zoom lens_fst f).
Proof. intros [mm d]. apply file_frame_refl. unfold zoom. by destruct (f _). Qed.

Lemma key_save_frame k s salt iv : keeps (file_frame (k_filePath k)) (Key_SaveWith k s salt iv).
Proof.
  assert (Trans : Transitive (file_frame (k_filePath k))).
  { intros e1 e2 e3 [O1 V1] [O2 V2]. split; [intros p Hp; by rewrite O2, O1|auto]. }
  unfold Key_SaveWith. case_bool_decide; [intros e; by apply file_frame_refl|].
  apply keeps_bind; [done|apply zoom_mem_frame|intros key]. apply keeps_bind; [done|apply zoom_mem_frame|intros w].
  intros [mm d]. rewrite must_inv. unfold wk_Save. rewrite (bindM_step _ _ _ (wk_toJSON w mm) (mm, d)) by done.
  destruct (codec_Marshal _) as [|bz]; [by apply file_frame_refl|]. unfold zoom. cbn [lget lens_snd fst snd lset].
  pose proof (file_io_write_frame (k_filePath k) bz d) as Hf. destruct (FileIO_Write _ bz d) as [[| |] d']; exact Hf.
Qed.

(** Starting the process reads the state back and writes it again. *)
Lemma start_spec s prv salt iv e r e' j :
  LoadOrGenSFilePV kf sf s prv salt iv e = (r, e') -> state_file e.2 j -> lj_valid j -> is_Some (os_ReadFile kf e.2) ->
  state_file e'.2 j /\ is_Some (os_ReadFile kf e'.2) /\ forall pv, r = Ret pv -> LastSignState pv = ls_fromJSON j sf.
Proof.
  intros Hl Hj Hv [kz Hk]. unfold LoadOrGenSFilePV in Hl. erewrite bindM_step in Hl by done. rewrite (read_exists _ _ _ Hk) in Hl.
  unfold bindM in Hl. pose proof (load_keeps_disk s e) as Hd. unfold LoadSFilePV in Hl.
  destruct (loadSFilePV kf sf true s e) as [[pv|x|] e1] eqn:El; cbn in Hd; [|injection Hl as <- <-; rewrite Hd; split_and!; eauto; done..].
  destruct (load_state _ _ _ _ _ El Hj) as [Hlss Hkp]. unfold SaveWith in Hl. erewrite bindM_step in Hl by done.
  pose proof (key_save_frame (pv_Key pv) s salt iv e1) as [Ho Hks]. rewrite Hkp, Hd in Ho, Hks. specialize (Hks ltac:(eauto)).
  unfold bindM, zoom at 1 in Hl. cbn [lget lens_env fst snd lset] in Hl. destruct (Key_SaveWith _ _ _ _ e1) as [rk [m2 d2]]. cbn [snd] in Ho, Hks.
  assert (Hj2 : state_file d2 j) by (destruct Hj as (bz & Hbz & ?); exists bz; rewrite Ho by done; done).
  destruct rk; [|injection Hl as <- <-; split_and!; try done..].
  unfold zoom in Hl. cbn [lget lens_disk lset fst snd] in Hl.
  destruct (save_spec (LastSignState pv) d2) as [(d' & Hs & Hf & Ho')|(d' & Hs & Hkept)]; [by rewrite Hlss|by rewrite Hlss; destruct j| |];
    rewrite Hs in Hl; injection Hl as <- <-; cbn [fst snd].
  - rewrite Hlss in Hf. split_and!; [by destruct j|by rewrite Ho'|by intros pv' [= <-]].
  - split_and!; [|by rewrite Hkept|done]. destruct Hj2 as (bz & Hbz & ?). exists bz. by rewrite Hkept.
Qed.

(** *** The invariant *)
Lemma node_step_inv n n' : node_step n n' -> node_inv n -> node_inv n'.
Proof.
  intros Hst (j & Hf & Hk & Hw & Hc & Hs & Hpv). destruct Hst as [pv e log x pv' e' Hr|pv e log err pv' e' Hr|pv e log r pv' e' Hr|pv e log|pv mm mm' d d' log H1 H2|e log s prv salt iv r e' Hl];
    cbn [nd_pv nd_env nd_log] in *.
  - apply (request_spec j) in Hr; [|done|by apply Hpv]. inversion Hr as [? Ha Hb Hg|? j' ? ? Hlt Hf' Hw' Hl' Ho' Ha Hb Hg| |]; subst.
    + destruct (log_extend j x log) as [? ?]; [done..|]. by exists j.
    + destruct (log_extend j' x log) as [? ?]; try done. { eapply list.Forall_impl; [exact Hc|]. intros y Hy. by eapply covered_later. }
      exists j'. cbn. split_and!; try done; [by rewrite Ho'|by intros ? [= <-]].
  - apply (request_spec j) in Hr; [|done|by apply Hpv]. inversion Hr; subst. by exists j.
  - apply (request_spec j) in Hr; [|done|by apply Hpv]. inversion Hr as [? Ha Hb Hg|? j' ? ? Hlt Hf' Hw' Hl' Ho' Ha Hb Hg|?|? ? Hkept]; subst.
    + by exists j.
    + exists j'. cbn. split_and!; try done; [by rewrite Ho'|]. eapply list.Forall_impl; [exact Hc|]. intros y Hy. by eapply covered_later.
    + by exists j.
    + exists j. cbn. split_and!; try done; [|by rewrite Hkept]. destruct Hf as (bz & Hbz & ?). exists bz. by rewrite Hkept.
  - by exists j.
  - exists j. cbn. split_and!; try done. destruct Hf as (bz & Hbz & ?). exists bz. by rewrite H1.
  - destruct (start_spec _ _ _ _ _ _ _ _ Hl Hf (proj1 Hw) Hk) as (? & ? & Hst). exists j. cbn. split_and!; try done.
    intros pv'. destruct r; intros [= <-]. by apply Hst.
Qed.

Lemma node_steps_inv n n' : rtc node_step n n' -> node_inv n -> node_inv n'.
Proof. induction 1; eauto using node_step_inv. Qed.

(** C3: a validator never signs twice.  Whatever votes and proposals it is
    asked to sign, however often it crashes (in the middle of a request, before
    or after the state is saved, or while starting) and restarts, and whatever
    happens to other files: of two released signatures the later one is for a
    greater height, round and step, or it is the very same signature of the very
    same bytes. *)
Theorem no_double_sign e n j :
  state_file e.2 j -> state_wf j -> is_Some (os_ReadFile kf e.2) -> rtc node_step (mkNode None e []) n ->
  StronglySorted follows (nd_log n) /\
  forall x y, x ∈ nd_log n -> y ∈ nd_log n -> sg_at x = sg_at y -> sg_bytes x = sg_bytes y /\ sg_sig x = sg_sig y.
Proof.
  intros Hf Hw Hk Hst. apply node_steps_inv in Hst; [|exists j; cbn; split_and!; try done; constructor].
  destruct Hst as (j' & _ & _ & _ & Hc & Hs & _). split; [done|]. rewrite list.Forall_forall in Hc. clear -Hs.
  assert (Hab : forall x y, follows x y -> sg_at x = sg_at y -> sg_bytes x = sg_bytes y /\ sg_sig x = sg_sig y).
  { intros x y [Hlt|(_ & -> & ->)] Ha; [|done]. rewrite Ha in Hlt. by apply hrs_lt_irrefl in Hlt. }
  induction Hs as [|z log Hs IH Hz]; intros x y Hx Hy Ha; [by apply not_elem_of_nil in Hx|]. rewrite list.Forall_forall in Hz.
  apply elem_of_cons in Hx as [-> |Hx], Hy as [-> |Hy]; [done|by apply Hab; [apply Hz|]| |by apply IH].
  destruct (Hab z x) as [-> ->]; [by apply Hz|done|done].
Qed.

(** C29: a validator can always sign what comes next.  A vote of a proper type
    above the last signature is signed, when the key signs and the state file
    can be written: the vote comes back with a signature of its own sign bytes,
    the state on disk records it, and a second request that differs only in the
    timestamp, even after a restart from that disk, gets the same signature and
    the timestamp that was signed. *)
Theorem fresh_vote_signed now now' ch v t pv e s sig j :
  LastSignState pv = ls_fromJSON j sf -> is_i64 (v_Height v) -> is_i32 (v_Round v) ->
  voteToStep v = Ret s -> hrs_lt (hrs_json j) (mkHRS (v_Height v) (v_Round v) s) ->
  tm_Sign (SignBytesOf (H := CanV) ch v) (k_PrivKey (pv_Key pv)) = inr sig ->
  (forall bz d, exists d', tempfile_WriteFileAtomic sf bz d = (Ret tt, d')) ->
  exists pv' e', SignVote now ch v (pv, e) = (Ret (v_set (v_Timestamp v) (Some sig) v), (pv', e')) /\
    state_file e'.2 (mkLastSignJSON (v_Height v) (v_Round v) s (Some sig) (Some (SignBytesOf ch v))) /\
    forall pv2 m2, LastSignState pv2 = ls_fromJSON (mkLastSignJSON (v_Height v) (v_Round v) s (Some sig) (Some (SignBytesOf ch v))) sf ->
      SignVote now' ch (v_set t None v) (pv2, (m2, e'.2)) = (Ret (v_set (v_Timestamp v) (Some sig) v), (pv2, (m2, e'.2))).
Proof.
  clear Hkf kf. intros Hl Hh Hr Es Hlt Hsig Hwr. assert (Hs : -128 <= s < 128) by (by destruct (vote_step_range _ _ Es) as [-> | ->]).
  set (j1 := mkLastSignJSON _ _ _ _ _).
  assert (Hv : lj_valid j1).
  { pose proof (tm_sign_nonempty _ _ _ Hsig). pose proof (sign_bytes_nonempty (Can := CanV) ch v). unfold lj_valid. cbn. split_and!; try done; try lia; congruence. }
  destruct (codec_total _ Hv) as [bz Hbz]. destruct (Hwr bz e.2) as [d' Hd'].
  exists (mkSFilePV (pv_Key pv) (ls_fromJSON j1 sf)), (e.1, d'). split_and!.
  - unfold SignVote. rewrite try_message. unfold signVote, signMessage. rewrite (bindM_step _ _ _ s (pv, e)) by (by rewrite Es).
    rewrite (bindM_step _ _ _ pv (pv, e)) by done. rewrite check_lt by (by rewrite Hl). rewrite (bindM_step _ _ _ false (pv, e)) by done.
    rewrite Hsig. unfold saveSigned. rewrite bindM_assoc, (bindM_step _ _ _ pv (pv, e)) by done. rewrite Hl.
    set (pv1 := mkSFilePV (pv_Key pv) (ls_fromJSON j1 sf)).
    rewrite bindM_assoc, (bindM_step _ _ _ tt (pv1, e)) by done. rewrite bindM_assoc, (bindM_step _ _ _ pv1 (pv1, e)) by done.
    assert (Hsv : Save (ls_fromJSON j1 sf) e.2 = (Ret tt, d')).
    { unfold Save. cbn [ls_filePath ls_fromJSON]. rewrite bool_decide_eq_false_2 by done. change (ls_toJSON _) with j1. rewrite Hbz. by apply must_ret. }
    rewrite (bindM_step _ _ _ tt (pv1, (e.1, d'))) by (apply (zoom_eq lens_disk); exact Hsv). done.
  - exists bz. cbn [snd]. split; [|by apply codec_roundtrip]. destruct (write_atomic sf bz e.2) as [(? & He & [? _])|(? & ? & He & _)]; congruence.
  - intros pv2 m2 Hl2. unfold SignVote. rewrite try_message. unfold signVote, signMessage. cbn [v_Height v_Round v_Timestamp v_set].
    assert (Est : voteToStep (v_set t None v) = Ret s) by done.
    rewrite (bindM_step _ _ _ s (pv2, (m2, d'))) by (by rewrite Est). rewrite (bindM_step _ _ _ pv2 (pv2, (m2, d'))) by done.
    rewrite check_eq by (by rewrite Hl2). rewrite Hl2. cbn [ls_SignBytes ls_Signature ls_fromJSON lj_SignBytes lj_Signature j1].
    rewrite (bindM_step _ _ _ true (pv2, (m2, d'))) by done. cbn [default from_option id].
    assert (Hc : Canonicalize (Canonical := CanV) ch (v_set t None v) = c_set_Timestamp t (Canonicalize (Canonical := CanV) ch v)) by apply canonical_set.
    case_bool_decide as Heq.
    + apply (f_equal (UnmarshalDelimited (Canonical := CanV))) in Heq. rewrite !sign_bytes_decode in Heq. injection Heq as Heq.
      apply (f_equal (c_Timestamp (Canonical := CanV))) in Heq. rewrite !(canonical_ts (Can := CanV)) in Heq. cbn in Heq. by subst t.
    + unfold checkVotesOnlyDifferByTimestamp, checkOnlyDifferByTimestamp. rewrite !sign_bytes_decode, Hc, c_set_set.
      rewrite (proj2 (proto_equal_spec _ _) eq_refl), (canonical_ts (Can := CanV)). done.
Qed.
End Signer.

(** ** Instances for the examples: votes with an integer for a time *)
Module ToySigner.

#[export] Existing Instances walletCrypto toyKeys docCodec.
#[export] Existing Instances toyKeys_laws docCodec_laws.

Definition lj_tuple (j : LastSignJSON) := (lj_Height j, lj_Round j, lj_Step j, lj_Signature j, lj_SignBytes j).
Definition lj_untuple t := let '(h, r, s, sig, sb) := t in mkLastSignJSON h r s sig sb.
#[export] Instance lj_eq_dec : EqDecision LastSignJSON.
Proof. solve_decision. Defined.
#[export] Instance lj_countable : Countable LastSignJSON.
Proof. apply (inj_countable' lj_tuple lj_untuple). by intros []. Defined.
#[export] Instance lj_codec : Codec LastSignJSON := countCodec LastSignJSON.
#[export] Instance lj_codec_laws : CodecLaws LastSignJSON lj_valid := countCodec_laws _ _.
#[export] Instance lj_codec_total : CodecTotal LastSignJSON lj_valid := countCodec_total _ _.

(** Height, round, type and time of a message, and the chain. *)
Definition canon : Type := Z * Z * Z * Z * string.
Definition canon_bytes (c : canon) : list Byte.byte := Byte.x01 :: match codec_Marshal (Codec := countCodec canon) c with inr b => b | inl _ => [] end.
Definition canon_parse (b : list Byte.byte) : option canon :=
  match b with [] => None | _ :: b => match codec_Unmarshal (Codec := countCodec canon) b with inr c => Some c | inl _ => None end end.
Definition canon_set (t : Z) (c : canon) : canon := let '(h, r, y, _, ch) := c in (h, r, y, t, ch).

Lemma canon_roundtrip c : canon_parse (canon_bytes c) = Some c.
Proof.
  unfold canon_parse, canon_bytes. destruct (codec_Marshal c) as [e|b] eqn:E; [done|].
  assert (Hr : codec_Unmarshal (Codec := countCodec canon) b = inr c) by (by apply (codec_roundtrip (CodecLaws := countCodec_laws canon (fun _ => True)))).
  by rewrite Hr.
Qed.

#[export] Instance canonVote : Canonical Z (Vote Z unit) canon := {|
  Canonicalize ch v := (v_Height v, v_Round v, v_Type v, v_Timestamp v, ch);
  MarshalDelimited := canon_bytes; UnmarshalDelimited := canon_parse;
  c_Timestamp c := let '(_, _, _, t, _) := c in t; c_set_Timestamp := canon_set; proto_Equal a b := bool_decide (a = b) |}.
#[export] Instance canonProposal : Canonical Z (TmProposal Z unit) canon := {|
  Canonicalize ch p := (p_Height p, p_Round p, 32, p_Timestamp p, ch);
  MarshalDelimited := canon_bytes; UnmarshalDelimited := canon_parse;
  c_Timestamp c := let '(_, _, _, t, _) := c in t; c_set_Timestamp := canon_set; proto_Equal a b := bool_decide (a = b) |}.

#[export] Instance canonVote_laws : CanonicalLaws (Can := canonVote) v_Timestamp v_set.
Proof.
  constructor; intros; try done; [apply canon_roundtrip|by destruct c as [[[[? ?] ?] ?] ?]|by destruct c as [[[[? ?] ?] ?] ?]|apply bool_decide_eq_true].
Qed.
#[export] Instance canonProposal_laws : CanonicalLaws (Can := canonProposal) p_Timestamp p_set.
Proof.
  constructor; intros; try done; [apply canon_roundtrip|by destruct c as [[[[? ?] ?] ?] ?]|by destruct c as [[[[? ?] ?] ?] ?]|apply bool_decide_eq_true].
Qed.
#[export] Instance toy_sign_laws : SignLaws (KL := toyKeys).
Proof. constructor. by intros msg prv sig [= <-]. Qed.

(** A validator whose key is stored without a passphrase, and a fresh state. *)
Definition key32 : list Byte.byte := replicate 32 Byte.x07.
Definition j0 : LastSignJSON := mkLastSignJSON 0 0 0 None None.
Definition keyDoc : WalletKeyJSON := mkWalletKeyJSON 1 (take 20 key32) AsymmAlgo (Some (SymmAlgo, key32, [], [])) None.
Definition disk0 : Disk :=
  <["key" := doc_bytes keyDoc]> (<["state" := match codec_Marshal j0 with inr b => b | inl _ => [] end]> ∅).
Definition start0 (e : mem * Disk) := LoadOrGenSFilePV "key" "state" None [] [] [] e.
Definition started (e : mem * Disk) : SFilePV := match (start0 e).1 with Ret pv => pv | _ => mkSFilePV (mkSFilePVKey [] [] [] "") (ls_fromJSON j0 "") end.
Definition vote1 : Vote Z unit := mkVote PrevoteType 10 1 100 None tt.
Definition vote2 : Vote Z unit := mkVote PrevoteType 10 1 200 None tt.

Definition e1 : mem * Disk := (start0 (heap_empty, disk0)).2.
Definition pv1 : SFilePV := started (heap_empty, disk0).
Definition res1 := SignVote 0 "main" vote1 (pv1, e1).
Definition e2 : mem * Disk := (start0 res1.2.2).2.
Definition pv2 : SFilePV := started res1.2.2.
Definition res2 := SignVote 0 "main" vote2 (pv2, e2).
Definition released (r : outcome (Vote Z unit)) : signed :=
  match r with Ret v => mkSigned (vote_at v) (SignBytesOf "main" v) (v_Signature v) | _ => mkSigned (mkHRS 0 0 0) [] None end.

Lemma release_vote pv e log v v' st :
  is_i64 (v_Height v) -> is_i32 (v_Round v) -> SignVote 0 "main" v (pv, e) = (Ret v', st) ->
  node_step "key" "state" (mkNode (Some pv) e log) (mkNode (Some st.1) st.2 (released (Ret v') :: log)).
Proof. intros Hh Hr He. destruct st as [pv' e']. apply step_release. exact (request_vote _ _ _ _ _ _ _ Hh Hr He). Qed.

Definition signed1 : Vote Z unit := match res1.1 with Ret v => v | _ => vote1 end.
Definition signed2 : Vote Z unit := match res2.1 with Ret v => v | _ => vote2 end.

(** Signed, crashed, restarted and asked again. *)
Lemma run_twice e0 pv e v v' st pv' e' w w' st' :
  is_i64 (v_Height v) -> is_i32 (v_Round v) -> is_i64 (v_Height w) -> is_i32 (v_Round w) ->
  start0 e0 = (Ret pv, e) -> SignVote 0 "main" v (pv, e) = (Ret v', st) ->
  start0 st.2 = (Ret pv', e') -> SignVote 0 "main" w (pv', e') = (Ret w', st') ->
  rtc (node_step "key" "state") (mkNode None e0 []) (mkNode (Some st'.1) st'.2 [released (Ret w'); released (Ret v')]).
Proof.
  intros Hv1 Hv2 Hw1 Hw2 S1 H1 S2 H2.
  eapply rtc_l; [exact (step_start "key" "state" e0 [] None [] [] [] (Ret pv) e S1)|].
  eapply rtc_l; [exact (release_vote pv e [] v _ _ Hv1 Hv2 H1)|].
  eapply rtc_l; [apply step_crash|].
  eapply rtc_l; [exact (step_start "key" "state" st.2 _ None [] [] [] (Ret pv') e' S2)|].
  apply rtc_once. exact (release_vote pv' e' _ w _ _ Hw1 Hw2 H2).
Qed.

Lemma toy_run :
  rtc (node_step "key" "state") (mkNode None (heap_empty, disk0) [])
    (mkNode (Some res2.2.1) res2.2.2 [released (Ret signed2); released (Ret signed1)]).
Proof.
  apply (run_twice (heap_empty, disk0) pv1 e1 vote1 signed1 res1.2 pv2 e2 vote2 signed2 res2.2); [done..|vm_compute; reflexivity|vm_compute; reflexivity|vm_compute; reflexivity|vm_compute; reflexivity].
Qed.

Lemma j0_wf : state_wf (CanV := canonVote) (CanP := canonProposal) j0.
Proof. split; [|done]. unfold lj_valid, is_i64, is_i32. cbn. split_and!; try done; lia. Qed.

Lemma no_double_sign_witness :
  sg_bytes (released (Ret signed2)) = sg_bytes (released (Ret signed1)) /\ sg_sig (released (Ret signed2)) = sg_sig (released (Ret signed1)).
Proof.
  apply (no_double_sign "key" "state" ltac:(discriminate) ltac:(discriminate) (heap_empty, disk0)
    (mkNode (Some res2.2.1) res2.2.2 [released (Ret signed2); released (Ret signed1)]) j0).
  - eexists. split; vm_compute; reflexivity.
  - exact j0_wf.
  - eexists. vm_compute. reflexivity.
  - exact toy_run.
  - apply list_elem_of_here.
  - apply list_elem_of_further, list_elem_of_here.
  - vm_compute. reflexivity.
Defined.

Lemma fresh_vote_signed_witness :
  exists pv' e', SignVote 0 "main" vote1 (pv1, e1) = (Ret (v_set 100 (Some [Byte.x01; Byte.x07; Byte.x07; Byte.x01; Byte.x00]) vote1), (pv', e')).
Proof.
  destruct (fresh_vote_signed "state" ltac:(discriminate) 0 0 "main" vote1 200 pv1 e1 stepPrevote [Byte.x01; Byte.x07; Byte.x07; Byte.x01; Byte.x00] j0)
    as (pv' & e' & H & _).
  - vm_compute. reflexivity.
  - split; vm_compute; [discriminate|reflexivity].
  - split; vm_compute; [discriminate|reflexivity].
  - reflexivity.
  - left. reflexivity.
  - vm_compute. reflexivity.
  - intros bz d. eexists. reflexivity.
  - exists pv', e'. exact H.
Defined.
End ToySigner.
