(* ===== verification/Sfeeder.v ===== *)
(** * The secret feeder: [sfeeder/] and the older copy in [libs/sfeeder/]

    A node asks the feeder for the passphrase of its validator key.  The two
    agree on a session key, with which the secret is encrypted on the way; at the
    feeder it lies in a file, encrypted with a key made from the hash of the
    address and the passphrase of the feeder.  gRPC carries the calls; the curve,
    AES and the file system are parameters, and so are the random keys. *)

From Stdlib Require Import Strings.Byte.
From S2P Require Import Prelude Xerrors GoSem Bytes Crypto Slice FileIO GovParams WalletKey WalletProps.

(** The curve: the point that two parties share, and the inverse of the
    compression of keys. *)
Class Curve {EC : EthCrypto} := {
  eth_DecompressPubkey : list Byte.byte -> string + PublicKey;
  ScalarMult : PublicKey -> PrivateKey -> Z * Z;
}.
Class CurveLaws {EC : EthCrypto} {CV : Curve} : Prop := {
  decompress_compress : forall pub, eth_DecompressPubkey (eth_CompressPubkey pub) = inr pub;
  shared_point : forall a b, ScalarMult (public_of a) b = ScalarMult (public_of b) a;
  sha256_length : forall m, length (sha256 m) = 32%nat;
}.

(** ** [common/crypto.go]

    [aes.NewCipher] fails for a key of a wrong length; the initial vector is zero. *)
Section Common.
Context {EC : EthCrypto} {KL : KeyLib}.

Definition err_key_size : XError := NewOrdinary "crypto/aes: invalid key size".

Definition Enc (sk plaintext : list Byte.byte) : outcome (list Byte.byte) :=
  if negb (aes_key_ok sk) then Err err_key_size
  else match PKCS7Padding plaintext aes_BlockSize with
  | Ret padded => crypt_blocks cbc_encrypt sk (ZeroBytes 16) padded
  | Err e => Err e
  | Panic => Panic
  end.

Definition Dec (sk ciphertext : list Byte.byte) : outcome (list Byte.byte) :=
  if negb (aes_key_ok sk) then Err err_key_size
  else match crypt_blocks cbc_decrypt sk (ZeroBytes 16) ciphertext with
  | Ret padded => PKCS7UnPadding padded aes_BlockSize
  | Err e => Err e
  | Panic => Panic
  end.

(** ** [common/secret.go] *)
Context {FS : FileSystem}.

(** [filepath.Join(dataDir, fmt.Sprintf("%X", hashedAddr))] *)
Definition secret_path (dataDir : string) (hashedAddr : list Byte.byte) : string :=
  dataDir +:+ "/" +:+ String.string_of_list_byte (hex_Upper hashedAddr).

Definition WriteSecret (addr secretVal pass : list Byte.byte) (dataDir : string) : GoM Disk unit :=
  let hashedAddr := DefaultHash [addr] in
  let! ciphertext := liftO (Enc (DefaultHash [hashedAddr; pass]) secretVal) in
  FileIO_Write (secret_path dataDir hashedAddr) ciphertext.

(** At most 1024 bytes are read. *)
Definition ReadPlainSecret (addr : list Byte.byte) (dataDir : string) (d : Disk) : outcome (list Byte.byte) :=
  FileIO_Read (secret_path dataDir (DefaultHash [addr])) 1024 d.
Definition ReadSecret (addr pass : list Byte.byte) (dataDir : string) (d : Disk) : outcome (list Byte.byte) :=
  match ReadPlainSecret addr dataDir d with
  | Ret ciphertext => Dec (DefaultHash [DefaultHash [addr]; pass]) ciphertext
  | Err e => Err e
  | Panic => Panic
  end.
End Common.

(** ** The service: [server/handler.go]

    A used session key stays in the map as nil. *)
Section Handler.
Context {EC : EthCrypto} {KL : KeyLib} {CV : Curve} {FS : FileSystem}.

Record SecretFeederHandler : Type := mkHandler {
  sf_storePath : string;
  sf_tempPrvKey : PrivateKey;
  sf_sessionKeys : gmap string (option (list Byte.byte));
  sf_getPass : list Byte.byte;
}.
Definition set_session (id : string) (k : option (list Byte.byte)) (h : SecretFeederHandler) : SecretFeederHandler :=
  mkHandler (sf_storePath h) (sf_tempPrvKey h) (<[id := k]> (sf_sessionKeys h)) (sf_getPass h).
Definition NewSecretFeederHandler (storePath : string) (cb : list Byte.byte) (prv : PrivateKey) : SecretFeederHandler := mkHandler storePath prv ∅ cb.

Abbreviation HM A := (GoM (SecretFeederHandler * Disk) A).

Definition DecompressPubkey (bz : list Byte.byte) : outcome PublicKey :=
  match eth_DecompressPubkey bz with inl e => Err (NewOrdinary e) | inr pub => Ret pub end.

(** [crypto.DefaultHash(x.Bytes(), y.Bytes())] of the shared point. *)
Definition session_key (pub : PublicKey) (prv : PrivateKey) : list Byte.byte :=
  let '(x, y) := ScalarMult pub prv in DefaultHash [u256_Bytes x; u256_Bytes y].

Definition Handshake (id : string) (pub : list Byte.byte) : HM (list Byte.byte) :=
  let! pubC := liftO (DecompressPubkey pub) in
  let! h := getsM fst in
  do! modifyM (fun s => (set_session id (Some (session_key pubC (sf_tempPrvKey h))) s.1, s.2)) in
  retM (CompressPubkey (public_of (sf_tempPrvKey h))).

(** The deferred function drops the key in every case. *)
Definition deferM {S A} (m : GoM S A) (f : S -> S) : GoM S A := fun s => let '(r, s') := m s in (r, f s').

Definition GetSecret (id : string) (addr : list Byte.byte) : HM (list Byte.byte) :=
  let! h := getsM fst in
  match sf_sessionKeys h !! id with
  | None => errM (NewOrdinary "not found key for client(%s)")
  | Some sk =>
      deferM
        (let! d := getsM snd in
         let! plaintext := liftO (ReadSecret addr (sf_getPass h) (sf_storePath h) d) in
         liftO (Enc (default [] sk) plaintext))
        (fun s => (set_session id None s.1, s.2))
  end.

(** Disabled. *)
Definition NewSecret (id : string) (addr secret : list Byte.byte) : HM bool := retM true.
Definition UpdateSecret : HM unit := panicM.

(** ** The node: [client/client.go] *)
Definition client_Handshake (id : string) (prv0 : PrivateKey) : HM (list Byte.byte) :=
  let! resp := Handshake id (CompressPubkey (public_of prv0)) in
  let! pubR := liftO (DecompressPubkey resp) in
  retM (session_key pubR prv0).

(** The error of the handshake is not looked at: a nil key fails later. *)
Definition ReadRemoteCredential (nodeid : string) (target : list Byte.byte) (prv0 : PrivateKey) : HM (list Byte.byte) :=
  let! r := tryM (client_Handshake nodeid prv0) in
  let sk := match r with inl _ => [] | inr sk => sk end in
  let! secret := GetSecret nodeid target in
  liftO (Dec sk secret).
End Handler.

(** ** The older copy: [libs/sfeeder/server/handler.go]

    The secrets are kept in memory; a client with a session key can set them. *)
Module OldFeeder.
Section Handler.
Context {EC : EthCrypto} {KL : KeyLib} {CV : Curve}.

Record LibsFeederHandler : Type := mkLibsHandler {
  privKey : PrivateKey;
  clientKeys : gmap string (option (list Byte.byte));
  secrets : gmap (list Byte.byte) (list Byte.byte);
}.
Definition set_key (id : string) (k : option (list Byte.byte)) (h : LibsFeederHandler) : LibsFeederHandler :=
  mkLibsHandler (privKey h) (<[id := k]> (clientKeys h)) (secrets h).

Definition libs_Handshake (id : string) (pub : list Byte.byte) : GoM LibsFeederHandler (list Byte.byte) :=
  let! pubC := liftO (DecompressPubkey pub) in
  let! h := getM in
  do! modifyM (set_key id (Some (session_key pubC (privKey h)))) in
  retM (CompressPubkey (public_of (privKey h))).

(** The keys of the map of secrets are hexadecimal hashes of addresses. *)
Definition secret_key (addr : list Byte.byte) : list Byte.byte := hex_EncodeToString (DefaultHash [addr]).

Definition libs_NewSecret (id : string) (addr secret : list Byte.byte) : GoM LibsFeederHandler bool :=
  let! h := getM in
  match clientKeys h !! id with
  | None => errM (NewOrdinary "not found key for client(%s)")
  | Some sk =>
      deferM
        (let! plaintext := liftO (Dec (default [] sk) secret) in
         do! modifyM (fun h => mkLibsHandler (privKey h) (clientKeys h) (<[secret_key addr := plaintext]> (secrets h))) in
         retM true)
        (set_key id None)
  end.

Definition libs_GetSecret (id : string) (addr : list Byte.byte) : GoM LibsFeederHandler (list Byte.byte) :=
  let! h := getM in
  match clientKeys h !! id with
  | None => errM (NewOrdinary "not found key for client(%s)")
  | Some sk =>
      deferM
        (match secrets h !! secret_key addr with
         | None => errM (NewOrdinary "%X's secret is not found")
         | Some plaintext => liftO (Enc (default [] sk) plaintext)
         end)
        (set_key id None)
  end.
Definition libs_UpdateSecret : GoM LibsFeederHandler unit := panicM.

(** [client/client.go] and the shell [client/cli/sfsh.go]: [hexAddr] and
    [secret] are what is typed, [prv0] the key of the handshake. *)
Definition libs_client_Handshake (id : string) (prv0 : PrivateKey) : GoM LibsFeederHandler (list Byte.byte) :=
  let! resp := libs_Handshake id (CompressPubkey (public_of prv0)) in
  let! pubR := liftO (DecompressPubkey resp) in
  retM (session_key pubR prv0).

Definition libs_ReadRemoteCredential (nodeid : string) (target : list Byte.byte) (prv0 : PrivateKey) : GoM LibsFeederHandler (list Byte.byte) :=
  let! r := tryM (libs_client_Handshake nodeid prv0) in
  let sk := match r with inl _ => [] | inr sk => sk end in
  let! secret := libs_GetSecret nodeid target in
  liftO (Dec sk secret).

Definition typed_address (hexAddr : list Byte.byte) : outcome (list Byte.byte) :=
  match hex_DecodeString hexAddr with None => Err (NewOrdinary "encoding/hex") | Some addr => Ret addr end.

Definition newSecret (hexAddr secret : list Byte.byte) (prv0 : PrivateKey) : GoM LibsFeederHandler unit :=
  let! addr := liftO (typed_address hexAddr) in
  let! sk := libs_client_Handshake "sfsh" prv0 in
  let! _secret := liftO (Enc sk secret) in
  let! result := libs_NewSecret "sfsh" addr _secret in
  if result : bool then retM tt else errM (NewOrdinary "NewSecret fails").

Definition getSecret (hexAddr : list Byte.byte) (prv0 : PrivateKey) : GoM LibsFeederHandler (list Byte.byte) :=
  let! addr := liftO (typed_address hexAddr) in
  let! sk := libs_client_Handshake "sfsh" prv0 in
  let! secret := libs_GetSecret "sfsh" addr in
  liftO (Dec sk secret).
End Handler.
End OldFeeder.

(** ** Correctness *)
Section FeederProps.
Context {EC : EthCrypto} {KL : KeyLib} {KLL : KeyLibLaws} {CV : Curve} {CVL : CurveLaws} {FS : FileSystem} {FSL : FileSystemLaws}.

Lemma hash_key_ok l : aes_key_ok (DefaultHash l) = true.
Proof. unfold aes_key_ok, DefaultHash. by rewrite sha256_length. Qed.

(** Decryption undoes encryption, which adds at most a block. *)
Lemma enc_dec sk pt : aes_key_ok sk = true -> pt <> [] -> exists ct, Enc sk pt = Ret ct /\ Dec sk ct = Ret pt /\ len ct <= 16 * (len pt / 16 + 1) /\ ct <> [].
Proof.
  intros Hk Hne. destruct (pkcs7_forward pt 16 Hne) as [Hp Hu]; [lia|]. pose proof (padded_multiple pt 16 ltac:(lia)) as Hm.
  pose proof (padded_len pt 16 ltac:(lia)) as Hl. set (pad := pt ++ replicate _ _) in *.
  unfold Enc, Dec, aes_BlockSize, crypt_blocks. rewrite Hk, Hp. cbn [negb]. change (length (ZeroBytes 16) =? 16)%nat with true. cbn [negb].
  unfold aes_BlockSize. rewrite Hm. cbn [negb Z.eqb]. exists (cbc_encrypt sk (ZeroBytes 16) pad). split; [done|].
  rewrite cbc_length, Hm. cbn [negb Z.eqb]. rewrite cbc_inverse by done. split; [done|]. split.
  - rewrite Hl. rewrite (Z.rem_mod_nonneg (len pt) 16) by lia. pose proof (Z.div_mod (len pt) 16 ltac:(lia)). lia.
  - intros He. apply (f_equal length) in He. rewrite cbc_length in He. apply nil_length_inv in He. unfold pad in He. apply app_nil in He as [-> _]. done.
Qed.

Lemma write_read_secret addr secret pass dataDir d d' d2 :
  WriteSecret addr secret pass dataDir d = (Ret tt, d') -> secret <> [] -> len secret <= 1007 ->
  os_ReadFile (secret_path dataDir (DefaultHash [addr])) d2 = os_ReadFile (secret_path dataDir (DefaultHash [addr])) d' ->
  ReadSecret addr pass dataDir d2 = Ret secret.
Proof.
  intros Hw Hne Hlen Hd2. destruct (enc_dec (DefaultHash [DefaultHash [addr]; pass]) secret (hash_key_ok _) Hne) as (ct & He & Hdec & Hct & Hctne).
  unfold WriteSecret in Hw. rewrite (bindM_step _ _ _ ct d) in Hw by (unfold liftO; by rewrite He).
  apply file_io_write_ret, file_set_read in Hw. unfold ReadSecret, ReadPlainSecret, FileIO_Read. rewrite Hd2, Hw.
  assert (len secret / 16 <= 62) by (apply Z.lt_succ_r, Z.div_lt_upper_bound; lia).
  rewrite take_ge by lia. destruct ct; [done|]. exact Hdec.
Qed.

Lemma session_agreed (a b : PrivateKey) : session_key (public_of a) b = session_key (public_of b) a.
Proof. unfold session_key. by rewrite shared_point. Qed.

(** After the handshake the feeder has the key that the node computes. *)
Lemma handshake_spec id prv0 h d :
  client_Handshake id prv0 (h, d) = (Ret (session_key (public_of (sf_tempPrvKey h)) prv0), (set_session id (Some (session_key (public_of (sf_tempPrvKey h)) prv0)) h, d)).
Proof.
  set (key := session_key (public_of (sf_tempPrvKey h)) prv0). unfold client_Handshake.
  rewrite (bindM_step _ _ _ (CompressPubkey (public_of (sf_tempPrvKey h))) (set_session id (Some key) h, d)).
  - rewrite (bindM_step _ _ _ (public_of (sf_tempPrvKey h)) (set_session id (Some key) h, d)); [done|].
    unfold liftO, DecompressPubkey, CompressPubkey. by rewrite decompress_compress.
  - unfold Handshake. rewrite (bindM_step _ _ _ (public_of prv0) (h, d)) by (unfold liftO, DecompressPubkey, CompressPubkey; by rewrite decompress_compress).
    rewrite (bindM_step _ _ _ h (h, d)) by done. rewrite (bindM_step _ _ _ tt (set_session id (Some key) h, d)); [done|].
    unfold modifyM. cbn [fst snd]. by rewrite session_agreed.
Qed.

(** The whole exchange of [ReadRemoteCredential]. *)
Lemma fed_secret addr secret pass dataDir d d' d2 id prv0 h :
  WriteSecret addr secret pass dataDir d = (Ret tt, d') -> secret <> [] -> len secret <= 1007 ->
  os_ReadFile (secret_path dataDir (DefaultHash [addr])) d2 = os_ReadFile (secret_path dataDir (DefaultHash [addr])) d' ->
  sf_storePath h = dataDir -> sf_getPass h = pass ->
  exists h', ReadRemoteCredential id addr prv0 (h, d2) = (Ret secret, (h', d2)) /\ sf_sessionKeys h' !! id = Some None.
Proof.
  intros Hw Hne Hlen Hd2 Hpath Hpass. pose proof (write_read_secret _ _ _ _ _ _ _ Hw Hne Hlen Hd2) as Hread.
  set (key := session_key (public_of (sf_tempPrvKey h)) prv0). destruct (enc_dec key secret) as (ct & He & Hdec & _); [unfold key, session_key; destruct (ScalarMult _ _); apply hash_key_ok|done|].
  set (h1 := set_session id (Some key) h). exists (set_session id None h1). split; [|cbn; apply lookup_insert_eq].
  unfold ReadRemoteCredential. rewrite (bindM_step _ _ _ (inr key) (h1, d2)) by (apply tryM_ret, handshake_spec).
  rewrite (bindM_step _ _ _ ct (set_session id None h1, d2)); [unfold liftO; by rewrite Hdec|].
  unfold GetSecret. rewrite (bindM_step _ _ _ h1 (h1, d2)) by done. cbn [sf_sessionKeys h1 set_session]. rewrite lookup_insert_eq.
  unfold deferM. rewrite (bindM_step _ _ _ d2 (h1, d2)) by done. change (sf_getPass h1) with (sf_getPass h). change (sf_storePath h1) with (sf_storePath h). rewrite Hpath, Hpass.
  rewrite (bindM_step _ _ _ secret (h1, d2)) by (unfold liftO; by rewrite Hread). change (default [] (Some key)) with key. unfold liftO. by rewrite He.
Qed.

(** The node gets the secret.  A secret of at most 1007 bytes that was stored
    for an address under the passphrase of the feeder is what a node reads over
    the network, whatever keys the two have drawn and whatever was stored for
    other addresses since; the session key is used up. *)
Theorem secret_fed addr secret pass dataDir d d' d2 id prv0 h :
  WriteSecret addr secret pass dataDir d = (Ret tt, d') -> secret <> [] -> len secret <= 1007 ->
  os_ReadFile (secret_path dataDir (DefaultHash [addr])) d2 = os_ReadFile (secret_path dataDir (DefaultHash [addr])) d' ->
  sf_storePath h = dataDir -> sf_getPass h = pass ->
  exists h', ReadRemoteCredential id addr prv0 (h, d2) = (Ret secret, (h', d2)) /\ sf_sessionKeys h' !! id = Some None.
Proof. apply fed_secret. Qed.

(** The calls of a feeder, but for handshakes of the client [id]. *)
Inductive other_call (id : string) : SecretFeederHandler * Disk -> SecretFeederHandler * Disk -> Prop :=
  | oc_handshake s id' pub : id' <> id -> other_call id s (Handshake id' pub s).2
  | oc_get s id' addr : other_call id s (GetSecret id' addr s).2
  | oc_new s id' addr secret : other_call id s (NewSecret id' addr secret s).2
  | oc_disk s d : other_call id s (s.1, d).

(** There is no session key, or a used one. *)
Definition no_key (id : string) (s : SecretFeederHandler * Disk) : Prop := mjoin (sf_sessionKeys s.1 !! id) = None.

Lemma no_key_fails id addr s r s' : no_key id s -> GetSecret id addr s = (Ret r, s') -> False.
Proof.
  intros Hk. unfold GetSecret. rewrite (bindM_step _ _ _ s.1 s) by done. unfold no_key in Hk. destruct (sf_sessionKeys s.1 !! id) as [[k|]|]; [done| |done].
  unfold deferM. rewrite (bindM_step _ _ _ s.2 s) by done. unfold bindM, liftO. destruct (ReadSecret _ _ _ _); [|done..]. done.
Qed.

Lemma get_keys id addr s id' : mjoin (sf_sessionKeys (GetSecret id addr s).2.1 !! id') = if decide (id' = id) then None else mjoin (sf_sessionKeys s.1 !! id').
Proof.
  unfold GetSecret. rewrite (bindM_step _ _ _ s.1 s) by done. destruct (sf_sessionKeys s.1 !! id) as [k|] eqn:Ek.
  - unfold deferM. rewrite (bindM_step _ _ _ s.2 s) by done. unfold bindM, liftO.
    destruct (ReadSecret _ _ _ _); [destruct (Enc _ _)|..]; cbn [snd fst set_session sf_sessionKeys]; rewrite lookup_insert; repeat case_decide; congruence || done.
  - cbn [snd fst errM]. case_decide as Hd; [|done]. subst id'. by rewrite Ek.
Qed.

Lemma other_keeps id s s' : other_call id s s' -> no_key id s -> no_key id s'.
Proof.
  unfold no_key. destruct 1 as [s id' pub Hne|s id' addr|s id' addr secret|s d]; intros Hk; [| |done|done].
  - unfold Handshake, bindM, liftO. destruct (DecompressPubkey pub); [|done..]. cbn. by rewrite lookup_insert_ne.
  - rewrite get_keys. by case_decide.
Qed.

(** A session key works once.  After a client has asked for a secret, with
    whatever result, no further request of that client is answered with a secret
    until it makes a new handshake, whatever other clients do. *)
Theorem session_key_once id addr addr' s s1 s2 r :
  s1 = (GetSecret id addr s).2 -> rtc (other_call id) s1 s2 -> GetSecret id addr' s2 <> (Ret r, (GetSecret id addr' s2).2).
Proof.
  intros -> Hr He. assert (H1 : no_key id (GetSecret id addr s).2) by (unfold no_key; rewrite get_keys; by rewrite decide_True).
  assert (H2 : no_key id s2) by (induction Hr as [|x y z Hxy _ IH]; [done|]; eauto using other_keeps).
  by eapply no_key_fails.
Qed.
End FeederProps.

(** ** The older feeder *)
Module OldFeederProps.
Import OldFeeder.
Section Props.
Context {EC : EthCrypto} {KL : KeyLib} {KLL : KeyLibLaws} {CV : Curve} {CVL : CurveLaws}.

Lemma libs_handshake_spec id prv0 h :
  let key := session_key (public_of (privKey h)) prv0 in
  aes_key_ok key = true /\ libs_client_Handshake id prv0 h = (Ret key, set_key id (Some key) h).
Proof.
  intros key. split; [unfold key, session_key; destruct (ScalarMult _ _); apply hash_key_ok|].
  unfold libs_client_Handshake. rewrite (bindM_step _ _ _ (CompressPubkey (public_of (privKey h))) (set_key id (Some key) h)).
  - rewrite (bindM_step _ _ _ (public_of (privKey h)) (set_key id (Some key) h)); [done|]. unfold liftO, DecompressPubkey, CompressPubkey. by rewrite decompress_compress.
  - unfold libs_Handshake. rewrite (bindM_step _ _ _ (public_of prv0) h) by (unfold liftO, DecompressPubkey, CompressPubkey; by rewrite decompress_compress).
    rewrite (bindM_step _ _ _ h h) by done. rewrite (bindM_step _ _ _ tt (set_key id (Some key) h)); [done|]. unfold modifyM. by rewrite <- session_agreed.
Qed.

(** A secret that is there is read by any client, over its own session. *)
Lemma old_secret_read id addr secret prv0 h :
  secrets h !! secret_key addr = Some secret -> secret <> [] ->
  exists h', libs_ReadRemoteCredential id addr prv0 h = (Ret secret, h') /\ secrets h' = secrets h.
Proof.
  intros Hs Hne. destruct (libs_handshake_spec id prv0 h) as [Hok Hh]. set (key := session_key _ prv0) in *. destruct (enc_dec key secret Hok Hne) as (ct & He & Hd & _).
  exists (set_key id None (set_key id (Some key) h)). split; [|done]. unfold libs_ReadRemoteCredential.
  rewrite (bindM_step _ _ _ (inr key) (set_key id (Some key) h)) by (apply tryM_ret, Hh).
  rewrite (bindM_step _ _ _ ct (set_key id None (set_key id (Some key) h))); [unfold liftO; by rewrite Hd|].
  unfold libs_GetSecret. erewrite bindM_step by reflexivity. cbn [clientKeys set_key]. rewrite lookup_insert_eq. unfold deferM. cbn [secrets set_key]. rewrite Hs. unfold liftO. cbn. by rewrite He.
Qed.

(** What is typed in the shell for an address is what a node reads later, until
    another secret is typed for that address. *)
Lemma old_secret_fed hexAddr addr secret prv0 h :
  hex_DecodeString hexAddr = Some addr -> secret <> [] ->
  exists h', newSecret hexAddr secret prv0 h = (Ret tt, h') /\
    forall id prv1 h2, secrets h2 !! secret_key addr = secrets h' !! secret_key addr -> exists h3, libs_ReadRemoteCredential id addr prv1 h2 = (Ret secret, h3).
Proof.
  intros Ha Hne. destruct (libs_handshake_spec "sfsh" prv0 h) as [Hok Hh]. set (key := session_key _ prv0) in *. destruct (enc_dec key secret Hok Hne) as (ct & He & Hd & _).
  set (h1 := set_key "sfsh" (Some key) h) in *.
  set (h2 := set_key "sfsh" None (mkLibsHandler (privKey h1) (clientKeys h1) (<[secret_key addr := secret]> (secrets h1)))). exists h2. split.
  - unfold newSecret. rewrite (bindM_step _ _ _ addr h) by (unfold liftO, typed_address; by rewrite Ha). rewrite (bindM_step _ _ _ _ _ Hh).
    rewrite (bindM_step _ _ _ ct h1) by (unfold liftO; by rewrite He). rewrite (bindM_step _ _ _ true h2); [done|].
    unfold libs_NewSecret. rewrite (bindM_step _ _ _ h1 h1) by done. unfold h1 at 1. cbn [clientKeys set_key]. rewrite lookup_insert_eq. unfold deferM.
    rewrite (bindM_step _ _ _ secret h1) by (unfold liftO; cbn [default from_option id]; by rewrite Hd). reflexivity.
  - intros id prv1 h3 H3. unfold h2 in H3. cbn [secrets set_key] in H3. rewrite lookup_insert_eq in H3. destruct (old_secret_read id addr secret prv1 h3 H3 Hne) as (h4 & H4 & _). by exists h4.
Qed.
End Props.
End OldFeederProps.

(** ** Witnesses *)
Module FeederScene.
#[local] Instance plainCrypto : EthCrypto := {|
  PrivateKey := list Byte.byte; PublicKey := list Byte.byte; public_of prv := prv;
  eth_Sign h prv := inr prv; eth_SigToPub h sig := inr sig; eth_CompressPubkey pub := pub;
  eth_VerifySignature pub h sig := bool_decide (pub = sig); tm_Address pub := take 20 pub;
  sha256 m := take 32 (m ++ replicate 32 Byte.x00);
|}.
#[local] Instance plainCurve : Curve := {| eth_DecompressPubkey bz := inr bz; ScalarMult pub prv := (be_value pub * be_value prv, 0) |}.
#[local] Instance plainCurve_laws : CurveLaws.
Proof.
  constructor; [done| |intros m; cbn; rewrite length_take, length_app; cbn [length]; lia].
  intros a b. unfold ScalarMult, plainCurve. by rewrite Z.mul_comm.
Qed.
#[local] Instance feederKeys : KeyLib := toyKeys.
#[local] Instance feederKeys_laws : KeyLibLaws := toyKeys_laws.

Definition target : list Byte.byte := replicate 20 Byte.x0c.
Definition hush : list Byte.byte := [Byte.x68; Byte.x75; Byte.x73; Byte.x68].
Definition nodeKey : @PrivateKey plainCrypto := [Byte.x05].
Definition feeder : SecretFeederHandler := NewSecretFeederHandler "/feed" [Byte.x70] [Byte.x03].
Definition feedDisk : Disk (FileSystem := mapFS) := (WriteSecret target hush [Byte.x70] "/feed" ∅).2.

Lemma secret_fed_witness : exists h', ReadRemoteCredential (FS := mapFS) "node" target nodeKey (feeder, feedDisk) = (Ret hush, (h', feedDisk)).
Proof.
  destruct (secret_fed (FS := mapFS) target hush [Byte.x70] "/feed" ∅ feedDisk feedDisk "node" nodeKey feeder) as (h' & H & _).
  - vm_compute. reflexivity.
  - discriminate.
  - cbn. lia.
  - reflexivity.
  - reflexivity.
  - reflexivity.
  - exists h'. exact H.
Defined.

Lemma session_key_once_witness :
  let s1 := (GetSecret "node" target (set_session "node" (Some (replicate 32 Byte.x01)) feeder, feedDisk)).2 in
  let s2 := (Handshake "other" [Byte.x07] s1).2 in
  (exists c, (GetSecret "node" target (set_session "node" (Some (replicate 32 Byte.x01)) feeder, feedDisk)).1 = Ret c) /\
  forall r, GetSecret "node" target s2 <> (Ret r, (GetSecret "node" target s2).2).
Proof.
  intros s1 s2. split; [eexists; vm_compute; reflexivity|]. intros r.
  apply (session_key_once "node" target target (set_session "node" (Some (replicate 32 Byte.x01)) feeder, feedDisk) s1 s2 r eq_refl).
  apply rtc_once. apply (oc_handshake "node" s1 "other" [Byte.x07]). discriminate.
Defined.
End FeederScene.
