(* ===== verification/Account.v ===== *)
(** * Accounts: [ctrlers/types/account.go], [ctrlers/account/acct_codec.go]

    The account struct with its methods, and its protobuf form.  Accounts are
    shared by pointer: a method is a function on the value that the pointer
    refers to, and the controllers run it on the ledger's heap of accounts. *)

From Stdlib Require Import Strings.Byte.
From S2P Require Import Prelude Xerrors GoSem Bytes Ledger LedgerSpec Concrete GovParams.

Definition MAX_ACCT_NAME : Z := 2048.
Definition MAX_ACCT_DOCURL : Z := 2048.

(** [Code] is [None] when the slice is nil: the executor tests for it. *)
Record Account : Type := mkAccount {
  Address : list Byte.byte;
  Name : string;
  Nonce : Z;
  Balance : Z;
  Code_ : option (list Byte.byte);
  DocURL : string;
}.

#[export] Instance account_eq_dec : EqDecision Account.
Proof. solve_decision. Defined.
#[export] Program Instance account_countable : Countable Account :=
  inj_countable' (fun a => (Address a, Name a, Nonce a, Balance a, Code_ a, DocURL a))
    (fun '(v1, v2, v3, v4, v5, v6) => mkAccount v1 v2 v3 v4 v5 v6) _.
Next Obligation. by intros []. Qed.

Definition NewAccount (addr : bytes) : Account := mkAccount addr "" 0 0 None "".
Definition NewAccountWithName (addr : bytes) (name : string) : Account := mkAccount addr name 0 0 None "".

(** [Clone] does not copy [DocURL]. *)
Definition Clone (a : Account) : Account := mkAccount (Address a) (Name a) (Nonce a) (Balance a) (Code_ a) "".

Definition SetName (s : string) (a : Account) : Account :=
  mkAccount (Address a) s (Nonce a) (Balance a) (Code_ a) (DocURL a).
Definition SetDocURL (s : string) (a : Account) : Account :=
  mkAccount (Address a) (Name a) (Nonce a) (Balance a) (Code_ a) s.
Definition SetNonce (n : Z) (a : Account) : Account :=
  mkAccount (Address a) (Name a) n (Balance a) (Code_ a) (DocURL a).
Definition AddNonce (a : Account) : Account := SetNonce (u64 (Nonce a + 1)) a.
Definition SetBalance (amt : Z) (a : Account) : Account :=
  mkAccount (Address a) (Name a) (Nonce a) amt (Code_ a) (DocURL a).
Definition SetCode (c : option (list Byte.byte)) (a : Account) : Account :=
  mkAccount (Address a) (Name a) (Nonce a) (Balance a) c (DocURL a).

Definition CheckNonce (n : Z) (a : Account) : XError + unit :=
  if Nonce a =? n then inr tt else inl ErrInvalidNonce.

(** [Sign] of [uint256.Int] reads the number as two's complement. *)
Definition u256_Sign (z : Z) : Z := if z =? 0 then 0 else if z <? 2 ^ 255 then 1 else -1.

Definition AddBalance (amt : Z) (a : Account) : XError + Account :=
  if u256_Sign amt <? 0 then inl ErrInvalidAmount
  else inr (SetBalance (u256 (Balance a + amt)) a).

Definition SubBalance (amt : Z) (a : Account) : XError + Account :=
  if u256_Sign amt <? 0 then inl ErrInvalidAmount
  else if Balance a <? amt then inl ErrInsufficientFund
  else inr (SetBalance (u256 (Balance a - amt)) a).

Definition CheckBalance (amt : Z) (a : Account) : XError + unit :=
  if Balance a <? amt then inl ErrInsufficientFund else inr tt.

Definition Account_Key (a : Account) : bytes := Array32 (Address a).

(** [AcctKey] and its order. *)
Definition ToAcctKey (addr : bytes) : outcome bytes :=
  if (length addr <? 20)%nat then Panic else Ret (to_array 20 (take 20 addr)).
Definition AcctKeyLess (a b : bytes) : bool := bytes_ltb b a.

(** ** Protobuf *)
Record AcctProto : Type := mkAcctProto {
  pa_Address : list Byte.byte;
  pa_Name : string;
  pa_Nonce : Z;
  pa_XBalance : list Byte.byte;
  pa_XCode : list Byte.byte;
  pa_DocUrl : string;
}.

#[export] Instance acct_proto_eq_dec : EqDecision AcctProto.
Proof. solve_decision. Defined.
#[export] Program Instance acct_proto_countable : Countable AcctProto :=
  inj_countable' (fun a => (pa_Address a, pa_Name a, pa_Nonce a, pa_XBalance a, pa_XCode a, pa_DocUrl a))
    (fun '(v1, v2, v3, v4, v5, v6) => mkAcctProto v1 v2 v3 v4 v5 v6) _.
Next Obligation. by intros []. Qed.

(** A missing [bytes] field is read back as a nil slice. *)
Definition slice_of (bz : bytes) : option (list Byte.byte) := match bz with [] => None | _ => Some bz end.

Definition acct_toProto (a : Account) : AcctProto :=
  mkAcctProto (Address a) (Name a) (Nonce a) (u256_Bytes (Balance a)) (default [] (Code_ a)) (DocURL a).
Definition acct_fromProto (pm : AcctProto) : Account :=
  mkAccount (pa_Address pm) (pa_Name pm) (pa_Nonce pm) (u256_SetBytes (pa_XBalance pm))
    (slice_of (pa_XCode pm)) (pa_DocUrl pm).

(** [ToProto]/[FromProto] of [acct_codec.go] leave [DocUrl] out. *)
Definition ToProto (a : Account) : AcctProto :=
  mkAcctProto (Address a) (Name a) (Nonce a) (u256_Bytes (Balance a)) (default [] (Code_ a)) "".
Definition FromProto (pm : AcctProto) : Account :=
  mkAccount (pa_Address pm) (pa_Name pm) (pa_Nonce pm) (u256_SetBytes (pa_XBalance pm)) (slice_of (pa_XCode pm)) "".

Section AcctCodec.
Context {C : Codec AcctProto}.

Definition Account_Encode (a : Account) : outcome bytes :=
  match codec_Marshal (acct_toProto a) with inl msg => Err (NewOrdinary msg) | inr bz => Ret bz end.
Definition Account_Decode (bz : bytes) : outcome Account :=
  match codec_Unmarshal bz with inl msg => Err (NewOrdinary msg) | inr pm => Ret (acct_fromProto pm) end.

#[export] Instance account_item : ILedgerItem Account := {|
  Key := Account_Key;
  Encode := Account_Encode;
  Decode := Account_Decode;
|}.

Definition EncodeAccount (a : Account) : string + bytes := codec_Marshal (ToProto a).
Definition DecodeAccount (bz : bytes) : string + Account :=
  match codec_Unmarshal bz with inl e => inl e | inr pm => inr (FromProto pm) end.
End AcctCodec.

(** ** Well-formed accounts *)

(** In range, with no empty non-nil code, and with strings that protobuf
    accepts. *)
Definition acct_proto_range (pm : AcctProto) : Prop := is_u64 (pa_Nonce pm).

Definition acct_ok (utf8 : string -> Prop) (a : Account) : Prop :=
  is_u64 (Nonce a) /\ is_u256 (Balance a) /\ Code_ a <> Some [] /\ utf8 (Name a) /\ utf8 (DocURL a).

Definition acct_proto_valid (utf8 : string -> Prop) (pm : AcctProto) : Prop :=
  is_u64 (pa_Nonce pm) /\ utf8 (pa_Name pm) /\ utf8 (pa_DocUrl pm).

Lemma acct_proto_roundtrip a :
  is_u256 (Balance a) -> Code_ a <> Some [] -> acct_fromProto (acct_toProto a) = a.
Proof.
  intros Hb Hc. unfold acct_fromProto, acct_toProto. cbn. rewrite u256_set_bytes by done.
  destruct a as [ad na no ba [[|c l]|] do]; cbn in *; congruence.
Qed.

Section AcctLaws.
Context {C : Codec AcctProto} (utf8 : string -> Prop).
Context {CL : CodecLaws AcctProto acct_proto_range} {CT : CodecTotal AcctProto (acct_proto_valid utf8)}.

#[export] Instance account_item_laws : LedgerItemLaws (acct_ok utf8).
Proof.
  constructor; unfold Encode, Decode, account_item, Account_Encode, Account_Decode.
  - intros a (Hn & _ & _ & Hs & Hd). destruct (codec_total (acct_toProto a)) as [bz ->]; [by split_and!|]. eauto.
  - intros a bz (Hn & Hb & Hc & _). destruct (codec_Marshal (acct_toProto a)) as [|bz'] eqn:E; [done|].
    intros [= <-]. rewrite (codec_roundtrip (codec_valid := acct_proto_range) (acct_toProto a) bz' Hn E).
    by rewrite acct_proto_roundtrip.
Qed.
End AcctLaws.

Lemma set_balance_ok utf8 a z : acct_ok utf8 a -> is_u256 z -> acct_ok utf8 (SetBalance z a).
Proof. intros (? & ? & ? & ? & ?) Hz. by split_and!. Qed.

Lemma new_account_ok (utf8 : string -> Prop) addr : utf8 ""%string -> acct_ok utf8 (NewAccount addr).
Proof. intros H. split_and!; cbn; [unfold is_u64; lia|unfold is_u256; lia|done|done|done]. Qed.

Lemma add_balance_key amt a a' : AddBalance amt a = inr a' -> Account_Key a' = Account_Key a.
Proof. unfold AddBalance. destruct (u256_Sign amt <? 0); [done|]. by intros [= <-]. Qed.

Lemma sub_balance_ok amt a a' :
  is_u256 (Balance a) -> SubBalance amt a = inr a' -> 0 <= amt ->
  amt <= Balance a /\ a' = SetBalance (Balance a - amt) a.
Proof.
  unfold SubBalance, is_u256. intros Hb. destruct (u256_Sign amt <? 0); [done|].
  destruct (Balance a <? amt) eqn:E; [done|]. intros [= <-] Ha. split; [lia|].
  rewrite u256_id; [done|]. unfold is_u256. lia.
Qed.

Lemma sub_balance_enough amt a :
  is_u256 (Balance a) -> 0 <= amt < 2 ^ 255 -> amt <= Balance a ->
  SubBalance amt a = inr (SetBalance (Balance a - amt) a).
Proof.
  unfold SubBalance, u256_Sign, is_u256. intros Hb Ha Hle.
  destruct (amt =? 0) eqn:E1; cbn [Z.ltb Z.compare];
    [|destruct (amt <? 2 ^ 255) eqn:E2; [|lia]; cbn [Z.ltb Z.compare]].
  all: destruct (Balance a <? amt) eqn:E; [lia|]; rewrite u256_id; [done|unfold is_u256; lia].
Qed.

Lemma add_balance_small amt a :
  0 <= amt < 2 ^ 255 -> is_u256 (Balance a + amt) -> AddBalance amt a = inr (SetBalance (Balance a + amt) a).
Proof.
  unfold AddBalance, u256_Sign. intros Ha Hb.
  destruct (amt =? 0) eqn:E1; cbn [Z.ltb Z.compare];
    [|destruct (amt <? 2 ^ 255) eqn:E2; [|lia]; cbn [Z.ltb Z.compare]].
  all: by rewrite u256_id.
Qed.

Lemma add_balance_addr amt a a' : AddBalance amt a = inr a' -> Address a' = Address a /\ Nonce a' = Nonce a.
Proof. unfold AddBalance. destruct (u256_Sign amt <? 0); [done|]. by intros [= <-]. Qed.
Lemma sub_balance_addr amt a a' : SubBalance amt a = inr a' -> Address a' = Address a /\ Nonce a' = Nonce a.
Proof.
  unfold SubBalance. destruct (u256_Sign amt <? 0); [done|]. destruct (Balance a <? amt); [done|]. by intros [= <-].
Qed.
