(* ===== verification/Context.v ===== *)
(** * Contexts: [ctrlers/types/trx_ctx.go], [block_ctx.go], [handlers.go]

    The context of a transaction and of a block, and the interface that the
    account controller offers to the other controllers. *)

From Stdlib Require Import Strings.Byte.
From S2P Require Import Prelude Xerrors GoSem Bytes Ledger GovParams Account Trx.

(** ** [IAccountHandler]

    The state of the handler is [S].  Accounts are handed out as pointers into
    it; [on_account] runs a method through such a pointer. *)
Class IAccountHandler (S : Type) := {
  FindOrNewAccount : bytes -> bool -> GoM S positive;
  FindAccount : bytes -> bool -> GoM S (option positive);
  Transfer : bytes -> bytes -> Z -> bool -> GoM S unit;
  Reward : bytes -> Z -> bool -> GoM S unit;
  SetAccountCommittable : positive -> bool -> GoM S unit;
  load_account : positive -> GoM S Account;
  on_account : positive -> (Account -> XError + Account) -> GoM S unit;
}.

(** ** Events

    [Event] and [EventAttribute] of the ABCI types; a key is ASCII text. *)
Record EventAttribute : Type := mkAttribute { at_Key : string; at_Value : list Byte.byte; at_Index : bool }.
Record Event : Type := mkEvent { et_Type : string; et_Attributes : list EventAttribute }.

(** ** [TrxContext]

    The handlers of the context are passed as code; [Sender] and [Receiver] are
    pointers to accounts ([Receiver] is never nil: [NewTrxContext] creates it). *)
Record TrxContext : Type := mkTrxContext {
  cx_Height : Z;
  cx_BlockTime : Z;
  cx_TxHash : list Byte.byte;
  cx_Tx : Trx;
  cx_TxIdx : Z;
  cx_Exec : bool;
  cx_SenderPubKey : list Byte.byte;
  cx_Sender : positive;
  cx_Receiver : positive;
  cx_GasUsed : Z;
  cx_RetData : list Byte.byte;
  cx_Events : list Event;
  cx_ChainID : string;
}.

Definition set_SenderPubKey (k : bytes) (c : TrxContext) : TrxContext :=
  mkTrxContext (cx_Height c) (cx_BlockTime c) (cx_TxHash c) (cx_Tx c) (cx_TxIdx c) (cx_Exec c) k (cx_Sender c)
    (cx_Receiver c) (cx_GasUsed c) (cx_RetData c) (cx_Events c) (cx_ChainID c).
Definition set_GasUsed (g : Z) (c : TrxContext) : TrxContext :=
  mkTrxContext (cx_Height c) (cx_BlockTime c) (cx_TxHash c) (cx_Tx c) (cx_TxIdx c) (cx_Exec c) (cx_SenderPubKey c)
    (cx_Sender c) (cx_Receiver c) g (cx_RetData c) (cx_Events c) (cx_ChainID c).
Definition set_RetData (d : bytes) (c : TrxContext) : TrxContext :=
  mkTrxContext (cx_Height c) (cx_BlockTime c) (cx_TxHash c) (cx_Tx c) (cx_TxIdx c) (cx_Exec c) (cx_SenderPubKey c)
    (cx_Sender c) (cx_Receiver c) (cx_GasUsed c) d (cx_Events c) (cx_ChainID c).
(** [ctx.Events = append(ctx.Events, e)] *)
Definition add_Event (e : Event) (c : TrxContext) : TrxContext :=
  mkTrxContext (cx_Height c) (cx_BlockTime c) (cx_TxHash c) (cx_Tx c) (cx_TxIdx c) (cx_Exec c) (cx_SenderPubKey c)
    (cx_Sender c) (cx_Receiver c) (cx_GasUsed c) (cx_RetData c) (cx_Events c ++ [e]) (cx_ChainID c).

(** [NewTrxContext], after the bytes have been decoded to [tx] and hashed to
    [txhash]; [txIdx] and [chainID] are what the callbacks of the application
    set. *)
Section NewContext.
Context {S : Type} {H : IAccountHandler S}.

Definition new_trx_context (tx : Trx) (txhash : bytes) (height btime txIdx : Z) (exec : bool) (chainID : string)
  : GoM S TrxContext :=
  let! sender := FindAccount (tx_From tx) exec in
  match sender with
  | None => errM (Wrapf ErrNotFoundAccount "address: %v")
  | Some sender =>
      let! receiver := FindOrNewAccount (tx_To tx) exec in
      retM (mkTrxContext height btime txhash tx txIdx exec [] sender receiver 0 [] [] chainID)
  end.

Context {CU : Codec TrxPayloadUnstakingProto} {CW : Codec TrxPayloadWithdrawProto}
        {CP : Codec TrxPayloadProposalProto} {CV : Codec TrxPayloadVotingProto}
        {CC : Codec TrxPayloadContractProto} {CS : Codec TrxPayloadSetDocProto} {CT : Codec TrxProto}.
(** [types.Tx(txbz).Hash()] of Tendermint. *)
Context (tx_hash : bytes -> list Byte.byte).

Definition NewTrxContext (txbz : bytes) (height btime txIdx : Z) (exec : bool) (chainID : string) : GoM S TrxContext :=
  let! tx := liftO (Trx_Decode txbz) in
  new_trx_context tx (tx_hash txbz) height btime txIdx exec chainID.
End NewContext.

(** ** [BlockContext] *)

(** What the code reads of [abcitypes.RequestBeginBlock]: the header, the votes
    of the last commit and the evidence of misbehaviour. *)
Record VoteInfo : Type := mkVoteInfo { vi_Address : list Byte.byte; vi_Power : Z; vi_SignedLastBlock : bool }.
Record Evidence : Type := mkEvidence { ev_Type : Z; ev_Address : list Byte.byte; ev_Power : Z; ev_Height : Z; ev_TotalVotingPower : Z }.
Record Header : Type := mkHeader {
  hd_Height : Z;
  hd_TimeNano : Z;
  hd_ProposerAddress : list Byte.byte;
  hd_AppHash : list Byte.byte;
}.
Record RequestBeginBlock : Type := mkBeginBlock {
  bi_Header : Header;
  bi_Votes : list VoteInfo;
  bi_ByzantineValidators : list Evidence;
}.

(** [abcitypes.ValidatorUpdate]: a public key and a power. *)
Record ValidatorUpdate : Type := mkValidatorUpdate { vu_PubKey : list Byte.byte; vu_Power : Z }.

Record BlockContext : Type := mkBlockContext {
  bc_blockInfo : RequestBeginBlock;
  bc_feeSum : Z;
  bc_txsCnt : Z;
  bc_appHash : list Byte.byte;
  bc_ValUpdates : list ValidatorUpdate;
}.

Definition NewBlockContext (bi : RequestBeginBlock) : BlockContext := mkBlockContext bi 0 0 [] [].

Definition bc_Height (b : BlockContext) : Z := hd_Height (bi_Header (bc_blockInfo b)).
Definition bc_PreAppHash (b : BlockContext) : bytes := hd_AppHash (bi_Header (bc_blockInfo b)).
Definition bc_TimeNano (b : BlockContext) : Z := hd_TimeNano (bi_Header (bc_blockInfo b)).
Definition bc_TimeSeconds (b : BlockContext) : Z := bc_TimeNano b / 1000000000.
Definition bc_ExpectedNextBlockTimeSeconds (secs : Z) (b : BlockContext) : Z := i64 (bc_TimeSeconds b + secs).
Definition SumFee (b : BlockContext) : Z := bc_feeSum b.

Definition SetHeight (h : Z) (b : BlockContext) : BlockContext :=
  let hd := bi_Header (bc_blockInfo b) in
  mkBlockContext
    (mkBeginBlock (mkHeader h (hd_TimeNano hd) (hd_ProposerAddress hd) (hd_AppHash hd)) (bi_Votes (bc_blockInfo b))
       (bi_ByzantineValidators (bc_blockInfo b)))
    (bc_feeSum b) (bc_txsCnt b) (bc_appHash b) (bc_ValUpdates b).
Definition SetAppHash (h : bytes) (b : BlockContext) : BlockContext :=
  mkBlockContext (bc_blockInfo b) (bc_feeSum b) (bc_txsCnt b) h (bc_ValUpdates b).
Definition AddFee (fee : Z) (b : BlockContext) : BlockContext :=
  mkBlockContext (bc_blockInfo b) (u256 (bc_feeSum b + fee)) (bc_txsCnt b) (bc_appHash b) (bc_ValUpdates b).
Definition AddTxsCnt (d : Z) (b : BlockContext) : BlockContext :=
  mkBlockContext (bc_blockInfo b) (bc_feeSum b) (i64 (bc_txsCnt b + d)) (bc_appHash b) (bc_ValUpdates b).
Definition SetValUpdates (v : list ValidatorUpdate) (b : BlockContext) : BlockContext :=
  mkBlockContext (bc_blockInfo b) (bc_feeSum b) (bc_txsCnt b) (bc_appHash b) v.
