(* ===== verification/AcctCtrler.v ===== *)
(** * The account controller: [ctrlers/account/ctrler.go], [query.go]

    The controller keeps one ledger of accounts; its state is that ledger.  The
    Go methods return the account object itself, so [findAccount] returns the
    pointer, and [transfer] of an account to itself works on one object. *)

From Stdlib Require Import Strings.Byte.
From S2P Require Import Prelude Xerrors GoSem Bytes Ledger LedgerSpec Concrete GovParams Account Trx Context.

(** ** Genesis *)
Record GenesisAssetHolder : Type := mkHolder { gh_Address : list Byte.byte; gh_Balance : Z }.
Record GenesisAppState : Type := mkGenesis { AssetHolders : list GenesisAssetHolder; gs_GovParams : GovParams }.

Section AcctCtrler.
Context {Tr : Type} {Tree : Iavl Tr} {C : Codec AcctProto}.

Abbreviation acctLedger := (FinalityLedger Account Tr).

(** A method called through an account pointer. *)
Definition acct_method (p : loc) (f : Account -> XError + Account) : GoM acctLedger unit :=
  let! a := load p in
  match f a with
  | inl e => errM e
  | inr a' => store p a'
  end.

Definition setAccountCommittable (p : loc) (exec : bool) : GoM acctLedger unit := set_on (side_of exec) p.

(** A not-found or any other error of the ledger is reported as [nil]. *)
Definition findAccount (addr : bytes) (exec : bool) : GoM acctLedger (option loc) :=
  let! r := tryM (get_on (side_of exec) (ToLedgerKey addr)) in
  match r with
  | inl _ => retM None
  | inr p => retM (Some p)
  end.

Definition findOrNewAccount (addr : bytes) (exec : bool) : GoM acctLedger loc :=
  let! r := findAccount addr exec in
  match r with
  | Some p => retM p
  | None =>
      let! p := alloc (NewAccountWithName addr "") in
      do! ignoreM (setAccountCommittable p exec) in
      retM p
  end.

Definition readAccount (addr : bytes) : GoM acctLedger Account :=
  let! r := tryM (Read (Array32 addr)) in
  match r with
  | inl _ => retM (NewAccount addr)
  | inr a => retM a
  end.

Definition transfer (from to : loc) (amt : Z) : GoM acctLedger unit :=
  do! acct_method from (SubBalance amt) in
  let! r := tryM (acct_method to (AddBalance amt)) in
  match r with
  | inl e => do! ignoreM (acct_method from (AddBalance amt)) in errM e
  | inr _ => retM tt
  end.

Definition AcctCtrler_Transfer (from to : bytes) (amt : Z) (exec : bool) : GoM acctLedger unit :=
  let! a0 := findAccount from exec in
  match a0 with
  | None => errM (Wrapf ErrNotFoundAccount "Transfer - address: %v")
  | Some acct0 =>
      let! a1 := findAccount to exec in
      let! acct1 := match a1 with
                    | Some p => retM p
                    | None => alloc (NewAccountWithName to "")
                    end in
      do! transfer acct0 acct1 amt in
      do! setAccountCommittable acct0 exec in
      setAccountCommittable acct1 exec
  end.

Definition setDoc (p : loc) (name url : string) : GoM acctLedger unit :=
  acct_method p (fun a => inr (SetDocURL url (SetName name a))).

(** [SetCode], [SetDoc], [Reward]: find, update, store. *)
Definition AcctCtrler_SetCode (addr : bytes) (code : option (list Byte.byte)) (exec : bool) : GoM acctLedger unit :=
  let! r := findAccount addr exec in
  match r with
  | None => errM (Wrapf ErrNotFoundAccount "SetCode - address: %v")
  | Some p =>
      do! acct_method p (fun a => inr (SetCode code a)) in
      setAccountCommittable p exec
  end.

Definition AcctCtrler_SetDoc (addr : bytes) (name url : string) (exec : bool) : GoM acctLedger unit :=
  let! r := findAccount addr exec in
  match r with
  | None => errM (Wrapf ErrNotFoundAccount "SetDoc - address: %v")
  | Some p => do! setDoc p name url in setAccountCommittable p exec
  end.

Definition AcctCtrler_Reward (to : bytes) (amt : Z) (exec : bool) : GoM acctLedger unit :=
  let! r := findAccount to exec in
  match r with
  | None => errM (Wrapf ErrNotFoundAccount "Reward - address: %v")
  | Some p => do! acct_method p (AddBalance amt) in setAccountCommittable p exec
  end.

(** The controller as the account handler of the other controllers. *)
#[export] Instance AcctCtrler_handler : IAccountHandler acctLedger := {|
  FindOrNewAccount := findOrNewAccount;
  FindAccount := findAccount;
  Transfer := AcctCtrler_Transfer;
  Reward := AcctCtrler_Reward;
  SetAccountCommittable := setAccountCommittable;
  load_account := load;
  on_account := acct_method;
|}.

(** [InitLedger]; [None] is a parameter of another type. *)
Definition AcctCtrler_InitLedger (req : option GenesisAppState) : GoM acctLedger unit :=
  match req with
  | None => errM (Wrapf ErrInitChain "wrong parameter: AcctCtrler::InitLedger requires *genesis.GenesisAppState")
  | Some gs =>
      forM_ (AssetHolders gs) (fun holder =>
        let! p := alloc (mkAccount (gh_Address holder) "" 0 (gh_Balance holder) None "") in
        setAccountCommittable p true)
  end.

(** [ctx.Tx.Payload.(TrxPayloadSetDoc)]: a payload of another type is a panic. *)
Definition setdoc_payload (tx : Trx) : outcome (string * string) :=
  match tx_Payload tx with Some (PayloadSetDoc n u) => Ret (n, u) | _ => Panic end.

Definition AcctCtrler_ValidateTrx (ctx : TrxContext) : GoM acctLedger unit :=
  if tx_Type (cx_Tx ctx) =? TRX_SETDOC then
    let! nu := liftO (setdoc_payload (cx_Tx ctx)) in
    if MAX_ACCT_NAME <? Z.of_nat (String.length nu.1) then
      errM (Wrapf ErrInvalidTrxPayloadParams "too long name. it should be less than %d.")
    else if MAX_ACCT_DOCURL <? Z.of_nat (String.length nu.2) then
      errM (Wrapf ErrInvalidTrxPayloadParams "too long url. it should be less than %d.")
    else retM tt
  else retM tt.

Definition AcctCtrler_ExecuteTrx (ctx : TrxContext) : GoM acctLedger unit :=
  do! (if tx_Type (cx_Tx ctx) =? TRX_TRANSFER then
         transfer (cx_Sender ctx) (cx_Receiver ctx) (tx_Amount (cx_Tx ctx))
       else if tx_Type (cx_Tx ctx) =? TRX_SETDOC then
         let! nu := liftO (setdoc_payload (cx_Tx ctx)) in
         setDoc (cx_Sender ctx) nu.1 nu.2
       else retM tt) in
  do! ignoreM (setAccountCommittable (cx_Sender ctx) (cx_Exec ctx)) in
  ignoreM (setAccountCommittable (cx_Receiver ctx) (cx_Exec ctx)).

(** The fees of the block go to its proposer. *)
Definition AcctCtrler_EndBlock (ctx : BlockContext) : GoM acctLedger unit :=
  let proposer := hd_ProposerAddress (bi_Header (bc_blockInfo ctx)) in
  if negb (bool_decide (proposer = [])) && (0 <? u256_Sign (SumFee ctx)) then
    let! r := findAccount proposer true in
    let! p := match r with Some p => retM p | None => alloc (NewAccount proposer) end in
    do! acct_method p (AddBalance (SumFee ctx)) in
    setAccountCommittable p true
  else retM tt.

Definition AcctCtrler_Commit : GoM acctLedger (bytes * Z) := Commit.

(** [Query]: the account of an address at a past height, or an empty one. *)
Definition AcctCtrler_Query (height : Z) (data : bytes) : GoM acctLedger Account :=
  let! r := tryM (ImmutableLedgerAt height) in
  match r with
  | inl e => errM (Wrap ErrQuery (xcause e))
  | inr immuLedger =>
      match Read (Array32 data) immuLedger with
      | (Ret a, _) => retM a
      | (Err _, _) => retM (NewAccount data)
      | (Panic, _) => panicM
      end
  end.

(** ** [ImmuAcctCtrler]: a controller over a past version; [exec] is ignored *)
Definition ImmutableAcctCtrlerAt (height : Z) : GoM acctLedger acctLedger := ImmutableLedgerAt height.
Definition Immu_FindAccount (addr : bytes) (exec : bool) : GoM acctLedger (option loc) := findAccount addr false.
Definition Immu_FindOrNewAccount (addr : bytes) (exec : bool) : GoM acctLedger loc := findOrNewAccount addr false.
Definition Immu_SetAccountCommittable (p : loc) (exec : bool) : GoM acctLedger unit := set_on Check p.
Definition Immu_Reward (to : bytes) (amt : Z) (exec : bool) : GoM acctLedger unit :=
  let! r := Immu_FindAccount to exec in
  match r with
  | None => errM (Wrapf ErrNotFoundAccount "address: %v")
  | Some p => do! acct_method p (AddBalance amt) in Immu_SetAccountCommittable p exec
  end.
Definition Immu_Transfer (from to : bytes) (amt : Z) (exec : bool) : GoM acctLedger unit :=
  let! a0 := Immu_FindAccount from exec in
  match a0 with
  | None => errM (Wrapf ErrNotFoundAccount "address: %v")
  | Some acct0 =>
      let! a1 := Immu_FindAccount to exec in
      let! acct1 := match a1 with Some p => retM p | None => alloc (NewAccountWithName to "") end in
      do! transfer acct0 acct1 amt in
      do! Immu_SetAccountCommittable acct0 exec in
      Immu_SetAccountCommittable acct1 exec
  end.
End AcctCtrler.
