(* ===== verification/AcctProps.v ===== *)
(** * Theorems about the account controller

    Transfers move exactly the amount and conserve the total, also when an
    account pays itself; a refused transfer changes nothing; rewards and the
    fee of a block credit exactly one account. *)

From Stdlib Require Import Strings.Byte.
From S2P Require Import Prelude Xerrors GoSem Bytes Ledger LedgerSpec LedgerClient LedgerProps Concrete GovParams Account Trx Context AcctCtrler.

Section AcctTheorems.
Context {Tr : Type} {Tree : Iavl Tr} {View : IavlView Tr} {C : Codec AcctProto} (utf8 : string -> Prop).
Context {Laws : IavlLaws Tr} {Total : IavlTotal Tr}.
Context {CL : CodecLaws AcctProto acct_proto_range} {CT : CodecTotal AcctProto (acct_proto_valid utf8)}.
Context (utf8_empty : utf8 ""%string).

Abbreviation ok := (acct_ok utf8).
Abbreviation acctLedger := (FinalityLedger Account Tr).
Implicit Types (L : acctLedger).

(** The balance that a side sees under a key; a missing account has none. *)
Definition balance_of (L : acctLedger) (sd : side) (k : bytes) : Z :=
  match visible L sd k with Some a => Balance a | None => 0 end.

(** Accounts are never deleted. *)
Definition no_removed (L : acctLedger) : Prop := forall sd, removedKeys (mem_of sd L) = [].

Lemma visible_no_removed L sd k : no_removed L -> visible L sd k = pendOf L sd k.
Proof. intros H. unfold visible. rewrite H. by rewrite decide_False by apply not_elem_of_nil. Qed.

Lemma no_removed_view L L' : same_view L L' -> no_removed L -> no_removed L'.
Proof. intros (_ & Hr & _) H sd. by rewrite Hr. Qed.

Lemma new_key addr name : Key (NewAccountWithName addr name) = ToLedgerKey addr.
Proof. cbn. by rewrite to_ledger_key_array. Qed.

Lemma find_account_spec L addr exec :
  ledger_inv ok L ->
  match visible L (side_of exec) (ToLedgerKey addr) with
  | None => findAccount addr exec L = (Ret None, L)
  | Some a => exists p L', findAccount addr exec L = (Ret (Some p), L') /\ ledger_inv ok L' /\ preserved L L' /\
                           cached L' (side_of exec) p a /\ Key a = ToLedgerKey addr
  end.
Proof.
  intros Hi. pose proof (find_spec ok L (side_of exec) (ToLedgerKey addr) Hi) as H. unfold findAccount.
  destruct (visible L (side_of exec) (ToLedgerKey addr)) as [a|].
  - destruct H as (p & L' & Hrun & ?). exists p, L'. by rewrite (bindM_step _ _ _ _ _ (tryM_ret _ _ _ _ Hrun)).
  - by rewrite (bindM_step _ _ _ _ _ (tryM_err _ _ _ _ H)).
Qed.

Lemma visible_cached L sd p x : ledger_inv ok L -> no_removed L -> cached L sd p x -> visible L sd (Key x) = Some x.
Proof.
  intros Hi Hn [Hx Hg]. rewrite (got_visible ok L sd (Key x) p); [done|done| |done].
  rewrite Hn. apply not_elem_of_nil.
Qed.

(** The object to credit: the account found, or a new one. *)
Lemma find_or_alloc_spec L addr exec a0 :
  ledger_inv ok L -> no_removed L -> a0 = NewAccountWithName addr "" ->
  let b := default a0 (visible L (side_of exec) (ToLedgerKey addr)) in
  exists q L', (let! r := findAccount addr exec in match r with Some p => retM p | None => alloc a0 end) L = (Ret q, L') /\
    ledger_inv ok L' /\ preserved L L' /\ handle ok L' (side_of exec) q b /\ Key b = ToLedgerKey addr /\
    (forall p x, cached L (side_of exec) p x -> p = q <-> Key x = ToLedgerKey addr).
Proof.
  intros Hi Hn Ha0. pose proof (find_account_spec L addr exec Hi) as H.
  destruct (visible L (side_of exec) (ToLedgerKey addr)) as [a|] eqn:Hv.
  - destruct H as (p & L' & Hrun & Hi' & Hp & Hc & Hk). exists p, L'. rewrite (bindM_step _ _ _ _ _ Hrun).
    pose proof Hp as (_ & _ & _ & Ho & Hg). pose proof Hc as [Hx Hgp]. split_and!; try done.
    + by apply cached_handle.
    + intros p' x' [Hx' Hg']. split.
      * intros ->. apply Ho in Hx'. congruence.
      * intros Hk'. apply Hg in Hg'. congruence.
  - rewrite (bindM_step _ _ _ _ _ H).
    destruct (alloc_spec ok L (side_of exec) a0 Hi) as (q & L' & Hrun & Hi' & Hp & Hh & Hne & _).
    { subst a0. by apply (new_account_ok utf8 addr). }
    exists q, L'. split_and!; try done.
    + subst a0. apply new_key.
    + intros p x Hc. pose proof Hc as [Hx _]. split.
      * intros ->. by apply Hne in Hx.
      * intros Hk. pose proof (visible_cached L _ p x Hi Hn Hc) as Hvx. congruence.
Qed.

(** ** Transfers *)
Lemma acct_method_ok L p f a a' :
  objs (lheap L) !! p = Some a -> f a = inr a' ->
  acct_method p f L = (Ret tt, set_heap (heap_store p a' (lheap L)) L).
Proof. intros Hp Hf. unfold acct_method, bindM, load. rewrite Hp, Hf. done. Qed.

Lemma acct_method_err L p f a e :
  objs (lheap L) !! p = Some a -> f a = inl e -> acct_method p f L = (Err e, L).
Proof. intros Hp Hf. unfold acct_method, bindM, load. rewrite Hp, Hf. done. Qed.

Lemma transfer_run L sd p q a b a1 b1 amt :
  objs (lheap L) !! p = Some a -> objs (lheap L) !! q = Some b -> p <> q ->
  SubBalance amt a = inr a1 -> AddBalance amt b = inr b1 ->
  (do! transfer p q amt in do! set_on sd p in set_on sd q) L = (Ret tt, put_state sd q b1 (put_state sd p a1 L)).
Proof.
  intros Hp Hq Hne Ha Hb. rewrite <- put_put_ne by done. unfold transfer.
  unfold bindM at 1 2. rewrite (acct_method_ok L p _ a a1 Hp Ha). unfold bindM at 1, tryM.
  rewrite (acct_method_ok _ q _ b b1); [done| |done]. cbn. by rewrite lookup_insert_ne.
Qed.

Lemma transfer_self_run L sd p a a1 a2 amt :
  objs (lheap L) !! p = Some a -> SubBalance amt a = inr a1 -> AddBalance amt a1 = inr a2 ->
  (do! transfer p p amt in do! set_on sd p in set_on sd p) L = (Ret tt, put_state sd p a2 L).
Proof.
  intros Hp Ha Hb. rewrite <- (put_put_eq L sd p a1 a2). unfold transfer.
  unfold bindM at 1 2. rewrite (acct_method_ok L p _ a a1 Hp Ha). unfold bindM at 1, tryM.
  rewrite (acct_method_ok _ p _ a1 a2); [done| |done]. cbn. apply lookup_insert_eq.
Qed.

(** What a transfer changes: two entries of one side. *)
Definition moved (L L' : acctLedger) (sd : side) (kf kt : bytes) (amt : Z) : Prop :=
  (kf <> kt -> balance_of L' sd kf = balance_of L sd kf - amt /\ balance_of L' sd kt = balance_of L sd kt + amt) /\
  (kf = kt -> balance_of L' sd kf = balance_of L sd kf) /\
  (forall sd' k, sd' <> sd \/ (k <> kf /\ k <> kt) -> visible L' sd' k = visible L sd' k).

Lemma moved_view L L2 L' sd kf kt amt : same_view L L2 -> moved L2 L' sd kf kt amt -> moved L L' sd kf kt amt.
Proof.
  intros Hsv. unfold moved, balance_of. rewrite !(same_view_visible L L2) by done.
  intros (H1 & H2 & H3). split_and!; [done|done|]. intros sd' k Hk. rewrite H3 by done. by apply same_view_visible.
Qed.

Lemma moved_put2 L sd p q a b amt :
  ledger_inv ok L -> no_removed L -> handle ok L sd p a -> handle ok L sd q b -> p <> q -> Key a <> Key b ->
  visible L sd (Key a) = Some a -> balance_of L sd (Key b) = Balance b -> ok (SetBalance (Balance a - amt) a) ->
  ok (SetBalance (Balance b + amt) b) ->
  let L' := put_state sd q (SetBalance (Balance b + amt) b) (put_state sd p (SetBalance (Balance a - amt) a) L) in
  ledger_inv ok L' /\ no_removed L' /\ moved L L' sd (Key a) (Key b) amt.
Proof.
  intros Hi Hn Hha Hhb Hpq Hkne Hva Hvb Hoa Hob L'.
  destruct (put_spec ok L sd p a (SetBalance (Balance a - amt) a)) as (Hi1 & _ & Hr1 & Hp1 & _); [done..|].
  set (L1 := put_state sd p (SetBalance (Balance a - amt) a) L) in *.
  destruct (put_spec ok L1 sd q b (SetBalance (Balance b + amt) b)) as (Hi2 & _ & Hr2 & Hp2 & _);
    [done|by apply put_frame|done|done|].
  fold L' in Hi2, Hr2, Hp2. assert (Hn' : no_removed L') by (intros sd'; by rewrite Hr2, Hr1).
  split_and!; [done|done|].
  assert (Hvis : forall sd' k, visible L' sd' k =
    if decide (sd' = sd /\ k = Key b) then Some (SetBalance (Balance b + amt) b)
    else if decide (sd' = sd /\ k = Key a) then Some (SetBalance (Balance a - amt) a) else visible L sd' k).
  { intros sd' k. rewrite !visible_no_removed by done. by rewrite Hp2, Hp1. }
  unfold moved, balance_of. split_and!.
  - intros _. rewrite !Hvis. rewrite (decide_False (P := sd = sd /\ Key a = Key b)) by tauto.
    rewrite !decide_True by done. cbn [Balance SetBalance]. unfold balance_of in Hvb. rewrite Hva, Hvb. done.
  - done.
  - intros sd' k Hk. rewrite Hvis, !decide_False by tauto. done.
Qed.

Lemma moved_self L sd p a amt :
  ledger_inv ok L -> no_removed L -> handle ok L sd p a -> visible L sd (Key a) = Some a ->
  let L' := put_state sd p (SetBalance (Balance a) a) L in
  ledger_inv ok L' /\ no_removed L' /\ moved L L' sd (Key a) (Key a) amt.
Proof.
  intros Hi Hn Hha Hva L'. assert (Hs : SetBalance (Balance a) a = a) by (by destruct a).
  assert (Hok : ok a) by apply Hha. unfold L'. rewrite Hs.
  destruct (put_spec ok L sd p a a) as (Hi1 & _ & Hr1 & Hp1 & _); [done..|].
  assert (Hn' : no_removed (put_state sd p a L)) by (intros sd'; by rewrite Hr1).
  assert (Hvis : forall sd' k, visible (put_state sd p a L) sd' k = visible L sd' k).
  { intros sd' k. rewrite !visible_no_removed by done. rewrite Hp1. case_decide as Hd; [|done].
    destruct Hd as [-> ->]. by rewrite <- visible_no_removed, Hva. }
  split_and!; [done|done|]. unfold moved, balance_of. split_and!; [done|by rewrite Hvis|].
  intros. apply Hvis.
Qed.

(** [Transfer] moves exactly [amt].  When the sender exists and can pay
    (and the receiver's balance does not overflow), the transfer succeeds, the
    sender loses [amt], the receiver gains [amt] (an account that pays itself
    keeps its balance), so the total is conserved, and no other account and
    nothing on the other side changes. *)
Theorem transfer_moves (L : acctLedger) (from to : bytes) (amt : Z) (exec : bool) (a : Account) :
  ledger_inv ok L -> no_removed L -> visible L (side_of exec) (ToLedgerKey from) = Some a ->
  0 <= amt < 2 ^ 255 -> amt <= Balance a -> balance_of L (side_of exec) (ToLedgerKey to) + amt < 2 ^ 256 ->
  exists L', AcctCtrler_Transfer from to amt exec L = (Ret tt, L') /\ ledger_inv ok L' /\ no_removed L' /\
             moved L L' (side_of exec) (ToLedgerKey from) (ToLedgerKey to) amt.
Proof.
  intros Hi Hn Hva Hamt Hle Hov. set (sd := side_of exec) in *.
  pose proof (find_account_spec L from exec Hi) as Hf. fold sd in Hf. rewrite Hva in Hf.
  destruct Hf as (p & L1 & Hrun1 & Hi1 & Hp1 & Hc1 & Hk1).
  pose proof (preserved_view ok L L1 Hi Hp1) as Hsv1. pose proof (no_removed_view L L1 Hsv1 Hn) as Hn1.
  destruct (find_or_alloc_spec L1 to exec _ Hi1 Hn1 eq_refl) as (q & L2 & Hrun2 & Hi2 & Hp2 & Hhq & Hkb & Hpq).
  fold sd in Hhq, Hkb, Hpq. rewrite (same_view_visible L L1) in Hhq, Hkb by done.
  set (b := default (NewAccountWithName to "") (visible L sd (ToLedgerKey to))) in *.
  pose proof (preserved_view ok L1 L2 Hi1 Hp2) as Hsv2. assert (Hsv : same_view L L2) by (by etrans).
  pose proof (no_removed_view L1 L2 Hsv2 Hn1) as Hn2.
  pose proof (cached_preserved L1 L2 sd p a Hp2 Hc1) as Hc2. pose proof (cached_handle ok L2 sd p a Hi2 Hc2) as Hha.
  assert (Hbal : balance_of L sd (ToLedgerKey to) = Balance b).
  { unfold balance_of, b. by destruct (visible L sd (ToLedgerKey to)). }
  destruct Hha as (Hpa & Hoka & Hua). destruct Hhq as (Hqb & Hokb & Huq).
  assert (Hra : is_u256 (Balance a)) by apply Hoka. assert (Hrb : is_u256 (Balance b)) by apply Hokb.
  pose proof (sub_balance_enough amt a Hra Hamt Hle) as Hsub.
  assert (Hgoal : forall L', (let! _ := transfer p q amt in do! set_on sd p in set_on sd q) L2 = (Ret tt, L') ->
            AcctCtrler_Transfer from to amt exec L = (Ret tt, L')).
  { intros L' Hrun. unfold AcctCtrler_Transfer. rewrite (bindM_step _ _ _ _ _ Hrun1).
    rewrite <- bindM_assoc, (bindM_step _ _ _ _ _ Hrun2). exact Hrun. }
  assert (Hva2 : visible L2 sd (Key a) = Some a) by (by rewrite (same_view_visible L L2), Hk1).
  unfold is_u256 in Hra, Hrb.
  destruct (decide (p = q)) as [<-|Hne].
  - assert (Hkeq : Key a = ToLedgerKey to) by (by apply (Hpq p a Hc1)).
    assert (Hself : b = a) by congruence. destruct (moved_self L2 sd p a amt) as (H1 & H2 & H3); [done..|].
    eexists. split; [apply Hgoal, (transfer_self_run L2 sd p a (SetBalance (Balance a - amt) a) (SetBalance (Balance a) a)); [done|done|]|].
    + rewrite add_balance_small; [|done|cbn; unfold is_u256; lia].
      unfold SetBalance; cbn. do 2 f_equal. lia.
    + split_and!; [done|done|]. rewrite <- Hk1, <- Hkeq. by apply (moved_view L L2).
  - assert (Hkne : Key a <> Key b) by (intros He; apply Hne, (Hpq p a Hc1); congruence).
    destruct (moved_put2 L2 sd p q a b amt) as (H1 & H2 & H3);
      [done|done|done|done|done|done|done| | | |].
    + unfold balance_of. rewrite (same_view_visible L L2) by done. by rewrite Hkb.
    + apply set_balance_ok; [done|]. unfold is_u256; lia.
    + apply set_balance_ok; [done|]. unfold is_u256; lia.
    + eexists. split; [apply Hgoal, (transfer_run L2 sd p q a b (SetBalance (Balance a - amt) a) (SetBalance (Balance b + amt) b)); [done..|]|].
      * apply add_balance_small; [done|]. unfold is_u256; lia.
      * split_and!; [done|done|]. rewrite <- Hk1, <- Hkb. by apply (moved_view L L2).
Qed.

Lemma sub_balance_refused amt a :
  is_u256 amt -> 2 ^ 255 <= amt \/ Balance a < amt -> exists e, SubBalance amt a = inl e /\ Code e = ErrCodeInvalidTrx.
Proof.
  unfold SubBalance, u256_Sign, is_u256. intros Hr Hamt.
  destruct (amt =? 0) eqn:E0; cbn [Z.ltb Z.compare].
  - destruct (Balance a <? amt) eqn:E; [by eexists|lia].
  - destruct (amt <? 2 ^ 255) eqn:E1; cbn [Z.ltb Z.compare]; [|by eexists].
    destruct (Balance a <? amt) eqn:E; [by eexists|lia].
Qed.

(** A transfer that cannot be paid changes nothing.  If the sender does
    not exist the call fails with the not-found code; if the amount is at least
    [2^255] or exceeds the sender's balance it fails with the
    invalid-transaction code; in each case no account changes on any side. *)
Theorem transfer_refused (L : acctLedger) (from to : bytes) (amt : Z) (exec : bool) :
  ledger_inv ok L -> no_removed L -> is_u256 amt ->
  match visible L (side_of exec) (ToLedgerKey from) with
  | None => True
  | Some a => 2 ^ 255 <= amt \/ Balance a < amt
  end ->
  exists e L', AcctCtrler_Transfer from to amt exec L = (Err e, L') /\ ledger_inv ok L' /\ same_view L L' /\
    Code e = match visible L (side_of exec) (ToLedgerKey from) with
             | None => ErrCodeNotFoundAccount | Some _ => ErrCodeInvalidTrx end.
Proof.
  intros Hi Hn Hr Hcase. pose proof (find_account_spec L from exec Hi) as Hf.
  destruct (visible L (side_of exec) (ToLedgerKey from)) as [a|].
  - destruct Hf as (p & L1 & Hrun1 & Hi1 & Hp1 & Hc1 & _).
    pose proof (preserved_view ok L L1 Hi Hp1) as Hsv1. pose proof (no_removed_view L L1 Hsv1 Hn) as Hn1.
    destruct (find_or_alloc_spec L1 to exec _ Hi1 Hn1 eq_refl) as (q & L2 & Hrun2 & Hi2 & Hp2 & _).
    pose proof (cached_preserved L1 L2 _ p a Hp2 Hc1) as [Hpa _].
    destruct (sub_balance_refused amt a Hr Hcase) as (e & He & Hcode). exists e, L2. split_and!; [|done| |done].
    + unfold AcctCtrler_Transfer. rewrite (bindM_step _ _ _ _ _ Hrun1), <- bindM_assoc, (bindM_step _ _ _ _ _ Hrun2).
      unfold transfer, bindM. by rewrite (acct_method_err L2 p _ a e).
    + etrans; [exact Hsv1|by apply (preserved_view ok)].
  - eexists _, L. unfold AcctCtrler_Transfer. rewrite (bindM_step _ _ _ _ _ Hf). by split_and!.
Qed.

(** Only the entry [k] of side [sd] changes, and its balance grows by [amt]. *)
Definition credited (L L' : acctLedger) (sd : side) (k : bytes) (amt : Z) : Prop :=
  balance_of L' sd k = balance_of L sd k + amt /\
  (forall sd' k', sd' <> sd \/ k' <> k -> visible L' sd' k' = visible L sd' k').

Lemma credit_spec L sd p b amt :
  ledger_inv ok L -> no_removed L -> handle ok L sd p b -> balance_of L sd (Key b) = Balance b ->
  0 <= amt < 2 ^ 255 -> Balance b + amt < 2 ^ 256 ->
  exists L', (do! acct_method p (AddBalance amt) in set_on sd p) L = (Ret tt, L') /\
    ledger_inv ok L' /\ no_removed L' /\ credited L L' sd (Key b) amt.
Proof.
  intros Hi Hn Hh Hb Ha Hov. pose proof Hh as (Hp & Hok & _). assert (Hr : is_u256 (Balance b)) by apply Hok.
  unfold is_u256 in Hr. pose proof (add_balance_small amt b Ha ltac:(unfold is_u256; lia)) as Hadd.
  exists (put_state sd p (SetBalance (Balance b + amt) b) L).
  destruct (put_spec ok L sd p b (SetBalance (Balance b + amt) b)) as (Hi' & _ & Hr' & Hp' & _);
    [done|done|apply set_balance_ok; [done|unfold is_u256; lia]|done|].
  assert (Hn' : no_removed (put_state sd p (SetBalance (Balance b + amt) b) L)) by (intros sd'; by rewrite Hr').
  split_and!; [|done|done|].
  - unfold bindM at 1. rewrite (acct_method_ok L p _ b _ Hp Hadd).
    rewrite <- put_run. done.
  - unfold credited. unfold balance_of in *. rewrite !visible_no_removed in * by done. rewrite Hp', decide_True by done.
    split; [by rewrite Hb|]. intros sd' k' Hk. rewrite !visible_no_removed by done. by rewrite Hp', decide_False by tauto.
Qed.

Lemma credited_view L L1 L' sd k amt : same_view L L1 -> credited L1 L' sd k amt -> credited L L' sd k amt.
Proof.
  intros Hsv. unfold credited, balance_of. rewrite (same_view_visible L L1) by done.
  intros [H1 H2]. split; [done|]. intros sd' k' Hk. rewrite H2 by done. by apply same_view_visible.
Qed.

(** The fees of a block are paid out exactly once and to its proposer.
    [EndBlock] with collected fees credits the proposer's account (creating it
    when needed) with exactly the sum of the fees and touches no other account;
    with no fees, or no proposer, it changes nothing at all. *)
Theorem endblock_pays_proposer (L : acctLedger) (ctx : BlockContext) :
  let proposer := hd_ProposerAddress (bi_Header (bc_blockInfo ctx)) in
  ledger_inv ok L -> no_removed L -> 0 <= SumFee ctx < 2 ^ 255 ->
  balance_of L Deliver (ToLedgerKey proposer) + SumFee ctx < 2 ^ 256 ->
  exists L', AcctCtrler_EndBlock ctx L = (Ret tt, L') /\ ledger_inv ok L' /\ no_removed L' /\
    (if bool_decide (proposer = []) then L' = L else credited L L' Deliver (ToLedgerKey proposer) (SumFee ctx)).
Proof.
  intros proposer Hi Hn Hfee Hov. unfold AcctCtrler_EndBlock. fold proposer.
  destruct (bool_decide (proposer = [])) eqn:Ep; cbn [negb andb]; [exists L; by split_and!|].
  destruct (0 <? u256_Sign (SumFee ctx)) eqn:Es.
  - destruct (find_or_alloc_spec L proposer true (NewAccount proposer) Hi Hn eq_refl) as (q & L1 & Hrun & Hi1 & Hp & Hh & Hk & _).
    cbn [side_of] in *. set (b := default (NewAccount proposer) (visible L Deliver (ToLedgerKey proposer))) in *.
    pose proof (preserved_view ok L L1 Hi Hp) as Hsv. pose proof (no_removed_view L L1 Hsv Hn) as Hn1.
    assert (Hbal : balance_of L Deliver (ToLedgerKey proposer) = Balance b)
      by (unfold balance_of, b; by destruct (visible L Deliver (ToLedgerKey proposer))).
    destruct (credit_spec L1 Deliver q b (SumFee ctx)) as (L' & Hrun' & Hi' & Hn' & Hcr); [done|done|done| |done|lia|].
    { unfold balance_of in *. rewrite (same_view_visible L L1) by done. by rewrite Hk. }
    exists L'. split_and!; [|done|done|].
    + rewrite <- bindM_assoc, (bindM_step _ _ _ _ _ Hrun). exact Hrun'.
    + rewrite <- Hk. by apply (credited_view L L1).
  - assert (SumFee ctx = 0) as ->.
    { unfold u256_Sign in Es. destruct (SumFee ctx =? 0) eqn:E0; [lia|]. destruct (SumFee ctx <? 2 ^ 255) eqn:E1; [done|lia]. }
    exists L. split_and!; [done|done|done|]. split; [lia|done].
Qed.
End AcctTheorems.

(** ** Witnesses *)
Definition aliceAddr : bytes := replicate 20 Byte.x0a.
Definition bobAddr : bytes := replicate 20 Byte.x0b.
Definition anyStr : string -> Prop := fun _ => True.

#[export] Instance acct_codec : Codec AcctProto := countCodec AcctProto.
#[export] Instance acct_codec_laws : CodecLaws AcctProto acct_proto_range := countCodec_laws _ _.
#[export] Instance acct_codec_total : CodecTotal AcctProto (acct_proto_valid anyStr) := countCodec_total _ _.

(** A ledger where alice holds 100 and nobody else anything. *)
Definition alice : Account := mkAccount aliceAddr "" 3 100 None "".
Definition acctTree : mapTree := MapTree {[ ToLedgerKey aliceAddr := count_encode (acct_toProto alice) ]} ∅ 0.
Definition acctLedger0 : FinalityLedger Account mapTree := NewFinalityLedger acctTree.

Lemma acctLedger0_inv : ledger_inv (acct_ok anyStr) acctLedger0.
Proof.
  apply fresh_inv. intros k bz. cbn [tree_map mapTree_view mt_map acctTree]. rewrite lookup_singleton.
  case_decide as Hk; [|done]. intros [= <-]. subst k. exists alice.
  unfold Decode, account_item, Account_Decode, acct_codec, countCodec, codec_Unmarshal. rewrite count_decode_encode.
  split_and!; [by vm_compute|by vm_compute|]. repeat split; cbn; (lia || done).
Qed.

Lemma acctLedger0_live : no_removed acctLedger0.
Proof. by intros []. Qed.

Lemma acctLedger0_alice : visible acctLedger0 Deliver (ToLedgerKey aliceAddr) = Some alice.
Proof. vm_compute. reflexivity. Qed.

Lemma transfer_moves_witness :
  exists L', AcctCtrler_Transfer aliceAddr bobAddr 30 true acctLedger0 = (Ret tt, L') /\
             moved acctLedger0 L' Deliver (ToLedgerKey aliceAddr) (ToLedgerKey bobAddr) 30.
Proof.
  destruct (transfer_moves anyStr I acctLedger0 aliceAddr bobAddr 30 true alice acctLedger0_inv acctLedger0_live acctLedger0_alice)
    as (L' & H1 & _ & _ & H2); [lia|cbn; lia|vm_compute; reflexivity|]. exists L'. split; assumption.
Defined.

Lemma transfer_refused_witness :
  exists e L', AcctCtrler_Transfer aliceAddr bobAddr 101 true acctLedger0 = (Err e, L') /\ same_view acctLedger0 L'.
Proof.
  destruct (transfer_refused anyStr I acctLedger0 aliceAddr bobAddr 101 true acctLedger0_inv acctLedger0_live)
    as (e & L' & H1 & _ & H2 & _); [unfold is_u256; lia|cbn [side_of]; rewrite acctLedger0_alice; right; cbn; lia|].
  exists e, L'. split; assumption.
Defined.

Definition feeBlock : BlockContext :=
  mkBlockContext (mkBeginBlock (mkHeader 5 0 bobAddr []) [] []) 12 1 [] [].

Lemma endblock_pays_proposer_witness :
  exists L', AcctCtrler_EndBlock feeBlock acctLedger0 = (Ret tt, L') /\
             credited acctLedger0 L' Deliver (ToLedgerKey bobAddr) 12.
Proof.
  destruct (endblock_pays_proposer anyStr I acctLedger0 feeBlock acctLedger0_inv acctLedger0_live)
    as (L' & H1 & _ & _ & H2); [cbn; lia|vm_compute; reflexivity|]. exists L'. split; [exact H1|exact H2].
Defined.
