(* ===== verification/AcctClient.v ===== *)
(** * Looking up accounts

    What [FindOrNewAccount] does to the ledger, and writing an account back, for
    the clients of the account controller. *)

From Stdlib Require Import Strings.Byte.
From S2P Require Import Prelude Xerrors GoSem Bytes Ledger LedgerSpec LedgerClient LedgerProps Concrete GovParams Account Trx Context AcctCtrler AcctProps.

Section Ctx.
Context {Tr : Type} {Tree : Iavl Tr} {View : IavlView Tr} {Laws : IavlLaws Tr} {Total : IavlTotal Tr}.
Context {CA : Codec AcctProto} (utf8 : string -> Prop) (utf8_empty : utf8 ""%string).
Context {CL : CodecLaws AcctProto acct_proto_range} {CTot : CodecTotal AcctProto (acct_proto_valid utf8)}.
Abbreviation ok := (acct_ok utf8).
Implicit Types L : FinalityLedger Account Tr.

Lemma put_cached_ne L sd p x q (y : Account) :
  cached L sd p x -> q <> p -> Key y <> Key x -> cached (put_state sd q y L) sd p x.
Proof.
  intros [Hx Hg] Hne Hk. unfold put_state. split.
  - rewrite heap_upd. cbn. by rewrite lookup_insert_ne.
  - rewrite mem_upd_eq. cbn. rewrite mem_set_heap. by rewrite lookup_insert_ne.
Qed.

(** The account of an address, or a new one. *)
Definition account_at L (sd : side) (addr : bytes) : Account :=
  default (NewAccountWithName addr "") (visible L sd (ToLedgerKey addr)).

(** [FindOrNewAccount]: the account is cached afterwards, accounts that were
    cached stay, and the view changes only in that the account is there. *)
Lemma find_or_new_spec L addr exec :
  ledger_inv ok L -> no_removed L -> let sd := side_of exec in
  exists q L', findOrNewAccount addr exec L = (Ret q, L') /\ ledger_inv ok L' /\ no_removed L' /\
    cached L' sd q (account_at L sd addr) /\ Key (account_at L sd addr) = ToLedgerKey addr /\
    (forall p x, cached L sd p x -> cached L' sd p x) /\
    (forall sd' k, visible L' sd' k = if decide (sd' = sd /\ k = ToLedgerKey addr) then Some (account_at L sd addr) else visible L sd' k).
Proof.
  intros Hi Hn sd. pose proof (find_account_spec utf8 L addr exec Hi) as Hf. fold sd in Hf. unfold findOrNewAccount, account_at.
  destruct (visible L sd (ToLedgerKey addr)) as [a|] eqn:Hv; cbn [default].
  - destruct Hf as (p & L' & Hrun & Hi' & Hp & Hc & Hk). exists p, L'. rewrite (bindM_step _ _ _ _ _ Hrun).
    pose proof (preserved_view ok L L' Hi Hp) as Hsv. split_and!; try done.
    + by apply (no_removed_view L).
    + intros p' x'. by apply cached_preserved.
    + intros sd' k. rewrite (same_view_visible L L') by done. case_decide as Hd; [|done]. by destruct Hd as [-> ->].
  - rewrite (bindM_step _ _ _ _ _ Hf). set (x := NewAccountWithName addr "").
    assert (Hx : ok x) by (by apply new_account_ok). assert (Hk : Key x = ToLedgerKey addr) by apply new_key.
    destruct (alloc_spec ok L sd x Hi Hx) as (q & L1 & Hrun & Hi1 & Hp & Hh & Hne & _).
    pose proof (preserved_view ok L L1 Hi Hp) as Hsv. pose proof (no_removed_view L L1 Hsv Hn) as Hn1.
    destruct (put_spec ok L1 sd q x x) as (_ & _ & _ & _ & Hc); [done..|].
    destruct (put_visible ok L1 sd q x x) as (Hi2 & _ & Hr2 & Hv2); [done..|rewrite Hn1; apply not_elem_of_nil|].
    exists q, (put_state sd q x L1). split_and!; try done.
    + rewrite (bindM_step _ _ _ _ _ Hrun). unfold bindM, ignoreM, setAccountCommittable. rewrite (set_same L1 sd q x) by apply Hh. done.
    + intros sd'. by rewrite Hr2.
    + intros p y Hcy. pose proof (visible_cached utf8 L sd p y Hi Hn Hcy) as Hvy. apply put_cached_ne; [by apply (cached_preserved L)| |].
      * destruct Hcy as [Hy _]. by apply Hne, not_eq_sym in Hy.
      * rewrite Hk. intros He. congruence.
    + intros sd' k. rewrite Hv2, Hk. case_decide; [done|]. by apply same_view_visible.
Qed.


Abbreviation objects L := (objs (lheap L)).

(** Two methods through a pointer, then the store. *)
Lemma acct_method_run L p a f a' : objects L !! p = Some a -> f a = inr a' ->
  acct_method p f L = (Ret tt, set_heap (heap_store p a' (lheap L)) L).
Proof. intros Hp Hf. unfold acct_method. rewrite (bindM_step _ _ _ a L) by (by apply load_some). by rewrite Hf. Qed.

Lemma update_account L sd q a f g b c :
  cached L sd q a -> f a = inr b -> g b = inr c ->
  (do! acct_method q f in do! acct_method q g in set_on sd q) L = (Ret tt, put_state sd q c L).
Proof.
  intros [Hq _] Hf Hg. rewrite (bindM_step _ _ _ _ _ (acct_method_run L q a f b Hq Hf)).
  erewrite bindM_step by (eapply acct_method_run; [cbn; apply lookup_insert_eq|exact Hg]).
  rewrite (set_on_run _ sd q c) by (cbn; apply lookup_insert_eq). do 2 f_equal. unfold put_state, set_heap, heap_store. cbn. by rewrite insert_insert_eq.
Qed.
End Ctx.
