(* ===== verification/Stake.v ===== *)
(** * Stakes, delegatees, signing records and rewards

    [ctrlers/stake/stake.go], [delegatee.go], [block_marker.go], [reward.go].
    A stake object belongs to exactly one holder at a time (a delegatee or the
    frozen ledger), so the stakes of a delegatee are held by value; delegatees
    and rewards are shared by pointer and live in the heaps of their ledgers. *)

From Stdlib Require Import Strings.Byte.
From S2P Require Import Prelude Xerrors GoSem Bytes Ledger LedgerSpec Concrete GovParams.

(** ** [stake.go] *)
Record Stake : Type := mkStake {
  st_From : list Byte.byte;
  st_To : list Byte.byte;
  st_TxHash : list Byte.byte;
  st_StartHeight : Z;
  st_RefundHeight : Z;
  st_Power : Z;
}.

#[export] Instance stake_eq_dec : EqDecision Stake.
Proof. solve_decision. Defined.
#[export] Program Instance stake_countable : Countable Stake :=
  inj_countable' (fun s => (st_From s, st_To s, st_TxHash s, st_StartHeight s, st_RefundHeight s, st_Power s))
    (fun '(a, b, c, d, e, f) => mkStake a b c d e f) _.
Next Obligation. by intros []. Qed.

Definition Stake_Key (s : Stake) : bytes := ToLedgerKey (st_TxHash s).

Definition NewStakeWithPower (owner to : bytes) (power startHeight : Z) (txhash : bytes) : Stake :=
  mkStake owner to txhash startHeight 0 power.
Definition NewStakeWithAmount (owner to : bytes) (amt startHeight : Z) (txhash : bytes) : outcome Stake :=
  match AmountToPower amt with
  | Ret power => Ret (NewStakeWithPower owner to power startHeight txhash)
  | Err e => Err e
  | Panic => Panic
  end.

Definition Stake_Equal (s o : Stake) : bool :=
  (Compare (st_From s) (st_From o) =? 0) && (Compare (st_To s) (st_To o) =? 0) &&
  (Compare (st_TxHash s) (st_TxHash o) =? 0) && (st_StartHeight s =? st_StartHeight o) && (st_Power s =? st_Power o).

Definition IsSelfStake (s : Stake) : bool := Compare (st_From s) (st_To s) =? 0.

Definition set_RefundHeight (h : Z) (s : Stake) : Stake :=
  mkStake (st_From s) (st_To s) (st_TxHash s) (st_StartHeight s) h (st_Power s).
Definition set_Power (p : Z) (s : Stake) : Stake :=
  mkStake (st_From s) (st_To s) (st_TxHash s) (st_StartHeight s) (st_RefundHeight s) p.

Definition startHeightLess (a b : Stake) : bool := st_StartHeight a <? st_StartHeight b.
Definition refundHeightLess (a b : Stake) : bool := st_RefundHeight a <? st_RefundHeight b.

(** ** [block_marker.go] *)
Record BlockMarker : Type := mkMarker { BlockHeights : list Z }.

Definition Mark (height : Z) (bm : BlockMarker) : XError + BlockMarker :=
  match list.last (BlockHeights bm) with
  | Some h => if height <=? h then inl (NewOrdinary "height must bigger than last marked height")
              else inr (mkMarker (BlockHeights bm ++ [height]))
  | None => inr (mkMarker (BlockHeights bm ++ [height]))
  end.

(** The loop of [CountInWindow]: index, count, and the last index below the
    window; it stops at the first height at or above [h1]. *)
Fixpoint window_loop (h0 h1 : Z) (hs : list Z) (i count preIdx : Z) : Z * Z :=
  match hs with
  | [] => (count, preIdx)
  | h :: hs' =>
      let preIdx' := if h <? h0 then i else preIdx in
      let count' := if (h0 <=? h) && (h <=? h1) then count + 1 else count in
      if h1 <=? h then (count', preIdx') else window_loop h0 h1 hs' (i + 1) count' preIdx'
  end.

(** The count, and the marker afterwards. *)
Definition CountInWindow (h0 h1 : Z) (rewin : bool) (bm : BlockMarker) : Z * BlockMarker :=
  if h1 <? h0 then (0, bm)
  else
    let '(count, preIdx) := window_loop h0 h1 (BlockHeights bm) 0 0 (-1) in
    if rewin && (0 <? preIdx) then (count, mkMarker (drop (Z.to_nat (preIdx + 1)) (BlockHeights bm)))
    else (count, bm).

(** ** [delegatee.go] *)
Record Delegatee : Type := mkDelegatee {
  dg_Addr : list Byte.byte;
  dg_PubKey : list Byte.byte;
  dg_SelfPower : Z;
  dg_TotalPower : Z;
  dg_SlashedPower : Z;
  dg_Stakes : list Stake;
  dg_NotSignedHeights : list Z;
}.

#[export] Instance delegatee_eq_dec : EqDecision Delegatee.
Proof. solve_decision. Defined.
#[export] Program Instance delegatee_countable : Countable Delegatee :=
  inj_countable' (fun d => (dg_Addr d, dg_PubKey d, dg_SelfPower d, dg_TotalPower d, dg_SlashedPower d, dg_Stakes d, dg_NotSignedHeights d))
    (fun '(a, b, c, d, e, f, g) => mkDelegatee a b c d e f g) _.
Next Obligation. by intros []. Qed.

Definition Delegatee_Key (d : Delegatee) : bytes := ToLedgerKey (dg_Addr d).
Definition NewDelegatee (addr pubKey : bytes) : Delegatee := mkDelegatee addr pubKey 0 0 0 [] [].

Definition set_powers (self total : Z) (stakes : list Stake) (d : Delegatee) : Delegatee :=
  mkDelegatee (dg_Addr d) (dg_PubKey d) self total (dg_SlashedPower d) stakes (dg_NotSignedHeights d).
Definition set_NotSigned (hs : list Z) (d : Delegatee) : Delegatee :=
  mkDelegatee (dg_Addr d) (dg_PubKey d) (dg_SelfPower d) (dg_TotalPower d) (dg_SlashedPower d) (dg_Stakes d) hs.

(** [addStake]: the loop over the added stakes updates the two powers. *)
Definition addStake (stakes : list Stake) (d : Delegatee) : Delegatee :=
  fold_left (fun d s =>
      set_powers (if IsSelfStake s then i64 (dg_SelfPower d + st_Power s) else dg_SelfPower d)
                 (i64 (dg_TotalPower d + st_Power s)) (dg_Stakes d) d)
    stakes (set_powers (dg_SelfPower d) (dg_TotalPower d) (dg_Stakes d ++ stakes) d).

Definition AddStake (stakes : list Stake) (d : Delegatee) : Delegatee := addStake stakes d.

Fixpoint findStake_from (i : nat) (txhash : bytes) (stakes : list Stake) : option (nat * Stake) :=
  match stakes with
  | [] => None
  | s :: r => if Compare txhash (st_TxHash s) =? 0 then Some (i, s) else findStake_from (S i) txhash r
  end.
Definition FindStake (txhash : bytes) (d : Delegatee) : option (nat * Stake) := findStake_from 0 txhash (dg_Stakes d).

(** [delStakeByIdx]: the stake, and the remaining slice. *)
Definition delStakeByIdx (idx : nat) (stakes : list Stake) : option (Stake * list Stake) :=
  match stakes !! idx with
  | None => None
  | Some s => Some (s, take idx stakes ++ drop (S idx) stakes)
  end.
Definition delStakeByHash (txhash : bytes) (stakes : list Stake) : option (Stake * list Stake) :=
  match findStake_from 0 txhash stakes with
  | None => None
  | Some (i, _) => delStakeByIdx i stakes
  end.

Definition sub_stake (r : option (Stake * list Stake)) (d : Delegatee) : option Stake * Delegatee :=
  match r with
  | None => (None, d)
  | Some (s, rest) =>
      (Some s, set_powers (if IsSelfStake s then i64 (dg_SelfPower d - st_Power s) else dg_SelfPower d)
                          (i64 (dg_TotalPower d - st_Power s)) rest d)
  end.
Definition DelStake (txhash : bytes) (d : Delegatee) : option Stake * Delegatee :=
  sub_stake (delStakeByHash txhash (dg_Stakes d)) d.
Definition DelStakeByIdx (idx : nat) (d : Delegatee) : option Stake * Delegatee :=
  sub_stake (delStakeByIdx idx (dg_Stakes d)) d.

(** [DelAllStakes] lowers [TotalPower] only. *)
Definition DelAllStakes (d : Delegatee) : list Stake * Delegatee :=
  (dg_Stakes d,
   set_powers (dg_SelfPower d) (fold_left (fun t s => i64 (t - st_Power s)) (dg_Stakes d) (dg_TotalPower d)) [] d).

Definition StakesOf (addr : bytes) (d : Delegatee) : list Stake :=
  List.filter (fun s => Compare addr (st_From s) =? 0) (dg_Stakes d).

(** [SelfStakeRatio]: a zero divisor is a run-time panic. *)
Definition SelfStakeRatio (added : Z) (d : Delegatee) : outcome Z :=
  match i64_div (i64 (dg_SelfPower d * 100)) (i64 (dg_TotalPower d + added)) with
  | Some r => Ret r
  | None => Panic
  end.

Definition ProcessNotSignedBlock (height : Z) (d : Delegatee) : XError + Delegatee :=
  match Mark height (mkMarker (dg_NotSignedHeights d)) with
  | inl e => inl e
  | inr bm => inr (set_NotSigned (BlockHeights bm) d)
  end.
Definition GetNotSignedBlockCount (h0 h1 : Z) (d : Delegatee) : Z * Delegatee :=
  let '(n, bm) := CountInWindow h0 h1 true (mkMarker (dg_NotSignedHeights d)) in
  (n, set_NotSigned (BlockHeights bm) d).

(** [sumPowerOf]; a nil address ([None]) sums all the stakes. *)
Definition sumPowerOf (addr : option (list Byte.byte)) (stakes : list Stake) : Z :=
  fold_left (fun power s =>
      if match addr with None => true | Some a => Compare a (st_From s) =? 0 end
      then i64 (power + st_Power s) else power) stakes 0.

(** A nil slice is an address too: [sumPowerOf(delegatee.Addr)]. *)
Definition addr_arg (a : bytes) : option (list Byte.byte) := match a with [] => None | _ => Some a end.

(** The amount taken from a stake of power [p]. *)
Definition slash_amount (ratio p : Z) : Z := i64 (Z.quot (i64 (p * ratio)) 100).

(** The first loop of [doSlashAll]: the stakes with their new powers, the stakes
    to remove, and the slashed total.  A stake that would lose less than one
    power is removed as a whole. *)
Fixpoint slash_loop (ratio : Z) (stakes : list Stake) (sum : Z) : list Stake * list Stake * Z :=
  match stakes with
  | [] => ([], [], sum)
  | s :: r =>
      let slashed := slash_amount ratio (st_Power s) in
      if slashed <? 1 then
        let '(kept, removing, t) := slash_loop ratio r sum in (s :: kept, s :: removing, t)
      else
        let '(kept, removing, t) := slash_loop ratio r (i64 (sum + slashed)) in
        (set_Power (i64 (st_Power s - slashed)) s :: kept, removing, t)
  end.

Definition remove_stakes (removing stakes : list Stake) : list Stake :=
  fold_left (fun l s => match delStakeByHash (st_TxHash s) l with Some (_, l') => l' | None => l end) removing stakes.

Definition doSlashAll (ratio : Z) (d : Delegatee) : Z * Delegatee :=
  let '(stakes, removing, sum) := slash_loop ratio (dg_Stakes d) 0 in
  let stakes' := remove_stakes removing stakes in
  (sum, set_powers (sumPowerOf (addr_arg (dg_Addr d)) stakes') (sumPowerOf None stakes') stakes' d).
Definition DoSlash (ratio : Z) (d : Delegatee) : Z * Delegatee := doSlashAll ratio d.

(** ** [DelegateeArray] and its orders *)
Definition SumTotalPower (ds : list Delegatee) : Z := sum_i64 dg_TotalPower ds.

Definition PowerOrderLess (a b : Delegatee) : bool :=
  if negb (dg_TotalPower a =? dg_TotalPower b) then dg_TotalPower b <? dg_TotalPower a
  else if negb (length (dg_Stakes a) =? length (dg_Stakes b))%nat then
    (length (dg_Stakes b) <? length (dg_Stakes a))%nat
  else bytes_ltb (dg_Addr b) (dg_Addr a).

Definition AddressOrderLess (a b : Delegatee) : bool := bytes_ltb (dg_Addr a) (dg_Addr b).

(** ** [reward.go] *)
Record Reward_ : Type := mkReward {
  rw_address : list Byte.byte;
  rw_issued : Z;
  rw_withdrawn : Z;
  rw_slashed : Z;
  rw_cumulated : Z;
  rw_height : Z;
}.

#[export] Instance reward_eq_dec : EqDecision Reward_.
Proof. solve_decision. Defined.
#[export] Program Instance reward_countable : Countable Reward_ :=
  inj_countable' (fun r => (rw_address r, rw_issued r, rw_withdrawn r, rw_slashed r, rw_cumulated r, rw_height r))
    (fun '(a, b, c, d, e, f) => mkReward a b c d e f) _.
Next Obligation. by intros []. Qed.

Definition NewReward (addr : bytes) : Reward_ := mkReward addr 0 0 0 0 0.

(** Per-height counters restart when the height advances; a height that goes
    back is a panic. *)
Definition at_height (h old r : Z) (rwd : Reward_) : option Z :=
  if rw_height rwd <? h then Some r
  else if rw_height rwd =? h then Some (u256 (old + r))
  else None.

Definition Issue (r h : Z) (rwd : Reward_) : outcome Reward_ :=
  match at_height h (rw_issued rwd) r rwd with
  | None => Panic
  | Some i => Ret (mkReward (rw_address rwd) i (rw_withdrawn rwd) (rw_slashed rwd) (u256 (rw_cumulated rwd + r)) h)
  end.

Definition Withdraw (r h : Z) (rwd : Reward_) : outcome Reward_ :=
  match at_height h (rw_withdrawn rwd) r rwd with
  | None => Panic
  | Some w => Ret (mkReward (rw_address rwd) (rw_issued rwd) w (rw_slashed rwd) (u256 (rw_cumulated rwd - r)) h)
  end.

Definition Slash (r h : Z) (rwd : Reward_) : outcome Reward_ :=
  match at_height h (rw_slashed rwd) r rwd with
  | None => Panic
  | Some s => Ret (mkReward (rw_address rwd) (rw_issued rwd) (rw_withdrawn rwd) s (u256 (rw_cumulated rwd - r)) h)
  end.

Definition Reward_Key (r : Reward_) : bytes := ToLedgerKey (rw_address r).

Record RewardProto : Type := mkRewardProto {
  pw_Address : list Byte.byte;
  pw_XIssued : list Byte.byte;
  pw_XWithdrawn : list Byte.byte;
  pw_XSlashed : list Byte.byte;
  pw_XCumulated : list Byte.byte;
  pw_Height : Z;
}.
#[export] Instance reward_proto_eq_dec : EqDecision RewardProto.
Proof. solve_decision. Defined.
#[export] Program Instance reward_proto_countable : Countable RewardProto :=
  inj_countable' (fun r => (pw_Address r, pw_XIssued r, pw_XWithdrawn r, pw_XSlashed r, pw_XCumulated r, pw_Height r))
    (fun '(a, b, c, d, e, f) => mkRewardProto a b c d e f) _.
Next Obligation. by intros []. Qed.

Definition reward_toProto (r : Reward_) : RewardProto :=
  mkRewardProto (rw_address r) (u256_Bytes (rw_issued r)) (u256_Bytes (rw_withdrawn r)) (u256_Bytes (rw_slashed r))
    (u256_Bytes (rw_cumulated r)) (rw_height r).
Definition reward_fromProto (m : RewardProto) : Reward_ :=
  mkReward (pw_Address m) (u256_SetBytes (pw_XIssued m)) (u256_SetBytes (pw_XWithdrawn m)) (u256_SetBytes (pw_XSlashed m))
    (u256_SetBytes (pw_XCumulated m)) (pw_Height m).

(** ** Ledger items *)
Section StakeItems.
Context {CS : Codec Stake} {CD : Codec Delegatee} {CR : Codec RewardProto}.

Definition Stake_Encode (s : Stake) : outcome bytes :=
  match codec_Marshal s with inl msg => Err (NewOrdinary msg) | inr bz => Ret bz end.
Definition Stake_Decode (bz : bytes) : outcome Stake :=
  match codec_Unmarshal bz with inl msg => Err (NewOrdinary msg) | inr s => Ret s end.
Definition Delegatee_Encode (d : Delegatee) : outcome bytes :=
  match codec_Marshal d with inl msg => Err (NewOrdinary msg) | inr bz => Ret bz end.
Definition Delegatee_Decode (bz : bytes) : outcome Delegatee :=
  match codec_Unmarshal bz with inl msg => Err (NewOrdinary msg) | inr d => Ret d end.
Definition Reward_Encode (r : Reward_) : outcome bytes :=
  match codec_Marshal (reward_toProto r) with inl msg => Err (NewOrdinary msg) | inr bz => Ret bz end.
Definition Reward_Decode (bz : bytes) : outcome Reward_ :=
  match codec_Unmarshal bz with inl msg => Err (NewOrdinary msg) | inr m => Ret (reward_fromProto m) end.

#[export] Instance stake_item : ILedgerItem Stake := {| Key := Stake_Key; Encode := Stake_Encode; Decode := Stake_Decode |}.
#[export] Instance delegatee_item : ILedgerItem Delegatee :=
  {| Key := Delegatee_Key; Encode := Delegatee_Encode; Decode := Delegatee_Decode |}.
#[export] Instance reward_item : ILedgerItem Reward_ := {| Key := Reward_Key; Encode := Reward_Encode; Decode := Reward_Decode |}.
End StakeItems.
