(* ===== verification/StakeProps.v ===== *)
(** * Theorems about stakes, delegatees, signing records and rewards

    The recorded powers of a delegatee are the sums over its stakes and stay so
    under every operation; what slashing takes and keeps; the window of missed
    blocks; the accounting of rewards. *)

From Stdlib Require Import Strings.Byte.
From S2P Require Import Prelude Xerrors GoSem Bytes Ledger LedgerSpec Concrete GovParams Stake.

(** ** Delegatees *)
Definition self_stakes (l : list Stake) : list Stake := List.filter IsSelfStake l.

(** Every stake is for this delegatee and has power; the recorded powers are
    the sums. *)
Record delegatee_wf (d : Delegatee) : Prop := {
  dw_addr : dg_Addr d <> [];
  dw_stakes : forall s, s ∈ dg_Stakes d -> st_To s = dg_Addr d /\ 0 < st_Power s;
  dw_total : dg_TotalPower d = sumZ st_Power (dg_Stakes d);
  dw_self : dg_SelfPower d = sumZ st_Power (self_stakes (dg_Stakes d));
  dw_bound : sumZ st_Power (dg_Stakes d) < 2 ^ 63;
}.

Lemma self_stakes_app l1 l2 : self_stakes (l1 ++ l2) = self_stakes l1 ++ self_stakes l2.
Proof. apply List.filter_app. Qed.

Lemma elem_of_list_filter {A} (f : A -> bool) l x : x ∈ List.filter f l <-> x ∈ l /\ f x = true.
Proof. rewrite !list_elem_of_In. apply List.filter_In. Qed.

Lemma self_sum_bound l : (forall s, s ∈ l -> 0 < st_Power s) ->
  0 <= sumZ st_Power (self_stakes l) <= sumZ st_Power l.
Proof.
  intros H. rewrite (sumZ_filter_split st_Power IsSelfStake l). unfold self_stakes. split.
  - apply sumZ_nonneg. intros s [Hs _]%elem_of_list_filter. apply H in Hs. lia.
  - enough (0 <= sumZ st_Power (List.filter (fun x => negb (IsSelfStake x)) l)) by lia.
    apply sumZ_nonneg. intros s [Hs _]%elem_of_list_filter. apply H in Hs. lia.
Qed.

Lemma wf_sums d : delegatee_wf d -> 0 <= dg_SelfPower d <= dg_TotalPower d /\ dg_TotalPower d < 2 ^ 63.
Proof.
  intros Hw. rewrite (dw_total d Hw), (dw_self d Hw).
  pose proof (self_sum_bound (dg_Stakes d) (fun s Hs => proj2 (dw_stakes d Hw s Hs))). pose proof (dw_bound d Hw). lia.
Qed.

Lemma add_stake_fold stakes l d a b :
  fold_left (fun d s =>
      set_powers (if IsSelfStake s then i64 (dg_SelfPower d + st_Power s) else dg_SelfPower d)
                 (i64 (dg_TotalPower d + st_Power s)) (dg_Stakes d) d) stakes (set_powers (i64 a) (i64 b) l d)
  = set_powers (i64 (a + sumZ st_Power (self_stakes stakes))) (i64 (b + sumZ st_Power stakes)) l d.
Proof.
  revert a b. induction stakes as [|s r IH]; intros a b; cbn [fold_left].
  { by rewrite !sumZ_nil, !Z.add_0_r. }
  cbn [dg_SelfPower dg_TotalPower dg_Stakes set_powers].
  rewrite !i64_add_l. replace (if IsSelfStake s then i64 (a + st_Power s) else i64 a)
    with (i64 (a + if IsSelfStake s then st_Power s else 0)) by (destruct (IsSelfStake s); f_equal; lia).
  unfold set_powers in IH |- *. cbn in IH |- *. rewrite IH. rewrite !sumZ_cons.
  unfold self_stakes. cbn [List.filter]. destruct (IsSelfStake s); rewrite ?sumZ_cons; do 2 f_equal; lia.
Qed.

Lemma add_stake_eq stakes d :
  is_i64 (dg_SelfPower d) -> is_i64 (dg_TotalPower d) ->
  AddStake stakes d = set_powers (i64 (dg_SelfPower d + sumZ st_Power (self_stakes stakes)))
                        (i64 (dg_TotalPower d + sumZ st_Power stakes)) (dg_Stakes d ++ stakes) d.
Proof.
  intros H1 H2. unfold AddStake, addStake.
  rewrite <- (i64_id (dg_SelfPower d)) at 1 by done. rewrite <- (i64_id (dg_TotalPower d)) at 1 by done.
  apply add_stake_fold.
Qed.

Lemma add_stake_wf stakes d :
  delegatee_wf d -> (forall s, s ∈ stakes -> st_To s = dg_Addr d /\ 0 < st_Power s) ->
  dg_TotalPower d + sumZ st_Power stakes < 2 ^ 63 -> delegatee_wf (AddStake stakes d).
Proof.
  intros Hw Hs Hb. pose proof (wf_sums d Hw) as Hsum.
  pose proof (self_sum_bound stakes (fun s H => proj2 (Hs s H))) as Hself.
  rewrite add_stake_eq by (unfold is_i64; lia). rewrite !i64_id by (unfold is_i64; lia).
  constructor; cbn.
  - apply (dw_addr d Hw).
  - intros s [?|?]%elem_of_app; [by apply (dw_stakes d Hw)|by apply Hs].
  - rewrite sumZ_app, (dw_total d Hw). lia.
  - rewrite self_stakes_app, sumZ_app, (dw_self d Hw). lia.
  - rewrite sumZ_app, <- (dw_total d Hw). lia.
Qed.

Lemma find_stake_spec txhash l i :
  match findStake_from i txhash l with
  | None => forall s, s ∈ l -> st_TxHash s <> txhash
  | Some (j, s) => (i <= j)%nat /\ l !! (j - i)%nat = Some s /\ st_TxHash s = txhash /\
                   (forall k s', (k < j - i)%nat -> l !! k = Some s' -> st_TxHash s' <> txhash)
  end.
Proof.
  revert i. induction l as [|s l IH]; intros i; cbn [findStake_from].
  { intros s Hs. by apply not_elem_of_nil in Hs. }
  destruct (Compare txhash (st_TxHash s) =? 0) eqn:E.
  - apply Z.eqb_eq, compare_eq in E. rewrite Nat.sub_diag. split_and!; [lia|done|done|]. lia.
  - assert (Hne : st_TxHash s <> txhash) by (intros <-; rewrite (proj2 (compare_eq _ _) eq_refl) in E; done).
    specialize (IH (S i)). destruct (findStake_from (S i) txhash l) as [[j s']|].
    + destruct IH as (Hle & Hl & Hh & Hfirst). split_and!; [lia| |done|].
      * replace (j - i)%nat with (S (j - S i)) by lia. done.
      * intros [|k] s1 Hk; cbn; [congruence|]. apply Hfirst. lia.
    + intros s' [->|Hs']%elem_of_cons; [done|by apply IH].
Qed.

Lemma del_by_idx_perm idx l s rest : delStakeByIdx idx l = Some (s, rest) -> l ≡ₚ s :: rest /\ s ∈ l.
Proof.
  unfold delStakeByIdx. destruct (l !! idx) as [s'|] eqn:E; [|done]. intros [= <- <-].
  split; [|by eapply list_elem_of_lookup_2].
  rewrite <- (take_drop_middle l idx s' E) at 1. by rewrite Permutation_middle.
Qed.

Lemma del_by_hash_spec txhash l s rest :
  delStakeByHash txhash l = Some (s, rest) -> l ≡ₚ s :: rest /\ s ∈ l /\ st_TxHash s = txhash.
Proof.
  unfold delStakeByHash. pose proof (find_stake_spec txhash l 0) as H.
  destruct (findStake_from 0 txhash l) as [[j s']|]; [|done]. destruct H as (_ & Hl & Hh & _).
  intros Hd. pose proof (del_by_idx_perm _ _ _ _ Hd) as [Hp Hin]. split_and!; [done|done|].
  unfold delStakeByIdx in Hd. rewrite Nat.sub_0_r in Hl. rewrite Hl in Hd. congruence.
Qed.

Lemma self_stakes_perm l l' : l ≡ₚ l' -> self_stakes l ≡ₚ self_stakes l'.
Proof. unfold self_stakes. induction 1; cbn; repeat case_match; eauto using Permutation. Qed.

Lemma sub_stake_wf l s rest d :
  delegatee_wf d -> l = Some (s, rest) -> dg_Stakes d ≡ₚ s :: rest ->
  delegatee_wf (sub_stake l d).2 /\ (sub_stake l d).1 = Some s /\
  dg_TotalPower (sub_stake l d).2 = dg_TotalPower d - st_Power s /\ dg_Stakes (sub_stake l d).2 = rest.
Proof.
  intros Hw -> Hp. pose proof (wf_sums d Hw) as Hsum. cbn [sub_stake].
  assert (Hin : forall x, x ∈ rest -> x ∈ dg_Stakes d) by (intros x; rewrite Hp; set_solver).
  assert (Hs : s ∈ dg_Stakes d) by (rewrite Hp; set_solver). destruct (dw_stakes d Hw s Hs) as [Hto Hpos].
  assert (Htot : dg_TotalPower d = st_Power s + sumZ st_Power rest) by (by rewrite (dw_total d Hw), (sumZ_perm _ _ _ Hp)).
  assert (Hself : dg_SelfPower d = (if IsSelfStake s then st_Power s else 0) + sumZ st_Power (self_stakes rest)).
  { rewrite (dw_self d Hw), (sumZ_perm _ _ _ (self_stakes_perm _ _ Hp)). unfold self_stakes. cbn [List.filter].
    destruct (IsSelfStake s); rewrite ?sumZ_cons; lia. }
  pose proof (self_sum_bound rest (fun x Hx => proj2 (dw_stakes d Hw x (Hin x Hx)))) as Hrest.
  rewrite (i64_id (dg_TotalPower d - st_Power s)) by (unfold is_i64; lia).
  assert (Hnew : (if IsSelfStake s then i64 (dg_SelfPower d - st_Power s) else dg_SelfPower d) = sumZ st_Power (self_stakes rest)).
  { destruct (IsSelfStake s); [rewrite i64_id by (unfold is_i64; lia)|]; lia. }
  rewrite Hnew. split_and!; [constructor|done|done|done]; cbn.
  - apply (dw_addr d Hw).
  - intros x Hx. by apply (dw_stakes d Hw), Hin.
  - lia.
  - done.
  - lia.
Qed.

Lemma del_stake_wf txhash d :
  delegatee_wf d ->
  match DelStake txhash d with
  | (None, d') => d' = d /\ (forall s, s ∈ dg_Stakes d -> st_TxHash s <> txhash)
  | (Some s, d') => delegatee_wf d' /\ st_TxHash s = txhash /\ dg_Stakes d ≡ₚ s :: dg_Stakes d' /\
                    dg_TotalPower d' = dg_TotalPower d - st_Power s
  end.
Proof.
  intros Hw. unfold DelStake. destruct (delStakeByHash txhash (dg_Stakes d)) as [[s rest]|] eqn:E.
  - destruct (del_by_hash_spec _ _ _ _ E) as (Hp & _ & Hh).
    destruct (sub_stake_wf (Some (s, rest)) s rest d Hw eq_refl Hp) as (H1 & H2 & H3 & H4).
    cbn [sub_stake fst snd] in *. split_and!; [done|done|by rewrite H4|done].
  - cbn. split; [done|]. unfold delStakeByHash in E. pose proof (find_stake_spec txhash (dg_Stakes d) 0) as H.
    destruct (findStake_from 0 txhash (dg_Stakes d)) as [[j s']|]; [|done].
    destruct H as (_ & Hl & _). unfold delStakeByIdx in E. rewrite Nat.sub_0_r in Hl. by rewrite Hl in E.
Qed.

Lemma del_all_total stakes t :
  fold_left (fun t s => i64 (t - st_Power s)) stakes (i64 t) = i64 (t - sumZ st_Power stakes).
Proof.
  revert t. induction stakes as [|s r IH]; intros t; cbn [fold_left].
  - f_equal. rewrite sumZ_nil. lia.
  - rewrite i64_sub_l, IH, sumZ_cons. f_equal. lia.
Qed.

(** The power bookkeeping of a delegatee is an invariant.  In a well-formed
    delegatee [TotalPower] is the sum of the powers of its stakes and
    [SelfPower] the sum over its own stakes; adding stakes (without exceeding
    [2^63]), deleting a stake by hash or by index and deleting all stakes keep
    this, and a deletion removes exactly one stake with the given hash. *)
Theorem delegatee_powers (d : Delegatee) :
  delegatee_wf d ->
  (forall stakes, (forall s, s ∈ stakes -> st_To s = dg_Addr d /\ 0 < st_Power s) ->
     dg_TotalPower d + sumZ st_Power stakes < 2 ^ 63 -> delegatee_wf (AddStake stakes d)) /\
  (forall txhash, match DelStake txhash d with
     | (None, d') => d' = d /\ (forall s, s ∈ dg_Stakes d -> st_TxHash s <> txhash)
     | (Some s, d') => delegatee_wf d' /\ st_TxHash s = txhash /\ dg_Stakes d ≡ₚ s :: dg_Stakes d' /\
                       dg_TotalPower d' = dg_TotalPower d - st_Power s
     end) /\
  (forall idx s d', DelStakeByIdx idx d = (Some s, d') -> delegatee_wf d' /\ dg_Stakes d ≡ₚ s :: dg_Stakes d') /\
  (DelAllStakes d).1 = dg_Stakes d /\ dg_TotalPower (DelAllStakes d).2 = 0 /\ dg_Stakes (DelAllStakes d).2 = [].
Proof.
  intros Hw. split_and!.
  - intros stakes. by apply add_stake_wf.
  - intros txhash. by apply del_stake_wf.
  - intros idx s d' Hd. unfold DelStakeByIdx in Hd. destruct (delStakeByIdx idx (dg_Stakes d)) as [[s' rest]|] eqn:E; [|done].
    destruct (del_by_idx_perm _ _ _ _ E) as [Hp _].
    destruct (sub_stake_wf (Some (s', rest)) s' rest d Hw eq_refl Hp) as (H1 & H2 & _ & H4).
    rewrite Hd in H1, H2, H4. cbn [fst snd] in *. injection H2 as ->. by rewrite H4.
  - done.
  - cbn. pose proof (wf_sums d Hw). rewrite <- (i64_id (dg_TotalPower d)) by (unfold is_i64; lia).
    rewrite del_all_total, (dw_total d Hw), Z.sub_diag. by rewrite i64_id.
  - done.
Qed.

(** ** Slashing *)
Definition slashed_of (ratio : Z) (s : Stake) : Z := st_Power s * ratio / 100.
Definition hit (ratio : Z) (s : Stake) : bool := 1 <=? slashed_of ratio s.
Definition reduced (ratio : Z) (s : Stake) : Stake := set_Power (st_Power s - slashed_of ratio s) s.

Lemma slash_amount_exact ratio p :
  0 <= ratio <= 100 -> 0 <= p -> p * 100 < 2 ^ 63 -> slash_amount ratio p = p * ratio / 100 /\ 0 <= p * ratio / 100 <= p.
Proof.
  intros Hr Hp Hb. assert (0 <= p * ratio <= p * 100) by nia.
  assert (Hq : 0 <= p * ratio / 100 <= p).
  { split; [apply Z.div_pos; lia|apply Z.div_le_upper_bound; lia]. }
  unfold slash_amount. rewrite (i64_id (p * ratio)) by (unfold is_i64; lia).
  rewrite Z.quot_div_nonneg by lia. rewrite i64_id by (unfold is_i64; lia). done.
Qed.

Lemma slash_loop_spec ratio l acc :
  0 <= ratio <= 100 -> (forall s, s ∈ l -> 0 < st_Power s) -> 0 <= acc -> (acc + sumZ st_Power l) * 100 < 2 ^ 63 ->
  slash_loop ratio l acc = (map (fun s => if hit ratio s then reduced ratio s else s) l,
                            List.filter (fun s => negb (hit ratio s)) l,
                            acc + sumZ (slashed_of ratio) (List.filter (hit ratio) l)).
Proof.
  intros Hr. revert acc. induction l as [|s l IH]; intros acc Hpos Hacc Hb.
  { cbn. by rewrite sumZ_nil, Z.add_0_r. }
  rewrite sumZ_cons in Hb. pose proof (Hpos s ltac:(set_solver)) as Hs.
  assert (Hrest : 0 <= sumZ st_Power l).
  { apply sumZ_nonneg. intros x Hx. pose proof (Hpos x ltac:(set_solver)). lia. }
  destruct (slash_amount_exact ratio (st_Power s)) as [Hsl Hle]; [done|lia|lia|].
  cbn [slash_loop map List.filter]. rewrite Hsl. fold (slashed_of ratio s) in *.
  assert (Hhit : (slashed_of ratio s <? 1) = negb (hit ratio s)) by (unfold hit; lia).
  rewrite Hhit. destruct (hit ratio s) eqn:E; cbn [negb].
  - rewrite !i64_id by (unfold is_i64; lia). rewrite IH; [|set_solver|lia|lia].
    rewrite sumZ_cons, Z.add_assoc. done.
  - rewrite IH; [done|set_solver|lia|lia].
Qed.

Lemma del_by_hash_filter h l :
  NoDup (map st_TxHash l) ->
  (match delStakeByHash h l with Some (_, l') => l' | None => l end)
  = List.filter (fun s => negb (bool_decide (st_TxHash s = h))) l.
Proof.
  unfold delStakeByHash, delStakeByIdx. induction l as [|s l IH]; intros Hnd; [done|].
  cbn [map] in Hnd. apply list.NoDup_cons in Hnd as [Hni Hnd].
  cbn [findStake_from List.filter]. destruct (Compare h (st_TxHash s) =? 0) eqn:E.
  - apply Z.eqb_eq, compare_eq in E. cbn. rewrite bool_decide_eq_true_2 by done. cbn. symmetry.
    rewrite drop_0. clear IH Hnd. induction l as [|x l IHl]; [done|]. cbn in *.
    rewrite bool_decide_eq_false_2 by (intros Hx; apply Hni; rewrite <- E, <- Hx; set_solver). cbn.
    f_equal. apply IHl. set_solver.
  - rewrite bool_decide_eq_false_2 by (intros <-; rewrite (proj2 (compare_eq _ _) eq_refl) in E; done). cbn [negb].
    rewrite <- IH by done. clear.
    assert (Hshift : forall i, findStake_from (S i) h l = (fun p => (S p.1, p.2)) <$> findStake_from i h l).
    { induction l as [|x l IHl]; intros i; cbn; [done|]. destruct (Compare h (st_TxHash x) =? 0); [done|]. apply IHl. }
    rewrite Hshift. destruct (findStake_from 0 h l) as [[j x]|]; cbn; [|done].
    destruct (l !! j); done.
Qed.

Lemma filter_hash_nodup f l : NoDup (map st_TxHash l) -> NoDup (map st_TxHash (List.filter f l)).
Proof.
  induction l as [|x l IH]; [done|]. cbn. intros [Hx Hnd]%list.NoDup_cons.
  destruct (f x); cbn; [|by apply IH]. apply list.NoDup_cons. split; [|by apply IH].
  rewrite list_elem_of_fmap in Hx |- *. intros (y & Hy & [? _]%elem_of_list_filter). apply Hx. eauto.
Qed.

Lemma remove_stakes_filter rs l :
  NoDup (map st_TxHash l) ->
  remove_stakes rs l = List.filter (fun s => negb (bool_decide (st_TxHash s ∈ map st_TxHash rs))) l.
Proof.
  unfold remove_stakes. revert l. induction rs as [|r rs IH]; intros l Hnd; cbn [fold_left map].
  - symmetry. induction l as [|x l IHl]; [done|]. cbn. rewrite bool_decide_eq_false_2 by apply not_elem_of_nil. cbn.
    f_equal. apply IHl. cbn in Hnd. by apply list.NoDup_cons in Hnd as [_ ?].
  - rewrite del_by_hash_filter by done. rewrite IH by (by apply filter_hash_nodup). clear IH Hnd.
    induction l as [|x l IHl]; [done|]. cbn [List.filter].
    destruct (decide (st_TxHash x = st_TxHash r)) as [He|He].
    + rewrite (bool_decide_eq_true_2 (st_TxHash x = st_TxHash r)) by done. cbn [negb].
      rewrite (bool_decide_eq_true_2 (st_TxHash x ∈ st_TxHash r :: map st_TxHash rs)) by set_solver. apply IHl.
    + rewrite (bool_decide_eq_false_2 (st_TxHash x = st_TxHash r)) by done. cbn [negb List.filter]. rewrite IHl.
      by rewrite (bool_decide_ext (st_TxHash x ∈ map st_TxHash rs) (st_TxHash x ∈ st_TxHash r :: map st_TxHash rs)) by set_solver.
Qed.

Lemma slash_survivors ratio l :
  NoDup (map st_TxHash l) ->
  remove_stakes (List.filter (fun s => negb (hit ratio s)) l) (map (fun s => if hit ratio s then reduced ratio s else s) l)
  = map (reduced ratio) (List.filter (hit ratio) l).
Proof.
  intros Hnd. assert (Hh : map st_TxHash (map (fun s => if hit ratio s then reduced ratio s else s) l) = map st_TxHash l).
  { rewrite map_map. apply map_ext. intros s. by destruct (hit ratio s). }
  rewrite remove_stakes_filter by (by rewrite Hh). clear Hh.
  assert (Hgen : forall l', (forall s, s ∈ l' -> s ∈ l) ->
    List.filter (fun s => negb (bool_decide (st_TxHash s ∈ map st_TxHash (List.filter (fun s => negb (hit ratio s)) l))))
      (map (fun s => if hit ratio s then reduced ratio s else s) l') = map (reduced ratio) (List.filter (hit ratio) l')).
  { induction l' as [|s l' IH]; intros Hsub; [done|]. cbn [map List.filter].
    destruct (hit ratio s) eqn:E; cbn [map].
    - rewrite bool_decide_eq_false_2; cbn [negb]; [rewrite IH by set_solver; done|].
      cbn. rewrite list_elem_of_fmap. intros (y & Hy & [Hyl Hyh]%elem_of_list_filter).
      assert (y = s); [|subst; by rewrite E in Hyh].
      apply list_elem_of_lookup in Hyl as [i Hi]. assert (Hsl : s ∈ l) by set_solver.
      apply list_elem_of_lookup in Hsl as [j Hj].
      assert (i = j); [|congruence]. apply (NoDup_lookup (map st_TxHash l) i j (st_TxHash s) Hnd).
      + rewrite list_lookup_fmap, Hi. cbn. congruence.
      + rewrite list_lookup_fmap, Hj. done.
    - rewrite bool_decide_eq_true_2; cbn [negb]; [apply IH; set_solver|].
      apply list_elem_of_fmap. exists s. split; [done|]. apply elem_of_list_filter. rewrite E. split; [set_solver|done]. }
  by apply Hgen.
Qed.

Lemma sum_power_fold (f : Stake -> bool) l acc :
  fold_left (fun power s => if f s then i64 (power + st_Power s) else power) l (i64 acc)
  = i64 (acc + sumZ st_Power (List.filter f l)).
Proof.
  revert acc. induction l as [|s l IH]; intros acc; cbn [fold_left List.filter].
  - by rewrite sumZ_nil, Z.add_0_r.
  - destruct (f s); [|apply IH]. rewrite i64_add_l, IH, sumZ_cons. f_equal. lia.
Qed.

Lemma sum_power_fold0 (f : Stake -> bool) l :
  fold_left (fun power s => if f s then i64 (power + st_Power s) else power) l 0 = i64 (sumZ st_Power (List.filter f l)).
Proof. pose proof (sum_power_fold f l 0) as H. by rewrite (i64_id 0), Z.add_0_l in H by (unfold is_i64; lia). Qed.

Lemma sum_power_all l : sumPowerOf None l = i64 (sumZ st_Power l).
Proof.
  unfold sumPowerOf. rewrite (sum_power_fold0 (fun _ => true) l). do 2 f_equal.
  induction l as [|s l IH]; [done|]. cbn. by rewrite IH.
Qed.

Lemma sum_power_self a l :
  a <> [] -> (forall s, s ∈ l -> st_To s = a) -> sumPowerOf (addr_arg a) l = i64 (sumZ st_Power (self_stakes l)).
Proof.
  intros Ha Hto. assert (addr_arg a = Some a) as -> by (by destruct a).
  unfold sumPowerOf. rewrite (sum_power_fold0 (fun s => Compare a (st_From s) =? 0) l). do 2 f_equal.
  unfold self_stakes. apply List.filter_ext_in. intros s Hs%list_elem_of_In. unfold IsSelfStake.
  rewrite (Hto s Hs). apply Bool.eq_iff_eq_true. rewrite !Z.eqb_eq, !compare_eq. split; congruence.
Qed.

Lemma reduced_sum ratio l :
  sumZ st_Power (map (reduced ratio) l) = sumZ st_Power l - sumZ (slashed_of ratio) l.
Proof. induction l as [|s l IH]; [done|]. cbn [map]. rewrite !sumZ_cons, IH. cbn. lia. Qed.

Lemma map_filter_self ratio l : self_stakes (map (reduced ratio) l) = map (reduced ratio) (self_stakes l).
Proof.
  induction l as [|s l IH]; [done|]. unfold self_stakes in *. cbn [map List.filter].
  change (IsSelfStake (reduced ratio s)) with (IsSelfStake s). destruct (IsSelfStake s); cbn [map]; by rewrite IH.
Qed.

(** What slashing does.  For a ratio below 100% each stake loses
    [power * ratio / 100]; a stake that would lose less than one power is
    removed entirely; the delegatee stays well-formed.  The returned number is
    what the surviving stakes lost: the power of the removed stakes
    disappears from the total without being counted in it. *)
Theorem slash_spec (ratio : Z) (d : Delegatee) :
  delegatee_wf d -> NoDup (map st_TxHash (dg_Stakes d)) -> 0 <= ratio < 100 -> dg_TotalPower d * 100 < 2 ^ 63 ->
  let '(slashed, d') := DoSlash ratio d in
  slashed = sumZ (slashed_of ratio) (List.filter (hit ratio) (dg_Stakes d)) /\
  dg_Stakes d' = map (reduced ratio) (List.filter (hit ratio) (dg_Stakes d)) /\
  delegatee_wf d' /\
  dg_TotalPower d = dg_TotalPower d' + slashed + sumZ st_Power (List.filter (fun s => negb (hit ratio s)) (dg_Stakes d)).
Proof.
  intros Hw Hnd Hr Hb. unfold DoSlash, doSlashAll.
  assert (Hpos : forall s, s ∈ dg_Stakes d -> 0 < st_Power s) by (intros s Hs; apply (dw_stakes d Hw s Hs)).
  rewrite (dw_total d Hw) in Hb. rewrite slash_loop_spec by (done || lia). rewrite slash_survivors by done.
  set (good := List.filter (hit ratio) (dg_Stakes d)).
  set (bad := List.filter (fun s => negb (hit ratio s)) (dg_Stakes d)).
  assert (Hin : forall s, s ∈ good -> s ∈ dg_Stakes d) by (intros s [? _]%elem_of_list_filter; done).
  pose proof (sumZ_filter_split st_Power (hit ratio) (dg_Stakes d)) as Hsplit. fold good bad in Hsplit.
  assert (Hred : forall s, s ∈ good -> 0 < st_Power (reduced ratio s)).
  { intros s Hs. pose proof (Hpos s (Hin s Hs)). cbn. unfold slashed_of.
    assert (st_Power s * ratio / 100 < st_Power s) by (apply Z.div_lt_upper_bound; nia). lia. }
  assert (Hnew : forall s, s ∈ map (reduced ratio) good -> st_To s = dg_Addr d /\ 0 < st_Power s).
  { intros s (s0 & -> & Hs0)%list_elem_of_fmap. split; [|by apply Hred]. cbn. by apply (dw_stakes d Hw), Hin. }
  assert (Hbadn : 0 <= sumZ st_Power bad).
  { apply sumZ_nonneg. intros s [Hs _]%elem_of_list_filter. apply Hpos in Hs. lia. }
  assert (Hsl : 0 <= sumZ (slashed_of ratio) good).
  { apply sumZ_nonneg. intros s [_ Hs]%elem_of_list_filter. unfold hit in Hs. lia. }
  pose proof (reduced_sum ratio good) as Hrs.
  pose proof (self_sum_bound (map (reduced ratio) good) (fun s Hs => proj2 (Hnew s Hs))) as Hself.
  rewrite sum_power_all, sum_power_self by (apply (dw_addr d Hw) || (intros s Hs; by apply Hnew)).
  rewrite !i64_id by (unfold is_i64; lia).
  split_and!; [done|done|constructor; cbn|cbn].
  - apply (dw_addr d Hw).
  - done.
  - done.
  - done.
  - lia.
  - rewrite (dw_total d Hw). lia.
Qed.

(** ** Missed blocks *)
Definition strictly_increasing (l : list Z) : Prop := StronglySorted Z.lt l.
Definition in_window (h0 h1 h : Z) : bool := (h0 <=? h) && (h <=? h1).

Lemma window_count h0 h1 l i count pre :
  strictly_increasing l -> h0 <= h1 ->
  (window_loop h0 h1 l i count pre).1 = count + Z.of_nat (length (List.filter (in_window h0 h1) l)).
Proof.
  intros Hs Hle. revert i count pre. induction Hs as [|h l Hs IH Hall]; intros i count pre; cbn [window_loop].
  { cbn. lia. }
  cbn [List.filter]. fold (in_window h0 h1 h). destruct (h1 <=? h) eqn:E.
  - assert (Hnil : List.filter (in_window h0 h1) l = []).
    { clear -Hall E. induction Hall as [|x l Hx _ IH]; [done|]. cbn. unfold in_window at 1.
      destruct ((h0 <=? x) && (x <=? h1)) eqn:E2; [lia|done]. }
    cbn [fst]. rewrite Hnil. destruct (in_window h0 h1 h); cbn; lia.
  - rewrite IH. destruct (in_window h0 h1 h); cbn [length]; lia.
Qed.

(** The index below which heights are dropped only covers heights below [h0]. *)
Lemma window_pre h0 h1 l i count pre :
  (window_loop h0 h1 l i count pre).2 = pre \/
  exists j h, (window_loop h0 h1 l i count pre).2 = i + Z.of_nat j /\ l !! j = Some h /\ h < h0.
Proof.
  revert i count pre. induction l as [|h l IH]; intros i count pre; cbn [window_loop]; [by left|].
  destruct (h1 <=? h) eqn:E; cbn [snd].
  - destruct (h <? h0) eqn:E0; [|by left]. right. exists 0%nat, h. split_and!; [lia|done|lia].
  - destruct (IH (i + 1) (if (h0 <=? h) && (h <=? h1) then count + 1 else count) (if h <? h0 then i else pre)) as [Heq|(j & x & Heq & Hj & Hx)].
    + rewrite Heq. destruct (h <? h0) eqn:E0; [|by left]. right. exists 0%nat, h. split_and!; [lia|done|lia].
    + rewrite Heq. right. exists (S j), x. split_and!; [lia|done|done].
Qed.

Lemma sorted_drop l n : strictly_increasing l -> strictly_increasing (drop n l).
Proof.
  intros H. revert n. induction H as [|h l Hs IH Hall]; intros [|n]; cbn; [constructor|constructor| |apply IH].
  by constructor.
Qed.

Lemma sorted_take_below l n h b x :
  strictly_increasing l -> l !! n = Some h -> h < b -> x ∈ take (S n) l -> x < b.
Proof.
  intros Hs. revert n. induction Hs as [|a l Hs IH Hall]; intros n Hn Hh Hx; [done|].
  destruct n as [|n].
  - cbn in Hn, Hx. rewrite take_0 in Hx. apply list_elem_of_singleton in Hx. simplify_eq. lia.
  - cbn in Hn. rewrite list.Forall_forall in Hall. cbn in Hx. apply elem_of_cons in Hx as [->|Hx].
    + assert (a < h) by (apply Hall; by eapply list_elem_of_lookup_2). lia.
    + by eapply IH.
Qed.

Lemma rewin_window h0 h1 l :
  strictly_increasing l -> h0 <= h1 ->
  let bm := (CountInWindow h0 h1 true (mkMarker l)).2 in
  strictly_increasing (BlockHeights bm) /\
  List.filter (fun h => h0 <=? h) (BlockHeights bm) = List.filter (fun h => h0 <=? h) l.
Proof.
  intros Hs Hle bm. unfold bm, CountInWindow. destruct (h1 <? h0) eqn:E; [lia|]. cbn [BlockHeights].
  pose proof (window_pre h0 h1 l 0 0 (-1)) as Hpre. destruct (window_loop h0 h1 l 0 0 (-1)) as [c pre]. cbn [snd] in Hpre.
  cbn [andb]. destruct (0 <? pre) eqn:Ep; cbn [snd BlockHeights]; [|done].
  destruct Hpre as [Hpre|(j & h & Hpre & Hj & Hh)]; [lia|]. split; [by apply sorted_drop|].
  replace (Z.to_nat (pre + 1)) with (S j) by lia. rewrite <- (take_drop (S j) l) at 2. rewrite List.filter_app.
  replace (List.filter (fun h => h0 <=? h) (take (S j) l)) with (@nil Z); [done|].
  assert (Hall : forall x, x ∈ take (S j) l -> x < h0) by (intros x; by eapply sorted_take_below).
  induction (take (S j) l) as [|y r IH]; [done|]. cbn. pose proof (Hall y ltac:(set_solver)).
  destruct (h0 <=? y) eqn:Ey; [lia|]. apply IH. set_solver.
Qed.

(** The record of missed blocks.  [Mark] keeps the heights strictly
    increasing and refuses a height that is not larger than the last one.  On
    such a record [CountInWindow] returns exactly the number of marked heights
    in [[h0, h1]], and rewinding never forgets a height at or after [h0], so
    later windows are counted as if nothing had been dropped. *)
Theorem block_marker_spec (bm : BlockMarker) :
  strictly_increasing (BlockHeights bm) ->
  (forall h, match Mark h bm with
             | inr bm' => strictly_increasing (BlockHeights bm') /\ BlockHeights bm' = BlockHeights bm ++ [h]
             | inl _ => exists h', h' ∈ BlockHeights bm /\ h <= h' end) /\
  (forall h0 h1 rewin, h0 <= h1 ->
     (CountInWindow h0 h1 rewin bm).1 = Z.of_nat (length (List.filter (in_window h0 h1) (BlockHeights bm)))) /\
  (forall h0 h1 k0 k1, h0 <= h1 -> h0 <= k0 <= k1 ->
     (CountInWindow k0 k1 true (CountInWindow h0 h1 true bm).2).1 = (CountInWindow k0 k1 true bm).1).
Proof.
  intros Hs. assert (Hcount : forall l h0 h1 rewin, strictly_increasing l -> h0 <= h1 ->
    (CountInWindow h0 h1 rewin (mkMarker l)).1 = Z.of_nat (length (List.filter (in_window h0 h1) l))).
  { intros l h0 h1 rewin Hl Hle. unfold CountInWindow. destruct (h1 <? h0) eqn:E; [lia|].
    pose proof (window_count h0 h1 l 0 0 (-1) Hl Hle) as Hc. cbn [BlockHeights].
    destruct (window_loop h0 h1 l 0 0 (-1)) as [c pre]. cbn [fst] in Hc. by destruct (rewin && (0 <? pre)). }
  destruct bm as [l]. cbn [BlockHeights] in *. split_and!.
  - intros h. unfold Mark. cbn [BlockHeights]. destruct (list.last l) as [h'|] eqn:El.
    + apply last_Some in El as [l' ->]. destruct (h <=? h') eqn:E; [exists h'; split; [set_solver|lia]|].
      split; [|done]. apply StronglySorted_app. split_and!; [|done|repeat constructor].
      intros x y Hx ->%list_elem_of_singleton. apply StronglySorted_app in Hs as (Hx' & _ & _).
      apply elem_of_app in Hx as [Hx|Hx%list_elem_of_singleton]; [|lia].
      specialize (Hx' x h' Hx ltac:(set_solver)). lia.
    + apply last_None in El as ->. split; [|done]. repeat constructor.
  - intros. by apply Hcount.
  - intros h0 h1 k0 k1 Hh Hk. destruct (rewin_window h0 h1 l Hs Hh) as [Hs' Hf].
    revert Hs' Hf. generalize (CountInWindow h0 h1 true (mkMarker l)).2. intros [l'] Hs' Hf. cbn [BlockHeights] in *.
    rewrite !Hcount by (done || lia). do 2 f_equal.
    assert (Hw : forall m, List.filter (in_window k0 k1) m = List.filter (in_window k0 k1) (List.filter (fun h => h0 <=? h) m)).
    { intros m. induction m as [|x m IH]; [done|]. cbn [List.filter].
      destruct (h0 <=? x) eqn:Ex; cbn [List.filter]; rewrite IH; [done|].
      unfold in_window at 1. destruct ((k0 <=? x) && (x <=? k1)) eqn:E2; [lia|done]. }
    rewrite (Hw l'), (Hw l). by rewrite Hf.
Qed.

(** ** Rewards *)
Inductive rop : Type := RIssue (r h : Z) | RWithdraw (r h : Z) | RSlash (r h : Z).

Definition run_rop (o : rop) (rwd : Reward_) : outcome Reward_ :=
  match o with RIssue r h => Issue r h rwd | RWithdraw r h => Withdraw r h rwd | RSlash r h => Slash r h rwd end.

Fixpoint run_rops (os : list rop) (rwd : Reward_) : outcome Reward_ :=
  match os with
  | [] => Ret rwd
  | o :: os' => match run_rop o rwd with Ret r => run_rops os' r | Err e => Err e | Panic => Panic end
  end.

Definition rop_delta (o : rop) : Z := match o with RIssue r _ => r | RWithdraw r _ => - r | RSlash r _ => - r end.
Definition rop_height (o : rop) : Z := match o with RIssue _ h => h | RWithdraw _ h => h | RSlash _ h => h end.
Definition rop_amount (o : rop) : Z := match o with RIssue r _ => r | RWithdraw r _ => r | RSlash r _ => r end.

(** Heights never go back, and the balance stays within [0, 2^256). *)
Fixpoint rops_ok (os : list rop) (height cumulated : Z) : Prop :=
  match os with
  | [] => True
  | o :: os' => height <= rop_height o /\ is_u256 (rop_amount o) /\ is_u256 (cumulated + rop_delta o) /\
                rops_ok os' (rop_height o) (cumulated + rop_delta o)
  end.

Lemma run_rop_spec o rwd :
  rw_height rwd <= rop_height o -> is_u256 (rw_cumulated rwd + rop_delta o) ->
  exists r', run_rop o rwd = Ret r' /\ rw_cumulated r' = rw_cumulated rwd + rop_delta o /\
             rw_height r' = rop_height o /\ rw_address r' = rw_address rwd.
Proof.
  intros Hh Hc. destruct o as [r h|r h|r h]; cbn [run_rop rop_delta rop_height] in *;
    unfold Issue, Withdraw, Slash, at_height; destruct (rw_height rwd <? h) eqn:E1; try (destruct (rw_height rwd =? h) eqn:E2; [|lia]);
    eexists; (split_and!; [reflexivity| |done|done]); cbn [rw_cumulated]; rewrite u256_id; try done;
    by replace (rw_cumulated rwd - r) with (rw_cumulated rwd + - r) by lia.
Qed.

(** Rewards are accounted for exactly.  For any history of issues,
    withdrawals and slashes at non-decreasing heights in which no withdrawal or
    slash exceeds what is there and the total fits in 256 bits, no call panics
    and [cumulated] is exactly the sum issued minus the sums withdrawn and
    slashed. *)
Theorem reward_accounting (os : list rop) (rwd : Reward_) :
  rops_ok os (rw_height rwd) (rw_cumulated rwd) ->
  exists r', run_rops os rwd = Ret r' /\ rw_cumulated r' = rw_cumulated rwd + sumZ rop_delta os /\
             rw_address r' = rw_address rwd /\ rw_height rwd <= rw_height r'.
Proof.
  revert rwd. induction os as [|o os IH]; intros rwd Hok; cbn [run_rops].
  { exists rwd. rewrite sumZ_nil. split_and!; [done|lia|done|lia]. }
  destruct Hok as (Hh & _ & Hc & Hok). destruct (run_rop_spec o rwd Hh Hc) as (r1 & Hrun & Hcum & Hhei & Haddr).
  rewrite Hrun. destruct (IH r1) as (r2 & Hrun2 & Hcum2 & Haddr2 & Hhei2); [by rewrite Hcum, Hhei|].
  exists r2. rewrite sumZ_cons. split_and!; [done|lia|congruence|lia].
Qed.

(** ** Witnesses *)
Definition valAddr : bytes := replicate 20 Byte.x01.
Definition delAddr : bytes := replicate 20 Byte.x02.
Definition stk (from hash : Byte.byte) (p : Z) : Stake := mkStake (replicate 20 from) valAddr (replicate 32 hash) 1 0 p.
Definition delg0 : Delegatee := mkDelegatee valAddr [Byte.x07] 100 151 0 [stk Byte.x01 Byte.xa1 100; stk Byte.x02 Byte.xa2 50; stk Byte.x02 Byte.xa3 1] [].

Lemma delg0_wf : delegatee_wf delg0.
Proof.
  constructor; [done| |reflexivity|reflexivity|reflexivity].
  intros s Hs. cbn in Hs. repeat (apply elem_of_cons in Hs as [->|Hs]; [done|]). by apply not_elem_of_nil in Hs.
Qed.

Lemma delegatee_powers_witness : delegatee_wf (AddStake [stk Byte.x02 Byte.xa4 9] delg0).
Proof.
  apply (delegatee_powers delg0 delg0_wf); [|by vm_compute].
  intros s ->%list_elem_of_singleton. done.
Defined.

Lemma slash_spec_witness :
  NoDup (map st_TxHash (dg_Stakes delg0)) /\
  (let '(slashed, d') := DoSlash 50 delg0 in slashed = 75 /\ dg_TotalPower d' = 75 /\ length (dg_Stakes d') = 2%nat).
Proof.
  assert (Hnd : NoDup (map st_TxHash (dg_Stakes delg0))).
  { apply (bool_decide_unpack _). vm_compute. exact I. }
  split; [exact Hnd|]. pose proof (slash_spec 50 delg0 delg0_wf Hnd ltac:(lia) ltac:(cbn; lia)) as H.
  destruct (DoSlash 50 delg0) as [slashed d'] eqn:E. destruct H as (H1 & H2 & _ & H4).
  assert (Hs : slashed = 75) by (rewrite H1; vm_compute; reflexivity).
  split; [exact Hs|]. split; [|rewrite H2; vm_compute; reflexivity].
  change (151 = dg_TotalPower d' + slashed + 1) in H4. lia.
Defined.

Lemma block_marker_spec_witness :
  (CountInWindow 5 9 true (mkMarker [1; 2; 5; 7; 9; 12])).1 = 3.
Proof.
  destruct (block_marker_spec (mkMarker [1; 2; 5; 7; 9; 12])) as (_ & H & _).
  { cbn. repeat constructor; lia. }
  rewrite H by lia. reflexivity.
Defined.

Lemma reward_accounting_witness :
  exists r', run_rops [RIssue 10 1; RIssue 5 1; RWithdraw 12 3; RSlash 1 4] (NewReward valAddr) = Ret r' /\ rw_cumulated r' = 2.
Proof.
  destruct (reward_accounting [RIssue 10 1; RIssue 5 1; RWithdraw 12 3; RSlash 1 4] (NewReward valAddr)) as (r' & H1 & H2 & _).
  - cbn [rops_ok rop_height rop_delta rop_amount rw_height rw_cumulated NewReward]. unfold is_u256. repeat split; lia.
  - exists r'. split; [exact H1|]. rewrite H2. reflexivity.
Defined.
