(* ===== verification/Json.v ===== *)
(** * The JSON form of a reward: [ctrlers/stake/reward.go]

    The amounts are decimal strings; [uint256.MustFromDecimal] panics on a
    malformed one. *)

From Stdlib Require Import Strings.Byte.
From S2P Require Import Prelude Xerrors GoSem Bytes Ledger GovParams Stake.

Record RewardJSON : Type := mkRewardJSON {
  rj_Address : list Byte.byte; rj_Issued : string; rj_Withdrawn : string; rj_Slashed : string; rj_Cumulated : string; rj_Height : Z;
}.

Section RewardJSON.
Context {D : DecCodec} {CJ : Codec RewardJSON}.

Definition MustFromDecimal (s : string) : outcome Z := match u256_FromDecimal s with inl _ => Panic | inr z => Ret z end.

Definition Reward_MarshalJSON (rwd : Reward_) : outcome (list Byte.byte) :=
  match codec_Marshal (mkRewardJSON (rw_address rwd) (u256_Dec (rw_issued rwd)) (u256_Dec (rw_withdrawn rwd)) (u256_Dec (rw_slashed rwd))
                         (u256_Dec (rw_cumulated rwd)) (rw_height rwd)) with
  | inl e => Err (NewOrdinary e)
  | inr bz => Ret bz
  end.

(** The fields are written one after the other: a panic leaves those before it. *)
Definition Reward_UnmarshalJSON (d : list Byte.byte) : GoM Reward_ unit :=
  match codec_Unmarshal d with
  | inl e => errM (NewOrdinary e)
  | inr tmp =>
      do! modifyM (fun r => mkReward (rj_Address tmp) (rw_issued r) (rw_withdrawn r) (rw_slashed r) (rw_cumulated r) (rw_height r)) in
      let! x := liftO (MustFromDecimal (rj_Issued tmp)) in
      do! modifyM (fun r => mkReward (rw_address r) x (rw_withdrawn r) (rw_slashed r) (rw_cumulated r) (rw_height r)) in
      let! x := liftO (MustFromDecimal (rj_Withdrawn tmp)) in
      do! modifyM (fun r => mkReward (rw_address r) (rw_issued r) x (rw_slashed r) (rw_cumulated r) (rw_height r)) in
      let! x := liftO (MustFromDecimal (rj_Slashed tmp)) in
      do! modifyM (fun r => mkReward (rw_address r) (rw_issued r) (rw_withdrawn r) x (rw_cumulated r) (rw_height r)) in
      let! x := liftO (MustFromDecimal (rj_Cumulated tmp)) in
      do! modifyM (fun r => mkReward (rw_address r) (rw_issued r) (rw_withdrawn r) (rw_slashed r) x (rw_height r)) in
      modifyM (fun r => mkReward (rw_address r) (rw_issued r) (rw_withdrawn r) (rw_slashed r) (rw_cumulated r) (rj_Height tmp))
  end.

(** A reward survives its JSON form, whatever the object was that reads it. *)
Lemma reward_json_roundtrip {DL : DecLaws} (valid : RewardJSON -> Prop) {JL : CodecLaws RewardJSON valid} rwd bz old :
  is_u256 (rw_issued rwd) -> is_u256 (rw_withdrawn rwd) -> is_u256 (rw_slashed rwd) -> is_u256 (rw_cumulated rwd) ->
  valid (mkRewardJSON (rw_address rwd) (u256_Dec (rw_issued rwd)) (u256_Dec (rw_withdrawn rwd)) (u256_Dec (rw_slashed rwd)) (u256_Dec (rw_cumulated rwd)) (rw_height rwd)) ->
  Reward_MarshalJSON rwd = Ret bz -> Reward_UnmarshalJSON bz old = (Ret tt, rwd).
Proof.
  intros H1 H2 H3 H4 Hv. unfold Reward_MarshalJSON. destruct (codec_Marshal _) as [|bz'] eqn:E; [done|]. intros [= <-].
  unfold Reward_UnmarshalJSON. rewrite (codec_roundtrip _ _ Hv E). unfold bindM, modifyM, liftO, MustFromDecimal. cbn.
  rewrite !dec_roundtrip by done. cbn. by destruct rwd.
Qed.
End RewardJSON.
