(* ===== verification/StakeLimiter.v ===== *)
(** * The stake limiter: [ctrlers/stake/limiter.go]

    A block may only change a bounded share of the validators' power.  The
    limiter keeps its own sorted list of powers since the last [Reset]; its
    methods mutate it, also when they then report an error. *)

From Stdlib Require Import Strings.Byte.
From S2P Require Import Prelude Xerrors GoSem Bytes Ledger LedgerSpec Concrete GovParams Stake.

Record powerObj : Type := mkPowerObj { po_Addr : list Byte.byte; po_Power : Z }.
#[export] Instance powerObj_eq_dec : EqDecision powerObj.
Proof. solve_decision. Defined.

(** [orderedPowerObj.Less]: by power, then by address, descending. *)
Definition powerObjLess (a b : powerObj) : bool :=
  if negb (po_Power a =? po_Power b) then po_Power b <? po_Power a else bytes_ltb (po_Addr b) (po_Addr a).

Record StakeLimiter : Type := mkLimiter {
  sl_individualLimitRatio : Z;
  sl_updatableLimitRatio : Z;
  sl_maxValidatorCnt : Z;
  sl_powerObjs : list powerObj;
  sl_baseTotalPower : Z;
  sl_updatedPower : Z;
}.

(** The power of the first [maxValCnt] delegatees; [i] is the loop index. *)
Fixpoint base_power (i maxValCnt : Z) (ds : list Delegatee) (base : Z) : Z :=
  match ds with
  | [] => base
  | d :: r => base_power (i + 1) maxValCnt r (if i <? maxValCnt then i64 (base + dg_TotalPower d) else base)
  end.

Definition limiter_reset (ds : list Delegatee) (maxValCnt indiLimitRatio upLimitRatio : Z) : StakeLimiter :=
  mkLimiter indiLimitRatio upLimitRatio maxValCnt
    (map (fun d => mkPowerObj (dg_Addr d) (dg_TotalPower d)) ds) (base_power 0 maxValCnt ds 0) 0.

Definition NewStakeLimiter (ds : list Delegatee) (maxValCnt indiLimitRatio upLimitRatio : Z) : StakeLimiter :=
  limiter_reset ds maxValCnt indiLimitRatio upLimitRatio.

Fixpoint findPowerObj_from (i : nat) (addr : bytes) (l : list powerObj) : option (nat * powerObj) :=
  match l with
  | [] => None
  | o :: r => if Compare (po_Addr o) addr =? 0 then Some (i, o) else findPowerObj_from (S i) addr r
  end.
Definition findPowerObj (addr : bytes) (sl : StakeLimiter) : option (nat * powerObj) :=
  findPowerObj_from 0 addr (sl_powerObjs sl).

Definition div_i64 {S} (a b : Z) : GoM S Z :=
  match i64_div a b with Some q => retM q | None => panicM end.

Definition checkIndividualPowerLimit (delg : Delegatee) (diffPower : Z) : GoM StakeLimiter unit :=
  if diffPower <=? 0 then retM tt
  else
    let! sl := getM in
    let! ratio := div_i64 (i64 (i64 (dg_TotalPower delg + diffPower) * 100)) (i64 (sl_baseTotalPower sl + diffPower)) in
    if sl_individualLimitRatio sl <? ratio then
      errM (NewOrdinary "StakeLimiter error: exceeding individual power limit")
    else retM tt.

Definition set_objs (l : list powerObj) (sl : StakeLimiter) : StakeLimiter :=
  mkLimiter (sl_individualLimitRatio sl) (sl_updatableLimitRatio sl) (sl_maxValidatorCnt sl) l (sl_baseTotalPower sl)
    (sl_updatedPower sl).
Definition set_updated (u : Z) (sl : StakeLimiter) : StakeLimiter :=
  mkLimiter (sl_individualLimitRatio sl) (sl_updatableLimitRatio sl) (sl_maxValidatorCnt sl) (sl_powerObjs sl)
    (sl_baseTotalPower sl) u.

(** [sl.powerObjs[i]]: an index out of range is a panic. *)
Definition index_objs (sl : StakeLimiter) (i : Z) : outcome powerObj :=
  if i <? 0 then Panic else match sl_powerObjs sl !! Z.to_nat i with Some o => Ret o | None => Panic end.

(** The updated power if the change of [delg] by [diffPower] is accepted. *)
Definition new_updated (sl : StakeLimiter) (ridx : Z) (power diffPower : Z) : outcome Z :=
  let len := Z.of_nat (length (sl_powerObjs sl)) in
  let max := sl_maxValidatorCnt sl in
  match
    (if (0 <=? ridx) && (ridx <? max) && (diffPower <? 0) then
       if max <? len then
         match index_objs sl max with
         | Ret candidate =>
             if i64 (power + diffPower) <? po_Power candidate then Ret (i64 (sl_updatedPower sl + power))
             else Ret (i64 (sl_updatedPower sl + i64 (-1 * diffPower)))
         | Err e => Err e
         | Panic => Panic
         end
       else Ret (i64 (sl_updatedPower sl + i64 (-1 * diffPower)))
     else Ret (sl_updatedPower sl))
  with
  | Ret updated =>
      if ((ridx <? 0) || (max <=? ridx)) && (0 <? diffPower) then
        if max <=? len then
          match index_objs sl (max - 1) with
          | Ret lastVal =>
              if po_Power lastVal <? i64 (power + diffPower) then Ret (i64 (updated + po_Power lastVal)) else Ret updated
          | Err e => Err e
          | Panic => Panic
          end
        else Ret updated
      else Ret updated
  | o => o
  end.

(** A delegatee that is not in the list is a new object that is not added. *)
Definition checkUpdatablePowerLimit (delg : Delegatee) (diffPower : Z) : GoM StakeLimiter unit :=
  let! sl := getM in
  let found := findPowerObj (dg_Addr delg) sl in
  let power := match found with Some (_, o) => po_Power o | None => dg_TotalPower delg end in
  let ridx := match found with Some (i, _) => Z.of_nat i | None => -1 end in
  if negb (power =? dg_TotalPower delg) then
    errM (NewOrdinary "StakeLimiter's power(%v) object is not equal to delegatee's power(%v). delegatee: %v")
  else
    let! updated := liftO (new_updated sl ridx power diffPower) in
    let! ratio := div_i64 (i64 (updated * 100)) (sl_baseTotalPower sl) in
    if sl_updatableLimitRatio sl <? ratio then
      errM (NewOrdinary "StakeLimiter error: Exceeding the updatable power limit.")
    else
      let power' := i64 (power + diffPower) in
      do! modifyM (fun sl => match found with
                             | Some (i, o) => set_objs (<[i := mkPowerObj (po_Addr o) power']> (sl_powerObjs sl)) sl
                             | None => sl
                             end) in
      if power' <? 0 then errM (NewOrdinary "StakeLimiter error: power(%v) of %v is negative")
      else
        do! modifyM (set_updated updated) in
        modifyM (fun sl => set_objs (sort_Sort powerObjLess (sl_powerObjs sl)) sl).

Definition CheckLimit (delg : Delegatee) (changePower : Z) : GoM StakeLimiter unit :=
  let! sl := getM in
  match sl_powerObjs sl with
  | [] => retM tt
  | _ =>
      do! checkIndividualPowerLimit delg changePower in
      checkUpdatablePowerLimit delg changePower
  end.

(** ** The order of the list *)
Lemma powerObjLess_asym a b : powerObjLess a b = true -> powerObjLess b a = false.
Proof.
  unfold powerObjLess. destruct (po_Power a =? po_Power b) eqn:E; destruct (po_Power b =? po_Power a) eqn:E'; cbn; try lia.
  apply bytes_ltb_asym.
Qed.

Lemma powerObjLess_negtrans a b c :
  not_less powerObjLess a b -> not_less powerObjLess b c -> not_less powerObjLess a c.
Proof.
  unfold not_less, powerObjLess. intros H1 H2.
  destruct (po_Power b =? po_Power a) eqn:E1; destruct (po_Power c =? po_Power b) eqn:E2;
    destruct (po_Power c =? po_Power a) eqn:E3; cbn in *; try lia.
  by eapply bytes_ltb_negtrans.
Qed.

Lemma powerObjLess_antisym a b :
  not_less powerObjLess a b -> not_less powerObjLess b a -> po_Power a = po_Power b /\ po_Addr a = po_Addr b.
Proof.
  unfold not_less, powerObjLess. intros H1 H2.
  destruct (po_Power b =? po_Power a) eqn:E1; destruct (po_Power a =? po_Power b) eqn:E2; cbn in *; try lia.
  split; [lia|]. by apply bytes_ltb_total.
Qed.

Lemma find_obj_spec addr l i :
  match findPowerObj_from i addr l with
  | None => forall o, o ∈ l -> po_Addr o <> addr
  | Some (j, o) => (i <= j)%nat /\ l !! (j - i)%nat = Some o /\ po_Addr o = addr
  end.
Proof.
  revert i. induction l as [|o l IH]; intros i; cbn [findPowerObj_from].
  { intros o Ho. by apply not_elem_of_nil in Ho. }
  destruct (Compare (po_Addr o) addr =? 0) eqn:E.
  - apply Z.eqb_eq, compare_eq in E. rewrite Nat.sub_diag. done.
  - assert (Hne : po_Addr o <> addr) by (intros He; rewrite He, (proj2 (compare_eq _ _) eq_refl) in E; done).
    specialize (IH (S i)). destruct (findPowerObj_from (S i) addr l) as [[j o']|].
    + destruct IH as (Hle & Hl & Ha). split_and!; [lia| |done]. by replace (j - i)%nat with (S (j - S i)) by lia.
    + intros o' [->|Ho]%elem_of_cons; [done|by apply IH].
Qed.

(** ** The invariant *)
Definition small (z : Z) : Prop := 0 <= z < 2 ^ 50.

Record limiter_inv (sl : StakeLimiter) : Prop := {
  lm_sorted : StronglySorted (not_less powerObjLess) (sl_powerObjs sl);
  lm_nodup : NoDup (map po_Addr (sl_powerObjs sl));
  lm_powers : forall o, o ∈ sl_powerObjs sl -> small (po_Power o);
  lm_base : 0 < sl_baseTotalPower sl < 2 ^ 50;
  lm_max : 0 < sl_maxValidatorCnt sl < 2 ^ 50;
  lm_limit : 0 <= sl_updatableLimitRatio sl <= 100;
  lm_updated : 0 <= sl_updatedPower sl /\ sl_updatedPower sl * 100 / sl_baseTotalPower sl <= sl_updatableLimitRatio sl;
}.

Lemma updated_bound sl : limiter_inv sl -> sl_updatedPower sl < 2 ^ 51.
Proof.
  intros Hi. destruct (lm_updated sl Hi) as [Hu Hr]. pose proof (lm_limit sl Hi). pose proof (lm_base sl Hi).
  assert (sl_updatedPower sl * 100 < sl_baseTotalPower sl * 101); [|lia].
  apply Z.nle_gt. intros Hle. assert (101 <= sl_updatedPower sl * 100 / sl_baseTotalPower sl) by (apply Z.div_le_lower_bound; lia).
  lia.
Qed.

Lemma index_objs_ok sl i :
  0 <= i < Z.of_nat (length (sl_powerObjs sl)) -> exists o, index_objs sl i = Ret o /\ o ∈ sl_powerObjs sl.
Proof.
  intros H. unfold index_objs. destruct (i <? 0) eqn:E; [lia|].
  destruct (lookup_lt_is_Some_2 (sl_powerObjs sl) (Z.to_nat i)) as [o Ho]; [lia|]. rewrite Ho.
  exists o. split; [done|]. by eapply list_elem_of_lookup_2.
Qed.

Lemma new_updated_ok sl ridx power diff :
  limiter_inv sl -> small power -> - 2 ^ 50 < diff < 2 ^ 50 ->
  exists u, new_updated sl ridx power diff = Ret u /\ sl_updatedPower sl <= u < 2 ^ 53.
Proof.
  intros Hi Hp Hd. pose proof (updated_bound sl Hi) as Hub. destruct (lm_updated sl Hi) as [Hu0 _].
  pose proof (lm_max sl Hi) as Hmax. unfold small in Hp. unfold new_updated.
  assert (Hobj : forall o, o ∈ sl_powerObjs sl -> 0 <= po_Power o < 2 ^ 50) by apply (lm_powers sl Hi).
  assert (H64 : forall z, - 2 ^ 60 <= z < 2 ^ 60 -> i64 z = z) by (intros; apply i64_id; unfold is_i64; lia).
  set (first := if (0 <=? ridx) && (ridx <? sl_maxValidatorCnt sl) && (diff <? 0) then _ else Ret (sl_updatedPower sl)).
  assert (Hfirst : exists u, first = Ret u /\ sl_updatedPower sl <= u < 2 ^ 52 /\
            ((ridx <? 0) || (sl_maxValidatorCnt sl <=? ridx) = true -> u = sl_updatedPower sl)).
  { unfold first. destruct ((0 <=? ridx) && (ridx <? sl_maxValidatorCnt sl) && (diff <? 0)) eqn:E1.
    - assert (Hno : (ridx <? 0) || (sl_maxValidatorCnt sl <=? ridx) = true -> False) by lia.
      destruct (sl_maxValidatorCnt sl <? Z.of_nat (length (sl_powerObjs sl))) eqn:E2.
      + destruct (index_objs_ok sl (sl_maxValidatorCnt sl)) as (c & Hc & Hin); [lia|]. rewrite Hc.
        destruct (i64 (power + diff) <? po_Power c); eexists; (split; [reflexivity|]);
          [|rewrite (H64 (-1 * diff)) by lia]; rewrite H64 by lia; (split; [lia|intros ?; by exfalso; apply Hno]).
      + eexists. split; [reflexivity|]. rewrite (H64 (-1 * diff)) by lia. rewrite H64 by lia.
        split; [lia|intros ?; by exfalso; apply Hno].
    - eexists. split; [reflexivity|]. split; [lia|done]. }
  destruct Hfirst as (u & -> & Hu & Hsame).
  destruct (((ridx <? 0) || (sl_maxValidatorCnt sl <=? ridx)) && (0 <? diff)) eqn:E3; [|exists u; split; [done|lia]].
  destruct (sl_maxValidatorCnt sl <=? Z.of_nat (length (sl_powerObjs sl))) eqn:E4; [|exists u; split; [done|lia]].
  destruct (index_objs_ok sl (sl_maxValidatorCnt sl - 1)) as (c & Hc & Hin); [lia|]. rewrite Hc.
  specialize (Hobj c Hin). destruct (po_Power c <? i64 (power + diff)); [|exists u; split; [done|lia]].
  eexists. split; [reflexivity|]. rewrite H64 by lia. lia.
Qed.

(** Adding the change to the entry of an address. *)
Definition bump (addr : bytes) (diff : Z) (l : list powerObj) : list powerObj :=
  map (fun o => if decide (po_Addr o = addr) then mkPowerObj (po_Addr o) (po_Power o + diff) else o) l.

Lemma insert_bump l i o diff :
  NoDup (map po_Addr l) -> l !! i = Some o -> <[i := mkPowerObj (po_Addr o) (po_Power o + diff)]> l = bump (po_Addr o) diff l.
Proof.
  revert i. induction l as [|x l IH]; intros i Hnd Hi; [done|].
  cbn [map] in Hnd. apply list.NoDup_cons in Hnd as [Hx Hnd]. unfold bump. cbn [map].
  destruct i as [|i]; cbn in Hi |- *.
  - injection Hi as ->. rewrite decide_True by done. f_equal.
    clear IH Hnd. induction l as [|y l IHl]; [done|]. cbn [map] in *.
    rewrite decide_False by (intros He; apply Hx; rewrite He; set_solver). f_equal. apply IHl. set_solver.
  - rewrite decide_False; [f_equal; by apply IH|].
    intros He. apply Hx. rewrite He. apply list_elem_of_fmap. exists o. split; [done|]. by eapply list_elem_of_lookup_2.
Qed.

Lemma bump_addrs addr diff l : map po_Addr (bump addr diff l) = map po_Addr l.
Proof. unfold bump. rewrite map_map. apply map_ext. intros o. by case_decide. Qed.

Lemma bump_absent addr diff l : (forall o, o ∈ l -> po_Addr o <> addr) -> bump addr diff l = l.
Proof.
  induction l as [|x l IH]; intros H; [done|]. unfold bump in *. cbn [map].
  rewrite decide_False by (apply H; set_solver). f_equal. apply IH. set_solver.
Qed.

Lemma elem_of_bump addr diff l o :
  o ∈ bump addr diff l -> exists o0, o0 ∈ l /\ (o = o0 \/ (po_Addr o0 = addr /\ po_Power o = po_Power o0 + diff)).
Proof.
  intros (o0 & -> & Ho)%list_elem_of_fmap. exists o0. split; [done|]. case_decide; auto.
Qed.

Lemma i64_small z : - 2 ^ 60 <= z < 2 ^ 60 -> i64 z = z.
Proof. intros. apply i64_id. unfold is_i64. lia. Qed.

Lemma div_i64_ok {S} a b (s : S) : 0 <= a < 2 ^ 60 -> 0 < b -> div_i64 a b s = (Ret (a / b), s).
Proof.
  intros Ha Hb. unfold div_i64, i64_div. destruct (b =? 0) eqn:E; [lia|]. rewrite Z.quot_div_nonneg by lia.
  assert (0 <= a / b <= a) by (split; [apply Z.div_pos; lia|apply Z.div_le_upper_bound; nia]).
  by rewrite i64_small by lia.
Qed.

Section CheckSteps.
Context (sl : StakeLimiter) (delg : Delegatee) (diff : Z).
Context (Hi : limiter_inv sl) (Hp : small (dg_TotalPower delg)) (Hd : - 2 ^ 50 < diff < 2 ^ 50)
        (Hp' : dg_TotalPower delg + diff < 2 ^ 50).

Lemma check_individual_cases :
  checkIndividualPowerLimit delg diff sl = (Ret tt, sl) \/
  exists e, checkIndividualPowerLimit delg diff sl = (Err e, sl).
Proof.
  unfold small in *. pose proof (lm_base sl Hi). unfold checkIndividualPowerLimit.
  destruct (diff <=? 0) eqn:E; [by left|]. set (tp := dg_TotalPower delg) in *. set (base := sl_baseTotalPower sl) in *.
  assert (Hr : div_i64 (i64 (i64 (tp + diff) * 100)) (i64 (base + diff)) sl = (Ret ((tp + diff) * 100 / (base + diff)), sl)).
  { rewrite (i64_small (tp + diff)) by lia. rewrite (i64_small ((tp + diff) * 100)), (i64_small (base + diff)) by lia.
    apply div_i64_ok; lia. }
  unfold bindM at 1 3, getM. fold base. rewrite (bindM_step _ _ _ _ _ Hr).
  destruct (sl_individualLimitRatio sl <? _); [right; by eexists|by left].
Qed.

(** The entry of the delegatee gets the change. *)
Lemma limiter_changed found :
  found = findPowerObj_from 0 (dg_Addr delg) (sl_powerObjs sl) ->
  match found with Some (_, o) => po_Power o | None => dg_TotalPower delg end = dg_TotalPower delg ->
  match found with
  | Some (i, o) => <[i := mkPowerObj (po_Addr o) (dg_TotalPower delg + diff)]> (sl_powerObjs sl)
  | None => sl_powerObjs sl end = bump (dg_Addr delg) diff (sl_powerObjs sl).
Proof.
  intros Hf Hpow. pose proof (find_obj_spec (dg_Addr delg) (sl_powerObjs sl) 0) as Hfind. rewrite <- Hf in Hfind. destruct found as [[i o]|].
  - destruct Hfind as (_ & Hl & Ha). rewrite Nat.sub_0_r in Hl. rewrite <- Hpow, <- Ha.
    by apply insert_bump; [apply (lm_nodup sl Hi)|].
  - symmetry. by apply bump_absent.
Qed.

(** If it is not negative, the list is sorted again. *)
Lemma limiter_accept found u : 0 <= dg_TotalPower delg + diff ->
  found = findPowerObj_from 0 (dg_Addr delg) (sl_powerObjs sl) ->
  match found with Some (_, o) => po_Power o | None => dg_TotalPower delg end = dg_TotalPower delg ->
  sl_updatedPower sl <= u -> u * 100 / sl_baseTotalPower sl <= sl_updatableLimitRatio sl ->
  let objs := match found with
              | Some (i, o) => <[i := mkPowerObj (po_Addr o) (dg_TotalPower delg + diff)]> (sl_powerObjs sl)
              | None => sl_powerObjs sl end in
  let sl' := set_objs (sort_Sort powerObjLess objs) (set_updated u sl) in
  limiter_inv sl' /\ sl_powerObjs sl' ≡ₚ bump (dg_Addr delg) diff (sl_powerObjs sl).
Proof.
  intros Hpos Hf Hpow Hu Hlim objs sl'. pose proof (find_obj_spec (dg_Addr delg) (sl_powerObjs sl) 0) as Hfind.
  assert (Hobjs : objs = bump (dg_Addr delg) diff (sl_powerObjs sl)) by exact (limiter_changed found Hf Hpow).
  assert (Hperm : sort_Sort powerObjLess objs ≡ₚ bump (dg_Addr delg) diff (sl_powerObjs sl))
    by (rewrite sort_perm, Hobjs; done).
  destruct (lm_updated sl Hi) as [Hu0 _]. split; [|exact Hperm].
  constructor; cbn; try apply Hi.
  - apply sort_sorted; [apply powerObjLess_asym|apply powerObjLess_negtrans].
  - rewrite Hperm, bump_addrs. apply (lm_nodup sl Hi).
  - intros o. rewrite Hperm. intros (o0 & Ho0 & [->|[Ha Hpw]])%elem_of_bump; [by apply (lm_powers sl Hi)|].
    rewrite Hpw. replace (po_Power o0) with (dg_TotalPower delg); [unfold small; lia|].
    rewrite <- Hpow, Hf. destruct (findPowerObj_from 0 (dg_Addr delg) (sl_powerObjs sl)) as [[i o1]|].
    + destruct Hfind as (_ & Hl & Ha1). rewrite Nat.sub_0_r in Hl. apply list_elem_of_lookup in Ho0 as [j Hj].
      assert (i = j); [|congruence]. apply (NoDup_lookup (map po_Addr (sl_powerObjs sl)) i j (dg_Addr delg) (lm_nodup sl Hi));
        rewrite list_lookup_fmap, ?Hl, ?Hj; cbn; congruence.
    + by apply Hfind in Ho0.
  - split; [lia|done].
Qed.

Lemma check_updatable_spec :
  match checkUpdatablePowerLimit delg diff sl with
  | (Ret _, sl') => limiter_inv sl' /\ sl_powerObjs sl' ≡ₚ bump (dg_Addr delg) diff (sl_powerObjs sl) /\ 0 <= dg_TotalPower delg + diff /\
                    sl_updatedPower sl <= sl_updatedPower sl' /\ sl_baseTotalPower sl' = sl_baseTotalPower sl
  | (Err _, sl') => sl' = sl \/ dg_TotalPower delg + diff < 0 /\ sl' = set_objs (bump (dg_Addr delg) diff (sl_powerObjs sl)) sl
  | (Panic, _) => False
  end.
Proof.
  pose proof (lm_base sl Hi) as Hbase. destruct (lm_updated sl Hi) as [Hu0 _].
  unfold checkUpdatablePowerLimit, bindM at 1, getM at 1, findPowerObj.
  set (found := findPowerObj_from 0 (dg_Addr delg) (sl_powerObjs sl)).
  set (power := match found with Some (_, o) => po_Power o | None => dg_TotalPower delg end).
  destruct (power =? dg_TotalPower delg) eqn:Epow; cbn [negb]; [|by left]. apply Z.eqb_eq in Epow. rewrite Epow.
  destruct (new_updated_ok sl (match found with Some (i, _) => Z.of_nat i | None => -1 end) (dg_TotalPower delg) diff Hi Hp Hd)
    as (u & Hu & Hub).
  unfold bindM at 1, liftO. rewrite Hu. unfold bindM at 1. rewrite i64_small, div_i64_ok by lia.
  destruct (sl_updatableLimitRatio sl <? u * 100 / sl_baseTotalPower sl) eqn:Elim; [by left|].
  unfold small in *. rewrite (i64_small (dg_TotalPower delg + diff)) by lia.
  destruct (dg_TotalPower delg + diff <? 0) eqn:Eneg.
  - right. split; [lia|]. rewrite <- (limiter_changed found eq_refl Epow). clearbody power. unfold found. by destruct (findPowerObj_from _ _ _) as [[i o]|]; [|destruct sl].
  - destruct (limiter_accept found u ltac:(lia) eq_refl Epow ltac:(lia) ltac:(lia)) as [H1 H2].
    unfold bindM, modifyM. destruct found as [[i o]|]; split_and!; (exact H1 || exact H2 || done || (cbn; lia)).
Qed.
End CheckSteps.

(** C36: the limiter keeps its promises.  For a list sorted by power with distinct
    addresses, a positive base, at least one validator, an updatable ratio of at
    most 100 and powers below 2^50, [CheckLimit] does not panic.  An accepted
    change leaves the list sorted, adds exactly the change to the entry of the
    delegatee and keeps the share of changed power within [updatableLimitRatio].
    A refused change leaves the limiter as it was, except a change that takes more
    than the delegatee has: it can be refused only after it has been added to the
    entry, which stays negative and the list unsorted. *)
Theorem check_limit_spec (sl : StakeLimiter) (delg : Delegatee) (diff : Z) :
  limiter_inv sl -> small (dg_TotalPower delg) -> - 2 ^ 50 < diff < 2 ^ 50 -> dg_TotalPower delg + diff < 2 ^ 50 ->
  match CheckLimit delg diff sl with
  | (Ret _, sl') => limiter_inv sl' /\ sl_powerObjs sl' ≡ₚ bump (dg_Addr delg) diff (sl_powerObjs sl) /\
                    (sl_powerObjs sl <> [] -> 0 <= dg_TotalPower delg + diff) /\
                    sl_updatedPower sl <= sl_updatedPower sl' /\ sl_baseTotalPower sl' = sl_baseTotalPower sl
  | (Err _, sl') => sl' = sl \/ dg_TotalPower delg + diff < 0 /\ sl' = set_objs (bump (dg_Addr delg) diff (sl_powerObjs sl)) sl
  | (Panic, _) => False
  end.
Proof.
  intros Hi Hp Hd Hp'. pose proof (check_updatable_spec sl delg diff Hi Hp Hd Hp') as Hup.
  unfold CheckLimit, bindM at 1, getM at 1. destruct (sl_powerObjs sl) as [|o0 r0] eqn:Eobj; [cbn; by rewrite Eobj|].
  destruct (check_individual_cases sl delg diff Hi Hp Hd Hp') as [H1|[e H1]]; unfold bindM; rewrite H1; [|by left].
  destruct (checkUpdatablePowerLimit delg diff sl) as [[]]; [|exact Hup|exact Hup]. by destruct Hup as (? & ? & ? & ?).
Qed.

Definition lim0 : StakeLimiter :=
  limiter_reset [mkDelegatee (replicate 20 Byte.x02) [] 60 60 0 [] []; mkDelegatee (replicate 20 Byte.x01) [] 40 40 0 [] []] 2 70 33.

Lemma lim0_inv : limiter_inv lim0.
Proof.
  assert (Hobjs : sl_powerObjs lim0 = [mkPowerObj (replicate 20 Byte.x02) 60; mkPowerObj (replicate 20 Byte.x01) 40]) by reflexivity.
  assert (Hbase : sl_baseTotalPower lim0 = 100) by reflexivity.
  constructor; rewrite ?Hobjs, ?Hbase.
  - repeat constructor.
  - apply list.NoDup_cons. split; [|apply NoDup_singleton]. rewrite list_elem_of_singleton. discriminate.
  - intros o Ho. repeat (apply elem_of_cons in Ho as [->|Ho]; [cbn; unfold small; lia|]). by apply not_elem_of_nil in Ho.
  - lia.
  - change (sl_maxValidatorCnt lim0) with 2. lia.
  - change (sl_updatableLimitRatio lim0) with 33. lia.
  - change (sl_updatedPower lim0) with 0. change (sl_updatableLimitRatio lim0) with 33. split; [lia|]. by vm_compute.
Qed.

Lemma check_limit_spec_witness :
  let delg := mkDelegatee (replicate 20 Byte.x01) [] 40 40 0 [] [] in
  exists sl', CheckLimit delg (-10) lim0 = (Ret tt, sl') /\ sl_powerObjs sl' ≡ₚ bump (dg_Addr delg) (-10) (sl_powerObjs lim0).
Proof.
  intros delg. pose proof (check_limit_spec lim0 delg (-10) lim0_inv) as H.
  destruct (CheckLimit delg (-10) lim0) as [[[]|e|] sl'] eqn:E; [|vm_compute in E; discriminate|vm_compute in E; discriminate].
  exists sl'. split; [reflexivity|]. apply H; [cbn; unfold small; lia|lia|cbn; lia].
Defined.

(** The refusal that comes too late. *)
Lemma negative_refused_late : exists e sl',
  CheckLimit (mkDelegatee (replicate 20 Byte.x01) [] 40 40 0 [] []) (-41) (mkLimiter 70 100 2 (sl_powerObjs lim0) 100 0) = (Err e, sl') /\ map po_Power (sl_powerObjs sl') = [60; -1].
Proof. eexists _, _. split; vm_compute; reflexivity. Qed.
