(* ===== verification/StakeCtrler.v ===== *)
(** * The stake controller: [ctrlers/stake/ctrler.go], [query.go]

    The controller owns three ledgers (delegatees, frozen stakes, rewards), the
    list of candidates of the block, the last validator set and the limiter.
    It calls the account controller through [IAccountHandler]: its operations
    run on the pair of its own state and the state of that handler. *)

From Stdlib Require Import Strings.Byte.
From S2P Require Import Prelude Xerrors GoSem Bytes Ledger LedgerSpec Concrete GovParams Account Trx Context Stake StakeLimiter.

(** ** Pure parts: the validator set *)

(** [selectValidators]: the first [maxVals] candidates; a negative bound of the
    slice expression is a panic. *)
Definition selectValidators (delegatees : list Delegatee) (maxVals : Z) : outcome (list Delegatee) :=
  let n := MIN (Z.of_nat (length delegatees)) maxVals in
  if n <? 0 then Panic else Ret (take (Z.to_nat n) delegatees).

(** [validatorUpdates]: the merge of the two address-ordered lists, by fuel on
    the sum of their lengths. *)
Fixpoint updates_loop (fuel : nat) (existing newers : list Delegatee) : list ValidatorUpdate :=
  match fuel with
  | O => []
  | S f =>
      match existing, newers with
      | [], [] => []
      | e :: es, [] => mkValidatorUpdate (dg_PubKey e) 0 :: updates_loop f es []
      | [], n :: ns => mkValidatorUpdate (dg_PubKey n) (dg_TotalPower n) :: updates_loop f [] ns
      | e :: es, n :: ns =>
          let ret := Compare (dg_Addr e) (dg_Addr n) in
          if ret <? 0 then mkValidatorUpdate (dg_PubKey e) 0 :: updates_loop f es newers
          else if ret =? 0 then
            if negb (dg_TotalPower e =? dg_TotalPower n)
            then mkValidatorUpdate (dg_PubKey n) (dg_TotalPower n) :: updates_loop f es ns
            else updates_loop f es ns
          else mkValidatorUpdate (dg_PubKey n) (dg_TotalPower n) :: updates_loop f existing ns
      end
  end.
Definition validatorUpdates (existing newers : list Delegatee) : list ValidatorUpdate :=
  updates_loop (length existing + length newers) existing newers.

(** [AmountToPower(govParams.MinValidatorStake())]; a nil stake panics. *)
Definition min_validator_power (g : GovParams) : outcome Z :=
  match minValidatorStake g with Some amt => AmountToPower amt | None => Panic end.

(** Events reported to the consensus engine. *)
Inductive StakeEvent : Type :=
  | EvPunishment (byzantine : list Byte.byte) (type height slashed : Z)
  | EvReward (issued : Z).

Record InitStake : Type := mkInitStake { is_PubKeys : list Byte.byte; is_Stakes : list Stake }.

(** Results of [Query], before they are rendered. *)
Inductive StakeQuery : Type :=
  | QReward (r : Reward_)
  | QStakes (l : list Stake)
  | QDelegatee (d : Delegatee)
  | QPower (p : Z).

Section StakeCtrler.
Context {Tr A : Type} {Tree : Iavl Tr} {Acct : IAccountHandler A}.
Context {CS : Codec Stake} {CD : Codec Delegatee} {CR : Codec RewardProto}.

Record StakeCtrler : Type := mkStakeCtrler {
  sc_allDelegatees : list Delegatee;
  sc_lastValidators : list Delegatee;
  sc_delegateeLedger : FinalityLedger Delegatee Tr;
  sc_frozenLedger : FinalityLedger Stake Tr;
  sc_rewardLedger : FinalityLedger Reward_ Tr;
  sc_rwdLedgUpInterval : Z;
  sc_lastRwdHash : list Byte.byte;
  sc_rwdHashDB : list Byte.byte;
  sc_stakeLimiter : StakeLimiter;
}.

Definition set_all (l : list Delegatee) (c : StakeCtrler) : StakeCtrler :=
  mkStakeCtrler l (sc_lastValidators c) (sc_delegateeLedger c) (sc_frozenLedger c) (sc_rewardLedger c)
    (sc_rwdLedgUpInterval c) (sc_lastRwdHash c) (sc_rwdHashDB c) (sc_stakeLimiter c).
Definition set_last (l : list Delegatee) (c : StakeCtrler) : StakeCtrler :=
  mkStakeCtrler (sc_allDelegatees c) l (sc_delegateeLedger c) (sc_frozenLedger c) (sc_rewardLedger c)
    (sc_rwdLedgUpInterval c) (sc_lastRwdHash c) (sc_rwdHashDB c) (sc_stakeLimiter c).
Definition set_rwdhash (h : bytes) (c : StakeCtrler) : StakeCtrler :=
  mkStakeCtrler (sc_allDelegatees c) (sc_lastValidators c) (sc_delegateeLedger c) (sc_frozenLedger c) (sc_rewardLedger c)
    (sc_rwdLedgUpInterval c) h h (sc_stakeLimiter c).

(** Lenses to the fields, seen from the pair with the account handler. *)
Abbreviation W := (StakeCtrler * A)%type.
Definition l_delegatees : lens StakeCtrler (FinalityLedger Delegatee Tr) :=
  Lens sc_delegateeLedger (fun l c => mkStakeCtrler (sc_allDelegatees c) (sc_lastValidators c) l (sc_frozenLedger c)
    (sc_rewardLedger c) (sc_rwdLedgUpInterval c) (sc_lastRwdHash c) (sc_rwdHashDB c) (sc_stakeLimiter c)).
Definition l_frozen : lens StakeCtrler (FinalityLedger Stake Tr) :=
  Lens sc_frozenLedger (fun l c => mkStakeCtrler (sc_allDelegatees c) (sc_lastValidators c) (sc_delegateeLedger c) l
    (sc_rewardLedger c) (sc_rwdLedgUpInterval c) (sc_lastRwdHash c) (sc_rwdHashDB c) (sc_stakeLimiter c)).
Definition l_rewards : lens StakeCtrler (FinalityLedger Reward_ Tr) :=
  Lens sc_rewardLedger (fun l c => mkStakeCtrler (sc_allDelegatees c) (sc_lastValidators c) (sc_delegateeLedger c)
    (sc_frozenLedger c) l (sc_rwdLedgUpInterval c) (sc_lastRwdHash c) (sc_rwdHashDB c) (sc_stakeLimiter c)).
Definition l_limiter : lens StakeCtrler StakeLimiter :=
  Lens sc_stakeLimiter (fun l c => mkStakeCtrler (sc_allDelegatees c) (sc_lastValidators c) (sc_delegateeLedger c)
    (sc_frozenLedger c) (sc_rewardLedger c) (sc_rwdLedgUpInterval c) (sc_lastRwdHash c) (sc_rwdHashDB c) l).

Definition on_delegatees {B} (m : GoM (FinalityLedger Delegatee Tr) B) : GoM W B := zoom (lens_comp lens_fst l_delegatees) m.
Definition on_frozen {B} (m : GoM (FinalityLedger Stake Tr) B) : GoM W B := zoom (lens_comp lens_fst l_frozen) m.
Definition on_rewards {B} (m : GoM (FinalityLedger Reward_ Tr) B) : GoM W B := zoom (lens_comp lens_fst l_rewards) m.
Definition on_limiter {B} (m : GoM StakeLimiter B) : GoM W B := zoom (lens_comp lens_fst l_limiter) m.
Definition on_accounts {B} (m : GoM A B) : GoM W B := zoom lens_snd m.
Definition modify_ctrler (f : StakeCtrler -> StakeCtrler) : GoM W unit := modifyM (fun w => (f w.1, w.2)).

(** A mutation through the pointer of a delegatee, with a result. *)
Definition delegatee_method {B} (p : loc) (f : Delegatee -> B * Delegatee) : GoM W B :=
  on_delegatees (let! d := load p in let '(b, d') := f d in do! store p d' in retM b).

(** The object that gives up a stake hands it to the frozen ledger. *)
Definition freeze (sd : side) (h : Z) (s : Stake) : GoM W unit :=
  on_frozen (let! q := alloc (set_RefundHeight h s) in ignoreM (set_on sd q)).

(** ** Genesis *)
Definition StakeCtrler_InitLedger (req : option (list InitStake)) : GoM W unit :=
  match req with
  | None => errM (Wrapf ErrInitChain "wrong parameter: StakeCtrler::InitLedger() requires []*InitStake")
  | Some initStakes =>
      forM_ initStakes (fun initS0 =>
        forM_ (is_Stakes initS0) (fun s0 =>
          on_delegatees (let! p := alloc (AddStake [s0] (NewDelegatee (st_To s0) (is_PubKeys initS0))) in
                         set_on Deliver p)))
  end.

(** ** [BeginBlock] *)

(** Candidates: the committed delegatees with enough power of their own. *)
Definition collect_delegatees (g : GovParams) : GoM W unit :=
  do! modify_ctrler (set_all []) in
  do! ignoreM (IterateReadAllItems (lens_comp lens_fst l_delegatees) (fun d =>
        let! minPower := liftO (min_validator_power g) in
        if minPower <=? dg_SelfPower d then modify_ctrler (fun c => set_all (sc_allDelegatees c ++ [d]) c)
        else retM tt)) in
  modify_ctrler (fun c => set_all (sort_Sort PowerOrderLess (sc_allDelegatees c)) c).

Definition doPunish (evi : Evidence) (slashRatio : Z) : GoM W Z :=
  let! p := on_delegatees (get_on Deliver (ToLedgerKey (ev_Address evi))) in
  let! slashed := delegatee_method p (DoSlash slashRatio) in
  do! ignoreM (on_delegatees (set_on Deliver p)) in
  retM slashed.

(** [doRewardTo]: every stake of the delegatee earns for its owner. *)
Definition reward_stake (g : GovParams) (height : Z) (issued : Z) (s0 : Stake) : GoM W Z :=
  let! r := tryM (on_rewards (get_opt Deliver (ToLedgerKey (st_From s0)))) in
  match r with
  | inl _ => retM issued
  | inr o =>
      let! q := match o with Some q => retM q | None => on_rewards (alloc (NewReward (st_From s0))) end in
      let! perPower := liftO (RewardPerPower g) in
      let rwd := u256 (u64 (st_Power s0) * perPower) in
      do! on_rewards (let! obj := load q in let! obj' := liftO (Issue rwd height obj) in store q obj') in
      let! r2 := tryM (on_rewards (set_on Deliver q)) in
      match r2 with
      | inl _ => retM issued
      | inr _ => retM (u256 (issued + rwd))
      end
  end.
Definition doRewardTo (g : GovParams) (d : Delegatee) (height : Z) : GoM W Z :=
  foldM (reward_stake g height) (dg_Stakes d) 0.

(** A validator that signed: the reward follows the committed delegatee of
    four blocks ago, held by the ledger [immu]. *)
Definition reward_vote (g : GovParams) (height : Z) (acc : Z * FinalityLedger Delegatee Tr) (vote : VoteInfo)
  : GoM W (Z * FinalityLedger Delegatee Tr) :=
  let '(issued, immu) := acc in
  match (let! p := get_on Check (ToLedgerKey (vi_Address vote)) in load p) immu with
  | (Panic, _) => panicM
  | (Err _, immu') => retM (issued, immu')
  | (Ret d, immu') =>
      if negb (dg_TotalPower d =? vi_Power vote) then retM (issued, immu')
      else
        let! i := doRewardTo g d height in
        retM (u256 (issued + i), immu')
  end.

(** A validator that did not sign: its record, and the forced unstaking. *)
Definition miss_vote (g : GovParams) (height : Z) (vote : VoteInfo) : GoM W unit :=
  let signedHeight := i64 (height - 1) in
  let! r := tryM (on_delegatees (get_on Deliver (ToLedgerKey (vi_Address vote)))) in
  match r with
  | inl _ => retM tt
  | inr p =>
      do! delegatee_method p (fun d => (tt, match ProcessNotSignedBlock signedHeight d with inr d' => d' | inl _ => d end)) in
      do! ignoreM (on_delegatees (set_on Deliver p)) in
      let s := let s := i64 (signedHeight - signedBlocksWindow g) in if s <? 0 then 0 else s in
      let! notSigned := delegatee_method p (GetNotSignedBlockCount s signedHeight) in
      if i64 (signedBlocksWindow g - notSigned) <? minSignedBlocks g then
        let! stakes := delegatee_method p DelAllStakes in
        do! forM_ stakes (freeze Deliver (i64 (height + lazyRewardBlocks g))) in
        let! d := on_delegatees (load p) in
        ignoreM (on_delegatees (DelFinality (Delegatee_Key d)))
      else retM tt
  end.

Definition process_vote (g : GovParams) (height : Z) (acc : Z * FinalityLedger Delegatee Tr) (vote : VoteInfo)
  : GoM W (Z * FinalityLedger Delegatee Tr) :=
  if vi_SignedLastBlock vote then reward_vote g height acc vote
  else do! miss_vote g height vote in retM acc.

(** Errors of a punishment are logged and skipped. *)
Definition punish_all (g : GovParams) (evis : list Evidence) : GoM W (list StakeEvent) :=
  foldM (fun evts evi =>
      let! r := tryM (doPunish evi (slashRatio g)) in
      match r with
      | inl _ => retM evts
      | inr slashed => retM (evts ++ [EvPunishment (ev_Address evi) (ev_Type evi) (ev_Height evi) slashed])
      end) evis [].

Definition StakeCtrler_BeginBlock (g : GovParams) (bctx : BlockContext) : GoM W (list StakeEvent) :=
  let bi := bc_blockInfo bctx in
  do! collect_delegatees g in
  do! modifyM (fun w => (lset l_limiter
        (limiter_reset (sc_allDelegatees w.1) (maxValidatorCnt g) (maxIndividualStakeRatio g) (maxUpdatableStakeRatio g)) w.1, w.2)) in
  let! evts := punish_all g (bi_ByzantineValidators bi) in
  match bi_Votes bi with
  | [] => retM []
  | votes =>
      let heightOfPower := let h := i64 (bc_Height bctx - 4) in if h <? 0 then 1 else h in
      let! immu := on_delegatees (ImmutableLedgerAt heightOfPower) in
      let! acc := foldM (process_vote g (bc_Height bctx)) votes (0, immu) in
      retM (evts ++ [EvReward acc.1])
  end.

(** [DoReward] (used by tests and tools): the same for the votes alone; here a
    wrong power is a panic. *)
Definition DoReward (g : GovParams) (height : Z) (votes : list VoteInfo) : GoM W (option Z) :=
  match votes with
  | [] => retM None
  | _ =>
      let heightForReward := let h := i64 (height - 4) in if h <=? 0 then 1 else h in
      let! immu := on_delegatees (ImmutableLedgerAt heightForReward) in
      let! acc := foldM (fun acc vote =>
          if vi_SignedLastBlock vote then
            match (let! p := get_on Check (ToLedgerKey (vi_Address vote)) in load p) (snd acc) with
            | (Panic, _) => panicM
            | (Err _, immu') => retM (fst acc, immu')
            | (Ret d, immu') =>
                if negb (dg_TotalPower d =? vi_Power vote) then panicM
                else let! i := doRewardTo g d height in retM (u256 (fst acc + i), immu')
            end
          else retM acc) votes (0, immu) in
      retM (Some acc.1)
  end.

(** ** [ValidateTrx] *)
(** The limiter is consulted when there are at least three validators. *)
Definition check_ratio (delg : Delegatee) (change : Z) : GoM W unit :=
  let! n := getsM (fun w : W => Z.of_nat (length (sc_lastValidators w.1))) in
  if 3 <=? n then
    let! r := tryM (on_limiter (CheckLimit delg change)) in
    match r with
    | inl e => errM (Wrap ErrUpdatableStakeRatio (xcause e))
    | inr _ => retM tt
    end
  else retM tt.

(** Self staking: the total power of the delegatee, if its own power suffices. *)
Definition validate_self (g : GovParams) (txPower : Z) (delegatee : option Delegatee) : outcome Z :=
  let selfPower := match delegatee with Some d => i64 (txPower + dg_SelfPower d) | None => txPower end in
  let totalPower := match delegatee with Some d => dg_TotalPower d | None => 0 end in
  match min_validator_power g with
  | Ret minPower =>
      if selfPower <? minPower then Err (Wrapf ErrInvalidTrx "too small stake to become validator: a minimum is %v")
      else Ret totalPower
  | Err e => Err e
  | Panic => Panic
  end.

(** Delegating: the delegatee must exist and keep enough stake of its own. *)
Definition validate_delegating (g : GovParams) (txPower : Z) (delegatee : option Delegatee) : outcome Z :=
  match delegatee with
  | None => Err (Wrapf ErrNotFoundDelegatee "address(%v)")
  | Some d =>
      match AmountToPower (MinDelegatorStake g) with
      | Ret minDelegatorPower =>
          if (0 <? minDelegatorPower) && (txPower <? minDelegatorPower) then
            Err (Wrapf ErrInvalidTrx "too small stake to become delegator: a minimum is %v")
          else
            match SelfStakeRatio txPower d with
            | Ret selfRatio =>
                if selfRatio <? minSelfStakeRatio g then
                  Err (NewOrdinary "not enough self power - validator: %v, self power: %v, total power: %v")
                else Ret (dg_TotalPower d)
            | Err e => Err e
            | Panic => Panic
            end
      | Err e => Err e
      | Panic => Panic
      end
  end.

Definition validate_staking (g : GovParams) (ctx : TrxContext) : GoM W unit :=
  let tx := cx_Tx ctx in
  let q := tx_Amount tx / amountPerPower in
  let r := tx_Amount tx mod amountPerPower in
  if u256_Sign q <=? 0 then errM (Wrapf ErrInvalidTrx "wrong amount: it should be greater than %v")
  else if negb (u256_Sign r =? 0) then errM (Wrapf ErrInvalidTrx "wrong amount: it should be multiple of %v")
  else
    let! txPower := liftO (AmountToPower (tx_Amount tx)) in
    let! delegatee := on_delegatees (let! o := get_opt (side_of (cx_Exec ctx)) (ToLedgerKey (tx_To tx)) in load_opt o) in
    let! totalPower := liftO (if Compare (tx_From tx) (tx_To tx) =? 0 then validate_self g txPower delegatee
                              else validate_delegating g txPower delegatee) in
    if i64 (totalPower + txPower) <=? 0 then panicM
    else check_ratio (default (mkDelegatee (tx_To tx) [] 0 0 0 [] []) delegatee) txPower.

(** [ctx.Tx.Payload.(TrxPayloadUnstaking).TxHash] *)
Definition unstaking_payload (tx : Trx) : outcome bytes :=
  match tx_Payload tx with Some (PayloadUnstaking h) => Ret h | _ => Panic end.

(** The stake to release, if the sender owns it. *)
Definition owned_stake (tx : Trx) (txhash : bytes) (d : Delegatee) : outcome Stake :=
  if negb (length txhash =? 32)%nat then Err ErrInvalidTrxPayloadParams
  else match FindStake txhash d with
       | None => Err ErrNotFoundStake
       | Some (_, s0) =>
           if negb (Compare (tx_From tx) (st_From s0) =? 0) then Err (Wrapf ErrNotFoundStake "you not stake owner")
           else Ret s0
       end.

Definition validate_unstaking (ctx : TrxContext) : GoM W unit :=
  let tx := cx_Tx ctx in
  let! d := on_delegatees (let! p := get_on (side_of (cx_Exec ctx)) (ToLedgerKey (tx_To tx)) in load p) in
  let! txhash := liftO (unstaking_payload tx) in
  let! s0 := liftO (owned_stake tx txhash d) in
  check_ratio d (i64 (-1 * st_Power s0)).

Definition validate_withdraw (ctx : TrxContext) : GoM W unit :=
  let tx := cx_Tx ctx in
  if negb (u256_Sign (tx_Amount tx) =? 0) then errM (Wrapf ErrInvalidTrx "amount must be 0")
  else match tx_Payload tx with
       | Some (PayloadWithdraw reqAmt) =>
           let! rwd := on_rewards (let! p := get_on (side_of (cx_Exec ctx)) (ToLedgerKey (tx_From tx)) in load p) in
           if rw_cumulated rwd <? reqAmt then errM (Wrapf ErrInvalidTrx "insufficient reward") else retM tt
       | _ => errM ErrInvalidTrxPayloadType
       end.

Definition StakeCtrler_ValidateTrx (g : GovParams) (ctx : TrxContext) : GoM W unit :=
  let ty := tx_Type (cx_Tx ctx) in
  if ty =? TRX_STAKING then validate_staking g ctx
  else if ty =? TRX_UNSTAKING then validate_unstaking ctx
  else if ty =? TRX_WITHDRAW then validate_withdraw ctx
  else errM ErrUnknownTrxType.

(** ** [ExecuteTrx] *)
Definition exeStaking (ctx : TrxContext) : GoM W unit :=
  let tx := cx_Tx ctx in
  let sd := side_of (cx_Exec ctx) in
  let! o := on_delegatees (get_opt sd (ToLedgerKey (tx_To tx))) in
  let! p := match o with
            | Some p => retM p
            | None => if Compare (tx_From tx) (tx_To tx) =? 0
                      then on_delegatees (alloc (NewDelegatee (tx_From tx) (cx_SenderPubKey ctx)))
                      else errM (Wrapf ErrNotFoundDelegatee "address(%v)")
            end in
  do! on_accounts (on_account (cx_Sender ctx) (SubBalance (tx_Amount tx))) in
  do! ignoreM (on_accounts (SetAccountCommittable (cx_Sender ctx) (cx_Exec ctx))) in
  let! power := liftO (AmountToPower (tx_Amount tx)) in
  let s0 := NewStakeWithPower (tx_From tx) (tx_To tx) power (i64 (cx_Height ctx + 1)) (cx_TxHash ctx) in
  do! delegatee_method p (fun d => (tt, AddStake [s0] d)) in
  on_delegatees (set_on sd p).

Definition exeUnstaking (g : GovParams) (ctx : TrxContext) : GoM W unit :=
  let tx := cx_Tx ctx in
  let sd := side_of (cx_Exec ctx) in
  let refund := i64 (cx_Height ctx + lazyRewardBlocks g) in
  let! p := on_delegatees (get_on sd (ToLedgerKey (tx_To tx))) in
  let! txhash := liftO (unstaking_payload tx) in
  let! d := on_delegatees (load p) in
  let! s0 := liftO (owned_stake tx txhash d) in
  do! ignoreM (delegatee_method p (DelStake txhash)) in
  do! freeze sd refund s0 in
  let! d := on_delegatees (load p) in
  do! (if dg_SelfPower d =? 0 then
         let! stakes := delegatee_method p DelAllStakes in
         forM_ stakes (freeze sd refund)
       else retM tt) in
  let! d := on_delegatees (load p) in
  if dg_TotalPower d =? 0 then do! on_delegatees (del_for (cx_Exec ctx) (Delegatee_Key d)) in retM tt
  else on_delegatees (set_on sd p).

Definition exeWithdraw (ctx : TrxContext) : GoM W unit :=
  let tx := cx_Tx ctx in
  let sd := side_of (cx_Exec ctx) in
  match tx_Payload tx with
  | Some (PayloadWithdraw reqAmt) =>
      let! p := on_rewards (get_on sd (ToLedgerKey (tx_From tx))) in
      do! on_rewards (let! rwd := load p in let! rwd' := liftO (Withdraw reqAmt (cx_Height ctx) rwd) in store p rwd') in
      do! on_rewards (set_on sd p) in
      let! sender := on_accounts (load_account (cx_Sender ctx)) in
      let! r := tryM (on_accounts (Reward (Address sender) reqAmt (cx_Exec ctx))) in
      match r with
      | inr _ => retM tt
      | inl e =>
          let! rwd := on_rewards (load p) in
          do! on_rewards (cancel_set_on sd (Reward_Key rwd)) in
          errM e
      end
  | _ => errM ErrInvalidTrxPayloadType
  end.

Definition StakeCtrler_ExecuteTrx (g : GovParams) (ctx : TrxContext) : GoM W unit :=
  let ty := tx_Type (cx_Tx ctx) in
  if ty =? TRX_STAKING then exeStaking ctx
  else if ty =? TRX_UNSTAKING then exeUnstaking g ctx
  else if ty =? TRX_WITHDRAW then exeWithdraw ctx
  else errM ErrUnknownTrxType.

(** ** [EndBlock] *)
Definition unfreezingStakes (height : Z) : GoM W unit :=
  IterateReadAllItems (lens_comp lens_fst l_frozen) (fun s0 =>
    if st_RefundHeight s0 <=? height then
      do! on_accounts (Reward (st_From s0) (PowerToAmount (st_Power s0)) true) in
      ignoreM (on_frozen (DelFinality (ToLedgerKey (st_TxHash s0))))
    else retM tt).

(** [selectValidators] returns a prefix of the array of candidates, which the
    two sorts reorder in place. *)
Definition updateValidators (maxVals : Z) : GoM W (list ValidatorUpdate) :=
  let! c := getsM fst in
  let! newValidators := liftO (selectValidators (sc_allDelegatees c) maxVals) in
  let byAddr := sort_Sort AddressOrderLess newValidators in
  let upVals := validatorUpdates (sort_Sort AddressOrderLess (sc_lastValidators c)) byAddr in
  let byPower := sort_Sort PowerOrderLess byAddr in
  do! modify_ctrler (fun c => set_all (byPower ++ drop (length newValidators) (sc_allDelegatees c)) c) in
  do! modify_ctrler (set_last byPower) in
  retM upVals.

Definition StakeCtrler_EndBlock (g : GovParams) (bctx : BlockContext) : GoM W (list ValidatorUpdate) :=
  do! unfreezingStakes (bc_Height bctx) in
  updateValidators (maxValidatorCnt g).

(** ** [Commit] *)
Context (DefaultHash : list (list Byte.byte) -> list Byte.byte).

Definition StakeCtrler_Commit : GoM W (bytes * Z) :=
  let! hv0 := on_delegatees Commit in
  let! hv1 := on_frozen Commit in
  let! hv2 := on_rewards Commit in
  if negb (hv0.2 =? hv1.2) || negb (hv1.2 =? hv2.2) then
    errM (Wrapf ErrCommit "error: StakeCtrler.Commit() has wrong version number - v0:%v, v1:%v, v2:%v")
  else
    let! interval := getsM (fun w : W => sc_rwdLedgUpInterval w.1) in
    if interval =? 0 then panicM
    else
      do! (if Z.rem hv0.2 interval =? 0 then modify_ctrler (set_rwdhash hv2.1) else retM tt) in
      let! h := getsM (fun w : W => sc_lastRwdHash w.1) in
      retM (DefaultHash [hv0.1; hv1.1; h], hv0.2).

(** The fields of a new controller, over opened trees. *)
Definition newStakeCtrler (g : GovParams) (tdelg tfrozen treward : Tr) (lastRwdHash : bytes) : StakeCtrler :=
  mkStakeCtrler [] [] (NewFinalityLedger tdelg) (NewFinalityLedger tfrozen) (NewFinalityLedger treward) 10
    lastRwdHash lastRwdHash
    (NewStakeLimiter [] (maxValidatorCnt g) (maxIndividualStakeRatio g) (maxUpdatableStakeRatio g)).

(** ** [IStakeHandler] and readers *)
Definition Validators (c : StakeCtrler) : list (list Byte.byte * Z) * Z :=
  (map (fun v => (dg_Addr v, dg_TotalPower v)) (sc_lastValidators c), sum_i64 dg_TotalPower (sc_lastValidators c)).
Definition IsValidator (addr : bytes) (c : StakeCtrler) : bool :=
  existsb (fun v => Compare (dg_Addr v) addr =? 0) (sc_lastValidators c).

Definition power_of (f : Delegatee -> Z) (addr : bytes) : GoM W Z :=
  let! r := tryM (on_delegatees (let! p := get_on Deliver (ToLedgerKey addr) in load p)) in
  match r with inl _ => retM 0 | inr d => retM (f d) end.
Definition TotalPowerOf : bytes -> GoM W Z := power_of dg_TotalPower.
Definition SelfPowerOf : bytes -> GoM W Z := power_of dg_SelfPower.
Definition DelegatedPowerOf : bytes -> GoM W Z := power_of (fun d => i64 (dg_TotalPower d - dg_SelfPower d)).

(** Iteration over the committed items of a ledger into an accumulator. *)
Definition fold_items {T B} {I : ILedgerItem T} (f : B -> T -> outcome B) (L : FinalityLedger T Tr) (b : B) : outcome unit * B :=
  let '(r, s) := IterateReadAllItems lens_fst (fun x (s : FinalityLedger T Tr * B) =>
     match f s.2 x with Ret b' => (Ret tt, (s.1, b')) | Err e => (Err e, s) | Panic => (Panic, s) end) (L, b) in
  (r, s.2).

(** The error of the iteration is ignored. *)
Definition read_all {T B} {I : ILedgerItem T} (f : B -> T -> B) (L : FinalityLedger T Tr) (b : B) : outcome B :=
  match fold_items (fun b x => Ret (f b x)) L b with (Panic, _) => Panic | (_, b') => Ret b' end.

Definition ReadTotalAmount (c : StakeCtrler) : outcome Z :=
  read_all (fun ret d => u256 (ret + PowerToAmount (dg_TotalPower d))) (sc_delegateeLedger c) 0.
Definition ReadTotalPower (c : StakeCtrler) : outcome Z :=
  read_all (fun ret d => i64 (ret + dg_TotalPower d)) (sc_delegateeLedger c) 0.
Definition ReadFrozenStakes (c : StakeCtrler) : outcome (list Stake) :=
  read_all (fun ret s0 => ret ++ [s0]) (sc_frozenLedger c) [].

Definition RewardOf (addr : bytes) : GoM W (option Reward_) :=
  let! r := tryM (on_rewards (let! p := get_on Deliver (ToLedgerKey addr) in load p)) in
  match r with inl _ => retM None | inr x => retM (Some x) end.
Definition ReadRewardOf (addr : bytes) : GoM W (option Reward_) :=
  let! r := tryM (on_rewards (Read (ToLedgerKey addr))) in
  match r with inl _ => retM None | inr x => retM (Some x) end.

(** ** [Query] *)
Definition wrap_query {B} (r : outcome B) : outcome B :=
  match r with Err e => Err (Wrap ErrQuery (xcause e)) | o => o end.

Definition query_reward (L : FinalityLedger Reward_ Tr) (data : bytes) : outcome StakeQuery :=
  match (Read (ToLedgerKey data) L).1 with
  | Ret r => Ret (QReward r)
  | Err e => Err (Wrap ErrQuery (xcause e))
  | Panic => Panic
  end.
Definition query_stakes (L : FinalityLedger Delegatee Tr) (data : bytes) : outcome StakeQuery :=
  match fold_items (fun acc d => Ret (acc ++ List.filter (fun s0 => Compare (st_From s0) data =? 0) (dg_Stakes d))) L [] with
  | (Ret _, l) => Ret (QStakes l)
  | (Err e, _) => Err (Wrap ErrQuery (xcause e))
  | (Panic, _) => Panic
  end.
Definition query_delegatee (L : FinalityLedger Delegatee Tr) (data : bytes) : outcome StakeQuery :=
  match (Read (ToLedgerKey data) L).1 with
  | Ret d => Ret (QDelegatee d)
  | Err e => if is_errvar e ErrNotFoundResult then Err (Wrap ErrQuery (xcause ErrNotFoundDelegatee))
             else Err (Wrap ErrQuery (xcause e))
  | Panic => Panic
  end.
Definition query_total_power (L : FinalityLedger Delegatee Tr) : outcome StakeQuery :=
  match fold_items (fun p d => Ret (i64 (p + dg_TotalPower d))) L 0 with
  | (Ret _, p) => Ret (QPower p)
  | (Err e, _) => Err (Wrap ErrQuery (xcause e))
  | (Panic, _) => Panic
  end.
Definition query_voting_power (g : GovParams) (L : FinalityLedger Delegatee Tr) : outcome StakeQuery :=
  match fold_items (fun l d => match min_validator_power g with
                               | Ret minPower => Ret (if minPower <=? dg_SelfPower d then l ++ [d] else l)
                               | Err e => Err e
                               | Panic => Panic end) L [] with
  | (Ret _, l) =>
      match selectValidators (sort_Sort PowerOrderLess l) (maxValidatorCnt g) with
      | Ret vals => Ret (QPower (sum_i64 dg_TotalPower vals))
      | Err e => Err e
      | Panic => Panic
      end
  | (Err e, _) => Err (Wrap ErrQuery (xcause e))
  | (Panic, _) => Panic
  end.

Definition StakeCtrler_Query (g : GovParams) (path : string) (height : Z) (data : bytes) : GoM W StakeQuery :=
  let at_delg (q : FinalityLedger Delegatee Tr -> outcome StakeQuery) :=
    let! r := tryM (on_delegatees (ImmutableLedgerAt height)) in
    match r with inl e => errM (Wrap ErrQuery (xcause e)) | inr L => liftO (q L) end in
  if bool_decide (path = "reward"%string) then
    let! r := tryM (on_rewards (ImmutableLedgerAt height)) in
    match r with inl e => errM (Wrap ErrQuery (xcause e)) | inr L => liftO (query_reward L data) end
  else if bool_decide (path = "stakes"%string) then at_delg (fun L => query_stakes L data)
  else if bool_decide (path = "delegatee"%string) then at_delg (fun L => query_delegatee L data)
  else if bool_decide (path = "stakes/total_power"%string) then at_delg query_total_power
  else if bool_decide (path = "stakes/voting_power"%string) then at_delg (query_voting_power g)
  else errM (Wrapf ErrQuery "unknown query path").
End StakeCtrler.

(** [NewStakeCtrler] over opened trees: the validators are chosen from the
    candidates of the new controller, which has none. *)
Definition NewStakeCtrler {Tr : Type} (g : GovParams) (tdelg tfrozen treward : Tr) (lastRwdHash : list Byte.byte) : outcome (@StakeCtrler Tr) :=
  match updateValidators (A := unit) (maxValidatorCnt g) (newStakeCtrler g tdelg tfrozen treward lastRwdHash, tt) with
  | (Ret _, w) => Ret w.1
  | (Err e, _) => Err e
  | (Panic, _) => Panic
  end.
