(* ===== verification/ValidatorProps.v ===== *)
(** * Theorems about the validator set

    The updates reported to the consensus engine turn the last validator set
    into the new one, and the new set is made of the most powerful candidates. *)

From Stdlib Require Import Strings.Byte.
From S2P Require Import Prelude Xerrors GoSem Bytes Ledger LedgerSpec LedgerProps Concrete GovParams Account Trx Context AcctCtrler Stake StakeProps StakeLimiter StakeCtrler.

(** ** The reference: how the engine applies updates

    The engine keeps a power for every public key; power 0 removes a key. *)
Definition apply_update (m : gmap bytes Z) (u : ValidatorUpdate) : gmap bytes Z :=
  if vu_Power u =? 0 then delete (vu_PubKey u) m else <[vu_PubKey u := vu_Power u]> m.
Definition apply_updates (us : list ValidatorUpdate) (m : gmap bytes Z) : gmap bytes Z := fold_left apply_update us m.

Definition power_map (l : list Delegatee) : gmap bytes Z :=
  list_to_map (map (fun d => (dg_PubKey d, dg_TotalPower d)) l).

(** One public key per address. *)
Definition keys_ok (l : list Delegatee) : Prop :=
  forall d d', d ∈ l -> d' ∈ l -> dg_PubKey d = dg_PubKey d' <-> dg_Addr d = dg_Addr d'.

Definition addr_sorted (l : list Delegatee) : Prop :=
  StronglySorted (fun a b => bytes_ltb (dg_Addr a) (dg_Addr b) = true) l.

Lemma keys_ok_mono l l' : (forall d, d ∈ l' -> d ∈ l) -> keys_ok l -> keys_ok l'.
Proof. intros Hs Hk d d' H H'. apply Hk; auto. Qed.

Lemma power_map_cons d l : power_map (d :: l) = <[dg_PubKey d := dg_TotalPower d]> (power_map l).
Proof. done. Qed.

Lemma power_map_not l k : (forall d, d ∈ l -> dg_PubKey d <> k) -> power_map l !! k = None.
Proof.
  intros H. apply not_elem_of_list_to_map_1. rewrite <- list_fmap_compose.
  intros (d & -> & Hd)%list_elem_of_fmap. by apply (H d Hd).
Qed.

Lemma power_map_perm l l' : NoDup (map dg_PubKey l) -> l ≡ₚ l' -> power_map l = power_map l'.
Proof.
  intros Hnd Hp. unfold power_map. apply list_to_map_proper.
  - rewrite <- list_fmap_compose. exact Hnd.
  - by rewrite Hp.
Qed.

Lemma sort_addr_sorted l : NoDup (map dg_Addr l) -> addr_sorted (sort_Sort AddressOrderLess l).
Proof.
  intros Hnd.
  assert (Hs : StronglySorted (not_less AddressOrderLess) (sort_Sort AddressOrderLess l)).
  { apply sort_sorted; unfold not_less, AddressOrderLess.
    - intros x y. apply bytes_ltb_asym.
    - intros x y z H1 H2. by eapply bytes_ltb_negtrans. }
  rewrite <- (sort_perm AddressOrderLess l) in Hnd.
  induction Hs as [|d r Hs IH Hall]; [constructor|].
  cbn [map] in Hnd. apply list.NoDup_cons in Hnd as [Hd Hnd]. constructor; [by apply IH|].
  rewrite list.Forall_forall in Hall |- *. intros d' Hin. specialize (Hall d' Hin). unfold not_less, AddressOrderLess in Hall.
  destruct (bytes_ltb (dg_Addr d) (dg_Addr d')) eqn:E; [done|]. exfalso. apply Hd.
  rewrite (bytes_ltb_total _ _ E Hall). apply list_elem_of_fmap. by exists d'.
Qed.

Lemma addr_sorted_inv d l : addr_sorted (d :: l) -> addr_sorted l /\ (forall d', d' ∈ l -> bytes_ltb (dg_Addr d) (dg_Addr d') = true).
Proof. intros H. inversion H as [|? ? H1 H2]; subst. split; [done|]. by rewrite list.Forall_forall in H2. Qed.

(** An element below all the elements of a list has another key than each. *)
Lemma key_apart d (l all : list Delegatee) :
  keys_ok all -> d ∈ all -> (forall d', d' ∈ l -> d' ∈ all) ->
  (forall d', d' ∈ l -> bytes_ltb (dg_Addr d) (dg_Addr d') = true) -> forall d', d' ∈ l -> dg_PubKey d' <> dg_PubKey d.
Proof.
  intros Hk Hd Hl Hlt d' Hd' He. apply (Hk d' d) in He; [|auto|done].
  specialize (Hlt d' Hd'). rewrite He, bytes_ltb_irrefl in Hlt. done.
Qed.

(** ** The merge loop *)

(** The two lists that the loop still has to merge. *)
Record merging (e n : list Delegatee) : Prop := {
  mg_e : addr_sorted e;
  mg_n : addr_sorted n;
  mg_keys : keys_ok (e ++ n);
  mg_pos : forall d, d ∈ n -> 0 < dg_TotalPower d;
}.

(** One step of the merge of two sorted lists: the key dealt with does not occur
    in what is left. *)
Inductive merge_case (e n : list Delegatee) : list ValidatorUpdate -> list Delegatee -> list Delegatee -> Prop :=
  | merge_drop d es : e = d :: es -> (forall x, x ∈ es ++ n -> dg_PubKey x <> dg_PubKey d) ->
      merge_case e n [mkValidatorUpdate (dg_PubKey d) 0] es n
  | merge_add d ns : n = d :: ns -> (forall x, x ∈ e ++ ns -> dg_PubKey x <> dg_PubKey d) ->
      merge_case e n [mkValidatorUpdate (dg_PubKey d) (dg_TotalPower d)] e ns
  | merge_change d d' es ns : e = d :: es -> n = d' :: ns -> dg_PubKey d = dg_PubKey d' ->
      (forall x, x ∈ es ++ ns -> dg_PubKey x <> dg_PubKey d) -> dg_TotalPower d <> dg_TotalPower d' ->
      merge_case e n [mkValidatorUpdate (dg_PubKey d') (dg_TotalPower d')] es ns
  | merge_same d d' es ns : e = d :: es -> n = d' :: ns -> dg_PubKey d = dg_PubKey d' ->
      (forall x, x ∈ es ++ ns -> dg_PubKey x <> dg_PubKey d) -> dg_TotalPower d = dg_TotalPower d' ->
      merge_case e n [] es ns.

Lemma merging_tl e n e' n' : merging e n -> e' `suffix_of` e -> n' `suffix_of` n -> merging e' n'.
Proof.
  assert (Hsub : forall l l' : list Delegatee, l' `suffix_of` l -> addr_sorted l -> addr_sorted l').
  { intros l l' [k ->]. induction k as [|x k IH]; [done|]. intros H. apply IH. by apply addr_sorted_inv in H as [??]. }
  assert (Hin : forall (l l' : list Delegatee) d, l' `suffix_of` l -> d ∈ l' -> d ∈ l).
  { intros l l' d [k ->]. set_solver. }
  intros [He Hn Hk Hp] Hse Hsn. constructor; eauto.
  eapply keys_ok_mono; [|exact Hk]. intros d. rewrite !elem_of_app. intros [?|?]; eauto.
Qed.

Lemma updates_step f e n :
  merging e n -> e ++ n <> [] ->
  exists us e' n', updates_loop (S f) e n = us ++ updates_loop f e' n' /\ merge_case e n us e' n' /\ merging e' n' /\
                   (length e' + length n' < length e + length n)%nat.
Proof.
  intros Hm Hne. destruct Hm as [He Hn Hk Hp] eqn:Em. clear Em.
  assert (Hte : forall d es, e = d :: es -> merging es n) by (intros d es ->; eapply merging_tl; [exact Hm|by exists [d]|done]).
  assert (Htn : forall d ns, n = d :: ns -> merging e ns) by (intros d ns ->; eapply merging_tl; [exact Hm|done|by exists [d]]).
  destruct e as [|d es], n as [|d' ns]; cbn [updates_loop]; [done| | |].
  - eexists [_], [], ns. split; [done|]. split; [|by split; [eauto|cbn; lia]]. eapply merge_add; [done|].
    apply addr_sorted_inv in Hn as [_ Hlt]. eapply key_apart; [exact Hk| | |exact Hlt]; set_solver.
  - eexists [_], es, []. split; [done|]. split; [|by split; [eauto|cbn; lia]]. eapply merge_drop; [done|].
    apply addr_sorted_inv in He as [_ Hlt]. rewrite app_nil_r. eapply key_apart; [exact Hk| | |exact Hlt]; set_solver.
  - pose proof (addr_sorted_inv _ _ He) as [_ Hlte]. pose proof (addr_sorted_inv _ _ Hn) as [_ Hltn].
    rewrite compare_lt. destruct (bytes_ltb (dg_Addr d) (dg_Addr d')) eqn:E.
    { eexists [_], es, (d' :: ns). split; [done|]. split; [|by split; [eauto|cbn; lia]]. eapply merge_drop; [done|].
      eapply key_apart; [exact Hk|set_solver|set_solver|].
      intros x. rewrite elem_of_app, elem_of_cons. intros [?|[->|?]]; eauto using bytes_ltb_trans. }
    destruct (Compare (dg_Addr d) (dg_Addr d') =? 0) eqn:E0.
    + apply Z.eqb_eq, compare_eq in E0. assert (HK : dg_PubKey d = dg_PubKey d') by (apply Hk; [set_solver..|done]).
      assert (Hap : forall x, x ∈ es ++ ns -> dg_PubKey x <> dg_PubKey d).
      { eapply key_apart; [exact Hk|set_solver|set_solver|]. rewrite E0 in *. intros x [?|?]%elem_of_app; eauto. }
      assert (Hm' : merging es ns) by (eapply merging_tl; [exact Hm|by exists [d]|by exists [d']]).
      destruct (dg_TotalPower d =? dg_TotalPower d') eqn:Ep; cbn [negb].
      * eexists [], es, ns. split; [done|]. split; [|by split; [|cbn; lia]]. eapply merge_same; [done..|lia].
      * eexists [_], es, ns. split; [done|]. split; [|by split; [|cbn; lia]]. eapply merge_change; [done..|lia].
    + assert (Hgt : bytes_ltb (dg_Addr d') (dg_Addr d) = true).
      { destruct (bytes_ltb (dg_Addr d') (dg_Addr d)) eqn:E'; [done|]. exfalso.
        rewrite (bytes_ltb_total _ _ E E'), (proj2 (compare_eq _ _) eq_refl) in E0. done. }
      eexists [_], (d :: es), ns. split; [done|]. split; [|by split; [eauto|cbn; lia]]. eapply merge_add; [done|].
      eapply key_apart; [exact Hk|set_solver|set_solver|].
      intros x. rewrite elem_of_app, elem_of_cons. intros [[->|?]|?]; eauto using bytes_ltb_trans.
Qed.

(** The loop removes the keys of [e] and enters those of [n]. *)
Lemma updates_apply f e n m :
  merging e n -> (length e + length n <= f)%nat -> (forall d, d ∈ e -> m !! dg_PubKey d = Some (dg_TotalPower d)) ->
  apply_updates (updates_loop f e n) m = power_map n ∪ (m ∖ power_map e).
Proof.
  revert e n m. induction f as [|f IH]; intros e n m Hm Hf Hin.
  { destruct e, n; cbn in Hf; try lia. cbn. by rewrite map_empty_union, map_difference_empty. }
  destruct (decide (e ++ n = [])) as [Hnil|Hne].
  { apply app_eq_nil in Hnil as [-> ->]. cbn. by rewrite map_empty_union, map_difference_empty. }
  destruct (updates_step f e n Hm Hne) as (us & e' & n' & -> & Hc & Hm' & Hlt).
  unfold apply_updates. rewrite fold_left_app. fold (apply_updates us m). fold (apply_updates (updates_loop f e' n') (apply_updates us m)).
  assert (Hkeep : forall k, (forall x, x ∈ e' ++ n' -> dg_PubKey x <> k) -> power_map e' !! k = None /\ power_map n' !! k = None).
  { intros k Hk. split; apply power_map_not; intros; apply Hk; set_solver. }
  rewrite IH; [|done|lia|]; clear IH.
  - apply map_eq. intros k. rewrite !lookup_union, !lookup_difference.
    pose proof (mg_pos _ _ Hm) as Hpos. clear Hm Hm' Hlt Hf Hne.
    destruct Hc as [d es -> Hap|d ns -> Hap|d d' es ns -> -> HK Hap Hp|d d' es ns -> -> HK Hap Hp];
      rewrite ?power_map_cons; cbn [apply_updates fold_left]; unfold apply_update; cbn [vu_PubKey vu_Power];
      destruct (Hkeep (dg_PubKey d) Hap) as [He0 Hn0]; clear Hkeep.
    + rewrite Z.eqb_refl. destruct (decide (k = dg_PubKey d)) as [->|Hk].
      * by rewrite lookup_delete_eq, lookup_insert_eq, He0.
      * by rewrite lookup_delete_ne, lookup_insert_ne by done.
    + destruct (dg_TotalPower d =? 0) eqn:Hz; [specialize (Hpos d ltac:(by left)); lia|].
      destruct (decide (k = dg_PubKey d)) as [->|Hk].
      * rewrite !lookup_insert_eq, He0, Hn0. by destruct (m !! dg_PubKey d).
      * by rewrite !lookup_insert_ne by done.
    + destruct (dg_TotalPower d' =? 0) eqn:Hz; [specialize (Hpos d' ltac:(by left)); lia|].
      rewrite <- HK. destruct (decide (k = dg_PubKey d)) as [->|Hk].
      * rewrite !lookup_insert_eq, He0, Hn0. by destruct (m !! dg_PubKey d).
      * by rewrite !lookup_insert_ne by done.
    + rewrite <- HK. destruct (decide (k = dg_PubKey d)) as [->|Hk].
      * by rewrite !lookup_insert_eq, He0, Hn0, Hin, Hp by (by left).
      * by rewrite !lookup_insert_ne by done.
  - intros x Hx.
    assert (Hold : forall u, vu_PubKey u <> dg_PubKey x -> apply_update m u !! dg_PubKey x = m !! dg_PubKey x).
    { intros u Hu. unfold apply_update. case_match; [by rewrite lookup_delete_ne|by rewrite lookup_insert_ne]. }
    destruct Hc as [d es -> Hap|d ns -> Hap|d d' es ns -> -> HK Hap Hp|d d' es ns -> -> HK Hap Hp];
      cbn [apply_updates fold_left]; rewrite ?Hold; cbn [vu_PubKey].
    all: try (apply Hin; done || by right).
    all: try rewrite <- HK; intros He; apply (Hap x); [apply elem_of_app; by left|done].
Qed.

(** Every key is reported once, and only known keys are removed. *)
Lemma updates_keys f e n :
  merging e n -> (length e + length n <= f)%nat ->
  NoDup (map vu_PubKey (updates_loop f e n)) /\
  (forall u, u ∈ updates_loop f e n -> 0 <= vu_Power u /\ (exists d, d ∈ e ++ n /\ dg_PubKey d = vu_PubKey u) /\
             (vu_Power u = 0 -> exists d, d ∈ e /\ dg_PubKey d = vu_PubKey u)).
Proof.
  revert e n. induction f as [|f IH]; intros e n Hm Hf.
  { cbn. split; [constructor|]. intros u Hu. by apply not_elem_of_nil in Hu. }
  destruct (decide (e ++ n = [])) as [Hnil|Hne].
  { apply app_eq_nil in Hnil as [-> ->]. cbn. split; [constructor|]. intros u Hu. by apply not_elem_of_nil in Hu. }
  destruct (updates_step f e n Hm Hne) as (us & e' & n' & -> & Hc & Hm' & Hlt).
  destruct (IH e' n' Hm' ltac:(lia)) as [Hnd Hks]. clear IH. pose proof (mg_pos _ _ Hm) as Hpos.
  assert (Hsub : (forall d, d ∈ e' -> d ∈ e) /\ (forall d, d ∈ n' -> d ∈ n)).
  { destruct Hc as [d es -> Hap|d ns -> Hap|d d' es ns -> -> HK Hap Hp|d d' es ns -> -> HK Hap Hp];
      split; intros x Hx; done || by right. }
  destruct Hsub as [Hse Hsn].
  assert (Hrest : forall u, u ∈ updates_loop f e' n' -> 0 <= vu_Power u /\ (exists d, d ∈ e ++ n /\ dg_PubKey d = vu_PubKey u) /\
             (vu_Power u = 0 -> exists d, d ∈ e /\ dg_PubKey d = vu_PubKey u)).
  { intros u Hu. destruct (Hks u Hu) as (H0 & (d & Hd & Hdk) & Hz). split_and!; [done| |].
    - exists d. split; [|done]. apply elem_of_app in Hd as [Hd|Hd]; apply elem_of_app; auto.
    - intros Hp. destruct (Hz Hp) as (x & Hx & ?). eauto. }
  assert (Hone : forall u, (forall x, x ∈ e' ++ n' -> dg_PubKey x <> vu_PubKey u) -> NoDup (map vu_PubKey ([u] ++ updates_loop f e' n'))).
  { intros u Hu. cbn. apply list.NoDup_cons. split; [|done]. intros (v & Hv & Hin)%list_elem_of_fmap.
    destruct (Hks v Hin) as (_ & (d & Hd & Hdk) & _). apply (Hu d Hd). congruence. }
  destruct Hc as [d es -> Hap|d ns -> Hap|d d' es ns -> -> HK Hap Hp|d d' es ns -> -> HK Hap Hp].
  - split; [by apply Hone|]. intros u [->%list_elem_of_singleton|Hu]%elem_of_app; [|by apply Hrest].
    cbn. split_and!; [lia| |]; [|intros _]; exists d; (split; [by left|done]).
  - split; [by apply Hone|]. intros u [->%list_elem_of_singleton|Hu]%elem_of_app; [|by apply Hrest].
    specialize (Hpos d ltac:(by left)). cbn. split_and!; [lia| |lia].
    exists d. split; [|done]. apply elem_of_app. right. by left.
  - split; [apply Hone; cbn; by rewrite <- HK|]. intros u [->%list_elem_of_singleton|Hu]%elem_of_app; [|by apply Hrest].
    specialize (Hpos d' ltac:(by left)). cbn. split_and!; [lia| |lia]. exists d. split; [by left|done].
  - split; [done|]. apply Hrest.
Qed.

(** ** The order by power *)
Lemma PowerOrderLess_asym a b : PowerOrderLess a b = true -> PowerOrderLess b a = false.
Proof.
  unfold PowerOrderLess. rewrite (Z.eqb_sym (dg_TotalPower b)), (Nat.eqb_sym (length (dg_Stakes b))).
  destruct (dg_TotalPower a =? dg_TotalPower b) eqn:E; cbn [negb]; [|lia].
  destruct (length (dg_Stakes a) =? length (dg_Stakes b))%nat eqn:E'; cbn [negb]; [apply bytes_ltb_asym|].
  rewrite !Nat.ltb_lt, Nat.ltb_ge. lia.
Qed.

Lemma PowerOrderLess_negtrans a b c :
  not_less PowerOrderLess a b -> not_less PowerOrderLess b c -> not_less PowerOrderLess a c.
Proof.
  unfold not_less, PowerOrderLess. intros H1 H2.
  destruct (dg_TotalPower b =? dg_TotalPower a) eqn:E1; destruct (dg_TotalPower c =? dg_TotalPower b) eqn:E2;
    destruct (dg_TotalPower c =? dg_TotalPower a) eqn:E3; cbn [negb] in *; try lia.
  destruct (length (dg_Stakes b) =? length (dg_Stakes a))%nat eqn:F1;
    destruct (length (dg_Stakes c) =? length (dg_Stakes b))%nat eqn:F2;
    destruct (length (dg_Stakes c) =? length (dg_Stakes a))%nat eqn:F3; cbn [negb] in *;
    rewrite ?Nat.eqb_eq, ?Nat.eqb_neq, ?Nat.ltb_ge in *; try lia.
  by eapply bytes_ltb_negtrans.
Qed.

Lemma PowerOrderLess_antisym a b :
  not_less PowerOrderLess a b -> not_less PowerOrderLess b a -> dg_Addr a = dg_Addr b.
Proof.
  unfold not_less, PowerOrderLess. intros H1 H2.
  destruct (dg_TotalPower b =? dg_TotalPower a) eqn:E1; destruct (dg_TotalPower a =? dg_TotalPower b) eqn:E2; cbn [negb] in *; try lia.
  destruct (length (dg_Stakes b) =? length (dg_Stakes a))%nat eqn:F1;
    destruct (length (dg_Stakes a) =? length (dg_Stakes b))%nat eqn:F2; cbn [negb] in *;
    rewrite ?Nat.eqb_eq, ?Nat.eqb_neq, ?Nat.ltb_ge in *; try lia.
  by apply bytes_ltb_total.
Qed.

Lemma not_less_power a b : not_less PowerOrderLess a b -> dg_TotalPower b <= dg_TotalPower a.
Proof. unfold not_less, PowerOrderLess. destruct (dg_TotalPower b =? dg_TotalPower a) eqn:E; cbn [negb]; lia. Qed.

Lemma same_addr_same l d d' : NoDup (map dg_Addr l) -> d ∈ l -> d' ∈ l -> dg_Addr d = dg_Addr d' -> d = d'.
Proof.
  intros Hnd [i Hi]%list_elem_of_lookup [j Hj]%list_elem_of_lookup He.
  assert (i = j); [|congruence]. apply (NoDup_lookup _ i j (dg_Addr d) Hnd); rewrite list_lookup_fmap, ?Hi, ?Hj; cbn; congruence.
Qed.

(** Sorting by address and then by power gives back a list sorted by power. *)
Lemma resort_power l :
  NoDup (map dg_Addr l) -> StronglySorted (not_less PowerOrderLess) l ->
  sort_Sort PowerOrderLess (sort_Sort AddressOrderLess l) = l.
Proof.
  intros Hnd Hs. symmetry. apply sort_unique; try done.
  - apply PowerOrderLess_asym.
  - apply PowerOrderLess_negtrans.
  - intros x y Hx Hy H1 H2. rewrite elem_of_sort in Hx, Hy.
    eapply same_addr_same; [exact Hnd|done|done|]. by apply PowerOrderLess_antisym.
  - symmetry. apply sort_perm.
Qed.

Lemma pubkeys_nodup l : keys_ok l -> NoDup (map dg_Addr l) -> NoDup (map dg_PubKey l).
Proof.
  induction l as [|d l IH]; intros Hk Hnd; [constructor|]. cbn [map] in *. apply list.NoDup_cons in Hnd as [Hd Hnd].
  apply list.NoDup_cons. split.
  - intros (d' & He & Hin)%list_elem_of_fmap. apply Hd. apply list_elem_of_fmap. exists d'. split; [|done].
    apply Hk; [by left|by right|done].
  - apply IH; [|done]. eapply keys_ok_mono; [|exact Hk]. intros. by right.
Qed.

Lemma sorted_split_less {A} (R : relation A) n l x y :
  StronglySorted R l -> x ∈ take n l -> y ∈ drop n l -> R x y.
Proof.
  revert l. induction n as [|n IH]; intros [|z l] Hs Hx Hy; cbn in *; try by apply not_elem_of_nil in Hx.
  inversion Hs as [|? ? Hs' Hall]; subst. rewrite list.Forall_forall in Hall. apply elem_of_cons in Hx as [->|Hx]; [|eauto].
  apply Hall. rewrite <- (take_drop n l). apply elem_of_app. by right.
Qed.

Lemma sorted_take {A} (R : relation A) n l : StronglySorted R l -> StronglySorted R (take n l).
Proof.
  revert l. induction n as [|n IH]; intros [|z l] Hs; cbn; try constructor; inversion Hs as [|? ? Hs' Hall]; subst; [by apply IH|].
  rewrite list.Forall_forall in Hall |- *. intros x Hx. apply Hall. rewrite <- (take_drop n l). apply elem_of_app. by left.
Qed.

Lemma sublist_nodup {A B} (f : A -> B) n l : NoDup (map f l) -> NoDup (map f (take n l)).
Proof. rewrite <- (take_drop n l) at 1. rewrite map_app. by intros [? _]%list.NoDup_app. Qed.

Section Update.
Context {Tr A : Type} {Tree : Iavl Tr} {CD : Codec Delegatee}.

(** What the state of the block is when the set is updated: the candidates are
    in the order of power, with distinct addresses and one key each. *)
Record candidates_ok (c : @StakeCtrler Tr) : Prop := {
  co_sorted : StronglySorted (not_less PowerOrderLess) (sc_allDelegatees c);
  co_all : NoDup (map dg_Addr (sc_allDelegatees c));
  co_last : NoDup (map dg_Addr (sc_lastValidators c));
  co_keys : keys_ok (sc_lastValidators c ++ sc_allDelegatees c);
  co_pos : forall d, d ∈ sc_allDelegatees c -> 0 < dg_TotalPower d;
}.

Lemma select_take l maxVals : 0 <= maxVals -> selectValidators l maxVals = Ret (take (Z.to_nat maxVals) l).
Proof.
  intros Hm. unfold selectValidators, MIN.
  destruct (Z.of_nat (length l) <? maxVals) eqn:E; cbn zeta.
  - rewrite (proj2 (Z.ltb_ge _ _)) by lia. f_equal. rewrite Nat2Z.id, !take_ge by lia. done.
  - by rewrite (proj2 (Z.ltb_ge _ _)) by lia.
Qed.

Lemma merging_candidates c n :
  candidates_ok c ->
  merging (sort_Sort AddressOrderLess (sc_lastValidators c)) (sort_Sort AddressOrderLess (take n (sc_allDelegatees c))).
Proof.
  intros [Hs Ha Hl Hk Hp]. assert (Hin : forall d, d ∈ take n (sc_allDelegatees c) -> d ∈ sc_allDelegatees c).
  { intros d Hd. rewrite <- (take_drop n (sc_allDelegatees c)). apply elem_of_app. by left. }
  constructor.
  - by apply sort_addr_sorted.
  - by apply sort_addr_sorted, sublist_nodup.
  - eapply keys_ok_mono; [|exact Hk]. intros d. rewrite !elem_of_app, !elem_of_sort. intros [?|?]; auto.
  - intros d. rewrite elem_of_sort. auto.
Qed.

(** C9: the validator set.  [updateValidators] makes the [maxVals] most
    powerful candidates the new set; the updates it reports, applied by the
    consensus engine to the old set, give exactly the new set; no public key is
    reported twice, no power is negative, and only validators of the old set
    are removed. *)
Theorem update_validators_spec (w : StakeCtrler * A) (maxVals : Z) :
  candidates_ok w.1 -> 0 <= maxVals ->
  let new := take (Z.to_nat maxVals) (sc_allDelegatees w.1) in
  exists ups, updateValidators (Tr := Tr) maxVals w = (Ret ups, (set_last new w.1, w.2)) /\
    apply_updates ups (power_map (sc_lastValidators w.1)) = power_map new /\
    NoDup (map vu_PubKey ups) /\
    (forall u, u ∈ ups -> 0 <= vu_Power u /\
       (vu_Power u = 0 -> exists d, d ∈ sc_lastValidators w.1 /\ dg_PubKey d = vu_PubKey u)) /\
    (forall d d', d ∈ new -> d' ∈ sc_allDelegatees w.1 -> d' ∉ new -> dg_TotalPower d' <= dg_TotalPower d).
Proof.
  intros Hc Hmax new. destruct w as [c a]. cbn [fst snd] in *. set (n := Z.to_nat maxVals) in *.
  pose proof (merging_candidates c n Hc) as Hm. fold new in Hm. destruct Hc as [Hs Ha Hl Hk Hp].
  assert (Hkl : keys_ok (sc_lastValidators c)) by (eapply keys_ok_mono; [|exact Hk]; intros; apply elem_of_app; by left).
  assert (Hkn : keys_ok new).
  { eapply keys_ok_mono; [|exact Hk]. intros d Hd. apply elem_of_app. right. rewrite <- (take_drop n (sc_allDelegatees c)).
    apply elem_of_app. by left. }
  pose proof (pubkeys_nodup _ Hkl Hl) as Hpl. pose proof (sublist_nodup dg_Addr n _ Ha) as Han.
  pose proof (pubkeys_nodup _ Hkn Han) as Hpn.
  pose proof (updates_keys _ _ _ Hm (Nat.le_refl _)) as [Hnd Hus]. eexists. split.
  { unfold updateValidators, bindM, getsM, liftO, modify_ctrler, modifyM. cbn [fst snd]. rewrite select_take by done.
    fold n new. rewrite resort_power; [|done|by apply sorted_take].
    unfold set_all, set_last; cbn. unfold new. rewrite length_take.
    assert (Heq : take n (sc_allDelegatees c) ++ drop (n `min` length (sc_allDelegatees c)) (sc_allDelegatees c) = sc_allDelegatees c).
    { destruct (decide (n <= length (sc_allDelegatees c))%nat); [by rewrite Nat.min_l, take_drop by lia|].
      rewrite Nat.min_r, take_ge, drop_ge, app_nil_r by lia. done. }
    rewrite Heq. reflexivity. }
  split_and!.
  - unfold validatorUpdates. rewrite updates_apply; [|done|done|].
    + rewrite (power_map_perm _ new), (power_map_perm (sort_Sort _ _) (sc_lastValidators c)); try apply sort_perm.
      * rewrite map_difference_diag. apply map_union_empty.
      * by rewrite sort_perm.
      * by rewrite sort_perm.
    + intros d. rewrite elem_of_sort. intros Hd. apply elem_of_list_to_map_1.
      * rewrite <- list_fmap_compose. exact Hpl.
      * apply list_elem_of_fmap. by exists d.
  - exact Hnd.
  - intros u Hu. destruct (Hus u Hu) as (H0 & _ & Hz). split; [done|]. intros Hu0.
    destruct (Hz Hu0) as (d & Hd & He). rewrite elem_of_sort in Hd. eauto.
  - intros d d' Hd Hd' Hnew. apply not_less_power. eapply sorted_split_less; [exact Hs|exact Hd|].
    rewrite <- (take_drop n) in Hd'. apply elem_of_app in Hd' as [?|?]; done.
Qed.
End Update.

(** A set of two of three candidates. *)
Definition cand (a : Byte.byte) (p : Z) : Delegatee := mkDelegatee (replicate 20 a) (replicate 33 a) p p 0 [] [].
Definition emptyTree : mapTree := MapTree ∅ ∅ 0.
Definition ctrler0 : @StakeCtrler mapTree :=
  mkStakeCtrler [cand Byte.x03 90; cand Byte.x01 50; cand Byte.x02 20] [cand Byte.x01 40; cand Byte.x04 70]
    (NewFinalityLedger emptyTree) (NewFinalityLedger emptyTree) (NewFinalityLedger emptyTree) 10 [] [] lim0.

Lemma ctrler0_ok : candidates_ok ctrler0.
Proof.
  constructor; cbn [ctrler0 sc_allDelegatees sc_lastValidators].
  - repeat constructor.
  - apply (bool_decide_unpack _). vm_compute. exact I.
  - apply (bool_decide_unpack _). vm_compute. exact I.
  - intros d d' Hd Hd'. cbn [app] in Hd, Hd'.
    repeat (apply elem_of_cons in Hd as [->|Hd]; [|]); try by apply not_elem_of_nil in Hd.
    all: repeat (apply elem_of_cons in Hd' as [->|Hd']; [done|]); by apply not_elem_of_nil in Hd'.
  - intros d Hd. repeat (apply elem_of_cons in Hd as [->|Hd]; [done|]). by apply not_elem_of_nil in Hd.
Qed.

Lemma update_validators_spec_witness :
  exists ups w', updateValidators 2 (ctrler0, tt) = (Ret ups, w') /\
    apply_updates ups (power_map (sc_lastValidators ctrler0)) = power_map [cand Byte.x03 90; cand Byte.x01 50].
Proof.
  destruct (update_validators_spec (ctrler0, tt) 2 ctrler0_ok) as (ups & Hrun & Happ & _); [lia|].
  exists ups. eexists. split; [exact Hrun|exact Happ].
Defined.
