(* ===== verification/Proposal.v ===== *)
(** * Proposals: [ctrlers/gov/proposal/header.go], [option.go], [proposal.go]

    A proposal with its voters and options.  The map of voters is keyed by the
    hexadecimal form of the address; the options are objects of the proposal
    alone, so they are held by value.  An index outside the options is a
    run-time panic. *)

From Stdlib Require Import Strings.Byte.
From S2P Require Import Prelude Xerrors GoSem Bytes Ledger LedgerSpec Concrete GovParams.

Definition PROPOSAL_ONCHAIN : Z := 256.
Definition PROPOSAL_OFFCHAIN : Z := 512.
Definition PROPOSAL_GOVPARAMS : Z := Z.lor PROPOSAL_ONCHAIN 1.
Definition PROPOSAL_COMMON : Z := Z.lor PROPOSAL_OFFCHAIN 0.
Definition NOT_CHOICE : Z := -1.

Record Voter : Type := mkVoter { vt_Addr : list Byte.byte; vt_Power : Z; vt_Choice : Z }.
Record voteOption : Type := mkOption { vo_option : list Byte.byte; vo_votes : Z }.

Record GovProposal : Type := mkProposal {
  pr_TxHash : list Byte.byte;
  pr_StartVotingHeight : Z;
  pr_EndVotingHeight : Z;
  pr_ApplyingHeight : Z;
  pr_TotalVotingPower : Z;
  pr_MajorityPower : Z;
  pr_Voters : gmap bytes Voter;
  pr_OptType : Z;
  pr_Options : list voteOption;
  pr_MajorOption : option voteOption;
}.

#[export] Instance voter_eq_dec : EqDecision Voter.
Proof. solve_decision. Defined.
#[export] Program Instance voter_countable : Countable Voter :=
  inj_countable' (fun v => (vt_Addr v, vt_Power v, vt_Choice v)) (fun '(a, b, c) => mkVoter a b c) _.
Next Obligation. by intros []. Qed.
#[export] Instance vote_option_eq_dec : EqDecision voteOption.
Proof. solve_decision. Defined.
#[export] Program Instance vote_option_countable : Countable voteOption :=
  inj_countable' (fun v => (vo_option v, vo_votes v)) (fun '(a, b) => mkOption a b) _.
Next Obligation. by intros []. Qed.
#[export] Instance gov_proposal_eq_dec : EqDecision GovProposal.
Proof. solve_decision. Defined.
#[export] Program Instance gov_proposal_countable : Countable GovProposal :=
  inj_countable' (fun p => (pr_TxHash p, pr_StartVotingHeight p, pr_EndVotingHeight p, pr_ApplyingHeight p,
                            pr_TotalVotingPower p, pr_MajorityPower p, map_to_list (pr_Voters p), pr_OptType p, pr_Options p, pr_MajorOption p))
    (fun '(a, b, c, d, e, f, g, h, i, j) => mkProposal a b c d e f (list_to_map g) h i j) _.
Next Obligation. intros []. cbn. by rewrite list_to_map_to_list. Qed.

(** ** Options *)
Definition NewVoteOptions (opts : list (list Byte.byte)) : list voteOption := map (fun o => mkOption o 0) opts.
Definition option_DoVote (power : Z) (o : voteOption) : voteOption := mkOption (vo_option o) (i64 (vo_votes o + power)).
Definition option_CancelVote (power : Z) (o : voteOption) : voteOption := mkOption (vo_option o) (i64 (vo_votes o - power)).
Definition powerOrderLess (a b : voteOption) : bool := vo_votes b <? vo_votes a.

(** ** Construction *)
Definition majority (total : Z) : Z := i64 (Z.quot (i64 (total * 2)) 3).

Definition NewGovProposal (txhash : bytes) (optType startHeight votingBlocks totalVotingPower applyingHeight : Z)
    (voters : gmap bytes Voter) (options : list (list Byte.byte)) : GovProposal :=
  mkProposal txhash startHeight (i64 (startHeight + votingBlocks)) applyingHeight totalVotingPower
    (majority totalVotingPower) voters optType (NewVoteOptions options) None.

Definition set_voter (k : bytes) (v : Voter) (p : GovProposal) : GovProposal :=
  mkProposal (pr_TxHash p) (pr_StartVotingHeight p) (pr_EndVotingHeight p) (pr_ApplyingHeight p) (pr_TotalVotingPower p)
    (pr_MajorityPower p) (<[k := v]> (pr_Voters p)) (pr_OptType p) (pr_Options p) (pr_MajorOption p).
Definition del_voter (k : bytes) (p : GovProposal) : GovProposal :=
  mkProposal (pr_TxHash p) (pr_StartVotingHeight p) (pr_EndVotingHeight p) (pr_ApplyingHeight p) (pr_TotalVotingPower p)
    (pr_MajorityPower p) (delete k (pr_Voters p)) (pr_OptType p) (pr_Options p) (pr_MajorOption p).
Definition set_options (l : list voteOption) (p : GovProposal) : GovProposal :=
  mkProposal (pr_TxHash p) (pr_StartVotingHeight p) (pr_EndVotingHeight p) (pr_ApplyingHeight p) (pr_TotalVotingPower p)
    (pr_MajorityPower p) (pr_Voters p) (pr_OptType p) l (pr_MajorOption p).
Definition set_total (t : Z) (p : GovProposal) : GovProposal :=
  mkProposal (pr_TxHash p) (pr_StartVotingHeight p) (pr_EndVotingHeight p) (pr_ApplyingHeight p) t
    (majority t) (pr_Voters p) (pr_OptType p) (pr_Options p) (pr_MajorOption p).
Definition set_major (o : option voteOption) (p : GovProposal) : GovProposal :=
  mkProposal (pr_TxHash p) (pr_StartVotingHeight p) (pr_EndVotingHeight p) (pr_ApplyingHeight p) (pr_TotalVotingPower p)
    (pr_MajorityPower p) (pr_Voters p) (pr_OptType p) (pr_Options p) o.

Definition IsVoter (addr : bytes) (p : GovProposal) : bool := bool_decide (is_Some (pr_Voters p !! HexBytes_String addr)).
Definition SumVotingPowers (p : GovProposal) : Z := i64 (sumZ (fun kv : bytes * Voter => vt_Power kv.2) (map_to_list (pr_Voters p))).

(** ** Voting *)

(** An option counts or loses the power of a voter. *)
Definition change_option (choice : Z) (f : voteOption -> voteOption) (p : GovProposal) : outcome GovProposal :=
  match pr_Options p !! Z.to_nat choice with
  | None => Panic
  | Some o => Ret (set_options (<[Z.to_nat choice := f o]> (pr_Options p)) p)
  end.

(** The voter is an object in the map under the key [k]. *)
Definition cancelVote (k : bytes) (voter : Voter) (p : GovProposal) : outcome (Voter * GovProposal) :=
  if 0 <=? vt_Choice voter then
    match change_option (vt_Choice voter) (option_CancelVote (vt_Power voter)) p with
    | Ret p' => let v' := mkVoter (vt_Addr voter) (vt_Power voter) (-1) in Ret (v', set_voter k v' p')
    | Err e => Err e
    | Panic => Panic
    end
  else Ret (voter, p).

Definition doVote (k : bytes) (voter : Voter) (choice : Z) (p : GovProposal) : outcome GovProposal :=
  if 0 <=? choice then
    match change_option choice (option_DoVote (vt_Power voter)) p with
    | Ret p' => Ret (set_voter k (mkVoter (vt_Addr voter) (vt_Power voter) choice) p')
    | Err e => Err e
    | Panic => Panic
    end
  else Ret p.

Definition DoVote (addr : bytes) (choice : Z) (p : GovProposal) : outcome GovProposal :=
  let k := HexBytes_String addr in
  match pr_Voters p !! k with
  | None => Err (NewOrdinary "not found voter")
  | Some voter =>
      match cancelVote k voter p with
      | Ret (voter', p') => doVote k voter' choice p'
      | Err e => Err e
      | Panic => Panic
      end
  end.

(** The power a punished voter loses. *)
Definition slashing_power (power ratio : Z) : Z := i64 (u64 (u256 (u64 power * u64 ratio) / 100)).

(** The slashed power and the proposal afterwards. *)
Definition DoPunish (addr : bytes) (ratio : Z) (p : GovProposal) : outcome (Z * GovProposal) :=
  let k := HexBytes_String addr in
  match pr_Voters p !! k with
  | None => Err ErrNotFoundVoter
  | Some voter =>
      let choice := vt_Choice voter in
      match cancelVote k voter p with
      | Ret (voter1, p1) =>
          let slashingPower := slashing_power (vt_Power voter1) ratio in
          let voter2 := mkVoter (vt_Addr voter1) (i64 (vt_Power voter1 - slashingPower)) (vt_Choice voter1) in
          let p2 := set_voter k voter2 p1 in
          match (if vt_Power voter2 <=? 0 then Ret (del_voter k p2)
                 else if 0 <=? choice then doVote k voter2 choice p2 else Ret p2) with
          | Ret p3 => Ret (slashingPower, set_total (i64 (pr_TotalVotingPower p3 - slashingPower)) p3)
          | Err e => Err e
          | Panic => Panic
          end
      | Err e => Err e
      | Panic => Panic
      end
  end.

(** The options sorted by votes; the first is major if it has enough of them. *)
Definition updateMajorOption (p : GovProposal) : outcome (option voteOption * GovProposal) :=
  let opts := sort_Sort powerOrderLess (pr_Options p) in
  let p1 := set_options opts p in
  match opts with
  | [] => Panic
  | o :: _ =>
      let p2 := if pr_MajorityPower p1 <=? vo_votes o then set_major (Some o) p1 else p1 in
      Ret (pr_MajorOption p2, p2)
  end.

Definition isMajor (o : voteOption) (p : GovProposal) : bool := pr_MajorityPower p <=? vo_votes o.

(** ** Ledger item *)
Definition GovProposal_Key (p : GovProposal) : bytes := Array32 (pr_TxHash p).

Section ProposalItem.
Context {CP : Codec GovProposal}.

Definition GovProposal_Encode (p : GovProposal) : outcome bytes :=
  match codec_Marshal p with inl msg => Err (NewOrdinary msg) | inr bz => Ret bz end.
Definition GovProposal_Decode (bz : bytes) : outcome GovProposal :=
  match codec_Unmarshal bz with inl msg => Err (NewOrdinary msg) | inr p => Ret p end.

#[export] Instance proposal_item : ILedgerItem GovProposal :=
  {| Key := GovProposal_Key; Encode := GovProposal_Encode; Decode := GovProposal_Decode |}.
End ProposalItem.
