(* ===== verification/ProposalProps.v ===== *)
(** * Theorems about proposals

    The votes of an option are always the power of the voters that chose it,
    through votes, changes of mind and punishments; the major option is the one
    with the most votes, and it is unique. *)

From Stdlib Require Import Strings.Byte.
From S2P Require Import Prelude Xerrors GoSem Bytes Ledger LedgerSpec Concrete GovParams Proposal.

(** ** Sums over the voters *)
Definition msum (f : Voter -> Z) (m : gmap bytes Voter) : Z := sumZ (fun kv : bytes * Voter => f kv.2) (map_to_list m).

Lemma msum_empty f : msum f ∅ = 0.
Proof. unfold msum. by rewrite map_to_list_empty. Qed.

Lemma msum_insert_new f m k v : m !! k = None -> msum f (<[k := v]> m) = f v + msum f m.
Proof. intros H. unfold msum. by rewrite (sumZ_perm _ _ _ (map_to_list_insert m k v H)). Qed.

Lemma msum_delete f m k v : m !! k = Some v -> msum f (delete k m) = msum f m - f v.
Proof.
  intros H. rewrite <- (insert_delete_id m k v H) at 2.
  rewrite msum_insert_new by apply lookup_delete_eq. lia.
Qed.

Lemma msum_insert f m k v v0 : m !! k = Some v0 -> msum f (<[k := v]> m) = msum f m - f v0 + f v.
Proof.
  intros H. rewrite <- insert_delete_eq, msum_insert_new by apply lookup_delete_eq.
  rewrite (msum_delete f m k v0) by done. lia.
Qed.

Lemma msum_le f g m : (forall k v, m !! k = Some v -> f v <= g v) -> msum f m <= msum g m.
Proof.
  intros H. unfold msum. assert (Hl : forall kv, kv ∈ map_to_list m -> f kv.2 <= g kv.2).
  { intros [k v] Hkv%elem_of_map_to_list. by apply (H k). }
  induction (map_to_list m) as [|kv l IH]; [by rewrite !sumZ_nil|]. rewrite !sumZ_cons.
  assert (f kv.2 <= g kv.2) by (apply Hl; by left).
  assert (sumZ (fun kv => f kv.2) l <= sumZ (fun kv => g kv.2) l) by (apply IH; intros; apply Hl; by right). lia.
Qed.

Lemma msum_nonneg f m : (forall k v, m !! k = Some v -> 0 <= f v) -> 0 <= msum f m.
Proof.
  intros H. apply sumZ_nonneg. intros [k v] Hkv%elem_of_map_to_list. by apply (H k).
Qed.

Lemma msum_add f g m : msum f m + msum g m = msum (fun v => f v + g v) m.
Proof. unfold msum. induction (map_to_list m) as [|kv l IH]; [by rewrite !sumZ_nil|]. rewrite !sumZ_cons. lia. Qed.

(** ** The invariant *)

(** What voter [v] gives to option [i]. *)
Definition gives (i : nat) (v : Voter) : Z := if vt_Choice v =? Z.of_nat i then vt_Power v else 0.

Definition counted (opts : list voteOption) (m : gmap bytes Voter) : Prop :=
  forall i o, opts !! i = Some o -> vo_votes o = msum (gives i) m.

Record proposal_wf (p : GovProposal) : Prop := {
  pw_voters : forall k v, pr_Voters p !! k = Some v -> 0 < vt_Power v /\ -1 <= vt_Choice v < Z.of_nat (length (pr_Options p));
  pw_counted : counted (pr_Options p) (pr_Voters p);
  pw_total : pr_TotalVotingPower p = msum vt_Power (pr_Voters p);
  pw_bound : pr_TotalVotingPower p < 2 ^ 61;
  pw_major : pr_MajorityPower p = pr_TotalVotingPower p * 2 / 3;
}.

Lemma gives_bound i v : 0 < vt_Power v -> 0 <= gives i v <= vt_Power v.
Proof. unfold gives. case_match; lia. Qed.

Lemma tally_bound p i : proposal_wf p -> 0 <= msum (gives i) (pr_Voters p) <= pr_TotalVotingPower p.
Proof.
  intros Hp. rewrite (pw_total p Hp). split.
  - apply msum_nonneg. intros k v Hv. apply gives_bound. by apply (pw_voters p Hp k).
  - apply msum_le. intros k v Hv. apply gives_bound. by apply (pw_voters p Hp k).
Qed.

Lemma power_bound p k v : proposal_wf p -> pr_Voters p !! k = Some v -> 0 < vt_Power v <= pr_TotalVotingPower p.
Proof.
  intros Hp Hv. split; [by apply (pw_voters p Hp k)|]. rewrite (pw_total p Hp).
  pose proof (msum_delete vt_Power _ _ _ Hv) as Hd.
  assert (0 <= msum vt_Power (delete k (pr_Voters p))); [|lia].
  apply msum_nonneg. intros k' v' [_ Hv']%lookup_delete_Some. apply Z.lt_le_incl. by apply (pw_voters p Hp k').
Qed.

Lemma majority_exact t : 0 <= t < 2 ^ 61 -> majority t = t * 2 / 3.
Proof.
  intros Ht. unfold majority. rewrite (i64_id (t * 2)) by (unfold is_i64; lia).
  rewrite Z.quot_div_nonneg by lia. apply i64_id. unfold is_i64.
  assert (0 <= t * 2 / 3 <= t * 2) by (split; [apply Z.div_pos; lia|apply Z.div_le_upper_bound; lia]). lia.
Qed.

(** ** One voter changes *)

(** The options after the voter at [k] changes from [v0] to [v]. *)
Definition recount (opts : list voteOption) (v0 v : Voter) : list voteOption :=
  imap (fun i o => mkOption (vo_option o) (vo_votes o - gives i v0 + gives i v)) opts.
Arguments recount : simpl never.

Lemma recount_counted opts m k v0 v : m !! k = Some v0 -> counted opts m -> counted (recount opts v0 v) (<[k := v]> m).
Proof.
  intros Hk Hc i o. unfold recount. rewrite list_lookup_imap. destruct (opts !! i) as [o0|] eqn:Ho; [|done].
  cbn. intros [= <-]. cbn. rewrite (Hc i o0 Ho), (msum_insert _ _ _ _ v0) by done. lia.
Qed.

Lemma recount_length opts v0 v : length (recount opts v0 v) = length opts.
Proof. apply length_imap. Qed.

(** An update of one option is a recount. *)
Lemma recount_insert opts c o f v0 v :
  opts !! c = Some o -> vo_option (f o) = vo_option o ->
  vo_votes (f o) = vo_votes o - gives c v0 + gives c v -> (forall i, i <> c -> gives i v0 = gives i v) ->
  <[c := f o]> opts = recount opts v0 v.
Proof.
  intros Ho Ht Hv Hne. apply list_eq. intros i. unfold recount. rewrite list_lookup_imap.
  destruct (decide (i = c)) as [->|Hi].
  - rewrite list_lookup_insert_eq by (by apply lookup_lt_Some in Ho). rewrite Ho. cbn. f_equal.
    destruct (f o) as [t n]. cbn in *. by subst.
  - rewrite list_lookup_insert_ne by done. destruct (opts !! i) as [o'|]; [|done]. cbn. f_equal. rewrite (Hne i Hi).
    destruct o' as [t n]. cbn. f_equal. lia.
Qed.

Lemma recount_id opts v0 v : (forall i, gives i v0 = gives i v) -> recount opts v0 v = opts.
Proof.
  intros H. apply list_eq. intros i. unfold recount. rewrite list_lookup_imap. destruct (opts !! i) as [[t n]|]; [|done].
  cbn. rewrite H. do 2 f_equal. lia.
Qed.

Lemma recount_trans opts v0 v1 v2 : recount (recount opts v0 v1) v1 v2 = recount opts v0 v2.
Proof.
  apply list_eq. intros i. unfold recount. rewrite !list_lookup_imap. destruct (opts !! i) as [[t n]|]; [|done].
  cbn. do 2 f_equal. lia.
Qed.

(** The proposal after the voter at [k] becomes [v]. *)
Definition revote (k : bytes) (v0 v : Voter) (p : GovProposal) : GovProposal :=
  set_options (recount (pr_Options p) v0 v) (set_voter k v p).

Lemma revote_wf k v0 v p :
  proposal_wf p -> pr_Voters p !! k = Some v0 -> vt_Power v = vt_Power v0 -> -1 <= vt_Choice v < Z.of_nat (length (pr_Options p)) ->
  proposal_wf (revote k v0 v p).
Proof.
  intros Hp Hk Hpow Hc. constructor; cbn.
  - intros k' v'. rewrite recount_length, lookup_insert. case_decide; [|apply (pw_voters p Hp)].
    intros [= <-]. split; [|done]. rewrite Hpow. by apply (pw_voters p Hp k).
  - apply recount_counted; [done|apply (pw_counted p Hp)].
  - rewrite (msum_insert _ _ _ _ v0) by done. rewrite (pw_total p Hp), Hpow. lia.
  - apply (pw_bound p Hp).
  - apply (pw_major p Hp).
Qed.

Lemma votes_range p i o : proposal_wf p -> pr_Options p !! i = Some o -> 0 <= vo_votes o <= pr_TotalVotingPower p.
Proof. intros Hp Ho. rewrite (pw_counted p Hp i o Ho). by apply tally_bound. Qed.

Lemma gives_ne i v c : vt_Choice v = Z.of_nat c -> i <> c -> gives i v = 0.
Proof. intros Hc Hi. unfold gives. case_match; lia. Qed.
Lemma gives_eq v c : vt_Choice v = Z.of_nat c -> gives c v = vt_Power v.
Proof. intros Hc. unfold gives. case_match; lia. Qed.
Lemma gives_none i v : vt_Choice v = -1 -> gives i v = 0.
Proof. intros Hc. unfold gives. rewrite Hc. destruct (-1 =? Z.of_nat i) eqn:E; [|done]. apply Z.eqb_eq in E. lia. Qed.

Definition no_choice (v : Voter) : Voter := mkVoter (vt_Addr v) (vt_Power v) (-1).

Lemma cancel_spec k v0 p :
  proposal_wf p -> pr_Voters p !! k = Some v0 ->
  cancelVote k v0 p = Ret (no_choice v0, revote k v0 (no_choice v0) p) /\ proposal_wf (revote k v0 (no_choice v0) p).
Proof.
  intros Hp Hk. pose proof (pw_voters p Hp k v0 Hk) as [Hpow Hch]. pose proof (power_bound p k v0 Hp Hk) as Hpb.
  pose proof (pw_bound p Hp) as Hb. split; [|apply revote_wf; try done; cbn; lia].
  unfold cancelVote. destruct (0 <=? vt_Choice v0) eqn:E.
  - unfold change_option. destruct (lookup_lt_is_Some_2 (pr_Options p) (Z.to_nat (vt_Choice v0))) as [o Ho]; [lia|].
    rewrite Ho. fold (no_choice v0). do 2 f_equal. unfold revote, set_options, set_voter; cbn. f_equal.
    pose proof (votes_range p _ o Hp Ho) as Hr.
    assert (Hc : vt_Choice v0 = Z.of_nat (Z.to_nat (vt_Choice v0))) by lia.
    assert (Hge : vt_Power v0 <= vo_votes o).
    { rewrite (pw_counted p Hp _ o Ho). pose proof (msum_delete (gives (Z.to_nat (vt_Choice v0))) _ _ _ Hk) as Hd.
      rewrite (gives_eq v0) in Hd by done.
      assert (0 <= msum (gives (Z.to_nat (vt_Choice v0))) (delete k (pr_Voters p))); [|lia].
      apply msum_nonneg. intros k' v' [_ Hv']%lookup_delete_Some. apply gives_bound. by apply (pw_voters p Hp k'). }
    apply recount_insert; [done|done| |].
    + rewrite (gives_eq v0) by done. rewrite (gives_none _ (no_choice v0)) by done. cbn. rewrite i64_id by (unfold is_i64; lia). lia.
    + intros i Hi. rewrite (gives_none _ (no_choice v0)) by done. by rewrite (gives_ne i v0 (Z.to_nat (vt_Choice v0))).
  - assert (vt_Choice v0 = -1) as Hm by lia. assert (no_choice v0 = v0) as Hv by (destruct v0; cbn in *; by subst).
    rewrite Hv. do 2 f_equal. unfold revote. rewrite recount_id by done. unfold set_options, set_voter.
    rewrite insert_id by done. by destruct p.
Qed.

Definition with_choice (c : Z) (v : Voter) : Voter := mkVoter (vt_Addr v) (vt_Power v) c.

Lemma do_vote_run k v c p :
  vt_Choice v = -1 -> 0 <= c < Z.of_nat (length (pr_Options p)) ->
  (forall o, pr_Options p !! Z.to_nat c = Some o -> is_i64 (vo_votes o + vt_Power v)) ->
  doVote k v c p = Ret (revote k v (with_choice c v) p).
Proof.
  intros Hv Hc Hi. unfold doVote. destruct (0 <=? c) eqn:E; [|lia]. unfold change_option.
  destruct (lookup_lt_is_Some_2 (pr_Options p) (Z.to_nat c)) as [o Ho]; [lia|]. rewrite Ho. f_equal.
  unfold revote, set_options, set_voter; cbn. fold (with_choice c v). f_equal.
  assert (Hcc : vt_Choice (with_choice c v) = Z.of_nat (Z.to_nat c)) by (cbn; lia).
  apply recount_insert; [done|done| |].
  - rewrite (gives_eq (with_choice c v)) by done. rewrite (gives_none _ v) by done. cbn. rewrite i64_id by (by apply Hi). lia.
  - intros i Hne. rewrite (gives_none _ v) by done. by rewrite (gives_ne i (with_choice c v) (Z.to_nat c)).
Qed.

Lemma revote_revote k v0 v1 v2 p : revote k v1 v2 (revote k v0 v1 p) = revote k v0 v2 p.
Proof. unfold revote, set_options, set_voter; cbn. by rewrite recount_trans, insert_insert_eq. Qed.

Lemma revote_voter k v0 v p : pr_Voters (revote k v0 v p) !! k = Some v.
Proof. cbn. apply lookup_insert_eq. Qed.

Lemma DoVote_spec addr c p v0 :
  proposal_wf p -> pr_Voters p !! HexBytes_String addr = Some v0 -> 0 <= c < Z.of_nat (length (pr_Options p)) ->
  DoVote addr c p = Ret (revote (HexBytes_String addr) v0 (with_choice c v0) p) /\
  proposal_wf (revote (HexBytes_String addr) v0 (with_choice c v0) p).
Proof.
  intros Hp Hk Hc. set (k := HexBytes_String addr) in *. destruct (cancel_spec k v0 p Hp Hk) as [Hcan Hw].
  split; [|apply revote_wf; try done; cbn; lia].
  unfold DoVote. fold k. rewrite Hk, Hcan. rewrite do_vote_run; [by rewrite revote_revote|done| |].
  - cbn. by rewrite recount_length.
  - intros o Ho. pose proof (votes_range _ _ o Hw Ho) as Hr. pose proof (power_bound p k v0 Hp Hk) as Hpb.
    pose proof (pw_bound p Hp) as Hb. cbn in *. unfold is_i64. lia.
Qed.

(** ** Punishment *)
Lemma slashing_exact power ratio :
  0 < power < 2 ^ 61 -> 0 <= ratio <= 100 -> slashing_power power ratio = power * ratio / 100 /\ 0 <= power * ratio / 100 <= power.
Proof.
  intros Hp Hr. assert (Hb : 0 <= power * ratio / 100 <= power).
  { split; [apply Z.div_pos; lia|apply Z.div_le_upper_bound; nia]. }
  split; [|done]. unfold slashing_power. rewrite (u64_id power), (u64_id ratio) by (unfold is_u64; lia).
  rewrite u256_id by (unfold is_u256; nia). rewrite u64_id by (unfold is_u64; lia). apply i64_id. unfold is_i64. lia.
Qed.

Definition slash_voter (s : Z) (v : Voter) : Voter := mkVoter (vt_Addr v) (vt_Power v - s) (vt_Choice v).

(** The proposal after the voter [v0] at [k] lost [s]. *)
Definition punished (k : bytes) (v0 : Voter) (s : Z) (p : GovProposal) : GovProposal :=
  set_total (pr_TotalVotingPower p - s)
    (if vt_Power v0 - s <=? 0 then del_voter k (revote k v0 (no_choice v0) p) else revote k v0 (slash_voter s v0) p).

Lemma punished_wf k v0 s p :
  proposal_wf p -> pr_Voters p !! k = Some v0 -> 0 <= s <= vt_Power v0 -> proposal_wf (punished k v0 s p).
Proof.
  intros Hp Hk Hs. pose proof (pw_voters p Hp k v0 Hk) as [Hpow Hch]. pose proof (power_bound p k v0 Hp Hk) as Hpb.
  pose proof (pw_bound p Hp) as Hb. unfold punished. destruct (vt_Power v0 - s <=? 0) eqn:E.
  - assert (vt_Power v0 = s) as Hz by lia. constructor; cbn.
    + intros k' v'. rewrite recount_length, delete_insert_eq. intros [_ Hv']%lookup_delete_Some. by apply (pw_voters p Hp k').
    + intros i o Ho. rewrite (recount_counted _ _ k v0 (no_choice v0) Hk (pw_counted p Hp) i o Ho).
      rewrite (msum_delete _ _ k (no_choice v0)) by apply lookup_insert_eq. rewrite (gives_none i (no_choice v0)) by done. lia.
    + rewrite delete_insert_eq, (msum_delete _ _ k v0) by done. rewrite (pw_total p Hp). lia.
    + lia.
    + apply majority_exact. lia.
  - constructor; cbn.
    + intros k' v'. rewrite recount_length, lookup_insert. case_decide; [|apply (pw_voters p Hp)].
      intros [= <-]. cbn. lia.
    + apply recount_counted; [done|apply (pw_counted p Hp)].
    + rewrite (msum_insert _ _ _ _ v0) by done. rewrite (pw_total p Hp). cbn. lia.
    + lia.
    + apply majority_exact. lia.
Qed.

Lemma DoPunish_spec addr ratio p v0 :
  proposal_wf p -> pr_Voters p !! HexBytes_String addr = Some v0 -> 0 <= ratio <= 100 ->
  let s := vt_Power v0 * ratio / 100 in
  DoPunish addr ratio p = Ret (s, punished (HexBytes_String addr) v0 s p) /\ 0 <= s <= vt_Power v0.
Proof.
  intros Hp Hk Hr s. set (k := HexBytes_String addr) in *. destruct (cancel_spec k v0 p Hp Hk) as [Hcan Hw].
  pose proof (pw_voters p Hp k v0 Hk) as [Hpow Hch]. pose proof (power_bound p k v0 Hp Hk) as Hpb.
  pose proof (pw_bound p Hp) as Hb. destruct (slashing_exact (vt_Power v0) ratio ltac:(lia) Hr) as [Hs Hsb].
  fold s in Hs, Hsb. split; [|done]. unfold DoPunish. fold k. rewrite Hk, Hcan. cbn [no_choice vt_Power vt_Addr vt_Choice].
  rewrite Hs, (i64_id (vt_Power v0 - s)) by (unfold is_i64; lia). unfold punished.
  destruct (vt_Power v0 - s <=? 0) eqn:E.
  - do 2 f_equal. unfold revote, del_voter, set_total, set_voter, set_options; cbn.
    rewrite (i64_id (pr_TotalVotingPower p - s)) by (unfold is_i64; lia). by rewrite !delete_insert_eq.
  - set (v2 := mkVoter (vt_Addr v0) (vt_Power v0 - s) (-1)). set (p2 := set_voter k v2 (revote k v0 (no_choice v0) p)).
    assert (Hgoal : forall p3, pr_TotalVotingPower p3 = pr_TotalVotingPower p ->
              (set_total (pr_TotalVotingPower p - s) p3) = set_total (i64 (pr_TotalVotingPower p3 - s)) p3).
    { intros p3 ->. by rewrite i64_id by (unfold is_i64; lia). }
    destruct (0 <=? vt_Choice v0) eqn:Ec.
    + rewrite do_vote_run; [|done|cbn; rewrite recount_length; lia|].
      * rewrite (Hgoal (revote k v0 (slash_voter s v0) p)) by done. cbn [pr_TotalVotingPower revote set_options set_voter].
        do 3 f_equal. unfold revote, p2, set_options, set_voter; cbn. rewrite !insert_insert_eq.
        replace (slash_voter s v0) with (with_choice (vt_Choice v0) v2) by done. f_equal.
        rewrite <- (recount_trans _ v0 (no_choice v0) (with_choice _ v2)). apply list_eq. intros i. unfold recount.
        rewrite !list_lookup_imap. destruct (pr_Options p !! i) as [o|]; [|done]. cbn.
        by rewrite (gives_none i v2), (gives_none i (no_choice v0)).
      * intros o Ho. pose proof (votes_range _ _ o Hw Ho) as Hv. cbn in *. unfold is_i64. lia.
    + assert (Hm : vt_Choice v0 = -1) by lia. rewrite (Hgoal (revote k v0 (slash_voter s v0) p)) by done. do 3 f_equal.
      unfold revote, p2, set_options, set_voter; cbn. rewrite insert_insert_eq.
      assert (Hv2 : slash_voter s v0 = v2) by (unfold slash_voter, v2; by rewrite Hm). rewrite Hv2. f_equal.
      rewrite !recount_id; [done| |]; intros i; rewrite !gives_none by done; done.
Qed.

(** ** Histories of a proposal *)
Inductive gop : Type :=
  | GVote (addr : list Byte.byte) (choice : Z)
  | GPunish (addr : list Byte.byte) (ratio : Z).

(** The calls as the controller makes them: an error changes nothing. *)
Definition run_gop (o : gop) (p : GovProposal) : outcome GovProposal :=
  match o with
  | GVote addr choice => match DoVote addr choice p with Err _ => Ret p | r => r end
  | GPunish addr ratio => match DoPunish addr ratio p with Ret (_, p') => Ret p' | Err _ => Ret p | Panic => Panic end
  end.
Fixpoint run_gops (os : list gop) (p : GovProposal) : outcome GovProposal :=
  match os with
  | [] => Ret p
  | o :: os' => match run_gop o p with Ret p' => run_gops os' p' | Err e => Err e | Panic => Panic end
  end.

(** The specification: what a history does to the voters alone. *)
Definition voters_gop (o : gop) (m : gmap bytes Voter) : gmap bytes Voter :=
  match o with
  | GVote addr choice => alter (with_choice choice) (HexBytes_String addr) m
  | GPunish addr ratio =>
      partial_alter (fun v => v0 ← v; let s := vt_Power v0 * ratio / 100 in
                              if vt_Power v0 - s <=? 0 then None else Some (slash_voter s v0)) (HexBytes_String addr) m
  end.

(** Choices and ratios that [ValidateTrx] and the parameters let through. *)
Definition gop_ok (n : nat) (o : gop) : Prop :=
  match o with GVote _ c => 0 <= c < Z.of_nat n | GPunish _ r => 0 <= r <= 100 end.

Lemma revote_texts k v0 v p : map vo_option (pr_Options (revote k v0 v p)) = map vo_option (pr_Options p).
Proof.
  cbn. apply list_eq. intros i. rewrite !list_lookup_fmap. unfold recount. rewrite list_lookup_imap.
  by destruct (pr_Options p !! i).
Qed.

Lemma run_gop_spec o p :
  proposal_wf p -> gop_ok (length (pr_Options p)) o ->
  exists p', run_gop o p = Ret p' /\ proposal_wf p' /\ pr_Voters p' = voters_gop o (pr_Voters p) /\
             map vo_option (pr_Options p') = map vo_option (pr_Options p).
Proof.
  intros Hp Ho. destruct o as [addr c|addr r]; cbn in Ho |- *; destruct (pr_Voters p !! HexBytes_String addr) as [v0|] eqn:Hk.
  - destruct (DoVote_spec addr c p v0 Hp Hk Ho) as [-> Hw]. eexists. split_and!; [done|done| |apply revote_texts].
    cbn. unfold alter, map_alter. apply map_eq. intros k. rewrite lookup_insert, lookup_partial_alter.
    case_decide as Hd; [|done]. subst k. by rewrite Hk.
  - unfold DoVote. rewrite Hk. exists p. split_and!; try done.
    apply map_eq. intros k. unfold alter, map_alter. rewrite lookup_partial_alter. case_decide; [|done]. subst k. by rewrite Hk.
  - destruct (DoPunish_spec addr r p v0 Hp Hk Ho) as [-> Hs]. eexists. split_and!; [done|by apply punished_wf| |].
    + unfold punished. destruct (vt_Power v0 - vt_Power v0 * r / 100 <=? 0) eqn:E; cbn; apply map_eq; intros k;
        rewrite lookup_partial_alter; case_decide as Hd; subst; rewrite ?Hk; cbn; rewrite ?E, ?delete_insert_eq.
      * apply lookup_delete_eq.
      * by rewrite lookup_delete_ne.
      * apply lookup_insert_eq.
      * by rewrite lookup_insert_ne.
    + unfold punished. destruct (vt_Power v0 - _ <=? 0); apply revote_texts.
  - unfold DoPunish. rewrite Hk. exists p. split_and!; try done.
    apply map_eq. intros k. rewrite lookup_partial_alter. case_decide; [|done]. subst k. by rewrite Hk.
Qed.

Lemma run_gops_spec os p :
  proposal_wf p -> Forall (gop_ok (length (pr_Options p))) os ->
  exists p', run_gops os p = Ret p' /\ proposal_wf p' /\ pr_Voters p' = foldl (fun m o => voters_gop o m) (pr_Voters p) os /\
             map vo_option (pr_Options p') = map vo_option (pr_Options p).
Proof.
  revert p. induction os as [|o os IH]; intros p Hp Hos; [by exists p|]. inversion Hos as [|? ? Ho Hos']; subst.
  destruct (run_gop_spec o p Hp Ho) as (p1 & Hrun & Hw & Hv & Ht). cbn [run_gops]. rewrite Hrun.
  assert (Hlen : length (pr_Options p1) = length (pr_Options p)).
  { rewrite <- (length_map vo_option), Ht. apply length_map. }
  destruct (IH p1 Hw) as (p' & Hrun' & Hw' & Hv' & Ht'); [by rewrite Hlen|].
  exists p'. split_and!; [done|done|by rewrite Hv', Hv|congruence].
Qed.

(** The voters of a new proposal: nobody has voted, and the total is theirs. *)
Record electorate (total : Z) (m : gmap bytes Voter) : Prop := {
  el_voters : forall k v, m !! k = Some v -> 0 < vt_Power v /\ vt_Choice v = NOT_CHOICE;
  el_total : total = msum vt_Power m;
  el_bound : total < 2 ^ 61;
}.

Lemma new_proposal_wf txhash ty start blocks total applying m opts :
  electorate total m -> proposal_wf (NewGovProposal txhash ty start blocks total applying m opts).
Proof.
  intros [Hv Ht Hb]. assert (0 <= total). { rewrite Ht. apply msum_nonneg. intros k v H. destruct (Hv k v H). lia. }
  constructor; cbn.
  - intros k v H1. destruct (Hv k v H1) as [? Hc]. unfold NOT_CHOICE in Hc. lia.
  - intros i o. unfold NewVoteOptions. rewrite list_lookup_fmap. destruct (opts !! i); [|done]. intros [= <-]. cbn. symmetry.
    assert (msum (gives i) m <= msum (fun _ => 0) m); [|assert (0 <= msum (gives i) m)].
    + apply msum_le. intros k v H1. destruct (Hv k v H1) as [_ Hc]. by rewrite gives_none.
    + apply msum_nonneg. intros k v H1. destruct (Hv k v H1) as [_ Hc]. by rewrite gives_none.
    + assert (msum (fun _ => 0) m = 0); [|lia]. unfold msum. induction (map_to_list m) as [|? ? IH]; [done|]. by rewrite sumZ_cons, IH.
  - done.
  - done.
  - by apply majority_exact.
Qed.

(** C11: the tally.  However voters vote, change their minds and are punished,
    no call panics, every option of the proposal counts exactly the present
    power of the voters whose last choice it is, the total is the power of the
    remaining voters, and the majority is two thirds of it, rounded down. *)
Theorem proposal_tally txhash ty start blocks total applying m opts (os : list gop) :
  electorate total m -> Forall (gop_ok (length opts)) os ->
  exists p, run_gops os (NewGovProposal txhash ty start blocks total applying m opts) = Ret p /\
    pr_Voters p = foldl (fun m o => voters_gop o m) m os /\
    map vo_option (pr_Options p) = opts /\
    (forall i o, pr_Options p !! i = Some o -> vo_votes o = msum (gives i) (pr_Voters p)) /\
    pr_TotalVotingPower p = msum vt_Power (pr_Voters p) /\
    pr_MajorityPower p = pr_TotalVotingPower p * 2 / 3.
Proof.
  intros He Hos. set (p0 := NewGovProposal txhash ty start blocks total applying m opts).
  destruct (run_gops_spec os p0 (new_proposal_wf _ _ _ _ _ _ _ _ He)) as (p & Hrun & Hw & Hv & Ht).
  { cbn. unfold NewVoteOptions. by rewrite length_map. }
  exists p. split_and!; [done|done| |apply (pw_counted p Hw)|apply (pw_total p Hw)|apply (pw_major p Hw)].
  rewrite Ht. cbn. unfold NewVoteOptions. rewrite map_map. apply map_id.
Qed.

(** ** The major option *)
Lemma powerOrderLess_sorted l : StronglySorted (not_less powerOrderLess) (sort_Sort powerOrderLess l).
Proof. apply sort_sorted; unfold not_less, powerOrderLess; intros *; lia. Qed.

Lemma two_options_share p i j oi oj :
  proposal_wf p -> i <> j -> pr_Options p !! i = Some oi -> pr_Options p !! j = Some oj ->
  vo_votes oi + vo_votes oj <= pr_TotalVotingPower p.
Proof.
  intros Hp Hne Hi Hj. rewrite (pw_counted p Hp i oi Hi), (pw_counted p Hp j oj Hj), msum_add, (pw_total p Hp).
  apply msum_le. intros k v Hv. pose proof (pw_voters p Hp k v Hv) as [Hpow _]. unfold gives.
  destruct (vt_Choice v =? Z.of_nat i) eqn:E1; destruct (vt_Choice v =? Z.of_nat j) eqn:E2; lia.
Qed.

(** The major option.  For a proposal with options and a total power of at
    least five, [updateMajorOption] chooses an option exactly when some option
    has the majority; the chosen option has the majority, no other option has
    it or as many votes, and its share is at least two thirds of the total up
    to rounding. *)
Theorem major_option_spec (p : GovProposal) :
  proposal_wf p -> pr_Options p <> [] -> pr_MajorOption p = None -> 5 <= pr_TotalVotingPower p ->
  exists r p', updateMajorOption p = Ret (r, p') /\ pr_MajorOption p' = r /\ pr_Options p' ≡ₚ pr_Options p /\
    match r with
    | None => forall o, o ∈ pr_Options p -> vo_votes o < pr_MajorityPower p
    | Some o => exists i, pr_Options p !! i = Some o /\ pr_MajorityPower p <= vo_votes o /\
                  2 * pr_TotalVotingPower p - 2 <= 3 * vo_votes o /\
                  forall j o', j <> i -> pr_Options p !! j = Some o' -> vo_votes o' < pr_MajorityPower p /\ vo_votes o' < vo_votes o
    end.
Proof.
  intros Hp Hne Hnone Hbig. unfold updateMajorOption. pose proof (sort_perm powerOrderLess (pr_Options p)) as Hperm.
  pose proof (powerOrderLess_sorted (pr_Options p)) as Hs.
  destruct (sort_Sort powerOrderLess (pr_Options p)) as [|o l] eqn:El.
  { apply Permutation_nil in Hperm. done. }
  pose proof (pw_major p Hp) as Hm. cbn [pr_MajorityPower set_options].
  assert (Hmax : forall o', o' ∈ pr_Options p -> vo_votes o' <= vo_votes o).
  { intros o'. rewrite <- Hperm. intros [->|Hin]%elem_of_cons; [done|]. inversion Hs as [|? ? _ Hall]; subst.
    rewrite list.Forall_forall in Hall. specialize (Hall o' Hin). unfold not_less, powerOrderLess in Hall. lia. }
  destruct (pr_MajorityPower p <=? vo_votes o) eqn:E; cbn zeta iota.
  - eexists _, _. split; [reflexivity|]. cbn [pr_MajorOption set_major pr_Options set_options].
    split_and!; [done|done|]. assert (Hin : o ∈ pr_Options p) by (rewrite <- Hperm; by left).
    apply list_elem_of_lookup in Hin as [i Hi]. exists i. assert (Hmaj : pr_MajorityPower p <= vo_votes o) by lia.
    split_and!; [done|done|rewrite Hm in Hmaj; Z.div_mod_to_equations; lia|].
    intros j o' Hj Ho'. pose proof (two_options_share p j i o' o Hp Hj Ho' Hi) as Hsum.
    assert (pr_TotalVotingPower p < 2 * pr_MajorityPower p) by (rewrite Hm; Z.div_mod_to_equations; lia). lia.
  - eexists _, _. split; [reflexivity|]. cbn [pr_MajorOption pr_Options set_options]. rewrite Hnone.
    split_and!; [done|done|]. intros o' Ho'. specialize (Hmax o' Ho'). lia.
Qed.

(** ** Witnesses *)
Definition voterA : bytes := replicate 20 Byte.x0a.
Definition voterB : bytes := replicate 20 Byte.x0b.
Definition voters0 : gmap bytes Voter :=
  <[HexBytes_String voterA := mkVoter voterA 60 NOT_CHOICE]> (<[HexBytes_String voterB := mkVoter voterB 40 NOT_CHOICE]> ∅).
Definition history0 : list gop := [GVote voterA 0; GVote voterB 1; GVote voterB 0; GPunish voterA 50].
Definition opts0 : list (list Byte.byte) := [[Byte.x01]; [Byte.x02]].

Lemma electorate0 : electorate 100 voters0.
Proof.
  constructor; [|reflexivity|lia]. intros k v. unfold voters0. rewrite !lookup_insert, lookup_empty.
  repeat case_decide; intros [= <-]; cbn; (split; [lia|done]).
Qed.

Lemma history0_ok : Forall (gop_ok (length opts0)) history0.
Proof. repeat constructor; cbn; lia. Qed.

Lemma proposal_tally_witness :
  exists p, run_gops history0 (NewGovProposal [] 0 1 10 100 20 voters0 opts0) = Ret p /\ pr_TotalVotingPower p = 70.
Proof.
  destruct (proposal_tally [] 0 1 10 100 20 voters0 opts0 history0 electorate0 history0_ok) as (p & H1 & H2 & _ & _ & H3 & _).
  exists p. split; [exact H1|]. rewrite H3, H2. reflexivity.
Defined.

Lemma major_option_spec_witness :
  exists r p', updateMajorOption (NewGovProposal [] 0 1 10 100 20 voters0 opts0) = Ret (r, p') /\ pr_MajorOption p' = r.
Proof.
  destruct (major_option_spec (NewGovProposal [] 0 1 10 100 20 voters0 opts0)) as (r & p' & H1 & H2 & _);
    [apply new_proposal_wf, electorate0|done|done|cbn; lia|]. exists r, p'. split; assumption.
Defined.
