(* ===== verification/Orders.v ===== *)
(** * The orders given to [sort.Sort]

    Eight types of the program implement [sort.Interface].  Go promises a sorted
    permutation and nothing about elements that are equal in the order; the
    theorem says for which of them this fixes the result, so that every node
    computes the same validators and the same trees whatever algorithm its
    library uses. *)

From Stdlib Require Import Strings.Byte.
From S2P Require Import Prelude Xerrors GoSem Bytes Ledger Account Stake StakeLimiter ValidatorProps Proposal ProposalProps.

(** [sort.Interface] on a slice: an index out of range panics. *)
Record sort_Interface (A : Type) : Type := mkSort {
  Len : list A -> Z;
  Less : Z -> Z -> list A -> outcome bool;
  Swap : Z -> Z -> GoM (list A) unit;
}.
Arguments mkSort {A} _ _ _.
Arguments Len {A} _ _.
Arguments Less {A} _ _ _ _.
Arguments Swap {A} _ _ _ _.

Definition at_index {A} (i : Z) (l : list A) : outcome A :=
  if i <? 0 then Panic else match l !! Z.to_nat i with Some x => Ret x | None => Panic end.

(** [len(s)], a comparison of [s[i]] and [s[j]], and [s[i], s[j] = s[j], s[i]] *)
Definition slice_Len {A} (l : list A) : Z := Z.of_nat (length l).
Definition slice_Less {A} (less : A -> A -> bool) (i j : Z) (l : list A) : outcome bool :=
  match at_index i l, at_index j l with
  | Ret x, Ret y => Ret (less x y)
  | _, _ => Panic
  end.
Definition slice_Swap {A} (i j : Z) : GoM (list A) unit := fun l =>
  match at_index i l, at_index j l with
  | Ret x, Ret y => (Ret tt, <[Z.to_nat j := x]> (<[Z.to_nat i := y]> l))
  | _, _ => (Panic, l)
  end.

Definition LedgerKeyList : sort_Interface (list Byte.byte) := mkSort slice_Len (slice_Less LedgerKeyLess) slice_Swap.
Definition AcctKeyList : sort_Interface (list Byte.byte) := mkSort slice_Len (slice_Less AcctKeyLess) slice_Swap.
Definition startHeightOrder : sort_Interface Stake := mkSort slice_Len (slice_Less startHeightLess) slice_Swap.
Definition refundHeightOrder : sort_Interface Stake := mkSort slice_Len (slice_Less refundHeightLess) slice_Swap.
Definition PowerOrderDelegatees : sort_Interface Delegatee := mkSort slice_Len (slice_Less PowerOrderLess) slice_Swap.
Definition AddressOrderDelegatees : sort_Interface Delegatee := mkSort slice_Len (slice_Less AddressOrderLess) slice_Swap.
Definition orderedPowerObj : sort_Interface powerObj := mkSort slice_Len (slice_Less powerObjLess) slice_Swap.
Definition powerOrderVoteOptions : sort_Interface voteOption := mkSort slice_Len (slice_Less powerOrderLess) slice_Swap.

(** ** A program that sorts through the interface *)

(** The moves a sorting algorithm can make: it compares and swaps. *)
Inductive sort_run {A} (si : sort_Interface A) : list A -> list A -> Prop :=
  | sort_done l : sort_run si l l
  | sort_swap i j l l1 l2 : Swap si i j l = (Ret tt, l1) -> sort_run si l1 l2 -> sort_run si l l2.

(** [sort.Sort] promises that it ends with no element less than one before it. *)
Definition in_order {A} (si : sort_Interface A) (l : list A) : Prop :=
  forall i j, 0 <= i < j -> j < Len si l -> Less si j i l = Ret false.
Definition sort_result {A} (si : sort_Interface A) (l l' : list A) : Prop := sort_run si l l' /\ in_order si l'.

Lemma at_index_lookup {A} i (l : list A) x : at_index i l = Ret x <-> 0 <= i /\ l !! Z.to_nat i = Some x.
Proof.
  unfold at_index. destruct (i <? 0) eqn:E; [split; [done|lia]|]. destruct (l !! Z.to_nat i); split; [intros [= ->]; split; [lia|done]|intros [_ [= ->]]; done|done|by intros []].
Qed.

Lemma swap_perm {A} i j (l l' : list A) : slice_Swap i j l = (Ret tt, l') -> l' ≡ₚ l.
Proof.
  unfold slice_Swap. destruct (at_index i l) as [x|?|] eqn:Ex; [|done..]. destruct (at_index j l) as [y|?|] eqn:Ey; [|done..]. intros [= <-].
  apply at_index_lookup in Ex as [_ Hx]. apply at_index_lookup in Ey as [_ Hy].
  by apply Permutation_insert_swap.
Qed.

Section Generic.
Context {A : Type} (less : A -> A -> bool).
Abbreviation si := (mkSort slice_Len (slice_Less less) slice_Swap).

Lemma run_perm l l' : sort_run si l l' -> l' ≡ₚ l.
Proof. induction 1 as [|i j l l1 l2 Hs _ IH]; [done|]. cbn in Hs. apply swap_perm in Hs. by rewrite IH. Qed.

Lemma in_order_sorted l : in_order si l -> StronglySorted (not_less less) l.
Proof.
  unfold in_order. cbn [Len Less]. unfold slice_Len. intros Ho. assert (Hp : forall (i j : nat) x y, l !! i = Some x -> l !! j = Some y -> (i < j)%nat -> not_less less x y).
  { intros i j x y Hx Hy Hij. pose proof (lookup_lt_Some _ _ _ Hy) as Hj. specialize (Ho (Z.of_nat i) (Z.of_nat j) ltac:(lia) ltac:(lia)).
    unfold slice_Less in Ho. assert (Ex : at_index (Z.of_nat i) l = Ret x) by (apply at_index_lookup; rewrite Nat2Z.id; split; [lia|done]).
    assert (Ey : at_index (Z.of_nat j) l = Ret y) by (apply at_index_lookup; rewrite Nat2Z.id; split; [lia|done]). rewrite Ex, Ey in Ho. by injection Ho. }
  clear Ho. induction l as [|x l IH]; [constructor|]. constructor.
  - apply IH. intros i j a b Ha Hb Hij. exact (Hp (S i) (S j) a b Ha Hb ltac:(lia)).
  - apply list.Forall_forall. intros y Hy. apply list_elem_of_lookup in Hy as [j Hj]. exact (Hp 0%nat (S j) x y eq_refl Hj ltac:(lia)).
Qed.

(** When the order separates the elements, the promise fixes the result. *)
Lemma result_unique l l' :
  (forall x y, less x y = true -> less y x = false) -> (forall x y z, not_less less x y -> not_less less y z -> not_less less x z) ->
  (forall x y, x ∈ l -> y ∈ l -> not_less less x y -> not_less less y x -> x = y) ->
  sort_result si l l' -> l' = sort_Sort less l.
Proof. intros Ha Ht Hs [Hrun Hord]. apply sort_unique; [done..|by apply run_perm|by apply in_order_sorted]. Qed.
End Generic.

(** C35: sorting is the same on every node.  Whatever algorithm [sort.Sort] uses,
    as long as it only compares and swaps and ends in order, it gives the result
    that the model computes: for delegatees by power or by address when their
    addresses differ, and for the powers of the limiter and the keys of a ledger
    and of accounts always. *)
Theorem sort_results_unique :
  (forall l l', NoDup (map dg_Addr l) -> sort_result PowerOrderDelegatees l l' -> l' = sort_Sort PowerOrderLess l) /\
  (forall l l', NoDup (map dg_Addr l) -> sort_result AddressOrderDelegatees l l' -> l' = sort_Sort AddressOrderLess l) /\
  (forall l l', sort_result orderedPowerObj l l' -> l' = sort_Sort powerObjLess l) /\
  (forall l l', sort_result LedgerKeyList l l' -> l' = sort_Sort LedgerKeyLess l) /\
  (forall l l', sort_result AcctKeyList l l' -> l' = sort_Sort AcctKeyLess l).
Proof.
  split_and!; intros l l'.
  - intros Hnd. apply result_unique; [apply PowerOrderLess_asym|apply PowerOrderLess_negtrans|].
    intros x y Hx Hy H1 H2. eapply same_addr_same; [done..|]. by apply PowerOrderLess_antisym.
  - intros Hnd. apply result_unique; [intros; by apply bytes_ltb_asym|intros x y z H1 H2; by eapply bytes_ltb_negtrans|].
    intros x y Hx Hy H1 H2. eapply same_addr_same; [done..|]. by apply bytes_ltb_total.
  - apply result_unique; [apply powerObjLess_asym|apply powerObjLess_negtrans|]. intros [] [] _ _ H1 H2.
    destruct (powerObjLess_antisym _ _ H1 H2) as [Hp Ha]. cbn in Hp, Ha. by subst.
  - apply result_unique; [intros; by apply bytes_ltb_asym|intros x y z H1 H2; by eapply bytes_ltb_negtrans|intros x y _ _ H1 H2; by apply bytes_ltb_total].
  - apply result_unique; [intros; by apply bytes_ltb_asym|intros x y z H1 H2; by eapply bytes_ltb_negtrans|intros x y _ _ H1 H2; by apply bytes_ltb_total].
Qed.

(** The options of a proposal have no such order: with equal votes there are two
    results, and the order of the options is written to the ledger. *)
Lemma options_two_results :
  let o1 := mkOption [Byte.x01] 5 in let o2 := mkOption [Byte.x02] 5 in
  sort_result powerOrderVoteOptions [o1; o2] [o1; o2] /\ sort_result powerOrderVoteOptions [o1; o2] [o2; o1].
Proof.
  intros o1 o2. assert (Hin : forall a b, vo_votes a = vo_votes b -> in_order powerOrderVoteOptions [a; b]).
  { intros a b He i j Hi Hj. change (Len powerOrderVoteOptions [a; b]) with 2 in Hj. assert (i = 0) as -> by lia. assert (j = 1) as -> by lia.
    change (Ret (vo_votes a <? vo_votes b) = Ret false). by rewrite He, Z.ltb_irrefl. }
  split; (split; [|by apply Hin]); [constructor|]. apply (sort_swap _ 0 1 _ [o2; o1]); [done|constructor].
Qed.

Definition ordA : Delegatee := NewDelegatee [Byte.x01] [].
Definition ordB : Delegatee := NewDelegatee [Byte.x02] [].
Lemma sort_results_unique_witness : [ordB; ordA] = sort_Sort PowerOrderLess [ordA; ordB] /\ sort_result PowerOrderDelegatees [ordA; ordB] [ordB; ordA].
Proof.
  assert (Hr : sort_result PowerOrderDelegatees [ordA; ordB] [ordB; ordA]).
  { split; [apply (sort_swap _ 0 1 _ [ordB; ordA]); [reflexivity|constructor]|]. intros i j Hi Hj. change (Len PowerOrderDelegatees [ordB; ordA]) with 2 in Hj.
    assert (i = 0) as -> by lia. assert (j = 1) as -> by lia. reflexivity. }
  split; [|exact Hr]. apply (proj1 sort_results_unique); [|exact Hr].
  apply list.NoDup_cons. split; [intros H; apply list_elem_of_singleton in H; discriminate|apply NoDup_singleton].
Defined.
