(* ===== verification/Accessors.v ===== *)
(** * Readers of the objects

    The exported methods through which the components read each other's objects:
    parameters, accounts, blocks, proposals, delegatees, rewards and payloads.
    A reader that returns a number returns a new one, so the caller cannot change
    the object; one that returns a slice or a pointer shares it.  The interfaces
    [IGovHandler] and [IDelegatee] of [ctrlers/types/handlers.go] are classes,
    with the implementations as instances. *)

From Stdlib Require Import Strings.Byte.
From S2P Require Import Prelude Xerrors GoSem Bytes Slice Ledger GovParams Account Trx Context Stake StakeProps StakeLimiter StakeCtrler ValidatorProps Proposal ProposalProps.

(** ** Parameters: [ctrlers/types/gov_params.go] *)
Module Params.
Definition Version (r : GovParams) : Z := version r.
Definition MaxValidatorCnt (r : GovParams) : Z := maxValidatorCnt r.
Definition MinValidatorStake (r : GovParams) : option Z := minValidatorStake r.
Definition LazyRewardBlocks (r : GovParams) : Z := lazyRewardBlocks r.
Definition LazyApplyingBlocks (r : GovParams) : Z := lazyApplyingBlocks r.
Definition MinTrxGas (r : GovParams) : Z := minTrxGas r.
Definition MaxTrxGas (r : GovParams) : Z := maxTrxGas r.
Definition MaxBlockGas (r : GovParams) : Z := maxBlockGas r.
Definition MinVotingPeriodBlocks (r : GovParams) : Z := minVotingPeriodBlocks r.
Definition MaxVotingPeriodBlocks (r : GovParams) : Z := maxVotingPeriodBlocks r.
Definition MinSelfStakeRatio (r : GovParams) : Z := minSelfStakeRatio r.
Definition MaxUpdatableStakeRatio (r : GovParams) : Z := maxUpdatableStakeRatio r.
Definition MaxIndividualStakeRatio (r : GovParams) : Z := maxIndividualStakeRatio r.
Definition SlashRatio (r : GovParams) : Z := slashRatio r.
Definition SignedBlocksWindow (r : GovParams) : Z := signedBlocksWindow r.
Definition MinSignedBlocks (r : GovParams) : Z := minSignedBlocks r.

Section Print.
Context {CGJ : Codec GovParamsJSON} {D : DecCodec}.
(** [String]: the text of the error when the parameters cannot be written;
    [indent] is the layout of [json.MarshalIndent]. *)
Definition GovParams_String (indent : list Byte.byte -> list Byte.byte) (r : GovParams) : string :=
  match GovParams_MarshalJSON r with
  | inl err => err
  | inr bz => String.string_of_list_byte (indent bz)
  end.
End Print.

(** Tendermint's [MaxTotalVotingPower], [math.MaxInt64 / 8]. *)
Definition MaxTotalPower : Z := (2 ^ 63 - 1) / 8.
Definition AmountPerPower : Z := amountPerPower.

Definition Test4GovParams : GovParams := {|
  version := 4; maxValidatorCnt := 13; minValidatorStake := Some 7000000000000000000000000; minDelegatorStake := Some 0;
  rewardPerPower := Some 4756468797; lazyRewardBlocks := 20; lazyApplyingBlocks := 259200; gasPrice := Some 10000000000;
  minTrxGas := 100000; maxTrxGas := MaxUint64; maxBlockGas := MaxUint64; minVotingPeriodBlocks := 259200; maxVotingPeriodBlocks := 2592000;
  minSelfStakeRatio := 50; maxUpdatableStakeRatio := 10; maxIndividualStakeRatio := 10; slashRatio := 50; signedBlocksWindow := 10000; minSignedBlocks := 500;
|}.
Definition Test6GovParams_NoStakeLimiter : GovParams := {|
  version := 2; maxValidatorCnt := 10; minValidatorStake := Some 5000000000000000000; minDelegatorStake := Some 0;
  rewardPerPower := Some 2000000000; lazyRewardBlocks := 30; lazyApplyingBlocks := 40; gasPrice := Some 20;
  minTrxGas := 20; maxTrxGas := MaxUint64; maxBlockGas := MaxUint64; minVotingPeriodBlocks := 50; maxVotingPeriodBlocks := 60;
  minSelfStakeRatio := 50; maxUpdatableStakeRatio := 100; maxIndividualStakeRatio := 10000000; slashRatio := 50; signedBlocksWindow := 10000; minSignedBlocks := 5;
|}.
End Params.

(** [IGovHandler]: what the other components may ask of the parameters. *)
Class IGovHandler (G : Type) := {
  gh_Version : G -> Z;
  gh_MaxValidatorCnt : G -> Z;
  gh_MinValidatorStake : G -> option Z;
  gh_MinDelegatorStake : G -> Z;
  gh_RewardPerPower : G -> outcome Z;
  gh_LazyRewardBlocks : G -> Z;
  gh_LazyApplyingBlocks : G -> Z;
  gh_GasPrice : G -> outcome Z;
  gh_MinTrxGas : G -> Z;
  gh_MinTrxFee : G -> outcome Z;
  gh_MaxTrxGas : G -> Z;
  gh_MaxTrxFee : G -> outcome Z;
  gh_MaxBlockGas : G -> Z;
  gh_MinVotingPeriodBlocks : G -> Z;
  gh_MaxVotingPeriodBlocks : G -> Z;
  gh_MinSelfStakeRatio : G -> Z;
  gh_MaxUpdatableStakeRatio : G -> Z;
  gh_MaxIndividualStakeRatio : G -> Z;
  gh_SlashRatio : G -> Z;
  gh_SignedBlocksWindow : G -> Z;
  gh_MinSignedBlocks : G -> Z;
}.
#[export] Instance GovParams_handler : IGovHandler GovParams := {|
  gh_Version := Params.Version;
  gh_MaxValidatorCnt := Params.MaxValidatorCnt;
  gh_MinValidatorStake := Params.MinValidatorStake;
  gh_MinDelegatorStake := GovParams.MinDelegatorStake;
  gh_RewardPerPower := GovParams.RewardPerPower;
  gh_LazyRewardBlocks := Params.LazyRewardBlocks;
  gh_LazyApplyingBlocks := Params.LazyApplyingBlocks;
  gh_GasPrice := GovParams.GasPrice;
  gh_MinTrxGas := Params.MinTrxGas;
  gh_MinTrxFee := GovParams.MinTrxFee;
  gh_MaxTrxGas := Params.MaxTrxGas;
  gh_MaxTrxFee := GovParams.MaxTrxFee;
  gh_MaxBlockGas := Params.MaxBlockGas;
  gh_MinVotingPeriodBlocks := Params.MinVotingPeriodBlocks;
  gh_MaxVotingPeriodBlocks := Params.MaxVotingPeriodBlocks;
  gh_MinSelfStakeRatio := Params.MinSelfStakeRatio;
  gh_MaxUpdatableStakeRatio := Params.MaxUpdatableStakeRatio;
  gh_MaxIndividualStakeRatio := Params.MaxIndividualStakeRatio;
  gh_SlashRatio := Params.SlashRatio;
  gh_SignedBlocksWindow := Params.SignedBlocksWindow;
  gh_MinSignedBlocks := Params.MinSignedBlocks;
|}.

(** A fee between the bounds is the fee of a gas between the bounds: the two ways
    in which the parameters state the limits of a transaction agree. *)
Lemma fee_bounds_agree (r : GovParams) p gas :
  gasPrice r = Some p -> 0 < p -> 0 <= minTrxGas r -> 0 <= gas -> gas <= gh_MaxTrxGas r -> maxTrxGas r * p < 2 ^ 256 ->
  exists lo hi, gh_MinTrxFee r = Ret lo /\ gh_MaxTrxFee r = Ret hi /\ (gh_MinTrxGas r <= gas -> lo <= GasToFee gas p) /\ GasToFee gas p <= hi.
Proof.
  intros Hp Hpos Hmin Hgas Hmax Hb. cbn [gh_MinTrxFee gh_MaxTrxFee gh_MinTrxGas gh_MaxTrxGas GovParams_handler] in *. unfold GovParams.MinTrxFee, GovParams.MaxTrxFee. rewrite Hp.
  unfold Params.MaxTrxGas, Params.MinTrxGas in *. eexists _, _. split; [done|]. split; [done|]. unfold GasToFee, u256, wrap_u.
  rewrite (Z.mod_small (gas * p)) by nia. rewrite (Z.mod_small (maxTrxGas r * p)) by nia. split; [|nia]. intros Hlo. rewrite Z.mod_small by nia. nia.
Qed.

(** ** Accounts: [ctrlers/types/account.go] *)
Module Accounts.
Definition GetAddress (a : Account) : list Byte.byte := Address a.
Definition GetName (a : Account) : string := Name a.
Definition GetDocURL (a : Account) : string := DocURL a.
Definition GetNonce (a : Account) : Z := Nonce a.
Definition GetBalance (a : Account) : Z := Balance a.
Definition GetCode (a : Account) : option (list Byte.byte) := Code_ a.
Definition ACCT_COMMON_TYPE : Z := 1.
Definition Account_Type (a : Account) : Z := ACCT_COMMON_TYPE.

(** [AcctKey]: twenty bytes; the random ones are an argument. *)
Definition RandAddrKey (RandBytes : Z -> list Byte.byte) : list Byte.byte := to_array 20 (RandBytes 20).
Definition AcctKey_MarshalText (ak : list Byte.byte) : list Byte.byte := hex_EncodeToString ak.
Definition AcctKey_Address (ak : list Byte.byte) : list Byte.byte := to_array 20 ak.
Definition AcctKey_String (ak : list Byte.byte) : list Byte.byte := hex_EncodeToString ak.

(** An address survives its form as a key. *)
Lemma acct_key_roundtrip addr : length addr = 20%nat -> exists ak, ToAcctKey addr = Ret ak /\ AcctKey_Address ak = addr.
Proof.
  intros Hl. unfold AcctKey_Address, ToAcctKey. rewrite Hl. cbn [Nat.ltb Nat.leb]. eexists. split; [reflexivity|]. rewrite firstn_all2 by lia.
  assert (H : to_array 20 addr = addr); [|by rewrite !H].
  unfold to_array. rewrite firstn_all2 by lia. rewrite Hl. cbn. by rewrite app_nil_r.
Qed.
End Accounts.

(** ** Payloads without content, and the types of the others *)
Module Payloads.
Definition Trx_GetType (tx : Trx) : Z := tx_Type tx.

Definition AssetTransfer_Type : Z := TRX_TRANSFER.
Definition AssetTransfer_Equal (q : option ITrxPayload) : bool := true.
Definition AssetTransfer_Decode (bz : list Byte.byte) : outcome unit := Ret tt.
Definition AssetTransfer_Encode : outcome (list Byte.byte) := Ret [].
Definition AssetTransfer_EncodeRLP (w : list Byte.byte) : outcome (list Byte.byte) := Ret w.
Definition AssetTransfer_DecodeRLP : outcome unit := Ret tt.

Definition Staking_Type : Z := TRX_STAKING.
Definition Staking_Equal (q : option ITrxPayload) : bool := true.
Definition Staking_Decode (bz : list Byte.byte) : outcome unit := Ret tt.
Definition Staking_Encode : outcome (list Byte.byte) := Ret [].
(** Nothing is written: the payload has no RLP item of its own. *)
Definition Staking_EncodeRLP (w : list Byte.byte) : outcome (list Byte.byte) := Ret w.
Definition Staking_DecodeRLP : outcome unit := Ret tt.

Definition Unstaking_Type : Z := TRX_UNSTAKING.
Definition Withdraw_Type : Z := TRX_WITHDRAW.
Definition Proposal_Type : Z := TRX_PROPOSAL.
Definition Voting_Type : Z := TRX_VOTING.
Definition Contract_Type : Z := TRX_CONTRACT.
Definition SetDoc_Type : Z := TRX_SETDOC.

Definition GetOptionCount (p : TrxPayloadProposal) : Z := Z.of_nat (length (pp_Options p)).
(** Beyond the end there is no option; a negative index panics. *)
Definition GetOption (i : Z) (p : TrxPayloadProposal) : outcome (option (list Byte.byte)) :=
  if Z.of_nat (length (pp_Options p)) <=? i then Ret None
  else if i <? 0 then Panic
  else Ret (pp_Options p !! Z.to_nat i).

Lemma get_option_total p i : 0 <= i -> GetOption i p = Ret (pp_Options p !! Z.to_nat i).
Proof.
  intros Hi. unfold GetOption. destruct (Z.of_nat (length (pp_Options p)) <=? i) eqn:E.
  - rewrite lookup_ge_None_2; [done|lia].
  - by rewrite (proj2 (Z.ltb_ge i 0)) by lia.
Qed.
End Payloads.

(** ** Blocks: [ctrlers/types/block_ctx.go] *)
Module Blocks.
Definition BlockInfo (b : BlockContext) : RequestBeginBlock := bc_blockInfo b.
Definition AppHash (b : BlockContext) : list Byte.byte := bc_appHash b.
Definition TxsCnt (b : BlockContext) : Z := bc_txsCnt b.
Definition GetValUpdates (b : BlockContext) : list ValidatorUpdate := bc_ValUpdates b.
End Blocks.

(** ** Delegatees and stakes: [ctrlers/stake/] *)
Module Delegatees.
Definition GetAddress (d : Delegatee) : list Byte.byte := dg_Addr d.
Definition GetAllStakes (d : Delegatee) : list Stake := dg_Stakes d.
(** As above: nil beyond the end, a panic before the beginning. *)
Definition getStake (idx : Z) (d : Delegatee) : outcome (option Stake) :=
  if Z.of_nat (length (dg_Stakes d)) <=? idx then Ret None
  else if idx <? 0 then Panic
  else Ret (dg_Stakes d !! Z.to_nat idx).
Definition GetStake (idx : Z) (d : Delegatee) : outcome (option Stake) := getStake idx d.
Definition StakesLen (d : Delegatee) : Z := Z.of_nat (length (dg_Stakes d)).
Definition GetSelfPower (d : Delegatee) : Z := dg_SelfPower d.
Definition GetTotalPower (d : Delegatee) : Z := dg_TotalPower d.
Definition SumPower (d : Delegatee) : Z := sumPowerOf None (dg_Stakes d).
Definition SumPowerOf (addr : option (list Byte.byte)) (d : Delegatee) : Z := sumPowerOf addr (dg_Stakes d).

(** [DelegateeArray.Find] *)
Fixpoint find_from (i : Z) (addr : list Byte.byte) (ds : list Delegatee) : Z * option Delegatee :=
  match ds with
  | [] => (-1, None)
  | d :: ds' => if Compare addr (dg_Addr d) =? 0 then (i, Some d) else find_from (i + 1) addr ds'
  end.
Definition Find (addr : list Byte.byte) (ds : list Delegatee) : Z * option Delegatee := find_from 0 addr ds.

Section Print.
Context {CD : Codec Delegatee} {CS : Codec Stake}.
(** [String]; the JSON form is that of the ledger. *)
Definition Delegatee_String (indent : list Byte.byte -> list Byte.byte) (d : Delegatee) : string :=
  match codec_Marshal d with inl err => ("{error: " ++ err ++ "}")%string | inr bz => String.string_of_list_byte (indent bz) end.
Definition Stake_String (indent : list Byte.byte -> list Byte.byte) (s : Stake) : string :=
  match codec_Marshal s with inl err => ("{error: " ++ err ++ "}")%string | inr bz => String.string_of_list_byte (indent bz) end.
End Print.

(** What a delegatee says about its powers is what its stakes add up to. *)
Class IDelegatee (T : Type) := { id_GetAddress : T -> list Byte.byte; id_GetTotalPower : T -> Z; id_GetSelfPower : T -> Z }.
#[export] Instance Delegatee_reader : IDelegatee Delegatee := {| id_GetAddress := GetAddress; id_GetTotalPower := GetTotalPower; id_GetSelfPower := GetSelfPower |}.

Lemma delegatee_find_spec addr ds :
  match Find addr ds with
  | (i, Some d) => 0 <= i /\ ds !! Z.to_nat i = Some d /\ dg_Addr d = addr /\ forall j x, (j < Z.to_nat i)%nat -> ds !! j = Some x -> dg_Addr x <> addr
  | (i, None) => i = -1 /\ forall d, d ∈ ds -> dg_Addr d <> addr
  end.
Proof.
  assert (Hgen : forall ds i, 0 <= i -> match find_from i addr ds with
    | (j, Some d) => i <= j /\ ds !! Z.to_nat (j - i) = Some d /\ dg_Addr d = addr /\ forall k x, (k < Z.to_nat (j - i))%nat -> ds !! k = Some x -> dg_Addr x <> addr
    | (j, None) => j = -1 /\ forall d, d ∈ ds -> dg_Addr d <> addr end).
  { clear ds. induction ds as [|d ds IH]; intros i Hi; cbn [find_from]; [split; [done|]; intros d Hd; by apply not_elem_of_nil in Hd|].
    destruct (Compare addr (dg_Addr d) =? 0) eqn:E.
    - apply Z.eqb_eq, compare_eq in E. subst addr. replace (i - i) with 0 by lia. split_and!; [lia|done|done|]. intros k x Hk. cbn in Hk. lia.
    - assert (Hne : addr <> dg_Addr d) by (intros ->; by rewrite (proj2 (compare_eq _ _) eq_refl) in E). specialize (IH (i + 1) ltac:(lia)). destruct (find_from (i + 1) addr ds) as [j [x|]].
      + destruct IH as (Hij & Hx & Ha & Hall). assert (Hs : Z.to_nat (j - i) = S (Z.to_nat (j - (i + 1)))) by lia. rewrite Hs. split_and!; [lia|done|done|].
        intros k y Hk Hy. destruct k as [|k]; [injection Hy as <-; congruence|]. apply (Hall k y); [lia|done].
      + destruct IH as [-> Hall]. split; [done|]. intros y Hy. apply elem_of_cons in Hy as [->|Hy]; [congruence|by apply Hall]. }
  specialize (Hgen ds 0 ltac:(lia)). unfold Find. destruct (find_from 0 addr ds) as [j [x|]]; [|done]. by rewrite Z.sub_0_r in Hgen.
Qed.

(** [Stake.Clone] over slices: [append(s, nil...)] returns its argument, so the
    clone of a stake shares the bytes of its addresses and of its hash. *)
Record StakeMem : Type := mkStakeMem { sm_From : slice; sm_To : slice; sm_TxHash : slice; sm_StartHeight : Z; sm_RefundHeight : Z; sm_Power : Z }.
Definition Stake_Clone (s : StakeMem) : GoM mem StakeMem :=
  let! from := sappend (sm_From s) [] in
  let! to := sappend (sm_To s) [] in
  let! txhash := sappend (sm_TxHash s) [] in
  retM (mkStakeMem from to txhash (sm_StartHeight s) (sm_RefundHeight s) (sm_Power s)).

Lemma append_nil_shares s m : slice_ok m s -> exists m', sappend s [] m = (Ret s, m') /\ (forall p, array m' p = array m p) /\ (forall t, slice_ok m t -> slice_ok m' t).
Proof.
  intros Hs. destruct (slice_ok_array m s Hs) as [Ha Hl]. unfold sappend. cbn [length]. rewrite (proj2 (Nat.leb_le _ _)) by lia.
  unfold bindM, swrite, modifyM. rewrite Nat.add_0_r. cbn. eexists. split; [by destruct s|].
  rewrite Nat.add_0_r, take_drop. split.
  - intros p. rewrite array_store. case_decide; [by subst|done].
  - intros t (a & Ht & Hlt). unfold slice_ok, heap_store. cbn [objs]. destruct (decide (s_base t = s_base s)) as [E|E].
    + exists a. rewrite E, lookup_insert_eq. rewrite E in Ht. split; [|done]. congruence.
    + exists a. by rewrite lookup_insert_ne.
Qed.

Lemma stake_clone_shares s m : slice_ok m (sm_From s) -> slice_ok m (sm_To s) -> slice_ok m (sm_TxHash s) -> exists m', Stake_Clone s m = (Ret s, m').
Proof.
  intros H1 H2 H3. destruct (append_nil_shares _ _ H1) as (m1 & R1 & _ & K1). destruct (append_nil_shares _ _ (K1 _ H2)) as (m2 & R2 & _ & K2).
  destruct (append_nil_shares _ _ (K2 _ (K1 _ H3))) as (m3 & R3 & _). exists m3. unfold Stake_Clone.
  rewrite (bindM_step _ _ _ _ _ R1), (bindM_step _ _ _ _ _ R2), (bindM_step _ _ _ _ _ R3). by destruct s.
Qed.
End Delegatees.

(** ** Rewards: [ctrlers/stake/reward.go] *)
Module Rewards.
Definition Reward_Address (r : Reward_) : list Byte.byte := rw_address r.
Definition GetIssued (r : Reward_) : Z := rw_issued r.
Definition GetWithdrawn (r : Reward_) : Z := rw_withdrawn r.
Definition GetSlashed (r : Reward_) : Z := rw_slashed r.
Definition GetCumulated (r : Reward_) : Z := rw_cumulated r.
Definition Reward_Height (r : Reward_) : Z := rw_height r.
End Rewards.

(** ** Proposals: [ctrlers/gov/proposal/] *)
Module Proposals.
Definition GetTxHash (p : GovProposal) : list Byte.byte := pr_TxHash p.
Definition GetStartVotingHeight (p : GovProposal) : Z := pr_StartVotingHeight p.
Definition GetEndVotingHeight (p : GovProposal) : Z := pr_EndVotingHeight p.
Definition GetApplyingHeight (p : GovProposal) : Z := pr_ApplyingHeight p.
Definition GetTotalVotingPower (p : GovProposal) : Z := pr_TotalVotingPower p.
Definition GetMajorityPower (p : GovProposal) : Z := pr_MajorityPower p.
Definition header_IsVoter (addr : list Byte.byte) (p : GovProposal) : bool := bool_decide (is_Some (pr_Voters p !! HexBytes_String addr)).
Definition GetVoter (addr : list Byte.byte) (p : GovProposal) : option Voter := pr_Voters p !! HexBytes_String addr.
Definition GetOptType (p : GovProposal) : Z := pr_OptType p.
Definition UpdateMajorOption (p : GovProposal) : outcome (option voteOption * GovProposal) := updateMajorOption p.

(** [voteOption]: its readers and its JSON form, over the library's [json] of the
    anonymous struct. *)
Definition Votes (o : voteOption) : Z := vo_votes o.
Definition Option_ (o : voteOption) : list Byte.byte := vo_option o.
Section OptionJSON.
Context {CO : Codec (list Byte.byte * Z)}.
Definition option_MarshalJSON (o : voteOption) : string + list Byte.byte := codec_Marshal (vo_option o, vo_votes o).
(** On an error the option keeps its value. *)
Definition option_UnmarshalJSON (bz : list Byte.byte) (o : voteOption) : option string * voteOption :=
  match codec_Unmarshal bz with
  | inl err => (Some err, o)
  | inr tmp => (None, mkOption tmp.1 tmp.2)
  end.
Definition option_Encode (o : voteOption) : outcome (list Byte.byte) :=
  match option_MarshalJSON o with inl err => Err (NewOrdinary err) | inr bz => Ret bz end.
Definition option_Decode (bz : list Byte.byte) : GoM voteOption unit := fun o =>
  match option_UnmarshalJSON bz o with
  | (Some err, o') => (Err (NewOrdinary err), o')
  | (None, o') => (Ret tt, o')
  end.

Lemma option_roundtrip {CL : CodecLaws (list Byte.byte * Z) (fun x => is_i64 x.2)} o bz old : is_i64 (vo_votes o) -> option_Encode o = Ret bz -> option_Decode bz old = (Ret tt, o).
Proof.
  unfold option_Encode, option_MarshalJSON, option_Decode, option_UnmarshalJSON. intros Ho. destruct (codec_Marshal _) as [|b] eqn:E; [done|]. intros [= <-].
  rewrite (codec_roundtrip (vo_option o, vo_votes o) b Ho E). by destruct o.
Qed.
End OptionJSON.
End Proposals.
