(* ===== verification/GovCtrler.v ===== *)
(** * The governance controller: [ctrlers/gov/ctrler.go], [query.go]

    The current parameters, the parameters to take over at the next commit, and
    three ledgers: parameters, proposals under vote, frozen proposals.  The
    stake controller is read through [IStakeHandler].  The JSON library
    ([tendermint/libs/json]) is a parameter that is given the [UnmarshalJSON]
    of the parameters. *)

From Stdlib Require Import Strings.Byte.
From S2P Require Import Prelude Xerrors GoSem Bytes Ledger LedgerSpec Concrete GovParams Account Trx Context.
From S2P Require Import Stake StakeLimiter StakeCtrler Proposal.

(** ** [IStakeHandler] *)
Class IStakeHandler (S : Type) := {
  sh_Validators : S -> list (list Byte.byte * Z) * Z;
  sh_IsValidator : list Byte.byte -> S -> bool;
}.

(** The stake controller is one. *)
#[export] Instance StakeCtrler_handler {Tr} : IStakeHandler (@StakeCtrler Tr) :=
  {| sh_Validators := Validators; sh_IsValidator := IsValidator |}.

(** Events, and query results before they are rendered. *)
Inductive GovEvent : Type :=
  | EvPunishGov (byzantine : list Byte.byte) (type height slashed : Z)
  | EvFrozen (h : list Byte.byte)
  | EvRemoved (h : list Byte.byte)
  | EvApplied (h : list Byte.byte).
Inductive proposal_status : Type := voting | frozen.
Inductive GovQuery : Type :=
  | QProposals (l : list (proposal_status * GovProposal))
  | QProposal (st : proposal_status) (p : GovProposal)
  | QParams (g : GovParams)
  | QNothing.

(** The repair of options that end in a doubled quote:
    [strings.ReplaceAll] of the bytes 22 22 7d by 22 7d, when they are a suffix. *)
Fixpoint replace_quotes (s : bytes) : list Byte.byte :=
  match s with
  | Byte.x22 :: (Byte.x22 :: (Byte.x7d :: r)) => Byte.x22 :: Byte.x7d :: replace_quotes r
  | b :: r => b :: replace_quotes r
  | [] => []
  end.
Definition has_quotes_suffix (s : bytes) : bool :=
  bool_decide (drop (length s - 3) s = [Byte.x22; Byte.x22; Byte.x7d]).
Definition hotfix (s : bytes) : list Byte.byte := if has_quotes_suffix s then replace_quotes s else s.

(** The first error of [f] on a list. *)
Fixpoint first_error {A B} (f : A -> string + B) (l : list A) : option string :=
  match l with
  | [] => None
  | x :: r => match f x with inl e => Some e | inr _ => first_error f r end
  end.

(** The voters of a new proposal are the validators. *)
Definition new_voters (vals : list (list Byte.byte * Z)) : gmap bytes Voter :=
  fold_left (fun m v => <[HexBytes_String v.1 := mkVoter v.1 v.2 NOT_CHOICE]> m) vals ∅.

Section GovCtrler.
Context {Tr S : Type} {Tree : Iavl Tr} {SH : IStakeHandler S}.
Context {CGP : Codec GovParamsProto} {CGJ : Codec GovParamsJSON} {D : DecCodec} {CP : Codec GovProposal}.
Context (tmjson_Unmarshal : (list Byte.byte -> string + GovParams) -> list Byte.byte -> string + GovParams).

Record GovCtrler : Type := mkGovCtrler {
  gc_GovParams : GovParams;
  gc_newGovParams : option GovParams;
  gc_paramsLedger : FinalityLedger GovParams Tr;
  gc_proposalLedger : FinalityLedger GovProposal Tr;
  gc_frozenLedger : FinalityLedger GovProposal Tr;
}.

Definition l_params : lens GovCtrler (FinalityLedger GovParams Tr) :=
  Lens gc_paramsLedger (fun l c => mkGovCtrler (gc_GovParams c) (gc_newGovParams c) l (gc_proposalLedger c) (gc_frozenLedger c)).
Definition l_proposals : lens GovCtrler (FinalityLedger GovProposal Tr) :=
  Lens gc_proposalLedger (fun l c => mkGovCtrler (gc_GovParams c) (gc_newGovParams c) (gc_paramsLedger c) l (gc_frozenLedger c)).
Definition l_gfrozen : lens GovCtrler (FinalityLedger GovProposal Tr) :=
  Lens gc_frozenLedger (fun l c => mkGovCtrler (gc_GovParams c) (gc_newGovParams c) (gc_paramsLedger c) (gc_proposalLedger c) l).
Definition set_params (g : GovParams) (new : option GovParams) (c : GovCtrler) : GovCtrler :=
  mkGovCtrler g new (gc_paramsLedger c) (gc_proposalLedger c) (gc_frozenLedger c).

(** A loop with local variables [b] of the caller. *)
Definition with_locals {B} (b : B) (m : GoM (GovCtrler * B) unit) : GoM GovCtrler B :=
  fun c => match m (c, b) with
           | (Ret _, (c', b')) => (Ret b', c')
           | (Err e, (c', _)) => (Err e, c')
           | (Panic, (c', _)) => (Panic, c')
           end.
Definition add_local {B} (f : B -> B) : GoM (GovCtrler * B) unit := modifyM (fun s => (s.1, f s.2)).
Definition on_ctrler {B C} (m : GoM GovCtrler C) : GoM (GovCtrler * B) C := zoom lens_fst m.

(** [json.Unmarshal(option, &GovParams{})] *)
Definition unmarshal_params (bz : bytes) : string + GovParams := tmjson_Unmarshal GovParams_UnmarshalJSON bz.

(** ** Construction and genesis *)
Definition NewGovCtrler (tparams tprop tfrozen : Tr) : outcome GovCtrler :=
  match (let! o := get_opt Check (ToLedgerKey (ZeroBytes 32)) in load_opt o) (NewFinalityLedger tparams) with
  | (Ret o, L) => Ret (mkGovCtrler (default zeroGovParams o) None L (NewFinalityLedger tprop) (NewFinalityLedger tfrozen))
  | (Err e, _) => Err e
  | (Panic, _) => Panic
  end.

(** The ledger stores a pointer to the parameters of the controller, which are
    next assigned after the ledger has been committed. *)
Definition GovCtrler_InitLedger (req : option GovParams) : GoM GovCtrler unit :=
  match req with
  | None => errM (Wrapf ErrInitChain "wrong parameter: GovCtrler::InitLedger requires *genesis.GenesisAppState")
  | Some g =>
      do! modifyM (fun c => set_params g (gc_newGovParams c) c) in
      ignoreM (zoom l_params (let! p := alloc g in set_on Deliver p))
  end.

(** ** [BeginBlock] *)
Definition is_voter_of (addr : bytes) (p : GovProposal) : bool :=
  existsb (fun kv : bytes * Voter => Compare (vt_Addr kv.2) addr =? 0) (map_to_list (pr_Voters p)).

(** The keys of the committed proposals in which the validator may vote; an
    error of the iteration is ignored. *)
Definition target_keys (addr : bytes) : GoM GovCtrler (list (list Byte.byte)) :=
  with_locals [] (ignoreM (IterateReadAllItems (lens_comp lens_fst l_proposals) (fun p =>
    if is_voter_of addr p then add_local (fun ks => ks ++ [GovProposal_Key p]) else retM tt))).

(** One proposal; a missing one is a nil pointer. *)
Definition punish_proposal (addr : bytes) (slashed : Z) (k : bytes) : GoM GovCtrler Z :=
  let! r := tryM (zoom l_proposals (get_on Deliver k)) in
  match r with
  | inl _ => panicM
  | inr p =>
      let! ratio := getsM (fun c => slashRatio (gc_GovParams c)) in
      let! s := zoom l_proposals
        (let! prop := load p in
         match DoPunish addr ratio prop with
         | Ret (s, prop') => do! store p prop' in retM s
         | Err _ => retM 0
         | Panic => panicM
         end) in
      do! ignoreM (zoom l_proposals (set_on Deliver p)) in
      retM (i64 (slashed + s))
  end.

Definition GovCtrler_doPunish (evi : Evidence) : GoM GovCtrler Z :=
  let! ks := target_keys (ev_Address evi) in
  foldM (punish_proposal (ev_Address evi)) ks 0.

Definition GovCtrler_BeginBlock (bctx : BlockContext) : GoM GovCtrler (list GovEvent) :=
  foldM (fun evts evi =>
      let! r := tryM (GovCtrler_doPunish evi) in
      match r with
      | inl _ => retM evts
      | inr slashed => retM (evts ++ [EvPunishGov (ev_Address evi) (ev_Type evi) (ev_Height evi) slashed])
      end) (bi_ByzantineValidators (bc_blockInfo bctx)) [].

(** ** [ValidateTrx] *)

(** Checks on the heights and options of a proposal, in the order of the code. *)
Definition check_proposal_payload (g : GovParams) (height : Z) (pl : TrxPayloadProposal) : outcome unit :=
  let start := pp_StartVotingHeight pl in
  let period := pp_VotingPeriodBlocks pl in
  if start <=? height then Err ErrInvalidTrxPayloadParams
  else if (maxVotingPeriodBlocks g <? period) || (period <? minVotingPeriodBlocks g) then Err ErrInvalidTrxPayloadParams
  else
    let bad := if pp_OptType pl =? PROPOSAL_GOVPARAMS
               then first_error unmarshal_params (pp_Options pl) else None in
    match bad with
    | Some err => Err (Wrap ErrInvalidTrxPayloadParams (plainerr err))
    | None =>
        let endVotingHeight := i64 (start + period) in
        let minApplyingHeight := i64 (endVotingHeight + lazyApplyingBlocks g) in
        if endVotingHeight <? start then
          Err (Wrapf ErrInvalidTrxPayloadParams "overflow occurs: startHeight:%v, endVotingHeight:%v")
        else if (pp_ApplyingHeight pl <? minApplyingHeight) || (pp_ApplyingHeight pl <? endVotingHeight) then
          Err (Wrapf ErrInvalidTrxPayloadParams "wrong applyingHeight: must be set equal to or higher than minApplyingHeight.")
        else match pp_Options pl with
             | [] => Err (Wrapf ErrInvalidTrxPayloadParams "wrong options: must have at least one value")
             | _ => Ret tt
             end
    end.

Definition validate_proposal (sh : S) (ctx : TrxContext) : GoM GovCtrler unit :=
  let tx := cx_Tx ctx in
  if negb (Compare (tx_To tx) ZeroAddress =? 0) then
    errM (Wrap ErrInvalidTrx (plainerr "wrong address: the 'to' field in TRX_PROPOSAL should be zero address"))
  else if negb (sh_IsValidator (tx_From tx) sh) then errM ErrNoRight
  else match tx_Payload tx with
       | Some (PayloadProposal pl) =>
           let! o := zoom l_proposals (get_opt (side_of (cx_Exec ctx)) (Array32 (cx_TxHash ctx))) in
           match o with
           | Some _ => errM ErrDuplicatedKey
           | None =>
               let! g := getsM gc_GovParams in
               liftO (check_proposal_payload g (cx_Height ctx) pl)
           end
       | _ => errM ErrInvalidTrxPayloadType
       end.

Definition validate_voting (ctx : TrxContext) : GoM GovCtrler unit :=
  let tx := cx_Tx ctx in
  if negb (Compare (tx_To tx) ZeroAddress =? 0) then
    errM (Wrap ErrInvalidTrxPayloadParams (plainerr "wrong address: the 'to' field in TRX_VOTING should be zero address"))
  else match tx_Payload tx with
       | Some (PayloadVoting txhash choice) =>
           let! prop := zoom l_proposals (let! p := get_on (side_of (cx_Exec ctx)) (Array32 txhash) in load p) in
           if negb (IsVoter (tx_From tx) prop) then errM ErrNoRight
           else if (choice <? 0) || (i32 (Z.of_nat (length (pr_Options prop))) <=? choice) then errM ErrInvalidTrxPayloadParams
           else if (pr_EndVotingHeight prop <? cx_Height ctx) || (cx_Height ctx <? pr_StartVotingHeight prop) then errM ErrNotVotingPeriod
           else retM tt
       | _ => errM ErrInvalidTrxPayloadType
       end.

Definition GovCtrler_ValidateTrx (sh : S) (ctx : TrxContext) : GoM GovCtrler unit :=
  let ty := tx_Type (cx_Tx ctx) in
  if ty =? TRX_PROPOSAL then validate_proposal sh ctx
  else if ty =? TRX_VOTING then validate_voting ctx
  else errM ErrUnknownTrxType.

(** ** [ExecuteTrx] *)
Definition execProposing (sh : S) (ctx : TrxContext) : GoM GovCtrler unit :=
  match tx_Payload (cx_Tx ctx) with
  | Some (PayloadProposal pl) =>
      let '(vals, totalVotingPower) := sh_Validators sh in
      let prop := NewGovProposal (cx_TxHash ctx) (pp_OptType pl) (pp_StartVotingHeight pl) (pp_VotingPeriodBlocks pl)
                    totalVotingPower (pp_ApplyingHeight pl) (new_voters vals) (pp_Options pl) in
      zoom l_proposals (let! p := alloc prop in set_on (side_of (cx_Exec ctx)) p)
  | _ => panicM
  end.

Definition execVoting (ctx : TrxContext) : GoM GovCtrler unit :=
  match tx_Payload (cx_Tx ctx) with
  | Some (PayloadVoting txhash choice) =>
      let sd := side_of (cx_Exec ctx) in
      zoom l_proposals
        (let! p := get_on sd (ToLedgerKey txhash) in
         let! prop := load p in
         let! prop' := liftO (DoVote (tx_From (cx_Tx ctx)) choice prop) in
         do! store p prop' in
         set_on sd p)
  | _ => panicM
  end.

Definition GovCtrler_ExecuteTrx (sh : S) (ctx : TrxContext) : GoM GovCtrler unit :=
  let ty := tx_Type (cx_Tx ctx) in
  if ty =? TRX_PROPOSAL then execProposing sh ctx
  else if ty =? TRX_VOTING then execVoting ctx
  else errM ErrUnknownTrxType.

(** ** [EndBlock] *)
Definition freeze_proposal (height : Z) (prop : GovProposal) : GoM (GovCtrler * (list bytes * list bytes)) unit :=
  if pr_EndVotingHeight prop <? height then
    do! on_ctrler (zoom l_proposals (DelFinality (GovProposal_Key prop))) in
    let! r := liftO (updateMajorOption prop) in
    match r with
    | (Some _, prop') =>
        do! on_ctrler (zoom l_gfrozen (let! p := alloc prop' in set_on Deliver p)) in
        add_local (fun fr => (fr.1 ++ [pr_TxHash prop], fr.2))
    | (None, _) => add_local (fun fr => (fr.1, fr.2 ++ [pr_TxHash prop]))
    end
  else retM tt.

Definition freezeProposals (height : Z) : GoM GovCtrler (list bytes * list bytes) :=
  with_locals ([], []) (IterateReadAllItems (lens_comp lens_fst l_proposals) (freeze_proposal height)).

(** New parameters: the option, completed by the current parameters. *)
Definition take_params (opt : bytes) : GoM GovCtrler unit :=
  match unmarshal_params (hotfix opt) with
  | inl err => errM (NewOrdinary err)
  | inr new =>
      let! old := getsM gc_GovParams in
      let new' := MergeGovParams old new in
      do! zoom l_params (let! p := alloc new' in set_on Deliver p) in
      modifyM (fun c => set_params (gc_GovParams c) (Some new') c)
  end.

Definition apply_proposal (height : Z) (prop : GovProposal) : GoM (GovCtrler * list bytes) unit :=
  if pr_ApplyingHeight prop <=? height then
    do! on_ctrler (zoom l_gfrozen (DelFinality (GovProposal_Key prop))) in
    match pr_MajorOption prop with
    | Some opt =>
        do! (if pr_OptType prop =? PROPOSAL_GOVPARAMS then on_ctrler (take_params (vo_option opt)) else retM tt) in
        add_local (fun l => l ++ [pr_TxHash prop])
    | None => retM tt
    end
  else retM tt.

Definition applyProposals (height : Z) : GoM GovCtrler (list bytes) :=
  with_locals [] (IterateReadAllItems (lens_comp lens_fst l_gfrozen) (apply_proposal height)).

Definition GovCtrler_EndBlock (bctx : BlockContext) : GoM GovCtrler (list GovEvent) :=
  let! fr := freezeProposals (bc_Height bctx) in
  let! applied := applyProposals (bc_Height bctx) in
  retM (map EvFrozen fr.1 ++ map EvRemoved fr.2 ++ map EvApplied applied).

(** ** [Commit] *)
Context (DefaultHash : list (list Byte.byte) -> list Byte.byte).

Definition GovCtrler_Commit : GoM GovCtrler (bytes * Z) :=
  let! hv0 := zoom l_params Commit in
  let! hv1 := zoom l_proposals Commit in
  let! hv2 := zoom l_gfrozen Commit in
  if negb (hv0.2 =? hv1.2) || negb (hv1.2 =? hv2.2) then
    errM (Wrapf ErrCommit "error: GovCtrler.Commit() has wrong version number - v0:%v, v1:%v, v2:%v")
  else
    do! modifyM (fun c => match gc_newGovParams c with Some g => set_params g None c | None => c end) in
    retM (DefaultHash [hv0.1; hv1.1; hv2.1], hv0.2).

(** ** Readers *)
Definition read_proposals (l : lens GovCtrler (FinalityLedger GovProposal Tr)) : GoM GovCtrler (list GovProposal) :=
  with_locals [] (IterateReadAllItems (lens_comp lens_fst l) (fun p => add_local (fun ps => ps ++ [p]))).
Definition ReadAllProposals : GoM GovCtrler (list GovProposal) :=
  let! r := tryM (read_proposals l_proposals) in
  match r with
  | inr ps => retM ps
  | inl e => if is_errvar e ErrNotFoundResult then errM ErrNotFoundProposal else errM e
  end.
Definition ReadProposal (txhash : bytes) : GoM GovCtrler GovProposal :=
  let! r := tryM (zoom l_proposals (Read (ToLedgerKey txhash))) in
  match r with
  | inr p => retM p
  | inl e => if is_errvar e ErrNotFoundResult then errM ErrNotFoundProposal else errM e
  end.

(** ** [Query] *)
Definition query_err {A} (m : GoM GovCtrler A) : GoM GovCtrler A :=
  let! r := tryM m in match r with inr a => retM a | inl e => errM (Wrap ErrQuery (xcause e)) end.

(** A proposal under vote, or else a frozen one. *)
Definition query_proposal (Lp Lf : FinalityLedger GovProposal Tr) (txhash : bytes) : outcome GovQuery :=
  match (Read (ToLedgerKey txhash) Lp).1 with
  | Ret p => Ret (QProposal voting p)
  | Panic => Panic
  | Err e =>
      if Code e =? ErrCodeNotFoundResult then
        match (Read (ToLedgerKey txhash) Lf).1 with
        | Ret p => Ret (QProposal frozen p)
        | Err e' => Err (Wrap ErrQuery (xcause e'))
        | Panic => Panic
        end
      else Err (Wrap ErrQuery (xcause e))
  end.

(** All the proposals of two past versions: the iterations run on them. *)
Definition query_proposals (Lp Lf : FinalityLedger GovProposal Tr) : GoM GovCtrler GovQuery :=
  let! c := getM in
  let at_past := mkGovCtrler (gc_GovParams c) (gc_newGovParams c) (gc_paramsLedger c) Lp Lf in
  let! ps := query_err (liftO (read_proposals l_proposals at_past).1) in
  let! fs := query_err (liftO (read_proposals l_gfrozen at_past).1) in
  retM (QProposals (map (pair voting) ps ++ map (pair frozen) fs)).

Definition GovCtrler_Query (path : string) (height : Z) (txhash : bytes) : GoM GovCtrler GovQuery :=
  if bool_decide (path = "proposal"%string) then
    let! Lp := query_err (zoom l_proposals (ImmutableLedgerAt height)) in
    let! Lf := query_err (zoom l_gfrozen (ImmutableLedgerAt height)) in
    match txhash with
    | [] => query_proposals Lp Lf
    | _ => liftO (query_proposal Lp Lf txhash)
    end
  else if bool_decide (path = "gov_params"%string) then
    let! Lg := query_err (zoom l_params (ImmutableLedgerAt height)) in
    let! g := query_err (liftO (Read (ToLedgerKey (ZeroBytes 32)) Lg).1) in
    retM (QParams g)
  else retM QNothing.
End GovCtrler.
