(* ===== verification/GovProps.v ===== *)
(** * Theorems about the governance controller

    What a validated proposal satisfies, that a validated vote is counted, how
    proposals are frozen and applied, and what happens when two proposals are
    applied in one block. *)

From Stdlib Require Import Strings.Byte.
From S2P Require Import Prelude Xerrors GoSem Bytes Ledger LedgerSpec LedgerClient LedgerProps Concrete GovParams.
From S2P Require Import Account Trx Context Stake StakeLimiter StakeCtrler Proposal ProposalProps GovCtrler.

(** ** Ranges of a stored proposal *)
Definition voter_range (v : Voter) : Prop := is_i64 (vt_Power v) /\ is_i32 (vt_Choice v).
Definition option_range (o : voteOption) : Prop := is_i64 (vo_votes o).

Record proposal_range (p : GovProposal) : Prop := {
  rg_start : is_i64 (pr_StartVotingHeight p);
  rg_end : is_i64 (pr_EndVotingHeight p);
  rg_apply : is_i64 (pr_ApplyingHeight p);
  rg_total : is_i64 (pr_TotalVotingPower p);
  rg_major : is_i64 (pr_MajorityPower p);
  rg_type : is_i32 (pr_OptType p);
  rg_voters : forall k v, pr_Voters p !! k = Some v -> voter_range v;
  rg_options : forall i o, pr_Options p !! i = Some o -> option_range o;
  rg_majoropt : forall o, pr_MajorOption p = Some o -> option_range o;
}.

Section ProposalLaws.
Context {CP : Codec GovProposal} {CL : CodecLaws GovProposal proposal_range} {CT : CodecTotal GovProposal proposal_range}.

#[export] Instance proposal_item_laws : LedgerItemLaws proposal_range.
Proof.
  constructor; unfold Encode, Decode, proposal_item, GovProposal_Encode, GovProposal_Decode.
  - intros p Hp. destruct (codec_total p Hp) as [bz ->]. eauto.
  - intros p bz Hp. destruct (codec_Marshal p) as [|bz'] eqn:E; [done|]. intros [= <-].
    by rewrite (codec_roundtrip p bz' Hp E).
Qed.
End ProposalLaws.

Lemma revote_range k v0 c p :
  proposal_wf (revote k v0 (with_choice c v0) p) -> proposal_range p -> pr_Voters p !! k = Some v0 -> is_i32 c ->
  proposal_range (revote k v0 (with_choice c v0) p).
Proof.
  intros Hw Hr Hk Hc. pose proof (pw_bound _ Hw) as Hb. cbn in Hb. constructor; cbn; try apply Hr.
  - intros k' v'. rewrite lookup_insert. case_decide; [|apply (rg_voters p Hr)]. intros [= <-].
    split; [apply (rg_voters p Hr k v0 Hk)|done].
  - intros i o Ho. pose proof (votes_range _ i o Hw Ho) as Hv. cbn in Hv. unfold option_range, is_i64. lia.
Qed.

Lemma i32_le z : 0 <= z -> i32 z <= z.
Proof.
  intros Hz. unfold i32, wrap_s.
  assert (Hp : 0 < 2 ^ 32) by lia. pose proof (Z.mod_le (z + 2 ^ (32 - 1)) (2 ^ 32)). lia.
Qed.

(** ** Validation of proposals *)
Section Validation.
Context {CGJ : Codec GovParamsJSON} {D : DecCodec}.
Context (tmjson_Unmarshal : (list Byte.byte -> string + GovParams) -> list Byte.byte -> string + GovParams).

Lemma first_error_none {A B} (f : A -> string + B) l :
  first_error f l = None <-> forall x, x ∈ l -> exists y, f x = inr y.
Proof.
  induction l as [|a l IH]; cbn.
  { split; [intros _ x Hx; by apply not_elem_of_nil in Hx|done]. }
  destruct (f a) as [e|b] eqn:E.
  - split; [done|]. intros H. destruct (H a) as [y Hy]; [by left|congruence].
  - rewrite IH. split.
    + intros H x [->|Hx]%elem_of_cons; eauto.
    + intros H x Hx. apply H. by right.
Qed.

(** What a proposal must satisfy.  The checks accept a payload exactly
    when voting starts after the current height, the voting period is within
    the limits of the parameters, the end of voting does not overflow, the
    parameters are applied after it and after the mandatory delay (computed in
    64 bits), there is at least one option, and for a proposal of parameters
    every option can be decoded. *)
Theorem proposal_accepted (g : GovParams) (height : Z) (pl : TrxPayloadProposal) :
  is_i64 (pp_StartVotingHeight pl) -> 0 <= minVotingPeriodBlocks g -> is_i64 (maxVotingPeriodBlocks g) -> 0 <= height ->
  check_proposal_payload tmjson_Unmarshal g height pl = Ret tt <->
  let end_ := pp_StartVotingHeight pl + pp_VotingPeriodBlocks pl in
  height < pp_StartVotingHeight pl /\
  minVotingPeriodBlocks g <= pp_VotingPeriodBlocks pl <= maxVotingPeriodBlocks g /\
  end_ < 2 ^ 63 /\ end_ <= pp_ApplyingHeight pl /\ i64 (end_ + lazyApplyingBlocks g) <= pp_ApplyingHeight pl /\
  pp_Options pl <> [] /\
  (pp_OptType pl = PROPOSAL_GOVPARAMS -> forall o, o ∈ pp_Options pl -> exists g', unmarshal_params tmjson_Unmarshal o = inr g').
Proof.
  intros Hs Hmin Hmax Hh. unfold check_proposal_payload. set (start := pp_StartVotingHeight pl) in *.
  set (period := pp_VotingPeriodBlocks pl). cbv zeta. unfold is_i64 in *.
  destruct (start <=? height) eqn:E1; [split; [done|lia]|].
  destruct ((maxVotingPeriodBlocks g <? period) || (period <? minVotingPeriodBlocks g)) eqn:E2; [split; [done|lia]|].
  assert (Hwrap : start + period < 2 ^ 63 \/ i64 (start + period) < start).
  { destruct (decide (start + period < 2 ^ 63)); [by left|right]. unfold i64, wrap_s.
    replace (start + period + 2 ^ (64 - 1)) with (start + period - 2 ^ 63 + 1 * 2 ^ 64) by lia.
    rewrite Z.mod_add, Z.mod_small by lia. lia. }
  assert (Hopt : (if pp_OptType pl =? PROPOSAL_GOVPARAMS then first_error (unmarshal_params tmjson_Unmarshal) (pp_Options pl) else None) = None
                 <-> (pp_OptType pl = PROPOSAL_GOVPARAMS -> forall o, o ∈ pp_Options pl -> exists g', unmarshal_params tmjson_Unmarshal o = inr g')).
  { destruct (pp_OptType pl =? PROPOSAL_GOVPARAMS) eqn:Et.
    - rewrite first_error_none. split; [intros H _; exact H|intros H; apply H; lia].
    - split; [intros _ H; lia|done]. }
  destruct (if pp_OptType pl =? PROPOSAL_GOVPARAMS then _ else _) as [err|].
  { split; [done|]. intros (_ & _ & _ & _ & _ & _ & H). apply Hopt in H. done. }
  destruct Hwrap as [Hno|Hover].
  - rewrite (i64_id (start + period)) by (unfold is_i64; lia).
    destruct (start + period <? start) eqn:E3; [lia|].
    destruct ((pp_ApplyingHeight pl <? i64 (start + period + lazyApplyingBlocks g)) || (pp_ApplyingHeight pl <? start + period)) eqn:E4.
    { split; [done|lia]. }
    destruct (pp_Options pl) as [|o l]; [split; [done|tauto]|]. split; [|done]. intros _. split_and!; try lia; [done|]. by apply Hopt.
  - assert (Hov : ~ start + period < 2 ^ 63).
    { intros Hlt. rewrite i64_id in Hover by (unfold is_i64; lia). lia. }
    destruct (i64 (start + period) <? start) eqn:E3; [|lia]. split; [done|]. intros (_ & _ & H & _). by apply Hov in H.
Qed.
End Validation.

(** ** Voting *)
Section Voting.
Context {Tr S : Type} {Tree : Iavl Tr} {View : IavlView Tr} {Laws : IavlLaws Tr} {Total : IavlTotal Tr} {SH : IStakeHandler S}.
Context {CGJ : Codec GovParamsJSON} {D : DecCodec} {CP : Codec GovProposal}.
Context {CL : CodecLaws GovProposal proposal_range} {CT : CodecTotal GovProposal proposal_range}.
Context (tmjson_Unmarshal : (list Byte.byte -> string + GovParams) -> list Byte.byte -> string + GovParams).
Abbreviation ok := proposal_range.
Abbreviation ctrler := (@GovCtrler Tr).

(** The proposals under vote are sound, on both sides. *)
Record proposals_ok (c : ctrler) : Prop := {
  po_inv : ledger_inv ok (gc_proposalLedger c);
  po_wf : forall sd k p, visible (gc_proposalLedger c) sd k = Some p -> proposal_wf p;
}.

(** What a vote changes. *)
Definition vote_cast (sd : side) (key from : bytes) (choice : Z) (prop : GovProposal) (v : Voter) (c c' : ctrler) : Prop :=
  visible (gc_proposalLedger c') sd key = Some (revote (HexBytes_String from) v (with_choice choice v) prop) /\
  (forall sd' k, sd' <> sd \/ k <> key -> visible (gc_proposalLedger c') sd' k = visible (gc_proposalLedger c) sd' k) /\
  gc_GovParams c' = gc_GovParams c /\ gc_paramsLedger c' = gc_paramsLedger c /\ gc_frozenLedger c' = gc_frozenLedger c.

Lemma validate_voting_inv ctx c c1 txhash choice :
  proposals_ok c -> tx_Payload (cx_Tx ctx) = Some (PayloadVoting txhash choice) ->
  validate_voting (Tr := Tr) ctx c = (Ret tt, c1) ->
  exists L1 prop v, c1 = lset l_proposals L1 c /\ ledger_inv ok L1 /\ same_view (gc_proposalLedger c) L1 /\
    visible (gc_proposalLedger c) (side_of (cx_Exec ctx)) (ToLedgerKey txhash) = Some prop /\
    pr_Voters prop !! HexBytes_String (tx_From (cx_Tx ctx)) = Some v /\
    0 <= choice < Z.of_nat (length (pr_Options prop)) /\
    pr_StartVotingHeight prop <= cx_Height ctx <= pr_EndVotingHeight prop.
Proof.
  intros [Hi Hw] Hpl. unfold validate_voting. destruct (negb _); [done|]. rewrite Hpl.
  rewrite <- to_ledger_key_array. set (sd := side_of (cx_Exec ctx)). set (k := ToLedgerKey txhash).
  pose proof (find_spec ok (gc_proposalLedger c) sd k Hi) as Hf.
  destruct (visible (gc_proposalLedger c) sd k) as [prop|] eqn:Hv.
  - destruct Hf as (p & L1 & Hrun & Hi1 & Hp & [Hx Hg] & Hk).
    rewrite (bindM_step _ _ _ prop (lset l_proposals L1 c)).
    2: { apply zoom_eq. unfold bindM. cbn [lget l_proposals]. rewrite Hrun. unfold load. by rewrite Hx. }
    unfold IsVoter. case_bool_decide as Hvot; [|done]. cbn [negb].
    destruct ((choice <? 0) || (i32 (Z.of_nat (length (pr_Options prop))) <=? choice)) eqn:Ec; [done|].
    destruct ((pr_EndVotingHeight prop <? cx_Height ctx) || (cx_Height ctx <? pr_StartVotingHeight prop)) eqn:Eh; [done|].
    intros [= <-]. destruct Hvot as [v Hvot]. exists L1, prop, v.
    pose proof (i32_le (Z.of_nat (length (pr_Options prop))) ltac:(lia)).
    split_and!; try done; try lia. by apply (preserved_view ok).
  - unfold zoom, bindM. cbn [lget l_proposals]. by rewrite Hf.
Qed.

Lemma exec_voting_spec ctx c txhash choice prop v :
  proposals_ok c -> tx_Payload (cx_Tx ctx) = Some (PayloadVoting txhash choice) -> is_i32 choice ->
  visible (gc_proposalLedger c) (side_of (cx_Exec ctx)) (ToLedgerKey txhash) = Some prop ->
  pr_Voters prop !! HexBytes_String (tx_From (cx_Tx ctx)) = Some v -> 0 <= choice < Z.of_nat (length (pr_Options prop)) ->
  exists c', execVoting (Tr := Tr) ctx c = (Ret tt, c') /\ proposals_ok c' /\
    vote_cast (side_of (cx_Exec ctx)) (ToLedgerKey txhash) (tx_From (cx_Tx ctx)) choice prop v c c'.
Proof.
  intros [Hi Hw] Hpl Hi32 Hv Hvot Hc. unfold execVoting. rewrite Hpl. set (sd := side_of (cx_Exec ctx)) in *.
  set (k := ToLedgerKey txhash) in *. pose proof (find_spec ok (gc_proposalLedger c) sd k Hi) as Hf. rewrite Hv in Hf.
  destruct Hf as (p & L1 & Hrun & Hi1 & Hp & Hca & Hk). pose proof (preserved_view ok _ _ Hi Hp) as Hsv.
  destruct (DoVote_spec _ choice prop v (Hw _ _ _ Hv) Hvot Hc) as [Hdo Hwf'].
  set (prop' := revote (HexBytes_String (tx_From (cx_Tx ctx))) v (with_choice choice v) prop) in *.
  pose proof (cached_handle ok L1 sd p prop Hi1 Hca) as Hh. assert (Hok : ok prop) by apply Hh.
  destruct (visible_key ok (gc_proposalLedger c) sd k prop Hi Hv) as (_ & _ & Hnr).
  destruct (put_visible ok L1 sd p prop prop') as (Hi2 & _ & _ & Hvis); [done|done|by apply revote_range|done| |].
  { rewrite Hk. destruct Hsv as (_ & Hr & _). by rewrite Hr. }
  rewrite Hk in Hvis. eexists. split; [|split].
  - apply zoom_eq. cbn [lget l_proposals]. rewrite (bindM_step _ _ _ _ _ Hrun). destruct Hca as [Hx _].
    rewrite (bindM_step _ _ _ prop L1) by (unfold load; by rewrite Hx).
    rewrite (bindM_step _ _ _ prop' L1) by (unfold liftO; by rewrite Hdo). apply put_run.
  - constructor; cbn [lset l_proposals gc_proposalLedger]; [done|]. intros sd' k' q. rewrite Hvis. case_decide.
    + by intros [= <-].
    + rewrite (same_view_visible _ L1) by done. apply Hw.
  - unfold vote_cast. cbn [lset l_proposals gc_proposalLedger gc_GovParams gc_paramsLedger gc_frozenLedger].
    split_and!; [by rewrite Hvis, decide_True| |done|done|done].
    intros sd' k' Hne. rewrite Hvis, decide_False by tauto. by apply same_view_visible.
Qed.

(** C33: a validated vote is counted.  If [ValidateTrx] accepts a vote, then
    [ExecuteTrx] on the state it leaves succeeds without panic; the sender is a
    voter of the proposal, the height is in its voting period, and exactly this
    proposal changes, on the side of the call: the sender's previous choice is
    taken back and its power is added to the new choice. *)
Theorem validated_vote_counts (sh : S) (ctx : TrxContext) (c c1 : ctrler) (txhash : bytes) (choice : Z) :
  proposals_ok c -> tx_Type (cx_Tx ctx) = TRX_VOTING -> tx_Payload (cx_Tx ctx) = Some (PayloadVoting txhash choice) -> is_i32 choice ->
  GovCtrler_ValidateTrx tmjson_Unmarshal sh ctx c = (Ret tt, c1) ->
  exists c2 prop v, GovCtrler_ExecuteTrx sh ctx c1 = (Ret tt, c2) /\ proposals_ok c2 /\
    visible (gc_proposalLedger c) (side_of (cx_Exec ctx)) (ToLedgerKey txhash) = Some prop /\
    pr_Voters prop !! HexBytes_String (tx_From (cx_Tx ctx)) = Some v /\
    pr_StartVotingHeight prop <= cx_Height ctx <= pr_EndVotingHeight prop /\
    vote_cast (side_of (cx_Exec ctx)) (ToLedgerKey txhash) (tx_From (cx_Tx ctx)) choice prop v c c2.
Proof.
  intros Hc Hty Hpl Hi32. unfold GovCtrler_ValidateTrx, GovCtrler_ExecuteTrx. rewrite Hty. cbn [Z.eqb TRX_VOTING TRX_PROPOSAL Pos.eqb].
  intros Hval. destruct (validate_voting_inv ctx c c1 txhash choice Hc Hpl Hval)
    as (L1 & prop & v & -> & Hi1 & Hsv & Hv & Hvot & Hch & Hh). destruct Hc as [Hi Hw].
  destruct (exec_voting_spec ctx (lset l_proposals L1 c) txhash choice prop v) as (c2 & Hrun & Hok2 & Hcast); [|done|done| |done|done|].
  - constructor; cbn; [done|]. intros sd k p. rewrite (same_view_visible _ L1) by done. apply Hw.
  - cbn. by rewrite (same_view_visible (gc_proposalLedger c) L1).
  - exists c2, prop, v. split_and!; try done; try lia. destruct Hcast as (H1 & H2 & H3). split; [done|]. split; [|exact H3].
    intros sd' k Hne. rewrite (H2 sd' k Hne). cbn. by apply same_view_visible.
Qed.
End Voting.

(** ** Freezing and applying *)
Section EndBlock.
Context {Tr : Type} {Tree : Iavl Tr} {View : IavlView Tr} {Laws : IavlLaws Tr}.
Context {CGP : Codec GovParamsProto} {CGJ : Codec GovParamsJSON} {D : DecCodec} {CP : Codec GovProposal}.
Context (tmjson_Unmarshal : (list Byte.byte -> string + GovParams) -> list Byte.byte -> string + GovParams).
Abbreviation ctrler := (@GovCtrler Tr).

(** A proposal of the last committed version of a ledger. *)
Definition committed_in (L : FinalityLedger GovProposal Tr) (prop : GovProposal) : Prop :=
  exists k bz, tree_map (tree L) !! k = Some bz /\ Decode bz = Ret prop.

(** The parameters that the majority of [prop] asks for. *)
Definition decided (old : GovParams) (height : Z) (prop : GovProposal) (g : GovParams) : Prop :=
  pr_ApplyingHeight prop <= height /\ pr_OptType prop = PROPOSAL_GOVPARAMS /\
  exists o new, pr_MajorOption prop = Some o /\ unmarshal_params tmjson_Unmarshal (hotfix (vo_option o)) = inr new /\
                g = MergeGovParams old new.

(** The calls on ledgers leave the parameters of the controller alone. *)
Definition same_params (c c' : ctrler) : Prop := gc_GovParams c' = gc_GovParams c /\ gc_newGovParams c' = gc_newGovParams c.

#[local] Instance same_params_refl : Reflexive same_params.
Proof. by intros c. Qed.
#[local] Instance same_params_trans : Transitive same_params.
Proof. intros c1 c2 c3 [H1 H2] [H3 H4]. split; congruence. Qed.

Lemma set_on_tree {T} {I : ILedgerItem T} sd p (L : FinalityLedger T Tr) : tree (set_on sd p L).2 = tree L.
Proof.
  unfold set_on, bindM, load, modifyM. destruct (objs (lheap L) !! p); [|done]. cbn. by rewrite !tree_upd.
Qed.

Lemma freeze_frame h prop s : same_params s.1 (freeze_proposal h prop s).2.1 /\
  tree (gc_frozenLedger (freeze_proposal h prop s).2.1) = tree (gc_frozenLedger s.1).
Proof.
  unfold freeze_proposal. destruct (pr_EndVotingHeight prop <? h); [|done]. unfold bindM, on_ctrler, zoom, liftO, add_local, modifyM.
  cbn [lget lset lens_fst l_proposals fst snd]. destruct (DelFinality (GovProposal_Key prop) (gc_proposalLedger s.1)) as [[p|e|] L]; cbn; [|done|done].
  destruct (updateMajorOption prop) as [[[o|] p']|e|]; cbn; try done.
  match goal with |- context [set_on Deliver ?q ?L0] => pose proof (set_on_tree Deliver q L0) as Ht;
    destruct (set_on Deliver q L0) as [[u|e|] L'] end; cbn in Ht |- *; (split; [done|exact Ht]).
Qed.

Lemma take_params_cases opt (c : ctrler) :
  let c' := (take_params tmjson_Unmarshal opt c).2 in
  gc_GovParams c' = gc_GovParams c /\
  (gc_newGovParams c' = gc_newGovParams c \/
   exists new, unmarshal_params tmjson_Unmarshal (hotfix opt) = inr new /\
               gc_newGovParams c' = Some (MergeGovParams (gc_GovParams c) new)).
Proof.
  unfold take_params. destruct (unmarshal_params _ (hotfix opt)) as [e|new] eqn:E; [by split; [|left]|].
  unfold bindM, getsM, zoom, modifyM. cbn.
  destruct (set_on Deliver (hnext (lheap (gc_paramsLedger c))) _) as [[u|e|] L]; cbn; split; eauto.
Qed.

#[local] Arguments take_params : simpl never.

Lemma apply_cases h prop (s : ctrler * list bytes) :
  let s' := (apply_proposal tmjson_Unmarshal h prop s).2 in
  gc_GovParams s'.1 = gc_GovParams s.1 /\
  (gc_newGovParams s'.1 = gc_newGovParams s.1 \/ exists g, gc_newGovParams s'.1 = Some g /\ decided (gc_GovParams s.1) h prop g).
Proof.
  unfold apply_proposal. destruct (pr_ApplyingHeight prop <=? h) eqn:Eh; [|by split; [|left]].
  unfold bindM, on_ctrler, zoom. cbn [lget lset lens_fst l_gfrozen fst snd].
  destruct (DelFinality (GovProposal_Key prop) (gc_frozenLedger s.1)) as [[p|e|] L]; cbn; [|by split; [|left]..].
  destruct (pr_MajorOption prop) as [o|] eqn:Eo; [|by split; [|left]].
  destruct (pr_OptType prop =? PROPOSAL_GOVPARAMS) eqn:Et; [|by split; [|left]].
  match goal with |- context [take_params tmjson_Unmarshal _ ?c1] => pose proof (take_params_cases (vo_option o) c1) as Hc end.
  cbv zeta in Hc. match goal with |- context [take_params ?f ?b ?c1] => destruct (take_params f b c1) as [[u|e|] c2] end; cbn in *;
    (destruct Hc as [H1 H2]; split; [exact H1|]; destruct H2 as [H2|(new & Hn & H2)]; [left; exact H2|right]; eexists; split; [exact H2|];
     split; [lia|]; split; [lia|]; by exists o, new).
Qed.

(** [EndBlock] leaves the parameters in force alone, and if it schedules new
    parameters for the commit, they are the current ones overridden by the major
    option of a frozen, committed proposal whose applying height has been reached. *)
Lemma end_block_params (bctx : BlockContext) (c : ctrler) :
  let c' := (GovCtrler_EndBlock tmjson_Unmarshal bctx c).2 in
  gc_GovParams c' = gc_GovParams c /\
  (gc_newGovParams c' = gc_newGovParams c \/
   exists g prop, gc_newGovParams c' = Some g /\ committed_in (gc_frozenLedger c) prop /\
                  decided (gc_GovParams c) (bc_Height bctx) prop g).
Proof.
  cbv zeta. set (h := bc_Height bctx). unfold GovCtrler_EndBlock. fold h.
  pose proof (iterate_invariant (lens_comp lens_fst l_proposals) (freeze_proposal h)
    (fun s : ctrler * (list bytes * list bytes) => same_params c s.1 /\ tree (gc_frozenLedger s.1) = tree (gc_frozenLedger c))
    (c, ([], []))) as Hfr.
  specialize (Hfr ltac:(intros k bz prop s _ _ [H1 H2]; destruct (freeze_frame h prop s) as [H3 H4]; split; [by etrans|congruence]) ltac:(done)).
  unfold bindM, freezeProposals, with_locals.
  destruct (IterateReadAllItems (lens_comp lens_fst l_proposals) (freeze_proposal h) (c, ([], []))) as [r1 [c1 fr]].
  cbn in Hfr. destruct Hfr as [[Hg Hn] Ht]. destruct r1; cbn [snd]; [|by split; [|left]..].
  pose proof (iterate_invariant (lens_comp lens_fst l_gfrozen) (apply_proposal tmjson_Unmarshal h)
    (fun s : ctrler * list bytes => gc_GovParams s.1 = gc_GovParams c /\
       (gc_newGovParams s.1 = gc_newGovParams c \/ exists g prop, gc_newGovParams s.1 = Some g /\ committed_in (gc_frozenLedger c) prop /\
          decided (gc_GovParams c) h prop g)) (c1, [])) as Hap.
  specialize (Hap ltac:(intros k bz prop s Hk Hd [H1 H2]; cbn in Hk; rewrite Ht in Hk;
    destruct (apply_cases h prop s) as [H3 [H4|(g & H4 & H5)]];
    (split; [congruence|]); [rewrite H4; exact H2|right; exists g, prop; split_and!; [done|by exists k, bz|by rewrite <- H1]]) ltac:(by split; [|left])).
  unfold applyProposals, with_locals.
  destruct (IterateReadAllItems (lens_comp lens_fst l_gfrozen) (apply_proposal tmjson_Unmarshal h) (c1, [])) as [[u|e|] [c2 ap]]; exact Hap.
Qed.

(** ** The life of the parameters *)
Context {S : Type} {SH : IStakeHandler S} (DefaultHash : list (list Byte.byte) -> list Byte.byte).

(** Everything that is called on the controller after the genesis. *)
Inductive gov_op : Type :=
  | OpBeginBlock (bctx : BlockContext)
  | OpValidateTrx (sh : S) (ctx : TrxContext)
  | OpExecuteTrx (sh : S) (ctx : TrxContext)
  | OpEndBlock (bctx : BlockContext)
  | OpCommit
  | OpQuery (path : string) (height : Z) (txhash : bytes)
  | OpReadAllProposals
  | OpReadProposal (txhash : bytes).

(** The controller after a call, also after one that fails or panics. *)
Definition gov_call (op : gov_op) (c : ctrler) : ctrler :=
  match op with
  | OpBeginBlock bctx => (GovCtrler_BeginBlock bctx c).2
  | OpValidateTrx sh ctx => (GovCtrler_ValidateTrx tmjson_Unmarshal sh ctx c).2
  | OpExecuteTrx sh ctx => (GovCtrler_ExecuteTrx sh ctx c).2
  | OpEndBlock bctx => (GovCtrler_EndBlock tmjson_Unmarshal bctx c).2
  | OpCommit => (GovCtrler_Commit DefaultHash c).2
  | OpQuery path height txhash => (GovCtrler_Query path height txhash c).2
  | OpReadAllProposals => (ReadAllProposals c).2
  | OpReadProposal txhash => (ReadProposal txhash c).2
  end.
Definition gov_calls (ops : list gov_op) (c : ctrler) : ctrler := fold_left (fun c op => gov_call op c) ops c.

Lemma gov_calls_snoc ops op c : gov_calls (ops ++ [op]) c = gov_call op (gov_calls ops c).
Proof. unfold gov_calls. by rewrite fold_left_app. Qed.

Lemma keeps_on_params {A} (m : GoM _ A) : keeps same_params (zoom l_params m).
Proof. intros c. unfold zoom. by destruct (m _). Qed.
Lemma keeps_on_proposals {A} (m : GoM _ A) : keeps same_params (zoom l_proposals m).
Proof. intros c. unfold zoom. by destruct (m _). Qed.
Lemma keeps_on_gfrozen {A} (m : GoM _ A) : keeps same_params (zoom l_gfrozen m).
Proof. intros c. unfold zoom. by destruct (m _). Qed.
Lemma keeps_getM : keeps same_params (getM (S := ctrler)).
Proof. done. Qed.
Lemma keeps_foldM {A B} (f : A -> B -> GoM ctrler A) l : (forall a x, keeps same_params (f a x)) -> forall a, keeps same_params (foldM f l a).
Proof.
  intros Hf. induction l as [|x l IH]; intros a; cbn [foldM]; [apply keeps_ret; exact _|]. apply keeps_bind; [exact _|apply Hf|intros ?; apply IH].
Qed.
(** A loop over the committed proposals that touches only its local variables. *)
Lemma keeps_locals {B} (l : lens ctrler (FinalityLedger GovProposal Tr)) (b : B) (cb : GovProposal -> GoM (ctrler * B) unit) :
  (forall p s, (cb p s).2.1 = s.1) -> keeps same_params (with_locals b (IterateReadAllItems (lens_comp lens_fst l) cb)) /\
  keeps same_params (with_locals b (ignoreM (IterateReadAllItems (lens_comp lens_fst l) cb))).
Proof.
  intros Hcb. assert (H : forall c, (IterateReadAllItems (lens_comp lens_fst l) cb (c, b)).2.1 = c).
  { intros c. apply (iterate_invariant (lens_comp lens_fst l) cb (fun s => s.1 = c)); [|done]. intros k bz x s _ _ <-. apply Hcb. }
  split; intros c; specialize (H c); unfold with_locals, ignoreM; destruct (IterateReadAllItems _ cb (c, b)) as [[] [c' b']]; cbn in *; by subst.
Qed.

Ltac params_kept := keeps_tac;
  try first [apply keeps_on_params | apply keeps_on_proposals | apply keeps_on_gfrozen | apply keeps_getM].

Lemma begin_block_params bctx : keeps same_params (GovCtrler_BeginBlock (Tr := Tr) bctx).
Proof.
  unfold GovCtrler_BeginBlock. apply keeps_foldM. intros evts evi.
  apply keeps_bind; [exact _|apply keeps_try|intros []; apply keeps_ret; exact _]. unfold GovCtrler_doPunish. apply keeps_bind; [exact _| |intros ks].
  - apply keeps_locals. intros p s. by destruct (is_voter_of _ p).
  - apply keeps_foldM. intros slashed k. unfold punish_proposal. params_kept.
Qed.
Lemma validate_params sh ctx : keeps same_params (GovCtrler_ValidateTrx (Tr := Tr) tmjson_Unmarshal sh ctx).
Proof. unfold GovCtrler_ValidateTrx, validate_proposal, validate_voting. params_kept. Qed.
Lemma execute_params sh ctx : keeps same_params (GovCtrler_ExecuteTrx (Tr := Tr) sh ctx).
Proof. unfold GovCtrler_ExecuteTrx, execProposing, execVoting. params_kept. Qed.
Lemma read_params : keeps same_params (ReadAllProposals (Tr := Tr)).
Proof. unfold ReadAllProposals, read_proposals. params_kept. by apply keeps_locals. Qed.
Lemma read_one_params txhash : keeps same_params (ReadProposal (Tr := Tr) txhash).
Proof. unfold ReadProposal. params_kept. Qed.
Lemma query_params path height txhash : keeps same_params (GovCtrler_Query (Tr := Tr) path height txhash).
Proof. unfold GovCtrler_Query, query_proposals, query_err. params_kept. Qed.

(** [Commit] puts pending parameters in force, if it succeeds. *)
Lemma commit_params (c : ctrler) : let c' := (GovCtrler_Commit DefaultHash c).2 in
  same_params c c' \/ exists g, gc_newGovParams c = Some g /\ gc_GovParams c' = g /\ gc_newGovParams c' = None.
Proof.
  cbv zeta. unfold GovCtrler_Commit, bindM, zoom. destruct (Commit (lget l_params c)) as [[hv0|e|] P]; [|by left..].
  destruct (Commit (lget l_proposals _)) as [[hv1|e|] G]; [|by left..]. destruct (Commit (lget l_gfrozen _)) as [[hv2|e|] F]; [|by left..].
  destruct (_ || _); [by left|]. unfold modifyM, retM. cbn. destruct (gc_newGovParams c) as [g|] eqn:E; [right; by exists g|left; by split].
Qed.

(** One call: only a commit changes the parameters in force, only [EndBlock]
    schedules new ones. *)
Lemma call_params op (c : ctrler) :
  match op with
  | OpCommit => same_params c (gov_call op c) \/
      exists g, gc_newGovParams c = Some g /\ gc_GovParams (gov_call op c) = g /\ gc_newGovParams (gov_call op c) = None
  | OpEndBlock bctx => gc_GovParams (gov_call op c) = gc_GovParams c /\
      (gc_newGovParams (gov_call op c) = gc_newGovParams c \/
       exists g prop, gc_newGovParams (gov_call op c) = Some g /\ committed_in (gc_frozenLedger c) prop /\ decided (gc_GovParams c) (bc_Height bctx) prop g)
  | _ => same_params c (gov_call op c)
  end.
Proof.
  destruct op; cbn [gov_call]; [apply begin_block_params|apply validate_params|apply execute_params|apply end_block_params|apply commit_params|
    apply query_params|apply read_params|apply read_one_params].
Qed.

(** [g] was scheduled by an [EndBlock] among the calls [ops], and the parameters
    in force then are still those of [old]. *)
Definition scheduled (c0 : ctrler) (ops : list gov_op) (old g : GovParams) : Prop := exists before bctx between prop,
  ops = before ++ OpEndBlock bctx :: between /\ gc_GovParams (gov_calls before c0) = old /\
  committed_in (gc_frozenLedger (gov_calls before c0)) prop /\ decided old (bc_Height bctx) prop g.

Lemma scheduled_snoc c0 ops op old g : scheduled c0 ops old g -> scheduled c0 (ops ++ [op]) old g.
Proof. intros (b & bctx & w & prop & -> & H). exists b, bctx, (w ++ [op]), prop. split; [by rewrite <- app_assoc|done]. Qed.

Lemma pending_scheduled c0 ops : gc_newGovParams c0 = None -> forall g, gc_newGovParams (gov_calls ops c0) = Some g ->
  scheduled c0 ops (gc_GovParams (gov_calls ops c0)) g.
Proof.
  intros H0. induction ops as [|op ops IH] using rev_ind; intros g; [cbn; by rewrite H0|].
  rewrite gov_calls_snoc. set (c := gov_calls ops c0) in *. pose proof (call_params op c) as Hop.
  assert (Hsame : same_params c (gov_call op c) -> gc_newGovParams (gov_call op c) = Some g -> scheduled c0 (ops ++ [op]) (gc_GovParams (gov_call op c)) g).
  { intros [-> ->] Hg. by apply scheduled_snoc, IH. }
  destruct op; try (by apply Hsame).
  - destruct Hop as [Hg [Hn|(g' & prop & Hn & Hc & Hd)]]; [by apply Hsame|]. rewrite Hn. intros [= <-]. exists ops, bctx, [], prop. by rewrite Hg.
  - destruct Hop as [Hop|(g' & _ & _ & Hn)]; [by apply Hsame|]. by rewrite Hn.
Qed.

(** C34: the parameters change only by a governance decision.  From a controller
    without pending parameters, as construction and genesis leave it, let any
    calls follow, also ones that fail or panic.  Only a [Commit] changes the
    parameters in force; and those in force at the end are the ones of the
    beginning, or a [Commit] has installed them after an [EndBlock] that took
    them from a committed frozen proposal whose applying height had come: they are
    the parameters in force at that [EndBlock], which were still in force at the
    [Commit], overridden by the recorded major option of the proposal.  The
    genesis itself ([InitLedger]) sets parameters without a proposal and is not
    among the calls. *)
Theorem params_need_majority (ops : list gov_op) (c0 : ctrler) : gc_newGovParams c0 = None ->
  (forall op c, op <> OpCommit -> gc_GovParams (gov_call op c) = gc_GovParams c) /\
  (gc_GovParams (gov_calls ops c0) = gc_GovParams c0 \/
   exists upto after, ops = upto ++ OpCommit :: after /\
     scheduled c0 upto (gc_GovParams (gov_calls upto c0)) (gc_GovParams (gov_calls ops c0))).
Proof.
  intros H0. split.
  { intros op c Hne. pose proof (call_params op c) as Hop. destruct op; try done; by destruct Hop. }
  induction ops as [|op ops IH] using rev_ind; [by left|].
  rewrite !gov_calls_snoc. pose proof (call_params op (gov_calls ops c0)) as Hop.
  assert (Hsame : gc_GovParams (gov_call op (gov_calls ops c0)) = gc_GovParams (gov_calls ops c0) ->
    gc_GovParams (gov_call op (gov_calls ops c0)) = gc_GovParams c0 \/ exists upto after, ops ++ [op] = upto ++ OpCommit :: after /\
      scheduled c0 upto (gc_GovParams (gov_calls upto c0)) (gc_GovParams (gov_call op (gov_calls ops c0)))).
  { intros ->. destruct IH as [->|(u & w & -> & Hs)]; [by left|right]. exists u, (w ++ [op]). split; [by rewrite <- app_assoc|done]. }
  destruct op; try (apply Hsame; by destruct Hop).
  destruct Hop as [[Hop _]|(g & Hn & Hg & _)]; [by apply Hsame|]. right. exists ops, []. split; [done|]. rewrite Hg. by apply pending_scheduled.
Qed.
End EndBlock.

(** ** Two proposals in one block *)
Section LastWins.
Context {Tr : Type} {CGP : Codec GovParamsProto} {CGJ : Codec GovParamsJSON} {D : DecCodec}.
Context (tmjson_Unmarshal : (list Byte.byte -> string + GovParams) -> list Byte.byte -> string + GovParams).

Lemma take_params_run opt new (c : @GovCtrler Tr) :
  unmarshal_params tmjson_Unmarshal (hotfix opt) = inr new ->
  exists c', take_params tmjson_Unmarshal opt c = (Ret tt, c') /\ gc_GovParams c' = gc_GovParams c /\
             gc_newGovParams c' = Some (MergeGovParams (gc_GovParams c) new).
Proof.
  intros Hu. unfold take_params. rewrite Hu. unfold bindM at 1, getsM. erewrite bindM_step; cycle 1.
  { apply zoom_eq. unfold bindM, alloc. apply set_same. cbn. apply lookup_insert_eq. }
  eexists. split_and!; [reflexivity|done|done].
Qed.

(** Of several parameter proposals applied in one block, only the last
    one takes effect.  Each option is merged with the parameters in force, not
    with the parameters that the proposals before it produced, so what the
    commit takes over is the old parameters overridden by the last option
    alone. *)
Theorem apply_last_wins (opts : list bytes) (opt : bytes) (new : GovParams) (c : @GovCtrler Tr) :
  (forall o, o ∈ opts -> exists g, unmarshal_params tmjson_Unmarshal (hotfix o) = inr g) ->
  unmarshal_params tmjson_Unmarshal (hotfix opt) = inr new ->
  exists c', forM_ (opts ++ [opt]) (take_params tmjson_Unmarshal) c = (Ret tt, c') /\
             gc_newGovParams c' = Some (MergeGovParams (gc_GovParams c) new).
Proof.
  intros Hall Hu. revert c. induction opts as [|o opts IH]; intros c; cbn [app forM_].
  - destruct (take_params_run opt new c Hu) as (c' & Hrun & _ & Hn). exists c'. by rewrite (bindM_step _ _ _ _ _ Hrun).
  - destruct (Hall o ltac:(by left)) as [g Hg]. destruct (take_params_run o g c Hg) as (c1 & Hrun & Hp & _).
    rewrite (bindM_step _ _ _ _ _ Hrun), <- Hp. apply IH. intros o' Ho'. apply Hall. by right.
Qed.
End LastWins.

(** ** Witnesses *)
#[export] Instance paramsProtoCodec : Codec GovParamsProto := countCodec GovParamsProto.
#[export] Instance paramsJsonCodec : Codec GovParamsJSON := countCodec GovParamsJSON.
#[export] Instance proposalCodec : Codec GovProposal := countCodec GovProposal.
#[export] Instance proposalCodec_laws : CodecLaws GovProposal proposal_range := countCodec_laws _ _.
#[export] Instance proposalCodec_total : CodecTotal GovProposal proposal_range := countCodec_total _ _.
#[export] Instance decimals : DecCodec := decDec.

(** The JSON library calls [UnmarshalJSON]. *)
Definition callUnmarshal (f : list Byte.byte -> string + GovParams) (bz : list Byte.byte) : string + GovParams := f bz.

Definition textProposal : TrxPayloadProposal := mkPayloadProposal "upgrade" 20 300000 900000 PROPOSAL_COMMON opts0.

Lemma proposal_accepted_witness :
  check_proposal_payload callUnmarshal DefaultGovParams 10 textProposal = Ret tt.
Proof.
  apply (proposal_accepted callUnmarshal DefaultGovParams 10 textProposal).
  - cbn. unfold is_i64. lia.
  - cbn. lia.
  - cbn. unfold is_i64. lia.
  - lia.
  - cbn [pp_StartVotingHeight pp_VotingPeriodBlocks pp_ApplyingHeight pp_Options pp_OptType textProposal lazyApplyingBlocks
      minVotingPeriodBlocks maxVotingPeriodBlocks DefaultGovParams].
    rewrite i64_id by (unfold is_i64; lia). split_and!; try lia; [done|]. intros H. vm_compute in H. discriminate.
Defined.

(** A controller with one proposal under vote. *)
Definition prop0 : GovProposal := NewGovProposal (replicate 32 Byte.x05) PROPOSAL_COMMON 5 10 100 40 voters0 opts0.
Definition propLedger0 : FinalityLedger GovProposal mapTree :=
  ((let! p := alloc prop0 in set_on Deliver p) (NewFinalityLedger (MapTree ∅ ∅ 0))).2.
Definition gov0 : @GovCtrler mapTree :=
  mkGovCtrler DefaultGovParams None (NewFinalityLedger (MapTree ∅ ∅ 0)) propLedger0 (NewFinalityLedger (MapTree ∅ ∅ 0)).

Lemma prop0_range : proposal_range prop0.
Proof.
  constructor.
  1-6: vm_compute; split; discriminate || reflexivity.
  - intros k v Hv. destruct (el_voters _ _ electorate0 k v Hv) as [H1 H2]. unfold voter_range.
    pose proof (power_bound prop0 k v (new_proposal_wf _ _ _ _ _ _ _ _ electorate0) Hv) as Hb. cbn in Hb.
    rewrite H2. unfold is_i64, is_i32, NOT_CHOICE. lia.
  - intros i o Ho. destruct i as [|[|i]]; cbn in Ho; [injection Ho as <-..|done]; unfold option_range, is_i64; cbn; lia.
  - done.
Qed.

Lemma empty_inv : ledger_inv proposal_range (NewFinalityLedger (T := GovProposal) (MapTree ∅ ∅ 0)).
Proof. apply fresh_inv. intros k bz. cbn. by rewrite lookup_empty. Qed.

Lemma gov0_ok : proposals_ok gov0.
Proof.
  destruct (alloc_put proposal_range _ Deliver prop0 empty_inv prop0_range) as (L' & Hrun & Hi & _ & _ & Hv).
  { cbn. apply not_elem_of_nil. }
  assert (HL : propLedger0 = L') by (unfold propLedger0; by rewrite Hrun).
  constructor; cbn [gov0 gc_proposalLedger]; rewrite HL; [done|]. intros sd k p. rewrite Hv. case_decide.
  - intros [= <-]. apply new_proposal_wf, electorate0.
  - unfold visible. rewrite fresh_pend. unfold tree_item. cbn. rewrite lookup_empty. by case_decide.
Qed.

Definition voteTx : Trx :=
  mkTrx 1 0 1 voterA ZeroAddress 0 0 0 TRX_VOTING (Some (PayloadVoting (replicate 32 Byte.x05) 1)) [].
Definition voteCtx : TrxContext := mkTrxContext 7 0 (replicate 32 Byte.x06) voteTx 0 true [] 1%positive 1%positive 0 [] [] "rigo".

(** The stake handler of the witness: the vote does not consult it. *)
#[local] Instance noStakes : IStakeHandler unit := {| sh_Validators _ := ([], 0); sh_IsValidator _ _ := false |}.

Lemma validated_vote_counts_witness :
  exists c1 c2, GovCtrler_ValidateTrx callUnmarshal tt voteCtx gov0 = (Ret tt, c1) /\
                GovCtrler_ExecuteTrx tt voteCtx c1 = (Ret tt, c2) /\ proposals_ok c2.
Proof.
  destruct (GovCtrler_ValidateTrx callUnmarshal tt voteCtx gov0) as [r c1] eqn:E.
  assert (r = Ret tt) as -> by (change r with (r, c1).1; rewrite <- E; vm_compute; reflexivity).
  destruct (validated_vote_counts callUnmarshal tt voteCtx gov0 c1 (replicate 32 Byte.x05) 1 gov0_ok eq_refl eq_refl)
    as (c2 & prop & v & H1 & H2 & _); [unfold is_i32; lia|exact E|].
  exists c1, c2. split; [reflexivity|]. split; assumption.
Defined.

Definition noOption : bytes := match GovParams_MarshalJSON zeroGovParams with inr bz => bz | inl _ => [] end.

Lemma apply_last_wins_witness :
  exists c' new, forM_ [noOption; noOption] (take_params callUnmarshal) gov0 = (Ret tt, c') /\
             gc_newGovParams c' = Some (MergeGovParams DefaultGovParams new).
Proof.
  destruct (unmarshal_params callUnmarshal (hotfix noOption)) as [e|new] eqn:E; [vm_compute in E; discriminate|].
  destruct (apply_last_wins callUnmarshal [noOption] noOption new gov0) as (c' & H1 & H2); [|exact E|].
  - intros o Ho. apply list_elem_of_singleton in Ho. subst o. exists new. exact E.
  - exists c', new. split; [exact H1|exact H2].
Defined.

(** A frozen proposal that is due: its major option overrides nothing. *)
Definition dueProp : GovProposal :=
  set_major (Some (mkOption noOption 100)) (NewGovProposal (replicate 32 Byte.x05) PROPOSAL_GOVPARAMS 1 1 100 3 voters0 [noOption]).
Definition dueGov : @GovCtrler mapTree :=
  mkGovCtrler DefaultGovParams None (NewFinalityLedger (MapTree ∅ ∅ 0)) (NewFinalityLedger (MapTree ∅ ∅ 0))
    (NewFinalityLedger (MapTree {[ GovProposal_Key dueProp := count_encode dueProp ]} ∅ 0)).
Definition dueBlock : BlockContext := mkBlockContext (mkBeginBlock (mkHeader 5 0 [] []) [] []) 0 0 [] [].

(** A proposal that asks for other parameters is due; the block ends and is
    committed. *)
Definition threeBlocks : GovParams := {|
  version := 0;
  maxValidatorCnt := 0;
  minValidatorStake := Some 0;
  minDelegatorStake := Some 0;
  rewardPerPower := Some 0;
  lazyRewardBlocks := 0;
  lazyApplyingBlocks := 0;
  gasPrice := Some 0;
  minTrxGas := 0;
  maxTrxGas := 0;
  maxBlockGas := 0;
  minVotingPeriodBlocks := 0;
  maxVotingPeriodBlocks := 0;
  minSelfStakeRatio := 0;
  maxUpdatableStakeRatio := 0;
  maxIndividualStakeRatio := 0;
  slashRatio := 0;
  signedBlocksWindow := 0;
  minSignedBlocks := 3;
|}.
Definition fiveBlocks : GovParams := {|
  version := 0;
  maxValidatorCnt := 0;
  minValidatorStake := None;
  minDelegatorStake := None;
  rewardPerPower := None;
  lazyRewardBlocks := 0;
  lazyApplyingBlocks := 0;
  gasPrice := None;
  minTrxGas := 0;
  maxTrxGas := 0;
  maxBlockGas := 0;
  minVotingPeriodBlocks := 0;
  maxVotingPeriodBlocks := 0;
  minSelfStakeRatio := 0;
  maxUpdatableStakeRatio := 0;
  maxIndividualStakeRatio := 0;
  slashRatio := 0;
  signedBlocksWindow := 0;
  minSignedBlocks := 5;
|}.
Definition newOption : bytes := [Byte.x35].
(** A reader that knows one text. *)
Definition readFive (f : list Byte.byte -> string + GovParams) (bz : list Byte.byte) : string + GovParams :=
  if bool_decide (bz = newOption) then inr fiveBlocks else f bz.
Definition newProp : GovProposal :=
  set_major (Some (mkOption newOption 100)) (NewGovProposal (replicate 32 Byte.x05) PROPOSAL_GOVPARAMS 1 1 100 3 voters0 [newOption]).
Definition newGov : @GovCtrler mapTree :=
  mkGovCtrler threeBlocks None (NewFinalityLedger (MapTree ∅ ∅ 0)) (NewFinalityLedger (MapTree ∅ ∅ 0))
    (NewFinalityLedger (MapTree {[ GovProposal_Key newProp := count_encode newProp ]} ∅ 0)).
Definition decidedRun : list (gov_op (S := unit)) := [OpEndBlock dueBlock; OpCommit].
Abbreviation newGovAfter := (gov_calls readFive (fun hs => concat hs) decidedRun newGov).

Lemma new_committed : minSignedBlocks (gc_GovParams newGovAfter) = 5.
Proof. vm_compute. reflexivity. Qed.

Lemma params_need_majority_witness :
  exists upto after, decidedRun = upto ++ OpCommit :: after /\
    scheduled readFive (fun hs => concat hs) newGov upto (gc_GovParams (gov_calls readFive (fun hs => concat hs) upto newGov)) (gc_GovParams newGovAfter).
Proof.
  destruct (params_need_majority readFive (fun hs => concat hs) decidedRun newGov eq_refl) as [_ [H|H]]; [|exact H].
  pose proof new_committed as Hn. rewrite H in Hn. discriminate Hn.
Defined.
