(* ===== verification/GovBlock.v ===== *)
(** * Governance at the end of a block

    [EndBlock] of the governance controller in full.  Proposals whose voting has
    ended leave the vote: those with a major option are frozen, the others are
    removed.  Frozen proposals whose height has come are applied.  The theorem
    gives the ledgers, the new parameters and the reported events for every
    state of the committed proposals. *)

From Stdlib Require Import Strings.Byte.
From S2P Require Import Prelude Xerrors GoSem Bytes Ledger LedgerSpec LedgerClient LedgerProps Concrete GovParams.
From S2P Require Import Account Trx Context Stake StakeLimiter StakeCtrler Proposal ProposalProps GovCtrler GovProps.

(** ** What happens to one proposal *)

Definition ended (h : Z) (p : GovProposal) : bool := pr_EndVotingHeight p <? h.
Definition due (h : Z) (p : GovProposal) : bool := pr_ApplyingHeight p <=? h.

(** The proposal as it is frozen, if an option has won. *)
Definition decision (p : GovProposal) : option GovProposal :=
  match updateMajorOption p with Ret (Some _, p') => Some p' | _ => None end.
Definition won (p : GovProposal) : bool := match decision p with Some _ => true | None => false end.
(** A frozen proposal takes effect when it has its major option. *)
Definition effective (p : GovProposal) : bool := match pr_MajorOption p with Some _ => true | None => false end.

Lemma decision_hash p p' : decision p = Some p' -> pr_TxHash p' = pr_TxHash p.
Proof. unfold decision, updateMajorOption. destruct (sort_Sort _ _) as [|o l]; [done|]. destruct (_ <=? _); cbn; [|destruct (pr_MajorOption p)]; intros [= <-] || done; done. Qed.

Lemma decision_range p p' : proposal_range p -> decision p = Some p' -> proposal_range p'.
Proof.
  intros [R1 R2 R3 R4 R5 R6 R7 R8 R9]. unfold decision, updateMajorOption. pose proof (sort_perm powerOrderLess (pr_Options p)) as Hp.
  assert (Hin : forall o, o ∈ sort_Sort powerOrderLess (pr_Options p) -> option_range o).
  { intros o Ho. rewrite Hp in Ho. apply list_elem_of_lookup in Ho as [i Ho]. by eapply R8. }
  destruct (sort_Sort _ _) as [|o l]; [done|]. destruct (_ <=? _); cbn.
  - intros [= <-]. constructor; cbn; try done; [intros i x Hx; apply Hin; by eapply list_elem_of_lookup_2|intros x [= <-]; apply Hin; by apply elem_of_cons; left].
  - destruct (pr_MajorOption p) as [m|] eqn:Em; [|done]. intros [= <-]. constructor; cbn; try done; [|by rewrite Em].
    intros i x Hx. apply Hin. by eapply list_elem_of_lookup_2.
Qed.

Lemma update_major_run p : pr_Options p <> [] ->
  exists r p', updateMajorOption p = Ret (r, p') /\ match r with Some _ => decision p = Some p' | None => decision p = None end.
Proof.
  intros Hne. destruct (updateMajorOption p) as [[r p']|e|] eqn:E.
  - exists r, p'. split; [done|]. unfold decision. rewrite E. by destruct r.
  - unfold updateMajorOption in E. by destruct (sort_Sort _ _).
  - unfold updateMajorOption in E. destruct (sort_Sort powerOrderLess (pr_Options p)) as [|o l] eqn:Es; [|done].
    exfalso. apply Hne. pose proof (sort_perm powerOrderLess (pr_Options p)) as Hp. rewrite Es in Hp. by apply Permutation_nil_l in Hp.
Qed.

Section GovBlock.
Context {Tr : Type} {Tree : Iavl Tr} {View : IavlView Tr} {Laws : IavlLaws Tr} {Total : IavlTotal Tr}.
Context {CGP : Codec GovParamsProto} {CGJ : Codec GovParamsJSON} {D : DecCodec} {CP : Codec GovProposal}.
Context {CL : CodecLaws GovProposal proposal_range} {CT : CodecTotal GovProposal proposal_range}.
Context (okP : GovParams -> Prop) {LP : LedgerItemLaws okP}.
Context (tmjson_Unmarshal : (list Byte.byte -> string + GovParams) -> list Byte.byte -> string + GovParams).
Abbreviation ctrler := (@GovCtrler Tr).
Abbreviation proposals := (FinalityLedger GovProposal Tr).

(** The parameters that a proposal asks for, over those in force. *)
Definition asked (old : GovParams) (p : GovProposal) : option GovParams :=
  match pr_MajorOption p with
  | Some o =>
      if pr_OptType p =? PROPOSAL_GOVPARAMS then
        match unmarshal_params tmjson_Unmarshal (hotfix (vo_option o)) with inr new => Some (MergeGovParams old new) | inl _ => None end
      else None
  | None => None
  end.
(** The option of a parameter proposal can be read and gives sound parameters. *)
Definition readable (old : GovParams) (p : GovProposal) : Prop :=
  effective p = true -> pr_OptType p = PROPOSAL_GOVPARAMS -> exists g, asked old p = Some g /\ okP g.

Definition put_frozen (P F : proposals) (c : ctrler) : ctrler := lset l_gfrozen F (lset l_proposals P c).

(** ** Freezing *)

(** A deletion by its key, for blocks. *)
Lemma del_run (L : proposals) k :
  ledger_inv proposal_range L -> is_Some (visible L Deliver k) ->
  exists q L', DelFinality k L = (Ret q, L') /\ ledger_inv proposal_range L' /\ tree L' = tree L /\
    forall k', visible L' Deliver k' = if decide (k' = k) then None else visible L Deliver k'.
Proof.
  intros Hi Hs. destruct (del_for_spec proposal_range L true k Hi Hs) as (q & L' & Hrun & Hi' & Ht & Hn & Hv). exists q, L'. split_and!; try done.
  intros k'. case_decide as Hk; [by subst|]. apply Hv. by left.
Qed.

Lemma install_tree {T} {I : ILedgerItem T} (x : T) (L L' : FinalityLedger T Tr) : install x L = (Ret tt, L') -> tree L' = tree L.
Proof.
  unfold install. intros H. apply bindM_inv in H as (p & L1 & Ha & Hs). pose proof (set_on_tree Deliver p L1) as Ht. rewrite Hs in Ht. cbn in Ht. rewrite Ht.
  unfold alloc in Ha. destruct (heap_alloc _ _) in Ha. by injection Ha as <- <-.
Qed.

(** One proposal whose voting has ended. *)
Lemma freeze_step h p fr rm (c : ctrler) :
  ledger_inv proposal_range (gc_proposalLedger c) -> ledger_inv proposal_range (gc_frozenLedger c) -> (forall sd, removedKeys (mem_of sd (gc_frozenLedger c)) = []) ->
  proposal_range p -> is_Some (visible (gc_proposalLedger c) Deliver (Key p)) -> ended h p = true -> pr_Options p <> [] ->
  exists P F, freeze_proposal h p (c, (fr, rm)) =
      (Ret tt, (put_frozen P F c, if won p then (fr ++ [pr_TxHash p], rm) else (fr, rm ++ [pr_TxHash p]))) /\
    ledger_inv proposal_range P /\ ledger_inv proposal_range F /\ (forall sd, removedKeys (mem_of sd F) = []) /\
    tree P = tree (gc_proposalLedger c) /\ tree F = tree (gc_frozenLedger c) /\
    (forall k, visible P Deliver k = if decide (k = Key p) then None else visible (gc_proposalLedger c) Deliver k) /\
    (forall k, visible F Deliver k = installed (match decision p with Some p' => [p'] | None => [] end) k (visible (gc_frozenLedger c) Deliver k)).
Proof.
  intros HP HF Hrem Hr Hv He Hne. destruct (del_run _ _ HP Hv) as (q & P & Hd & HP' & HtP & HvP).
  destruct (update_major_run p Hne) as (r & p' & Hu & Hdec). unfold freeze_proposal. unfold ended in He. rewrite He.
  assert (H1 : @on_ctrler Tr (list bytes * list bytes) _ (zoom l_proposals (DelFinality (GovProposal_Key p))) (c, (fr, rm)) = (Ret q, (lset l_proposals P c, (fr, rm)))).
  { unfold on_ctrler. apply (zoom_eq lens_fst). by apply (zoom_eq l_proposals). }
  rewrite (bindM_step _ _ _ _ _ H1). clear H1. unfold liftO at 1. unfold bindM at 1. rewrite Hu. unfold won.
  destruct r as [m|]; rewrite Hdec.
  - destruct (install_run proposal_range (gc_frozenLedger c) p' HF Hrem) as (F & Hi & HF' & Hrem' & HvF); [by eapply decision_range|].
    exists P, F. split_and!; try done; [|by eapply install_tree|].
    + assert (H2 : @on_ctrler Tr (list bytes * list bytes) _ (zoom l_gfrozen (let! p := alloc p' in set_on Deliver p)) (lset l_proposals P c, (fr, rm)) = (Ret tt, (put_frozen P F c, (fr, rm)))).
      { unfold on_ctrler. apply (zoom_eq lens_fst). by apply (zoom_eq l_gfrozen). }
      by rewrite (bindM_step _ _ _ _ _ H2).
    + intros k. rewrite HvF. cbn. destruct (decide (GovProposal_Key p' = k)) as [<-|Hk]; [by rewrite decide_True|]. rewrite decide_False by (intros [_ ?]; by apply Hk). done.
  - exists P, (gc_frozenLedger c). by split_and!.
Qed.

Lemma freeze_proposals_run h ps : forall fr rm (c : ctrler),
  ledger_inv proposal_range (gc_proposalLedger c) -> ledger_inv proposal_range (gc_frozenLedger c) -> (forall sd, removedKeys (mem_of sd (gc_frozenLedger c)) = []) ->
  NoDup (map Key ps) -> (forall p, p ∈ ps -> proposal_range p /\ is_Some (visible (gc_proposalLedger c) Deliver (Key p)) /\ (ended h p = true -> pr_Options p <> [])) ->
  let es := List.filter (ended h) ps in
  exists P F, forM_ ps (freeze_proposal h) (c, (fr, rm)) =
      (Ret tt, (put_frozen P F c, (fr ++ map pr_TxHash (List.filter won es), rm ++ map pr_TxHash (List.filter (fun p => negb (won p)) es)))) /\
    ledger_inv proposal_range P /\ ledger_inv proposal_range F /\ (forall sd, removedKeys (mem_of sd F) = []) /\ tree F = tree (gc_frozenLedger c) /\
    (forall k, visible P Deliver k = if decide (k ∈ map Key es) then None else visible (gc_proposalLedger c) Deliver k) /\
    (forall k, visible F Deliver k = installed (omap decision es) k (visible (gc_frozenLedger c) Deliver k)).
Proof.
  induction ps as [|p ps IH]; intros fr rm c HP HF Hrem Hnd Hall; cbn zeta.
  - exists (gc_proposalLedger c), (gc_frozenLedger c). cbn. rewrite !app_nil_r. split_and!; try done. by destruct c.
  - cbn [map] in Hnd. apply list.NoDup_cons in Hnd as [Hn Hnd]. destruct (Hall p) as (Hr & Hv & Hne); [by apply elem_of_cons; left|]. cbn [List.filter].
    destruct (ended h p) eqn:He.
    + destruct (freeze_step h p fr rm c HP HF Hrem Hr Hv He (Hne eq_refl)) as (P1 & F1 & Hrun & HP1 & HF1 & Hrem1 & _ & HtF & HvP & HvF).
      destruct (IH (if won p then fr ++ [pr_TxHash p] else fr) (if won p then rm else rm ++ [pr_TxHash p]) (put_frozen P1 F1 c)) as (P & F & Hrun' & HP' & HF' & Hrem' & HtF' & HvP' & HvF'); try done.
      { intros x Hx. destruct (Hall x) as (Hrx & Hvx & Hnx); [by apply elem_of_cons; right|]. split_and!; [done| |done].
        cbn. rewrite HvP, decide_False; [done|]. intros E. apply Hn. rewrite <- E. exact (list_elem_of_fmap_2 Key ps x Hx). }
      exists P, F. split_and!; try done; [|by rewrite HtF'| |].
      * cbn [forM_]. rewrite (bindM_step _ _ _ _ _ Hrun). destruct (won p) eqn:Ew; rewrite Hrun'; cbn; rewrite Ew; cbn; rewrite <- ?app_assoc; cbn; by destruct c.
      * intros k. rewrite HvP'. cbn. rewrite HvP. destruct (decide (k ∈ map _ _)); destruct (decide (k = _)); destruct (decide (k ∈ _ :: _)) as [Hi|Hi]; try done; exfalso; set_solver.
      * intros k. rewrite HvF'. cbn. rewrite HvF. by destruct (decision p).
    + destruct (IH fr rm c) as (P & F & Hrun' & Hrest); try done; [intros x Hx; apply Hall; by apply elem_of_cons; right|]. exists P, F. split; [|done].
      cbn [forM_]. assert (H : freeze_proposal h p (c, (fr, rm)) = (Ret tt, (c, (fr, rm)))) by (unfold freeze_proposal; unfold ended in He; by rewrite He).
      by rewrite (bindM_step _ _ _ _ _ H).
Qed.
(** ** Applying *)

Definition put_applied (F : proposals) (G : FinalityLedger GovParams Tr) (new : option GovParams) (c : ctrler) : ctrler :=
  mkGovCtrler (gc_GovParams c) new G (gc_proposalLedger c) F.

(** The parameters that wait for the commit after proposals [ds] have been applied. *)
Definition pending_params (old : GovParams) (ds : list GovProposal) (new : option GovParams) : option GovParams :=
  fold_left (fun o p => match asked old p with Some g => Some g | None => o end) ds new.

Lemma take_params_install opt new (c : ctrler) :
  ledger_inv okP (gc_paramsLedger c) -> (forall sd, removedKeys (mem_of sd (gc_paramsLedger c)) = []) ->
  unmarshal_params tmjson_Unmarshal (hotfix opt) = inr new -> okP (MergeGovParams (gc_GovParams c) new) ->
  exists G, take_params tmjson_Unmarshal opt c = (Ret tt, put_applied (gc_frozenLedger c) G (Some (MergeGovParams (gc_GovParams c) new)) c) /\
    ledger_inv okP G /\ (forall sd, removedKeys (mem_of sd G) = []) /\
    (forall k, visible G Deliver k = installed [MergeGovParams (gc_GovParams c) new] k (visible (gc_paramsLedger c) Deliver k)).
Proof.
  intros HG Hrem Hu Hok. unfold take_params. rewrite Hu. unfold bindM at 1, getsM.
  destruct (install_run okP (gc_paramsLedger c) _ HG Hrem Hok) as (G & Hrun & HG' & Hrem' & Hv). exists G. split_and!; [|done|done|].
  - assert (H : zoom l_params (let! p := alloc (MergeGovParams (gc_GovParams c) new) in set_on Deliver p) c = (Ret tt, lset l_params G c)) by by apply (zoom_eq l_params).
    by rewrite (bindM_step _ _ _ _ _ H).
  - intros k. rewrite Hv. unfold installed. cbn [fold_left]. destruct (decide (Key _ = k)) as [<-|Hk]; [by rewrite decide_True|].
    rewrite decide_False by (intros [_ ?]; by apply Hk). done.
Qed.

(** One frozen proposal that is due. *)
Lemma apply_step h p ap (c : ctrler) :
  ledger_inv proposal_range (gc_frozenLedger c) -> ledger_inv okP (gc_paramsLedger c) -> (forall sd, removedKeys (mem_of sd (gc_paramsLedger c)) = []) ->
  is_Some (visible (gc_frozenLedger c) Deliver (Key p)) -> due h p = true -> readable (gc_GovParams c) p ->
  exists F G, apply_proposal tmjson_Unmarshal h p (c, ap) =
      (Ret tt, (put_applied F G (pending_params (gc_GovParams c) [p] (gc_newGovParams c)) c, if effective p then ap ++ [pr_TxHash p] else ap)) /\
    ledger_inv proposal_range F /\ ledger_inv okP G /\ (forall sd, removedKeys (mem_of sd G) = []) /\
    (forall k, visible F Deliver k = if decide (k = Key p) then None else visible (gc_frozenLedger c) Deliver k) /\
    (forall k, visible G Deliver k = installed (omap (asked (gc_GovParams c)) [p]) k (visible (gc_paramsLedger c) Deliver k)).
Proof.
  intros HF HG Hrem Hv Hd Hread. destruct (del_run _ _ HF Hv) as (q & F & Hrun & HF' & _ & HvF). unfold apply_proposal. unfold due in Hd. rewrite Hd.
  assert (H1 : @on_ctrler Tr (list bytes) _ (zoom l_gfrozen (DelFinality (GovProposal_Key p))) (c, ap) = (Ret q, (lset l_gfrozen F c, ap))).
  { unfold on_ctrler. apply (zoom_eq lens_fst). by apply (zoom_eq l_gfrozen). }
  rewrite (bindM_step _ _ _ _ _ H1). clear H1. unfold pending_params, asked, effective. unfold readable, asked, effective in Hread. cbn [fold_left omap list_omap].
  destruct (pr_MajorOption p) as [o|]; [|exists F, (gc_paramsLedger c); by split_and!].
  destruct (pr_OptType p =? PROPOSAL_GOVPARAMS) eqn:Et; [|exists F, (gc_paramsLedger c); by split_and!].
  destruct (Hread eq_refl ltac:(lia)) as (g & Ha & Hg). destruct (unmarshal_params _ _) as [e|new] eqn:Eu; [done|]. injection Ha as <-.
  destruct (take_params_install (vo_option o) new (lset l_gfrozen F c) HG Hrem Eu Hg) as (G & Ht & HG' & Hrem' & HvG). exists F, G. split_and!; try done.
  assert (H2 : @on_ctrler Tr (list bytes) _ (take_params tmjson_Unmarshal (vo_option o)) (lset l_gfrozen F c, ap) = (Ret tt, (put_applied F G (Some (MergeGovParams (gc_GovParams c) new)) c, ap))).
  { unfold on_ctrler. by apply (zoom_eq lens_fst). }
  by rewrite (bindM_step _ _ _ _ _ H2).
Qed.

Lemma apply_run h fs : forall ap (c : ctrler),
  ledger_inv proposal_range (gc_frozenLedger c) -> ledger_inv okP (gc_paramsLedger c) -> (forall sd, removedKeys (mem_of sd (gc_paramsLedger c)) = []) ->
  NoDup (map Key fs) -> (forall p, p ∈ fs -> due h p = true -> is_Some (visible (gc_frozenLedger c) Deliver (Key p)) /\ readable (gc_GovParams c) p) ->
  let ds := List.filter (due h) fs in
  exists F G, forM_ fs (apply_proposal tmjson_Unmarshal h) (c, ap) =
      (Ret tt, (put_applied F G (pending_params (gc_GovParams c) ds (gc_newGovParams c)) c, ap ++ map pr_TxHash (List.filter effective ds))) /\
    ledger_inv proposal_range F /\ ledger_inv okP G /\ (forall sd, removedKeys (mem_of sd G) = []) /\
    (forall k, visible F Deliver k = if decide (k ∈ map Key ds) then None else visible (gc_frozenLedger c) Deliver k) /\
    (forall k, visible G Deliver k = installed (omap (asked (gc_GovParams c)) ds) k (visible (gc_paramsLedger c) Deliver k)).
Proof.
  induction fs as [|p fs IH]; intros ap c HF HG Hrem Hnd Hall; cbn zeta.
  - exists (gc_frozenLedger c), (gc_paramsLedger c). cbn. rewrite app_nil_r. split_and!; try done. by destruct c.
  - cbn [map] in Hnd. apply list.NoDup_cons in Hnd as [Hn Hnd]. cbn [List.filter]. destruct (due h p) eqn:Hd.
    + destruct (Hall p) as [Hv Hr]; [by apply elem_of_cons; left|done|].
      destruct (apply_step h p ap c HF HG Hrem Hv Hd Hr) as (F1 & G1 & Hrun & HF1 & HG1 & Hrem1 & HvF & HvG).
      set (c1 := put_applied F1 G1 (pending_params (gc_GovParams c) [p] (gc_newGovParams c)) c) in *.
      destruct (IH (if effective p then ap ++ [pr_TxHash p] else ap) c1) as (F & G & Hrun' & HF' & HG' & Hrem' & HvF' & HvG'); try done.
      { intros x Hx Hdx. destruct (Hall x) as [Hvx Hrx]; [by apply elem_of_cons; right|done|]. split; [|done].
        cbn. rewrite HvF, decide_False; [done|]. intros E. apply Hn. rewrite <- E. exact (list_elem_of_fmap_2 Key fs x Hx). }
      exists F, G. split_and!; try done.
      * cbn [forM_]. rewrite (bindM_step _ _ _ _ _ Hrun), Hrun'. unfold pending_params. cbn. destruct (effective p); cbn; rewrite <- ?app_assoc; by destruct c.
      * intros k. rewrite HvF'. cbn. rewrite HvF. destruct (decide (k ∈ map _ _)); destruct (decide (k = _)); destruct (decide (k ∈ _ :: _)) as [Hi|Hi]; try done; exfalso; set_solver.
      * intros k. rewrite HvG'. cbn [c1 put_applied gc_paramsLedger gc_GovParams]. rewrite HvG. unfold installed. cbn. by destruct (asked (gc_GovParams c) p).
    + destruct (IH ap c) as (F & G & Hrun' & Hrest); try done; [intros x Hx; apply Hall; by apply elem_of_cons; right|]. exists F, G. split; [|done].
      cbn [forM_]. assert (H : apply_proposal tmjson_Unmarshal h p (c, ap) = (Ret tt, (c, ap))) by (unfold apply_proposal; unfold due in Hd; by rewrite Hd).
      by rewrite (bindM_step _ _ _ _ _ H).
Qed.

(** ** The end of a block *)

Definition no_removed {T} (L : FinalityLedger T Tr) : Prop := forall sd, removedKeys (mem_of sd L) = [].

(** The proposals that the tree of a ledger holds, each once. *)
Definition committed_list (L : proposals) (ps : list GovProposal) : Prop :=
  NoDup (map Key ps) /\ forall p, p ∈ ps <-> tree_item (tree L) (Key p) = Some p.

(** The controller before [EndBlock]: no proposal has been deleted in the
    block, proposals have options, and the texts of due options can be read. *)
Record end_ready (h : Z) (c : ctrler) : Prop := {
  er_proposals : ledger_inv proposal_range (gc_proposalLedger c) /\ no_removed (gc_proposalLedger c);
  er_frozen : ledger_inv proposal_range (gc_frozenLedger c) /\ no_removed (gc_frozenLedger c);
  er_params : ledger_inv okP (gc_paramsLedger c) /\ no_removed (gc_paramsLedger c);
  er_options : forall p, tree_item (tree (gc_proposalLedger c)) (Key p) = Some p -> ended h p = true -> pr_Options p <> [];
  er_readable : forall p, tree_item (tree (gc_frozenLedger c)) (Key p) = Some p -> due h p = true -> readable (gc_GovParams c) p;
}.

Lemma proposal_key_fixed (p : GovProposal) : ToLedgerKey (Key p) = Key p.
Proof. apply to_ledger_key_id. change (length (Array32 (pr_TxHash p)) = LEDGERKEYSIZE). apply length_to_array. Qed.

Lemma committed_visible (L : proposals) (p : GovProposal) : ledger_inv proposal_range L -> no_removed L -> tree_item (tree L) (Key p) = Some p -> is_Some (visible L Deliver (Key p)).
Proof.
  intros Hi Hn Ht. unfold visible, pendOf. rewrite Hn, decide_False by apply not_elem_of_nil. destruct (updatedItems (mem_of Deliver L) !! Key p) as [q|] eqn:Eq.
  - apply (li_upd proposal_range L Hi) in Eq. destruct (li_got proposal_range L Hi _ _ _ Eq) as (x & Hx & _). by exists x.
  - rewrite decide_False by apply not_elem_of_nil. by exists p.
Qed.

(** C8: the end of a block, for governance, is what the abstract block says.
    Of the committed proposals those whose voting has ended leave the vote; the
    ones with a major option are frozen with it, the others are dropped.  Of
    the committed frozen proposals those whose height has come leave the frozen
    ledger; those with a major option are applied, and the last parameter
    option becomes the parameters for the commit and for the ledger.  A
    proposal frozen in this block is not applied in it, the parameters in force
    do not change, and the events name exactly these proposals. *)
Theorem gov_end_block_spec (bctx : BlockContext) (c : ctrler) :
  end_ready (bc_Height bctx) c ->
  exists ps fs c', committed_list (gc_proposalLedger c) ps /\ committed_list (gc_frozenLedger c) fs /\
    let es := List.filter (ended (bc_Height bctx)) ps in
    let ds := List.filter (due (bc_Height bctx)) fs in
    GovCtrler_EndBlock tmjson_Unmarshal bctx c =
      (Ret (map EvFrozen (map pr_TxHash (List.filter won es)) ++ map EvRemoved (map pr_TxHash (List.filter (fun p => negb (won p)) es)) ++
            map EvApplied (map pr_TxHash (List.filter effective ds))), c') /\
    gc_GovParams c' = gc_GovParams c /\ gc_newGovParams c' = pending_params (gc_GovParams c) ds (gc_newGovParams c) /\
    (forall k, visible (gc_proposalLedger c') Deliver k = if decide (k ∈ map Key es) then None else visible (gc_proposalLedger c) Deliver k) /\
    (forall k, visible (gc_frozenLedger c') Deliver k =
      if decide (k ∈ map Key ds) then None else installed (omap decision es) k (visible (gc_frozenLedger c) Deliver k)) /\
    (forall k, visible (gc_paramsLedger c') Deliver k = installed (omap (asked (gc_GovParams c)) ds) k (visible (gc_paramsLedger c) Deliver k)).
Proof.
  intros [[HP HnP] [HF HnF] [HG HnG] Hopt Hread]. set (h := bc_Height bctx) in *.
  destruct (iterate_run proposal_range _ HP proposal_key_fixed) as (ps & HitP & Hnd & Hmem & Hok).
  destruct (iterate_run proposal_range _ HF proposal_key_fixed) as (fs & HitF & Hndf & Hmemf & _).
  destruct (freeze_proposals_run h ps [] [] c HP HF HnF Hnd) as (P & F1 & Hrun1 & HP1 & HF1 & Hrem1 & HtF & HvP & HvF1).
  { intros p Hp. split_and!; [by apply Hok|apply committed_visible; [done..|by apply Hmem]|apply Hopt; by apply Hmem]. }
  destruct (apply_run h fs [] (put_frozen P F1 c) HF1 HG HnG Hndf) as (F & G & Hrun2 & HF2 & HG2 & _ & HvF & HvG).
  { intros p Hp Hd. split; [|apply Hread; [by apply Hmemf|done]]. cbn. apply Hmemf in Hp. apply committed_visible; [done..|by rewrite HtF]. }
  eexists ps, fs, _. split; [done|]. split; [done|]. cbn zeta. split_and!.
  - unfold GovCtrler_EndBlock, freezeProposals, applyProposals. fold h. unfold bindM at 1, with_locals.
    rewrite (HitP _ (lens_comp lens_fst l_proposals)) by done. rewrite Hrun1. cbv beta iota. unfold bindM at 1.
    rewrite (HitF _ (lens_comp lens_fst l_gfrozen)) by done. rewrite Hrun2. reflexivity.
  - done.
  - done.
  - exact HvP.
  - intros k. etrans; [exact (HvF k)|]. destruct (decide _); [done|exact (HvF1 k)].
  - exact HvG.
Qed.
End GovBlock.

(** ** An example: one proposal wins, one is applied *)

Definition wonProp : GovProposal :=
  set_options [mkOption noOption 100] (NewGovProposal (replicate 32 Byte.x06) PROPOSAL_GOVPARAMS 1 1 100 40 voters0 [noOption]).
Definition endGov : @GovCtrler mapTree :=
  mkGovCtrler DefaultGovParams None (NewFinalityLedger (MapTree ∅ ∅ 0))
    (NewFinalityLedger (MapTree {[ GovProposal_Key wonProp := count_encode wonProp ]} ∅ 0))
    (NewFinalityLedger (MapTree {[ GovProposal_Key dueProp := count_encode dueProp ]} ∅ 0)).

Lemma one_item p k : tree_item (MapTree {[ GovProposal_Key p := count_encode p ]} ∅ 0) k = if decide (GovProposal_Key p = k) then Some p else None.
Proof.
  unfold tree_item. cbn. rewrite lookup_singleton. case_decide as Hk; [|done]. unfold GovProposal_Decode, proposalCodec, countCodec, codec_Unmarshal.
  rewrite count_decode_encode. by rewrite decide_True.
Qed.

Lemma one_inv p : proposal_range p -> ledger_inv proposal_range (NewFinalityLedger (T := GovProposal) (MapTree {[ GovProposal_Key p := count_encode p ]} ∅ 0)).
Proof.
  intros Hp. apply fresh_inv. intros k bz. cbn. rewrite lookup_singleton. case_decide as Hk; [|done]. intros [= <-]. exists p.
  unfold GovProposal_Decode, proposalCodec, countCodec, codec_Unmarshal. by rewrite count_decode_encode.
Qed.

Lemma one_list p ps : committed_list (NewFinalityLedger (MapTree {[ GovProposal_Key p := count_encode p ]} ∅ 0)) ps -> ps = [p].
Proof.
  intros [Hnd Hm]. assert (Hall : forall x, x ∈ ps <-> x = p).
  { intros x. rewrite Hm. cbn [tree NewFinalityLedger]. rewrite one_item. destruct (decide _) as [Hk|Hk]; split; intros H; [by injection H|by rewrite H|done|by subst]. }
  destruct ps as [|x [|y ps]]; [by destruct (Hall p) as [_ H]; specialize (H eq_refl); apply not_elem_of_nil in H| |].
  - f_equal. apply Hall. by apply elem_of_cons; left.
  - exfalso. assert (x = p) as -> by (apply Hall; set_solver). assert (y = p) as -> by (apply Hall; set_solver). cbn in Hnd. apply list.NoDup_cons in Hnd as [Hn _]. set_solver.
Qed.

(** Parameters in their ranges, with every pointer set. *)
Definition params_ok (g : GovParams) : Prop := gov_range g /\ gov_set g.
#[export] Instance params_item_laws : LedgerItemLaws params_ok.
Proof.
  constructor; unfold Encode, Decode, gov_params_item, DecodeGovParams, GovParams_Decode, GovParams_Encode.
  - intros g [_ Hs]. unfold gov_set in Hs. destruct_and! Hs. unfold toProto.
    repeat match goal with H : is_Some ?x |- _ => destruct H as [? ->] end. eexists. reflexivity.
  - intros g bz [Hr _]. destruct (toProto g) as [pm| |] eqn:Ep; [|done..]. cbn. intros [= <-]. rewrite count_decode_encode. f_equal. by apply (proto_roundtrip g pm).
Qed.

Lemma default_ok : params_ok DefaultGovParams.
Proof. split; [apply default_range|]. unfold gov_set; split_and!; by eexists. Qed.

Lemma option_ranges (o : voteOption) : is_i64 (vo_votes o) -> forall (i : nat) x, [o] !! i = Some x -> option_range x.
Proof. intros Ho i x Hx. destruct i as [|i]; cbn in Hx; [by injection Hx as <-|done]. Qed.

Lemma wonProp_range : proposal_range wonProp.
Proof.
  constructor; [vm_compute; split; discriminate || reflexivity ..|exact (rg_voters _ prop0_range)| |done].
  apply option_ranges. unfold is_i64. cbn. lia.
Qed.

Lemma dueProp_range : proposal_range dueProp.
Proof.
  constructor; [vm_compute; split; discriminate || reflexivity ..|exact (rg_voters _ prop0_range)| |].
  - apply option_ranges. unfold is_i64. cbn. lia.
  - intros o [= <-]. unfold option_range, is_i64. cbn. lia.
Qed.

Lemma endGov_ready : end_ready params_ok callUnmarshal 5 endGov.
Proof.
  constructor.
  - split; [apply one_inv, wonProp_range|by intros []].
  - split; [apply one_inv, dueProp_range|by intros []].
  - split; [apply fresh_inv; intros k bz; cbn; by rewrite lookup_empty|by intros []].
  - intros p. cbn [endGov gc_proposalLedger tree NewFinalityLedger]. rewrite one_item. destruct (decide _); [|done]. by intros [= <-].
  - intros p. cbn [endGov gc_frozenLedger tree NewFinalityLedger]. rewrite one_item. destruct (decide _); [|done]. intros [= <-] _ _ _.
    exists DefaultGovParams. split; [|apply default_ok]. vm_compute. reflexivity.
Qed.

Definition wonFrozen : GovProposal := set_major (Some (mkOption noOption 100)) wonProp.
Lemma wonProp_frozen : decision wonProp = Some wonFrozen.
Proof. unfold wonFrozen, wonProp. generalize noOption. intros o. vm_compute. reflexivity. Qed.
Lemma wonProp_installed old : installed (omap decision (List.filter (ended 5) [wonProp])) (GovProposal_Key wonProp) old = decision wonProp.
Proof.
  change (List.filter (ended 5) [wonProp]) with [wonProp]. cbn [omap list_omap]. rewrite wonProp_frozen.
  exact (installed_in proposal_range [wonFrozen] wonFrozen old (NoDup_singleton _) ltac:(by apply elem_of_cons; left)).
Qed.
Lemma wonProp_not_due : GovProposal_Key wonProp ∉ map Key (List.filter (due 5) [dueProp]).
Proof. intros Hin. apply elem_of_cons in Hin as [Hin|Hin]; [vm_compute in Hin; discriminate|by apply not_elem_of_nil in Hin]. Qed.
Lemma dueProp_asked : omap (asked callUnmarshal DefaultGovParams) (List.filter (due 5) [dueProp]) = [DefaultGovParams].
Proof. vm_compute. reflexivity. Qed.

Lemma gov_end_block_spec_witness :
  exists c', GovCtrler_EndBlock callUnmarshal dueBlock endGov = (Ret [EvFrozen (replicate 32 Byte.x06); EvApplied (replicate 32 Byte.x05)], c') /\
    gc_newGovParams c' = Some DefaultGovParams /\ visible (gc_proposalLedger c') Deliver (GovProposal_Key wonProp) = None /\
    visible (gc_frozenLedger c') Deliver (GovProposal_Key wonProp) = decision wonProp /\ decision wonProp <> None /\
    visible (gc_paramsLedger c') Deliver GovParams_Key = Some DefaultGovParams.
Proof.
  destruct (gov_end_block_spec params_ok callUnmarshal dueBlock endGov endGov_ready) as (ps & fs & c' & Hps & Hfs & H).
  apply one_list in Hps. apply one_list in Hfs. subst ps fs. destruct H as (Hrun & _ & Hnew & HP & HF & HG).
  exists c'. split; [etrans; [exact Hrun|vm_compute; reflexivity]|]. split; [rewrite Hnew; vm_compute; reflexivity|]. split.
  - etrans; [apply HP|]. rewrite decide_True; [done|]. apply elem_of_cons. left. reflexivity.
  - split; [|split; [by rewrite wonProp_frozen|etrans; [apply HG|]]].
    + etrans; [apply HF|]. rewrite decide_False; [apply wonProp_installed|apply wonProp_not_due].
    + change (gc_GovParams endGov) with DefaultGovParams. change (bc_Height dueBlock) with 5. rewrite dueProp_asked. exact (installed_in params_ok [DefaultGovParams] DefaultGovParams _ (NoDup_singleton _) ltac:(by apply elem_of_cons; left)).
Defined.
