(* ===== verification/Locks.v ===== *)
(** * Methods under a lock

    The controllers protect their state with a mutex that is not re-entrant: an
    exported method takes it, calls the unexported one that the other files
    model, and releases it with a deferred call.  A method that waits for a mutex
    its own goroutine holds never returns: [None].  ([RLock] admits several readers;
    here it is treated like [Lock], which is the stricter of the two.) *)

From Stdlib Require Import Strings.Byte.
From S2P Require Import Prelude Xerrors GoSem Bytes Ledger LedgerSpec GovParams Account Trx Context AcctCtrler Stake StakeLimiter StakeCtrler Proposal GovCtrler.

Record guarded (S : Type) : Type := Guarded { g_locked : bool; g_state : S }.
Arguments Guarded {S} _ _.
Arguments g_locked {S} _.
Arguments g_state {S} _.

(** [mtx.Lock(); defer mtx.Unlock(); return m()] *)
Definition locked {S A} (m : GoM S A) (g : guarded S) : option (outcome A * guarded S) :=
  if g_locked g then None else let '(r, s) := m (g_state g) in Some (r, Guarded false s).

(** The lock is free again whatever the method did, also when it panicked. *)
Lemma locked_run {S A} (m : GoM S A) s : locked m (Guarded false s) = Some ((m s).1, Guarded false (m s).2).
Proof. unfold locked. cbn. by destruct (m s). Qed.

(** Two calls one after the other are the two bodies one after the other. *)
Lemma locked_seq {S A B} (m : GoM S A) (k : GoM S B) s :
  match locked m (Guarded false s) with
  | Some (_, g) => locked k g = Some ((k (m s).2).1, Guarded false (k (m s).2).2)
  | None => False
  end.
Proof. rewrite locked_run. apply locked_run. Qed.

Section Controllers.
Context {Tr A : Type} {Tree : Iavl Tr} {C : Codec AcctProto} {Acct : IAccountHandler A}.
Context {CS : Codec Stake} {CD : Codec Delegatee} {CR : Codec RewardProto}.
Context {CGP : Codec GovParamsProto} {CGJ : Codec GovParamsJSON} {D : DecCodec} {CP : Codec GovProposal}.

(** [AcctCtrler] *)
Definition acct_FindAccount (addr : bytes) (exec : bool) := locked (findAccount (Tr := Tr) addr exec).
Definition acct_ReadAccount (addr : bytes) := locked (readAccount (Tr := Tr) addr).
Definition acct_SetAccountCommittable (p : loc) (exec : bool) := locked (setAccountCommittable (Tr := Tr) p exec).
Definition acct_BeginBlock (bctx : BlockContext) : GoM (FinalityLedger Account Tr) unit := retM tt.
(** [ImmuAcctCtrler] has no past of its own. *)
Definition immu_ImmutableAcctCtrlerAt (height : Z) : GoM (FinalityLedger Account Tr) (FinalityLedger Account Tr) := panicM.

(** [GovCtrler] *)
Definition gov_DoPunish (evi : Evidence) := locked (GovCtrler_doPunish (Tr := Tr) evi).
Definition gov_GetGovParams := locked (getsM (gc_GovParams (Tr := Tr))).

(** [StakeCtrler] *)
Definition stake_DoPunish (evi : Evidence) (slashRatio : Z) := locked (doPunish (Tr := Tr) (A := A) evi slashRatio).
Definition UpdateValidators (maxVals : Z) := locked (updateValidators (Tr := Tr) (A := A) maxVals).
(** Every error of the ledger is reported as nil. *)
Definition Delegatee_of (addr : bytes) : GoM (FinalityLedger Delegatee Tr) (option loc) :=
  let! r := tryM (GetFinality (ToLedgerKey addr)) in
  retM (match r with inr d => Some d | inl _ => None end).
Definition stake_Delegatee (addr : bytes) := locked (Delegatee_of addr).
End Controllers.

(** [StakeLimiter.Reset] *)
Definition limiter_Reset (vals : list Delegatee) (maxValCnt indiLimitRatio upLimitRatio : Z) :=
  locked (modifyM (fun _ : StakeLimiter => limiter_reset vals maxValCnt indiLimitRatio upLimitRatio)).
