(* ===== verification/MetaDB.v ===== *)
(** * The metadata store: [ctrlers/types/meta_db.go], and the JSON form of the
    block context ([ctrlers/types/block_ctx.go])

    A key-value database with a cache in front of it.  A missing value is a nil
    slice ([None]); the cache may hold nil slices.  The database and the JSON
    library are parameters. *)

From Stdlib Require Import Strings.Byte.
From S2P Require Import Prelude Xerrors GoSem Bytes Ledger GovParams Account Trx Context.

(** [tmdb.DB] *)
Class TmDB (DB : Type) := {
  db_Get : DB -> string -> string + option (list Byte.byte);
  db_SetSync : DB -> string -> list Byte.byte -> string + DB;
}.

(** What is read is what was last written. *)
Class TmDBLaws (DB : Type) {T : TmDB DB} : Prop := {
  db_get_set_eq : forall d k v d', db_SetSync d k v = inr d' -> db_Get d' k = inr (Some v);
  db_get_set_ne : forall d k v d' k', db_SetSync d k v = inr d' -> k' <> k -> db_Get d' k' = db_Get d k';
}.

(** The fields of the block context that are written. *)
Record BlockContextJSON : Type := mkBlockContextJSON {
  bj_BlockInfo : RequestBeginBlock;
  bj_GasSum : Z;
  bj_TxsCnt : Z;
  bj_AppHash : list Byte.byte;
}.

Definition keyChainID : string := "ci".
Definition keyBlockHeight : string := "bh".
Definition keyBlockContext : string := "bc".
Definition keyBlockAppHash : string := "ah".
Definition keyRewardHash : string := "rh".

Section MetaDB.
Context {DB : Type} {T : TmDB DB} {CB : Codec BlockContextJSON}.

Record MetaDB : Type := mkMetaDB { md_db : DB; md_cache : gmap string (option (list Byte.byte)) }.

Definition OpenMetaDB (db : DB) : MetaDB := mkMetaDB db ∅.

Definition putCache (k : string) (v : option (list Byte.byte)) (m : MetaDB) : MetaDB := mkMetaDB (md_db m) (<[k := v]> (md_cache m)).
Definition getCache (k : string) (m : MetaDB) : option (list Byte.byte) := md_cache m !! k ≫= id.

Definition md_get (k : string) : GoM MetaDB (option (list Byte.byte)) := fun m =>
  match getCache k m with
  | Some v => (Ret (Some v), m)
  | None => match db_Get (md_db m) k with
            | inr v => (Ret v, putCache k v m)
            | inl _ => (Ret None, m)
            end
  end.

(** The error of the database is returned; the callers drop it. *)
Definition md_put (k : string) (v : list Byte.byte) : GoM MetaDB (string + unit) := fun m =>
  match db_SetSync (md_db m) k v with
  | inl e => (Ret (inl e), m)
  | inr db' => (Ret (inr tt), putCache k (Some v) (mkMetaDB db' (md_cache m)))
  end.

Definition md_ChainID : GoM MetaDB string :=
  let! v := md_get keyChainID in retM (match v with None => ""%string | Some bz => String.string_of_list_byte bz end).
Definition PutChainID (chainId : string) : GoM MetaDB (string + unit) := md_put keyChainID (String.list_byte_of_string chainId).

(** [binary.BigEndian.Uint64] of a short slice panics. *)
Definition LastBlockHeight : GoM MetaDB Z :=
  let! v := md_get keyBlockHeight in
  match v with
  | None => retM 0
  | Some bz => if (length bz <? 8)%nat then panicM else retM (i64 (be_value (take 8 bz)))
  end.
Definition PutLastBlockHeight (bh : Z) : GoM MetaDB (string + unit) := md_put keyBlockHeight (be_fixed 8 (u64 bh)).

Definition LastBlockAppHash : GoM MetaDB (option (list Byte.byte)) := md_get keyBlockAppHash.
Definition PutLastBlockAppHash (v : list Byte.byte) : GoM MetaDB (string + unit) := md_put keyBlockAppHash v.
Definition LastRewardHash : GoM MetaDB (option (list Byte.byte)) := md_get keyRewardHash.
Definition PutLastRewardHash (v : list Byte.byte) : GoM MetaDB (string + unit) := md_put keyRewardHash v.

(** [MarshalJSON] and [UnmarshalJSON] of the block context: the validator
    updates are not stored. *)
Definition BlockContext_MarshalJSON (b : BlockContext) : string + list Byte.byte :=
  codec_Marshal (mkBlockContextJSON (bc_blockInfo b) (bc_feeSum b) (bc_txsCnt b) (bc_appHash b)).
Definition BlockContext_UnmarshalJSON (bz : list Byte.byte) : string + BlockContext :=
  match codec_Unmarshal bz with
  | inl e => inl e
  | inr j => inr (mkBlockContext (bj_BlockInfo j) (bj_GasSum j) (bj_TxsCnt j) (bj_AppHash j) [])
  end.

Definition LastBlockContext : GoM MetaDB (option BlockContext) :=
  let! v := md_get keyBlockContext in
  retM (match v with
        | None => None
        | Some bz => match BlockContext_UnmarshalJSON bz with inl _ => None | inr b => Some b end
        end).
Definition PutLastBlockContext (b : BlockContext) : GoM MetaDB (string + unit) :=
  match BlockContext_MarshalJSON b with
  | inl e => retM (inl e)
  | inr bz => md_put keyBlockContext bz
  end.

(** ** Reading back what was written *)

(** The cache agrees with the database. *)
Definition cache_ok (m : MetaDB) : Prop :=
  forall k v, md_cache m !! k = Some (Some v) -> db_Get (md_db m) k = inr (Some v).

Context {Laws : TmDBLaws DB}.

(** What a reader sees under a key. *)
Definition meta_value (m : MetaDB) (k : string) : option (list Byte.byte) :=
  match db_Get (md_db m) k with inr v => v | inl _ => None end.

Lemma get_value m k : cache_ok m -> exists m', md_get k m = (Ret (meta_value m k), m') /\ cache_ok m' /\ forall k', meta_value m' k' = meta_value m k'.
Proof.
  intros Hc. unfold md_get, getCache, meta_value. destruct (md_cache m !! k) as [[v|]|] eqn:E; cbn.
  - exists m. rewrite (Hc k v E). done.
  - destruct (db_Get (md_db m) k) as [e|v] eqn:Ed; [by exists m|]. exists (putCache k v m). split_and!; [done| |done].
    intros k' v'. cbn. rewrite lookup_insert. case_decide; [|apply Hc]. intros [= ->]. by subst.
  - destruct (db_Get (md_db m) k) as [e|v] eqn:Ed; [by exists m|]. exists (putCache k v m). split_and!; [done| |done].
    intros k' v'. cbn. rewrite lookup_insert. case_decide; [|apply Hc]. intros [= ->]. by subst.
Qed.

Lemma put_value m k v :
  cache_ok m ->
  exists r m', md_put k v m = (Ret r, m') /\ cache_ok m' /\
    match r with
    | inl _ => m' = m
    | inr _ => forall k', meta_value m' k' = if decide (k' = k) then Some v else meta_value m k'
    end.
Proof.
  intros Hc. unfold md_put. destruct (db_SetSync (md_db m) k v) as [e|db'] eqn:E; [by exists (inl e), m|].
  exists (inr tt), (putCache k (Some v) (mkMetaDB db' (md_cache m))). split_and!; [done| |].
  - intros k' v'. cbn. rewrite lookup_insert. case_decide as Hk.
    + intros [= ->]. subst k'. by apply (db_get_set_eq (md_db m) k v').
    + intros Hx. rewrite (db_get_set_ne (md_db m) k v db' k') by done. by apply Hc.
  - intros k'. unfold meta_value. cbn. case_decide; [subst k'; by rewrite (db_get_set_eq (md_db m) k v)|].
    by rewrite (db_get_set_ne (md_db m) k v db' k').
Qed.

(** What the two writes of a commit leave. *)
Lemma last_block_values (m m1 m2 : MetaDB) (b : BlockContext) (h : Z) (valid : BlockContextJSON -> Prop)
    {CL : CodecLaws BlockContextJSON valid} :
  cache_ok m -> valid (mkBlockContextJSON (bc_blockInfo b) (bc_feeSum b) (bc_txsCnt b) (bc_appHash b)) ->
  PutLastBlockContext b m = (Ret (inr tt), m1) -> PutLastBlockHeight h m1 = (Ret (inr tt), m2) ->
  exists bz, meta_value m2 keyBlockContext = Some bz /\ BlockContext_UnmarshalJSON bz = inr (SetValUpdates [] b) /\
    meta_value m2 keyBlockHeight = Some (be_fixed 8 (u64 h)) /\ cache_ok m2 /\
    forall k, k <> keyBlockContext -> k <> keyBlockHeight -> meta_value m2 k = meta_value m k.
Proof.
  intros Hc Hv. unfold PutLastBlockContext, BlockContext_MarshalJSON.
  destruct (codec_Marshal (mkBlockContextJSON _ _ _ _)) as [e|bz] eqn:Em; [done|]. intros H1 H2.
  destruct (put_value m keyBlockContext bz Hc) as (r1 & m1' & Hp1 & Hc1 & Hr1). rewrite H1 in Hp1. injection Hp1 as <- <-.
  destruct (put_value m1 keyBlockHeight (be_fixed 8 (u64 h)) Hc1) as (r2 & m2' & Hp2 & Hc2 & Hr2).
  unfold PutLastBlockHeight in H2. rewrite H2 in Hp2. injection Hp2 as <- <-. exists bz. split_and!.
  - by rewrite Hr2, decide_False, Hr1, decide_True by done.
  - unfold BlockContext_UnmarshalJSON. by rewrite (codec_roundtrip _ bz Hv Em).
  - by rewrite Hr2, decide_True.
  - done.
  - intros k Hk1 Hk2. by rewrite Hr2, decide_False, Hr1, decide_False.
Qed.

Lemma open_cache_ok (db : DB) : cache_ok (OpenMetaDB db).
Proof. intros k v. cbn. by rewrite lookup_empty. Qed.

(** A restart finds the last block.  If both writes of a commit succeed,
    then the block context and the height read back, by this process or by a
    process that opens the database anew, are the ones written (the validator
    updates, which are not stored, apart). *)
Theorem last_block_roundtrip (m m1 m2 : MetaDB) (b : BlockContext) (h : Z) (valid : BlockContextJSON -> Prop)
    {CL : CodecLaws BlockContextJSON valid} :
  cache_ok m -> is_i64 h -> valid (mkBlockContextJSON (bc_blockInfo b) (bc_feeSum b) (bc_txsCnt b) (bc_appHash b)) ->
  PutLastBlockContext b m = (Ret (inr tt), m1) -> PutLastBlockHeight h m1 = (Ret (inr tt), m2) ->
  (exists m', LastBlockContext m2 = (Ret (Some (SetValUpdates [] b)), m')) /\ (exists m', LastBlockHeight m2 = (Ret h, m')) /\
  (exists m', LastBlockContext (OpenMetaDB (md_db m2)) = (Ret (Some (SetValUpdates [] b)), m')) /\
  (exists m', LastBlockHeight (OpenMetaDB (md_db m2)) = (Ret h, m')).
Proof.
  intros Hc Hh Hv H1 H2. destruct (last_block_values m m1 m2 b h valid Hc Hv H1 H2) as (bz & Hctx & Hdec & Hht & Hc2 & _).
  assert (Hgo : forall mm, cache_ok mm -> md_db mm = md_db m2 ->
    (exists m', LastBlockContext mm = (Ret (Some (SetValUpdates [] b)), m')) /\ (exists m', LastBlockHeight mm = (Ret h, m'))).
  { intros mm Hcm Hdb. assert (Hval : forall k, meta_value mm k = meta_value m2 k) by (intros; unfold meta_value; by rewrite Hdb). split.
    - destruct (get_value mm keyBlockContext Hcm) as (m' & Hg & _). exists m'. unfold LastBlockContext.
      rewrite (bindM_step _ _ _ _ _ Hg), Hval, Hctx, Hdec. done.
    - destruct (get_value mm keyBlockHeight Hcm) as (m' & Hg & _). exists m'. unfold LastBlockHeight.
      rewrite (bindM_step _ _ _ _ _ Hg), Hval, Hht, length_be_fixed. cbn [Nat.ltb Nat.leb].
      rewrite take_ge by (rewrite length_be_fixed; lia). rewrite be_value_fixed.
      change (256 ^ Z.of_nat 8) with (2 ^ 64). unfold u64, wrap_u. rewrite Z.mod_mod by lia.
      unfold retM. do 2 f_equal. unfold i64, wrap_s, is_i64 in *.
      rewrite Zplus_mod_idemp_l. rewrite Z.mod_small by lia. lia. }
  destruct (Hgo m2 Hc2 eq_refl) as [H3 H4]. destruct (Hgo (OpenMetaDB (md_db m2)) (open_cache_ok _) eq_refl) as [H5 H6]. by split_and!.
Qed.
End MetaDB.

(** ** Witness *)
#[export] Instance mapDB : TmDB (gmap string (list Byte.byte)) := {|
  db_Get d k := inr (d !! k);
  db_SetSync d k v := inr (<[k := v]> d);
|}.
#[export] Instance mapDB_laws : TmDBLaws (gmap string (list Byte.byte)).
Proof.
  constructor; cbn.
  - intros d k v d' [= <-]. by rewrite lookup_insert_eq.
  - intros d k v d' k' [= <-] Hne. by rewrite lookup_insert_ne.
Qed.

Definition block5 : BlockContext := mkBlockContext (mkBeginBlock (mkHeader 5 0 [] []) [] []) 7 2 [Byte.x01] [].
Definition json5 : BlockContextJSON := mkBlockContextJSON (bc_blockInfo block5) 7 2 [Byte.x01].
(** A JSON library that knows one value. *)
Definition oneCodec : Codec BlockContextJSON := {| codec_Marshal _ := inr [Byte.x7b; Byte.x7d]; codec_Unmarshal _ := inr json5 |}.

Lemma oneCodec_laws : @CodecLaws BlockContextJSON oneCodec (fun j => j = json5).
Proof. constructor. by intros x bz -> _. Qed.

Lemma last_block_roundtrip_witness :
  exists m2 m', @LastBlockContext _ mapDB oneCodec m2 = (Ret (Some (SetValUpdates [] block5)), m').
Proof.
  pose (m := OpenMetaDB (∅ : gmap string (list Byte.byte))).
  pose (m1 := (@PutLastBlockContext _ mapDB oneCodec block5 m).2). pose (m2 := (PutLastBlockHeight 5 m1).2).
  destruct (@last_block_roundtrip _ mapDB oneCodec mapDB_laws m m1 m2 block5 5 (fun j => j = json5) oneCodec_laws) as ((m' & H) & _).
  - intros k v. cbn. rewrite lookup_empty. discriminate.
  - unfold is_i64. lia.
  - reflexivity.
  - reflexivity.
  - reflexivity.
  - exists m2, m'. exact H.
Defined.
