(* ===== verification/StateDB.v ===== *)
(** * The state the EVM works on: [ctrlers/vm/evm/statedb.go], [block_ctx.go]

    go-ethereum's [StateDB] and its interpreter are not part of the repository.
    [SDBOp] is the interface [vm.StateDB] through which the interpreter reaches
    its state, one constructor per method; an execution is a finite program of
    such calls ([evm_prog]).  [StateDBWrapper] implements the interface: it copies
    balance and nonce of the account of the node into the EVM state when an
    address is first accessed, and back when the execution ends. *)

From Stdlib Require Import Strings.Byte.
From S2P Require Import Prelude Xerrors GoSem Bytes Ledger GovParams Account Trx Context.

Record EthLog : Type := mkEthLog { lg_Address : list Byte.byte; lg_Topics : list (list Byte.byte); lg_Data : list Byte.byte; lg_Removed : bool }.

(** [vm.StateDB]: addresses, hashes and code are byte strings. *)
Inductive SDBOp : Type -> Type :=
  | op_CreateAccount (addr : list Byte.byte) : SDBOp unit
  | op_SubBalance (addr : list Byte.byte) (amt : Z) : SDBOp unit
  | op_AddBalance (addr : list Byte.byte) (amt : Z) : SDBOp unit
  | op_GetBalance (addr : list Byte.byte) : SDBOp Z
  | op_GetNonce (addr : list Byte.byte) : SDBOp Z
  | op_SetNonce (addr : list Byte.byte) (n : Z) : SDBOp unit
  | op_GetCodeHash (addr : list Byte.byte) : SDBOp (list Byte.byte)
  | op_GetCode (addr : list Byte.byte) : SDBOp (list Byte.byte)
  | op_SetCode (addr code : list Byte.byte) : SDBOp unit
  | op_GetCodeSize (addr : list Byte.byte) : SDBOp Z
  | op_AddRefund (gas : Z) : SDBOp unit
  | op_SubRefund (gas : Z) : SDBOp unit
  | op_GetRefund : SDBOp Z
  | op_GetCommittedState (addr key : list Byte.byte) : SDBOp (list Byte.byte)
  | op_GetState (addr key : list Byte.byte) : SDBOp (list Byte.byte)
  | op_SetState (addr key value : list Byte.byte) : SDBOp unit
  | op_Suicide (addr : list Byte.byte) : SDBOp bool
  | op_HasSuicided (addr : list Byte.byte) : SDBOp bool
  | op_Exist (addr : list Byte.byte) : SDBOp bool
  | op_Empty (addr : list Byte.byte) : SDBOp bool
  | op_PrepareAccessList (addr : list Byte.byte) (dest : option (list Byte.byte)) (precompiles : list (list Byte.byte))
      (txAccesses : list (list Byte.byte * list (list Byte.byte))) : SDBOp unit
  | op_AddressInAccessList (addr : list Byte.byte) : SDBOp bool
  | op_SlotInAccessList (addr slot : list Byte.byte) : SDBOp (bool * bool)
  | op_AddAddressToAccessList (addr : list Byte.byte) : SDBOp unit
  | op_AddSlotToAccessList (addr slot : list Byte.byte) : SDBOp unit
  | op_RevertToSnapshot (revid : Z) : SDBOp unit
  | op_Snapshot : SDBOp Z
  | op_AddLog (log : EthLog) : SDBOp unit
  | op_AddPreimage (hash preimage : list Byte.byte) : SDBOp unit
  | op_ForEachStorage (addr : list Byte.byte) (cb : list Byte.byte -> list Byte.byte -> bool) : SDBOp (option string).

(** go-ethereum's [core/state]: a state over a database, opened at a root. *)
Class GethState := {
  SDB : Type;
  EthDB : Type;
  state_New : list Byte.byte -> EthDB -> string + SDB;
  sdb_call : forall R, SDBOp R -> GoM SDB R;
  sdb_Prepare : list Byte.byte -> Z -> SDB -> SDB;
  sdb_GetOrNewStateObject : list Byte.byte -> SDB -> SDB;
  obj_SetNonce : list Byte.byte -> Z -> SDB -> SDB;
  obj_SetBalance : list Byte.byte -> Z -> SDB -> SDB;
  sdb_Finalise : bool -> SDB -> SDB;
  sdb_IntermediateRoot : bool -> SDB -> list Byte.byte * SDB;
  sdb_Commit : bool -> SDB -> string + (list Byte.byte * SDB);
  trie_Commit : list Byte.byte -> SDB -> EthDB -> string + EthDB;
  sdb_GetLogs : list Byte.byte -> SDB -> list EthLog;
}.
Arguments sdb_call {_ R} _.

(** The interpreter: a finite program over the interface. *)
Inductive evm_prog (R : Type) : Type :=
  | Done (r : R)
  | Call {X : Type} (op : SDBOp X) (k : X -> evm_prog R).
Arguments Done {R} _.
Arguments Call {R X} _ _.

Fixpoint prog_bind {R Q} (p : evm_prog R) (k : R -> evm_prog Q) : evm_prog Q :=
  match p with Done r => k r | Call op h => Call op (fun x => prog_bind (h x) k) end.

Section StateDB.
Context {G : GethState}.

Record StateDBWrapper : Type := mkWrapper {
  sw_StateDB : SDB;
  sw_immutable : bool;
  accessedObjAddrs : gmap (list Byte.byte) Z;
  sw_snapshot : Z;
  sw_exec : bool;
}.

Definition NewStateDBWrapper (db : EthDB) (rootHash : list Byte.byte) : string + StateDBWrapper :=
  match state_New (Array32 rootHash) db with
  | inl e => inl e
  | inr s => inr (mkWrapper s false ∅ 0 false)
  end.

Context {A : Type} {AH : IAccountHandler A}.
Abbreviation WM R := (GoM (StateDBWrapper * A) R).

Definition set_sdb (db : SDB) (w : StateDBWrapper) : StateDBWrapper := mkWrapper db (sw_immutable w) (accessedObjAddrs w) (sw_snapshot w) (sw_exec w).
Definition set_accessed (m : gmap (list Byte.byte) Z) (w : StateDBWrapper) : StateDBWrapper := mkWrapper (sw_StateDB w) (sw_immutable w) m (sw_snapshot w) (sw_exec w).
Definition set_snapshot (n : Z) (w : StateDBWrapper) : StateDBWrapper := mkWrapper (sw_StateDB w) (sw_immutable w) (accessedObjAddrs w) n (sw_exec w).
Definition set_exec (b : bool) (w : StateDBWrapper) : StateDBWrapper := mkWrapper (sw_StateDB w) (sw_immutable w) (accessedObjAddrs w) (sw_snapshot w) b.
Definition l_sdb : lens (StateDBWrapper * A) SDB := Lens (fun s => sw_StateDB s.1) (fun db s => (set_sdb db s.1, s.2)).

Definition on_sdb {R} (f : GoM SDB R) : WM R := zoom l_sdb f.
Definition mod_sdb (f : SDB -> SDB) : WM unit := on_sdb (modifyM f).
Definition mod_wrapper (f : StateDBWrapper -> StateDBWrapper) : WM unit := modifyM (fun s => (f s.1, s.2)).

(** On the first access the account of the node is copied into the state
    object ([GetOrNewStateObject] does not return nil). *)
Definition addAccessedObjAddr (addr : list Byte.byte) : WM unit :=
  let! w := getsM fst in
  match accessedObjAddrs w !! addr with
  | Some _ => retM tt
  | None =>
      do! mod_sdb (sdb_GetOrNewStateObject addr) in
      let! p := zoom lens_snd (FindOrNewAccount addr (sw_exec w)) in
      let! rigoAcct := zoom lens_snd (load_account p) in
      do! mod_sdb (obj_SetNonce addr (Nonce rigoAcct)) in
      do! mod_sdb (obj_SetBalance addr (Balance rigoAcct)) in
      mod_wrapper (fun w => set_accessed (<[addr := sw_snapshot w + 1]> (accessedObjAddrs w)) w)
  end.

Definition AddAddressToAccessList (addr : list Byte.byte) : WM unit :=
  do! addAccessedObjAddr addr in
  on_sdb (sdb_call (op_AddAddressToAccessList addr)).

Definition AddSlotToAccessList (addr slot : list Byte.byte) : WM unit := on_sdb (sdb_call (op_AddSlotToAccessList addr slot)).

Definition PrepareAccessList (addr : list Byte.byte) (dest : option (list Byte.byte)) (precompiles : list (list Byte.byte))
    (txAccesses : list (list Byte.byte * list (list Byte.byte))) : WM unit :=
  do! addAccessedObjAddr addr in
  do! match dest with Some d => addAccessedObjAddr d | None => retM tt end in
  do! forM_ precompiles addAccessedObjAddr in
  do! forM_ txAccesses (fun el =>
        do! addAccessedObjAddr el.1 in
        forM_ el.2 (fun key => AddSlotToAccessList el.1 key)) in
  on_sdb (sdb_call (op_PrepareAccessList addr dest precompiles txAccesses)).

(** The addresses first accessed after the snapshot are forgotten. *)
Definition revertAccessedObjAddr (snapshot : Z) : WM unit :=
  mod_wrapper (fun w => set_accessed (filter (fun kv => ~ (snapshot < kv.2)) (accessedObjAddrs w)) w).

Definition RevertToSnapshot (revid : Z) : WM unit :=
  do! revertAccessedObjAddr revid in
  on_sdb (sdb_call (op_RevertToSnapshot revid)).

Definition Snapshot : WM Z :=
  let! id := on_sdb (sdb_call op_Snapshot) in
  do! mod_wrapper (set_snapshot id) in
  retM id.

(** The methods of the wrapper; all others call the method of the same name. *)
Definition wrapper_call {R} (op : SDBOp R) : WM R :=
  match op in SDBOp R return WM R with
  | op_PrepareAccessList addr dest precompiles txAccesses => PrepareAccessList addr dest precompiles txAccesses
  | op_AddAddressToAccessList addr => AddAddressToAccessList addr
  | op_AddSlotToAccessList addr slot => AddSlotToAccessList addr slot
  | op_RevertToSnapshot revid => RevertToSnapshot revid
  | op_Snapshot => Snapshot
  | op => on_sdb (sdb_call op)
  end.

Fixpoint interp {R} (p : evm_prog R) : WM R :=
  match p with
  | Done r => retM r
  | Call op k => fun s => (let! x := wrapper_call op in fun s => interp (k x) s) s
  end.

Definition Prepare (txhash : list Byte.byte) (txidx : Z) (from to : list Byte.byte) (snap : Z) (exec : bool) : WM unit :=
  do! mod_wrapper (fun w => set_snapshot snap (set_exec exec w)) in
  do! mod_sdb (sdb_Prepare (Array32 txhash) txidx) in
  do! AddAddressToAccessList (Array20 from) in
  if IsZeroAddress to then retM tt else AddAddressToAccessList (Array20 to).

(** [uint256.MustFromBig] *)
Definition MustFromBig (b : Z) : outcome Z := if b <? 2 ^ 256 then Ret (u256 b) else Panic.

(** The body of the loop of [Finish]: balance and nonce go back to the account
    of the node. *)
Definition write_back (addr : list Byte.byte) : WM unit :=
  let! bal := on_sdb (sdb_call (op_GetBalance addr)) in
  let! amt := liftO (MustFromBig bal) in
  let! nonce := on_sdb (sdb_call (op_GetNonce addr)) in
  let! w := getsM fst in
  let! p := zoom lens_snd (FindOrNewAccount addr (sw_exec w)) in
  do! zoom lens_snd (on_account p (fun a => inr (SetBalance amt a))) in
  do! zoom lens_snd (on_account p (fun a => inr (SetNonce nonce a))) in
  ignoreM (zoom lens_snd (SetAccountCommittable p (sw_exec w))).

(** [order]: the keys of a Go map in the order of its iteration. *)
Context (order : gmap (list Byte.byte) Z -> list (list Byte.byte)).

Definition Finish : WM unit :=
  let! w := getsM fst in
  do! forM_ (order (accessedObjAddrs w)) write_back in
  mod_wrapper (set_accessed ∅).
End StateDB.
Arguments StateDBWrapper {G}.

(** ** The context of a block for the interpreter: [block_ctx.go] *)
Definition gasLimit : Z := 25000000.
Definition gasFeeCap : Z := 0.
Definition gasTipCap : Z := 0.

(** [CanTransfer] and [Transfer], which the interpreter calls back. *)
Definition CanTransfer (addr : list Byte.byte) (amount : Z) : evm_prog bool :=
  Call (op_GetBalance addr) (fun b => Done (amount <=? b)).
Definition EvmTransfer (sender recipient : list Byte.byte) (amount : Z) : evm_prog unit :=
  Call (op_SubBalance sender amount) (fun _ => Call (op_AddBalance recipient amount) (fun _ => Done tt)).
Definition GetHash (h : Z) : list Byte.byte := ZeroBytes 32.

Record EvmBlockContext : Type := mkEvmBlockContext {
  eb_CanTransfer : list Byte.byte -> Z -> evm_prog bool;
  eb_Transfer : list Byte.byte -> list Byte.byte -> Z -> evm_prog unit;
  eb_GetHash : Z -> list Byte.byte;
  eb_Coinbase : list Byte.byte; eb_BlockNumber : Z; eb_Time : Z; eb_Difficulty : Z; eb_BaseFee : Z; eb_GasLimit : Z;
}.
Definition evmBlockContext (sender : list Byte.byte) (bn tm : Z) : EvmBlockContext :=
  mkEvmBlockContext CanTransfer EvmTransfer GetHash sender bn tm 1 0 gasLimit.

Record Message : Type := mkMessage {
  mg_From : list Byte.byte; mg_To : option (list Byte.byte); mg_Nonce : Z; mg_Amount : Z; mg_Gas : Z; mg_GasPrice : Z;
  mg_GasFeeCap : Z; mg_GasTipCap : Z; mg_Data : list Byte.byte; mg_IsFake : bool;
}.
Definition evmMessage (from : list Byte.byte) (to : option (list Byte.byte)) (nonce gas gasPrice amt : Z) (data : list Byte.byte) (isFake : bool) : Message :=
  mkMessage from to nonce amt gas gasPrice gasFeeCap gasTipCap data isFake.
