(* ===== verification/Executor.v ===== *)
(** * The transaction executor: [node/trx_executor.go]

    Validation and execution of one transaction over the four controllers.
    The context is a mutable object: it is part of the state, so that what an
    execution wrote to it survives an error.  The EVM controller is reached
    through the interface [IVMHandler].  The channels and goroutines of the
    unused parallel mode are in Parallel.v. *)

From Stdlib Require Import Strings.Byte.
From S2P Require Import Prelude Xerrors GoSem Bytes Crypto Ledger LedgerSpec Concrete GovParams Account Trx Context AcctCtrler.
From S2P Require Import Stake StakeLimiter StakeCtrler Proposal GovCtrler.

Definition MaxInt64 : Z := 2 ^ 63 - 1.

(** The EVM controller, over its own state and the accounts. *)
Class IVMHandler (E A : Type) := {
  vm_ValidateTrx : TrxContext -> GoM (E * A) unit;
  vm_ExecuteTrx : GovParams -> GoM (E * A * TrxContext) unit;
  vm_BeginBlock : BlockContext -> GoM (E * A) unit;
  vm_EndBlock : BlockContext -> GoM (E * A) unit;
  vm_Commit : GoM (E * A) (list Byte.byte * Z);
}.

Section Executor.
Context {Tr E : Type} {Tree : Iavl Tr}.
Context {CA : Codec AcctProto} {CS : Codec Stake} {CD : Codec Delegatee} {CR : Codec RewardProto}.
Context {CGP : Codec GovParamsProto} {CGJ : Codec GovParamsJSON} {D : DecCodec} {CP : Codec GovProposal}.
Context {RL : RlpLib} {SL : EthCrypto}.
Abbreviation A := (FinalityLedger Account Tr).
Context {VM : IVMHandler E A}.
Context (tmjson_Unmarshal : (list Byte.byte -> string + GovParams) -> list Byte.byte -> string + GovParams).

(** The controllers of the application. *)
Record World : Type := mkWorld {
  w_gov : @GovCtrler Tr;
  w_acct : A;
  w_stake : @StakeCtrler Tr;
  w_vm : E;
}.

Definition l_gov : lens World (@GovCtrler Tr) := Lens w_gov (fun x w => mkWorld x (w_acct w) (w_stake w) (w_vm w)).
Definition l_acct : lens World A := Lens w_acct (fun x w => mkWorld (w_gov w) x (w_stake w) (w_vm w)).
Definition l_stake_acct : lens World (@StakeCtrler Tr * A) :=
  Lens (fun w => (w_stake w, w_acct w)) (fun x w => mkWorld (w_gov w) x.2 x.1 (w_vm w)).
Definition l_vm_acct : lens World (E * A) :=
  Lens (fun w => (w_vm w, w_acct w)) (fun x w => mkWorld (w_gov w) x.2 (w_stake w) x.1).
Definition params_of (w : World) : GovParams := gc_GovParams (w_gov w).

(** The state of the executor: the controllers and the context. *)
Abbreviation X := (World * TrxContext)%type.
Definition on_world {B} (m : GoM World B) : GoM X B := zoom lens_fst m.
Definition l_vm_ctx : lens X (E * A * TrxContext) :=
  Lens (fun x => (lget l_vm_acct x.1, x.2)) (fun y x => (lset l_vm_acct y.1 x.1, y.2)).

Definition Sender_ : GoM X Account := let! ctx := getsM snd in on_world (zoom l_acct (load (cx_Sender ctx))).
Definition Receiver_ : GoM X Account := let! ctx := getsM snd in on_world (zoom l_acct (load (cx_Receiver ctx))).
Definition of_check (r : XError + unit) : outcome unit := match r with inl e => Err e | inr u => Ret u end.

(** [new(uint256.Int).Mul(tx.GasPrice, uint256.NewInt(tx.Gas))] *)
Definition fee_of (tx : Trx) : Z := u256 (tx_GasPrice tx * u64 (tx_Gas tx)).

Definition commonValidation0 : GoM X unit :=
  let! x := getM in
  let g := params_of x.1 in
  let tx := cx_Tx x.2 in
  if negb (length (tx_From tx) =? AddrSize)%nat then errM ErrInvalidAddress
  else if negb (length (tx_To tx) =? AddrSize)%nat then errM ErrInvalidAddress
  else if u256_Sign (tx_Amount tx) <? 0 then errM ErrInvalidAmount
  else if MaxInt64 <? tx_Gas tx then errM ErrInvalidGas
  else if u256_Sign (tx_GasPrice tx) <? 0 then errM ErrInvalidGasPrice
  else
    let! price := liftO (GasPrice g) in
    if negb (tx_GasPrice tx =? price) then errM ErrInvalidGasPrice
    else
      let! minFee := liftO (MinTrxFee g) in
      if fee_of tx <? minFee then errM (Wrapf ErrInvalidGas "too small gas(fee)")
      else if cx_Exec x.2 then
        let! addr_pub := liftO (VerifyTrxRLP tx (cx_ChainID x.2)) in
        modifyM (fun x => (x.1, set_SenderPubKey addr_pub.2 x.2))
      else retM tt.

Definition commonValidation1 : GoM X unit :=
  let! ctx := getsM snd in
  let tx := cx_Tx ctx in
  let needAmt := u256 (fee_of tx + tx_Amount tx) in
  let! sender := Sender_ in
  do! liftO (of_check (CheckBalance needAmt sender)) in
  match CheckNonce (tx_Nonce tx) sender with
  | inl e => errM (Wrap e (plainerr "invalid nonce - ledger: %v, tx:%v, address: %v, txhash: %X"))
  | inr _ => retM tt
  end.

(** The handlers, by transaction type. *)
Definition is_gov_tx (ty : Z) : bool := (ty =? TRX_PROPOSAL) || (ty =? TRX_VOTING).
Definition is_acct_tx (ty : Z) : bool := (ty =? TRX_TRANSFER) || (ty =? TRX_SETDOC).
Definition is_stake_tx (ty : Z) : bool := (ty =? TRX_STAKING) || (ty =? TRX_UNSTAKING) || (ty =? TRX_WITHDRAW).

Definition validate_by_type : GoM X unit :=
  let! x := getM in
  let ctx := x.2 in
  let ty := tx_Type (cx_Tx ctx) in
  if is_gov_tx ty then on_world (zoom l_gov (GovCtrler_ValidateTrx tmjson_Unmarshal (w_stake x.1) ctx))
  else if is_acct_tx ty then on_world (zoom l_acct (AcctCtrler_ValidateTrx ctx))
  else if is_stake_tx ty then on_world (zoom l_stake_acct (StakeCtrler_ValidateTrx (params_of x.1) ctx))
  else if ty =? TRX_CONTRACT then on_world (zoom l_vm_acct (vm_ValidateTrx ctx))
  else errM ErrUnknownTrxType.

Definition validateTrx : GoM X unit :=
  do! commonValidation0 in
  do! commonValidation1 in
  validate_by_type.

(** [ErrUnknownTrxType] of the EVM controller is not an error here. *)
Definition run_vm : GoM X unit :=
  let! g := getsM (fun x => params_of x.1) in
  let! r := tryM (zoom l_vm_ctx (vm_ExecuteTrx g)) in
  match r with
  | inr _ => retM tt
  | inl e => if is_errvar e ErrUnknownTrxType then retM tt else errM e
  end.

Definition run_by_type : GoM X unit :=
  let! x := getM in
  let ctx := x.2 in
  let ty := tx_Type (cx_Tx ctx) in
  if ty =? TRX_CONTRACT then run_vm
  else if is_gov_tx ty then on_world (zoom l_gov (GovCtrler_ExecuteTrx (w_stake x.1) ctx))
  else if is_acct_tx ty then
    let! receiver := Receiver_ in
    if (ty =? TRX_TRANSFER) && bool_decide (is_Some (Code_ receiver)) then run_vm
    else on_world (zoom l_acct (AcctCtrler_ExecuteTrx ctx))
  else if is_stake_tx ty then on_world (zoom l_stake_acct (StakeCtrler_ExecuteTrx (params_of x.1) ctx))
  else errM ErrUnknownTrxType.

(** Fee and nonce, unless the EVM controller has taken care of them. *)
Definition postRunTrx : GoM X unit :=
  let! ctx := getsM snd in
  let tx := cx_Tx ctx in
  let! receiver := Receiver_ in
  if negb (tx_Type tx =? TRX_CONTRACT) && negb ((tx_Type tx =? TRX_TRANSFER) && bool_decide (is_Some (Code_ receiver))) then
    do! on_world (zoom l_acct (acct_method (cx_Sender ctx) (SubBalance (fee_of tx)))) in
    do! on_world (zoom l_acct (acct_method (cx_Sender ctx) (fun a => inr (AddNonce a)))) in
    do! on_world (zoom l_acct (setAccountCommittable (cx_Sender ctx) (cx_Exec ctx))) in
    modifyM (fun x => (x.1, set_GasUsed (tx_Gas tx) x.2))
  else retM tt.

Definition runTrx : GoM X unit :=
  do! run_by_type in
  postRunTrx.

Definition ExecuteSync : GoM X unit :=
  do! validateTrx in
  runTrx.
End Executor.
