(* ===== verification/EvmCtrler.v ===== *)
(** * The EVM controller: [ctrlers/vm/evm/ctrler.go], [query.go], [precompiled.go]

    The controller owns the EVM state of the block and the store of the roots
    of past blocks, and runs contract transactions over the accounts of the
    node.  The interpreter is a parameter: [ApplyMessage] is a program over the
    interface of the state (StateDB.v). *)

From Stdlib Require Import Strings.Byte.
From S2P Require Import Prelude Xerrors GoSem Bytes Crypto Ledger GovParams Account Trx Context MetaDB StateDB Executor.

Record ExecutionResult : Type := mkExecutionResult { UsedGas : Z; er_Err : option string; ReturnData : list Byte.byte }.

(** [ctrlers/types/vm.go]: the answer to a query, before it is rendered. *)
Record VMCallResult : Type := mkVMCallResult { vr_UsedGas : Z; vr_Err : string; vr_ReturnData : list Byte.byte }.

(** go-ethereum's [core]: [ApplyMessage] also returns what is left in the gas
    pool, in case of an error too; [IntrinsicGas] with the flags for contract
    creation, Homestead and Istanbul; the address of a new contract. *)
Class EthVM := {
  ApplyMessage : EvmBlockContext -> Message -> Z -> evm_prog ((string + ExecutionResult) * Z);
  IntrinsicGas : list Byte.byte -> bool -> bool -> bool -> string + Z;
  CreateAddress : list Byte.byte -> Z -> list Byte.byte;
}.

(** A batch of tm-db: all of it is written or nothing. *)
Class TmBatch (DB : Type) := { db_WriteBatch : list (string * list Byte.byte) -> DB -> string + DB }.
Class TmBatchLaws (DB : Type) {T : TmDB DB} {B : TmBatch DB} : Prop := {
  batch_get : forall kvs d d' k, db_WriteBatch kvs d = inr d' ->
    db_Get d' k = match list_find (fun kv => kv.1 = k) (reverse kvs) with Some (_, kv) => inr (Some kv.2) | None => db_Get d k end;
}.

Definition lastBlockHeightKey : string := "lbh".
Definition blockKey (h : Z) : string := "bn" +:+ FormatInt h.

Section EvmCtrler.
Context {G : GethState} {VM : EthVM} {DB : Type} {TD : TmDB DB} {TB : TmBatch DB}.
Context {A : Type} {AH : IAccountHandler A}.
Context (order : gmap (list Byte.byte) Z -> list (list Byte.byte)).

(** The chain configuration: every fork up to London is active from block 0. *)
Definition IsHomestead (bn : Z) : bool := 0 <=? bn.
Definition IsIstanbul (bn : Z) : bool := 0 <=? bn.
Definition IsByzantium (bn : Z) : bool := 0 <=? bn.
Definition IsEIP158 (bn : Z) : bool := 0 <=? bn.

Record EVMCtrler : Type := mkEVMCtrler {
  ec_vmevm : option EvmBlockContext;
  ec_ethDB : EthDB;
  stateDBWrapper : option (StateDBWrapper (G := G));
  blockGasPool : Z;
  ec_metadb : DB;
  lastRootHash : list Byte.byte;
  ec_lastBlockHeight : Z;
}.
Abbreviation EM R := (GoM (EVMCtrler * A) R).

Definition NewEVMCtrler (metadb : DB) (db : EthDB) : outcome EVMCtrler :=
  match db_Get metadb lastBlockHeightKey with
  | inl _ => Panic
  | inr val =>
      match (match val with None => Some 0 | Some v => ParseInt (String.string_of_list_byte v) end) with
      | None => Panic
      | Some bn =>
          match db_Get metadb (blockKey bn) with
          | inl _ => Panic
          | inr hash => Ret (mkEVMCtrler None db None 0 metadb (default [] hash) bn)
          end
      end
  end.

Definition EVM_BeginBlock (ctx : BlockContext) : EM unit := fun s =>
  let c := s.1 in
  if negb (i64 (ec_lastBlockHeight c + 1) =? bc_Height ctx) then (Err (Wrapf ErrBeginBlock "wrong block height - expected: %v, actual: %v"), s)
  else match NewStateDBWrapper (ec_ethDB c) (lastRootHash c) with
  | inl e => (Err (NewOrdinary e), s)
  | inr stdb =>
      let beneficiary := Array20 (hd_ProposerAddress (bi_Header (bc_blockInfo ctx))) in
      let bctx := evmBlockContext beneficiary (bc_Height ctx) (bc_TimeSeconds ctx) in
      (Ret tt, (mkEVMCtrler (Some bctx) (ec_ethDB c) (Some stdb) gasLimit (ec_metadb c) (lastRootHash c) (ec_lastBlockHeight c), s.2))
  end.

(** The input of a contract payload; other payloads have none. *)
Definition inputData (tx : Trx) : list Byte.byte := match tx_Payload tx with Some (PayloadContract d) => d | _ => [] end.

(** The condition under which a transaction is not for the EVM. *)
Definition not_contract (ctx : TrxContext) (receiver : Account) : bool :=
  negb (tx_Type (cx_Tx ctx) =? TRX_CONTRACT) && (match Code_ receiver with None => true | Some _ => false end).

Definition EVM_ValidateTrx (ctx : TrxContext) : EM unit :=
  let! receiver := zoom lens_snd (load_account (cx_Receiver ctx)) in
  if not_contract ctx receiver then errM ErrUnknownTrxType else
  match IntrinsicGas (inputData (cx_Tx ctx)) (IsZeroAddress (tx_To (cx_Tx ctx))) (IsHomestead (cx_Height ctx)) (IsIstanbul (cx_Height ctx)) with
  | inl e => errM (NewOrdinary e)
  | inr gas => if tx_Gas (cx_Tx ctx) <? gas then errM ErrInvalidGas else retM tt
  end.

Definition set_wrapper (w : StateDBWrapper (G := G)) (c : EVMCtrler) : EVMCtrler :=
  mkEVMCtrler (ec_vmevm c) (ec_ethDB c) (Some w) (blockGasPool c) (ec_metadb c) (lastRootHash c) (ec_lastBlockHeight c).

(** The methods of the wrapper on the state of the controller; a nil wrapper
    panics. *)
Definition on_wrapper {R} (f : GoM (StateDBWrapper (G := G) * A) R) : EM R := fun s =>
  match stateDBWrapper s.1 with
  | None => (Panic, s)
  | Some w => let '(r, (w', a')) := f (w, s.2) in (r, (set_wrapper w' s.1, a'))
  end.

Definition set_gasPool (gp : Z) (c : EVMCtrler) : EVMCtrler :=
  mkEVMCtrler (ec_vmevm c) (ec_ethDB c) (stateDBWrapper c) gp (ec_metadb c) (lastRootHash c) (ec_lastBlockHeight c).
Definition set_root (h : list Byte.byte) (c : EVMCtrler) : EVMCtrler :=
  mkEVMCtrler (ec_vmevm c) (ec_ethDB c) (stateDBWrapper c) (blockGasPool c) (ec_metadb c) h (ec_lastBlockHeight c).

Definition execVM (from to : list Byte.byte) (nonce gas gasPrice amt : Z) (data : list Byte.byte) : EM ExecutionResult :=
  let toAddr := if IsZeroAddress to then None else Some (Array20 to) in
  let vmmsg := evmMessage (Array20 from) toAddr nonce gas gasPrice amt data false in
  let! c := getsM fst in
  match ec_vmevm c with
  | None => panicM
  | Some bctx =>
      let! r := on_wrapper (interp (ApplyMessage bctx vmmsg (blockGasPool c))) in
      do! modifyM (fun s => (set_gasPool r.2 s.1, s.2)) in
      match r.1 with inl e => errM (NewOrdinary e) | inr res => retM res end
  end.

(** ** [ExecuteTrx]

    The context is part of the state: the used gas and the returned data are
    written to it.  [g] holds the parameters in force (the gas price). *)
Abbreviation EX R := (GoM (EVMCtrler * A * TrxContext) R).
Definition l_ctrler : lens (EVMCtrler * A * TrxContext) (EVMCtrler * A) := lens_fst.
Definition set_ctx (f : TrxContext -> TrxContext) : EX unit := modifyM (fun s => (s.1, f s.2)).

Definition revert_finish (snap : Z) : EM unit :=
  do! on_wrapper (RevertToSnapshot snap) in
  on_wrapper (Finish order).

(** The pending changes of a successful execution. *)
Definition finalise (height : Z) : EM unit :=
  if IsByzantium height then on_wrapper (mod_sdb (sdb_Finalise true))
  else
    let! h := on_wrapper (on_sdb (fun db => let '(h, db') := sdb_IntermediateRoot (IsEIP158 height) db in (Ret h, db'))) in
    modifyM (fun s => (set_root h s.1, s.2)).

(** The hash of the transaction becomes the code of the new contract account. *)
Definition record_contract (ctx : TrxContext) : EM (list Byte.byte) :=
  let createdAddr := CreateAddress (Array20 (tx_From (cx_Tx ctx))) (tx_Nonce (cx_Tx ctx)) in
  let! contAcct := zoom lens_snd (FindAccount createdAddr (cx_Exec ctx)) in
  match contAcct with
  | None => panicM
  | Some p =>
      do! zoom lens_snd (on_account p (fun a => inr (SetCode (Some (cx_TxHash ctx)) a))) in
      do! zoom lens_snd (SetAccountCommittable p (cx_Exec ctx)) in
      retM createdAddr
  end.

(** The attributes of the event of an execution: the address of a new contract,
    and for each log the contract, its topics, its data and whether it was
    removed. *)
Definition topic_attrs (i : nat) (t : list Byte.byte) : EventAttribute :=
  mkAttribute ("topic." +:+ FormatInt (Z.of_nat i)) (hex_Upper t) true.
Definition log_attrs (l : EthLog) : list EventAttribute :=
  [mkAttribute "contract" (hex_EncodeToString (lg_Address l)) true] ++
  imap topic_attrs (lg_Topics l) ++
  (if (0 <? length (lg_Data l))%nat then [mkAttribute "data" (hex_EncodeToString (lg_Data l)) false] else []) ++
  [mkAttribute "removed" (String.list_byte_of_string (if lg_Removed l then "true" else "false")) false].
Definition created_attrs (createdAddr : list Byte.byte) : list EventAttribute :=
  [mkAttribute "contractAddress" (HexBytes_String createdAddr) false].

Definition EVM_ExecuteTrx (g : GovParams) : EX unit :=
  let! ctx := getsM snd in
  let tx := cx_Tx ctx in
  if negb (cx_Exec ctx) then retM tt else
  let! receiver := zoom l_ctrler (zoom lens_snd (load_account (cx_Receiver ctx))) in
  if not_contract ctx receiver then errM ErrUnknownTrxType else
  let! snap := zoom l_ctrler (on_wrapper Snapshot) in
  do! zoom l_ctrler (on_wrapper (Prepare (cx_TxHash ctx) (cx_TxIdx ctx) (tx_From tx) (tx_To tx) snap (cx_Exec ctx))) in
  let! gasPrice := liftO (GasPrice g) in
  let! r := tryM (zoom l_ctrler (execVM (tx_From tx) (tx_To tx) (tx_Nonce tx) (tx_Gas tx) gasPrice (tx_Amount tx) (inputData tx))) in
  match r with
  | inl xerr => do! zoom l_ctrler (revert_finish snap) in errM xerr
  | inr evmResult =>
      match er_Err evmResult with
      | Some e =>
          do! zoom l_ctrler (revert_finish snap) in
          do! set_ctx (set_RetData (ReturnData evmResult)) in
          errM (NewOrdinary e)
      | None =>
          do! zoom l_ctrler (on_wrapper (Finish order)) in
          do! zoom l_ctrler (finalise (cx_Height ctx)) in
          do! set_ctx (set_GasUsed (UsedGas evmResult)) in
          do! set_ctx (set_RetData (ReturnData evmResult)) in
          let! attrs := if IsZeroAddress (tx_To tx) then
              let! createdAddr := zoom l_ctrler (record_contract ctx) in
              do! set_ctx (set_RetData createdAddr) in
              retM (created_attrs createdAddr)
            else retM [] in
          let! logs := zoom l_ctrler (on_wrapper (on_sdb (getsM (sdb_GetLogs (Array32 (cx_TxHash ctx)))))) in
          set_ctx (add_Event (mkEvent "evm" (attrs ++ concat (map log_attrs logs))))
      end
  end.

Definition EVM_EndBlock (ctx : BlockContext) : EM unit := retM tt.

(** The result of [WriteSync] is dropped. *)
Definition EVM_Commit : EM (list Byte.byte * Z) := fun s =>
  let c := s.1 in
  match stateDBWrapper c with
  | None => (Panic, s)
  | Some w =>
      match sdb_Commit true (sw_StateDB w) with
      | inl _ => (Panic, s)
      | inr (rootHash, sdb) =>
          match trie_Commit rootHash sdb (ec_ethDB c) with
          | inl _ => (Panic, s)
          | inr ethDB =>
              let height := i64 (ec_lastBlockHeight c + 1) in
              let batch := [(lastBlockHeightKey, String.list_byte_of_string (FormatInt height)); (blockKey height, rootHash)] in
              let metadb := match db_WriteBatch batch (ec_metadb c) with inl _ => ec_metadb c | inr d => d end in
              match NewStateDBWrapper ethDB rootHash with
              | inl _ => (Panic, (mkEVMCtrler (ec_vmevm c) ethDB (Some (set_sdb sdb w)) (blockGasPool c) metadb rootHash height, s.2))
              | inr stdb => (Ret (rootHash, height), (mkEVMCtrler (ec_vmevm c) ethDB (Some stdb) (blockGasPool c) metadb rootHash height, s.2))
              end
          end
      end
  end.

(** ** Queries

    [immutable_at]: [ImmutableAcctCtrlerAt] of the account handler, the accounts
    as of a height. *)
Context (immutable_at : A -> Z -> XError + A).

Definition ImmutableStateAt (c : EVMCtrler) (a : A) (height : Z) : XError + (StateDBWrapper (G := G) * A) :=
  match db_Get (ec_metadb c) (blockKey height) with
  | inl e => inl (NewOrdinary e)
  | inr hash =>
      match state_New (Array32 (default [] hash)) (ec_ethDB c) with
      | inl e => inl (NewOrdinary e)
      | inr stateDB =>
          match immutable_at a height with
          | inl xerr => inl xerr
          | inr immu => inr (mkWrapper stateDB true ∅ 0 false, immu)
          end
      end
  end.

Definition callVM (c : EVMCtrler) (a : A) (from to data : list Byte.byte) (height blockTime : Z) : outcome ExecutionResult :=
  match ImmutableStateAt c a height with
  | inl xerr => Err xerr
  | inr st =>
      let sender := Array20 from in
      let toAddr := if IsZeroAddress to then None else Some (Array20 to) in
      let vmmsg := evmMessage sender toAddr 0 gasLimit 0 0 data true in
      ((let! _ := Prepare [] 0 from to 0 false in
       let! r := interp (ApplyMessage (evmBlockContext sender height blockTime) vmmsg gasLimit) in
       match r.1 with inl e => errM (NewOrdinary e) | inr res => retM res end) st).1
  end.

(** [Query]: the request holds two addresses and the input; slicing panics when
    it is shorter.  [block_time] is the time Tendermint reports for a height. *)
Definition EVM_Query (block_time : Z -> string + Z) (c : EVMCtrler) (a : A) (data : list Byte.byte) (height : Z) : outcome VMCallResult :=
  if (length data <? 40)%nat then Panic else
  let from := take 20 data in
  let to := take 20 (drop 20 data) in
  let input := drop 40 data in
  let height := if height <=? 0 then ec_lastBlockHeight c else height in
  match block_time height with
  | inl e => Err (NewOrdinary e)
  | inr btm =>
      match callVM c a from to input height btm with
      | Ret execRet => Ret (mkVMCallResult (UsedGas execRet) (default ""%string (er_Err execRet)) (ReturnData execRet))
      | Err xerr => Err xerr
      | Panic => Panic
      end
  end.

Definition QueryCode (c : EVMCtrler) (a : A) (addr : list Byte.byte) (height : Z) : outcome (list Byte.byte) :=
  match ImmutableStateAt c a height with
  | inl xerr => Err xerr
  | inr st => (wrapper_call (op_GetCode (Array20 addr)) st).1
  end.

(** The controller as the handler of the executor. *)
Definition EVM_handler : IVMHandler EVMCtrler A := {|
  vm_ValidateTrx := EVM_ValidateTrx;
  vm_ExecuteTrx := EVM_ExecuteTrx;
  vm_BeginBlock := EVM_BeginBlock;
  vm_EndBlock := EVM_EndBlock;
  vm_Commit := EVM_Commit;
|}.
End EvmCtrler.

(** ** The precompiled contract [ecrecover] *)
Section Precompiled.
Context {EC : EthCrypto} (ValidateSignatureValues : Z -> Z -> Z -> bool).

Definition EcrecoverGas : Z := 3000.
Definition allZero (b : list Byte.byte) : bool := forallb (fun b0 => bool_decide (b0 = Byte.x00)) b.
Definition RightPadBytes (l : list Byte.byte) (n : nat) : list Byte.byte := l ++ replicate (n - length l) Byte.x00.
Definition LeftPadBytes (l : list Byte.byte) (n : nat) : list Byte.byte := replicate (n - length l) Byte.x00 ++ l.
Definition slice_of (l : list Byte.byte) (i j : nat) : list Byte.byte := take (j - i) (drop i l).

(** [None]: no output and no error. *)
Definition ecrecover_Run (input : list Byte.byte) : outcome (option (list Byte.byte)) :=
  let input := RightPadBytes input 128 in
  let r := be_value (slice_of input 64 96) in
  let s := be_value (slice_of input 96 128) in
  let v := default Byte.x00 (input !! 63%nat) in
  if negb (allZero (slice_of input 32 63)) || negb (ValidateSignatureValues (byte_val v) r s) then Ret None
  else
    let sig := slice_of input 64 128 ++ [v] in
    match eth_SigToPub (take 32 input) sig with
    | inl e => Err (NewOrdinary e)
    | inr publicKey =>
        match Pub2Addr publicKey with
        | Ret addr => Ret (Some (LeftPadBytes addr 32))
        | Err e => Err e
        | Panic => Panic
        end
    end.
End Precompiled.
