(* ===== verification/Scene.v ===== *)
(** * A concrete chain

    Codecs, signatures, an EVM controller that does nothing and a world with
    one rich account: the inputs on which the theorems about the executor and
    the application are applied. *)

From Stdlib Require Import Strings.Byte.
From S2P Require Import Prelude Xerrors GoSem Bytes Crypto Ledger LedgerSpec LedgerClient LedgerProps Concrete GovParams Account Trx TrxProps Context.
From S2P Require Import AcctCtrler AcctProps Stake StakeLimiter StakeCtrler Proposal GovCtrler GovProps Executor MetaDB.

#[export] Instance stakeCodec : Codec Stake := countCodec Stake.
#[export] Instance delegateeCodec : Codec Delegatee := countCodec Delegatee.
#[export] Instance rewardCodec : Codec RewardProto := countCodec RewardProto.
#[export] Instance unstakingCodec : Codec TrxPayloadUnstakingProto := countCodec TrxPayloadUnstakingProto.
#[export] Instance withdrawCodec : Codec TrxPayloadWithdrawProto := countCodec TrxPayloadWithdrawProto.
#[export] Instance payProposalCodec : Codec TrxPayloadProposalProto := countCodec TrxPayloadProposalProto.
#[export] Instance votingCodec : Codec TrxPayloadVotingProto := countCodec TrxPayloadVotingProto.
#[export] Instance contractCodec : Codec TrxPayloadContractProto := countCodec TrxPayloadContractProto.
#[export] Instance setdocCodec : Codec TrxPayloadSetDocProto := countCodec TrxPayloadSetDocProto.
#[export] Instance trxCodec : Codec TrxProto := countCodec TrxProto.
#[export] Instance sceneRlp : RlpLib := countRlp.
#[export] Instance sceneCrypto : EthCrypto := toyCrypto.
#[export] Instance sceneCrypto_laws : EthCryptoLaws := toyCrypto_laws.

(** The state of this EVM controller is its version. *)
#[export] Instance sceneVM : IVMHandler Z (FinalityLedger Account mapTree) := {|
  vm_ValidateTrx _ := retM tt;
  vm_ExecuteTrx _ := errM ErrUnknownTrxType;
  vm_BeginBlock _ := retM tt;
  vm_EndBlock _ := retM tt;
  vm_Commit := fun x => (Ret ([], x.1 + 1), (x.1 + 1, x.2));
|}.

Abbreviation noLedger := (NewFinalityLedger (MapTree ∅ ∅ 0)).

(** Alice holds 1000 and has sent 3 transactions; bob is known. *)
Definition rich : Account := mkAccount aliceAddr "" 3 1000 None "".
Definition bob : Account := mkAccount bobAddr "" 0 7 None "".
Definition sceneAccts : FinalityLedger Account mapTree :=
  ((do! (let! p := alloc rich in set_on Deliver p) in let! q := alloc bob in set_on Deliver q) noLedger).2.

Definition sceneGov : @GovCtrler mapTree := mkGovCtrler Test1GovParams None noLedger noLedger noLedger.
Definition sceneStake : @StakeCtrler mapTree := newStakeCtrler Test1GovParams (MapTree ∅ ∅ 0) (MapTree ∅ ∅ 0) (MapTree ∅ ∅ 0) [].
Definition sceneWorld : @World mapTree Z := mkWorld sceneGov sceneAccts sceneStake 0.

(** Alice sends 300 to bob for a fee of 200; with this signature scheme her
    address signs for her. *)
Definition sendTx : Trx := mkTrx 1 0 3 aliceAddr bobAddr 300 20 10 TRX_TRANSFER None aliceAddr.
Definition sendCtx : TrxContext := mkTrxContext 1 0 [] sendTx 0 true [] 1%positive 2%positive 0 [] [] "rigo".

Lemma rich_ok : acct_ok anyStr rich.
Proof. repeat split; cbn; (lia || done). Qed.
Lemma bob_ok : acct_ok anyStr bob.
Proof. repeat split; cbn; (lia || done). Qed.

Lemma no_acct_inv : ledger_inv (acct_ok anyStr) (noLedger : FinalityLedger Account mapTree).
Proof. apply fresh_inv. intros k bz. cbn. by rewrite lookup_empty. Qed.

Lemma sceneAccts_ok : ledger_inv (acct_ok anyStr) sceneAccts /\ no_removed sceneAccts.
Proof.
  destruct (alloc_put (acct_ok anyStr) _ Deliver rich no_acct_inv rich_ok) as (L1 & Hrun1 & Hi1 & _ & Hr1 & _); [apply not_elem_of_nil|].
  destruct (alloc_put (acct_ok anyStr) _ Deliver bob Hi1 bob_ok) as (L2 & Hrun2 & Hi2 & _ & Hr2 & _).
  { rewrite Hr1. apply not_elem_of_nil. }
  unfold sceneAccts. rewrite (bindM_step _ _ _ _ _ Hrun1), Hrun2. split; [done|]. intros sd. cbn. rewrite Hr2, Hr1. by destruct sd.
Qed.
