(* ===== verification/EvmProps.v ===== *)
(** * Contract transactions and the accounts of the node

    For every interpreter and every sequence of calls it makes: a contract
    transaction that fails changes no account of the node, one that succeeds
    writes to exactly the accounts it has touched the balance and nonce of the EVM
    state; committed roots and heights survive a restart. *)

From Stdlib Require Import Strings.Byte.
From S2P Require Import Prelude Xerrors GoSem Bytes Crypto Ledger LedgerSpec LedgerClient LedgerProps Concrete GovParams Account Trx Context.
From S2P Require Import AcctCtrler AcctProps AcctClient MetaDB StateDB Executor EvmCtrler.

(** [common.Address] *)
Definition is_addr (a : list Byte.byte) : Prop := length a = AddrSize.

Lemma addr_key_inj a b : is_addr a -> is_addr b -> ToLedgerKey a = ToLedgerKey b -> a = b.
Proof. unfold is_addr, AddrSize. intros Ha Hb. apply ledger_key_inj; lia. Qed.

Lemma array20_addr l : is_addr (Array20 l).
Proof. unfold is_addr, Array20, to_array, AddrSize. rewrite length_app, length_take, length_replicate. lia. Qed.

(** ** Laws of go-ethereum *)

(** What is observed of a state: the next snapshot id, balances and nonces. *)
Class GethView {G : GethState} := {
  sdb_next : SDB -> Z;
  sdb_balance : SDB -> list Byte.byte -> Z;
  sdb_nonce : SDB -> list Byte.byte -> Z;
}.

(** Snapshot ids grow; the getters return what is observed and do not change it;
    the setters change exactly one value; the access list is not observed;
    balances are not negative and nonces have 64 bits. *)
Class GethLaws {G : GethState} {V : GethView} : Prop := {
  snapshot_id : forall db, exists db', sdb_call op_Snapshot db = (Ret (sdb_next db), db') /\ sdb_next db < sdb_next db';
  call_returns : forall R (op : SDBOp R), never_err (sdb_call op);
  call_next : forall R (op : SDBOp R) db, sdb_next db <= sdb_next (sdb_call op db).2;
  prepare_next : forall h i db, sdb_next db <= sdb_next (sdb_Prepare h i db);
  object_next : forall a db, sdb_next db <= sdb_next (sdb_GetOrNewStateObject a db);
  set_nonce_next : forall a n db, sdb_next db <= sdb_next (obj_SetNonce a n db);
  set_balance_next : forall a b db, sdb_next db <= sdb_next (obj_SetBalance a b db);
  get_balance : forall a db, exists db', sdb_call (op_GetBalance a) db = (Ret (sdb_balance db a), db') /\
    sdb_balance db' = sdb_balance db /\ sdb_nonce db' = sdb_nonce db;
  get_nonce : forall a db, exists db', sdb_call (op_GetNonce a) db = (Ret (sdb_nonce db a), db') /\
    sdb_balance db' = sdb_balance db /\ sdb_nonce db' = sdb_nonce db;
  object_obs : forall a b db, sdb_balance (sdb_GetOrNewStateObject a db) b = sdb_balance db b /\ sdb_nonce (sdb_GetOrNewStateObject a db) b = sdb_nonce db b;
  set_nonce_obs : forall a n b db, is_u64 n ->
    sdb_balance (obj_SetNonce a n db) b = sdb_balance db b /\ sdb_nonce (obj_SetNonce a n db) b = if decide (b = a) then n else sdb_nonce db b;
  set_balance_obs : forall a z b db, 0 <= z ->
    sdb_balance (obj_SetBalance a z db) b = (if decide (b = a) then z else sdb_balance db b) /\ sdb_nonce (obj_SetBalance a z db) b = sdb_nonce db b;
  access_list_obs : forall a b db, let db' := (sdb_call (op_AddAddressToAccessList a) db).2 in
    sdb_balance db' b = sdb_balance db b /\ sdb_nonce db' b = sdb_nonce db b;
  balance_nonneg : forall a db, 0 <= sdb_balance db a;
  nonce_u64 : forall a db, is_u64 (sdb_nonce db a);
}.

(** The interpreter passes values of type [common.Address], and it reverts only
    to snapshots it has taken ([ids]). *)
Definition op_wf {R} (op : SDBOp R) : Prop :=
  match op with
  | op_PrepareAccessList a dest pre acc =>
      is_addr a /\ (forall d, dest = Some d -> is_addr d) /\ (forall x, x ∈ pre -> is_addr x) /\ (forall x, x ∈ acc -> is_addr x.1)
  | op_AddAddressToAccessList a => is_addr a
  | _ => True
  end.
Definition op_reverts {R} (P : Z -> Prop) (op : SDBOp R) : Prop := match op with op_RevertToSnapshot id => P id | _ => True end.
Definition new_ids {R} (op : SDBOp R) : R -> list Z := match op in SDBOp R return R -> list Z with op_Snapshot => fun x => [x] | _ => fun _ => [] end.
Fixpoint prog_wf {R} (ids : list Z) (p : evm_prog R) : Prop :=
  match p with
  | Done _ => True
  | Call op k => op_wf op /\ op_reverts (fun id => id ∈ ids) op /\ forall x, prog_wf (new_ids op x ++ ids) (k x)
  end.
Class EthVMLaws {VM : EthVM} : Prop := { apply_wf : forall b m gp, prog_wf [] (ApplyMessage b m gp) }.

(** ** During an execution *)
Section Track.
Context {Tr : Type} {Tree : Iavl Tr} {View : IavlView Tr} {Laws : IavlLaws Tr} {Total : IavlTotal Tr}.
Context {CA : Codec AcctProto} (utf8 : string -> Prop) (utf8_empty : utf8 ""%string).
Context {CL : CodecLaws AcctProto acct_proto_range} {CTot : CodecTotal AcctProto (acct_proto_valid utf8)}.
Context {G : GethState} {GV : GethView} {GL : GethLaws}.
Abbreviation ok := (acct_ok utf8).
Abbreviation accts := (FinalityLedger Account Tr).
Abbreviation WS := (StateDBWrapper (G := G) * accts)%type.

Definition accounts_same (L0 L : accts) : Prop := forall sd addr, is_addr addr -> account_at L sd addr = account_at L0 sd addr.

(** Since the snapshot [snap], at which the accounts were [L0]: the accounts have
    not changed, all accessed addresses are newer, and [pins] are accessed. *)
Record tracked (snap : Z) (L0 : accts) (pins : list (list Byte.byte)) (s : WS) : Prop := {
  tr_inv : ledger_inv ok s.2;
  tr_removed : no_removed s.2;
  tr_same : accounts_same L0 s.2;
  tr_exec : sw_exec s.1 = true;
  tr_snapshot : snap <= sw_snapshot s.1;
  tr_next : snap < sdb_next (sw_StateDB s.1);
  tr_newer : forall a v, accessedObjAddrs s.1 !! a = Some v -> snap < v /\ is_addr a;
  tr_pins : forall a, a ∈ pins -> accessedObjAddrs s.1 !! a = Some (snap + 1);
}.

Context (snap : Z) (L0 : accts) (pins : list (list Byte.byte)).
Definition keeps_tracked (s s' : WS) : Prop := tracked snap L0 pins s -> tracked snap L0 pins s'.
#[local] Instance keeps_tracked_refl : Reflexive keeps_tracked. Proof. intros s H. exact H. Qed.
#[local] Instance keeps_tracked_trans : Transitive keeps_tracked. Proof. intros s1 s2 s3 H1 H2 H. auto. Qed.

Lemma tracked_sdb db s : sdb_next (sw_StateDB s.1) <= sdb_next db -> keeps_tracked s (set_sdb db s.1, s.2).
Proof. intros Hn [H1 H2 H3 H4 H5 H6 H7 H8]. constructor; try done. cbn in *. lia. Qed.

Lemma on_sdb_tracked {R} (f : GoM SDB R) : (forall db, sdb_next db <= sdb_next (f db).2) -> keeps keeps_tracked (on_sdb f).
Proof. intros Hf s. unfold on_sdb, zoom. specialize (Hf (sw_StateDB s.1)). cbn. destruct (f _) as [r db]. by apply tracked_sdb. Qed.

Lemma call_tracked {R} (op : SDBOp R) : keeps keeps_tracked (on_sdb (sdb_call op)).
Proof. apply on_sdb_tracked. intros db. apply call_next. Qed.

Lemma same_account_at L L' sd addr a0 :
  is_addr addr -> is_addr a0 ->
  (forall sd' k, visible L' sd' k = if decide (sd' = sd /\ k = ToLedgerKey a0) then Some (account_at L sd a0) else visible L sd' k) ->
  forall sd', account_at L' sd' addr = account_at L sd' addr.
Proof.
  intros Ha H0 Hv sd'. unfold account_at at 1. rewrite Hv. case_decide as Hd; [|done]. destruct Hd as [-> Hk].
  apply addr_key_inj in Hk; [|done|done]. by subst.
Qed.

Lemma access_tracked addr : is_addr addr -> keeps keeps_tracked (addAccessedObjAddr addr).
Proof.
  intros Ha [w L] Ht. unfold addAccessedObjAddr. rewrite (bindM_step _ _ _ w (w, L)) by done.
  destruct (accessedObjAddrs w !! addr) as [v|] eqn:Ev; [done|].
  pose proof (tracked_sdb (sdb_GetOrNewStateObject addr (sw_StateDB w)) (w, L) (object_next addr (sw_StateDB w)) Ht) as Ht1.
  set (w1 := set_sdb (sdb_GetOrNewStateObject addr (sw_StateDB w)) w). change (tracked snap L0 pins (w1, L)) in Ht1. rewrite (bindM_step _ _ _ tt (w1, L)) by done.
  destruct Ht as [Hi Hn Hs He Hsn Hnx Hnew Hpin]. cbn in *. rewrite He.
  destruct (find_or_new_spec utf8 utf8_empty L addr true Hi Hn) as (q & L' & Hrun & Hi' & Hn' & [Hq _] & _ & _ & Hv).
  rewrite (bindM_step _ _ _ q (w1, L')) by (by apply (zoom_eq lens_snd)). set (a := account_at L (side_of true) addr) in *.
  rewrite (bindM_step _ _ _ a (w1, L')) by (apply (zoom_eq lens_snd); by apply load_some).
  pose proof (set_nonce_next addr (Nonce a) (sw_StateDB w1)). set (db2 := obj_SetNonce _ _ _) in *.
  rewrite (bindM_step _ _ _ tt (set_sdb db2 w1, L')) by done.
  pose proof (set_balance_next addr (Balance a) db2). set (db3 := obj_SetBalance _ _ _) in *.
  rewrite (bindM_step _ _ _ tt (set_sdb db3 w1, L')) by done. destruct Ht1 as [_ _ _ _ _ Hn1 _ _]. cbn in Hn1.
  constructor; cbn; try done; try lia.
  - intros sd a0 Ha0. rewrite <- (Hs sd a0 Ha0). by apply (same_account_at L L' (side_of true) a0 addr).
  - eapply Z.lt_le_trans; [exact Hn1|]. etrans; eassumption.
  - intros a0 v0. rewrite lookup_insert. case_decide; [|apply Hnew]. intros [= <-]. subst. split; [lia|done].
  - intros a0 Ha0. rewrite lookup_insert_ne; [by apply Hpin|]. intros ->. rewrite Hpin in Ev by done. done.
Qed.

Lemma wrapper_tracked {R} (op : SDBOp R) : op_wf op -> op_reverts (fun id => snap < id) op -> keeps keeps_tracked (wrapper_call op).
Proof.
  destruct op; intros Hw Hrev; try (apply call_tracked); cbn [wrapper_call].
  - destruct Hw as (Ha & Hd & Hp & Hx). unfold PrepareAccessList.
    apply keeps_bind; [apply _|by apply access_tracked|intros _].
    apply keeps_bind; [apply _| |intros _]; [destruct dest; [apply access_tracked; auto|apply keeps_ret, _]|].
    apply keeps_bind; [apply _| |intros _]; [apply keeps_forM_in; [apply _..|]; intros x Hin; by apply access_tracked, Hp|].
    apply keeps_bind; [apply _| |intros _; apply call_tracked].
    apply keeps_forM_in; [apply _..|]. intros x Hin. apply keeps_bind; [apply _|by apply access_tracked, Hx|intros _].
    apply keeps_forM; [apply _..|]. intros key. apply call_tracked.
  - unfold AddAddressToAccessList. apply keeps_bind; [apply _|by apply access_tracked|intros _]. apply call_tracked.
  - unfold RevertToSnapshot. apply keeps_bind; [apply _| |intros _; apply call_tracked].
    apply keeps_modify. intros [w L] [H1 H2 H3 H4 H5 H6 H7 H8]. constructor; cbn in *; try done.
    + intros a v. rewrite map_lookup_filter_Some. intros [Hv _]. by apply H7.
    + intros a Ha. apply map_lookup_filter_Some. split; [by apply H8|]. cbn. lia.
  - intros [w L] [H1 H2 H3 H4 H5 H6 H7 H8]. cbn in *. destruct (snapshot_id (sw_StateDB w)) as (db' & Hc & Hn).
    unfold Snapshot. rewrite (bindM_step _ _ _ (sdb_next (sw_StateDB w)) (set_sdb db' w, L)) by (by apply (zoom_eq l_sdb)).
    constructor; cbn; try done; lia.
Qed.

Lemma interp_tracked {R} (p : evm_prog R) ids : prog_wf ids p -> (forall id, id ∈ ids -> snap < id) -> keeps keeps_tracked (interp p).
Proof.
  revert ids. induction p as [r|X op k IH]; intros ids Hw Hids; [apply keeps_ret, _|]. destruct Hw as (Ho & Hr & Hk).
  intros s Ht. cbn [interp]. unfold bindM.
  assert (Hrev : op_reverts (fun id => snap < id) op) by (destruct op; try done; cbn in *; auto).
  pose proof (wrapper_tracked op Ho Hrev s Ht) as Ht1.
  destruct (wrapper_call op s) as [[x|e|] s1] eqn:Hc; [|done..]. cbn in Ht1. apply (IH x (new_ids op x ++ ids)); [apply Hk| |done].
  intros id [Hid|Hid]%elem_of_app; [|by apply Hids]. destruct op; try by apply not_elem_of_nil in Hid.
  cbn [new_ids] in Hid. apply list_elem_of_singleton in Hid as ->. cbn [wrapper_call] in Hc.
  destruct s as [w L]. destruct (snapshot_id (sw_StateDB w)) as (db' & Hcall & _). unfold Snapshot in Hc.
  rewrite (bindM_step _ _ _ (sdb_next (sw_StateDB w)) (set_sdb db' w, L)) in Hc by (by apply (zoom_eq l_sdb)).
  injection Hc as <- _. apply (tr_next _ _ _ _ Ht).
Qed.

(** ** Writing back *)
Definition synced (db : SDB) (addr : list Byte.byte) (a : Account) : Account := SetNonce (sdb_nonce db addr) (SetBalance (sdb_balance db addr) a).
Definition same_obs (db db' : SDB) : Prop := sdb_balance db' = sdb_balance db /\ sdb_nonce db' = sdb_nonce db.

Lemma synced_ok db addr a : ok a -> sdb_balance db addr < 2 ^ 256 -> ok (synced db addr a).
Proof.
  intros (H1 & H2 & H3 & H4 & H5) Hb. unfold synced. split_and!; cbn; try done; [apply nonce_u64|].
  pose proof (balance_nonneg addr db). unfold is_u256. lia.
Qed.

(** Ignoring the error of a call that returns. *)
Lemma ignore_ret {S R} (f : GoM S R) s r s' : f s = (Ret r, s') -> ignoreM f s = (Ret tt, s').
Proof. unfold ignoreM. by intros ->. Qed.

Lemma write_back_spec addr w L r s' :
  ledger_inv ok L -> no_removed L -> sw_exec w = true -> is_addr addr -> write_back addr (w, L) = (Ret r, s') ->
  exists db', s'.1 = set_sdb db' w /\ same_obs (sw_StateDB w) db' /\ ledger_inv ok s'.2 /\ no_removed s'.2 /\
    forall sd a0, is_addr a0 -> account_at s'.2 sd a0 = if decide (sd = side_of true /\ a0 = addr) then synced (sw_StateDB w) addr (account_at L sd addr) else account_at L sd a0.
Proof.
  intros Hi Hn He Ha. unfold write_back. destruct (get_balance addr (sw_StateDB w)) as (db1 & H1 & Hb1 & Hn1).
  rewrite (bindM_step _ _ _ (sdb_balance (sw_StateDB w) addr) (set_sdb db1 w, L)) by (by apply (zoom_eq l_sdb)).
  unfold MustFromBig. destruct (Z.ltb_spec (sdb_balance (sw_StateDB w) addr) (2 ^ 256)) as [Hlt|]; [|done].
  rewrite (bindM_step _ _ _ (u256 (sdb_balance (sw_StateDB w) addr)) (set_sdb db1 w, L)) by done.
  rewrite u256_id by (pose proof (balance_nonneg addr (sw_StateDB w)); unfold is_u256; lia).
  destruct (get_nonce addr db1) as (db2 & H2 & Hb2 & Hn2).
  rewrite (bindM_step _ _ _ (sdb_nonce db1 addr) (set_sdb db2 w, L)) by (by apply (zoom_eq l_sdb)). rewrite Hn1.
  rewrite (bindM_step _ _ _ (set_sdb db2 w) (set_sdb db2 w, L)) by done. cbn [sw_exec set_sdb]. rewrite He.
  destruct (find_or_new_spec utf8 utf8_empty L addr true Hi Hn) as (q & L' & Hrun & Hi' & Hn' & Hc & Hk & _ & Hv).
  rewrite (bindM_step _ _ _ q (set_sdb db2 w, L')) by (by apply (zoom_eq lens_snd)).
  set (a := account_at L (side_of true) addr) in *. pose proof (cached_handle ok L' _ q a Hi' Hc) as Hh.
  set (a' := synced (sw_StateDB w) addr a). assert (Hok' : ok a') by (apply synced_ok; [apply Hh|done]).
  pose proof (update_account L' (side_of true) q a _ _ _ _ Hc (eq_refl : (fun a => inr (SetBalance (sdb_balance (sw_StateDB w) addr) a)) a = inr _)
    (eq_refl : (fun a => inr (SetNonce (sdb_nonce (sw_StateDB w) addr) a)) _ = inr a')) as Hup.
  apply bindM_inv in Hup as ([] & L1 & Hm1 & Hup). apply bindM_inv in Hup as ([] & L2 & Hm2 & Hset).
  rewrite (bindM_step _ _ _ tt (set_sdb db2 w, L1)) by (by apply (zoom_eq lens_snd)).
  rewrite (bindM_step _ _ _ tt (set_sdb db2 w, L2)) by (by apply (zoom_eq lens_snd)).
  rewrite (ignore_ret _ _ tt (set_sdb db2 w, put_state (side_of true) q a' L')) by (by apply (zoom_eq lens_snd)).
  intros [= <- <-]. exists db2. cbn [fst snd]. destruct (put_visible ok L' (side_of true) q a a') as (Hi3 & _ & Hr3 & Hv3); try done.
  { rewrite Hn'. apply not_elem_of_nil. }
  split_and!; try done; [split; congruence|intros sd; by rewrite Hr3|].
  intros sd a0 Ha0. unfold account_at at 1. rewrite Hv3, Hk. destruct (decide (sd = side_of true /\ ToLedgerKey a0 = ToLedgerKey addr)) as [[-> Hke]|Hne].
  - apply addr_key_inj in Hke; [|done|done]. subst a0. by rewrite decide_True.
  - rewrite decide_False by naive_solver. rewrite Hv. by rewrite decide_False.
Qed.

Lemma write_back_all l w L s' :
  NoDup l -> (forall a, a ∈ l -> is_addr a) -> ledger_inv ok L -> no_removed L -> sw_exec w = true ->
  forM_ l write_back (w, L) = (Ret tt, s') ->
  exists db', s'.1 = set_sdb db' w /\ ledger_inv ok s'.2 /\ no_removed s'.2 /\
    forall sd a0, is_addr a0 -> account_at s'.2 sd a0 =
      if decide (sd = side_of true /\ a0 ∈ l) then synced (sw_StateDB w) a0 (account_at L sd a0) else account_at L sd a0.
Proof.
  revert w L. induction l as [|addr l IH]; intros w L Hnd Hal Hi Hn He; cbn [forM_].
  - intros [= <-]. exists (sw_StateDB w). split_and!; try done; [by destruct w|]. intros. rewrite decide_False; [done|]. intros [_ Hx]. by apply not_elem_of_nil in Hx.
  - apply list.NoDup_cons in Hnd as [Hni Hnd]. intros H. apply bindM_inv in H as ([] & [w1 L1] & Hw & Hrest).
    destruct (write_back_spec addr w L tt (w1, L1)) as (db1 & Hw1 & [Hb1 Hnn1] & Hi1 & Hn1 & Hv1); try done; [apply Hal; left|]. cbn [fst snd] in Hw1, Hi1, Hn1, Hv1. subst w1.
    destruct (IH (set_sdb db1 w) L1) as (db' & Hs' & Hi' & Hn' & Hv'); try done; [intros; apply Hal; by right|].
    exists db'. split_and!; try done. intros sd a0 Ha0. rewrite Hv' by done. cbn [sw_StateDB set_sdb].
    assert (Hsy : forall x, synced db1 a0 x = synced (sw_StateDB w) a0 x) by (intros x; unfold synced; by rewrite Hb1, Hnn1).
    destruct (decide (sd = side_of true /\ a0 ∈ l)) as [[-> Hin]|Hout].
    + rewrite decide_True by (split; [done|by apply list_elem_of_further]). rewrite Hsy, Hv1 by done. rewrite decide_False; [done|]. intros [_ ->]. done.
    + rewrite Hv1 by done. destruct (decide (sd = side_of true /\ a0 = addr)) as [[-> ->]|Hne].
      * case_decide as Hd; [done|]. destruct Hd. split; [done|apply list_elem_of_here].
      * rewrite decide_False; [done|]. intros [-> Hin]. apply elem_of_cons in Hin as [->|Hin]; naive_solver.
Qed.
End Track.

(** ** A contract transaction *)
Section Execute.
Context {Tr : Type} {Tree : Iavl Tr} {View : IavlView Tr} {Laws : IavlLaws Tr} {Total : IavlTotal Tr}.
Context {CA : Codec AcctProto} (utf8 : string -> Prop) (utf8_empty : utf8 ""%string).
Context {CL : CodecLaws AcctProto acct_proto_range} {CTot : CodecTotal AcctProto (acct_proto_valid utf8)}.
Context {G : GethState} {GV : GethView} {GL : GethLaws} {VM : EthVM} {VML : EthVMLaws}.
Context {DB : Type} {TD : TmDB DB} {TB : TmBatch DB}.
Context (order : gmap (list Byte.byte) Z -> list (list Byte.byte)) (order_keys : forall m, order m ≡ₚ (map_to_list m).*1).
Abbreviation ok := (acct_ok utf8).
Abbreviation accts := (FinalityLedger Account Tr).
Abbreviation ctrler := (EVMCtrler (G := G) (DB := DB)).

Lemma order_nil m : m = ∅ -> order m = [].
Proof. intros ->. apply Permutation_nil_r. rewrite order_keys. by rewrite map_to_list_empty. Qed.

(** *** No method of the handlers returns an error here *)
Lemma ne_load p : never_err (load p : GoM accts Account).
Proof. intros L e. unfold load. by case_match. Qed.
Lemma ne_set_on sd p : never_err (set_on sd p : GoM accts unit).
Proof. unfold set_on. apply ne_bind; [apply ne_load|intros x]. ne_tac. Qed.
Lemma ne_method p f : never_err (acct_method p (fun a => inr (f a)) : GoM accts unit).
Proof. unfold acct_method. apply ne_bind; [apply ne_load|intros a]. by intros L e. Qed.
Lemma ne_find addr exec : never_err (findAccount addr exec : GoM accts _).
Proof. unfold findAccount. ne_tac. Qed.
Lemma ne_find_or_new addr exec : never_err (findOrNewAccount addr exec : GoM accts _).
Proof. unfold findOrNewAccount. apply ne_bind; [apply ne_find|intros r]. destruct r; [apply ne_ret|]. apply ne_bind; [by intros L e|intros p]. ne_tac. Qed.

(** The same through the interface. *)
Lemma ne_FindOrNewAccount addr exec : never_err (FindOrNewAccount (S := accts) addr exec). Proof. apply ne_find_or_new. Qed.
Lemma ne_FindAccount addr exec : never_err (FindAccount (S := accts) addr exec). Proof. apply ne_find. Qed.
Lemma ne_load_account p : never_err (load_account (S := accts) p). Proof. apply ne_load. Qed.
Lemma ne_on_account p f : never_err (on_account (S := accts) p (fun a => inr (f a))). Proof. apply ne_method. Qed.
Lemma ne_SetAccountCommittable p exec : never_err (SetAccountCommittable (S := accts) p exec). Proof. apply ne_set_on. Qed.

Hint Resolve ne_FindOrNewAccount ne_FindAccount ne_load_account ne_on_account ne_SetAccountCommittable : ne.
Hint Resolve ne_zoom ne_load ne_set_on ne_method ne_find ne_find_or_new call_returns ne_gets ne_modify ne_ret ne_panic ne_ignore ne_try : ne.

Lemma ne_on_sdb {R} (op : SDBOp R) : never_err (on_sdb (A := accts) (sdb_call op)).
Proof. apply ne_zoom, call_returns. Qed.
Lemma ne_mod_sdb f : never_err (mod_sdb (A := accts) f).
Proof. apply ne_zoom, ne_modify. Qed.
Hint Resolve ne_on_sdb ne_mod_sdb : ne.

Lemma ne_access addr : never_err (addAccessedObjAddr (A := accts) addr).
Proof.
  unfold addAccessedObjAddr. apply ne_bind; [auto with ne|intros w]. case_match; [auto with ne|].
  repeat (apply ne_bind; [auto with ne|intros ?]). apply ne_modify.
Qed.
Hint Resolve ne_access : ne.

Lemma ne_add_address addr : never_err (AddAddressToAccessList (A := accts) addr).
Proof. unfold AddAddressToAccessList. apply ne_bind; auto with ne. Qed.
Hint Resolve ne_add_address : ne.

Lemma ne_write_back addr : never_err (write_back (A := accts) addr).
Proof.
  unfold write_back. apply ne_bind; [auto with ne|intros b]. apply ne_bind; [|intros amt].
  { apply ne_lift. unfold MustFromBig. by case_match. }
  repeat (apply ne_bind; [auto with ne|intros ?]). auto with ne.
Qed.

Lemma ne_finish : never_err (Finish (A := accts) order).
Proof. unfold Finish. apply ne_bind; [auto with ne|intros w]. apply ne_bind; [apply ne_forM, ne_write_back|intros _; apply ne_modify]. Qed.

Lemma ne_prepare h i from to snap exec : never_err (Prepare (A := accts) h i from to snap exec).
Proof.
  unfold Prepare. apply ne_bind; [apply ne_modify|intros _]. apply ne_bind; [auto with ne|intros _]. apply ne_bind; [auto with ne|intros _].
  case_match; auto with ne.
Qed.

Lemma ne_wrapper_call {R} (op : SDBOp R) : never_err (wrapper_call (A := accts) op).
Proof.
  destruct op; cbn [wrapper_call]; try apply ne_on_sdb; try apply ne_add_address.
  - unfold PrepareAccessList. repeat (apply ne_bind; [|intros _]); auto with ne.
    + case_match; auto with ne.
    + apply ne_forM. auto with ne.
    + apply ne_forM. intros x. apply ne_bind; [auto with ne|intros _]. apply ne_forM. intros k. apply ne_on_sdb.
  - unfold RevertToSnapshot. apply ne_bind; [apply ne_modify|intros _]. apply ne_on_sdb.
  - unfold Snapshot. apply ne_bind; [apply ne_on_sdb|intros x]. apply ne_bind; [apply ne_modify|intros _; apply ne_ret].
Qed.

Lemma ne_interp {R} (p : evm_prog R) : never_err (interp (A := accts) p).
Proof. induction p as [x|X op k IH]; [apply ne_ret|]. intros s e. cbn [interp]. revert s e. apply ne_bind; [apply ne_wrapper_call|apply IH]. Qed.

Lemma ne_on_wrapper {R} (f : GoM (StateDBWrapper (G := G) * accts) R) : never_err f -> never_err (on_wrapper (DB := DB) f).
Proof. intros Hf s e. unfold on_wrapper. destruct (stateDBWrapper s.1) as [w|]; [|done]. specialize (Hf (w, s.2) e). by destruct (f (w, s.2)) as [r [w' a']]. Qed.

Lemma on_wrapper_run {R} (f : GoM (StateDBWrapper (G := G) * accts) R) (c : ctrler) L w r w' L' :
  stateDBWrapper c = Some w -> f (w, L) = (r, (w', L')) -> on_wrapper f (c, L) = (r, (set_wrapper w' c, L')).
Proof. intros Hw Hf. unfold on_wrapper. cbn [fst snd]. by rewrite Hw, Hf. Qed.

Lemma on_wrapper_inv {R} (f : GoM (StateDBWrapper (G := G) * accts) R) (c : ctrler) L w r s' :
  stateDBWrapper c = Some w -> on_wrapper f (c, L) = (r, s') -> exists w' L', f (w, L) = (r, (w', L')) /\ s' = (set_wrapper w' c, L').
Proof. intros Hw. unfold on_wrapper. cbn [fst snd]. rewrite Hw. destruct (f (w, L)) as [r0 [w' L']]. intros [= <- <-]. eauto. Qed.

(** *** [Snapshot] and [Prepare] *)

(** The EVM state starts with the balance and nonce of the account. *)
Definition copied (L : accts) (db : SDB) (a : list Byte.byte) : Prop :=
  sdb_balance db a = Balance (account_at L Deliver a) /\ sdb_nonce db a = Nonce (account_at L Deliver a).
(** Every accessed address was accessed at [snap], and is copied. *)
Definition fresh_copies (snap : Z) (L : accts) (w : StateDBWrapper (G := G)) : Prop :=
  forall a v, accessedObjAddrs w !! a = Some v -> v = snap + 1 /\ copied L (sw_StateDB w) a.

Lemma copied_obs L db db' a : (sdb_balance db' a = sdb_balance db a /\ sdb_nonce db' a = sdb_nonce db a) -> copied L db a -> copied L db' a.
Proof. unfold copied. intros [-> ->]. done. Qed.

Lemma copy_account L db addr x :
  acct_ok utf8 x -> x = account_at L Deliver addr ->
  let db' := obj_SetBalance addr (Balance x) (obj_SetNonce addr (Nonce x) (sdb_GetOrNewStateObject addr db)) in
  copied L db' addr /\ forall a, copied L db a -> copied L db' a.
Proof.
  intros (Hn & Hb & _) -> db'. unfold copied. unfold is_u256 in Hb.
  assert (Hobs : forall a, sdb_balance db' a = (if decide (a = addr) then Balance (account_at L Deliver addr) else sdb_balance db a) /\
    sdb_nonce db' a = if decide (a = addr) then Nonce (account_at L Deliver addr) else sdb_nonce db a).
  { intros a. unfold db'. destruct (object_obs addr a db) as [H1 H2].
    destruct (set_nonce_obs addr (Nonce (account_at L Deliver addr)) a (sdb_GetOrNewStateObject addr db)) as [H3 H4]; [done|].
    destruct (set_balance_obs addr (Balance (account_at L Deliver addr)) a (obj_SetNonce addr (Nonce (account_at L Deliver addr)) (sdb_GetOrNewStateObject addr db))) as [H5 H6]; [lia|].
    rewrite H5, H6, H3, H4, H1, H2. done. }
  split; [destruct (Hobs addr) as [-> ->]; by rewrite !decide_True|]. intros a [Ha1 Ha2]. destruct (Hobs a) as [-> ->].
  case_decide; subst; done.
Qed.

Lemma access_pins snap L0 pins addr s :
  tracked utf8 snap L0 pins s -> sw_snapshot s.1 = snap -> is_addr addr ->
  fresh_copies snap L0 s.1 ->
  let s' := (AddAddressToAccessList addr s).2 in
  (AddAddressToAccessList addr s).1 = Panic \/
  (tracked utf8 snap L0 (addr :: pins) s' /\ sw_snapshot s'.1 = snap /\ fresh_copies snap L0 s'.1).
Proof.
  intros Ht Hsn Ha Hall. pose proof (access_tracked utf8 utf8_empty snap L0 pins addr Ha s Ht) as Ht1.
  assert (Hx : exists w1 L1, addAccessedObjAddr addr s = (Ret tt, (w1, L1)) /\ sw_snapshot w1 = snap /\ accessedObjAddrs w1 !! addr = Some (snap + 1) /\ fresh_copies snap L0 w1).
  { destruct s as [w L]. cbn in Hsn, Hall. unfold addAccessedObjAddr. rewrite (bindM_step _ _ _ w (w, L)) by done.
    destruct (accessedObjAddrs w !! addr) as [v|] eqn:Ev; [exists w, L; split_and!; try done; rewrite Ev; f_equal; by apply (Hall addr)|].
    rewrite (bindM_step _ _ _ tt (set_sdb (sdb_GetOrNewStateObject addr (sw_StateDB w)) w, L)) by done.
    destruct (find_or_new_spec utf8 utf8_empty L addr (sw_exec w) (tr_inv _ _ _ _ _ Ht) (tr_removed _ _ _ _ _ Ht)) as (q & L' & Hrun & Hi' & _ & Hc & _). pose proof Hc as [Hq _].
    pose proof (cached_handle ok L' _ q _ Hi' Hc) as (_ & Hok & _). pose proof (tr_exec _ _ _ _ _ Ht) as Hex. cbn [fst] in Hex.
    rewrite Hex in Hq, Hok, Hrun |- *. cbn [side_of] in Hok, Hq.
    pose proof (tr_same _ _ _ _ _ Ht Deliver addr Ha) as Hsame. cbn [snd] in Hsame.
    destruct (copy_account L0 (sw_StateDB w) addr _ Hok Hsame) as [Hcp Hkeep].
    erewrite bindM_step by (by apply (zoom_eq lens_snd)). erewrite bindM_step by (apply (zoom_eq lens_snd); by apply load_some).
    erewrite bindM_step by done. erewrite bindM_step by done. eexists _, _. split; [done|]. cbn. rewrite Hsn.
    split_and!; [done|apply lookup_insert_eq|]. intros a v. cbn [accessedObjAddrs set_accessed]. rewrite lookup_insert. case_decide as Hd; [intros [= <-]; subst a; by split|].
    intros Hv. destruct (Hall a v Hv) as [-> Hca]. split; [done|]. by apply Hkeep. }
  destruct Hx as (w1 & L1 & Hrun & Hsn1 & Hin & Hall1). rewrite Hrun in Ht1. cbn [snd] in Ht1.
  unfold AddAddressToAccessList. rewrite (bindM_step _ _ _ _ _ Hrun).
  pose proof (call_next _ (op_AddAddressToAccessList addr) (sw_StateDB w1)) as Hn. pose proof (call_returns _ (op_AddAddressToAccessList addr) (sw_StateDB w1)) as Hne.
  pose proof (fun b => access_list_obs addr b (sw_StateDB w1)) as Hobs.
  unfold on_sdb, zoom. cbn [lget l_sdb fst snd lset]. destruct (sdb_call _ _) as [[u|e|] db2]; cbn in *; [right|by destruct (Hne e)|by left].
  destruct Ht1 as [H1 H2 H3 H4 H5 H6 H7 H8]. cbn in *. split_and!; try done.
  - constructor; cbn; try done; [lia|]. intros a [->|Hap]%elem_of_cons; auto.
  - intros a v Hv. destruct (Hall1 a v Hv) as [-> Hca]. split; [done|]. apply (copied_obs _ (sw_StateDB w1)); [apply Hobs|done].
Qed.

Lemma prepare_spec w L h i from to snap w1 s2 :
  ledger_inv ok L -> no_removed L -> accessedObjAddrs w = ∅ ->
  Snapshot (w, L) = (Ret snap, (w1, L)) -> Prepare h i from to snap true (w1, L) = (Ret tt, s2) ->
  tracked utf8 snap L (if IsZeroAddress to then [Array20 from] else [Array20 to; Array20 from]) s2 /\ fresh_copies snap L s2.1.
Proof.
  intros Hi Hn Hacc Hsn Hp. destruct (snapshot_id (sw_StateDB w)) as (db1 & Hcall & Hlt). unfold Snapshot in Hsn.
  rewrite (bindM_step _ _ _ (sdb_next (sw_StateDB w)) (set_sdb db1 w, L)) in Hsn by (by apply (zoom_eq l_sdb)). injection Hsn as <- <-.
  unfold Prepare in Hp. erewrite bindM_step in Hp by done. erewrite bindM_step in Hp by done. cbn [fst snd] in Hp.
  match type of Hp with bindM _ _ ?s = _ => set (s0 := s) in * end.
  pose proof (prepare_next (Array32 h) i db1).
  assert (Ht : tracked utf8 (sdb_next (sw_StateDB w)) L [] s0).
  { constructor; cbn; try done; [lia| |]; [intros a v; by rewrite Hacc, lookup_empty|intros a Ha; by apply not_elem_of_nil in Ha]. }
  assert (Hall : fresh_copies (sdb_next (sw_StateDB w)) L s0.1) by (intros a v; cbn; by rewrite Hacc, lookup_empty).
  apply bindM_inv in Hp as ([] & s1 & Hf & Hp).
  destruct (access_pins _ L [] (Array20 from) s0 Ht eq_refl (array20_addr _) Hall) as [Hbad|(Ht1 & Hs1 & Hall1)]; [by rewrite Hf in Hbad|].
  rewrite Hf in Ht1, Hs1, Hall1. cbn [snd] in *. destruct (IsZeroAddress to); [injection Hp as <-; by split|].
  destruct (access_pins _ L [Array20 from] (Array20 to) s1 Ht1 Hs1 (array20_addr _) Hall1) as [Hbad|(Ht2 & _ & Hc2)]; [by rewrite Hp in Hbad|].
  rewrite Hp in Ht2, Hc2. by split.
Qed.

(** What an execution does not touch. *)
Definition same_store (c c' : ctrler) : Prop :=
  ec_metadb c' = ec_metadb c /\ ec_ethDB c' = ec_ethDB c /\ ec_lastBlockHeight c' = ec_lastBlockHeight c /\ lastRootHash c' = lastRootHash c.

(** *** The run of the interpreter *)
Lemma exec_vm_spec snap L0 pins from to nonce gas gp amt data (c : ctrler) L w r s' :
  stateDBWrapper c = Some w -> tracked utf8 snap L0 pins (w, L) -> execVM from to nonce gas gp amt data (c, L) = (r, s') -> r <> Panic ->
  exists bctx out w' L', ec_vmevm c = Some bctx /\
    interp (ApplyMessage bctx (evmMessage (Array20 from) (if IsZeroAddress to then None else Some (Array20 to)) nonce gas gp amt data false) (blockGasPool c)) (w, L) = (Ret out, (w', L')) /\
    tracked utf8 snap L0 pins (w', L') /\ s' = (set_gasPool out.2 (set_wrapper w' c), L') /\
    r = (match out.1 with inl e => Err (NewOrdinary e) | inr res => Ret res end).
Proof.
  intros Hw Ht He Hr. unfold execVM in He. erewrite bindM_step in He by done. cbn [fst] in He.
  destruct (ec_vmevm c) as [bctx|]; [|injection He as <- _; done]. set (p := ApplyMessage _ _ _) in *.
  unfold bindM at 1 in He. destruct (on_wrapper (interp p) (c, L)) as [r1 s1] eqn:E1.
  destruct (on_wrapper_inv _ _ _ _ _ _ Hw E1) as (w' & L' & Hi & ->).
  destruct r1 as [out|e|]; [|exfalso|by injection He as <- _].
  - exists bctx, out, w', L'. split_and!; try done.
    + pose proof (interp_tracked utf8 utf8_empty snap L0 pins p [] (apply_wf _ _ _) ltac:(intros id Hid; by apply not_elem_of_nil in Hid) (w, L) Ht) as H.
      by rewrite Hi in H.
    + erewrite bindM_step in He by done. destruct out as [[e|res] gp']; by injection He as <- <-.
    + erewrite bindM_step in He by done. destruct out as [[e|res] gp']; by injection He as <- <-.
  - assert (Hne : never_err (interp (A := accts) p)).
    { apply ne_interp. }
    by specialize (Hne (w, L) e); rewrite Hi in Hne.
Qed.

(** *** Undoing *)
Lemma revert_spec snap L0 pins (c : ctrler) L w r s' :
  stateDBWrapper c = Some w -> tracked utf8 snap L0 pins (w, L) -> revert_finish order snap (c, L) = (Ret r, s') ->
  exists w', s' = (set_wrapper w' c, L) /\ accessedObjAddrs w' = ∅.
Proof.
  intros Hw Ht H. unfold revert_finish in H. apply bindM_inv in H as ([] & s1 & H1 & H2).
  destruct (on_wrapper_inv _ _ _ _ _ _ Hw H1) as (w1 & L1 & Hr & ->).
  unfold RevertToSnapshot in Hr. erewrite bindM_step in Hr by done. apply zoom_inv in Hr as (db & _ & Heq). cbn in Heq. injection Heq as -> ->.
  destruct (on_wrapper_inv _ _ _ _ _ _ (eq_refl : stateDBWrapper (set_wrapper _ c) = Some _) H2) as (w2 & L2 & Hf & ->).
  assert (Hemp : filter (fun kv : list Byte.byte * Z => ~ snap < kv.2) (accessedObjAddrs w) = ∅).
  { apply map_empty. intros a. apply map_lookup_filter_None. right. intros v Hv. destruct (tr_newer _ _ _ _ _ Ht a v Hv) as [Hlt _]. cbn. lia. }
  unfold Finish in Hf. erewrite bindM_step in Hf by done. cbn [accessedObjAddrs set_sdb set_accessed fst] in Hf.
  rewrite Hemp, order_nil in Hf by done. cbn in Hf. injection Hf as _ <- <-. eexists. split; [reflexivity|]. reflexivity.
Qed.

Lemma ne_revert_finish snap : never_err (revert_finish (DB := DB) (A := accts) order snap).
Proof. unfold revert_finish. apply ne_bind; [apply ne_on_wrapper, (ne_wrapper_call (op_RevertToSnapshot snap))|intros _; apply ne_on_wrapper, ne_finish]. Qed.

Lemma ne_record_contract ctx : never_err (record_contract (DB := DB) (A := accts) (G := G) ctx).
Proof.
  unfold record_contract. apply ne_bind; [auto with ne|intros o]. destruct o; [|apply ne_panic].
  apply ne_bind; [auto with ne|intros _]. apply ne_bind; [auto with ne|intros _]. apply ne_ret.
Qed.

Lemma ne_finalise h : never_err (finalise (DB := DB) (A := accts) (G := G) h).
Proof.
  unfold finalise. case_match; [apply ne_on_wrapper; auto with ne|]. apply ne_bind; [|intros x; apply ne_modify].
  apply ne_on_wrapper, ne_zoom. intros db e. by destruct (sdb_IntermediateRoot _ _).
Qed.

Lemma finalise_spec h (c : ctrler) L w s' :
  stateDBWrapper c = Some w -> finalise (A := accts) h (c, L) = (Ret tt, s') ->
  s'.2 = L /\ exists w', stateDBWrapper s'.1 = Some w' /\ accessedObjAddrs w' = accessedObjAddrs w.
Proof.
  intros Hw H. unfold finalise in H. destruct (IsByzantium _).
  - destruct (on_wrapper_inv _ _ _ _ _ _ Hw H) as (w' & L' & Hm & ->). injection Hm as <- <-. split; [done|]. by eexists.
  - apply bindM_inv in H as (hh & s1 & Hm & Hroot). destruct (on_wrapper_inv _ _ _ _ _ _ Hw Hm) as (w' & L' & Hm' & ->).
    injection Hroot as <-. unfold on_sdb in Hm'. apply zoom_inv in Hm' as (db & _ & Heq). injection Heq as -> ->. split; [done|]. by eexists.
Qed.

Lemma order_elem m a : a ∈ order m <-> is_Some (m !! a).
Proof.
  rewrite order_keys, list_elem_of_fmap. split; [intros ([k v] & -> & Hkv%elem_of_map_to_list); eauto|].
  intros [v Hv]. exists (a, v). split; [done|]. by apply elem_of_map_to_list.
Qed.

(** *** The common beginning of an execution *)
Lemma load_receiver (c : ctrler) L (ctx : TrxContext) p a s1 :
  zoom l_ctrler (zoom lens_snd (load_account p)) (c, L, ctx) = (Ret a, s1) -> s1 = (c, L, ctx).
Proof.
  intros H. apply zoom_inv in H as ([c1 L1] & H & ->). apply zoom_inv in H as (L2 & H & Heq). cbn in *. revert H. unfold load.
  case_match; [|done]. intros [= _ <-]. by injection Heq as -> ->.
Qed.

(** Snapshot, preparation and the run: the state before the result is looked at. *)
Lemma begin_spec (c : ctrler) L (ctx : TrxContext) w h i from to nonce gas gp amt data snap s1 s2 r s3 :
  ledger_inv ok L -> no_removed L -> stateDBWrapper c = Some w -> accessedObjAddrs w = ∅ ->
  zoom l_ctrler (on_wrapper Snapshot) (c, L, ctx) = (Ret snap, s1) ->
  zoom l_ctrler (on_wrapper (Prepare h i from to snap true)) s1 = (Ret tt, s2) ->
  tryM (zoom l_ctrler (execVM from to nonce gas gp amt data)) s2 = (Ret r, s3) ->
  exists bctx w0 L0 out w1 L1 c1, ec_vmevm c = Some bctx /\
    interp (ApplyMessage bctx (evmMessage (Array20 from) (if IsZeroAddress to then None else Some (Array20 to)) nonce gas gp amt data false) (blockGasPool c)) (w0, L0) = (Ret out, (w1, L1)) /\
    tracked utf8 snap L (if IsZeroAddress to then [Array20 from] else [Array20 to; Array20 from]) (w1, L1) /\
    (forall a, a ∈ (if IsZeroAddress to then [Array20 from] else [Array20 to; Array20 from]) -> copied L (sw_StateDB w0) a) /\
    s3 = (c1, L1, ctx) /\ stateDBWrapper c1 = Some w1 /\ same_store c c1 /\
    r = match out.1 with inl e => inl (NewOrdinary e) | inr res => inr res end.
Proof.
  intros Hi Hn Hw Hacc Hs Hp Hx. apply zoom_inv in Hs as ([c1 L1] & Hs & ->). destruct (on_wrapper_inv _ _ _ _ _ _ Hw Hs) as (w1 & L1' & Hsn & Heq).
  injection Heq as -> ->. assert (HL : L1' = L).
  { unfold Snapshot in Hsn. destruct (snapshot_id (sw_StateDB w)) as (db & Hc & _).
    rewrite (bindM_step _ _ _ (sdb_next (sw_StateDB w)) (set_sdb db w, L)) in Hsn by (by apply (zoom_eq l_sdb)). by injection Hsn as _ _ <-. }
  subst L1'. apply zoom_inv in Hp as ([c2 L2] & Hp & ->). cbn [lget lset l_ctrler lens_fst fst snd] in Hp.
  destruct (on_wrapper_inv _ _ _ _ _ _ (eq_refl : stateDBWrapper (set_wrapper _ c) = Some _) Hp) as (w2 & L2' & Hpr & Heq). injection Heq as -> ->.
  pose proof (prepare_spec w L h i from to snap w1 (w2, L2') Hi Hn Hacc Hsn Hpr) as [Ht Hcopies].
  apply tryM_inv, zoom_inv in Hx as ([c3 L3] & Hx & ->). cbn [lget l_ctrler lens_fst lset fst snd] in *.
  destruct (exec_vm_spec _ _ _ _ _ _ _ _ _ _ _ _ w2 _ _ (eq_refl : stateDBWrapper (set_wrapper w2 _) = Some w2) Ht Hx) as (bctx & out & w3 & L3' & Hb & Hi3 & Ht3 & Heq & Hr);
    [by destruct r|]. injection Heq as -> ->.
  exists bctx, w2, L2', out, w3, L3'. eexists. split_and!; try done.
  { intros a Ha. by apply (Hcopies a (snap + 1)), (tr_pins _ _ _ _ _ Ht). }
  destruct out as [[e|res] gp']; cbn in *; destruct r; congruence.
Qed.

(** C10: a contract transaction that fails changes no account.  Whatever the
    interpreter does before it reports an error or a failed execution, and
    however many nested calls it has reverted, every account of the node reads as
    before (addresses it looked at may have been created empty), and the
    controller is left as it was between transactions: nothing is marked as
    accessed, and height, root and stores are the same. *)
Theorem failed_contract_no_effect g (c : ctrler) L ctx w e s' :
  ledger_inv ok L -> no_removed L -> stateDBWrapper c = Some w -> accessedObjAddrs w = ∅ ->
  EVM_ExecuteTrx order g (c, L, ctx) = (Err e, s') ->
  exists c' L' ctx' w', s' = (c', L', ctx') /\ accounts_same L L' /\ ledger_inv ok L' /\ no_removed L' /\
    stateDBWrapper c' = Some w' /\ accessedObjAddrs w' = ∅ /\ same_store c c'.
Proof.
  intros Hi Hn Hw Hacc H. unfold EVM_ExecuteTrx in H. erewrite bindM_step in H by done. cbn [snd] in H.
  destruct (cx_Exec ctx) eqn:Ex; [|done]. cbn [negb] in H.
  apply ne_err_inv in H as (rcv & s0 & Hl & H); [|auto with ne]. apply load_receiver in Hl. subst s0.
  destruct (not_contract ctx rcv); [injection H as <- <-; exists c, L, ctx, w; by split_and!|].
  apply ne_err_inv in H as (snap & s1 & Hs & H); [|apply ne_zoom, ne_on_wrapper, (ne_wrapper_call op_Snapshot)].
  apply ne_err_inv in H as ([] & s2 & Hp & H); [|apply ne_zoom, ne_on_wrapper, ne_prepare].
  apply ne_err_inv in H as (gp & s2' & Hgp & H); [|apply ne_lift; intros e0; unfold GasPrice, deref; by destruct (gasPrice g)].
  injection Hgp as Hgp <-. apply ne_err_inv in H as (r & s3 & Hx & H); [|apply ne_try].
  destruct (begin_spec c L ctx w _ _ _ _ _ _ _ _ _ _ _ _ _ _ Hi Hn Hw Hacc Hs Hp Hx) as (bctx & w0 & L0 & out & w1 & L1 & c1 & _ & _ & Ht & _ & -> & Hw1 & Hst & Hr).
  assert (Hdone : forall (u : unit) s4, zoom l_ctrler (revert_finish order snap) (c1, L1, ctx) = (Ret u, s4) ->
    exists w', s4 = (set_wrapper w' c1, L1, ctx) /\ accessedObjAddrs w' = ∅).
  { intros u s4 Hz. apply zoom_inv in Hz as ([c2 L2] & Hz & ->). destruct (revert_spec _ _ _ _ _ _ _ _ Hw1 Ht Hz) as (w' & Heq & He). injection Heq as -> ->. eauto. }
  destruct Ht as [Hi1 Hn1 Hs1 _ _ _ _ _]. cbn in Hi1, Hn1, Hs1.
  destruct r as [xerr|res].
  - apply ne_err_inv in H as (u & s4 & Hz & H); [|apply ne_zoom, ne_revert_finish]. destruct (Hdone u s4 Hz) as (w' & -> & He). injection H as <- <-.
    exists (set_wrapper w' c1), L1, ctx, w'. by split_and!.
  - destruct (er_Err res) as [msg|].
    + apply ne_err_inv in H as (u & s4 & Hz & H); [|apply ne_zoom, ne_revert_finish]. destruct (Hdone u s4 Hz) as (w' & -> & He).
      erewrite bindM_step in H by done. injection H as <- <-. eexists (set_wrapper w' c1), L1, _, w'. by split_and!.
    + exfalso. repeat (apply ne_err_inv in H as (? & ? & _ & H); [|first [apply ne_zoom; first [apply ne_on_wrapper, ne_finish|apply ne_finalise|apply ne_record_contract]|apply ne_modify]]).
      apply ne_err_inv in H as (attrs & s5 & _ & H); [|destruct (IsZeroAddress _); [|apply ne_ret]; apply ne_bind; [apply ne_zoom, ne_record_contract|intros a];
        apply ne_bind; [apply ne_modify|intros _; apply ne_ret]].
      apply ne_err_inv in H as (logs & s6 & _ & H); [done|apply ne_zoom, ne_on_wrapper, ne_zoom, ne_gets].
Qed.

(** C18: a contract call that succeeds writes back what the EVM computed.  The
    interpreter starts with the balances and nonces of the accounts of sender
    and receiver.  After its run, the accounts of the node at the addresses it has
    accessed (the sender and the receiver are always among them) carry exactly the
    balance and nonce of the EVM state; the logs are reported as one event; every
    other account, and everything
    [CheckTx] sees, reads as before; and the controller is again between
    transactions. *)
Theorem contract_call_written_back g (c : ctrler) L ctx w s' :
  ledger_inv ok L -> no_removed L -> stateDBWrapper c = Some w -> accessedObjAddrs w = ∅ ->
  cx_Exec ctx = true -> IsZeroAddress (tx_To (cx_Tx ctx)) = false ->
  EVM_ExecuteTrx order g (c, L, ctx) = (Ret tt, s') ->
  exists bctx gp w0 L0 res pool w1 L1 c' L' ctx' w', ec_vmevm c = Some bctx /\ GasPrice g = Ret gp /\
    interp (ApplyMessage bctx (evmMessage (Array20 (tx_From (cx_Tx ctx))) (Some (Array20 (tx_To (cx_Tx ctx)))) (tx_Nonce (cx_Tx ctx))
      (tx_Gas (cx_Tx ctx)) gp (tx_Amount (cx_Tx ctx)) (inputData (cx_Tx ctx)) false) (blockGasPool c)) (w0, L0) = (Ret (inr res, pool), (w1, L1)) /\
    copied L (sw_StateDB w0) (Array20 (tx_From (cx_Tx ctx))) /\ copied L (sw_StateDB w0) (Array20 (tx_To (cx_Tx ctx))) /\
    er_Err res = None /\ s' = (c', L', ctx') /\ cx_GasUsed ctx' = UsedGas res /\ cx_RetData ctx' = ReturnData res /\
    is_Some (accessedObjAddrs w1 !! Array20 (tx_From (cx_Tx ctx))) /\ is_Some (accessedObjAddrs w1 !! Array20 (tx_To (cx_Tx ctx))) /\
    (forall sd addr, is_addr addr -> account_at L' sd addr =
       if decide (sd = Deliver /\ is_Some (accessedObjAddrs w1 !! addr)) then synced (sw_StateDB w1) addr (account_at L sd addr) else account_at L sd addr) /\
    cx_Events ctx' = cx_Events ctx ++ [mkEvent "evm" (concat (map log_attrs (sdb_GetLogs (Array32 (cx_TxHash ctx)) (sw_StateDB w'))))] /\
    ledger_inv ok L' /\ no_removed L' /\ stateDBWrapper c' = Some w' /\ accessedObjAddrs w' = ∅.
Proof.
  intros Hi Hn Hw Hacc Ex Hz H. unfold EVM_ExecuteTrx in H. erewrite bindM_step in H by done. cbn [snd] in H. rewrite Ex in H. cbn [negb] in H.
  apply bindM_inv in H as (rcv & s0 & Hl & H). apply load_receiver in Hl. subst s0.
  destruct (not_contract ctx rcv); [done|]. apply bindM_inv in H as (snap & s1 & Hs & H). apply bindM_inv in H as ([] & s2 & Hp & H).
  apply bindM_inv in H as (gp & s2' & Hgp & H). injection Hgp as Hgp <-. apply bindM_inv in H as (r & s3 & Hx & H).
  destruct (begin_spec c L ctx w _ _ _ _ _ _ _ _ _ _ _ _ _ _ Hi Hn Hw Hacc Hs Hp Hx) as (bctx & w0 & L0 & [o pool] & w1 & L1 & c1 & Hb & Hrun & Ht & Hcp & -> & Hw1 & Hst & Hr).
  rewrite Hz in Hrun, Ht, Hcp. cbn in Hr. destruct r as [xerr|res]; [by apply bindM_inv in H as (? & ? & _ & ?)|].
  destruct o as [|res']; [done|]. injection Hr as <-. destruct (er_Err res) eqn:Ee.
  { apply bindM_inv in H as (? & ? & _ & H). by apply bindM_inv in H as (? & ? & _ & ?). }
  apply bindM_inv in H as ([] & s4 & Hf & H). apply zoom_inv in Hf as ([c4 L4] & Hf & ->).
  destruct (on_wrapper_inv _ _ _ _ _ _ Hw1 Hf) as (w4 & L4' & Hfin & Heq). injection Heq as -> ->.
  unfold Finish in Hfin. erewrite bindM_step in Hfin by done. cbn [fst] in Hfin. apply bindM_inv in Hfin as ([] & [w5 L5] & Hall & Hlast).
  injection Hlast as <- <-. destruct Ht as [Hi1 Hn1 Hsame He1 _ _ Hnew Hpin]. cbn in Hi1, Hn1, Hsame, He1, Hnew, Hpin.
  pose proof (fun a => order_elem (accessedObjAddrs w1) a) as Hkeys.
  destruct (write_back_all utf8 utf8_empty (order (accessedObjAddrs w1)) w1 L1 (w5, L5)) as (db' & Hw5 & Hi5 & Hn5 & Hv5); try done.
  { rewrite order_keys. apply NoDup_fst_map_to_list. }
  { intros a [v Hv]%Hkeys. by apply (Hnew a v). }
  cbn in Hw5, Hi5, Hn5. apply bindM_inv in H as ([] & s6 & Hfz & H). apply zoom_inv in Hfz as ([c6 L6] & Hfz & ->).
  destruct (finalise_spec _ _ _ _ _ (eq_refl : stateDBWrapper (set_wrapper _ c1) = Some _) Hfz) as (HL6 & w6 & Hw6 & Ha6).
  cbn [fst snd set_accessed accessedObjAddrs] in HL6, Hw6, Ha6. subst L6.
  rewrite Hz in H. cbn [lset l_ctrler lens_fst fst snd] in H.
  erewrite bindM_step in H by done. erewrite bindM_step in H by done. erewrite bindM_step in H by done.
  erewrite bindM_step in H by (unfold zoom, on_wrapper; cbn [lget l_ctrler lens_fst fst]; rewrite Hw6; reflexivity).
  injection H as <-. exists bctx, gp, w0, L0, res, pool, w1, L1. eexists _, L5, _, (set_sdb (sw_StateDB w6) w6).
  split_and!; try done.
  - apply Hcp, list_elem_of_further, list_elem_of_here.
  - apply Hcp, list_elem_of_here.
  - rewrite Hpin by (apply list_elem_of_further, list_elem_of_here). done.
  - rewrite Hpin by apply list_elem_of_here. done.
  - intros sd addr Ha. rewrite Hv5 by done. cbn [snd]. change (side_of true) with Deliver. rewrite <- (Hsame sd addr Ha).
    destruct (decide (sd = Deliver /\ addr ∈ order (accessedObjAddrs w1))) as [[-> Hin]|Hout].
    + rewrite decide_True by (split; [done|by apply Hkeys]). done.
    + rewrite decide_False; [done|]. intros [-> Hin]. apply Hout. split; [done|]. by apply Hkeys.
Qed.
End Execute.

(** ** Heights and roots survive a restart *)
Lemma block_key_inj a b : 0 <= a < 2 ^ 63 -> 0 <= b < 2 ^ 63 -> blockKey a = blockKey b -> a = b.
Proof.
  intros Ha Hb. unfold blockKey. intros H. injection H as H. change (FormatInt a = FormatInt b) in H. apply (f_equal ParseInt) in H. rewrite !parse_format in H by done. congruence.
Qed.

Section Restart.
Context {G : GethState} {VM : EthVM} {DB : Type} {TD : TmDB DB} {TB : TmBatch DB} {TBL : TmBatchLaws DB}.
Context {A : Type} {AH : IAccountHandler A}.

(** What the EVM controller commits survives a restart.  After [Commit]
    (whose batch was written), a controller opened on the same databases has the
    committed root as its last root and the next height as its last height; it
    then accepts exactly the block after that; and the roots of all earlier
    blocks are still found under their heights. *)
Theorem evm_commit_durable (c c' : EVMCtrler (G := G) (DB := DB)) (a a' : A) root h :
  0 <= ec_lastBlockHeight c < 2 ^ 63 - 2 -> EVM_Commit (c, a) = (Ret (root, h), (c', a')) ->
  (forall kvs d, exists d', db_WriteBatch kvs d = inr d') ->
  h = ec_lastBlockHeight c + 1 /\ a' = a /\
  (exists c2, NewEVMCtrler (ec_metadb c') (ec_ethDB c') = Ret c2 /\ lastRootHash c2 = root /\ ec_lastBlockHeight c2 = h /\
     forall ctx (b : A), (exists s, EVM_BeginBlock ctx (c2, b) = (Ret tt, s)) <-> bc_Height ctx = h + 1) /\
  forall k, 0 <= k < 2 ^ 63 -> k <> h -> db_Get (ec_metadb c') (blockKey k) = db_Get (ec_metadb c) (blockKey k).
Proof.
  intros Hh H Hok. unfold EVM_Commit in H. cbn [fst snd] in H. destruct (stateDBWrapper c) as [w|]; [|done].
  destruct (sdb_Commit true (sw_StateDB w)) as [|[rh sdb]]; [done|]. destruct (trie_Commit rh sdb (ec_ethDB c)) as [|ethDB]; [done|].
  rewrite i64_id in H by (unfold is_i64; lia). set (h1 := ec_lastBlockHeight c + 1) in *.
  match type of H with context [db_WriteBatch ?b _] => set (kvs := b) in * end. destruct (Hok kvs (ec_metadb c)) as [d' Hd]. rewrite Hd in H.
  destruct (NewStateDBWrapper ethDB rh) as [|stdb] eqn:Est; [done|]. injection H as <- <- <- <-. cbn [ec_metadb ec_ethDB].
  assert (Hl : db_Get d' lastBlockHeightKey = inr (Some (String.list_byte_of_string (FormatInt h1)))).
  { rewrite (batch_get kvs _ _ _ Hd). unfold kvs. cbn. rewrite decide_False by done. by rewrite decide_True. }
  assert (Hb : db_Get d' (blockKey h1) = inr (Some rh)).
  { rewrite (batch_get kvs _ _ _ Hd). unfold kvs. cbn. by rewrite decide_True. }
  split_and!; try done.
  - unfold NewEVMCtrler. rewrite Hl, String.string_of_list_byte_of_string, parse_format, Hb by (unfold h1; lia).
    eexists. split_and!; try done. intros ctx b. unfold EVM_BeginBlock. cbn [fst snd ec_lastBlockHeight ec_ethDB lastRootHash default from_option id].
    rewrite i64_id by (unfold is_i64, h1; lia). destruct (Z.eqb_spec (h1 + 1) (bc_Height ctx)) as [He|He]; cbn [negb].
    + rewrite Est. split; [done|]. intros _. by eexists.
    + split; [by intros [s Hs]|]. intros Hx. by destruct He.
  - intros k Hk Hne. rewrite (batch_get kvs _ _ _ Hd). unfold kvs. cbn. rewrite decide_False by (intros He; apply Hne; symmetry; apply block_key_inj; [unfold h1; lia|done|done]).
    by rewrite decide_False by done.
Qed.
End Restart.
