(* ===== verification/EvmScene.v ===== *)
(** * A small EVM

    Instances of the interfaces of go-ethereum: a state with balances, nonces and
    snapshots, and an interpreter that pays the amount of the message and fails
    when the input is not empty.  The theorems of EvmProps are applied to them. *)

From Stdlib Require Import Strings.Byte.
From S2P Require Import Prelude Xerrors GoSem Bytes Crypto Ledger LedgerSpec LedgerClient LedgerProps Concrete GovParams Account Trx TrxProps Context.
From S2P Require Import AcctCtrler AcctProps AcctClient GovProps MetaDB StateDB Executor EvmCtrler Scene EvmProps.

Abbreviation balances := (gmap (list Byte.byte) Z).
Record toySDB : Type := mkToySDB { ts_bal : balances; ts_nonce : balances; ts_next : Z; ts_saved : list (Z * (balances * balances)) }.

Definition with_bal (f : balances -> balances) (s : toySDB) : toySDB := mkToySDB (f (ts_bal s)) (ts_nonce s) (ts_next s) (ts_saved s).
Definition with_nonce (f : balances -> balances) (s : toySDB) : toySDB := mkToySDB (ts_bal s) (f (ts_nonce s)) (ts_next s) (ts_saved s).
Definition toy_balance (s : toySDB) (a : list Byte.byte) : Z := Z.max 0 (default 0 (ts_bal s !! a)).
Definition toy_nonce (s : toySDB) (a : list Byte.byte) : Z := u64 (default 0 (ts_nonce s !! a)).

Definition toy_call {R} (op : SDBOp R) : GoM toySDB R :=
  match op in SDBOp R return GoM toySDB R with
  | op_SubBalance a z => modifyM (fun s => with_bal <[a := toy_balance s a - z]> s)
  | op_AddBalance a z => modifyM (fun s => with_bal <[a := toy_balance s a + z]> s)
  | op_GetBalance a => getsM (fun s => toy_balance s a)
  | op_GetNonce a => getsM (fun s => toy_nonce s a)
  | op_SetNonce a n => modifyM (with_nonce <[a := n]>)
  | op_Snapshot => fun s => (Ret (ts_next s), mkToySDB (ts_bal s) (ts_nonce s) (ts_next s + 1) ((ts_next s, (ts_bal s, ts_nonce s)) :: ts_saved s))
  | op_RevertToSnapshot id => fun s =>
      match list_find (fun x => x.1 = id) (ts_saved s) with
      | Some (_, (_, (b, n))) => (Ret tt, mkToySDB b n (ts_next s) (ts_saved s))
      | None => (Panic, s)
      end
  | op_GetCodeHash _ | op_GetCode _ | op_GetCommittedState _ _ | op_GetState _ _ => retM []
  | op_GetCodeSize _ | op_GetRefund => retM 0
  | op_Suicide _ | op_HasSuicided _ | op_AddressInAccessList _ | op_Empty _ | op_Exist _ => retM false
  | op_SlotInAccessList _ _ => retM (false, false)
  | op_ForEachStorage _ _ => retM None
  | _ => retM tt
  end.

#[export] Instance toyGeth : GethState := {|
  SDB := toySDB;
  EthDB := list (list Byte.byte);
  state_New root db := inr (mkToySDB ∅ ∅ 0 []);
  sdb_call := @toy_call;
  sdb_Prepare h i s := s;
  sdb_GetOrNewStateObject a s := s;
  obj_SetNonce a n := with_nonce <[a := n]>;
  obj_SetBalance a z := with_bal <[a := z]>;
  sdb_Finalise b s := s;
  sdb_IntermediateRoot b s := ([], s);
  sdb_Commit b s := inr (be_fixed 32 (Z.of_nat (size (ts_bal s))), s);
  trie_Commit root s db := inr (root :: db);
  sdb_GetLogs h s := [];
|}.

#[export] Instance toyView : GethView := {| sdb_next := ts_next; sdb_balance := toy_balance; sdb_nonce := toy_nonce |}.

#[export] Instance toyGeth_laws : GethLaws.
Proof.
  constructor; cbn.
  - intros s. eexists. split; [done|]. cbn. lia.
  - intros R op s e. destruct op; cbn; try done. by repeat case_match.
  - intros R op s. destruct op; cbn; try done; try lia. repeat case_match; cbn; done.
  - done.
  - done.
  - done.
  - done.
  - intros a s. by eexists.
  - intros a s. by eexists.
  - done.
  - intros a n b s Hn. split; [done|]. unfold toy_nonce. cbn. rewrite lookup_insert. repeat case_decide; subst; try done. cbn. by apply u64_id.
  - intros a z b s Hz. split; [|done]. unfold toy_balance. cbn. rewrite lookup_insert. repeat case_decide; subst; try done. cbn. lia.
  - done.
  - intros a s. unfold toy_balance. lia.
  - intros a s. apply u64_range.
Qed.

(** Buy gas, pay, count the nonce; an input makes the execution fail after that. *)
Definition toy_apply (b : EvmBlockContext) (m : Message) (pool : Z) : evm_prog ((string + ExecutionResult) * Z) :=
  let to := default (ZeroBytes 20) (mg_To m) in
  Call op_Snapshot (fun _ =>
  prog_bind (eb_CanTransfer b (mg_From m) (mg_Amount m)) (fun can =>
    if negb can then Done (inl "insufficient funds for transfer"%string, pool) else
    prog_bind (eb_Transfer b (mg_From m) to (mg_Amount m)) (fun _ =>
      Call (op_SetNonce (mg_From m) (mg_Nonce m + 1)) (fun _ =>
        Done (inr (mkExecutionResult 21000 (if bool_decide (mg_Data m = []) then None else Some "execution reverted"%string) []), pool - 21000))))).

#[export] Instance toyVM : EthVM := {|
  ApplyMessage b m pool := toy_apply (evmBlockContext (eb_Coinbase b) (eb_BlockNumber b) (eb_Time b)) m pool;
  IntrinsicGas d c h i := inr (21000 + 16 * Z.of_nat (length d));
  CreateAddress a n := a;
|}.

#[export] Instance toyVM_laws : EthVMLaws.
Proof.
  constructor. intros b m gp. cbn. split_and!; try done. intros x. split_and!; try done. intros bal. case_match; [done|]. by repeat split.
Qed.

Definition keys_order (m : gmap (list Byte.byte) Z) : list (list Byte.byte) := (map_to_list m).*1.

#[export] Instance mapBatch : TmBatch (gmap string (list Byte.byte)) := {|
  db_WriteBatch kvs d := inr (foldl (fun m kv => <[kv.1 := kv.2]> m) d kvs);
|}.
#[export] Instance mapBatch_laws : TmBatchLaws (gmap string (list Byte.byte)).
Proof.
  constructor. cbn. intros kvs d d' k [= <-]. induction kvs as [|kv kvs IH] using rev_ind; [done|].
  rewrite foldl_snoc, reverse_snoc. cbn [list_find]. rewrite lookup_insert. destruct (decide (kv.1 = k)) as [Hk|Hne]; [done|].
  rewrite IH. by destruct (list_find _ _) as [[i y]|].
Qed.

(** A controller in block 1, and Alice's call of bob with an amount of 300. *)
Definition evmWrapper : StateDBWrapper := mkWrapper (mkToySDB ∅ ∅ 0 []) false ∅ 0 false.
Definition evmCtrler : EVMCtrler (DB := gmap string (list Byte.byte)) :=
  mkEVMCtrler (Some (evmBlockContext bobAddr 1 0)) [] (Some evmWrapper) gasLimit ∅ [] 0.
Definition callTx (input : list Byte.byte) : Trx := mkTrx 1 0 3 aliceAddr bobAddr 300 30000 10 TRX_CONTRACT (Some (PayloadContract input)) aliceAddr.
Definition callCtx (input : list Byte.byte) : TrxContext := mkTrxContext 1 0 [Byte.x09] (callTx input) 0 true [] 1%positive 2%positive 0 [] [] "rigo".

Lemma keys_order_ok m : keys_order m ≡ₚ (map_to_list m).*1. Proof. done. Qed.

Lemma failed_contract_no_effect_witness :
  exists c' L' ctx', EVM_ExecuteTrx keys_order Test1GovParams (evmCtrler, sceneAccts, callCtx [Byte.x01]) =
    (Err (NewOrdinary "execution reverted"), (c', L', ctx')) /\
    account_at L' Deliver aliceAddr = account_at sceneAccts Deliver aliceAddr /\ account_at L' Deliver bobAddr = account_at sceneAccts Deliver bobAddr.
Proof.
  destruct sceneAccts_ok as [Hi Hn].
  assert (He : (EVM_ExecuteTrx keys_order Test1GovParams (evmCtrler, sceneAccts, callCtx [Byte.x01])).1 = Err (NewOrdinary "execution reverted"))
    by (vm_compute; reflexivity).
  destruct (EVM_ExecuteTrx keys_order Test1GovParams (evmCtrler, sceneAccts, callCtx [Byte.x01])) as [r s'] eqn:E. cbn [fst] in He. subst r.
  pose proof (failed_contract_no_effect anyStr I keys_order keys_order_ok Test1GovParams evmCtrler sceneAccts (callCtx [Byte.x01]) evmWrapper _ _ Hi Hn eq_refl eq_refl E) as (c' & L' & ctx' & w' & -> & Hsame & _).
  exists c', L', ctx'. split; [reflexivity|]. split; apply Hsame; reflexivity.
Defined.

Lemma contract_call_written_back_witness :
  exists c' L' ctx', EVM_ExecuteTrx keys_order Test1GovParams (evmCtrler, sceneAccts, callCtx []) = (Ret tt, (c', L', ctx')) /\
    no_removed L' /\ exists w', stateDBWrapper c' = Some w' /\ accessedObjAddrs w' = ∅.
Proof.
  destruct sceneAccts_ok as [Hi Hn].
  assert (He : (EVM_ExecuteTrx keys_order Test1GovParams (evmCtrler, sceneAccts, callCtx [])).1 = Ret tt) by (vm_compute; reflexivity).
  destruct (EVM_ExecuteTrx keys_order Test1GovParams (evmCtrler, sceneAccts, callCtx [])) as [r s'] eqn:E. cbn [fst] in He. subst r.
  pose proof (contract_call_written_back anyStr I keys_order keys_order_ok Test1GovParams evmCtrler sceneAccts (callCtx []) evmWrapper _ Hi Hn eq_refl eq_refl eq_refl eq_refl E)
    as (bctx & gp & w0 & L0 & res & pool & w1 & L1 & c' & L' & ctx' & w' & _ & _ & _ & _ & _ & _ & -> & _ & _ & _ & _ & _ & _ & _ & Hn' & Hw' & Ha').
  exists c', L', ctx'. split; [reflexivity|]. split; [exact Hn'|]. exists w'. auto.
Defined.

(** The accounts after the call. *)
Example call_pays :
  let s' := (EVM_ExecuteTrx keys_order Test1GovParams (evmCtrler, sceneAccts, callCtx [])).2 in
  Balance (account_at s'.1.2 Deliver aliceAddr) = 700 /\ Balance (account_at s'.1.2 Deliver bobAddr) = 307 /\ Nonce (account_at s'.1.2 Deliver aliceAddr) = 4.
Proof. vm_compute. split_and!; reflexivity. Qed.

Lemma evm_commit_durable_witness :
  exists root c' c2, EVM_Commit (evmCtrler, sceneAccts) = (Ret (root, 1), (c', sceneAccts)) /\
    NewEVMCtrler (ec_metadb c') (ec_ethDB c') = Ret c2 /\ lastRootHash c2 = root /\ ec_lastBlockHeight c2 = 1.
Proof.
  set (res := EVM_Commit (evmCtrler, sceneAccts)).
  assert (He : exists root c', res = (Ret (root, 1), (c', sceneAccts))) by (eexists _, _; reflexivity). destruct He as (root & c' & He).
  destruct (evm_commit_durable evmCtrler c' sceneAccts sceneAccts root 1) as (_ & _ & (c2 & Ho & Hr & Hh & _) & _).
  - cbn. lia.
  - exact He.
  - intros kvs d. eexists. reflexivity.
  - exists root, c', c2. auto.
Defined.
