(* ===== verification/ExecutorProps.v ===== *)
(** * Theorems about the transaction executor

    What every executed transaction has passed, and the exact effect of a
    transfer: the amount, the fee and the nonce. *)

From Stdlib Require Import Strings.Byte.
From S2P Require Import Prelude Xerrors GoSem Bytes Crypto Ledger LedgerSpec LedgerClient LedgerProps Concrete GovParams Account Trx TrxProps Context.
From S2P Require Import AcctCtrler AcctProps Stake StakeLimiter StakeCtrler Proposal GovCtrler GovProps Executor Scene.

(** The checks that do not look at the state of the accounts. *)
Record static_guards {RL : RlpLib} {SL : EthCrypto} (g : GovParams) (ctx : TrxContext) (pub : list Byte.byte) : Prop := {
  sg_from : length (tx_From (cx_Tx ctx)) = AddrSize;
  sg_to : length (tx_To (cx_Tx ctx)) = AddrSize;
  sg_amount : u256_Sign (tx_Amount (cx_Tx ctx)) = 0 \/ u256_Sign (tx_Amount (cx_Tx ctx)) = 1;
  sg_gas : tx_Gas (cx_Tx ctx) <= MaxInt64;
  sg_price : gasPrice g = Some (tx_GasPrice (cx_Tx ctx));
  sg_fee : GasToFee (minTrxGas g) (tx_GasPrice (cx_Tx ctx)) <= fee_of (cx_Tx ctx);
  sg_sig : cx_Exec ctx = true -> VerifyTrxRLP (cx_Tx ctx) (cx_ChainID ctx) = Ret (tx_From (cx_Tx ctx), pub);
}.

Lemma verify_from {RL : RlpLib} {SL : EthCrypto} tx chain addr pub :
  VerifyTrxRLP tx chain = Ret (addr, pub) -> addr = tx_From tx.
Proof.
  unfold VerifyTrxRLP. destruct (PreImageToSignTrxRLP tx chain) as [e|img]; [done|].
  destruct (Sig2Addr img (tx_Sig tx)) as [[a k]|e|]; [|done|done].
  destruct (Compare a (tx_From tx) =? 0) eqn:E; [|done]. intros [= <- <-]. by apply Z.eqb_eq, compare_eq in E.
Qed.

Lemma sign_cases z : u256_Sign z = 0 \/ u256_Sign z = 1 \/ u256_Sign z = -1.
Proof. unfold u256_Sign. repeat case_match; auto. Qed.

Section Executor.
Context {Tr E : Type} {Tree : Iavl Tr}.
Context {CA : Codec AcctProto} {CS : Codec Stake} {CD : Codec Delegatee} {CR : Codec RewardProto}.
Context {CGP : Codec GovParamsProto} {CGJ : Codec GovParamsJSON} {D : DecCodec} {CP : Codec GovProposal}.
Context {RL : RlpLib} {SL : EthCrypto}.
Context {VM : IVMHandler E (FinalityLedger Account Tr)}.
Context (tmjson_Unmarshal : (list Byte.byte -> string + GovParams) -> list Byte.byte -> string + GovParams).
Abbreviation X := (@World Tr E * TrxContext)%type.

(** The context with the public key that the signature recovers to. *)
Definition with_pubkey (pub : list Byte.byte) (ctx : TrxContext) : TrxContext :=
  if cx_Exec ctx then set_SenderPubKey pub ctx else ctx.

Lemma validation0_inv (x x' : X) :
  commonValidation0 x = (Ret tt, x') ->
  exists pub, static_guards (params_of x.1) x.2 pub /\ x' = (x.1, with_pubkey pub x.2).
Proof.
  destruct x as [w ctx]. unfold commonValidation0, bindM at 1, getM. cbn [fst snd].
  destruct (length (tx_From (cx_Tx ctx)) =? AddrSize)%nat eqn:E1; cbn [negb]; [|done].
  destruct (length (tx_To (cx_Tx ctx)) =? AddrSize)%nat eqn:E2; cbn [negb]; [|done].
  destruct (u256_Sign (tx_Amount (cx_Tx ctx)) <? 0) eqn:E3; [done|].
  destruct (MaxInt64 <? tx_Gas (cx_Tx ctx)) eqn:E4; [done|].
  destruct (u256_Sign (tx_GasPrice (cx_Tx ctx)) <? 0) eqn:E5; [done|].
  unfold GasPrice, MinTrxFee, deref. destruct (gasPrice (params_of w)) as [price|] eqn:Ep; [|done].
  unfold bindM at 1, liftO. destruct (tx_GasPrice (cx_Tx ctx) =? price) eqn:E6; cbn [negb]; [|done]. apply Z.eqb_eq in E6. subst price.
  unfold bindM at 1. destruct (fee_of (cx_Tx ctx) <? GasToFee (minTrxGas (params_of w)) (tx_GasPrice (cx_Tx ctx))) eqn:E7; [done|].
  assert (Hg : forall pub, (cx_Exec ctx = true -> VerifyTrxRLP (cx_Tx ctx) (cx_ChainID ctx) = Ret (tx_From (cx_Tx ctx), pub)) ->
                      static_guards (params_of w) ctx pub).
  { intros pub Hv. apply Nat.eqb_eq in E1, E2. destruct (sign_cases (tx_Amount (cx_Tx ctx))) as [Hs|[Hs|Hs]];
      [| |by rewrite Hs in E3]; constructor; auto; lia. }
  unfold with_pubkey. destruct (cx_Exec ctx).
  - unfold bindM. destruct (VerifyTrxRLP (cx_Tx ctx) (cx_ChainID ctx)) as [[addr pub]|e|] eqn:Ev; [|done|done].
    unfold modifyM. intros [= <-]. exists pub. split; [|done]. apply Hg. intros _. by rewrite (verify_from _ _ _ _ Ev).
  - intros [= <-]. exists []. split; [|done]. by apply Hg.
Qed.

Lemma validation1_run (x : X) a :
  objs (lheap (w_acct x.1)) !! cx_Sender x.2 = Some a ->
  commonValidation1 x =
    (if Balance a <? u256 (fee_of (cx_Tx x.2) + tx_Amount (cx_Tx x.2)) then Err ErrInsufficientFund
     else if Nonce a =? tx_Nonce (cx_Tx x.2) then Ret tt
     else Err (Wrap ErrInvalidNonce (plainerr "invalid nonce - ledger: %v, tx:%v, address: %v, txhash: %X")), x).
Proof.
  intros Ha. destruct x as [[g L s v] ctx]. cbn [fst snd w_acct] in *. unfold commonValidation1, Sender_, on_world.
  unfold bindM, getsM, zoom, load. cbn [fst snd lget lset lens_fst l_acct w_acct]. rewrite Ha. cbn.
  unfold CheckBalance, CheckNonce, of_check. destruct (Balance a <? _); [done|]. cbn. by destruct (Nonce a =? _).
Qed.

Lemma validation1_inv (x x' : X) :
  commonValidation1 x = (Ret tt, x') ->
  exists a, objs (lheap (w_acct x.1)) !! cx_Sender x.2 = Some a /\ x' = x /\
    u256 (fee_of (cx_Tx x.2) + tx_Amount (cx_Tx x.2)) <= Balance a /\ Nonce a = tx_Nonce (cx_Tx x.2).
Proof.
  destruct (objs (lheap (w_acct x.1)) !! cx_Sender x.2) as [a|] eqn:Ha.
  - rewrite (validation1_run x a Ha). destruct (Balance a <? _) eqn:E1; [done|]. destruct (Nonce a =? _) eqn:E2; [|done].
    intros [= <-]. exists a. split_and!; [done|done|lia|lia].
  - destruct x as [[g L s v] ctx]. cbn [fst snd w_acct] in *. unfold commonValidation1, Sender_, on_world.
    unfold bindM, getsM, zoom, load. cbn [fst snd lget lset lens_fst l_acct w_acct]. by rewrite Ha.
Qed.

(** C19: what an executed transaction has passed.  If [ExecuteSync] succeeds,
    the addresses have the right length, the gas price is the one of the
    parameters, the gas pays the minimal fee, the sender exists, its nonce is
    the nonce of the transaction and its balance covers fee and amount (as a
    256-bit sum); in a block ([exec]), the signature recovers to the sender. *)
Theorem exec_guards (x x' : X) :
  ExecuteSync tmjson_Unmarshal x = (Ret tt, x') ->
  exists pub a, static_guards (params_of x.1) x.2 pub /\
    objs (lheap (w_acct x.1)) !! cx_Sender x.2 = Some a /\
    u256 (fee_of (cx_Tx x.2) + tx_Amount (cx_Tx x.2)) <= Balance a /\ Nonce a = tx_Nonce (cx_Tx x.2).
Proof.
  unfold ExecuteSync, validateTrx. intros ([] & x1 & H1 & _)%bindM_inv.
  apply bindM_inv in H1 as ([] & x2 & H0 & ([] & x3 & H1 & _)%bindM_inv).
  destruct (validation0_inv x x2 H0) as (pub & Hg & ->). destruct (validation1_inv _ _ H1) as (a & Ha & _ & Hb & Hn).
  exists pub, a. cbn [fst snd] in *. unfold with_pubkey in *. destruct (cx_Exec x.2); split_and!; done.
Qed.

Lemma validation0_cases {SLL : EthCryptoLaws} (x : X) :
  is_Some (gasPrice (params_of x.1)) ->
  (exists e, commonValidation0 x = (Err e, x)) \/ (exists ctx', commonValidation0 x = (Ret tt, (x.1, ctx'))).
Proof.
  intros [price Hp]. destruct x as [w ctx]. cbn [fst snd] in Hp |- *.
  unfold commonValidation0, bindM, getM, liftO, GasPrice, MinTrxFee, deref. cbn [fst snd]. rewrite Hp.
  destruct (negb (length (tx_From (cx_Tx ctx)) =? AddrSize)%nat); [left; eexists; reflexivity|].
  destruct (negb (length (tx_To (cx_Tx ctx)) =? AddrSize)%nat); [left; eexists; reflexivity|].
  destruct (u256_Sign (tx_Amount (cx_Tx ctx)) <? 0); [left; eexists; reflexivity|].
  destruct (MaxInt64 <? tx_Gas (cx_Tx ctx)); [left; eexists; reflexivity|].
  destruct (u256_Sign (tx_GasPrice (cx_Tx ctx)) <? 0); [left; eexists; reflexivity|].
  destruct (negb (tx_GasPrice (cx_Tx ctx) =? price)); [left; eexists; reflexivity|].
  destruct (fee_of (cx_Tx ctx) <? GasToFee (minTrxGas (params_of w)) price); [left; eexists; reflexivity|].
  destruct (cx_Exec ctx); [|right; eexists; reflexivity]. unfold VerifyTrxRLP.
  destruct (PreImageToSignTrxRLP (cx_Tx ctx) (cx_ChainID ctx)) as [e|img]; [left; eexists; reflexivity|].
  pose proof (sig2addr_total img (tx_Sig (cx_Tx ctx))) as Hnp.
  destruct (Sig2Addr img (tx_Sig (cx_Tx ctx))) as [[b k]|e|]; [|left; eexists; reflexivity|done].
  destruct (Compare b (tx_From (cx_Tx ctx)) =? 0); [right; eexists; reflexivity|left; eexists; reflexivity].
Qed.

(** C20: a wrong nonce stops everything.  If the nonce of the transaction is
    not the nonce of its sender, so in particular when an executed transaction
    is sent again, [ExecuteSync] returns an error and no controller changes. *)
Theorem replay_rejected {SLL : EthCryptoLaws} (x : X) (a : Account) :
  is_Some (gasPrice (params_of x.1)) ->
  objs (lheap (w_acct x.1)) !! cx_Sender x.2 = Some a -> Nonce a <> tx_Nonce (cx_Tx x.2) ->
  exists e x', ExecuteSync tmjson_Unmarshal x = (Err e, x') /\ x'.1 = x.1.
Proof.
  intros Hp Ha Hn. unfold ExecuteSync, validateTrx. destruct (validation0_cases x Hp) as [[e H0]|[ctx' H0]].
  - exists e, x. unfold bindM. by rewrite H0.
  - assert (Hc : cx_Sender ctx' = cx_Sender x.2 /\ cx_Tx ctx' = cx_Tx x.2).
    { destruct (validation0_inv _ _ H0) as (pub & _ & [= ->]). unfold with_pubkey. by destruct (cx_Exec x.2). }
    destruct Hc as [Hc1 Hc2]. rewrite <- Hc1 in Ha. pose proof (validation1_run (x.1, ctx') a Ha) as H1. cbn [fst snd] in H1.
    rewrite Hc2 in H1. destruct (Nonce a =? tx_Nonce (cx_Tx x.2)) eqn:En; [lia|].
    destruct (Balance a <? _); eexists _, _; (split; [unfold bindM; rewrite H0, H1; reflexivity|done]).
Qed.

(** ** Transfers *)
Context {View : IavlView Tr} (utf8 : string -> Prop) {Laws : IavlLaws Tr} {Total : IavlTotal Tr}.
Context {CL : CodecLaws AcctProto acct_proto_range} {CT : CodecTotal AcctProto (acct_proto_valid utf8)}.
Abbreviation ok := (acct_ok utf8).

(** The accounts of the context, as [NewTrxContext] finds them. *)
Record ctx_accounts (L : FinalityLedger Account Tr) (ctx : TrxContext) (a b : Account) : Prop := {
  ca_inv : ledger_inv ok L;
  ca_live : no_removed L;
  ca_sender : cached L (side_of (cx_Exec ctx)) (cx_Sender ctx) a;
  ca_receiver : cached L (side_of (cx_Exec ctx)) (cx_Receiver ctx) b;
}.

(** The effect on the accounts: [a] pays [amt] and [fee] and its nonce grows;
    [b] gets [amt]. *)
Definition paid (L L' : FinalityLedger Account Tr) (sd : side) (a b : Account) (amt fee : Z) : Prop :=
  visible L' sd (Key a) = Some (AddNonce (SetBalance (Balance a - fee - (if decide (Key a = Key b) then 0 else amt)) a)) /\
  (Key b <> Key a -> visible L' sd (Key b) = Some (SetBalance (Balance b + amt) b)) /\
  (forall sd' k, sd' <> sd \/ (k <> Key a /\ k <> Key b) -> visible L' sd' k = visible L sd' k).

Lemma add_nonce_ok a : ok a -> ok (AddNonce a).
Proof. intros (? & ? & ? & ? & ?). split_and!; try done. apply u64_range. Qed.

(** Fee and nonce: two mutations and a store. *)
Lemma charge_run (L : FinalityLedger Account Tr) sd p a fee :
  objs (lheap L) !! p = Some a -> is_u256 (Balance a) -> 0 <= fee < 2 ^ 255 -> fee <= Balance a ->
  (do! acct_method p (SubBalance fee) in do! acct_method p (fun a => inr (AddNonce a)) in set_on sd p) L =
  (Ret tt, put_state sd p (AddNonce (SetBalance (Balance a - fee) a)) L).
Proof.
  intros Hp Hb Hf Hle. unfold bindM. rewrite (acct_method_ok L p _ a _ Hp (sub_balance_enough fee a Hb Hf Hle)).
  rewrite (acct_method_ok _ p _ (SetBalance (Balance a - fee) a) (AddNonce (SetBalance (Balance a - fee) a))); [|cbn; apply lookup_insert_eq|done].
  rewrite (set_on_run _ sd p (AddNonce (SetBalance (Balance a - fee) a))) by (cbn; apply lookup_insert_eq).
  unfold put_state, heap_store. do 2 f_equal. cbn. by rewrite insert_insert_eq.
Qed.

Lemma charge_visible (L : FinalityLedger Account Tr) sd p a fee :
  ledger_inv ok L -> no_removed L -> handle ok L sd p a -> 0 <= fee <= Balance a ->
  let L' := put_state sd p (AddNonce (SetBalance (Balance a - fee) a)) L in
  ledger_inv ok L' /\ no_removed L' /\
  forall sd' k, visible L' sd' k = if decide (sd' = sd /\ k = Key a) then Some (AddNonce (SetBalance (Balance a - fee) a)) else visible L sd' k.
Proof.
  intros Hi Hn Hh Hf L'. pose proof Hh as (_ & Hok & _). assert (Hr : is_u256 (Balance a)) by apply Hok. unfold is_u256 in Hr.
  destruct (put_visible ok L sd p a (AddNonce (SetBalance (Balance a - fee) a))) as (Hi' & _ & Hr' & Hv); [done|done| |done| |].
  - apply add_nonce_ok, set_balance_ok; [done|]. unfold is_u256. lia.
  - rewrite Hn. apply not_elem_of_nil.
  - split_and!; [done|intros sd'; unfold L'; by rewrite Hr'|done].
Qed.

(** Run of the account controller and of [postRunTrx] on a transfer. *)
Lemma transfer_exec_distinct (L : FinalityLedger Account Tr) ctx a b amt fee :
  ctx_accounts L ctx a b -> Key a <> Key b -> 0 <= amt < 2 ^ 255 -> 0 <= fee < 2 ^ 255 -> amt + fee <= Balance a ->
  Balance b + amt < 2 ^ 256 -> let sd := side_of (cx_Exec ctx) in
  exists L1 L', (do! transfer (cx_Sender ctx) (cx_Receiver ctx) amt in do! set_on sd (cx_Sender ctx) in set_on sd (cx_Receiver ctx)) L = (Ret tt, L1) /\
    objs (lheap L1) !! cx_Receiver ctx = Some (SetBalance (Balance b + amt) b) /\
    (do! acct_method (cx_Sender ctx) (SubBalance fee) in do! acct_method (cx_Sender ctx) (fun a => inr (AddNonce a)) in set_on sd (cx_Sender ctx)) L1 = (Ret tt, L') /\
    ledger_inv ok L' /\ no_removed L' /\ paid L L' sd a b amt fee.
Proof.
  intros [Hi Hn Hca Hcb] Hne Hamt Hfee Hle Hov sd. fold sd in Hca, Hcb. set (p := cx_Sender ctx) in *. set (q := cx_Receiver ctx) in *.
  pose proof (cached_handle ok L sd p a Hi Hca) as Hha. pose proof (cached_handle ok L sd q b Hi Hcb) as Hhb.
  pose proof Hha as (Hpa & Hoka & _). pose proof Hhb as (Hqb & Hokb & _).
  assert (Hra : is_u256 (Balance a)) by apply Hoka. assert (Hrb : is_u256 (Balance b)) by apply Hokb. unfold is_u256 in *.
  assert (Hpq : p <> q) by (intros ->; congruence).
  set (a1 := SetBalance (Balance a - amt) a). set (b1 := SetBalance (Balance b + amt) b).
  assert (Hoka1 : ok a1) by (apply set_balance_ok; [done|unfold is_u256; lia]).
  assert (Hokb1 : ok b1) by (apply set_balance_ok; [done|unfold is_u256; lia]).
  set (L0 := put_state sd p a1 L). set (L1 := put_state sd q b1 L0).
  destruct (put_spec ok L sd p a a1) as (Hi0 & _ & Hr0 & _ & Hc0); [done..|]. fold L0 in Hi0, Hr0, Hc0.
  destruct (put_visible ok L sd p a a1) as (_ & _ & _ & Hv0); [done..|rewrite Hn; apply not_elem_of_nil|]. fold L0 in Hv0.
  assert (Hhb0 : handle ok L0 sd q b) by (by apply put_frame).
  assert (Hn0 : no_removed L0) by (intros sd'; by rewrite Hr0).
  destruct (put_visible ok L0 sd q b b1) as (Hi1 & _ & Hr1 & Hv1); [done..|rewrite Hn0; apply not_elem_of_nil|]. fold L1 in Hi1, Hr1, Hv1.
  assert (Hha1 : handle ok L1 sd p a1) by (apply put_frame; [by apply cached_handle|done]).
  assert (Hn1 : no_removed L1) by (intros sd'; by rewrite Hr1).
  destruct (charge_visible L1 sd p a1 fee Hi1 Hn1 Hha1) as (Hi2 & Hn2 & Hv2); [cbn; lia|].
  exists L1, (put_state sd p (AddNonce (SetBalance (Balance a1 - fee) a1)) L1). split_and!; [| | |done|done|].
  - apply (transfer_run L sd p q a b a1 b1 amt); [done|done|done|apply sub_balance_enough; [done|lia|lia]|].
    apply add_balance_small; [done|]. unfold is_u256. lia.
  - unfold L1, put_state. rewrite heap_upd. cbn. apply lookup_insert_eq.
  - apply charge_run; [apply Hha1|cbn; unfold is_u256; lia|done|cbn; lia].
  - change (Key a1) with (Key a) in Hv2. unfold paid. split_and!.
    + rewrite Hv2, decide_True by done. rewrite decide_False by done. cbn. unfold AddNonce, SetNonce, SetBalance; cbn. do 2 f_equal. lia.
    + intros Hkb. rewrite Hv2, decide_False by tauto. rewrite Hv1, decide_True by done. done.
    + intros sd' k Hk. rewrite Hv2, Hv1, Hv0, !decide_False by tauto. done.
Qed.

Lemma transfer_exec_self (L : FinalityLedger Account Tr) ctx a b amt fee :
  ctx_accounts L ctx a b -> Key a = Key b -> 0 <= amt < 2 ^ 255 -> 0 <= fee < 2 ^ 255 -> amt + fee <= Balance a ->
  let sd := side_of (cx_Exec ctx) in
  exists L1 L', (do! transfer (cx_Sender ctx) (cx_Receiver ctx) amt in do! set_on sd (cx_Sender ctx) in set_on sd (cx_Receiver ctx)) L = (Ret tt, L1) /\
    objs (lheap L1) !! cx_Receiver ctx = Some b /\
    (do! acct_method (cx_Sender ctx) (SubBalance fee) in do! acct_method (cx_Sender ctx) (fun a => inr (AddNonce a)) in set_on sd (cx_Sender ctx)) L1 = (Ret tt, L') /\
    ledger_inv ok L' /\ no_removed L' /\ paid L L' sd a b amt fee.
Proof.
  intros [Hi Hn [Hpa Hga] [Hqb Hgb]] Hk Hamt Hfee Hle sd. fold sd in Hga, Hgb.
  assert (cx_Receiver ctx = cx_Sender ctx) as Hpq by (rewrite Hk in Hga; congruence). rewrite Hpq in *.
  assert (b = a) as -> by congruence. set (p := cx_Sender ctx) in *.
  pose proof (cached_handle ok L sd p a Hi (conj Hpa Hga)) as Hha. pose proof Hha as (_ & Hoka & _).
  assert (Hra : is_u256 (Balance a)) by apply Hoka. unfold is_u256 in *.
  assert (Hback : AddBalance amt (SetBalance (Balance a - amt) a) = inr a).
  { rewrite add_balance_small; [|done|cbn; unfold is_u256; lia]. cbn. destruct a as [? ? ? bal ? ?]. unfold SetBalance; cbn. do 2 f_equal. lia. }
  set (L1 := put_state sd p a L). destruct (put_spec ok L sd p a a) as (Hi1 & _ & Hr1 & _ & Hc1); [done..|]. fold L1 in Hi1, Hr1, Hc1.
  destruct (put_visible ok L sd p a a) as (_ & _ & _ & Hv1); [done..|rewrite Hn; apply not_elem_of_nil|]. fold L1 in Hv1.
  assert (Hn1 : no_removed L1) by (intros sd'; by rewrite Hr1).
  pose proof (cached_handle ok L1 sd p a Hi1 Hc1) as Hh1.
  destruct (charge_visible L1 sd p a fee Hi1 Hn1 Hh1) as (Hi2 & Hn2 & Hv2); [lia|].
  exists L1, (put_state sd p (AddNonce (SetBalance (Balance a - fee) a)) L1). split_and!; [| | |done|done|].
  - apply (transfer_self_run L sd p a (SetBalance (Balance a - amt) a) a amt); [done|apply sub_balance_enough; [done|lia|lia]|done].
  - apply Hh1.
  - apply charge_run; [apply Hh1|done|done|lia].
  - unfold paid. split_and!.
    + rewrite Hv2, !decide_True by done. do 2 f_equal. f_equal. lia.
    + done.
    + intros sd' k Hd. rewrite Hv2, Hv1, !decide_False by tauto. done.
Qed.

Lemma fee_small tx g price :
  gasPrice g = Some price -> tx_GasPrice tx = price -> 0 <= price < 2 ^ 190 -> 0 <= tx_Gas tx <= MaxInt64 ->
  fee_of tx = price * tx_Gas tx /\ 0 <= fee_of tx < 2 ^ 253.
Proof.
  intros _ Hpr Hp Hg. unfold fee_of, MaxInt64 in *. rewrite Hpr, (u64_id (tx_Gas tx)) by (unfold is_u64; lia).
  assert (0 <= price * tx_Gas tx < 2 ^ 253); [|rewrite u256_id by (unfold is_u256; lia); lia].
  split; [apply Z.mul_nonneg_nonneg; lia|]. apply Z.le_lt_trans with (2 ^ 190 * (2 ^ 63 - 1)); [|lia].
  apply Z.mul_le_mono_nonneg; lia.
Qed.

Lemma acct_execute_transfer (ctx : TrxContext) (L L1 : FinalityLedger Account Tr) :
  tx_Type (cx_Tx ctx) = TRX_TRANSFER ->
  (do! transfer (cx_Sender ctx) (cx_Receiver ctx) (tx_Amount (cx_Tx ctx)) in
   do! set_on (side_of (cx_Exec ctx)) (cx_Sender ctx) in set_on (side_of (cx_Exec ctx)) (cx_Receiver ctx)) L = (Ret tt, L1) ->
  AcctCtrler_ExecuteTrx ctx L = (Ret tt, L1).
Proof.
  intros Hty. unfold AcctCtrler_ExecuteTrx. rewrite Hty. cbn [Z.eqb Pos.eqb TRX_TRANSFER].
  intros ([] & L2 & H1 & ([] & L3 & H2 & H3)%bindM_inv)%bindM_inv.
  rewrite (bindM_step _ _ _ _ _ H1). unfold bindM, ignoreM, setAccountCommittable. by rewrite H2, H3.
Qed.

Lemma on_acct_run {B} (m : GoM (FinalityLedger Account Tr) B) (w : @World Tr E) (ctx : TrxContext) r L :
  m (w_acct w) = (r, L) -> on_world (zoom l_acct m) (w, ctx) = (r, (lset l_acct L w, ctx)).
Proof. intros H. unfold on_world, zoom. cbn [lget lens_fst l_acct fst]. by rewrite H. Qed.

Lemma receiver_run (w : @World Tr E) ctx b :
  objs (lheap (w_acct w)) !! cx_Receiver ctx = Some b -> Receiver_ (w, ctx) = (Ret b, (w, ctx)).
Proof.
  intros Hb. destruct w as [g L s v]. unfold Receiver_, on_world, bindM, getsM, zoom, load.
  cbn [fst snd lget lset lens_fst l_acct w_acct] in *. by rewrite Hb.
Qed.

Lemma postRun_run (w : @World Tr E) ctx b L' :
  tx_Type (cx_Tx ctx) = TRX_TRANSFER -> objs (lheap (w_acct w)) !! cx_Receiver ctx = Some b -> Code_ b = None ->
  (do! acct_method (cx_Sender ctx) (SubBalance (fee_of (cx_Tx ctx))) in do! acct_method (cx_Sender ctx) (fun a => inr (AddNonce a)) in
   set_on (side_of (cx_Exec ctx)) (cx_Sender ctx)) (w_acct w) = (Ret tt, L') ->
  postRunTrx (w, ctx) = (Ret tt, (lset l_acct L' w, set_GasUsed (tx_Gas (cx_Tx ctx)) ctx)).
Proof.
  intros Hty Hb Hcode Hrun. unfold postRunTrx. unfold bindM at 1, getsM. cbn [snd].
  rewrite (bindM_step _ _ _ b (w, ctx)) by (by apply receiver_run).
  rewrite Hty, Hcode. rewrite bool_decide_eq_false_2 by (by intros [? ?]). cbn [negb andb Z.eqb Pos.eqb TRX_TRANSFER TRX_CONTRACT].
  apply bindM_inv in Hrun as ([] & L2 & H1 & ([] & L3 & H2 & H3)%bindM_inv).
  rewrite (bindM_step _ _ _ tt (lset l_acct L2 w, ctx)) by (by apply on_acct_run).
  rewrite (bindM_step _ _ _ tt (lset l_acct L3 (lset l_acct L2 w), ctx)) by (by apply on_acct_run).
  rewrite (bindM_step _ _ _ tt (lset l_acct L' (lset l_acct L3 (lset l_acct L2 w)), ctx)) by (by apply on_acct_run).
  done.
Qed.

Lemma transfer_run_spec (x x1 : X) (a b : Account) (price : Z) :
  let tx := cx_Tx x.2 in
  tx_Type tx = TRX_TRANSFER -> ctx_accounts (w_acct x.1) x.2 a b -> Code_ b = None ->
  gasPrice (params_of x.1) = Some price -> 0 <= price < 2 ^ 190 -> 0 <= tx_Gas tx -> is_u256 (tx_Amount tx) ->
  Balance b + tx_Amount tx < 2 ^ 256 ->
  validateTrx tmjson_Unmarshal x = (Ret tt, x1) ->
  exists L', runTrx x1 = (Ret tt, (lset l_acct L' x.1, set_GasUsed (tx_Gas tx) x1.2)) /\
    ledger_inv ok L' /\ no_removed L' /\
    paid (w_acct x.1) L' (side_of (cx_Exec x.2)) a b (tx_Amount tx) (price * tx_Gas tx).
Proof.
  intros tx Hty Hacc Hcode Hgp Hprice Hgas Hamt Hov Hval. unfold validateTrx in Hval.
  apply bindM_inv in Hval as ([] & x2 & H0 & ([] & x3 & H1 & Hval)%bindM_inv).
  destruct (validation0_inv x x2 H0) as (pub & Hg & ->). destruct (validation1_inv _ _ H1) as (a' & Ha' & -> & Hbal & Hnonce).
  set (ctx := with_pubkey pub x.2) in *. cbn [fst snd] in *.
  assert (Hcx : cx_Tx ctx = tx /\ cx_Sender ctx = cx_Sender x.2 /\ cx_Receiver ctx = cx_Receiver x.2 /\ cx_Exec ctx = cx_Exec x.2)
    by (unfold ctx, with_pubkey; destruct (cx_Exec x.2) eqn:He; split_and!; done).
  destruct Hcx as (Htx & Hsend & Hrecv & Hexec).
  assert (x1 = (x.1, ctx)) as ->.
  { unfold validate_by_type, bindM, getM in Hval. cbn [fst snd] in Hval. rewrite Htx, Hty in Hval. cbn in Hval.
    unfold on_world, zoom, AcctCtrler_ValidateTrx in Hval. rewrite Htx, Hty in Hval. cbn in Hval. injection Hval as <-.
    by destruct x as [[] ]. }
  assert (Hca : ctx_accounts (w_acct x.1) ctx a b).
  { destruct Hacc. constructor; rewrite ?Hexec, ?Hsend, ?Hrecv; done. }
  assert (Heq : a' = a). { destruct (ca_sender _ _ _ _ Hca) as [Hx _]. cbn in Ha'. congruence. } subst a'.
  destruct Hg as [_ _ Hsign Hgl Hgprice _ _]. rewrite Hgp in Hgprice. injection Hgprice as Hgprice. fold tx in Hsign, Hgl, Hgprice.
  destruct (fee_small tx (params_of x.1) price Hgp (eq_sym Hgprice) Hprice ltac:(lia)) as [Hfee Hfb].
  unfold is_u256 in Hamt.
  assert (Hamt2 : tx_Amount tx < 2 ^ 255).
  { unfold u256_Sign in Hsign. destruct (tx_Amount tx =? 0) eqn:E0; [lia|]. destruct (tx_Amount tx <? 2 ^ 255) eqn:E1; lia. }
  rewrite Htx in Hbal. rewrite u256_id in Hbal by (unfold is_u256; lia).
  assert (Hex : exists L1 L' b1, (do! transfer (cx_Sender ctx) (cx_Receiver ctx) (tx_Amount tx) in
      do! set_on (side_of (cx_Exec ctx)) (cx_Sender ctx) in set_on (side_of (cx_Exec ctx)) (cx_Receiver ctx)) (w_acct x.1) = (Ret tt, L1) /\
      objs (lheap L1) !! cx_Receiver ctx = Some b1 /\ Code_ b1 = None /\
      (do! acct_method (cx_Sender ctx) (SubBalance (fee_of tx)) in do! acct_method (cx_Sender ctx) (fun a => inr (AddNonce a)) in
       set_on (side_of (cx_Exec ctx)) (cx_Sender ctx)) L1 = (Ret tt, L') /\
      ledger_inv ok L' /\ no_removed L' /\ paid (w_acct x.1) L' (side_of (cx_Exec ctx)) a b (tx_Amount tx) (fee_of tx)).
  { destruct (decide (Key a = Key b)) as [Hk|Hk].
    - destruct (transfer_exec_self _ ctx a b (tx_Amount tx) (fee_of tx) Hca Hk) as (L1 & L' & ? & ? & ? & ? & ? & ?); [lia|lia|lia|].
      exists L1, L', b. by split_and!.
    - destruct (transfer_exec_distinct _ ctx a b (tx_Amount tx) (fee_of tx) Hca Hk) as (L1 & L' & ? & ? & ? & ? & ? & ?); [lia|lia|lia|lia|].
      exists L1, L', (SetBalance (Balance b + tx_Amount tx) b). by split_and!. }
  destruct Hex as (L1 & L' & b1 & Hrun1 & Hb1 & Hcode1 & Hrun2 & Hi' & Hn' & Hpaid).
  exists L'. rewrite Hexec, Hfee in Hpaid. split_and!; [|done|done|done].
  rewrite <- Htx in Hrun1. pose proof (acct_execute_transfer ctx _ _ ltac:(by rewrite Htx) Hrun1) as Hexe.
  destruct (ca_receiver _ _ _ _ Hca) as [Hrb _]. unfold runTrx.
  rewrite (bindM_step _ _ _ tt (lset l_acct L1 x.1, ctx)).
  - rewrite (postRun_run (lset l_acct L1 x.1) ctx b1 L'); [by rewrite Htx|by rewrite Htx|done|done|by rewrite Htx].
  - unfold run_by_type, bindM at 1, getM. cbn [fst snd]. rewrite Htx, Hty. cbn [Z.eqb Pos.eqb TRX_TRANSFER TRX_CONTRACT is_gov_tx is_acct_tx TRX_PROPOSAL TRX_VOTING orb].
    rewrite (bindM_step _ _ _ b (x.1, ctx)) by (by apply receiver_run). rewrite Hcode. cbn [andb]. rewrite bool_decide_eq_false_2 by (by intros [? ?]).
    by apply on_acct_run.
Qed.

(** A transfer.  If a transfer between two accounts without code passes
    validation, then it is executed without error: the sender loses the amount
    and the fee (the fee alone when it pays itself), its nonce grows by one, the
    receiver gets the amount, and no other account, no entry of the other side
    and no other controller changes. *)
Theorem transfer_tx_spec (x x1 : X) (a b : Account) (price : Z) :
  let tx := cx_Tx x.2 in
  tx_Type tx = TRX_TRANSFER -> ctx_accounts (w_acct x.1) x.2 a b -> Code_ b = None ->
  gasPrice (params_of x.1) = Some price -> 0 <= price < 2 ^ 190 -> 0 <= tx_Gas tx -> is_u256 (tx_Amount tx) ->
  Balance b + tx_Amount tx < 2 ^ 256 ->
  validateTrx tmjson_Unmarshal x = (Ret tt, x1) ->
  exists L', runTrx x1 = (Ret tt, (lset l_acct L' x.1, set_GasUsed (tx_Gas tx) x1.2)) /\
    ledger_inv ok L' /\ no_removed L' /\
    paid (w_acct x.1) L' (side_of (cx_Exec x.2)) a b (tx_Amount tx) (price * tx_Gas tx).
Proof. exact (transfer_run_spec x x1 a b price). Qed.
End Executor.

(** ** Witnesses *)
Definition sceneX : @World mapTree Z * TrxContext := (sceneWorld, sendCtx).
(** The same transaction once more. *)
Definition againX : @World mapTree Z * TrxContext := (ExecuteSync callUnmarshal sceneX).2.

Lemma scene_accounts : ctx_accounts anyStr sceneAccts sendCtx rich bob.
Proof. destruct sceneAccts_ok. constructor; [done|done| |]; split; vm_compute; reflexivity. Qed.

Lemma scene_valid : (validateTrx callUnmarshal sceneX).1 = Ret tt.
Proof. vm_compute. reflexivity. Qed.

Lemma exec_guards_witness :
  exists pub a, static_guards Test1GovParams sendCtx pub /\ objs (lheap sceneAccts) !! 1%positive = Some a /\ Nonce a = 3.
Proof.
  destruct (ExecuteSync callUnmarshal sceneX) as [r x'] eqn:E.
  assert (r = Ret tt) as -> by (change r with (r, x').1; rewrite <- E; vm_compute; reflexivity).
  destruct (exec_guards callUnmarshal sceneX x' E) as (pub & a & H1 & H2 & _ & H3). exists pub, a. split; [exact H1|]. split; assumption.
Defined.

Lemma replay_rejected_witness : exists e x', ExecuteSync callUnmarshal againX = (Err e, x') /\ x'.1 = againX.1.
Proof.
  apply (replay_rejected callUnmarshal againX (mkAccount aliceAddr "" 4 500 None "")).
  - exists 10. vm_compute. reflexivity.
  - vm_compute. reflexivity.
  - vm_compute. discriminate.
Defined.

Lemma transfer_tx_spec_witness :
  exists x1 L', validateTrx callUnmarshal sceneX = (Ret tt, x1) /\
    runTrx x1 = (Ret tt, (lset l_acct L' sceneWorld, set_GasUsed 20 x1.2)) /\
    paid sceneAccts L' Deliver rich bob 300 200.
Proof.
  destruct (validateTrx callUnmarshal sceneX) as [r x1] eqn:E.
  assert (r = Ret tt) as -> by (change r with (r, x1).1; rewrite <- E; exact scene_valid).
  destruct (transfer_tx_spec callUnmarshal anyStr sceneX x1 rich bob 10 eq_refl scene_accounts eq_refl eq_refl)
    as (L' & H1 & _ & _ & H2); [lia|cbn; lia|unfold is_u256; cbn; lia|cbn; lia|exact E|].
  exists x1, L'. split; [reflexivity|]. split; [exact H1|exact H2].
Defined.

(** ** Payloads *)
Section Decoded.
Context {CU : Codec TrxPayloadUnstakingProto} {CW : Codec TrxPayloadWithdrawProto}
        {CPP : Codec TrxPayloadProposalProto} {CV : Codec TrxPayloadVotingProto}
        {CC : Codec TrxPayloadContractProto} {CSD : Codec TrxPayloadSetDocProto} {CT : Codec TrxProto}.

Lemma payload_from_typed ty bz o : payload_fromProto ty bz = Ret o ->
  match o with Some p => ty = payload_Type p /\ (forall r, p = PayloadWithdraw r -> is_u256 r) | None => ty = TRX_TRANSFER \/ ty = TRX_STAKING end.
Proof.
  unfold payload_fromProto, decode_Unstaking, decode_Withdraw, decode_Proposal, decode_Voting, decode_Contract, decode_SetDoc, of_unmarshal.
  repeat match goal with |- context [if ?b then _ else _] => destruct b eqn:? end; try done; [intros [= <-]; lia|..];
    destruct (codec_Unmarshal bz) as [|m]; cbn; try done; intros [= <-]; (split; [by apply Z.eqb_eq|]); intros r [= <-]. apply u256_set_bytes_range.
Qed.

(** C38: what a node reads from the wire is well typed.  Every transaction that
    [Decode] returns has the payload of its type, only transfers and stakings
    have none, its amount, gas price and the amount of a withdrawal fit into 256
    bits, and so the type assertions of the controllers, which panic on a payload
    of another type, succeed. *)
Theorem decoded_typed bz tx : Trx_Decode bz = Ret tx ->
  trx_typed tx /\ is_u256 (tx_Amount tx) /\ is_u256 (tx_GasPrice tx) /\ (forall r, tx_Payload tx = Some (PayloadWithdraw r) -> is_u256 r) /\
  (tx_Type tx = TRX_UNSTAKING -> unstaking_payload tx <> Panic) /\ (tx_Type tx = TRX_SETDOC -> setdoc_payload tx <> Panic).
Proof.
  unfold Trx_Decode. destruct (codec_Unmarshal bz) as [|pm]; [done|]. unfold Trx_fromProto. destruct (payload_fromProto _ _) as [o| |] eqn:Hp; [|done..].
  intros [= <-]. apply payload_from_typed in Hp. unfold trx_typed, unstaking_payload, setdoc_payload. cbn [tx_Payload tx_Type tx_Amount tx_GasPrice].
  split_and!; try apply u256_set_bytes_range.
  - destruct o; [by destruct Hp|done].
  - intros r ->. destruct Hp as [_ Hp]. by apply Hp.
  - intros Ht. destruct o as [[]|]; try done; try (destruct Hp as [Hp _]; rewrite Ht in Hp; discriminate). destruct Hp as [Hp|Hp]; rewrite Ht in Hp; discriminate.
  - intros Ht. destruct o as [[]|]; try done; try (destruct Hp as [Hp _]; rewrite Ht in Hp; discriminate). destruct Hp as [Hp|Hp]; rewrite Ht in Hp; discriminate.
Qed.
End Decoded.

Definition releaseTx : Trx := mkTrx 1 0 3 aliceAddr bobAddr 0 20 10 TRX_UNSTAKING (Some (PayloadUnstaking (replicate 32 Byte.x07))) aliceAddr.
Definition releaseBz : list Byte.byte := match Trx_Encode releaseTx with Ret bz => bz | _ => [] end.

Lemma decoded_typed_witness : Trx_Decode releaseBz = Ret releaseTx /\ trx_typed releaseTx /\ unstaking_payload releaseTx <> Panic.
Proof.
  assert (E : Trx_Decode releaseBz = Ret releaseTx) by (vm_compute; reflexivity).
  destruct (decoded_typed releaseBz releaseTx E) as (H1 & _ & _ & _ & H2 & _). split; [exact E|]. split; [exact H1|]. by apply H2.
Defined.
