(* ===== verification/Staking.v ===== *)
(** * Theorems about staking transactions

    Staking over the stake controller and the account controller together:
    what a validated staking transaction does to the delegatee and to the
    balance of the sender. *)

From Stdlib Require Import Strings.Byte.
From S2P Require Import Prelude Xerrors GoSem Bytes Ledger LedgerSpec LedgerClient LedgerProps Concrete GovParams Account Trx Context.
From S2P Require Import AcctCtrler AcctProps Stake StakeProps StakeLimiter StakeCtrler GovProps Executor Scene.

(** The ranges of the stored integers. *)
Record stake_range (s : Stake) : Prop := {
  sr_power : is_i64 (st_Power s);
  sr_start : is_i64 (st_StartHeight s);
  sr_refund : is_i64 (st_RefundHeight s);
}.
Record delegatee_range (d : Delegatee) : Prop := {
  dr_addr : length (dg_Addr d) = AddrSize;
  dr_self : is_i64 (dg_SelfPower d);
  dr_total : is_i64 (dg_TotalPower d);
  dr_slashed : is_i64 (dg_SlashedPower d);
  dr_stakes : forall s, s ∈ dg_Stakes d -> stake_range s;
  dr_heights : forall h, h ∈ dg_NotSignedHeights d -> is_i64 h;
}.
(** Delegatees with their powers in order. *)
Definition delegatee_ok (d : Delegatee) : Prop := delegatee_wf d /\ delegatee_range d.

Section Staking.
Context {Tr : Type} {Tree : Iavl Tr} {View : IavlView Tr} {Laws : IavlLaws Tr} {Total : IavlTotal Tr}.
Context {CA : Codec AcctProto} {CS : Codec Stake} {CD : Codec Delegatee} {CR : Codec RewardProto}.
Context (utf8 : string -> Prop).
Context {CL : CodecLaws AcctProto acct_proto_range} {CTot : CodecTotal AcctProto (acct_proto_valid utf8)}.
Context {DL : CodecLaws Delegatee delegatee_range} {DT : CodecTotal Delegatee delegatee_range}.
Abbreviation ok := (acct_ok utf8).
Abbreviation ctrler := (@StakeCtrler Tr).
Abbreviation accounts := (FinalityLedger Account Tr).
Abbreviation delegatees := (FinalityLedger Delegatee Tr).

#[export] Instance delegatee_item_laws : LedgerItemLaws delegatee_ok.
Proof.
  constructor; unfold Encode, Decode, delegatee_item, Delegatee_Encode, Delegatee_Decode.
  - intros d [_ Hd]. destruct (codec_total d Hd) as [bz ->]. eauto.
  - intros d bz [_ Hd]. destruct (codec_Marshal d) as [|bz'] eqn:E; [done|]. intros [= <-].
    by rewrite (codec_roundtrip d bz' Hd E).
Qed.

(** ** Running on the pair of the two controllers *)
Lemma on_delegatees_run {B} (m : GoM delegatees B) (c : ctrler) (L : accounts) r D :
  m (sc_delegateeLedger c) = (r, D) -> on_delegatees m (c, L) = (r, (lset l_delegatees D c, L)).
Proof. intros H. unfold on_delegatees, zoom. cbn. by rewrite H. Qed.

Lemma on_accounts_run {B} (m : GoM accounts B) (c : ctrler) (L L' : accounts) r :
  m L = (r, L') -> on_accounts m (c, L) = (r, (c, L')).
Proof. intros H. unfold on_accounts, zoom. cbn. by rewrite H. Qed.

(** The controller with other delegatees and another limiter. *)
Definition with_stakes (D : delegatees) (lim : StakeLimiter) (c : ctrler) : ctrler := lset l_limiter lim (lset l_delegatees D c).

Lemma check_ratio_frame delg change (c c1 : ctrler) (L L1 : accounts) u :
  check_ratio delg change (c, L) = (Ret u, (c1, L1)) ->
  L1 = L /\ exists lim, c1 = with_stakes (sc_delegateeLedger c) lim c.
Proof.
  unfold check_ratio, bindM, getsM. cbn [fst]. destruct (3 <=? _).
  - unfold tryM, on_limiter, zoom. cbn [lget lset lens_comp lens_fst l_limiter fst snd].
    destruct (CheckLimit delg change (sc_stakeLimiter c)) as [[v|e|] lim]; [|done|done].
    intros [= _ <- <-]. split; [done|]. exists lim. by destruct c.
  - intros [= _ <- <-]. split; [done|]. exists (sc_stakeLimiter c). by destruct c.
Qed.

(** What a staking transaction adds to: the delegatee it names, or a new one
    when the sender stakes for itself. *)
Definition target (D : delegatees) (ctx : TrxContext) : option Delegatee :=
  match visible D (side_of (cx_Exec ctx)) (ToLedgerKey (tx_To (cx_Tx ctx))) with
  | Some d => Some d
  | None => if decide (tx_From (cx_Tx ctx) = tx_To (cx_Tx ctx)) then Some (NewDelegatee (tx_From (cx_Tx ctx)) (cx_SenderPubKey ctx)) else None
  end.

Lemma whole_power amt p :
  0 <= amt < 2 ^ 63 * amountPerPower -> u256_Sign (amt / amountPerPower) <=? 0 = false ->
  negb (u256_Sign (amt mod amountPerPower) =? 0) = false -> AmountToPower amt = Ret p ->
  amt = p * amountPerPower /\ 0 < p < 2 ^ 63.
Proof.
  intros Ha Hq Hr. rewrite power_of_amount_exact by done. intros [= <-].
  assert (Hm : amt mod amountPerPower = 0).
  { unfold u256_Sign in Hr. destruct (amt mod amountPerPower =? 0) eqn:E; [lia|]. by destruct (_ <? _) in Hr. }
  pose proof (Z.div_mod amt amountPerPower ltac:(unfold amountPerPower; lia)) as Hd.
  assert (Hlt : amt / amountPerPower < 2 ^ 63) by (apply Z.div_lt_upper_bound; unfold amountPerPower in *; lia).
  assert (0 < amt / amountPerPower).
  { unfold u256_Sign in Hq. destruct (amt / amountPerPower =? 0) eqn:E; [done|].
    assert (0 <= amt / amountPerPower) by (apply Z.div_pos; unfold amountPerPower; lia). lia. }
  lia.
Qed.

Lemma sum_no_overflow t p : 0 <= t < 2 ^ 63 -> 0 < p < 2 ^ 63 -> i64 (t + p) <=? 0 = false -> t + p < 2 ^ 63.
Proof.
  intros Ht Hp H. destruct (decide (t + p < 2 ^ 63)); [done|]. exfalso. unfold i64, wrap_s in H.
  assert (Hm : (t + p + 2 ^ (64 - 1)) mod 2 ^ 64 = t + p + 2 ^ (64 - 1) - 2 ^ 64).
  { symmetry. apply Z.mod_unique with 1; lia. }
  rewrite Hm in H. lia.
Qed.

Lemma validate_self_total g p o t : validate_self g p o = Ret t -> t = match o with Some d => dg_TotalPower d | None => 0 end.
Proof. unfold validate_self. destruct (min_validator_power g); [|done|done]. destruct (_ <? _); [done|]. by intros [= <-]. Qed.

Lemma validate_delegating_total g p o t : validate_delegating g p o = Ret t -> exists d, o = Some d /\ t = dg_TotalPower d.
Proof.
  unfold validate_delegating. destruct o as [d|]; [|done]. destruct (AmountToPower _); [|done|done]. destruct (_ && _); [done|].
  destruct (SelfStakeRatio p d); [|done|done]. destruct (_ <? _); [done|]. intros [= <-]. eauto.
Qed.

Lemma validate_staking_inv g ctx (c c1 : ctrler) (L L1 : accounts) :
  let D := sc_delegateeLedger c in let tx := cx_Tx ctx in
  ledger_inv delegatee_ok D -> 0 <= tx_Amount tx < 2 ^ 63 * amountPerPower ->
  validate_staking g ctx (c, L) = (Ret tt, (c1, L1)) ->
  exists power D1 lim d, tx_Amount tx = power * amountPerPower /\ 0 < power < 2 ^ 63 /\ L1 = L /\ c1 = with_stakes D1 lim c /\
    ledger_inv delegatee_ok D1 /\ preserved D D1 /\ target D ctx = Some d /\ dg_TotalPower d + power < 2 ^ 63.
Proof.
  intros D tx Hi Ha. unfold validate_staking. fold tx. destruct (u256_Sign (tx_Amount tx / amountPerPower) <=? 0) eqn:Hq; [done|].
  destruct (negb (u256_Sign (tx_Amount tx mod amountPerPower) =? 0)) eqn:Hr; [done|].
  intros (power & w0 & Hpow & H)%bindM_inv. unfold liftO in Hpow. injection Hpow as Hpow <-.
  destruct (whole_power (tx_Amount tx) power Ha Hq Hr Hpow) as [Hamt Hpr].
  apply bindM_inv in H as (o & w1 & Hread & H). set (sd := side_of (cx_Exec ctx)) in *. set (k := ToLedgerKey (tx_To tx)) in *.
  destruct (read_opt_spec delegatee_ok D sd k Hi) as (D1 & Hrun & Hi1 & Hp1). rewrite (on_delegatees_run _ c L _ D1 Hrun) in Hread.
  injection Hread as <- <-. apply bindM_inv in H as (total & w2 & Ht & H). unfold liftO in Ht. injection Ht as Ht <-.
  destruct (i64 (total + power) <=? 0) eqn:Eov; [done|]. apply check_ratio_frame in H as [-> [lim ->]]. cbn [sc_delegateeLedger lset l_delegatees].
  assert (Hd : exists d, target D ctx = Some d /\ total = dg_TotalPower d /\ 0 <= total < 2 ^ 63).
  { unfold target. fold tx sd k. destruct (visible D sd k) as [d|] eqn:Hv.
    - exists d. assert (Htot : total = dg_TotalPower d).
      { destruct (Compare (tx_From tx) (tx_To tx) =? 0); [by apply validate_self_total in Ht|].
        apply validate_delegating_total in Ht as (d' & [= <-] & Ht). done. }
      destruct (visible_key delegatee_ok D sd k d Hi Hv) as (_ & [Hw _] & _). pose proof (wf_sums d Hw). split_and!; [done|done|lia|lia].
    - destruct (Compare (tx_From tx) (tx_To tx) =? 0) eqn:Ec; [|apply validate_delegating_total in Ht as (? & [=] & _)].
      apply Z.eqb_eq, compare_eq in Ec. rewrite decide_True by done. eexists. split; [done|]. apply validate_self_total in Ht. cbn. lia. }
  destruct Hd as (d & Htarget & Htot & Hrange). exists power, D1, lim, d. split_and!; try done; try lia.
  rewrite <- Htot. by apply sum_no_overflow.
Qed.

(** The stake of a transaction. *)
Definition stake_of (ctx : TrxContext) (power : Z) : Stake :=
  NewStakeWithPower (tx_From (cx_Tx ctx)) (tx_To (cx_Tx ctx)) power (i64 (cx_Height ctx + 1)) (cx_TxHash ctx).

Lemma target_key (D : delegatees) ctx d :
  ledger_inv delegatee_ok D -> target D ctx = Some d -> length (tx_To (cx_Tx ctx)) = AddrSize ->
  delegatee_ok d /\ dg_Addr d = tx_To (cx_Tx ctx) /\ Key d = ToLedgerKey (tx_To (cx_Tx ctx)).
Proof.
  intros Hi Ht Hl. unfold target in Ht. destruct (visible D (side_of (cx_Exec ctx)) (ToLedgerKey (tx_To (cx_Tx ctx)))) as [d'|] eqn:Hv.
  - injection Ht as ->. destruct (visible_key delegatee_ok D _ _ d Hi Hv) as (Hk & Hok & _). split_and!; [done| |done].
    apply ledger_key_inj; [rewrite Hl; apply (dr_addr d), Hok|rewrite (dr_addr d) by apply Hok; unfold AddrSize; lia|exact Hk].
  - case_decide as Hf; [|done]. injection Ht as <-. cbn. rewrite Hf. split_and!; [|done|done]. split.
    + constructor; cbn; [by intros E; rewrite E in Hl|intros s Hs; by apply not_elem_of_nil in Hs|done|done|done].
    + constructor; cbn; [done|unfold is_i64; lia..|intros s Hs; by apply not_elem_of_nil in Hs|intros s Hs; by apply not_elem_of_nil in Hs].
Qed.

Lemma add_one_ok ctx d power :
  delegatee_ok d -> dg_Addr d = tx_To (cx_Tx ctx) -> 0 < power < 2 ^ 63 -> dg_TotalPower d + power < 2 ^ 63 ->
  let d' := AddStake [stake_of ctx power] d in
  delegatee_ok d' /\ dg_Addr d' = dg_Addr d /\ dg_Stakes d' = dg_Stakes d ++ [stake_of ctx power] /\ dg_TotalPower d' = dg_TotalPower d + power.
Proof.
  intros [Hw Hr] Ha Hp Hb d'. pose proof (wf_sums d Hw) as Hs. assert (Hsum : sumZ st_Power [stake_of ctx power] = power) by (rewrite sumZ_cons, sumZ_nil; cbn; lia).
  assert (Hw' : delegatee_wf d').
  { apply add_stake_wf; [done| |by rewrite Hsum]. intros s ->%list_elem_of_singleton. cbn. split; [done|lia]. }
  assert (Heq : dg_Addr d' = dg_Addr d /\ dg_Stakes d' = dg_Stakes d ++ [stake_of ctx power] /\ dg_SlashedPower d' = dg_SlashedPower d /\
                dg_NotSignedHeights d' = dg_NotSignedHeights d /\ dg_TotalPower d' = dg_TotalPower d + power).
  { unfold d'. rewrite add_stake_eq by (unfold is_i64; lia). cbn [dg_Addr dg_Stakes dg_SlashedPower dg_NotSignedHeights dg_TotalPower set_powers].
    rewrite Hsum, i64_id by (unfold is_i64; lia). by split_and!. }
  destruct Heq as (H1 & H2 & H3 & H4 & H5). split_and!; try done. split; [done|]. pose proof (wf_sums d' Hw'). destruct Hr as [R1 R2 R3 R4 R5 R6].
  constructor; rewrite ?H1, ?H2, ?H3, ?H4; try done; [unfold is_i64; lia..|].
  intros s [Hin|Hin]%elem_of_app; [by apply R5|]. apply list_elem_of_singleton in Hin as ->. constructor; cbn; [unfold is_i64; lia|apply i64_range|unfold is_i64; lia].
Qed.

(** The delegatee as an object. *)
Lemma target_run (c : ctrler) (L : accounts) (D : delegatees) ctx d :
  ledger_inv delegatee_ok D -> same_view D (sc_delegateeLedger c) -> ledger_inv delegatee_ok (sc_delegateeLedger c) ->
  target D ctx = Some d -> length (tx_To (cx_Tx ctx)) = AddrSize -> let sd := side_of (cx_Exec ctx) in
  exists p D2, ledger_inv delegatee_ok D2 /\ same_view D D2 /\ handle delegatee_ok D2 sd p d /\
    forall B (k : positive -> GoM (ctrler * accounts) B),
    (let! o := on_delegatees (get_opt sd (ToLedgerKey (tx_To (cx_Tx ctx)))) in
     let! p := match o with
               | Some p => retM p
               | None => if Compare (tx_From (cx_Tx ctx)) (tx_To (cx_Tx ctx)) =? 0
                         then on_delegatees (alloc (NewDelegatee (tx_From (cx_Tx ctx)) (cx_SenderPubKey ctx)))
                         else errM (Wrapf ErrNotFoundDelegatee "address(%v)")
               end in k p) (c, L) = k p (lset l_delegatees D2 c, L).
Proof.
  intros Hi Hsv Hi1 Ht Hl sd. destruct (target_key D ctx d Hi Ht Hl) as (Hok & _ & _). unfold target in Ht. fold sd in Ht.
  pose proof (get_opt_spec delegatee_ok (sc_delegateeLedger c) sd (ToLedgerKey (tx_To (cx_Tx ctx))) Hi1) as Hg.
  rewrite (same_view_visible D) in Hg by done.
  destruct (visible D sd (ToLedgerKey (tx_To (cx_Tx ctx)))) as [d'|].
  - injection Ht as ->. destruct Hg as (p & D2 & Hrun & Hi2 & Hp & Hc & _). exists p, D2. split_and!; [done| |by apply cached_handle|].
    + etrans; [exact Hsv|by apply (preserved_view delegatee_ok)].
    + intros B k. rewrite (bindM_step _ _ _ _ _ (on_delegatees_run _ c L _ _ Hrun)). done.
  - case_decide as Hf; [|done]. injection Ht as <-.
    destruct (alloc_spec delegatee_ok _ sd _ Hi1 Hok) as (p & D2 & Hrun & Hi2 & Hp & Hh & _). exists p, D2. split_and!; [done| |done|].
    + etrans; [exact Hsv|by apply (preserved_view delegatee_ok)].
    + intros B k. rewrite (bindM_step _ _ _ _ _ (on_delegatees_run _ c L _ _ Hg)).
      rewrite (proj2 (Z.eqb_eq _ _) (proj2 (compare_eq _ _) Hf)).
      rewrite (bindM_step _ _ _ p (lset l_delegatees D2 c, L)); [done|]. rewrite (on_delegatees_run _ _ L (Ret p) D2); by destruct c.
Qed.

(** The sender pays. *)
Lemma pay_run (c : ctrler) (L : accounts) exec p a amt :
  cached L (side_of exec) p a -> is_u256 (Balance a) -> 0 <= amt < 2 ^ 255 -> amt <= Balance a ->
  forall B (k : GoM (ctrler * accounts) B),
  (do! on_accounts (on_account p (SubBalance amt)) in do! ignoreM (on_accounts (SetAccountCommittable p exec)) in k) (c, L) =
  k (c, put_state (side_of exec) p (SetBalance (Balance a - amt) a) L).
Proof.
  intros [Hp _] Hb Hamt Hle B k. pose proof (sub_balance_enough amt a Hb Hamt Hle) as Hsub. cbn [on_account SetAccountCommittable AcctCtrler_handler].
  rewrite (bindM_step _ _ _ _ _ (on_accounts_run _ c L _ _ (acct_method_ok L p _ a _ Hp Hsub))).
  pose proof (put_run L (side_of exec) p (SetBalance (Balance a - amt) a)) as Hput. unfold bindM, store in Hput.
  unfold bindM, ignoreM, setAccountCommittable. rewrite (on_accounts_run _ c _ _ _ Hput). done.
Qed.

(** The delegatee gets the stake. *)
Lemma grow_run (c : ctrler) (L : accounts) (D : delegatees) sd p d f :
  sc_delegateeLedger c = D -> objs (lheap D) !! p = Some d ->
  (do! delegatee_method p (fun d => (tt, f d)) in on_delegatees (set_on sd p)) (c, L) = (Ret tt, (lset l_delegatees (put_state sd p (f d) D) c, L)).
Proof.
  intros HD Hd. pose proof (put_run D sd p (f d)) as Hput. unfold bindM, store in Hput. unfold delegatee_method.
  rewrite (bindM_step _ _ _ tt (lset l_delegatees (set_heap (heap_store p (f d) (lheap D)) D) c, L)).
  - by rewrite (on_delegatees_run (set_on sd p) (lset l_delegatees (set_heap (heap_store p (f d) (lheap D)) D) c) L _ _ Hput).
  - apply on_delegatees_run. rewrite HD. unfold bindM, load, store. by rewrite Hd.
Qed.

(** C5: staking.  Let a staking transaction pass the validation of the stake
    controller, and let its sender hold the amount (and less than [2^63] powers
    in all).  Then the amount is a whole number of powers; the execution
    succeeds; exactly that amount leaves the account of the sender and exactly
    that power, as one stake of the sender, is added to the delegatee it names
    (or to a new delegatee when the sender stakes for itself); nothing else
    changes, and the powers of the delegatee stay equal to the sums over its
    stakes.  The key of the delegatee must not have been removed in the same
    block. *)
Theorem staking_tx (g : GovParams) (ctx : TrxContext) (c c1 : ctrler) (L L1 : accounts) (a : Account) :
  let tx := cx_Tx ctx in let sd := side_of (cx_Exec ctx) in let D := sc_delegateeLedger c in
  tx_Type tx = TRX_STAKING -> length (tx_To tx) = AddrSize ->
  ledger_inv delegatee_ok D -> ToLedgerKey (tx_To tx) ∉ removedKeys (mem_of sd D) ->
  ledger_inv ok L -> no_removed L -> cached L sd (cx_Sender ctx) a ->
  0 <= tx_Amount tx <= Balance a -> Balance a < 2 ^ 63 * amountPerPower ->
  StakeCtrler_ValidateTrx g ctx (c, L) = (Ret tt, (c1, L1)) ->
  exists power d c' L', let d' := AddStake [stake_of ctx power] d in
    tx_Amount tx = power * amountPerPower /\ 0 < power /\ target D ctx = Some d /\
    StakeCtrler_ExecuteTrx g ctx (c1, L1) = (Ret tt, (c', L')) /\
    dg_Stakes d' = dg_Stakes d ++ [stake_of ctx power] /\ dg_TotalPower d' = dg_TotalPower d + power /\
    (forall sd' k, visible (sc_delegateeLedger c') sd' k = if decide (sd' = sd /\ k = ToLedgerKey (tx_To tx)) then Some d' else visible D sd' k) /\
    (forall sd' k, visible L' sd' k = if decide (sd' = sd /\ k = Key a) then Some (SetBalance (Balance a - tx_Amount tx) a) else visible L sd' k) /\
    ledger_inv delegatee_ok (sc_delegateeLedger c') /\ ledger_inv ok L' /\
    sc_frozenLedger c' = sc_frozenLedger c /\ sc_rewardLedger c' = sc_rewardLedger c.
Proof.
  intros tx sd D Hty Hlen Hi Hrem HiL HnL Hc Hamt Hmax Hval. unfold StakeCtrler_ValidateTrx in Hval. fold tx in Hval. rewrite Hty in Hval. cbn in Hval.
  destruct (validate_staking_inv g ctx c c1 L L1 Hi ltac:(fold tx; lia) Hval) as (power & D1 & lim & d & Hpow & Hpr & -> & -> & Hi1 & Hp1 & Ht & Hov).
  fold tx D in Hpow, Ht, Hp1. destruct (target_key D ctx d Hi Ht Hlen) as (Hok & Haddr & Hkey). fold tx in Haddr, Hkey.
  destruct (add_one_ok ctx d power Hok Haddr Hpr Hov) as (Hok' & Haddr' & Hst' & Htot'). set (d' := AddStake [stake_of ctx power] d) in *.
  pose proof (preserved_view delegatee_ok D D1 Hi Hp1) as Hsv1.
  destruct (target_run (with_stakes D1 lim c) L D ctx d Hi Hsv1 Hi1 Ht Hlen) as (p & D2 & Hi2 & Hsv2 & Hh & Hrun). fold tx sd in Hrun, Hh.
  assert (Hr2 : Key d ∉ removedKeys (mem_of sd D2)) by (rewrite Hkey; destruct Hsv2 as (_ & Hr & _); by rewrite Hr).
  assert (Hkd : Key d' = Key d) by (change (Delegatee_Key d' = Delegatee_Key d); unfold Delegatee_Key; by rewrite Haddr').
  destruct (put_visible delegatee_ok D2 sd p d d' Hi2 Hh Hok' Hkd Hr2) as (Hi3 & _ & _ & Hv3).
  pose proof (cached_handle ok L sd _ a HiL Hc) as Hha. pose proof Hha as (_ & Hoka & _). assert (Hba : is_u256 (Balance a)) by apply Hoka.
  unfold amountPerPower in Hmax.
  destruct (put_visible ok L sd (cx_Sender ctx) a (SetBalance (Balance a - tx_Amount tx) a) HiL Hha) as (HiL' & _ & _ & HvL);
    [apply set_balance_ok; [done|unfold is_u256 in *; lia]|done|rewrite HnL; apply not_elem_of_nil|].
  exists power, d, (lset l_delegatees (put_state sd p d' D2) (with_stakes D1 lim c)), (put_state sd (cx_Sender ctx) (SetBalance (Balance a - tx_Amount tx) a) L).
  intros d''. change d'' with d'. split_and!; try done; try lia.
  - unfold StakeCtrler_ExecuteTrx. fold tx. rewrite Hty. cbn [Z.eqb Pos.eqb TRX_STAKING]. unfold exeStaking. fold tx sd. rewrite Hrun.
    rewrite (pay_run _ L (cx_Exec ctx) (cx_Sender ctx) a (tx_Amount tx) Hc Hba ltac:(lia) ltac:(lia)). fold sd.
    rewrite power_of_amount_exact by (unfold amountPerPower; lia). rewrite Hpow, Z.div_mul by (unfold amountPerPower; lia).
    unfold bindM at 1, liftO. fold (stake_of ctx power). rewrite (grow_run _ _ D2 sd p d (AddStake [stake_of ctx power])); [done|done|apply Hh].
  - intros sd' k. cbn [sc_delegateeLedger lset l_delegatees with_stakes]. rewrite Hv3, Hkey. case_decide; [done|]. by apply same_view_visible.
Qed.
End Staking.

(** ** Witness: alice becomes a validator with two powers *)
#[export] Instance delegateeCodec_laws : CodecLaws Delegatee delegatee_range := countCodec_laws _ _.
#[export] Instance delegateeCodec_total : CodecTotal Delegatee delegatee_range := countCodec_total _ _.

Definition staker : Account := mkAccount aliceAddr "" 3 (10 * amountPerPower) None "".
Definition stakerAccts : FinalityLedger Account mapTree := ((let! p := alloc staker in set_on Deliver p) noLedger).2.
Definition stakeTx : Trx := mkTrx 1 0 3 aliceAddr aliceAddr (2 * amountPerPower) 20 10 TRX_STAKING None [].
Definition stakeCtx : TrxContext := mkTrxContext 7 0 (replicate 32 Byte.x07) stakeTx 0 true (replicate 33 Byte.x0a) 1%positive 1%positive 0 [] [] "rigo".

Lemma stakerAccts_ok : ledger_inv (acct_ok anyStr) stakerAccts /\ no_removed stakerAccts.
Proof.
  destruct (alloc_put (acct_ok anyStr) _ Deliver staker no_acct_inv) as (L1 & Hrun & Hi & _ & Hr & _).
  - repeat split; cbn; (lia || done).
  - apply not_elem_of_nil.
  - unfold stakerAccts. rewrite Hrun. split; [done|]. intros sd. cbn. rewrite Hr. by destruct sd.
Qed.

Lemma no_delegatee_inv : ledger_inv delegatee_ok (noLedger : FinalityLedger Delegatee mapTree).
Proof. apply fresh_inv. intros k bz. cbn. by rewrite lookup_empty. Qed.

Lemma staking_tx_witness :
  exists c1 L1 d c' L', StakeCtrler_ValidateTrx Test1GovParams stakeCtx (sceneStake, stakerAccts) = (Ret tt, (c1, L1)) /\
    StakeCtrler_ExecuteTrx Test1GovParams stakeCtx (c1, L1) = (Ret tt, (c', L')) /\
    visible (sc_delegateeLedger c') Deliver (ToLedgerKey aliceAddr) = Some d /\ length (dg_Stakes d) = 1%nat.
Proof.
  destruct (StakeCtrler_ValidateTrx Test1GovParams stakeCtx (sceneStake, stakerAccts)) as [r [c1 L1]] eqn:E.
  assert (r = Ret tt) as -> by (change r with (r, (c1, L1)).1; rewrite <- E; vm_compute; reflexivity).
  destruct (staking_tx anyStr Test1GovParams stakeCtx sceneStake c1 stakerAccts L1 staker) as (power & d & c' & L' & _ & _ & Ht & Hrun & Hst & _ & Hv & _).
  - reflexivity.
  - reflexivity.
  - exact no_delegatee_inv.
  - apply not_elem_of_nil.
  - apply stakerAccts_ok.
  - apply stakerAccts_ok.
  - split; vm_compute; reflexivity.
  - vm_compute. split; discriminate.
  - vm_compute. reflexivity.
  - exact E.
  - exists c1, L1, (AddStake [stake_of stakeCtx power] d), c', L'. split; [reflexivity|]. split; [exact Hrun|]. split.
    + rewrite Hv, decide_True by (split; reflexivity). reflexivity.
    + rewrite Hst. assert (Hd : d = NewDelegatee aliceAddr (replicate 33 Byte.x0a)).
      { enough (Some d = Some (NewDelegatee aliceAddr (replicate 33 Byte.x0a))) as [= ->] by reflexivity. rewrite <- Ht. vm_compute. reflexivity. }
      rewrite Hd. reflexivity.
Defined.
