(* ===== verification/Unfreezing.v ===== *)
(** * Theorems about released stakes

    At the end of a block, the frozen stakes whose time has come are paid back
    to their owners and leave the frozen ledger. *)

From Stdlib Require Import Strings.Byte.
From S2P Require Import Prelude Xerrors GoSem Bytes Ledger LedgerSpec LedgerClient LedgerProps Concrete GovParams Account Trx Context.
From S2P Require Import AcctCtrler AcctProps Stake StakeProps StakeLimiter StakeCtrler GovProps Executor Scene Staking.

Definition stake_ok (s : Stake) : Prop := stake_range s /\ 0 <= st_Power s.

(** What [k] gets at height [h] for the stakes of a list. *)
Definition refund (h : Z) (k : bytes) (s : Stake) : Z :=
  if decide (st_RefundHeight s <= h /\ ToLedgerKey (st_From s) = k) then st_Power s * amountPerPower else 0.
Definition refunds (h : Z) (k : bytes) (l : list Stake) : Z := sumZ (refund h k) l.

Section Unfreezing.
Context {Tr : Type} {Tree : Iavl Tr} {View : IavlView Tr} {Laws : IavlLaws Tr} {Total : IavlTotal Tr}.
Context {CA : Codec AcctProto} {CS : Codec Stake} {CD : Codec Delegatee} {CR : Codec RewardProto}.
Context (utf8 : string -> Prop).
Context {CL : CodecLaws AcctProto acct_proto_range} {CTot : CodecTotal AcctProto (acct_proto_valid utf8)}.
Context {SL : CodecLaws Stake stake_range} {ST : CodecTotal Stake stake_range}.
Abbreviation ok := (acct_ok utf8).
Abbreviation ctrler := (@StakeCtrler Tr).
Abbreviation accounts := (FinalityLedger Account Tr).
Abbreviation frozen := (FinalityLedger Stake Tr).

#[export] Instance stake_item_laws : LedgerItemLaws stake_ok.
Proof.
  constructor; unfold Encode, Decode, stake_item, Stake_Encode, Stake_Decode.
  - intros s [Hs _]. destruct (codec_total s Hs) as [bz ->]. eauto.
  - intros s bz [Hs _]. destruct (codec_Marshal s) as [|bz'] eqn:E; [done|]. intros [= <-]. by rewrite (codec_roundtrip s bz' Hs E).
Qed.

Lemma refund_nonneg h k s : stake_ok s -> 0 <= refund h k s < 2 ^ 126.
Proof. intros [[Hp _ _] H0]. unfold refund, is_i64, amountPerPower in *. case_decide; lia. Qed.

Lemma refunds_nonneg h k l : (forall s, s ∈ l -> stake_ok s) -> 0 <= refunds h k l.
Proof. intros H. apply sumZ_nonneg. intros s Hs. by apply refund_nonneg, H. Qed.

(** [Reward]: the account is credited. *)
Lemma reward_spec (L : accounts) to exec b amt :
  let side := side_of exec in
  ledger_inv ok L -> no_removed L -> visible L side (ToLedgerKey to) = Some b -> 0 <= amt < 2 ^ 255 -> Balance b + amt < 2 ^ 256 ->
  exists L', AcctCtrler_Reward to amt exec L = (Ret tt, L') /\ ledger_inv ok L' /\ no_removed L' /\
    forall sd k, visible L' sd k = if decide (sd = side /\ k = ToLedgerKey to) then Some (SetBalance (Balance b + amt) b) else visible L sd k.
Proof.
  intros side Hi Hn Hv Hamt Hov. pose proof (find_account_spec utf8 L to exec Hi) as Hf. fold side in Hf. rewrite Hv in Hf.
  destruct Hf as (p & L1 & Hrun & Hi1 & Hp & Hc & Hk). pose proof (preserved_view ok L L1 Hi Hp) as Hsv. pose proof (no_removed_view L L1 Hsv Hn) as Hn1.
  pose proof (cached_handle ok L1 side p b Hi1 Hc) as Hh. pose proof Hh as (Hpb & Hok & _). assert (Hr : is_u256 (Balance b)) by apply Hok. unfold is_u256 in Hr.
  destruct (put_visible ok L1 side p b (SetBalance (Balance b + amt) b) Hi1 Hh) as (Hi2 & _ & Hr2 & Hv2);
    [apply set_balance_ok; [done|unfold is_u256; lia]|done|rewrite Hn1; apply not_elem_of_nil|].
  eexists. split_and!; [|exact Hi2|intros sd; by rewrite Hr2|].
  - unfold AcctCtrler_Reward. rewrite (bindM_step _ _ _ _ _ Hrun). cbn beta iota. unfold bindM, setAccountCommittable. fold side.
    rewrite (acct_method_ok L1 p _ b _ Hpb (add_balance_small amt b Hamt ltac:(unfold is_u256; lia))).
    pose proof (put_run L1 side p (SetBalance (Balance b + amt) b)) as Hput. unfold bindM, store in Hput. exact Hput.
  - intros sd k. rewrite Hv2, Hk. case_decide; [done|]. by apply same_view_visible.
Qed.

(** An ignored [DelFinality]: the key is gone, the others stay. *)
Lemma del_finality_spec (F : frozen) k :
  ledger_inv stake_ok F ->
  exists F', ignoreM (DelFinality k) F = (Ret tt, F') /\ ledger_inv stake_ok F' /\ tree F' = tree F /\ visible F' Deliver k = None /\
    forall sd' k', k' <> k -> visible F' sd' k' = visible F sd' k'.
Proof.
  intros Hi. destruct (del_side stake_ok F Check k Hi) as (r1 & F1 & H1 & Hp1 & _ & Hi1 & Ht1 & _ & Hv1).
  destruct (del_side stake_ok F1 Deliver k Hi1) as (r2 & F2 & H2 & Hp2 & _ & Hi2 & Ht2 & Hn2 & Hv2). exists F2. split_and!; [|done|congruence|done|].
  - unfold ignoreM at 1, DelFinality, bindM, ignoreM. rewrite H1. destruct r1; [rewrite H2|rewrite H2|done]; by destruct r2.
  - intros sd' k' Hk. by rewrite Hv2, Hv1 by auto.
Qed.

(** One stake. *)
Definition release (h : Z) (s0 : Stake) : GoM (ctrler * accounts) unit :=
  if st_RefundHeight s0 <=? h then
    do! on_accounts (Reward (st_From s0) (PowerToAmount (st_Power s0)) true) in
    ignoreM (on_frozen (DelFinality (ToLedgerKey (st_TxHash s0))))
  else retM tt.

Abbreviation matured h s := (st_RefundHeight s <= h).

(** The state after the release of the stakes [l]. *)
Record released (h : Z) (l : list Stake) (c c' : ctrler) (L L' : accounts) : Prop := {
  re_frozen : ledger_inv stake_ok (sc_frozenLedger c');
  re_tree : tree (sc_frozenLedger c') = tree (sc_frozenLedger c);
  re_accts : ledger_inv ok L';
  re_live : no_removed L';
  re_paid : forall k, balance_of L' Deliver k = balance_of L Deliver k + refunds h k l;
  re_check : forall k, visible L' Check k = visible L Check k;
  re_exist : forall k, is_Some (visible L Deliver k) -> is_Some (visible L' Deliver k);
  re_gone : forall s, s ∈ l -> matured h s -> visible (sc_frozenLedger c') Deliver (Key s) = None;
  re_rest : forall sd k, (forall s, s ∈ l -> matured h s -> Key s <> k) -> visible (sc_frozenLedger c') sd k = visible (sc_frozenLedger c) sd k;
  re_delegatees : sc_delegateeLedger c' = sc_delegateeLedger c;
  re_rewards : sc_rewardLedger c' = sc_rewardLedger c;
}.

Lemma release_one h s (c : ctrler) (L : accounts) :
  ledger_inv stake_ok (sc_frozenLedger c) -> ledger_inv ok L -> no_removed L -> stake_ok s ->
  (matured h s -> is_Some (visible L Deliver (ToLedgerKey (st_From s)))) ->
  (forall k, balance_of L Deliver k + refund h k s < 2 ^ 256) ->
  exists c' L', release h s (c, L) = (Ret tt, (c', L')) /\ released h [s] c c' L L'.
Proof.
  intros HF HL Hn Hok Hex Hov. assert (Href : forall k, refunds h k [s] = refund h k s) by (intros; unfold refunds; rewrite sumZ_cons, sumZ_nil; lia).
  unfold release. destruct (st_RefundHeight s <=? h) eqn:Em.
  - destruct (Hex ltac:(lia)) as [b Hb]. pose proof Hok as [[Hp _ _] H0]. unfold is_i64 in Hp.
    assert (Hamt : PowerToAmount (st_Power s) = st_Power s * amountPerPower) by (apply amount_of_power_exact; lia).
    assert (Hr : forall k, refund h k s = if decide (k = ToLedgerKey (st_From s)) then PowerToAmount (st_Power s) else 0).
    { intros k. unfold refund. rewrite Hamt. destruct (decide (k = ToLedgerKey (st_From s))); [by rewrite decide_True by (split; [lia|done])|].
      by rewrite decide_False by naive_solver. }
    pose proof (Hov (ToLedgerKey (st_From s))) as Hb2. rewrite Hr, decide_True in Hb2 by done. unfold balance_of in Hb2. rewrite Hb in Hb2.
    destruct (reward_spec L (st_From s) true b (PowerToAmount (st_Power s)) HL Hn Hb) as (L' & Hrun & HL' & Hn' & Hv); [rewrite Hamt; unfold amountPerPower; lia|lia|].
    destruct (del_finality_spec (sc_frozenLedger c) (ToLedgerKey (st_TxHash s)) HF) as (F' & Hdel & HF' & Ht & Hgone & Hrest).
    exists (lset l_frozen F' c), L'. split.
    + rewrite (bindM_step _ _ _ tt (c, L')) by (by apply on_accounts_run).
      unfold ignoreM in Hdel |- *. unfold on_frozen, zoom. cbn [lget lset lens_comp lens_fst l_frozen fst snd].
      destruct (DelFinality (ToLedgerKey (st_TxHash s)) (sc_frozenLedger c)) as [[x|e|] F2]; injection Hdel; by intros ->.
    + constructor; try done.
      * intros k. rewrite Href, Hr. unfold balance_of. rewrite Hv. destruct (decide (k = ToLedgerKey (st_From s))) as [->|Hk].
        -- rewrite decide_True by done. by rewrite Hb.
        -- rewrite decide_False by tauto. lia.
      * intros k Hk. rewrite Hv. case_decide; [done|exact Hk].
      * intros s' ->%list_elem_of_singleton _. exact Hgone.
      * intros sd k Hk. apply Hrest. apply not_eq_sym, (Hk s); [by apply list_elem_of_singleton|lia].
  - exists c, L. split; [done|]. constructor; try done.
    + intros k. rewrite Href. unfold refund. rewrite decide_False by lia. lia.
    + intros s' ->%list_elem_of_singleton Hm. lia.
Qed.

Lemma released_trans h s l (c c1 c2 : ctrler) (L L1 L2 : accounts) :
  NoDup (map Key (s :: l)) -> released h [s] c c1 L L1 -> released h l c1 c2 L1 L2 -> released h (s :: l) c c2 L L2.
Proof.
  intros Hnd [] []. cbn in Hnd. apply list.NoDup_cons in Hnd as [Hni _]. constructor; try done; try congruence.
  - intros k. rewrite re_paid1, re_paid0. unfold refunds. rewrite sumZ_cons, sumZ_cons, sumZ_nil. lia.
  - auto.
  - intros s' [->|Hs]%elem_of_cons Hm; [|by apply re_gone1]. rewrite re_rest1.
    + apply re_gone0; [by apply list_elem_of_singleton|done].
    + intros s2 Hs2 _ He. apply Hni. apply list_elem_of_fmap. by exists s2.
  - intros sd k Hk. rewrite re_rest1, re_rest0; [done| |].
    + intros s' ->%list_elem_of_singleton. apply Hk. apply elem_of_cons. by left.
    + intros s' Hs'. apply Hk. apply elem_of_cons. by right.
Qed.

Lemma release_all h l : forall (c : ctrler) (L : accounts),
  NoDup (map Key l) -> (forall s, s ∈ l -> stake_ok s) ->
  ledger_inv stake_ok (sc_frozenLedger c) -> ledger_inv ok L -> no_removed L ->
  (forall s, s ∈ l -> matured h s -> is_Some (visible L Deliver (ToLedgerKey (st_From s)))) ->
  (forall k, balance_of L Deliver k + refunds h k l < 2 ^ 256) ->
  exists c' L', forM_ l (release h) (c, L) = (Ret tt, (c', L')) /\ released h l c c' L L'.
Proof.
  induction l as [|s l IH]; intros c L Hnd Hok HF HL Hn Hex Hov.
  - exists c, L. split; [done|]. constructor; try done; [|intros s Hs; by apply not_elem_of_nil in Hs]. intros k. unfold refunds. rewrite sumZ_nil. lia.
  - assert (Hoks : forall s', s' ∈ l -> stake_ok s') by (intros; apply Hok, elem_of_cons; by right).
    assert (Hsum : forall k, refunds h k (s :: l) = refund h k s + refunds h k l) by (intros; unfold refunds; by rewrite sumZ_cons).
    destruct (release_one h s c L HF HL Hn) as (c1 & L1 & Hrun & Hr1); [apply Hok, elem_of_cons; by left|intros; apply Hex; [apply elem_of_cons; by left|done]| |].
    { intros k. specialize (Hov k). rewrite Hsum in Hov. pose proof (refunds_nonneg h k l Hoks). lia. }
    destruct (IH c1 L1) as (c2 & L2 & Hrun2 & Hr2).
    + cbn in Hnd. by apply list.NoDup_cons in Hnd as [_ ?].
    + done.
    + apply (re_frozen _ _ _ _ _ _ Hr1).
    + apply (re_accts _ _ _ _ _ _ Hr1).
    + apply (re_live _ _ _ _ _ _ Hr1).
    + intros s' Hs' Hm. apply (re_exist _ _ _ _ _ _ Hr1), Hex; [apply elem_of_cons; by right|done].
    + intros k. rewrite (re_paid _ _ _ _ _ _ Hr1). unfold refunds at 1. rewrite sumZ_cons, sumZ_nil. specialize (Hov k). rewrite Hsum in Hov. lia.
    + exists c2, L2. cbn [forM_]. rewrite (bindM_step _ _ _ _ _ Hrun). split; [done|]. by eapply released_trans.
Qed.

(** C23: released stakes.  Let every frozen stake of the committed ledger that
    is due at height [h] belong to an existing account, and let no balance
    overflow.  Then [unfreezingStakes] succeeds: with [l] the committed frozen
    stakes, every account gets exactly the amounts of its due stakes, each due
    stake leaves the frozen ledger, and the other stakes, the delegatees, the
    rewards and the accounts that checks see stay as they were. *)
Theorem unfreeze_pays (h : Z) (c : ctrler) (L : accounts) :
  let F := sc_frozenLedger c in
  ledger_inv stake_ok F -> ledger_inv ok L -> no_removed L ->
  exists l, NoDup (map Key l) /\ (forall s, s ∈ l <-> tree_item (tree F) (Key s) = Some s) /\
    ((forall s, s ∈ l -> matured h s -> is_Some (visible L Deliver (ToLedgerKey (st_From s)))) ->
     (forall k, balance_of L Deliver k + refunds h k l < 2 ^ 256) ->
     exists c' L', unfreezingStakes h (c, L) = (Ret tt, (c', L')) /\ released h l c c' L L').
Proof.
  intros F HF HL Hn. destruct (iterate_run stake_ok F HF) as (l & Hrun & Hnd & Hmem & Hok).
  { intros s. cbn. unfold Stake_Key. apply to_ledger_key_id, length_ledger_key. }
  exists l. split_and!; [done|done|]. intros Hex Hov.
  destruct (release_all h l c L Hnd Hok HF HL Hn Hex Hov) as (c' & L' & Hrel & Hr). exists c', L'. split; [|done].
  unfold unfreezingStakes. rewrite (Hrun _ (lens_comp lens_fst l_frozen)) by done. exact Hrel.
Qed.
End Unfreezing.

(** ** Witness: a stake of alice, due at height 5 *)
#[export] Instance stakeCodec_laws : CodecLaws Stake stake_range := countCodec_laws _ _.
#[export] Instance stakeCodec_total : CodecTotal Stake stake_range := countCodec_total _ _.

Definition dueStake : Stake := mkStake aliceAddr aliceAddr (replicate 32 Byte.x07) 1 5 2.
Definition dueCtrler : @StakeCtrler mapTree :=
  newStakeCtrler Test1GovParams (MapTree ∅ ∅ 0) (MapTree {[ Stake_Key dueStake := count_encode dueStake ]} ∅ 0) (MapTree ∅ ∅ 0) [].

Lemma dueCtrler_inv : ledger_inv stake_ok (sc_frozenLedger dueCtrler).
Proof.
  apply fresh_inv. intros k bz. cbn [tree_map mapTree_view mt_map]. rewrite lookup_singleton. case_decide as Hk; [|done]. intros [= <-]. subst k.
  exists dueStake. unfold Decode, stake_item, Stake_Decode, stakeCodec, countCodec, codec_Unmarshal. rewrite count_decode_encode.
  split_and!; [done|done|]. split; [constructor; unfold is_i64; cbn; lia|cbn; lia].
Qed.

Lemma unfreeze_pays_witness :
  exists c' L', unfreezingStakes 6 (dueCtrler, stakerAccts) = (Ret tt, (c', L')) /\
    balance_of L' Deliver (ToLedgerKey aliceAddr) = balance_of stakerAccts Deliver (ToLedgerKey aliceAddr) + 2 * amountPerPower.
Proof.
  destruct (unfreeze_pays anyStr 6 dueCtrler stakerAccts dueCtrler_inv (proj1 stakerAccts_ok) (proj2 stakerAccts_ok)) as (l & Hnd & Hl & Hrun).
  assert (Hs : forall s, s ∈ l -> s = dueStake).
  { intros s Hs. apply Hl in Hs. unfold tree_item in Hs.
    assert (Ht : tree_map (tree (sc_frozenLedger dueCtrler)) = {[ Stake_Key dueStake := count_encode dueStake ]}) by reflexivity.
    rewrite Ht, lookup_singleton in Hs. case_decide as Hk; [|discriminate].
    unfold Decode, stake_item, Stake_Decode, stakeCodec, countCodec, codec_Unmarshal in Hs. rewrite count_decode_encode in Hs.
    case_decide; [|discriminate]. injection Hs as ->. reflexivity. }
  assert (Hin : dueStake ∈ l) by (apply Hl; vm_compute; reflexivity).
  assert (Hll : l = [dueStake]).
  { destruct l as [|s [|s' l']]; [by apply not_elem_of_nil in Hin|rewrite (Hs s) by set_solver; reflexivity|].
    exfalso. rewrite (Hs s), (Hs s') in Hnd by set_solver. cbn [map] in Hnd. apply list.NoDup_cons in Hnd as [Hnd _]. apply Hnd. apply elem_of_cons. left. reflexivity. }
  subst l. destruct Hrun as (c' & L' & Hr & Hrel).
  - intros s Hin' _. apply list_elem_of_singleton in Hin'. subst s. eexists. vm_compute. reflexivity.
  - intros k. unfold refunds. rewrite sumZ_cons, sumZ_nil. unfold refund, balance_of.
    assert (Hb : match visible stakerAccts Deliver k with Some a => Balance a | None => 0 end <= 10 * amountPerPower).
    { destruct (alloc_put (acct_ok anyStr) _ Deliver staker no_acct_inv) as (L1 & Hrun1 & _ & _ & _ & Hv).
      - repeat split; cbn; (lia || done).
      - apply not_elem_of_nil.
      - assert (HL : stakerAccts = L1) by (unfold stakerAccts; rewrite Hrun1; reflexivity). rewrite HL, Hv. case_decide; [cbn; lia|].
        unfold visible. rewrite fresh_pend. unfold tree_item. cbn. rewrite lookup_empty. case_decide; unfold amountPerPower; lia. }
    unfold amountPerPower in *. case_decide; cbn [st_Power dueStake]; lia.
  - exists c', L'. split; [exact Hr|]. rewrite (re_paid _ _ _ _ _ _ _ Hrel). vm_compute. reflexivity.
Defined.
