(* ===== verification/Unstaking.v ===== *)
(** * Theorems about unstaking transactions

    What a validated unstaking transaction does to the delegatee and to the
    frozen stakes: the stake leaves the delegatee and waits for its refund; a
    delegatee without a stake of its own releases all its stakes and goes. *)

From Stdlib Require Import Strings.Byte.
From S2P Require Import Prelude Xerrors GoSem Bytes Ledger LedgerSpec LedgerClient LedgerProps Concrete GovParams Account Trx Context.
From S2P Require Import AcctCtrler AcctProps Stake StakeProps StakeLimiter StakeCtrler GovProps Executor Scene Staking Unfreezing.

(** ** Delegatees that lose stakes *)
Lemma found_deleted txhash d i s0 :
  FindStake txhash d = Some (i, s0) ->
  st_TxHash s0 = txhash /\ s0 ∈ dg_Stakes d /\ exists rest, delStakeByHash txhash (dg_Stakes d) = Some (s0, rest) /\ dg_Stakes d ≡ₚ s0 :: rest.
Proof.
  intros Hf. unfold FindStake in Hf. pose proof (find_stake_spec txhash (dg_Stakes d) 0) as H. rewrite Hf in H.
  destruct H as (_ & Hl & Hh & _). rewrite Nat.sub_0_r in Hl.
  assert (Hd : delStakeByHash txhash (dg_Stakes d) = Some (s0, take i (dg_Stakes d) ++ drop (S i) (dg_Stakes d))).
  { unfold delStakeByHash. rewrite Hf. unfold delStakeByIdx. by rewrite Hl. }
  destruct (del_by_hash_spec _ _ _ _ Hd) as (Hp & Hin & _). split_and!; [done|done|]. eexists. by split.
Qed.

Lemma del_stake_ok txhash d s0 rest :
  delegatee_ok d -> delStakeByHash txhash (dg_Stakes d) = Some (s0, rest) -> dg_Stakes d ≡ₚ s0 :: rest ->
  let d' := (DelStake txhash d).2 in
  delegatee_ok d' /\ dg_Addr d' = dg_Addr d /\ dg_Stakes d' = rest /\ dg_TotalPower d' = dg_TotalPower d - st_Power s0.
Proof.
  intros [Hw Hr] Hd Hp d'. destruct (sub_stake_wf _ s0 rest d Hw Hd Hp) as (Hw' & _ & Ht & Hs). unfold d', DelStake.
  split_and!; [split; [done|]|by rewrite Hd|done|done]. pose proof (wf_sums _ Hw'). destruct Hr as [R1 R2 R3 R4 R5 R6].
  constructor; [by rewrite Hd|unfold is_i64; lia|unfold is_i64; lia|by rewrite Hd| |by rewrite Hd].
  rewrite Hs. intros s Hin. apply R5. rewrite Hp. by apply elem_of_cons; right.
Qed.

(** Without self stakes the self power is zero, and only then. *)
Lemma self_power_zero d : delegatee_wf d -> (dg_SelfPower d =? 0) = negb (existsb IsSelfStake (dg_Stakes d)).
Proof.
  intros Hw. rewrite (dw_self d Hw). pose proof (fun s Hs => proj2 (dw_stakes d Hw s Hs)) as Hpos. revert Hpos. generalize (dg_Stakes d) as l.
  induction l as [|s l IH]; intros Hpos; [done|]. unfold self_stakes in *. cbn [List.filter existsb].
  assert (Hl : forall x, x ∈ l -> 0 < st_Power x) by (intros x Hx; apply Hpos; by apply elem_of_cons; right).
  destruct (IsSelfStake s); cbn [orb negb]; [|by apply IH]. rewrite sumZ_cons. pose proof (self_sum_bound l Hl) as Hb. unfold self_stakes in Hb.
  assert (0 < st_Power s) by (apply Hpos; by apply elem_of_cons; left). lia.
Qed.

Lemma del_all_ok d :
  delegatee_ok d -> (dg_SelfPower d = 0) ->
  let d' := (DelAllStakes d).2 in delegatee_ok d' /\ dg_Addr d' = dg_Addr d /\ dg_TotalPower d' = 0.
Proof.
  intros [Hw Hr] H0 d'. pose proof (wf_sums d Hw) as Hs.
  assert (Ht : dg_TotalPower d' = 0).
  { unfold d', DelAllStakes. cbn [snd dg_TotalPower set_powers]. rewrite <- (i64_id (dg_TotalPower d)) by (unfold is_i64; lia).
    rewrite del_all_total, <- (dw_total d Hw), Z.sub_diag. reflexivity. }
  split_and!; [|done|done]. split.
  - constructor; [apply (dw_addr d Hw)|intros s Hx; by apply not_elem_of_nil in Hx|done|done|done].
  - destruct Hr as [R1 R2 R3 R4 R5 R6]. constructor; [done|cbn; unfold is_i64; lia|rewrite Ht; unfold is_i64; lia|done| |done].
    intros s Hx. by apply not_elem_of_nil in Hx.
Qed.

Section Unstaking.
Context {Tr : Type} {Tree : Iavl Tr} {View : IavlView Tr} {Laws : IavlLaws Tr} {Total : IavlTotal Tr}.
Context {CA : Codec AcctProto} {CS : Codec Stake} {CD : Codec Delegatee} {CR : Codec RewardProto}.
Context {DL : CodecLaws Delegatee delegatee_range} {DT : CodecTotal Delegatee delegatee_range}.
Context {SL : CodecLaws Stake stake_range} {ST : CodecTotal Stake stake_range}.
Abbreviation ctrler := (@StakeCtrler Tr).
Abbreviation accounts := (FinalityLedger Account Tr).
Abbreviation delegatees := (FinalityLedger Delegatee Tr).
Abbreviation frozen := (FinalityLedger Stake Tr).

(** ** Frozen stakes *)

(** [F'] is [F] with the stakes of [l] waiting for height [h] on one side.  Of
    stakes with one key only one is kept. *)
Definition froze (sd : side) (h : Z) (l : list Stake) (F F' : frozen) : Prop :=
  ledger_inv stake_ok F' /\ removedKeys (mem_of sd F') = removedKeys (mem_of sd F) /\
  (forall sd' k, sd' <> sd \/ k ∉ map Key l -> visible F' sd' k = visible F sd' k) /\
  (NoDup (map Key l) -> forall s, s ∈ l -> visible F' sd (Key s) = Some (set_RefundHeight h s)).

Lemma freeze_run sd h s (c : ctrler) (L : accounts) :
  let F := sc_frozenLedger c in
  ledger_inv stake_ok F -> removedKeys (mem_of sd F) = [] -> stake_range s -> 0 <= st_Power s -> is_i64 h ->
  exists F', freeze sd h s (c, L) = (Ret tt, (lset l_frozen F' c, L)) /\ froze sd h [s] F F'.
Proof.
  intros F Hi Hr Hs Hp Hh. assert (Hok : stake_ok (set_RefundHeight h s)) by (split; [destruct Hs; by constructor|done]).
  destruct (alloc_put stake_ok F sd (set_RefundHeight h s) Hi Hok) as (F' & Hrun & Hi' & _ & Hr' & Hv); [rewrite Hr; apply not_elem_of_nil|].
  exists F'. split.
  - unfold freeze, on_frozen. erewrite zoom_eq; [reflexivity|]. cbn [lget lens_comp lens_fst l_frozen fst].
    unfold bindM, ignoreM in Hrun |- *. fold F. destruct (alloc _ F) as [[q| |] F1]; [|done..]. by rewrite Hrun.
  - split_and!; [done|done| |].
    + intros sd' k Hk. rewrite Hv, decide_False; [done|]. intros [-> ->]. destruct Hk as [?|Hk]; [done|]. apply Hk. by apply elem_of_cons; left.
    + intros _ s' ->%list_elem_of_singleton. by rewrite Hv, decide_True.
Qed.

Lemma froze_nil sd h (F : frozen) : ledger_inv stake_ok F -> froze sd h [] F F.
Proof. intros Hi. split_and!; [done..|]. intros _ s Hs. by apply not_elem_of_nil in Hs. Qed.
Lemma froze_app sd h l1 l2 (F F1 F2 : frozen) : froze sd h l1 F F1 -> froze sd h l2 F1 F2 -> froze sd h (l1 ++ l2) F F2.
Proof.
  intros (_ & Hr1 & Hv1 & Hs1) (Hi2 & Hr2 & Hv2 & Hs2). split_and!; [done|congruence| |]; rewrite map_app.
  - intros sd' k Hk. rewrite not_elem_of_app in Hk. rewrite Hv2, Hv1; [done|tauto|tauto].
  - intros (Hn1 & Hd & Hn2)%list.NoDup_app s [Hs|Hs]%elem_of_app; [|by apply Hs2]. rewrite Hv2; [by apply Hs1|]. right. apply Hd. by apply list_elem_of_fmap_2.
Qed.

Lemma freeze_all_run sd h l (c : ctrler) (L : accounts) :
  let F := sc_frozenLedger c in
  ledger_inv stake_ok F -> removedKeys (mem_of sd F) = [] -> (forall s, s ∈ l -> stake_range s /\ 0 <= st_Power s) -> is_i64 h ->
  exists F', forM_ l (freeze sd h) (c, L) = (Ret tt, (lset l_frozen F' c, L)) /\ froze sd h l F F'.
Proof.
  intros F Hi Hr Hl Hh. subst F. revert c Hi Hr. induction l as [|s l IH]; intros c Hi Hr.
  - exists (sc_frozenLedger c). split; [by destruct c|by apply froze_nil].
  - destruct (Hl s) as [H1 H2]; [by apply elem_of_cons; left|].
    destruct (freeze_run sd h s c L Hi Hr H1 H2 Hh) as (F1 & Hrun & Hf1). pose proof Hf1 as (Hi1 & Hr1 & _).
    destruct (IH (fun s Hs => Hl s ltac:(by apply elem_of_cons; right)) (lset l_frozen F1 c)) as (F2 & Hrun2 & Hf2); [exact Hi1|cbn; by rewrite Hr1|].
    exists F2. split; [|by apply (froze_app sd h [s] l _ F1)]. cbn [forM_]. rewrite (bindM_step _ _ _ _ _ Hrun). rewrite Hrun2. by destruct c.
Qed.

(** ** The transaction *)

(** The controller with other delegatees and other frozen stakes. *)
Definition holding (D : delegatees) (F : frozen) (c : ctrler) : ctrler := lset l_frozen F (lset l_delegatees D c).
Definition changed (p : positive) (d : Delegatee) (D : delegatees) : delegatees := set_heap (heap_store p d (lheap D)) D.

Lemma changed_changed p d d' D : changed p d' (changed p d D) = changed p d' D.
Proof. unfold changed, set_heap, heap_store. cbn. by rewrite insert_insert_eq. Qed.

Lemma method_run {B} p (f : Delegatee -> B * Delegatee) d D F (c : ctrler) (L : accounts) :
  objs (lheap D) !! p = Some d -> delegatee_method p f (holding D F c, L) = (Ret (f d).1, (holding (changed p (f d).2 D) F c, L)).
Proof.
  intros Hd. unfold delegatee_method. rewrite (on_delegatees_run _ _ L (Ret (f d).1) (changed p (f d).2 D)); [done|].
  cbn [sc_delegateeLedger holding lset l_frozen l_delegatees]. unfold bindM, load, store, retM. rewrite Hd. by destruct (f d).
Qed.

Lemma load_run p d D F (c : ctrler) (L : accounts) : objs (lheap D) !! p = Some d -> on_delegatees (load p) (holding D F c, L) = (Ret d, (holding D F c, L)).
Proof.
  intros Hd. rewrite (on_delegatees_run _ _ L (Ret d) D); [done|]. cbn [sc_delegateeLedger holding lset l_frozen l_delegatees]. unfold load. by rewrite Hd.
Qed.

Lemma changed_at p d D : objs (lheap (changed p d D)) !! p = Some d.
Proof. apply lookup_insert_eq. Qed.

(** What remains of the delegatee, and the stakes that are released. *)
Definition unstaked (exec : bool) (k : bytes) (d : Delegatee) (s0 : Stake) (rest released : list Stake) (D D' : delegatees) : Prop :=
  let sd := side_of exec in
  ledger_inv delegatee_ok D' /\
  (forall sd' k', k' <> k \/ (exec = false /\ sd' = Deliver) -> visible D' sd' k' = visible D sd' k') /\
  if existsb IsSelfStake rest
  then released = [s0] /\ exists d', visible D' sd k = Some d' /\ dg_Stakes d' = rest /\ dg_TotalPower d' = dg_TotalPower d - st_Power s0 /\ dg_Addr d' = dg_Addr d
  else released = s0 :: rest /\ visible D' sd k = None.

Lemma finish_keep exec p d d1 s0 rest D D2 F (c : ctrler) (L : accounts) :
  let sd := side_of exec in
  ledger_inv delegatee_ok D2 -> same_view D D2 -> cached D2 sd p d -> Key d ∉ removedKeys (mem_of sd D2) ->
  delegatee_ok d1 -> dg_Addr d1 = dg_Addr d -> dg_Stakes d1 = rest -> dg_TotalPower d1 = dg_TotalPower d - st_Power s0 -> existsb IsSelfStake rest = true ->
  exists D', on_delegatees (set_on sd p) (holding (changed p d1 D2) F c, L) = (Ret tt, (holding D' F c, L)) /\
    unstaked exec (Key d) d s0 rest [s0] D D'.
Proof.
  intros sd Hi Hsv Hc Hr Hok Ha Hst Htot Hs. pose proof (cached_handle delegatee_ok D2 sd p d Hi Hc) as Hh.
  assert (Hk : Key d1 = Key d) by (change (Delegatee_Key d1 = Delegatee_Key d); unfold Delegatee_Key; by rewrite Ha).
  destruct (put_visible delegatee_ok D2 sd p d d1 Hi Hh Hok Hk Hr) as (Hi' & _ & _ & Hv). exists (put_state sd p d1 D2). split.
  - rewrite (on_delegatees_run _ _ L (Ret tt) (put_state sd p d1 D2)); [done|]. apply (set_on_run (changed p d1 D2) sd p d1), changed_at.
  - split_and!; [done| |].
    + intros sd' k' Hk'. rewrite Hv, decide_False; [by apply same_view_visible|]. intros [-> ->]. destruct Hk' as [?|[-> ?]]; done.
    + rewrite Hs. split; [done|]. exists d1. by rewrite Hv, decide_True.
Qed.

Lemma finish_gone exec p d d2 s0 rest D D2 F (c : ctrler) (L : accounts) :
  let sd := side_of exec in
  ledger_inv delegatee_ok D2 -> same_view D D2 -> cached D2 sd p d -> Key d ∉ removedKeys (mem_of sd D2) ->
  delegatee_ok d2 -> dg_Addr d2 = dg_Addr d -> existsb IsSelfStake rest = false ->
  exists D', (do! on_delegatees (del_for exec (Delegatee_Key d2)) in retM tt) (holding (changed p d2 D2) F c, L) = (Ret tt, (holding D' F c, L)) /\
    unstaked exec (Key d) d s0 rest (s0 :: rest) D D'.
Proof.
  intros sd Hi Hsv Hc Hr Hok Ha Hs. pose proof (cached_handle delegatee_ok D2 sd p d Hi Hc) as Hh.
  assert (Hk : Key d2 = Key d) by (change (Delegatee_Key d2 = Delegatee_Key d); unfold Delegatee_Key; by rewrite Ha).
  destruct (put_visible delegatee_ok D2 sd p d d2 Hi Hh Hok Hk Hr) as (Hi' & _ & _ & Hv).
  destruct (del_for_spec delegatee_ok (put_state sd p d2 D2) exec (Key d) Hi') as (q & D' & Hrun & HiD & _ & Hn & Hv'); [rewrite Hv, decide_True; eauto|].
  exists D'. split.
  - change (Delegatee_Key d2) with (Key d2). rewrite Hk. rewrite (bindM_step _ _ _ q (holding D' F c, L)); [done|].
    rewrite (on_delegatees_run _ _ L (Ret q) D'); [done|]. cbn [sc_delegateeLedger holding lset l_frozen l_delegatees].
    unfold changed. by rewrite (del_changed delegatee_ok D2 exec p d d2 Hi' Hc Hk Hr).
  - split_and!; [done| |].
    + intros sd' k' Hk'. rewrite Hv' by done. rewrite Hv, decide_False; [by apply same_view_visible|]. intros [-> ->]. destruct Hk' as [?|[-> ?]]; done.
    + by rewrite Hs.
Qed.

(** What [exeUnstaking] does after the release of the stake. *)
Definition after_release (sd : side) (refund : Z) (exec : bool) (p : positive) : GoM (ctrler * accounts) unit :=
  let! d := on_delegatees (load p) in
  do! (if dg_SelfPower d =? 0 then
         let! stakes := delegatee_method p DelAllStakes in
         forM_ stakes (freeze sd refund)
       else retM tt) in
  let! d := on_delegatees (load p) in
  if dg_TotalPower d =? 0 then do! on_delegatees (del_for exec (Delegatee_Key d)) in retM tt
  else on_delegatees (set_on sd p).

Lemma exe_unstaking_run g ctx txhash d s0 rest (c : ctrler) (L : accounts) :
  let tx := cx_Tx ctx in let sd := side_of (cx_Exec ctx) in let D := sc_delegateeLedger c in let F := sc_frozenLedger c in
  let h := i64 (cx_Height ctx + lazyRewardBlocks g) in
  ledger_inv delegatee_ok D -> ledger_inv stake_ok F -> removedKeys (mem_of sd F) = [] ->
  visible D sd (ToLedgerKey (tx_To tx)) = Some d -> unstaking_payload tx = Ret txhash -> owned_stake tx txhash d = Ret s0 ->
  delStakeByHash txhash (dg_Stakes d) = Some (s0, rest) -> dg_Stakes d ≡ₚ s0 :: rest ->
  exists released D' F', exeUnstaking g ctx (c, L) = (Ret tt, (holding D' F' c, L)) /\
    unstaked (cx_Exec ctx) (ToLedgerKey (tx_To tx)) d s0 rest released D D' /\ froze sd h released F F'.
Proof.
  intros tx sd D F h Hi HF HrF Hv Hpay Hown Hdel Hperm. destruct (visible_key delegatee_ok D sd _ d Hi Hv) as (Hkey & [Hw Hrng] & Hrem).
  pose proof (find_spec delegatee_ok D sd (ToLedgerKey (tx_To tx)) Hi) as Hget. rewrite Hv in Hget. destruct Hget as (p & D2 & Hrun & Hi2 & Hpr & Hc & _).
  pose proof (preserved_view delegatee_ok D D2 Hi Hpr) as Hsv. pose proof Hc as [Hp _].
  assert (Hr2 : Key d ∉ removedKeys (mem_of sd D2)) by (rewrite Hkey; destruct Hsv as (_ & Hr & _); by rewrite Hr).
  destruct (del_stake_ok txhash d s0 rest (conj Hw Hrng) Hdel Hperm) as (Hok1 & Ha1 & Hs1 & Ht1). set (d1 := (DelStake txhash d).2) in *.
  assert (Hst : forall s, s ∈ s0 :: rest -> stake_range s /\ 0 <= st_Power s).
  { intros s Hs. rewrite <- Hperm in Hs. split; [by apply (dr_stakes d Hrng)|]. pose proof (proj2 (dw_stakes d Hw s Hs)). lia. }
  assert (Hih : is_i64 h) by apply i64_range.
  destruct (Hst s0) as [Hs0 Hp0]; [by apply elem_of_cons; left|].
  destruct (freeze_run sd h s0 (holding (changed p d1 D2) F c) L HF HrF Hs0 Hp0 Hih) as (F1 & Hf1 & Hfr1).
  assert (Hstart : exists K, exeUnstaking g ctx (c, L) = K p (holding (changed p d1 D2) F1 c, L) /\ K = after_release sd h (cx_Exec ctx)).
  { eexists. split; [|reflexivity]. unfold exeUnstaking. fold tx sd h.
    rewrite (bindM_step _ _ _ p (holding D2 F c, L)) by (rewrite (on_delegatees_run _ c L _ _ Hrun); by destruct c).
    rewrite (bindM_step _ _ _ txhash (holding D2 F c, L)) by (unfold liftO; by rewrite Hpay). rewrite (bindM_step _ _ _ _ _ (load_run p d D2 F c L Hp)).
    rewrite (bindM_step _ _ _ s0 (holding D2 F c, L)) by (unfold liftO; by rewrite Hown).
    rewrite (bindM_step _ _ _ tt (holding (changed p d1 D2) F c, L)) by (unfold ignoreM; by rewrite (method_run p _ d D2 F c L Hp)).
    by rewrite (bindM_step _ _ _ _ _ Hf1). }
  destruct Hstart as (K & Hstart & ->). rewrite Hstart. unfold after_release. rewrite <- Hkey.
  rewrite (bindM_step _ _ _ _ _ (load_run p d1 _ F1 c L (changed_at p d1 D2))). rewrite (self_power_zero d1 (proj1 Hok1)), Hs1.
  destruct (existsb IsSelfStake rest) eqn:Hself; cbn [negb].
  - rewrite (bindM_step _ _ _ tt (holding (changed p d1 D2) F1 c, L)) by done. rewrite (bindM_step _ _ _ _ _ (load_run p d1 _ F1 c L (changed_at p d1 D2))).
    assert (Hne : dg_TotalPower d1 =? 0 = false).
    { pose proof (self_power_zero d1 (proj1 Hok1)) as Hz. rewrite Hs1, Hself in Hz. pose proof (wf_sums d1 (proj1 Hok1)). cbn in Hz. lia. }
    rewrite Hne. destruct (finish_keep (cx_Exec ctx) p d d1 s0 rest D D2 F1 c L Hi2 Hsv Hc Hr2 Hok1 Ha1 Hs1 Ht1 Hself) as (D' & Hfin & Hun).
    exists [s0], D', F1. by split_and!.
  - pose proof (self_power_zero d1 (proj1 Hok1)) as Hz. rewrite Hs1, Hself in Hz. cbn in Hz. apply Z.eqb_eq in Hz.
    destruct (del_all_ok d1 Hok1 Hz) as (Hok2 & Ha2 & Ht2). set (d2 := (DelAllStakes d1).2) in *. pose proof Hfr1 as (HiF1 & HrF1 & _).
    destruct (freeze_all_run sd h rest (holding (changed p d2 D2) F1 c) L HiF1) as (F2 & Hf2 & Hfr2); [exact (eq_trans HrF1 HrF)|intros s Hs; apply Hst; by apply elem_of_cons; right|done|].
    rewrite (bindM_step _ _ _ tt (holding (changed p d2 D2) F2 c, L)).
    + rewrite (bindM_step _ _ _ _ _ (load_run p d2 _ F2 c L (changed_at p d2 D2))), Ht2.
      destruct (finish_gone (cx_Exec ctx) p d d2 s0 rest D D2 F2 c L Hi2 Hsv Hc Hr2 Hok2 ltac:(congruence) Hself) as (D' & Hfin & Hun).
      exists (s0 :: rest), D', F2. split_and!; [exact Hfin|done|by apply (froze_app sd h [s0] rest F F1)].
    + rewrite (bindM_step _ _ _ rest (holding (changed p d2 D2) F1 c, L)); [exact Hf2|].
      rewrite (method_run p _ d1 _ F1 c L (changed_at p d1 D2)). change (DelAllStakes d1).2 with d2. rewrite changed_changed. do 2 f_equal. exact Hs1.
Qed.

Lemma validate_unstaking_inv ctx (c c1 : ctrler) (L L1 : accounts) :
  let tx := cx_Tx ctx in let sd := side_of (cx_Exec ctx) in let D := sc_delegateeLedger c in
  ledger_inv delegatee_ok D -> validate_unstaking ctx (c, L) = (Ret tt, (c1, L1)) ->
  exists txhash d s0 D1 lim, unstaking_payload tx = Ret txhash /\ visible D sd (ToLedgerKey (tx_To tx)) = Some d /\ owned_stake tx txhash d = Ret s0 /\
    L1 = L /\ c1 = with_stakes D1 lim c /\ ledger_inv delegatee_ok D1 /\ same_view D D1.
Proof.
  intros tx sd D Hi Hval. unfold validate_unstaking in Hval. fold tx sd in Hval. pose proof (find_spec delegatee_ok D sd (ToLedgerKey (tx_To tx)) Hi) as Hget.
  apply bindM_inv in Hval as (d & w1 & Hd & Hval). destruct (visible D sd (ToLedgerKey (tx_To tx))) as [d0|] eqn:Hv.
  - destruct Hget as (p & D1 & Hrun & Hi1 & Hp & [Hx _] & _).
    rewrite (on_delegatees_run _ c L (Ret d0) D1) in Hd by (fold D; rewrite (bindM_step _ _ _ _ _ Hrun); unfold load; by rewrite Hx). injection Hd as <- <-.
    apply bindM_inv in Hval as (txhash & w2 & Ht & (s0 & w3 & Hs & Hval)%bindM_inv). unfold liftO in Ht, Hs. injection Ht as Ht <-. injection Hs as Hs <-.
    apply check_ratio_frame in Hval as [-> [lim ->]]. exists txhash, d0, s0, D1, lim. split_and!; try done. by apply (preserved_view delegatee_ok).
  - rewrite (on_delegatees_run _ c L (Err ErrNotFoundResult) D) in Hd; [done|]. fold D. unfold bindM. by rewrite Hget.
Qed.

(** C6: unstaking.  Let an unstaking transaction pass the validation of the stake
    controller, with no frozen stake removed since the last commit.  Then it names
    a stake of the sender, and the execution succeeds without touching the
    accounts or the rewards.  While the delegatee keeps another stake of its own,
    that stake alone leaves it and its power falls by exactly the power of the
    stake; otherwise all its stakes are released and the delegatee is gone.  The
    released stakes are frozen until the height of the block plus the waiting
    period: each of them, when their transaction hashes differ.  No other
    delegatee or frozen stake changes, and a check changes nothing for blocks. *)
Theorem unstaking_tx (g : GovParams) (ctx : TrxContext) (c c1 : ctrler) (L L1 : accounts) :
  let tx := cx_Tx ctx in let sd := side_of (cx_Exec ctx) in let D := sc_delegateeLedger c in let F := sc_frozenLedger c in
  tx_Type tx = TRX_UNSTAKING -> ledger_inv delegatee_ok D -> ledger_inv stake_ok F -> removedKeys (mem_of sd F) = [] ->
  StakeCtrler_ValidateTrx g ctx (c, L) = (Ret tt, (c1, L1)) ->
  exists txhash d s0 rest released c',
    tx_Payload tx = Some (PayloadUnstaking txhash) /\ visible D sd (ToLedgerKey (tx_To tx)) = Some d /\
    dg_Stakes d ≡ₚ s0 :: rest /\ st_TxHash s0 = txhash /\ st_From s0 = tx_From tx /\
    StakeCtrler_ExecuteTrx g ctx (c1, L1) = (Ret tt, (c', L)) /\
    unstaked (cx_Exec ctx) (ToLedgerKey (tx_To tx)) d s0 rest released D (sc_delegateeLedger c') /\
    froze sd (i64 (cx_Height ctx + lazyRewardBlocks g)) released F (sc_frozenLedger c') /\
    sc_rewardLedger c' = sc_rewardLedger c.
Proof.
  intros tx sd D F Hty Hi HF HrF Hval. unfold StakeCtrler_ValidateTrx in Hval. fold tx in Hval. rewrite Hty in Hval. cbn in Hval.
  destruct (validate_unstaking_inv ctx c c1 L L1 Hi Hval) as (txhash & d & s0 & D1 & lim & Hpay & Hv & Hown & -> & -> & Hi1 & Hsv). fold tx in Hpay, Hv, Hown.
  pose proof Hown as Hown'. unfold owned_stake in Hown'. destruct (negb (length txhash =? 32)%nat); [done|]. destruct (FindStake txhash d) as [[i s]|] eqn:Hf; [|done].
  destruct (negb _) eqn:Hfrom in Hown'; [done|]. injection Hown' as ->. apply negb_false_iff, Z.eqb_eq, compare_eq in Hfrom.
  destruct (found_deleted txhash d i s0 Hf) as (Hh & _ & rest & Hdel & Hperm).
  destruct (exe_unstaking_run g ctx txhash d s0 rest (with_stakes D1 lim c) L Hi1 HF HrF) as (released & D' & F' & Hrun & Hun & Hfr); try done.
  { rewrite <- Hv. by apply same_view_visible. }
  exists txhash, d, s0, rest, released, (holding D' F' (with_stakes D1 lim c)). split_and!; try done.
  - unfold unstaking_payload in Hpay. destruct (tx_Payload tx) as [[]|]; try done. by injection Hpay as ->.
  - unfold StakeCtrler_ExecuteTrx. fold tx. rewrite Hty. cbn [Z.eqb Pos.eqb TRX_STAKING TRX_UNSTAKING]. exact Hrun.
  - destruct Hun as (H1 & H2 & H3). split_and!; [done| |exact H3]. intros sd' k' Hk. rewrite H2 by done. by apply same_view_visible.
Qed.
End Unstaking.

(** ** Witness: alice leaves, and bob's stake is released with hers *)

Definition ownStake : Stake := NewStakeWithPower aliceAddr aliceAddr 2 1 (replicate 32 Byte.x07).
Definition bobStake : Stake := NewStakeWithPower bobAddr aliceAddr 5 1 (replicate 32 Byte.x08).
Definition leaving : Delegatee := AddStake [ownStake; bobStake] (NewDelegatee aliceAddr (replicate 33 Byte.x0a)).
Definition leavingLedger : FinalityLedger Delegatee mapTree := ((let! p := alloc leaving in set_on Deliver p) noLedger).2.
Definition leavingStake : @StakeCtrler mapTree := lset l_delegatees leavingLedger sceneStake.
Definition unstakeTx : Trx := mkTrx 1 0 3 aliceAddr aliceAddr 0 20 10 TRX_UNSTAKING (Some (PayloadUnstaking (replicate 32 Byte.x07))) [].
Definition unstakeCtx : TrxContext := mkTrxContext 7 0 (replicate 32 Byte.x09) unstakeTx 0 true (replicate 33 Byte.x0a) 1%positive 1%positive 0 [] [] "rigo".

Lemma leaving_ok : delegatee_ok leaving.
Proof.
  split.
  - constructor; [done| |reflexivity|reflexivity|reflexivity]. intros s Hs. change (dg_Stakes leaving) with [ownStake; bobStake] in Hs.
    repeat (apply elem_of_cons in Hs as [->|Hs]; [done|]). by apply not_elem_of_nil in Hs.
  - constructor; [reflexivity|split; vm_compute; congruence..| |intros h Hh; by apply not_elem_of_nil in Hh].
    intros s Hs. change (dg_Stakes leaving) with [ownStake; bobStake] in Hs.
    repeat (apply elem_of_cons in Hs as [->|Hs]; [constructor; unfold is_i64; cbn; lia|]). by apply not_elem_of_nil in Hs.
Qed.

Lemma leavingLedger_ok : ledger_inv delegatee_ok leavingLedger.
Proof.
  destruct (alloc_put delegatee_ok _ Deliver leaving no_delegatee_inv leaving_ok) as (D & Hrun & Hi & _); [apply not_elem_of_nil|].
  unfold leavingLedger. by rewrite Hrun.
Qed.

Lemma unstaking_tx_witness :
  exists c1 L1 c', StakeCtrler_ValidateTrx Test1GovParams unstakeCtx (leavingStake, stakerAccts) = (Ret tt, (c1, L1)) /\
    StakeCtrler_ExecuteTrx Test1GovParams unstakeCtx (c1, L1) = (Ret tt, (c', stakerAccts)) /\
    visible (sc_delegateeLedger c') Deliver (ToLedgerKey aliceAddr) = None.
Proof.
  destruct (StakeCtrler_ValidateTrx Test1GovParams unstakeCtx (leavingStake, stakerAccts)) as [r [c1 L1]] eqn:E.
  assert (r = Ret tt) as -> by (change r with (r, (c1, L1)).1; rewrite <- E; vm_compute; reflexivity).
  destruct (unstaking_tx Test1GovParams unstakeCtx leavingStake c1 stakerAccts L1) as (h & d & s0 & rest & rel & c' & Hp & Hd & Hst & Hh & Hf & Hrun & (_ & _ & Hun) & _).
  - reflexivity.
  - exact leavingLedger_ok.
  - apply fresh_inv. intros k bz. cbn. by rewrite lookup_empty.
  - reflexivity.
  - exact E.
  - exists c1, L1, c'. split; [reflexivity|]. split; [exact Hrun|].
    assert (Hl : d = leaving).
    { enough (Some d = Some leaving) as [= ->] by reflexivity. rewrite <- Hd. vm_compute. reflexivity. }
    subst d. injection Hp as <-. destruct (existsb IsSelfStake rest) eqn:Hs; [|apply Hun]. exfalso.
    assert (Hin : s0 ∈ dg_Stakes leaving) by (rewrite Hst; by apply elem_of_cons; left). change (dg_Stakes leaving) with [ownStake; bobStake] in Hin, Hst.
    apply elem_of_cons in Hin as [->|[->|Hin]%elem_of_cons]; [|discriminate Hh|by apply not_elem_of_nil in Hin].
    apply Permutation_cons_inv in Hst. apply Permutation_singleton_l in Hst. subst rest. vm_compute in Hs. discriminate Hs.
Defined.
