(* ===== verification/Rewards.v ===== *)
(** * Theorems about the withdrawal of rewards

    What a validated withdrawal does to the reward object and to the balance of
    its owner. *)

From Stdlib Require Import Strings.Byte.
From S2P Require Import Prelude Xerrors GoSem Bytes Ledger LedgerSpec LedgerClient LedgerProps Concrete GovParams Account Trx Context.
From S2P Require Import AcctCtrler AcctProps Stake StakeProps StakeLimiter StakeCtrler GovProps Executor Scene Staking Unfreezing.

Record reward_ok (r : Reward_) : Prop := {
  ro_issued : is_u256 (rw_issued r);
  ro_withdrawn : is_u256 (rw_withdrawn r);
  ro_slashed : is_u256 (rw_slashed r);
  ro_cumulated : is_u256 (rw_cumulated r);
  ro_height : is_i64 (rw_height r);
}.
Definition reward_proto_range (m : RewardProto) : Prop := is_i64 (pw_Height m).

Section Rewards.
Context {Tr : Type} {Tree : Iavl Tr} {View : IavlView Tr} {Laws : IavlLaws Tr} {Total : IavlTotal Tr}.
Context {CA : Codec AcctProto} {CS : Codec Stake} {CD : Codec Delegatee} {CR : Codec RewardProto}.
Context (utf8 : string -> Prop).
Context {CL : CodecLaws AcctProto acct_proto_range} {CTot : CodecTotal AcctProto (acct_proto_valid utf8)}.
Context {RL : CodecLaws RewardProto reward_proto_range} {RT : CodecTotal RewardProto reward_proto_range}.
Abbreviation ok := (acct_ok utf8).
Abbreviation ctrler := (@StakeCtrler Tr).
Abbreviation accounts := (FinalityLedger Account Tr).
Abbreviation rewards := (FinalityLedger Reward_ Tr).

#[export] Instance reward_item_laws : LedgerItemLaws reward_ok.
Proof.
  constructor; unfold Encode, Decode, reward_item, Reward_Encode, Reward_Decode.
  - intros r Hr. destruct (codec_total (reward_toProto r) (ro_height r Hr)) as [bz ->]. eauto.
  - intros r bz Hr. destruct (codec_Marshal (reward_toProto r)) as [|bz'] eqn:E; [done|]. intros [= <-].
    rewrite (codec_roundtrip (reward_toProto r) bz' (ro_height r Hr) E). f_equal. destruct Hr. destruct r. unfold reward_fromProto, reward_toProto; cbn in *.
    by rewrite !u256_set_bytes.
Qed.

Lemma on_rewards_run {B} (m : GoM rewards B) (c : ctrler) (L : accounts) r R :
  m (sc_rewardLedger c) = (r, R) -> on_rewards m (c, L) = (r, (lset l_rewards R c, L)).
Proof. intros H. unfold on_rewards, zoom. cbn. by rewrite H. Qed.

(** The reward object after a withdrawal. *)
Definition withdrawn (req h : Z) (r : Reward_) : Reward_ :=
  mkReward (rw_address r) (rw_issued r) (if rw_height r <? h then req else u256 (rw_withdrawn r + req)) (rw_slashed r) (rw_cumulated r - req) h.

Lemma withdraw_exact req h r :
  reward_ok r -> 0 <= req <= rw_cumulated r -> rw_height r <= h -> is_i64 h ->
  Withdraw req h r = Ret (withdrawn req h r) /\ reward_ok (withdrawn req h r).
Proof.
  intros [H1 H2 H3 H4 H5] Hreq Hh Hi. unfold is_u256 in *. unfold Withdraw, at_height, withdrawn. rewrite (u256_id (rw_cumulated r - req)) by (unfold is_u256; lia).
  destruct (rw_height r <? h) eqn:E.
  - split; [done|]. constructor; cbn; unfold is_u256; (done || lia).
  - rewrite (proj2 (Z.eqb_eq _ _)) by lia. split; [done|]. constructor; cbn; try (unfold is_u256; lia); [apply u256_range|done].
Qed.

(** C24: withdrawal.  Let a withdrawal of [req] pass the validation of the
    stake controller, and let the reward object of the sender not be newer than
    the block.  Then the sender has a reward of at least [req]; the execution
    succeeds; the reward is lowered by exactly [req] and the balance of the
    sender grows by exactly [req]; no other reward, account, delegatee or
    frozen stake changes. *)
Theorem withdraw_tx (g : GovParams) (ctx : TrxContext) (c c1 : ctrler) (L L1 : accounts) (a : Account) (req : Z) :
  let tx := cx_Tx ctx in let sd := side_of (cx_Exec ctx) in let R := sc_rewardLedger c in let k := ToLedgerKey (tx_From tx) in
  tx_Type tx = TRX_WITHDRAW -> tx_Payload tx = Some (PayloadWithdraw req) ->
  ledger_inv reward_ok R -> (forall r, visible R sd k = Some r -> rw_height r <= cx_Height ctx) -> is_i64 (cx_Height ctx) ->
  ledger_inv ok L -> no_removed L -> cached L sd (cx_Sender ctx) a ->
  0 <= req < 2 ^ 255 -> Balance a + req < 2 ^ 256 ->
  StakeCtrler_ValidateTrx g ctx (c, L) = (Ret tt, (c1, L1)) ->
  exists r c' L', visible R sd k = Some r /\ req <= rw_cumulated r /\
    StakeCtrler_ExecuteTrx g ctx (c1, L1) = (Ret tt, (c', L')) /\
    (forall sd' k', visible (sc_rewardLedger c') sd' k' = if decide (sd' = sd /\ k' = k) then Some (withdrawn req (cx_Height ctx) r) else visible R sd' k') /\
    (forall sd' k', visible L' sd' k' = if decide (sd' = sd /\ k' = Key a) then Some (SetBalance (Balance a + req) a) else visible L sd' k') /\
    ledger_inv reward_ok (sc_rewardLedger c') /\ ledger_inv ok L' /\
    sc_delegateeLedger c' = sc_delegateeLedger c /\ sc_frozenLedger c' = sc_frozenLedger c.
Proof.
  intros tx sd R k Hty Hpl HR Hh Hhi HL Hn Hc Hreq Hov Hval. unfold StakeCtrler_ValidateTrx in Hval. fold tx in Hval. rewrite Hty in Hval. cbn in Hval.
  unfold validate_withdraw in Hval. fold tx in Hval. destruct (negb (u256_Sign (tx_Amount tx) =? 0)); [done|]. rewrite Hpl in Hval.
  apply bindM_inv in Hval as (r & w1 & Hread & Hval). fold sd k in Hread.
  pose proof (find_spec reward_ok R sd k HR) as Hf. destruct (visible R sd k) as [r0|] eqn:Hv.
  2: { rewrite (on_rewards_run _ c L (Err ErrNotFoundResult) R) in Hread; [done|]. fold R. unfold bindM. by rewrite Hf. }
  destruct Hf as (p1 & R1 & Hrun1 & HR1 & Hp1 & [Hx1 _] & _).
  rewrite (on_rewards_run _ c L (Ret r0) R1) in Hread by (fold R; rewrite (bindM_step _ _ _ _ _ Hrun1); unfold load; by rewrite Hx1).
  injection Hread as <- <-. destruct (rw_cumulated r0 <? req) eqn:Ecum; [done|]. injection Hval as <- <-.
  pose proof (preserved_view reward_ok R R1 HR Hp1) as Hsv. destruct (visible_key reward_ok R sd k r0 HR Hv) as (Hk0 & Hok0 & Hrem).
  destruct (withdraw_exact req (cx_Height ctx) r0 Hok0 ltac:(lia) (Hh r0 eq_refl) Hhi) as [Hwd Hok']. set (r' := withdrawn req (cx_Height ctx) r0) in *.
  pose proof (find_spec reward_ok R1 sd k HR1) as Hf2. rewrite (same_view_visible R R1) in Hf2 by done. rewrite Hv in Hf2.
  destruct Hf2 as (p & R2 & Hrun2 & HR2 & Hp2 & Hc2 & _). pose proof (cached_handle reward_ok R2 sd p r0 HR2 Hc2) as Hh2.
  assert (Hsv2 : same_view R R2) by (etrans; [exact Hsv|by apply (preserved_view reward_ok)]).
  destruct (put_visible reward_ok R2 sd p r0 r' HR2 Hh2 Hok' eq_refl) as (HR3 & _ & _ & Hv3).
  { rewrite Hk0. destruct Hsv2 as (_ & Hr & _). by rewrite Hr. }
  pose proof (visible_cached utf8 L sd _ a HL Hn Hc) as Hva. assert (Hka : ToLedgerKey (Address a) = Key a) by (cbn; apply to_ledger_key_array).
  destruct (reward_spec utf8 L (Address a) (cx_Exec ctx) a req HL Hn ltac:(by rewrite Hka) Hreq Hov) as (L' & Hrew & HL' & _ & HvL). fold sd in HvL.
  exists r0, (lset l_rewards (put_state sd p r' R2) c), L'. split_and!; try done; try lia.
  - unfold StakeCtrler_ExecuteTrx. fold tx. rewrite Hty. cbn [Z.eqb Pos.eqb TRX_STAKING TRX_UNSTAKING TRX_WITHDRAW]. unfold exeWithdraw. fold tx sd. rewrite Hpl. fold k.
    rewrite (bindM_step _ _ _ p (lset l_rewards R2 c, L)) by (by rewrite (on_rewards_run _ _ L (Ret p) R2) by done).
    pose proof (put_run R2 sd p r') as Hput. unfold bindM, store in Hput. set (Rs := set_heap (heap_store p r' (lheap R2)) R2) in *.
    rewrite (bindM_step _ _ _ tt (lset l_rewards Rs c, L)).
    2: { rewrite (on_rewards_run _ _ L (Ret tt) Rs); [done|]. cbn [sc_rewardLedger lset l_rewards]. unfold bindM, load, liftO. destruct Hc2 as [-> _]. by rewrite Hwd. }
    rewrite (bindM_step _ _ _ tt (lset l_rewards (put_state sd p r' R2) c, L)) by (by rewrite (on_rewards_run (set_on sd p) (lset l_rewards Rs c) L _ _ Hput)).
    destruct Hc as [Ha _]. rewrite (bindM_step _ _ _ a (lset l_rewards (put_state sd p r' R2) c, L)).
    2: { apply on_accounts_run. cbn [load_account AcctCtrler_handler]. unfold load. by rewrite Ha. }
    rewrite (bindM_step _ _ _ (inr tt) (lset l_rewards (put_state sd p r' R2) c, L')); [done|]. apply tryM_ret, on_accounts_run. exact Hrew.
  - intros sd' k'. cbn [sc_rewardLedger lset l_rewards]. rewrite Hv3, Hk0. case_decide; [done|]. by apply same_view_visible.
  - intros sd' k'. by rewrite HvL, Hka.
Qed.
End Rewards.

(** ** Witness: alice withdraws 20 of her reward of 50 *)
#[export] Instance rewardCodec_laws : CodecLaws RewardProto reward_proto_range := countCodec_laws _ _.
#[export] Instance rewardCodec_total : CodecTotal RewardProto reward_proto_range := countCodec_total _ _.

Definition aliceReward : Reward_ := mkReward aliceAddr 50 0 0 50 3.
Definition rewardLedger0 : FinalityLedger Reward_ mapTree := ((let! p := alloc aliceReward in set_on Deliver p) noLedger).2.
Definition rewardCtrler : @StakeCtrler mapTree := lset l_rewards rewardLedger0 sceneStake.
Definition withdrawTx : Trx := mkTrx 1 0 3 aliceAddr aliceAddr 0 20 10 TRX_WITHDRAW (Some (PayloadWithdraw 20)) [].
Definition withdrawCtx : TrxContext := mkTrxContext 7 0 (replicate 32 Byte.x07) withdrawTx 0 true [] 1%positive 1%positive 0 [] [] "rigo".

Lemma rewardLedger0_inv : ledger_inv reward_ok rewardLedger0.
Proof.
  assert (Hempty : ledger_inv reward_ok (noLedger : FinalityLedger Reward_ mapTree)).
  { apply fresh_inv. intros k bz. cbn. by rewrite lookup_empty. }
  destruct (alloc_put reward_ok _ Deliver aliceReward Hempty) as (L1 & Hrun & Hi & _).
  - constructor; unfold is_u256, is_i64; cbn; lia.
  - apply not_elem_of_nil.
  - unfold rewardLedger0. by rewrite Hrun.
Qed.

Lemma withdraw_tx_witness :
  exists c1 L1 c' L', StakeCtrler_ValidateTrx Test1GovParams withdrawCtx (rewardCtrler, stakerAccts) = (Ret tt, (c1, L1)) /\
    StakeCtrler_ExecuteTrx Test1GovParams withdrawCtx (c1, L1) = (Ret tt, (c', L')) /\
    visible L' Deliver (Key staker) = Some (SetBalance (Balance staker + 20) staker).
Proof.
  destruct (StakeCtrler_ValidateTrx Test1GovParams withdrawCtx (rewardCtrler, stakerAccts)) as [r [c1 L1]] eqn:E.
  assert (r = Ret tt) as -> by (change r with (r, (c1, L1)).1; rewrite <- E; vm_compute; reflexivity).
  destruct (withdraw_tx anyStr Test1GovParams withdrawCtx rewardCtrler c1 stakerAccts L1 staker 20) as (r & c' & L' & _ & _ & Hrun & _ & Hv & _).
  - reflexivity.
  - reflexivity.
  - exact rewardLedger0_inv.
  - intros r Hr. assert (Ha : visible (sc_rewardLedger rewardCtrler) Deliver (ToLedgerKey aliceAddr) = Some aliceReward) by (vm_compute; reflexivity).
    change (visible (sc_rewardLedger rewardCtrler) Deliver (ToLedgerKey aliceAddr) = Some r) in Hr. rewrite Ha in Hr. injection Hr as <-. cbn. lia.
  - unfold is_i64. cbn. lia.
  - apply stakerAccts_ok.
  - apply stakerAccts_ok.
  - split; vm_compute; reflexivity.
  - lia.
  - vm_compute. reflexivity.
  - exact E.
  - exists c1, L1, c', L'. split; [reflexivity|]. split; [exact Hrun|]. rewrite Hv, decide_True by (split; reflexivity). reflexivity.
Defined.
