(* ===== verification/ProtoWire.v ===== *)
(** * The wire format of the protobuf messages

    The generated files [account.pb.go], [gov_params.pb.go], [trx.pb.go] and
    [reward.pb.go] declare, in the tags of their structs, the number and the kind
    of every field.  This file holds these declarations as schemas, the proto3
    wire format they select (varints, length-delimited fields, fields with the
    zero value left out), and shows that each message is read back as written:
    instances of [Codec] with the laws that the components assume. *)

From Stdlib Require Import Strings.Byte.
From S2P Require Import Prelude Xerrors GoSem Bytes Ledger LedgerSpec GovParams Trx TrxProps Account Stake StakeProps Rewards.

(** ** Varints *)
Fixpoint varint_bytes (fuel : nat) (z : Z) : list Byte.byte :=
  match fuel with
  | O => []
  | S fuel' => if z <? 128 then [byte_of_Z z] else byte_of_Z (z mod 128 + 128) :: varint_bytes fuel' (z / 128)
  end.
(** A number below [2^k] has at most [k] groups of seven bits. *)
Definition varint (z : Z) : list Byte.byte := varint_bytes (S (Z.to_nat (Z.log2 z))) z.

(** The number, the bytes it took and the rest. *)
Fixpoint varint_read (s : list Byte.byte) : option (Z * nat * list Byte.byte) :=
  match s with
  | [] => None
  | b :: r =>
      if byte_val b <? 128 then Some (byte_val b, 1%nat, r)
      else match varint_read r with Some (z, k, r') => Some (byte_val b - 128 + 128 * z, S k, r') | None => None end
  end.
(** A number of 64 bits takes at most ten bytes.  Longer ones, which are an
    overflow, can only be lengths of more bytes than there are. *)
Definition varint_consume (s : list Byte.byte) : option (Z * list Byte.byte) :=
  match varint_read s with
  | Some (z, k, r) => if (k <=? 10)%nat || (2 ^ 64 <=? z) then Some (z, r) else None
  | None => None
  end.

(** ** UTF-8, as in [unicode/utf8] *)
Definition between (lo hi : Z) (b : Byte.byte) : bool := (lo <=? byte_val b) && (byte_val b <=? hi).
Definition cont : Byte.byte -> bool := between 128 191.
Fixpoint utf8_Valid (s : list Byte.byte) : bool :=
  match s with
  | [] => true
  | b :: r =>
      if byte_val b <? 128 then utf8_Valid r
      else match r with
           | [] => false
           | c :: r1 =>
               if between 194 223 b then cont c && utf8_Valid r1
               else match r1 with
                    | [] => false
                    | d :: r2 =>
                        if between 224 239 b then
                          between (if byte_val b =? 224 then 160 else 128) (if byte_val b =? 237 then 159 else 191) c && cont d && utf8_Valid r2
                        else match r2 with
                             | [] => false
                             | e :: r3 =>
                                 between 240 244 b && between (if byte_val b =? 240 then 144 else 128) (if byte_val b =? 244 then 143 else 191) c && cont d && cont e && utf8_Valid r3
                             end
                    end
           end
  end.
Definition utf8 (s : string) : Prop := utf8_Valid (String.list_byte_of_string s) = true.

(** ** Schemas and values *)
Inductive kind : Type := KUint (w : Z) | KInt (w : Z) | KBytes | KString | KRepBytes.
Inductive val : Type := VZ (z : Z) | VB (bz : list Byte.byte) | VL (l : list (list Byte.byte)).
Abbreviation schema := (list (Z * kind)).

Definition zero_val (k : kind) : val :=
  match k with KUint _ | KInt _ => VZ 0 | KBytes | KString => VB [] | KRepBytes => VL [] end.
Definition val_ok (k : kind) (v : val) : Prop :=
  match k, v with
  | KUint w, VZ z => 0 < w <= 64 /\ 0 <= z < 2 ^ w
  | KInt w, VZ z => 0 < w <= 64 /\ - 2 ^ (w - 1) <= z < 2 ^ (w - 1)
  | KBytes, VB _ => True
  | KString, VB bz => utf8_Valid bz = true
  | KRepBytes, VL _ => True
  | _, _ => False
  end.

(** Writing: tag and value, nothing for the zero of proto3. *)
Definition tag (num wt : Z) : list Byte.byte := varint (num * 8 + wt).
Definition delimited (num : Z) (bz : list Byte.byte) : list Byte.byte := tag num 2 ++ varint (Z.of_nat (length bz)) ++ bz.
Definition write_field (num : Z) (v : val) : list Byte.byte :=
  match v with
  | VZ z => if z =? 0 then [] else tag num 0 ++ varint (u64 z)
  | VB bz => if (length bz =? 0)%nat then [] else delimited num bz
  | VL l => concat (map (delimited num) l)
  end.
Fixpoint write_fields (sch : schema) (vs : list val) : list Byte.byte :=
  match sch, vs with
  | (num, _) :: sch', v :: vs' => write_field num v ++ write_fields sch' vs'
  | _, _ => []
  end.

(** Texts have to be UTF-8. *)
Definition text_ok (k : kind) (v : val) : bool := match k, v with KString, VB bz => utf8_Valid bz | _, _ => true end.
Fixpoint texts_ok (sch : schema) (vs : list val) : bool :=
  match sch, vs with (_, k) :: sch', v :: vs' => text_ok k v && texts_ok sch' vs' | _, _ => true end.
Definition wire_Marshal (sch : schema) (vs : list val) : string + list Byte.byte :=
  if texts_ok sch vs then inr (write_fields sch vs) else inl "proto: string field contains invalid UTF-8"%string.

(** Reading: the wire type says how long a field is, also an unknown one; groups
    are not part of proto3 and refused. *)
Inductive wire : Type := WVarint (u : Z) | WBytes (bz : list Byte.byte) | WFixed.
Definition consume_value (wt : Z) (s : list Byte.byte) : option (wire * list Byte.byte) :=
  if wt =? 0 then match varint_consume s with Some (u, r) => if u <? 2 ^ 64 then Some (WVarint u, r) else None | None => None end
  else if wt =? 2 then
    match varint_consume s with
    | Some (n, r) => if n <=? Z.of_nat (length r) then Some (WBytes (take (Z.to_nat n) r), drop (Z.to_nat n) r) else None
    | None => None
    end
  else if (wt =? 1) && (8 <=? length s)%nat then Some (WFixed, drop 8 s)
  else if (wt =? 5) && (4 <=? length s)%nat then Some (WFixed, drop 4 s)
  else None.
Definition consume_field (s : list Byte.byte) : option (Z * wire * list Byte.byte) :=
  match varint_consume s with
  | Some (t, r) =>
      if (1 <=? t / 8) && (t / 8 <? 2 ^ 29) then match consume_value (t mod 8) r with Some (w, r') => Some (t / 8, w, r') | None => None end
      else None
  | None => None
  end.

(** A field of another wire type is kept as unknown; the last of several wins. *)
Definition update (k : kind) (old : val) (x : wire) : option val :=
  match k, x with
  | KUint w, WVarint u => Some (VZ (u mod 2 ^ w))
  | KInt w, WVarint u => Some (VZ (wrap_s w u))
  | KBytes, WBytes bz => Some (VB bz)
  | KString, WBytes bz => if utf8_Valid bz then Some (VB bz) else None
  | KRepBytes, WBytes bz => Some (VL (match old with VL l => l ++ [bz] | _ => [bz] end))
  | _, _ => Some old
  end.
Fixpoint set_field (sch : schema) (acc : list val) (num : Z) (x : wire) : option (list val) :=
  match sch, acc with
  | (n, k) :: sch', v :: acc' =>
      if n =? num then match update k v x with Some v' => Some (v' :: acc') | None => None end
      else match set_field sch' acc' num x with Some acc'' => Some (v :: acc'') | None => None end
  | _, _ => Some acc
  end.
(** Each field takes a byte at least: the length of the input is enough fuel. *)
Fixpoint read_fields (fuel : nat) (sch : schema) (acc : list val) (s : list Byte.byte) : option (list val) :=
  match s, fuel with
  | [], _ => Some acc
  | _, O => None
  | _, S fuel' =>
      match consume_field s with
      | Some (num, x, r) => match set_field sch acc num x with Some acc' => read_fields fuel' sch acc' r | None => None end
      | None => None
      end
  end.
Definition wire_Unmarshal (sch : schema) (s : list Byte.byte) : string + list val :=
  match read_fields (length s) sch (map (fun f => zero_val f.2) sch) s with Some vs => inr vs | None => inl "proto: cannot parse invalid wire-format data"%string end.

(** ** Reading what was written *)
Lemma varint_bytes_read fuel z r : 0 <= z < 2 ^ Z.of_nat fuel -> (0 < fuel)%nat ->
  varint_read (varint_bytes fuel z ++ r) = Some (z, length (varint_bytes fuel z), r).
Proof.
  revert z. induction fuel as [|fuel IH]; intros z Hz Hf; [lia|]. cbn [varint_bytes]. destruct (Z.ltb_spec z 128) as [H|H].
  - cbn. rewrite byte_val_of_Z, Z.mod_small by lia. by rewrite (proj2 (Z.ltb_lt z 128)).
  - cbn [app varint_read length]. rewrite byte_val_of_Z. pose proof (Z.mod_pos_bound z 128). rewrite Z.mod_small by lia.
    rewrite (proj2 (Z.ltb_ge _ 128)) by lia. pose proof (Z.div_mod z 128). rewrite Nat2Z.inj_succ, Z.pow_succ_r in Hz by lia.
    rewrite IH; [do 3 f_equal; lia| |].
    + split; [apply Z.div_pos; lia|]. apply Z.div_lt_upper_bound; lia.
    + destruct fuel; [|lia]. cbn in Hz. lia.
Qed.

Lemma varint_bytes_length fuel n z : 0 <= z < 128 ^ Z.of_nat n -> (0 < n)%nat -> (length (varint_bytes fuel z) <= n)%nat.
Proof.
  revert n z. induction fuel as [|fuel IH]; intros n z Hz Hn; [cbn; lia|]. cbn [varint_bytes]. destruct (Z.ltb_spec z 128) as [H|H]; [cbn; lia|]. cbn [length].
  destruct n as [|n]; [lia|]. rewrite Nat2Z.inj_succ, Z.pow_succ_r in Hz by lia. apply le_n_S, IH; [|destruct n; [cbn in Hz; lia|lia]].
  split; [apply Z.div_pos; lia|apply Z.div_lt_upper_bound; lia].
Qed.

Lemma varint_roundtrip z r : 0 <= z -> varint_consume (varint z ++ r) = Some (z, r).
Proof.
  intros Hz. assert (Hb : 0 <= z < 2 ^ Z.of_nat (S (Z.to_nat (Z.log2 z)))).
  { rewrite Nat2Z.inj_succ, Z2Nat.id by apply Z.log2_nonneg. destruct (Z.eq_dec z 0) as [->|Hn]; [cbn; lia|]. pose proof (Z.log2_spec z). lia. }
  unfold varint_consume, varint. rewrite varint_bytes_read by (done || lia).
  destruct (Z.leb_spec (2 ^ 64) z) as [H|H]; [by rewrite orb_true_r|]. rewrite (proj2 (Nat.leb_le _ 10)); [done|]. apply varint_bytes_length; [|lia].
  split; [lia|]. change (128 ^ Z.of_nat 10) with (2 ^ 70). lia.
Qed.

Lemma varint_nonempty z : varint z <> [].
Proof. unfold varint. cbn [varint_bytes]. by destruct (z <? 128). Qed.

Definition field_num (n : Z) : Prop := 1 <= n < 2 ^ 29.

Lemma tag_read n wt r : field_num n -> 0 <= wt < 8 ->
  consume_field (tag n wt ++ r) = match consume_value wt r with Some (w, r') => Some (n, w, r') | None => None end.
Proof.
  intros Hn Hw. unfold consume_field, tag. unfold field_num in Hn. rewrite varint_roundtrip by lia.
  assert (Hd : (n * 8 + wt) / 8 = n) by (rewrite Z.div_add_l by lia; rewrite Z.div_small by lia; lia).
  assert (Hm : (n * 8 + wt) mod 8 = wt) by (rewrite Z.add_comm, Z_mod_plus_full; by apply Z.mod_small).
  rewrite Hd, Hm. by rewrite (proj2 (Z.leb_le 1 n)), (proj2 (Z.ltb_lt n _)) by lia.
Qed.

Lemma scalar_read n z r : field_num n -> consume_field (tag n 0 ++ varint (u64 z) ++ r) = Some (n, WVarint (u64 z), r).
Proof.
  intros Hn. rewrite tag_read by (done || lia). unfold consume_value. cbn [Z.eqb]. pose proof (u64_range z) as Hu. unfold is_u64 in Hu.
  rewrite varint_roundtrip by lia. by rewrite (proj2 (Z.ltb_lt _ _)) by lia.
Qed.

Lemma delimited_read n bz r : field_num n -> consume_field (delimited n bz ++ r) = Some (n, WBytes bz, r).
Proof.
  intros Hn. unfold delimited. rewrite <-!app_assoc, tag_read by (done || lia). unfold consume_value. cbn [Z.eqb]. rewrite varint_roundtrip by lia.
  rewrite (proj2 (Z.leb_le _ _)) by (rewrite length_app; lia). rewrite Nat2Z.id, take_app_length, drop_app_length. done.
Qed.

Lemma wrap_uint w z : 0 < w <= 64 -> 0 <= z < 2 ^ w -> u64 z mod 2 ^ w = z.
Proof. intros Hw Hz. rewrite u64_id; [by apply Z.mod_small|]. unfold is_u64. pose proof (Z.pow_le_mono_r 2 w 64). lia. Qed.

Lemma wrap_s_u64 w z : 0 < w <= 64 -> - 2 ^ (w - 1) <= z < 2 ^ (w - 1) -> wrap_s w (u64 z) = z.
Proof.
  intros Hw Hz. unfold wrap_s, u64, wrap_u. assert (Hp : 2 ^ w = 2 * 2 ^ (w - 1)) by (rewrite <-Z.pow_succ_r by lia; f_equal; lia).
  assert (Hd : 2 ^ 64 = 2 ^ (64 - w) * 2 ^ w) by (rewrite <-Z.pow_add_r by lia; f_equal; lia). pose proof (Z.pow_pos_nonneg 2 (w - 1)).
  rewrite Z.add_mod by lia. rewrite Hd, (Z.mul_comm (2 ^ (64 - w))), Z.rem_mul_r by (pose proof (Z.pow_pos_nonneg 2 (64 - w)); lia).
  rewrite (Z.mul_comm (2 ^ w) (_ mod _)), Z_mod_plus_full, Z.mod_mod, <-Z.add_mod by lia. rewrite Z.mod_small; lia.
Qed.

(** *** The fields one after the other *)
Lemma set_field_at sch1 sch2 vs1 vs2 n k v x v' : length sch1 = length vs1 -> n ∉ map fst sch1 -> update k v x = Some v' ->
  set_field (sch1 ++ (n, k) :: sch2) (vs1 ++ v :: vs2) n x = Some (vs1 ++ v' :: vs2).
Proof.
  intros Hl Hn Hu. revert vs1 Hl. induction sch1 as [|[m km] sch1 IH]; intros [|w vs1] Hl; try done; cbn in *.
  - by rewrite Z.eqb_refl, Hu.
  - rewrite (proj2 (Z.eqb_neq m n)) by set_solver. rewrite IH; [done|set_solver|lia].
Qed.

(** From [acc] and [s] the reader gets to [acc'] and [s'], whatever fuel it has. *)
Definition reads (sch : schema) (acc : list val) (s : list Byte.byte) (acc' : list val) (s' : list Byte.byte) : Prop :=
  forall fuel, (length s <= fuel)%nat -> exists fuel', (length s' <= fuel')%nat /\ read_fields fuel sch acc s = read_fields fuel' sch acc' s'.

Lemma reads_refl sch acc s : reads sch acc s acc s.
Proof. intros fuel Hf. by exists fuel. Qed.

Lemma reads_trans sch a1 s1 a2 s2 a3 s3 : reads sch a1 s1 a2 s2 -> reads sch a2 s2 a3 s3 -> reads sch a1 s1 a3 s3.
Proof. intros H1 H2 fuel Hf. destruct (H1 fuel Hf) as (f1 & Hf1 & ->). exact (H2 f1 Hf1). Qed.

Lemma reads_step sch acc p s n x acc' : p <> [] -> consume_field (p ++ s) = Some (n, x, s) -> set_field sch acc n x = Some acc' -> reads sch acc (p ++ s) acc' s.
Proof.
  intros Hp Hc Hs [|fuel] Hf; (destruct p as [|b p]; [done|]); cbn in Hf; [lia|]. exists fuel. rewrite length_app in Hf. split; [lia|].
  cbn [read_fields app] in *. by rewrite Hc, Hs.
Qed.

Lemma tag_nonempty n wt r : tag n wt ++ r <> [].
Proof. unfold tag. pose proof (varint_nonempty (n * 8 + wt)). by destruct (varint _). Qed.

Section Field.
Context (sch1 sch2 : schema) (vs1 zs : list val) (n : Z) (k : kind).
Context (Hlen : length sch1 = length vs1) (Hnew : n ∉ map fst sch1) (Hnum : field_num n).
Abbreviation reads_at old s new s' := (reads (sch1 ++ (n, k) :: sch2) (vs1 ++ old :: zs) s (vs1 ++ new :: zs) s').

Lemma reads_scalar old z new s : update k old (WVarint (u64 z)) = Some new -> reads_at old ((tag n 0 ++ varint (u64 z)) ++ s) new s.
Proof.
  intros Hu. apply (reads_step _ _ _ _ n (WVarint (u64 z))); [apply tag_nonempty|rewrite <-app_assoc; by apply scalar_read|by apply set_field_at].
Qed.

Lemma reads_delimited old bz new s : update k old (WBytes bz) = Some new -> reads_at old (delimited n bz ++ s) new s.
Proof. intros Hu. apply (reads_step _ _ _ _ n (WBytes bz)); [apply tag_nonempty|by apply delimited_read|by apply set_field_at]. Qed.

Lemma reads_repeated l l0 s : k = KRepBytes -> reads_at (VL l0) (concat (map (delimited n) l) ++ s) (VL (l0 ++ l)) s.
Proof.
  intros Hk. revert l0. induction l as [|bz l IH]; intros l0; cbn [map concat]; [rewrite app_nil_r; apply reads_refl|].
  rewrite <-app_assoc. eapply reads_trans; [apply reads_delimited; by rewrite Hk|]. replace (l0 ++ bz :: l) with ((l0 ++ [bz]) ++ l) by by rewrite <-app_assoc. apply IH.
Qed.

(** A field gets the value that was written, from its zero. *)
Lemma reads_field v s : val_ok k v -> reads_at (zero_val k) (write_field n v ++ s) v s.
Proof.
  intros Hv. destruct k as [w|w| | |] eqn:Hk, v as [z|bz|l]; try done; cbn [write_field zero_val].
  - destruct (Z.eqb_spec z 0) as [->|Hz]; [apply reads_refl|]. destruct Hv as [Hw Hz']. rewrite <-Hk. apply reads_scalar. rewrite Hk. cbn. by rewrite wrap_uint.
  - destruct (Z.eqb_spec z 0) as [->|Hz]; [apply reads_refl|]. destruct Hv as [Hw Hz']. rewrite <-Hk. apply reads_scalar. rewrite Hk. cbn. by rewrite wrap_s_u64.
  - destruct bz as [|b bz]; [apply reads_refl|]. rewrite <-Hk. apply reads_delimited. by rewrite Hk.
  - destruct bz as [|b bz]; [apply reads_refl|]. rewrite <-Hk. apply reads_delimited. rewrite Hk. cbn [update]. by rewrite Hv.
  - rewrite <-Hk. by apply (reads_repeated l []).
Qed.
End Field.

#[export] Instance field_num_dec n : Decision (field_num n).
Proof. unfold field_num. apply _. Defined.
Definition schema_ok (sch : schema) : Prop := NoDup (map fst sch) /\ Forall (fun f => field_num f.1) sch.
Definition vals_ok (sch : schema) (vs : list val) : Prop := Forall2 (fun f v => val_ok f.2 v) sch vs.

Lemma reads_fields sch1 sch2 vs1 vs2 : schema_ok (sch1 ++ sch2) -> length sch1 = length vs1 -> vals_ok sch2 vs2 ->
  reads (sch1 ++ sch2) (vs1 ++ map (fun f => zero_val f.2) sch2) (write_fields sch2 vs2) (vs1 ++ vs2) [].
Proof.
  intros Hs Hl Hv. revert sch1 vs1 Hs Hl. induction Hv as [|[n k] v sch2 vs2 Hv _ IH]; intros sch1 vs1 Hs Hl; [apply reads_refl|].
  cbn [write_fields map snd]. eapply reads_trans.
  - destruct Hs as [Hnd Hnums]. rewrite map_app in Hnd. cbn in Hnd. apply list.NoDup_app in Hnd as (_ & Hd & _). apply list.Forall_app in Hnums as [_ Hnums]. apply list.Forall_cons in Hnums as [Hn _].
    apply (reads_field sch1 sch2 vs1 _ n k); [done| |done|done]. intros Hin. apply (Hd n Hin). apply list_elem_of_here.
  - specialize (IH (sch1 ++ [(n, k)]) (vs1 ++ [v])). rewrite <-!app_assoc in IH. apply IH; [done|]. rewrite !length_app. cbn. lia.
Qed.

Theorem wire_roundtrip sch vs bz : schema_ok sch -> vals_ok sch vs -> wire_Marshal sch vs = inr bz -> wire_Unmarshal sch bz = inr vs.
Proof.
  intros Hs Hv. unfold wire_Marshal. destruct (texts_ok sch vs); [|done]. intros [= <-]. unfold wire_Unmarshal.
  destruct (reads_fields [] sch [] vs Hs eq_refl Hv _ (le_n _)) as (fuel & _ & Hr). cbn [app] in Hr. rewrite Hr. by destruct fuel.
Qed.

Lemma vals_texts sch vs : vals_ok sch vs -> texts_ok sch vs = true.
Proof.
  intros Hv. induction Hv as [|[n k] v sch vs Hv _ IH]; [done|]. cbn [texts_ok]. rewrite IH, andb_true_r. by destruct k, v.
Qed.

(** ** Messages *)

(** Values of the Go types; that texts are UTF-8 is checked when they are written. *)
Definition val_typed (k : kind) (v : val) : Prop := match k, v with KString, VB _ => True | _, _ => val_ok k v end.
Definition vals_typed (sch : schema) (vs : list val) : Prop := Forall2 (fun f v => val_typed f.2 v) sch vs.

Lemma typed_ok sch vs : vals_typed sch vs -> texts_ok sch vs = true -> vals_ok sch vs.
Proof.
  intros Ht. induction Ht as [|[n k] v sch vs Hv _ IH]; [constructor|]. cbn [texts_ok]. intros [Hk Hr]%andb_prop. constructor; [|by apply IH]. by destruct k, v.
Qed.

(** A generated struct: its schema and its fields as values. *)
Class ProtoMessage (M : Type) := {
  proto_schema : schema;
  to_vals : M -> list val;
  of_vals : list val -> M;
}.
Class ProtoLaws (M : Type) {P : ProtoMessage M} (range : M -> Prop) : Prop := {
  proto_schema_ok : schema_ok proto_schema;
  of_to_vals : forall m, of_vals (to_vals m) = m;
  to_vals_typed : forall m, range m -> vals_typed proto_schema (to_vals m);
}.
#[export] Instance proto_codec {M} {P : ProtoMessage M} : Codec M := {|
  codec_Marshal m := wire_Marshal proto_schema (to_vals m);
  codec_Unmarshal bz := match wire_Unmarshal proto_schema bz with inl e => inl e | inr vs => inr (of_vals vs) end;
|}.

(** The message of a struct is read back as it was. *)
#[export] Instance proto_codec_laws {M} {P : ProtoMessage M} range {L : ProtoLaws M range} : CodecLaws M range.
Proof.
  constructor. intros m bz Hr Hm. cbn in *. destruct (texts_ok proto_schema (to_vals m)) eqn:Ht; [|unfold wire_Marshal in Hm; by rewrite Ht in Hm].
  rewrite (wire_roundtrip _ (to_vals m) bz); [by rewrite of_to_vals|apply proto_schema_ok|apply typed_ok; [by apply to_vals_typed|done]|done].
Qed.

Lemma proto_codec_total {M} {P : ProtoMessage M} (valid : M -> Prop) : (forall m, valid m -> texts_ok proto_schema (to_vals m) = true) -> CodecTotal M valid.
Proof. intros H. constructor. intros m Hm. cbn. unfold wire_Marshal. rewrite H by done. by eexists. Qed.

(** The fields of a message that was read. *)
Definition getZ (i : nat) (vs : list val) : Z := match nth_error vs i with Some (VZ z) => z | _ => 0 end.
Definition getB (i : nat) (vs : list val) : list Byte.byte := match nth_error vs i with Some (VB bz) => bz | _ => [] end.
Definition getS (i : nat) (vs : list val) : string := String.string_of_list_byte (getB i vs).
Definition getL (i : nat) (vs : list val) : list (list Byte.byte) := match nth_error vs i with Some (VL l) => l | _ => [] end.
Definition VS (s : string) : val := VB (String.list_byte_of_string s).

Lemma getS_at i vs s : nth_error vs i = Some (VS s) -> getS i vs = s.
Proof. intros H. unfold getS, getB. rewrite H. apply String.string_of_list_byte_of_string. Qed.

Arguments getS _ _ : simpl never.
Arguments VS _ : simpl never.

Ltac solve_schema := split; apply (bool_decide_unpack _); vm_compute; exact I.
Ltac solve_typed := unfold is_u32, is_u64, is_i64, is_i32 in *; unfold vals_typed; cbn; repeat match goal with |- Forall2 _ _ _ => constructor end; cbn; first [exact I|lia].
Ltac solve_message := constructor; [solve_schema|intros []; cbn; f_equal; by apply getS_at|intros m Hr; solve_typed].

(** *** [account.pb.go] *)
#[export] Instance AcctProto_message : ProtoMessage AcctProto := {|
  proto_schema := [(1, KBytes); (2, KString); (3, KUint 64); (4, KBytes); (5, KBytes); (6, KString)];
  to_vals m := [VB (pa_Address m); VS (pa_Name m); VZ (pa_Nonce m); VB (pa_XBalance m); VB (pa_XCode m); VS (pa_DocUrl m)];
  of_vals v := mkAcctProto (getB 0 v) (getS 1 v) (getZ 2 v) (getB 3 v) (getB 4 v) (getS 5 v);
|}.
#[export] Instance AcctProto_laws : ProtoLaws AcctProto acct_proto_range.
Proof. unfold acct_proto_range. solve_message. Qed.
#[export] Instance AcctProto_total : CodecTotal AcctProto (acct_proto_valid utf8).
Proof. apply proto_codec_total. intros m (_ & Hn & Hd). unfold utf8 in *. cbn [proto_schema AcctProto_message to_vals texts_ok]. unfold VS. cbn [text_ok]. by rewrite Hn, Hd. Qed.

(** *** [reward.pb.go] *)
#[export] Instance RewardProto_message : ProtoMessage RewardProto := {|
  proto_schema := [(1, KBytes); (2, KBytes); (3, KBytes); (4, KBytes); (5, KBytes); (6, KInt 64)];
  to_vals m := [VB (pw_Address m); VB (pw_XIssued m); VB (pw_XWithdrawn m); VB (pw_XSlashed m); VB (pw_XCumulated m); VZ (pw_Height m)];
  of_vals v := mkRewardProto (getB 0 v) (getB 1 v) (getB 2 v) (getB 3 v) (getB 4 v) (getZ 5 v);
|}.
#[export] Instance RewardProto_laws : ProtoLaws RewardProto reward_proto_range.
Proof. unfold reward_proto_range. solve_message. Qed.
#[export] Instance RewardProto_total : CodecTotal RewardProto reward_proto_range.
Proof. by apply proto_codec_total. Qed.

(** *** [trx.pb.go] *)
#[export] Instance TrxProto_message : ProtoMessage TrxProto := {|
  proto_schema := [(1, KUint 32); (2, KInt 64); (3, KUint 64); (4, KBytes); (5, KBytes); (6, KBytes); (7, KUint 64); (8, KBytes); (9, KInt 32); (10, KBytes); (11, KBytes)];
  to_vals m := [VZ (px_Version m); VZ (px_Time m); VZ (px_Nonce m); VB (px_From m); VB (px_To m); VB (px_XAmount m); VZ (px_Gas m); VB (px_XGasPrice m); VZ (px_Type m); VB (px_XPayload m); VB (px_Sig m)];
  of_vals v := mkTrxProto (getZ 0 v) (getZ 1 v) (getZ 2 v) (getB 3 v) (getB 4 v) (getB 5 v) (getZ 6 v) (getB 7 v) (getZ 8 v) (getB 9 v) (getB 10 v);
|}.
#[export] Instance TrxProto_laws : ProtoLaws TrxProto trx_proto_range.
Proof. unfold trx_proto_range. solve_message. Qed.

#[export] Instance UnstakingProto_message : ProtoMessage TrxPayloadUnstakingProto := {|
  proto_schema := [(1, KBytes)]; to_vals m := [VB (pu_TxHash m)]; of_vals v := mkUnstakingProto (getB 0 v);
|}.
#[export] Instance UnstakingProto_laws : ProtoLaws TrxPayloadUnstakingProto (fun _ => True).
Proof. solve_message. Qed.
#[export] Instance WithdrawProto_message : ProtoMessage TrxPayloadWithdrawProto := {|
  proto_schema := [(1, KBytes)]; to_vals m := [VB (pw_XReqAmt m)]; of_vals v := mkWithdrawProto (getB 0 v);
|}.
#[export] Instance WithdrawProto_laws : ProtoLaws TrxPayloadWithdrawProto (fun _ => True).
Proof. solve_message. Qed.
#[export] Instance ContractProto_message : ProtoMessage TrxPayloadContractProto := {|
  proto_schema := [(1, KBytes)]; to_vals m := [VB (pc_XData m)]; of_vals v := mkContractProto (getB 0 v);
|}.
#[export] Instance ContractProto_laws : ProtoLaws TrxPayloadContractProto (fun _ => True).
Proof. solve_message. Qed.
(** Fields are written in the order of their numbers. *)
#[export] Instance ProposalProto_message : ProtoMessage TrxPayloadProposalProto := {|
  proto_schema := [(1, KString); (2, KInt 64); (3, KInt 64); (4, KInt 32); (5, KRepBytes); (6, KInt 64)];
  to_vals m := [VS (pr_Message m); VZ (pr_StartVotingHeight m); VZ (pr_VotingBlocks m); VZ (pr_OptType m); VL (pr_Options m); VZ (pr_ApplyingHeight m)];
  of_vals v := mkProposalProto (getS 0 v) (getZ 1 v) (getZ 2 v) (getZ 5 v) (getZ 3 v) (getL 4 v);
|}.
#[export] Instance ProposalProto_laws : ProtoLaws TrxPayloadProposalProto proposal_proto_range.
Proof. unfold proposal_proto_range. solve_message. Qed.
#[export] Instance VotingProto_message : ProtoMessage TrxPayloadVotingProto := {|
  proto_schema := [(1, KBytes); (2, KInt 32)]; to_vals m := [VB (pv_TxHash m); VZ (pv_Choice m)]; of_vals v := mkVotingProto (getB 0 v) (getZ 1 v);
|}.
#[export] Instance VotingProto_laws : ProtoLaws TrxPayloadVotingProto voting_proto_range.
Proof. unfold voting_proto_range. solve_message. Qed.
#[export] Instance SetDocProto_message : ProtoMessage TrxPayloadSetDocProto := {|
  proto_schema := [(1, KString); (2, KString)]; to_vals m := [VS (ps_Name m); VS (ps_Url m)]; of_vals v := mkSetDocProto (getS 0 v) (getS 1 v);
|}.
#[export] Instance SetDocProto_laws : ProtoLaws TrxPayloadSetDocProto (fun _ => True).
Proof. solve_message. Qed.

(** *** [gov_params.pb.go] *)
#[export] Instance GovParamsProto_message : ProtoMessage GovParamsProto := {|
  proto_schema := [(1, KInt 64); (2, KInt 64); (3, KBytes); (4, KBytes); (5, KInt 64); (6, KInt 64); (7, KUint 64); (8, KUint 64); (9, KUint 64); (10, KInt 64); (11, KInt 64);
    (12, KInt 64); (13, KInt 64); (14, KInt 64); (15, KInt 64); (16, KBytes); (17, KInt 64); (18, KInt 64); (19, KBytes)];
  to_vals m := [VZ (pb_Version m); VZ (pb_MaxValidatorCnt m); VB (pb_XGasPrice m); VB (pb_XRewardPerPower m); VZ (pb_LazyRewardBlocks m); VZ (pb_LazyApplyingBlocks m); VZ (pb_MinTrxGas m);
    VZ (pb_MaxTrxGas m); VZ (pb_MaxBlockGas m); VZ (pb_MinVotingPeriodBlocks m); VZ (pb_MaxVotingPeriodBlocks m); VZ (pb_MinSelfStakeRatio m); VZ (pb_MaxUpdatableStakeRatio m);
    VZ (pb_MaxIndividualStakeRatio m); VZ (pb_SlashRatio m); VB (pb_XMinValidatorStake m); VZ (pb_SignedBlocksWindow m); VZ (pb_MinSignedBlocks m); VB (pb_XMinDelegatorStake m)];
  of_vals v := {|
    pb_Version := getZ 0 v; pb_MaxValidatorCnt := getZ 1 v; pb_XGasPrice := getB 2 v; pb_XRewardPerPower := getB 3 v; pb_LazyRewardBlocks := getZ 4 v; pb_LazyApplyingBlocks := getZ 5 v;
    pb_MinTrxGas := getZ 6 v; pb_MaxTrxGas := getZ 7 v; pb_MaxBlockGas := getZ 8 v; pb_MinVotingPeriodBlocks := getZ 9 v; pb_MaxVotingPeriodBlocks := getZ 10 v; pb_MinSelfStakeRatio := getZ 11 v;
    pb_MaxUpdatableStakeRatio := getZ 12 v; pb_MaxIndividualStakeRatio := getZ 13 v; pb_SlashRatio := getZ 14 v; pb_XMinValidatorStake := getB 15 v; pb_SignedBlocksWindow := getZ 16 v;
    pb_MinSignedBlocks := getZ 17 v; pb_XMinDelegatorStake := getB 18 v;
  |};
|}.
Definition params_proto_range (m : GovParamsProto) : Prop :=
  Forall is_i64 [pb_Version m; pb_MaxValidatorCnt m; pb_LazyRewardBlocks m; pb_LazyApplyingBlocks m; pb_MinVotingPeriodBlocks m; pb_MaxVotingPeriodBlocks m; pb_MinSelfStakeRatio m;
    pb_MaxUpdatableStakeRatio m; pb_MaxIndividualStakeRatio m; pb_SlashRatio m; pb_SignedBlocksWindow m; pb_MinSignedBlocks m] /\
  Forall is_u64 [pb_MinTrxGas m; pb_MaxTrxGas m; pb_MaxBlockGas m].
#[export] Instance GovParamsProto_laws : ProtoLaws GovParamsProto params_proto_range.
Proof. unfold params_proto_range. constructor; [solve_schema|by intros []|]. intros m [Hi Hu]. rewrite !list.Forall_cons in Hi. rewrite !list.Forall_cons in Hu. solve_typed. Qed.

(** Only texts can be refused. *)
#[export] Instance GovParamsProto_total : CodecTotal GovParamsProto (fun _ => True).
Proof. by apply proto_codec_total. Qed.
#[export] Instance ProposalProto_total : CodecTotal TrxPayloadProposalProto (fun m => utf8 (pr_Message m)).
Proof. apply proto_codec_total. intros m Ht. cbn [proto_schema ProposalProto_message to_vals texts_ok]. unfold VS. cbn [text_ok]. unfold utf8 in Ht. by rewrite Ht. Qed.
#[export] Instance SetDocProto_total : CodecTotal TrxPayloadSetDocProto (fun m => utf8 (ps_Name m) /\ utf8 (ps_Url m)).
Proof. apply proto_codec_total. intros m [Hn Hu]. cbn [proto_schema SetDocProto_message to_vals texts_ok]. unfold VS. cbn [text_ok]. unfold utf8 in *. by rewrite Hn, Hu. Qed.

(** ** The records of the program on the wire *)
Lemma params_pb_range g pm : gov_range g -> toProto g = Ret pm -> params_proto_range pm.
Proof.
  intros Hr. unfold toProto. destruct (minValidatorStake g), (minDelegatorStake g), (rewardPerPower g), (gasPrice g); try done. intros [= <-].
  unfold gov_range in Hr. split; repeat (apply list.Forall_cons; split); cbn; tauto || constructor.
Qed.

Lemma params_decode_encode g : gov_range g -> gov_set g -> exists bz, GovParams_Encode g = Ret bz /\ DecodeGovParams bz = Ret g.
Proof.
  intros Hr Hs. unfold GovParams_Encode, DecodeGovParams, GovParams_Decode. destruct (toProto g) as [pm| |] eqn:E.
  - destruct (codec_total pm I) as [bz Hb]. exists bz. rewrite Hb. split; [done|].
    rewrite (codec_roundtrip pm _ (params_pb_range g pm Hr E) Hb). f_equal. by apply (proto_roundtrip g pm).
  - unfold toProto in E. by destruct (minValidatorStake g), (minDelegatorStake g), (rewardPerPower g), (gasPrice g).
  - unfold gov_set in Hs. destruct_and! Hs. unfold toProto in E. repeat match goal with H : is_Some ?x |- _ => destruct H as [? H]; rewrite H in E end. done.
Qed.

Definition payload_texts (p : ITrxPayload) : Prop :=
  match p with PayloadProposal p => utf8 (pp_Message p) | PayloadSetDoc n u => utf8 n /\ utf8 u | _ => True end.

Lemma payload_written p : payload_texts p -> exists bz, payload_Encode p = Ret bz.
Proof.
  destruct p as [| |h|a|p|h c|d|n u]; cbn [payload_Encode payload_texts]; [by eexists..| | | |]; intros Ht; try by eexists.
  - unfold encode_Proposal. match goal with |- context [codec_Marshal ?m] => destruct (codec_total m Ht) as [bz Hb] end. rewrite Hb. by eexists.
  - unfold encode_SetDoc. match goal with |- context [codec_Marshal ?m] => destruct (codec_total m Ht) as [bz Hb] end. rewrite Hb. by eexists.
Qed.
Lemma trx_written tx : (forall p, tx_Payload tx = Some p -> payload_texts p) -> exists bz, Trx_Encode tx = Ret bz.
Proof.
  intros Ht. unfold Trx_Encode, Trx_toProto. destruct (tx_Payload tx) as [p|]; [|by eexists]. destruct (payload_written p (Ht p eq_refl)) as [bz ->]. by eexists.
Qed.

(** C40: what nodes exchange and store in protobuf survives the wire format that
    the generated code declares.  Every transaction in range, with the payload of
    its type and texts in UTF-8, is encoded and decoded to the same transaction
    (the empty payload of transfers and stakings is dropped); every account,
    every reward record and every set of parameters that is in range is encoded
    and read back as it was. *)
Theorem records_survive_wire :
  (forall tx, trx_range tx -> trx_typed tx -> (forall p, tx_Payload tx = Some p -> payload_texts p) ->
     exists bz, Trx_Encode tx = Ret bz /\ Trx_Decode bz = Ret (canonical tx)) /\
  (forall a, acct_ok utf8 a -> exists bz, Account_Encode a = Ret bz /\ Account_Decode bz = Ret a) /\
  (forall r, reward_ok r -> exists bz, Reward_Encode r = Ret bz /\ Reward_Decode bz = Ret r) /\
  (forall g, gov_range g -> gov_set g -> exists bz, GovParams_Encode g = Ret bz /\ DecodeGovParams bz = Ret g).
Proof.
  split_and!.
  - intros tx Hr Ht Hp. destruct (trx_written tx Hp) as [bz He]. exists bz. split; [done|]. by apply trx_decode_encode.
  - intros a Ha. destruct (encode_total (LedgerItemLaws := account_item_laws utf8) a Ha) as [bz He]. exists bz. split; [done|]. exact (decode_encode a bz Ha He).
  - intros r Hr. destruct (encode_total (LedgerItemLaws := reward_item_laws) r Hr) as [bz He]. exists bz. split; [done|]. exact (decode_encode r bz Hr He).
  - apply params_decode_encode.
Qed.

Lemma records_survive_wire_witness :
  (exists bz, Trx_Encode votingTrx = Ret bz /\ Trx_Decode bz = Ret votingTrx) /\
  (exists bz, Account_Encode (NewAccount (replicate 20 Byte.x07)) = Ret bz /\ Account_Decode bz = Ret (NewAccount (replicate 20 Byte.x07))) /\
  (exists bz, GovParams_Encode DefaultGovParams = Ret bz /\ DecodeGovParams bz = Ret DefaultGovParams).
Proof.
  destruct records_survive_wire as (Ht & Ha & _ & Hg). split_and!.
  - apply (Ht votingTrx); [exact votingTrx_range|reflexivity|]. intros p Hp. injection Hp as <-. exact I.
  - apply Ha. by apply new_account_ok.
  - apply Hg; [exact default_range|]. unfold gov_set. split_and!; by eexists.
Defined.
