(* ===== verification/Issuing.v ===== *)
(** * Rewards for a signed vote

    What a validator that has signed the last block brings its delegators: every
    stake that stood behind it four blocks ago earns its reward.  BeginBlock.v
    puts the votes of a block together. *)

From Stdlib Require Import Strings.Byte.
From S2P Require Import Prelude Xerrors GoSem Bytes Ledger LedgerSpec LedgerClient LedgerProps Concrete GovParams Account Trx Context.
From S2P Require Import AcctCtrler AcctProps Stake StakeProps StakeLimiter StakeCtrler GovProps Executor Scene Staking Unfreezing Rewards.

(** What [k] earns with the stakes of a list, at [per] for each power. *)
Definition earning (per : Z) (k : bytes) (s : Stake) : Z := if decide (ToLedgerKey (st_From s) = k) then st_Power s * per else 0.
Definition earned (per : Z) (k : bytes) (l : list Stake) : Z := sumZ (earning per k) l.

Lemma earning_nonneg per k s : 0 <= per -> 0 < st_Power s -> 0 <= earning per k s.
Proof. intros. unfold earning. case_decide; lia. Qed.
Lemma earned_nonneg per k l : 0 <= per -> (forall s, s ∈ l -> 0 < st_Power s) -> 0 <= earned per k l.
Proof. intros Hp Hl. apply sumZ_nonneg. intros s Hs. by apply earning_nonneg, Hl. Qed.

Section Issuing.
Context {Tr : Type} {Tree : Iavl Tr} {View : IavlView Tr} {Laws : IavlLaws Tr} {Total : IavlTotal Tr}.
Context {CA : Codec AcctProto} {CS : Codec Stake} {CD : Codec Delegatee} {CR : Codec RewardProto}.
Context {DL : CodecLaws Delegatee delegatee_range} {DT : CodecTotal Delegatee delegatee_range}.
Context {RL : CodecLaws RewardProto reward_proto_range} {RT : CodecTotal RewardProto reward_proto_range}.
Abbreviation ctrler := (@StakeCtrler Tr).
Abbreviation accounts := (FinalityLedger Account Tr).
Abbreviation delegatees := (FinalityLedger Delegatee Tr).
Abbreviation rewards := (FinalityLedger Reward_ Tr).

Definition cumulated_of (R : rewards) (sd : side) (k : bytes) : Z := match visible R sd k with Some r => rw_cumulated r | None => 0 end.

(** The rewards before a block at height [h]. *)
Record rewards_ready (h : Z) (R : rewards) : Prop := {
  rr_inv : ledger_inv reward_ok R;
  rr_kept : forall sd, removedKeys (mem_of sd R) = [];
  rr_old : forall k r, visible R Deliver k = Some r -> rw_height r <= h;
}.

(** The rewards after the stakes of [l] have earned. *)
Definition paid (h per : Z) (l : list Stake) (R R' : rewards) : Prop :=
  rewards_ready h R' /\ (forall k, cumulated_of R' Deliver k = cumulated_of R Deliver k + earned per k l) /\
  (forall k, visible R' Check k = visible R Check k).

Lemma paid_nil h per R : rewards_ready h R -> paid h per [] R R.
Proof. intros H. split_and!; [done| |done]. intros k. unfold earned. rewrite sumZ_nil. lia. Qed.
Lemma paid_app h per l1 l2 R R1 R2 : paid h per l1 R R1 -> paid h per l2 R1 R2 -> paid h per (l1 ++ l2) R R2.
Proof.
  intros (_ & H1 & C1) (Hr & H2 & C2). split_and!; [done| |]; intros k; [|by rewrite C2].
  rewrite H2, H1. unfold earned. rewrite sumZ_app. lia.
Qed.

Definition issued_to (rwd h : Z) (r : Reward_) : Reward_ :=
  mkReward (rw_address r) (if rw_height r <? h then rwd else u256 (rw_issued r + rwd)) (rw_withdrawn r) (rw_slashed r) (rw_cumulated r + rwd) h.
Lemma issue_exact rwd h r :
  reward_ok r -> 0 <= rwd -> rw_cumulated r + rwd < 2 ^ 256 -> rw_height r <= h -> is_i64 h -> Issue rwd h r = Ret (issued_to rwd h r) /\ reward_ok (issued_to rwd h r).
Proof.
  intros [H1 H2 H3 H4 H5] Hr Hov Hh Hi. unfold is_u256 in *. unfold Issue, at_height, issued_to. rewrite (u256_id (rw_cumulated r + rwd)) by (unfold is_u256; lia).
  destruct (rw_height r <? h) eqn:E.
  - split; [done|]. constructor; cbn; unfold is_u256; (done || lia).
  - rewrite (proj2 (Z.eqb_eq _ _)) by lia. split; [done|]. constructor; cbn; try (unfold is_u256; lia); [apply u256_range|done].
Qed.

(** The object of the owner: the one in the ledger, or a new one. *)
Lemma owner_run addr (c : ctrler) (L : accounts) h :
  let R := sc_rewardLedger c in let k := ToLedgerKey addr in
  rewards_ready h R -> 0 <= h ->
  exists q r R1, ledger_inv reward_ok R1 /\ same_view R R1 /\ handle reward_ok R1 Deliver q r /\ Key r = k /\ rw_height r <= h /\
    rw_cumulated r = cumulated_of R Deliver k /\
    forall B (K : positive -> GoM (ctrler * accounts) B) (K' : XError -> GoM (ctrler * accounts) B),
    (let! e := tryM (on_rewards (get_opt Deliver k)) in
     match e with
     | inl x => K' x
     | inr o => let! q := match o with Some q => retM q | None => on_rewards (alloc (NewReward addr)) end in K q
     end) (c, L) = K q (lset l_rewards R1 c, L).
Proof.
  intros R k [Hi Hk Hh] H0. pose proof (get_opt_spec reward_ok R Deliver k Hi) as Hg. unfold cumulated_of. destruct (visible R Deliver k) as [r|] eqn:Hv.
  - destruct Hg as (q & R1 & Hrun & Hi1 & Hp & Hc & Hkey). exists q, r, R1. split_and!; [done|by apply (preserved_view reward_ok)|by apply cached_handle|done|by eapply Hh|done|].
    intros B K K'. rewrite (bindM_step _ _ _ (inr (Some q)) (lset l_rewards R1 c, L)) by (by apply tryM_ret, on_rewards_run). done.
  - assert (Hok : reward_ok (NewReward addr)) by (constructor; unfold is_u256, is_i64; cbn; lia).
    destruct (alloc_spec reward_ok R Deliver (NewReward addr) Hi Hok) as (q & R1 & Hrun & Hi1 & Hp & Hh1 & _).
    exists q, (NewReward addr), R1. split_and!; [done|by apply (preserved_view reward_ok)|done|done|done|done|].
    intros B K K'. rewrite (bindM_step _ _ _ (inr None) (c, L)) by (apply tryM_ret; rewrite (on_rewards_run _ c L _ _ Hg); by destruct c).
    rewrite (bindM_step _ _ _ q (lset l_rewards R1 c, L)) by (by apply on_rewards_run). done.
Qed.

Lemma reward_stake_run g per h issued s (c : ctrler) (L : accounts) :
  let R := sc_rewardLedger c in let k := ToLedgerKey (st_From s) in
  rewards_ready h R -> 0 <= h -> is_i64 h -> RewardPerPower g = Ret per -> 0 <= per -> 0 < st_Power s < 2 ^ 63 ->
  cumulated_of R Deliver k + st_Power s * per < 2 ^ 256 ->
  exists R', reward_stake g h issued s (c, L) = (Ret (u256 (issued + st_Power s * per)), (lset l_rewards R' c, L)) /\ paid h per [s] R R'.
Proof.
  intros R k Hr H0 Hi Hper Hp Hpow Hov. destruct (owner_run (st_From s) c L h Hr H0) as (q & r & R1 & Hi1 & Hsv & Hh & Hkey & Hold & Hcum & Hrun). fold R in Hsv, Hcum. fold k in Hkey, Hcum, Hrun.
  pose proof Hh as (Hq & Hok & _). assert (Hc0 : is_u256 (rw_cumulated r)) by apply Hok. unfold is_u256 in Hc0. assert (Hrng : 0 <= st_Power s * per < 2 ^ 256) by nia.
  destruct (issue_exact (st_Power s * per) h r Hok ltac:(lia) ltac:(lia) Hold Hi) as [Hiss Hok']. set (r' := issued_to (st_Power s * per) h r) in *.
  pose proof Hsv as (_ & Hrem & _). assert (Hr1 : Key r ∉ removedKeys (mem_of Deliver R1)) by (rewrite Hrem, (rr_kept h R Hr); apply not_elem_of_nil).
  destruct (put_visible reward_ok R1 Deliver q r r' Hi1 Hh Hok' eq_refl Hr1) as (Hi2 & _ & Hrem2 & Hv2).
  assert (Hu : u256 (u64 (st_Power s) * per) = st_Power s * per) by (rewrite (u64_id (st_Power s)) by (unfold is_u64; lia); apply u256_id; unfold is_u256; lia).
  exists (put_state Deliver q r' R1). split.
  - unfold reward_stake. fold k. rewrite Hrun. rewrite (bindM_step _ _ _ per (lset l_rewards R1 c, L)) by (unfold liftO; by rewrite Hper). rewrite Hu.
    pose proof (put_run R1 Deliver q r') as Hput. unfold bindM, store in Hput. set (Rs := set_heap (heap_store q r' (lheap R1)) R1) in *.
    rewrite (bindM_step _ _ _ tt (lset l_rewards Rs c, L)).
    2: { rewrite (on_rewards_run _ _ L (Ret tt) Rs); [done|]. cbn [sc_rewardLedger lset l_rewards]. unfold bindM, load, liftO. rewrite Hq. by rewrite Hiss. }
    rewrite (bindM_step _ _ _ (inr tt) (lset l_rewards (put_state Deliver q r' R1) c, L)) by (apply tryM_ret; by rewrite (on_rewards_run (set_on Deliver q) (lset l_rewards Rs c) L _ _ Hput)).
    done.
  - split_and!.
    + constructor; [done|intros sd; by rewrite Hrem2, Hrem, (rr_kept h R Hr)|]. intros k' x. rewrite Hv2. case_decide; [intros [= <-]; cbn; lia|]. rewrite (same_view_visible R R1) by done. apply (rr_old h R Hr).
    + intros k'. unfold cumulated_of at 1. rewrite Hv2. unfold earned. rewrite sumZ_cons, sumZ_nil. unfold earning. fold k. rewrite Hkey.
      destruct (decide (k = k')) as [<-|Hne]; [rewrite decide_True by done; cbn; lia|]. rewrite decide_False by (intros [_ ?]; congruence).
      rewrite (same_view_visible R R1) by done. unfold cumulated_of. lia.
    + intros k'. rewrite Hv2, decide_False by (intros [? _]; done). by apply same_view_visible.
Qed.

(** The sum that the stakes of a list earn. *)
Definition total_earned (per : Z) (l : list Stake) : Z := sumZ (fun s => st_Power s * per) l.
Lemma total_nonneg per l : 0 <= per -> (forall s, s ∈ l -> 0 < st_Power s) -> 0 <= total_earned per l.
Proof. intros Hp Hl. apply sumZ_nonneg. intros s Hs. pose proof (Hl s Hs). nia. Qed.

Lemma rewards_run g per h l : forall acc (c : ctrler) (L : accounts),
  let R := sc_rewardLedger c in
  rewards_ready h R -> 0 <= h -> is_i64 h -> RewardPerPower g = Ret per -> 0 <= per -> (forall s, s ∈ l -> 0 < st_Power s < 2 ^ 63) ->
  (forall k, cumulated_of R Deliver k + earned per k l < 2 ^ 256) -> 0 <= acc -> acc + total_earned per l < 2 ^ 256 ->
  exists R', foldM (reward_stake g h) l acc (c, L) = (Ret (acc + total_earned per l), (lset l_rewards R' c, L)) /\ paid h per l R R'.
Proof.
  induction l as [|s l IH]; intros acc c L R Hr H0 Hi Hper Hp Hl Hov Ha Hsum.
  - exists R. split; [|by apply paid_nil]. unfold total_earned. cbn [foldM]. rewrite sumZ_nil, Z.add_0_r. by destruct c.
  - unfold total_earned in Hsum. rewrite sumZ_cons in Hsum. assert (Hl' : forall x, x ∈ l -> 0 < st_Power x < 2 ^ 63) by (intros x Hx; apply Hl; by apply elem_of_cons; right).
    pose proof (total_nonneg per l Hp (fun x Hx => proj1 (Hl' x Hx))) as Hn. unfold total_earned in Hn. destruct (Hl s) as [Hs1 Hs2]; [by apply elem_of_cons; left|].
    destruct (reward_stake_run g per h acc s c L Hr H0 Hi Hper Hp (conj Hs1 Hs2)) as (R1 & Hrun & Hpaid).
    { pose proof (Hov (ToLedgerKey (st_From s))) as Hk. unfold earned in Hk. rewrite sumZ_cons in Hk. unfold earning at 1 in Hk. rewrite decide_True in Hk by done.
      pose proof (earned_nonneg per (ToLedgerKey (st_From s)) l Hp (fun x Hx => proj1 (Hl' x Hx))) as He. unfold earned in He. fold R. lia. }
    rewrite u256_id in Hrun by (unfold is_u256; nia). pose proof Hpaid as (Hr1 & Hc1 & _).
    destruct (IH (acc + st_Power s * per) (lset l_rewards R1 c) L) as (R2 & Hrun2 & Hpaid2); try done; try (unfold total_earned; nia).
    { intros k. cbn [sc_rewardLedger lset l_rewards]. rewrite Hc1. specialize (Hov k). unfold earned in Hov |- *. rewrite sumZ_cons in Hov. rewrite sumZ_cons, sumZ_nil. fold R. lia. }
    exists R2. split; [|apply (paid_app h per [s] l R R1 R2 Hpaid Hpaid2)]. cbn [foldM]. rewrite (bindM_step _ _ _ _ _ Hrun). rewrite Hrun2. unfold total_earned. rewrite sumZ_cons.
    by rewrite Z.add_assoc.
Qed.

(** The stakes that a vote rewards: those of the delegatee of four blocks ago, if
    its power is the one the vote was counted with. *)
Definition qualified (D : delegatees) (vote : VoteInfo) : list Stake :=
  match visible D Check (ToLedgerKey (vi_Address vote)) with
  | Some d => if dg_TotalPower d =? vi_Power vote then dg_Stakes d else []
  | None => []
  end.

Lemma qualified_view D D' vote : same_view D D' -> qualified D' vote = qualified D vote.
Proof. intros H. unfold qualified. by rewrite (same_view_visible D D'). Qed.

Lemma qualified_power D vote s : ledger_inv delegatee_ok D -> s ∈ qualified D vote -> 0 < st_Power s < 2 ^ 63.
Proof.
  intros Hi. unfold qualified. destruct (visible D Check _) as [d|] eqn:Hv; [|intros Hs; by apply not_elem_of_nil in Hs].
  destruct (visible_key delegatee_ok D Check _ d Hi Hv) as (_ & [Hw Hr] & _). destruct (_ =? _); [|intros Hs; by apply not_elem_of_nil in Hs].
  intros Hs. pose proof (proj2 (dw_stakes d Hw s Hs)). pose proof (sr_power s (dr_stakes d Hr s Hs)) as Hx. unfold is_i64 in Hx. lia.
Qed.

Lemma reward_vote_run g per h acc vote (D : delegatees) (c : ctrler) (L : accounts) :
  let R := sc_rewardLedger c in let l := qualified D vote in
  ledger_inv delegatee_ok D -> rewards_ready h R -> 0 <= h -> is_i64 h -> RewardPerPower g = Ret per -> 0 <= per ->
  (forall k, cumulated_of R Deliver k + earned per k l < 2 ^ 256) -> 0 <= acc -> acc + total_earned per l < 2 ^ 256 ->
  exists D' R', reward_vote g h (acc, D) vote (c, L) = (Ret (acc + total_earned per l, D'), (lset l_rewards R' c, L)) /\
    ledger_inv delegatee_ok D' /\ same_view D D' /\ paid h per l R R'.
Proof.
  intros R l Hi Hr H0 Hh Hper Hp Hov Ha Hsum. pose proof (find_spec delegatee_ok D Check (ToLedgerKey (vi_Address vote)) Hi) as Hf.
  assert (Hnone : l = [] -> forall D', reward_vote g h (acc, D) vote (c, L) = retM (acc, D') (c, L) -> ledger_inv delegatee_ok D' -> same_view D D' ->
    exists D' R', reward_vote g h (acc, D) vote (c, L) = (Ret (acc + total_earned per l, D'), (lset l_rewards R' c, L)) /\
    ledger_inv delegatee_ok D' /\ same_view D D' /\ paid h per l R R').
  { intros Hl D' Hrun Hi' Hsv. exists D', R. rewrite Hrun, Hl. unfold total_earned. rewrite sumZ_nil, Z.add_0_r. split_and!; [by destruct c|done|done|by apply paid_nil]. }
  assert (Hq : forall s, s ∈ l -> 0 < st_Power s < 2 ^ 63) by (intros s; by apply qualified_power).
  unfold l, qualified in Hnone, Hq |- *. unfold l, qualified in Hov, Hsum. destruct (visible D Check (ToLedgerKey (vi_Address vote))) as [d|].
  - destruct Hf as (p & D' & Hrun & Hi' & Hpr & [Hx _] & _). pose proof (preserved_view delegatee_ok D D' Hi Hpr) as Hsv.
    assert (Hget : (let! p := get_on Check (ToLedgerKey (vi_Address vote)) in load p) D = (Ret d, D')) by (rewrite (bindM_step _ _ _ _ _ Hrun); unfold load; by rewrite Hx).
    destruct (dg_TotalPower d =? vi_Power vote) eqn:Et.
    + destruct (rewards_run g per h (dg_Stakes d) 0 c L Hr H0 Hh Hper Hp Hq Hov ltac:(lia) ltac:(lia)) as (R' & Hrew & Hpaid).
      exists D', R'. split_and!; [|done|done|done]. unfold reward_vote. rewrite Hget, Et. cbn [negb]. unfold doRewardTo.
      rewrite (bindM_step _ _ _ _ _ Hrew). rewrite Z.add_0_l, u256_id; [done|].
      pose proof (total_nonneg per (dg_Stakes d) Hp (fun s Hs => proj1 (Hq s Hs))). unfold is_u256. lia.
    + apply (Hnone eq_refl D'); [|done|done]. unfold reward_vote. by rewrite Hget, Et.
  - apply (Hnone eq_refl D); [|done|done]. unfold reward_vote, bindM at 1. by rewrite Hf.
Qed.

(** ** The candidates of the block *)

(** The delegatees of a committed version with a validator's stake of their own,
    ordered by power. *)
Definition candidates (m : Z) (t : Tr) (all : list Delegatee) : Prop := exists items,
  NoDup (map Key items) /\ (forall d, d ∈ items <-> tree_item t (Key d) = Some d) /\
  all = sort_Sort PowerOrderLess (List.filter (fun d => m <=? dg_SelfPower d) items).

Lemma collect_run g m (c : ctrler) (L : accounts) :
  ledger_inv delegatee_ok (sc_delegateeLedger c) -> min_validator_power g = Ret m ->
  exists all, candidates m (tree (sc_delegateeLedger c)) all /\ collect_delegatees g (c, L) = (Ret tt, (set_all all c, L)).
Proof.
  intros Hi Hm. destruct (iterate_run delegatee_ok (sc_delegateeLedger c) Hi) as (items & Hrun & Hnd & Hin & _).
  { intros d. cbn. unfold Delegatee_Key. apply to_ledger_key_id, length_ledger_key. }
  assert (Hloop : forall l (c0 : ctrler), forM_ l (fun d => let! minPower := liftO (Ret m) in
      if minPower <=? dg_SelfPower d then modify_ctrler (fun c => set_all (sc_allDelegatees c ++ [d]) c) else retM tt) (c0, L) =
      (Ret tt, (set_all (sc_allDelegatees c0 ++ List.filter (fun d => m <=? dg_SelfPower d) l) c0, L))).
  { induction l as [|d l IH]; intros c0; [rewrite app_nil_r; by destruct c0|]. cbn [forM_ List.filter]. unfold bindM at 1 2. unfold liftO at 1.
    destruct (m <=? dg_SelfPower d); [|exact (IH c0)]. etransitivity; [exact (IH (set_all (sc_allDelegatees c0 ++ [d]) c0))|].
    cbn [set_all sc_allDelegatees]. by rewrite <- app_assoc. }
  eexists. split; [exists items; split; [exact Hnd|]; split; [exact Hin|reflexivity]|]. unfold collect_delegatees. rewrite Hm.
  rewrite (bindM_step _ _ _ tt (set_all [] c, L)) by done.
  rewrite (bindM_step _ _ _ tt (set_all (List.filter (fun d => m <=? dg_SelfPower d) items) c, L)); [reflexivity|].
  unfold ignoreM. rewrite (Hrun _ (lens_comp lens_fst l_delegatees)) by done. by rewrite Hloop.
Qed.

(** The version of the delegatees that the votes of a block are counted with. *)
Definition height_of_power (h : Z) : Z := if i64 (h - 4) <? 0 then 1 else i64 (h - 4).
End Issuing.
