(* ===== verification/BeginBlock.v ===== *)
(** * The beginning of a block

    [BeginBlock] of the stake controller in full: evidence slashes the named
    validators, signed votes earn rewards, missed votes are recorded, and a
    validator that has missed too many blocks is stopped.  What it does to the
    delegatees is given by two functions on views of the ledger, [punishes] and
    [misses]; the theorem says that the code computes them. *)

From Stdlib Require Import Strings.Byte.
From S2P Require Import Prelude Xerrors GoSem Bytes Ledger LedgerSpec LedgerClient LedgerProps Concrete GovParams Account Trx Context.
From S2P Require Import AcctCtrler AcctProps Stake StakeProps StakeLimiter StakeCtrler GovProps Executor Scene Staking Unfreezing Unstaking Rewards Issuing.

(** ** The record of missed blocks *)

(** The record with one more height, and what is kept of it when the window
    starts at [h0]: the code drops the older heights when there are at least two. *)
Definition recorded (h : Z) (l : list Z) : list Z :=
  match list.last l with Some h' => if h <=? h' then l else l ++ [h] | None => l ++ [h] end.
Definition older (h0 : Z) (l : list Z) : list Z := List.filter (fun h => h <? h0) l.
Definition recent (h0 : Z) (l : list Z) : list Z :=
  if (1 <? length (older h0 l))%nat then List.filter (fun h => h0 <=? h) l else l.

Lemma older_none h0 l : (forall h, h ∈ l -> h0 <= h) -> older h0 l = [] /\ List.filter (fun h => h0 <=? h) l = l.
Proof.
  induction l as [|h l IH]; intros Hl; [done|]. destruct IH as [H1 H2]; [intros x Hx; apply Hl; by apply elem_of_cons; right|].
  assert (h0 <= h) by (apply Hl; by apply elem_of_cons; left). unfold older in *. cbn [List.filter].
  rewrite (proj2 (Z.ltb_ge h h0)), (proj2 (Z.leb_le h0 h)), H1, H2 by lia. done.
Qed.

Lemma increasing_above h0 h l : strictly_increasing (h :: l) -> h0 <= h -> forall x, x ∈ h :: l -> h0 <= x.
Proof.
  intros Hs Hh x Hx. inversion Hs as [|? ? _ Hall]; subst. apply elem_of_cons in Hx as [->|Hx]; [done|].
  rewrite list.Forall_forall in Hall. specialize (Hall x Hx). lia.
Qed.

(** The index up to which the loop drops. *)
Lemma window_index h0 h1 l i count pre :
  strictly_increasing l -> h0 <= h1 ->
  (window_loop h0 h1 l i count pre).2 = match older h0 l with [] => pre | o => i + Z.of_nat (length o) - 1 end.
Proof.
  intros Hs Hle. revert i count pre. induction l as [|h l IH]; intros i count pre; [done|]. cbn [window_loop].
  destruct (h <? h0) eqn:E.
  - rewrite (proj2 (Z.leb_gt h1 h)) by lia. inversion Hs as [|? ? Hs' _]; subst. rewrite IH by done. unfold older. cbn [List.filter]. rewrite E.
    fold (older h0 l). destruct (older h0 l); cbn [length]; lia.
  - destruct (older_none h0 (h :: l)) as [-> _]; [apply increasing_above; [done|lia]|]. destruct (h1 <=? h); [done|].
    inversion Hs as [|? ? Hs' Hall]; subst. rewrite IH by done. destruct (older_none h0 l) as [-> _]; [|done].
    intros x Hx. rewrite list.Forall_forall in Hall. specialize (Hall x Hx). lia.
Qed.

Lemma drop_older h0 l : strictly_increasing l -> drop (length (older h0 l)) l = List.filter (fun h => h0 <=? h) l.
Proof.
  intros Hs. induction l as [|h l IH]; [done|]. destruct (h <? h0) eqn:E.
  - inversion Hs as [|? ? Hs' _]; subst. unfold older. cbn [List.filter]. rewrite E, (proj2 (Z.leb_gt h0 h)) by lia. cbn [length drop]. by apply IH.
  - destruct (older_none h0 (h :: l)) as [-> ->]; [apply increasing_above; [done|lia]|done].
Qed.

Lemma count_exact h0 h1 l :
  strictly_increasing l -> h0 <= h1 ->
  CountInWindow h0 h1 true (mkMarker l) = (Z.of_nat (length (List.filter (in_window h0 h1) l)), mkMarker (recent h0 l)).
Proof.
  intros Hs Hle. unfold CountInWindow. rewrite (proj2 (Z.ltb_ge h1 h0)) by lia. cbn [BlockHeights].
  pose proof (window_count h0 h1 l 0 0 (-1) Hs Hle) as Hc. pose proof (window_index h0 h1 l 0 0 (-1) Hs Hle) as Hi.
  destruct (window_loop h0 h1 l 0 0 (-1)) as [n pre]. cbn [fst snd] in Hc, Hi. rewrite Hc, Z.add_0_l. unfold recent. rewrite <- (drop_older h0 l Hs). rewrite Hi.
  cbn [andb]. destruct (older h0 l) as [|a [|b o]]; [done..|]. cbn [length]. rewrite (proj2 (Z.ltb_lt 0 _)) by lia.
  rewrite (proj2 (Nat.ltb_lt 1 _)) by lia. do 3 f_equal. lia.
Qed.

Lemma recorded_increasing h l : strictly_increasing l -> strictly_increasing (recorded h l).
Proof.
  intros Hs. pose proof (proj1 (block_marker_spec (mkMarker l) Hs) h) as Hm. unfold Mark in Hm. cbn [BlockHeights] in Hm. unfold recorded.
  destruct (list.last l) as [h'|]; [|apply Hm]. destruct (h <=? h'); [done|apply Hm].
Qed.

Lemma filter_increasing (f : Z -> bool) l : strictly_increasing l -> strictly_increasing (List.filter f l).
Proof.
  intros Hs. induction Hs as [|h l Hs IH Hall]; [constructor|]. cbn [List.filter]. destruct (f h); [|done]. constructor; [done|].
  rewrite list.Forall_forall in *. intros x [Hx _]%elem_of_list_filter. by apply Hall.
Qed.
Lemma recent_increasing h0 l : strictly_increasing l -> strictly_increasing (recent h0 l).
Proof. intros Hs. unfold recent. destruct (1 <? _)%nat; [by apply filter_increasing|done]. Qed.

Lemma increasing_length a b l : strictly_increasing l -> (forall x, x ∈ l -> a <= x <= b) -> a <= b + 1 -> Z.of_nat (length l) <= b - a + 1.
Proof.
  intros Hs. revert a. induction Hs as [|h l Hs IH Hall]; intros a Hl Hab; [cbn; lia|]. cbn [length].
  assert (a <= h <= b) by (apply Hl; by apply elem_of_cons; left). assert (Hh : Z.of_nat (length l) <= b - (h + 1) + 1); [|lia].
  apply IH; [|lia]. intros x Hx. rewrite list.Forall_forall in Hall. specialize (Hall x Hx). assert (a <= x <= b) by (apply Hl; by apply elem_of_cons; right). lia.
Qed.

(** ** What the block does to a delegatee *)

Definition window_start (g : GovParams) (h : Z) : Z := Z.max 0 (h - 1 - signedBlocksWindow g).
(** The blocks missed in the window, with the one before height [h]. *)
Definition missed (g : GovParams) (h : Z) (d : Delegatee) : Z :=
  Z.of_nat (length (List.filter (in_window (window_start g h) (h - 1)) (recorded (h - 1) (dg_NotSignedHeights d)))).
Definition after_miss (g : GovParams) (h : Z) (d : Delegatee) : option Delegatee :=
  if signedBlocksWindow g - missed g h d <? minSignedBlocks g then None
  else Some (set_NotSigned (recent (window_start g h) (recorded (h - 1) (dg_NotSignedHeights d))) d).

(** The stakes that keep power are reduced, the others are gone. *)
Definition slash_sum (ratio : Z) (d : Delegatee) : Z := sumZ (slashed_of ratio) (List.filter (hit ratio) (dg_Stakes d)).
Definition slashed (ratio : Z) (d : Delegatee) : Delegatee :=
  let l := map (reduced ratio) (List.filter (hit ratio) (dg_Stakes d)) in
  set_powers (sumZ st_Power (self_stakes l)) (sumZ st_Power l) l d.

(** A view of the delegatees, and its changes. *)
Definition dview : Type := list Byte.byte -> option Delegatee.
Definition vset (k : list Byte.byte) (o : option Delegatee) (v : dview) : dview := fun k' => if decide (k' = k) then o else v k'.

Fixpoint punishes (ratio : Z) (evis : list Evidence) (v : dview) : list StakeEvent * dview :=
  match evis with
  | [] => ([], v)
  | e :: r =>
      let k := ToLedgerKey (ev_Address e) in
      match v k with
      | None => punishes ratio r v
      | Some d =>
          let '(evts, v') := punishes ratio r (vset k (Some (slashed ratio d)) v) in
          (EvPunishment (ev_Address e) (ev_Type e) (ev_Height e) (slash_sum ratio d) :: evts, v')
      end
  end.

(** The stakes that are released, and the delegatees afterwards. *)
Fixpoint misses (g : GovParams) (h : Z) (votes : list VoteInfo) (v : dview) : list Stake * dview :=
  match votes with
  | [] => ([], v)
  | vote :: r =>
      let k := ToLedgerKey (vi_Address vote) in
      match (if vi_SignedLastBlock vote then None else v k) with
      | None => misses g h r v
      | Some d =>
          let '(l, v') := misses g h r (vset k (after_miss g h d) v) in
          (match after_miss g h d with None => dg_Stakes d ++ l | Some _ => l end, v')
      end
  end.

(** What the theorem assumes of a delegatee: stakes have different transaction
    hashes, slashing does not overflow, and the record is increasing. *)
Record sound (d : Delegatee) : Prop := {
  sd_hashes : NoDup (map st_TxHash (dg_Stakes d));
  sd_power : dg_TotalPower d * 100 < 2 ^ 63;
  sd_record : strictly_increasing (dg_NotSignedHeights d);
}.

Lemma filter_hashes (f : Stake -> bool) l : NoDup (map st_TxHash l) -> NoDup (map st_TxHash (List.filter f l)).
Proof.
  induction l as [|s l IH]; [done|]. cbn [map List.filter]. intros [Hn Hd]%list.NoDup_cons. destruct (f s); [|by apply IH]. cbn [map].
  apply list.NoDup_cons. split; [|by apply IH]. intros (y & Hy & [Hin _]%elem_of_list_filter)%list_elem_of_fmap. apply Hn. rewrite Hy. by apply list_elem_of_fmap_2.
Qed.

Lemma slash_exact ratio d :
  delegatee_ok d -> sound d -> 0 <= ratio < 100 ->
  DoSlash ratio d = (slash_sum ratio d, slashed ratio d) /\ delegatee_ok (slashed ratio d) /\ sound (slashed ratio d).
Proof.
  intros [Hw Hr] [Hn Hp Hi] Hrt. pose proof (slash_spec ratio d Hw Hn Hrt Hp) as Hs. destruct (DoSlash ratio d) as [n d'] eqn:E. destruct Hs as (-> & Hst & Hw' & Htot).
  assert (Hd : d' = slashed ratio d).
  { unfold DoSlash, doSlashAll in E. destruct (slash_loop _ _ _) as [[kept rm] t]. injection E as _ <-. destruct Hw' as [_ _ Hself Htotal _]. cbn in Hself, Htotal, Hst.
    unfold slashed, set_powers. by rewrite Hself, Htotal, Hst. }
  subst d'. split; [done|]. pose proof (wf_sums _ Hw') as Hsum.
  assert (H0 : 0 <= slash_sum ratio d + sumZ st_Power (List.filter (fun s => negb (hit ratio s)) (dg_Stakes d))).
  { unfold slash_sum. apply Z.add_nonneg_nonneg; apply sumZ_nonneg.
    - intros s [_ Hs]%elem_of_list_filter. unfold hit in Hs. lia.
    - intros s [Hs _]%elem_of_list_filter. apply (dw_stakes d Hw) in Hs. lia. }
  fold (slash_sum ratio d) in Htot. destruct Hr as [R1 R2 R3 R4 R5 R6]. unfold is_i64 in *. split; [split; [done|constructor]|constructor]; try done; try (unfold is_i64; lia).
  - rewrite Hst. intros s Hs. pose proof (dw_stakes _ Hw' s ltac:(by rewrite Hst)) as [_ Hpos]. apply list_elem_of_fmap in Hs as (s0 & -> & [Hs0 Hh]%elem_of_list_filter).
    destruct (R5 s0 Hs0) as [S1 S2 S3]. constructor; [|done|done]. unfold is_i64, hit in *. cbn in *. lia.
  - rewrite Hst, map_map. by apply filter_hashes.
Qed.

Lemma marked_ok hs d : delegatee_ok d -> (forall h, h ∈ hs -> is_i64 h) -> delegatee_ok (set_NotSigned hs d).
Proof. intros [[W1 W2 W3 W4 W5] [R1 R2 R3 R4 R5 R6]] Hh. by split; constructor. Qed.

Lemma recorded_in h l x : x ∈ recorded h l -> x = h \/ x ∈ l.
Proof. unfold recorded. destruct (list.last l) as [h'|]; [destruct (h <=? h')|]; rewrite ?elem_of_app, ?list_elem_of_singleton; tauto. Qed.
Lemma recent_in h l x : x ∈ recent h l -> x ∈ l.
Proof. unfold recent. destruct (1 <? _)%nat; [|done]. by intros [? _]%elem_of_list_filter. Qed.

(** What the two methods do to the record, without overflow. *)
Lemma miss_exact g h d :
  delegatee_ok d -> strictly_increasing (dg_NotSignedHeights d) -> 0 < h -> is_i64 h -> 0 <= signedBlocksWindow g -> is_i64 (signedBlocksWindow g) ->
  let sh := i64 (h - 1) in let s := i64 (sh - signedBlocksWindow g) in let d1 := set_NotSigned (recorded (h - 1) (dg_NotSignedHeights d)) d in
  match ProcessNotSignedBlock sh d with inr d' => d' | inl _ => d end = d1 /\
  GetNotSignedBlockCount (if s <? 0 then 0 else s) sh d1 = (missed g h d, set_NotSigned (recent (window_start g h) (dg_NotSignedHeights d1)) d1) /\
  i64 (signedBlocksWindow g - missed g h d) = signedBlocksWindow g - missed g h d /\
  delegatee_ok d1 /\ delegatee_ok (set_NotSigned (recent (window_start g h) (dg_NotSignedHeights d1)) d1).
Proof.
  intros Hok Hs Hh Hi Hw Hwi sh s d1. unfold is_i64 in Hi, Hwi. assert (Hsh : sh = h - 1) by (apply i64_id; unfold is_i64; lia).
  assert (Hss : (if s <? 0 then 0 else s) = window_start g h).
  { unfold s, window_start. rewrite Hsh, i64_id by (unfold is_i64; lia). destruct (_ <? 0) eqn:E; lia. }
  rewrite Hss, Hsh. set (l := dg_NotSignedHeights d) in *. pose proof (recorded_increasing (h - 1) l Hs) as Hrec.
  assert (Hws : 0 <= window_start g h <= h - 1) by (unfold window_start; lia).
  assert (Hl : forall x, x ∈ recorded (h - 1) l -> is_i64 x).
  { intros x [->|Hx]%recorded_in; [unfold is_i64; lia|]. by apply (dr_heights d (proj2 Hok)). }
  split_and!.
  - unfold ProcessNotSignedBlock, Mark, d1, recorded. cbn [BlockHeights]. fold l. destruct (list.last l) as [h'|]; [|done]. destruct (h - 1 <=? h') eqn:E; [|done].
    unfold l. by destruct d.
  - unfold GetNotSignedBlockCount. cbn [dg_NotSignedHeights d1 set_NotSigned]. rewrite count_exact by (exact Hrec || lia). done.
  - apply i64_id. unfold missed. fold l. set (n := List.filter _ _).
    assert (Hn : Z.of_nat (length n) <= h - 1 - window_start g h + 1).
    { apply increasing_length; [by apply filter_increasing| |lia]. intros x [_ Hx]%elem_of_list_filter. unfold in_window in Hx. lia. }
    unfold window_start in Hn. unfold is_i64. lia.
  - by apply marked_ok.
  - apply marked_ok; [by apply marked_ok|]. intros x Hx%recent_in. by apply Hl.
Qed.

Section BeginBlock.
Context {Tr : Type} {Tree : Iavl Tr} {View : IavlView Tr} {Laws : IavlLaws Tr} {Total : IavlTotal Tr}.
Context {CA : Codec AcctProto} {CS : Codec Stake} {CD : Codec Delegatee} {CR : Codec RewardProto}.
Context {DL : CodecLaws Delegatee delegatee_range} {DT : CodecTotal Delegatee delegatee_range}.
Context {SL : CodecLaws Stake stake_range} {ST : CodecTotal Stake stake_range}.
Context {RL : CodecLaws RewardProto reward_proto_range} {RT : CodecTotal RewardProto reward_proto_range}.
Abbreviation ctrler := (@StakeCtrler Tr).
Abbreviation accounts := (FinalityLedger Account Tr).
Abbreviation delegatees := (FinalityLedger Delegatee Tr).
Abbreviation frozen := (FinalityLedger Stake Tr).

(** One delegatee of the block has changed. *)
Definition dstep (D D' : delegatees) (k : list Byte.byte) (o : option Delegatee) : Prop :=
  ledger_inv delegatee_ok D' /\ tree D' = tree D /\ forall k', visible D' Deliver k' = vset k o (visible D Deliver) k'.

Lemma dstep_put D D2 p d d' :
  ledger_inv delegatee_ok D2 -> same_view D D2 -> cached D2 Deliver p d -> Key d ∉ removedKeys (mem_of Deliver D2) -> delegatee_ok d' -> dg_Addr d' = dg_Addr d ->
  dstep D (put_state Deliver p d' D2) (Key d) (Some d').
Proof.
  intros Hi Hsv Hc Hr Hok Ha. assert (Hk : Key d' = Key d) by (change (Delegatee_Key d' = Delegatee_Key d); unfold Delegatee_Key; by rewrite Ha).
  destruct (put_visible delegatee_ok D2 Deliver p d d' Hi (cached_handle delegatee_ok D2 Deliver p d Hi Hc) Hok Hk Hr) as (Hi' & Ht & _ & Hv).
  split_and!; [done|by rewrite Ht; apply Hsv|]. intros k'. rewrite Hv. unfold vset. destruct (decide (k' = Key d)) as [->|Hne]; [by rewrite decide_True|].
  rewrite decide_False by (intros [_ ?]; done). by apply same_view_visible.
Qed.

(** The pointer that the block works on. *)
Lemma delegatee_found addr (c : ctrler) (L : accounts) :
  let D := sc_delegateeLedger c in let k := ToLedgerKey addr in
  ledger_inv delegatee_ok D ->
  match visible D Deliver k with
  | None => on_delegatees (get_on Deliver k) (c, L) = (Err ErrNotFoundResult, (c, L))
  | Some d => exists p D2, on_delegatees (get_on Deliver k) (c, L) = (Ret p, (holding D2 (sc_frozenLedger c) c, L)) /\
      ledger_inv delegatee_ok D2 /\ same_view D D2 /\ cached D2 Deliver p d /\ Key d = k /\ Key d ∉ removedKeys (mem_of Deliver D2) /\ delegatee_ok d
  end.
Proof.
  intros D k Hi. pose proof (find_spec delegatee_ok D Deliver k Hi) as Hg. destruct (visible D Deliver k) as [d|] eqn:Hv.
  - destruct Hg as (p & D2 & Hrun & Hi2 & Hp & Hc & Hk). pose proof (preserved_view delegatee_ok D D2 Hi Hp) as Hsv.
    destruct (visible_key delegatee_ok D Deliver k d Hi Hv) as (_ & Hok & Hr). exists p, D2. split_and!; try done.
    + rewrite (on_delegatees_run _ c L _ _ Hrun). by destruct c.
    + rewrite Hk. destruct Hsv as (_ & Hrem & _). by rewrite Hrem.
  - rewrite (on_delegatees_run _ c L _ _ Hg). by destruct c.
Qed.

Lemma punish_run evi ratio (c : ctrler) (L : accounts) :
  let D := sc_delegateeLedger c in let k := ToLedgerKey (ev_Address evi) in
  ledger_inv delegatee_ok D -> (forall d, visible D Deliver k = Some d -> sound d) -> 0 <= ratio < 100 ->
  match visible D Deliver k with
  | None => doPunish evi ratio (c, L) = (Err ErrNotFoundResult, (c, L))
  | Some d => exists D', doPunish evi ratio (c, L) = (Ret (slash_sum ratio d), (holding D' (sc_frozenLedger c) c, L)) /\ dstep D D' k (Some (slashed ratio d))
  end.
Proof.
  intros D k Hi Hso Hr. pose proof (delegatee_found (ev_Address evi) c L Hi) as Hf. fold D k in Hf. unfold doPunish. destruct (visible D Deliver k) as [d|] eqn:Hv.
  - destruct Hf as (p & D2 & Hrun & Hi2 & Hsv & Hc & Hk & Hrem & Hok). pose proof Hc as [Hp _].
    destruct (slash_exact ratio d Hok (Hso d eq_refl) Hr) as (Hsl & Hok' & _). exists (put_state Deliver p (slashed ratio d) D2). split.
    + fold k. rewrite (bindM_step _ _ _ _ _ Hrun). rewrite (bindM_step _ _ _ _ _ (method_run p (DoSlash ratio) d D2 _ c L Hp)). rewrite Hsl. cbn [fst snd].
      rewrite (bindM_step _ _ _ tt (holding (put_state Deliver p (slashed ratio d) D2) (sc_frozenLedger c) c, L)); [done|]. unfold ignoreM.
      rewrite (on_delegatees_run _ _ L (Ret tt) (put_state Deliver p (slashed ratio d) D2)); [done|]. apply (set_on_run (changed p (slashed ratio d) D2)), changed_at.
    + rewrite <- Hk. by apply dstep_put.
  - fold k. unfold bindM. by rewrite Hf.
Qed.

Lemma punish_all_run g evis : forall evts (c : ctrler) (L : accounts) (v : dview),
  ledger_inv delegatee_ok (sc_delegateeLedger c) -> (forall k, visible (sc_delegateeLedger c) Deliver k = v k) -> (forall k d, v k = Some d -> sound d) -> 0 <= slashRatio g < 100 ->
  let '(new, v') := punishes (slashRatio g) evis v in
  exists D', foldM (fun evts evi =>
      let! r := tryM (doPunish evi (slashRatio g)) in
      match r with
      | inl _ => retM evts
      | inr slashed => retM (evts ++ [EvPunishment (ev_Address evi) (ev_Type evi) (ev_Height evi) slashed])
      end) evis evts (c, L) = (Ret (evts ++ new), (holding D' (sc_frozenLedger c) c, L)) /\
    ledger_inv delegatee_ok D' /\ tree D' = tree (sc_delegateeLedger c) /\ (forall k, visible D' Deliver k = v' k) /\ (forall k d, v' k = Some d -> sound d).
Proof.
  induction evis as [|e evis IH]; intros evts c L v Hi Hv Hso Hr; cbn [punishes foldM].
  - exists (sc_delegateeLedger c). rewrite app_nil_r. split_and!; try done. by destruct c.
  - pose proof (punish_run e (slashRatio g) c L Hi ltac:(intros d; rewrite Hv; apply Hso) Hr) as Hp. rewrite Hv in Hp. destruct (v (ToLedgerKey (ev_Address e))) as [d|] eqn:Hd.
    + destruct Hp as (D1 & Hrun & Hi1 & Ht1 & Hv1). specialize (IH (evts ++ [EvPunishment (ev_Address e) (ev_Type e) (ev_Height e) (slash_sum (slashRatio g) d)]) (holding D1 (sc_frozenLedger c) c) L
        (vset (ToLedgerKey (ev_Address e)) (Some (slashed (slashRatio g) d)) v)).
      destruct (punishes _ evis _) as [new v'] eqn:E. destruct IH as (D2 & Hrun2 & Hi2 & Ht2 & Hv2 & Hs2); [done| | |done|].
      * intros k. cbn [sc_delegateeLedger holding lset l_frozen l_delegatees]. rewrite Hv1. unfold vset. case_decide; [done|apply Hv].
      * intros k d'. unfold vset. case_decide; [intros [= <-]|apply Hso].
        apply slash_exact; [|by eapply Hso|done]. by apply (visible_key delegatee_ok _ Deliver _ d Hi ltac:(by rewrite Hv)).
      * exists D2. split_and!; [|done|by rewrite Ht2|done|done].
        rewrite (bindM_step _ _ _ (evts ++ [EvPunishment (ev_Address e) (ev_Type e) (ev_Height e) (slash_sum (slashRatio g) d)]) (holding D1 (sc_frozenLedger c) c, L)).
        -- rewrite Hrun2, <- app_assoc. done.
        -- unfold bindM, tryM. by rewrite Hrun.
    + specialize (IH evts c L v Hi Hv Hso Hr). destruct (punishes _ evis v) as [new v']. destruct IH as (D' & Hrun & HD'). exists D'. split; [|exact HD'].
      rewrite (bindM_step _ _ _ evts (c, L)); [exact Hrun|]. unfold bindM, tryM. by rewrite Hp.
Qed.

Lemma miss_run g h vote (c : ctrler) (L : accounts) :
  let D := sc_delegateeLedger c in let F := sc_frozenLedger c in let k := ToLedgerKey (vi_Address vote) in
  ledger_inv delegatee_ok D -> ledger_inv stake_ok F -> removedKeys (mem_of Deliver F) = [] -> (forall d, visible D Deliver k = Some d -> sound d) ->
  0 < h -> is_i64 h -> 0 <= signedBlocksWindow g -> is_i64 (signedBlocksWindow g) ->
  match visible D Deliver k with
  | None => miss_vote g h vote (c, L) = (Ret tt, (c, L))
  | Some d => exists D' F', miss_vote g h vote (c, L) = (Ret tt, (holding D' F' c, L)) /\ dstep D D' k (after_miss g h d) /\
      froze Deliver (i64 (h + lazyRewardBlocks g)) (match after_miss g h d with None => dg_Stakes d | Some _ => [] end) F F'
  end.
Proof.
  intros D F k Hi HF HrF Hso Hh Hih Hw Hwi. pose proof (delegatee_found (vi_Address vote) c L Hi) as Hf. fold D k in Hf. unfold miss_vote. destruct (visible D Deliver k) as [d|] eqn:Hv.
  2: { rewrite (bindM_step _ _ _ (inl ErrNotFoundResult) (c, L)); [done|]. unfold tryM. fold k. by rewrite Hf. }
  destruct Hf as (p & D2 & Hrun & Hi2 & Hsv & Hc & Hk & Hrem & Hok). pose proof Hc as [Hp _].
  destruct (miss_exact g h d Hok (sd_record d (Hso d eq_refl)) Hh Hih Hw Hwi) as (Hproc & Hcount & Hwrap & Hok1 & Hok2).
  set (d1 := set_NotSigned (recorded (h - 1) (dg_NotSignedHeights d)) d) in *. set (d2 := set_NotSigned (recent (window_start g h) (dg_NotSignedHeights d1)) d1) in *.
  set (D3 := put_state Deliver p d2 D2). pose proof (dstep_put D D2 p d d2 Hi2 Hsv Hc Hrem Hok2 eq_refl) as Hstep. fold D3 in Hstep. rewrite Hk in Hstep.
  assert (Hc3 : cached D3 Deliver p d2).
  { destruct (put_spec delegatee_ok D2 Deliver p d d2 Hi2 (cached_handle delegatee_ok D2 Deliver p d Hi2 Hc) Hok2 eq_refl) as (_ & _ & _ & _ & H). exact H. }
  assert (Hr3 : Key d2 ∉ removedKeys (mem_of Deliver D3)).
  { destruct (put_spec delegatee_ok D2 Deliver p d d2 Hi2 (cached_handle delegatee_ok D2 Deliver p d Hi2 Hc) Hok2 eq_refl) as (_ & _ & H & _). unfold D3. by rewrite H. }
  fold k. rewrite (bindM_step _ _ _ (inr p) (holding D2 F c, L)) by (by apply tryM_ret).
  rewrite (bindM_step _ _ _ _ _ (method_run p _ d D2 F c L Hp)). cbn [fst snd]. rewrite Hproc.
  rewrite (bindM_step _ _ _ tt (holding (put_state Deliver p d1 D2) F c, L)).
  2: { unfold ignoreM. rewrite (on_delegatees_run _ _ L (Ret tt) (put_state Deliver p d1 D2)); [done|]. apply (set_on_run (changed p d1 D2)), changed_at. }
  assert (Hp1 : objs (lheap (put_state Deliver p d1 D2)) !! p = Some d1) by (unfold put_state; rewrite heap_upd; apply lookup_insert_eq).
  rewrite (bindM_step _ _ _ _ _ (method_run p _ d1 _ F c L Hp1)). rewrite Hcount. cbn [fst snd].
  unfold changed at 1. rewrite (put_changed D2 Deliver p d1 d2) by done. fold D3. rewrite Hwrap.
  destruct (signedBlocksWindow g - missed g h d <? minSignedBlocks g) eqn:Hstop.
  - destruct Hstep as (Hi3 & Ht3 & Hv3). assert (Ha : after_miss g h d = None) by (unfold after_miss; by rewrite Hstop). rewrite Ha.
    rewrite (bindM_step _ _ _ (dg_Stakes d) (holding (changed p (DelAllStakes d2).2 D3) F c, L)) by (by rewrite (method_run p DelAllStakes d2 D3 F c L (proj1 Hc3))).
    destruct (freeze_all_run Deliver (i64 (h + lazyRewardBlocks g)) (dg_Stakes d) (holding (changed p (DelAllStakes d2).2 D3) F c) L HF HrF) as (F' & Hfr & Hfz).
    { intros s Hs. split; [by apply (dr_stakes d (proj2 Hok))|]. destruct (dw_stakes d (proj1 Hok) s Hs). lia. }
    { apply i64_range. }
    rewrite (bindM_step _ _ _ _ _ Hfr). rewrite (bindM_step _ _ _ _ _ (load_run p _ (changed p (DelAllStakes d2).2 D3) F' c L (changed_at p _ D3))).
    destruct (drop_changed delegatee_ok D3 p d2 (DelAllStakes d2).2 Hi3 Hc3 Hr3) as (q & D' & Hdel & Hi' & Ht' & Hn & Hv').
    exists D', F'. split_and!; [|split_and!; [done|by rewrite Ht'|]|exact Hfz].
    + unfold ignoreM. rewrite (on_delegatees_run _ _ L (Ret q) D'); [done|]. exact Hdel.
    + intros k'. change (Key d2) with (Key d) in Hn, Hv'. unfold vset. destruct (decide (k' = k)) as [->|Hne]; [by rewrite <- Hk|].
      rewrite Hv' by congruence. rewrite Hv3. unfold vset. by rewrite decide_False.
  - assert (Ha : after_miss g h d = Some d2) by (unfold after_miss; by rewrite Hstop). rewrite Ha. exists D3, F. split_and!; [done|exact Hstep|by apply froze_nil].
Qed.

(** The stakes that the signed votes of a block reward. *)
Definition rewarded (immu : delegatees) (votes : list VoteInfo) : list Stake := concat (map (qualified immu) (List.filter vi_SignedLastBlock votes)).

Lemma rewarded_view D D' votes : same_view D D' -> rewarded D' votes = rewarded D votes.
Proof. intros H. unfold rewarded. f_equal. apply List.map_ext. intros v. by apply qualified_view. Qed.

Lemma rewarded_power D votes s : ledger_inv delegatee_ok D -> s ∈ rewarded D votes -> 0 < st_Power s.
Proof. intros Hi (q & (v' & <- & _)%List.in_map_iff & Hs)%list_elem_of_In%List.in_concat. apply list_elem_of_In in Hs. by apply (qualified_power D v' s Hi). Qed.

(** The delegatees and frozen stakes that the votes start from. *)
Record votes_ready (c : ctrler) (v : dview) : Prop := {
  vr_delegatees : ledger_inv delegatee_ok (sc_delegateeLedger c);
  vr_frozen : ledger_inv stake_ok (sc_frozenLedger c);
  vr_kept : removedKeys (mem_of Deliver (sc_frozenLedger c)) = [];
  vr_view : forall k, visible (sc_delegateeLedger c) Deliver k = v k;
  vr_sound : forall k d, v k = Some d -> sound d;
}.

Lemma miss_ready g h vote d (c : ctrler) D' F' v :
  let k := ToLedgerKey (vi_Address vote) in
  votes_ready c v -> v k = Some d -> dstep (sc_delegateeLedger c) D' k (after_miss g h d) ->
  froze Deliver (i64 (h + lazyRewardBlocks g)) (match after_miss g h d with None => dg_Stakes d | Some _ => [] end) (sc_frozenLedger c) F' ->
  votes_ready (holding D' F' c) (vset k (after_miss g h d) v).
Proof.
  intros k [H1 H2 H3 H4 H5] Hd (Hi & _ & Hv) (HF & Hr & _). constructor; try done.
  - exact (eq_trans Hr H3).
  - intros k'. cbn [sc_delegateeLedger holding lset l_frozen l_delegatees]. rewrite Hv. unfold vset. case_decide; [done|apply H4].
  - intros k' d'. unfold vset. case_decide; [|apply H5]. unfold after_miss. destruct (_ <? _); [done|]. intros [= <-]. destruct (H5 k d Hd) as [S1 S2 S3].
    constructor; [done|done|]. cbn. by apply recent_increasing, recorded_increasing.
Qed.

(** A controller with other ledgers and everything else as it was. *)
Definition with_ledgers (D : delegatees) (F : FinalityLedger Stake Tr) (R : FinalityLedger Reward_ Tr) (c : ctrler) : ctrler :=
  mkStakeCtrler (sc_allDelegatees c) (sc_lastValidators c) D F R (sc_rwdLedgUpInterval c) (sc_lastRwdHash c) (sc_rwdHashDB c) (sc_stakeLimiter c).

Lemma all_votes_run g per h votes : forall acc (immu : delegatees) (c : ctrler) (L : accounts) (v : dview),
  let R := sc_rewardLedger c in let l := rewarded immu votes in
  ledger_inv delegatee_ok immu -> rewards_ready h R -> votes_ready c v -> 0 < h -> is_i64 h -> RewardPerPower g = Ret per -> 0 <= per ->
  0 <= signedBlocksWindow g -> is_i64 (signedBlocksWindow g) ->
  (forall k, cumulated_of R Deliver k + earned per k l < 2 ^ 256) -> 0 <= acc -> acc + total_earned per l < 2 ^ 256 ->
  let '(released, v') := misses g h votes v in
  exists immu' D' F' R', foldM (process_vote g h) votes (acc, immu) (c, L) = (Ret (acc + total_earned per l, immu'), (with_ledgers D' F' R' c, L)) /\
    paid h per l R R' /\ (forall k, visible D' Deliver k = v' k) /\
    froze Deliver (i64 (h + lazyRewardBlocks g)) released (sc_frozenLedger c) F'.
Proof.
  induction votes as [|vote votes IH]; intros acc immu c L v R l Hi Hr Hrdy H0 Hh Hper Hp Hw Hwi Hov Ha Hsum; cbn [misses].
  - exists immu, (sc_delegateeLedger c), (sc_frozenLedger c), R. unfold l, rewarded, total_earned. cbn [foldM map concat List.filter]. rewrite sumZ_nil, Z.add_0_r.
    split_and!; [by destruct c|by apply paid_nil|apply Hrdy|apply froze_nil, Hrdy].
  - cbn [foldM]. unfold process_vote at 1. unfold l, rewarded in Hov, Hsum |- *. cbn [List.filter] in *. clear l. destruct (vi_SignedLastBlock vote) eqn:Hsg.
    + cbn [map concat] in *. fold (rewarded immu votes) in Hov, Hsum |- *. unfold total_earned in Hsum. rewrite sumZ_app in Hsum.
      pose proof (fun s => rewarded_power immu votes s Hi) as Hpow. pose proof (total_nonneg per _ Hp Hpow) as Hn. unfold total_earned in Hn.
      pose proof (total_nonneg per (qualified immu vote) Hp (fun s Hs => proj1 (qualified_power immu vote s Hi Hs))) as Hn1.
      destruct (reward_vote_run g per h acc vote immu c L Hi Hr ltac:(lia) Hh Hper Hp) as (D1 & R1 & Hrun & Hi1 & Hsv & Hpaid); [|done|unfold total_earned; lia|].
      { intros k. specialize (Hov k). unfold earned in Hov |- *. rewrite sumZ_app in Hov. pose proof (earned_nonneg per k _ Hp Hpow) as He. unfold earned in He. fold R. lia. }
      pose proof Hpaid as (Hr1 & Hc1 & _). specialize (IH (acc + total_earned per (qualified immu vote)) D1 (lset l_rewards R1 c) L v). cbn zeta in IH. rewrite (rewarded_view immu D1 votes Hsv) in IH.
      destruct (misses g h votes v) as [released v']. destruct IH as (immu' & D' & F' & R' & Hrun2 & Hpaid2 & Hrest); try done; [by destruct Hrdy| |unfold total_earned in *; lia|unfold total_earned in *; lia|].
      { intros k. cbn [sc_rewardLedger lset l_rewards]. rewrite Hc1. specialize (Hov k). unfold earned in *. rewrite sumZ_app in Hov. fold R. lia. }
      exists immu', D', F', R'. split_and!; [|by apply (paid_app h per _ _ R R1)|apply Hrest..]. rewrite (bindM_step _ _ _ _ _ Hrun). rewrite Hrun2. unfold total_earned. by rewrite sumZ_app, Z.add_assoc.
    + fold (rewarded immu votes) in Hov, Hsum |- *. pose proof Hrdy as [R1 R2 R3 R4 R5].
      pose proof (miss_run g h vote c L R1 R2 R3 ltac:(intros d; rewrite R4; apply R5) H0 Hh Hw Hwi) as Hm. rewrite R4 in Hm. destruct (v (ToLedgerKey (vi_Address vote))) as [d|] eqn:Hd.
      * destruct Hm as (D1 & F1 & Hrun & Hst & Hfz). pose proof (miss_ready g h vote d c D1 F1 v Hrdy Hd Hst Hfz) as Hrdy'.
        specialize (IH acc immu (holding D1 F1 c) L _ Hi Hr Hrdy' H0 Hh Hper Hp Hw Hwi Hov Ha Hsum). destruct (misses g h votes _) as [released v'].
        destruct IH as (immu' & D' & F' & R' & Hrun2 & Hpaid2 & Hv2 & Hfz2). exists immu', D', F', R'. split_and!; [|done|done|].
        -- rewrite (bindM_step _ _ _ (acc, immu) (holding D1 F1 c, L)); [exact Hrun2|]. by rewrite (bindM_step _ _ _ _ _ Hrun).
        -- destruct (after_miss g h d); [exact (froze_app _ _ [] released _ _ _ Hfz Hfz2)|exact (froze_app _ _ _ released _ _ _ Hfz Hfz2)].
      * specialize (IH acc immu c L v Hi Hr Hrdy H0 Hh Hper Hp Hw Hwi Hov Ha Hsum). destruct (misses g h votes v) as [released v'].
        destruct IH as (immu' & D' & F' & R' & Hrun2 & Hrest). exists immu', D', F', R'. split; [|exact Hrest].
        rewrite (bindM_step _ _ _ (acc, immu) (c, L)); [exact Hrun2|]. by rewrite (bindM_step _ _ _ _ _ Hm).
Qed.

(** C7: the beginning of a block.  The candidates for the validator set are
    collected anew, the committed delegatees with enough stake of their own in the
    order of their power, and the limiter is reset to them.  Evidence of
    misbehaviour slashes the named delegatees: every stake loses the ratio, stakes
    that would lose less than one power go, and an event reports what was taken.
    Then exactly the stakes earn that stood four blocks ago behind a validator
    which signed with the power of its vote: the reward of each owner grows by the
    reward per power, and an event reports the sum over these stakes.  A vote that
    is missing is recorded; a validator that signed fewer blocks of the window
    than required is removed, and all its stakes wait for their refund.  All other
    delegatees, frozen stakes and rewards stay, and so do the accounts and the
    rest of the controller.  The events are exactly these, but for a block without
    votes, which reports none: the slashing happens and its events are dropped. *)
Theorem begin_block_spec (g : GovParams) (bctx : BlockContext) (per m : Z) (t : Tr) (c : ctrler) (L : accounts) :
  let h := bc_Height bctx in let votes := bi_Votes (bc_blockInfo bctx) in let R := sc_rewardLedger c in
  let stakes := rewarded (NewFinalityLedger t) votes in
  let '(evts, v1) := punishes (slashRatio g) (bi_ByzantineValidators (bc_blockInfo bctx)) (visible (sc_delegateeLedger c) Deliver) in
  let '(released, v2) := misses g h votes v1 in
  votes_ready c (visible (sc_delegateeLedger c) Deliver) -> rewards_ready h R -> 0 < h -> is_i64 h ->
  RewardPerPower g = Ret per -> 0 <= per -> min_validator_power g = Ret m -> 0 <= slashRatio g < 100 ->
  0 <= signedBlocksWindow g -> is_i64 (signedBlocksWindow g) ->
  iavl_LazyLoadVersion (tree (sc_delegateeLedger c)) (height_of_power h) = inr t -> ledger_inv delegatee_ok (NewFinalityLedger t) ->
  (forall k, cumulated_of R Deliver k + earned per k stakes < 2 ^ 256) -> total_earned per stakes < 2 ^ 256 ->
  exists all D' F' R', candidates m (tree (sc_delegateeLedger c)) all /\
    StakeCtrler_BeginBlock g bctx (c, L) =
      (Ret (match votes with [] => [] | _ => evts ++ [EvReward (total_earned per stakes)] end),
       (mkStakeCtrler all (sc_lastValidators c) D' F' R' (sc_rwdLedgUpInterval c) (sc_lastRwdHash c) (sc_rwdHashDB c)
          (limiter_reset all (maxValidatorCnt g) (maxIndividualStakeRatio g) (maxUpdatableStakeRatio g)), L)) /\
    paid h per stakes R R' /\ (forall k, visible D' Deliver k = v2 k) /\
    froze Deliver (i64 (h + lazyRewardBlocks g)) released (sc_frozenLedger c) F'.
Proof.
  intros h votes R stakes. set (evis := bi_ByzantineValidators _). destruct (punishes _ evis _) as [evts v1] eqn:Ep. destruct (misses g h votes v1) as [released v2] eqn:Em.
  intros [V1 V2 V3 _ V5] HR H0 Hh Hper Hp Hm Hrt Hw Hwi Ht Hi Hov Hsum. destruct (collect_run g m c L V1 Hm) as (all & Hcand & Hall).
  exists all. unfold StakeCtrler_BeginBlock. rewrite (bindM_step _ _ _ _ _ Hall).
  set (c1 := lset l_limiter (limiter_reset all (maxValidatorCnt g) (maxIndividualStakeRatio g) (maxUpdatableStakeRatio g)) (set_all all c)).
  rewrite (bindM_step _ _ _ tt (c1, L)) by done.
  pose proof (punish_all_run g evis [] c1 L (visible (sc_delegateeLedger c) Deliver) V1 (fun _ => eq_refl) V5 Hrt) as Hpun. rewrite Ep in Hpun.
  destruct Hpun as (D1 & Hpun & Hi1 & Ht1 & Hv1 & Hs1). fold evis. rewrite (bindM_step _ _ _ _ _ Hpun). set (c2 := holding D1 (sc_frozenLedger c1) c1) in *.
  pose proof (all_votes_run g per h votes 0 (NewFinalityLedger t) c2 L v1 Hi HR ltac:(by constructor) H0 Hh Hper Hp Hw Hwi Hov ltac:(lia) ltac:(exact Hsum)) as Hrun. rewrite Em in Hrun.
  destruct Hrun as (immu' & D' & F' & R' & Hrun & Hpaid & Hv & Hfz). fold stakes in Hrun, Hpaid. fold votes h.
  exists D', F', R'. split; [done|]. split; [|done].
  clearbody stakes. destruct votes as [|v vs] eqn:Hvs.
  - assert (Hc : c2 = with_ledgers D' F' R' c2) by exact (f_equal (fun x => x.2.1) Hrun).
    change ((Ret (@nil StakeEvent), (c2, L)) = (Ret [], (with_ledgers D' F' R' c2, L))). by rewrite <- Hc.
  - rewrite <- Hvs in *. rewrite (bindM_step _ _ _ (NewFinalityLedger t) (c2, L)).
    + by rewrite (bindM_step _ _ _ _ _ Hrun).
    + rewrite (on_delegatees_run _ c2 L (Ret (NewFinalityLedger t)) D1); [done|]. unfold ImmutableLedgerAt. change (tree (sc_delegateeLedger c2)) with (tree D1).
      rewrite Ht1. change (tree (sc_delegateeLedger c1)) with (tree (sc_delegateeLedger c)). unfold height_of_power in Ht. by rewrite Ht.
Qed.
End BeginBlock.

(** ** Witness: alice has signed, and twice; bob has missed his 28th block *)

Definition valStake : Stake := mkStake aliceAddr aliceAddr (replicate 32 Byte.x07) 1 0 2.
Definition delStake : Stake := mkStake bobAddr aliceAddr (replicate 32 Byte.x08) 1 0 5.
Definition awayStake : Stake := mkStake bobAddr bobAddr (replicate 32 Byte.x09) 1 0 3.
Definition signer : Delegatee := mkDelegatee aliceAddr [Byte.x07] 2 7 0 [valStake; delStake] [].
Definition away : Delegatee := mkDelegatee bobAddr [Byte.x08] 3 3 0 [awayStake] (map (fun i => Z.of_nat i + 12) (seq 0 27)).
Definition signerMap : gmap (list Byte.byte) (list Byte.byte) := {[ Delegatee_Key signer := count_encode signer; Delegatee_Key away := count_encode away ]}.
Definition signerTree : mapTree := MapTree signerMap {[ 36 := signerMap ]} 36.
Definition signerCtrler : @StakeCtrler mapTree := newStakeCtrler Test1GovParams signerTree (MapTree ∅ ∅ 0) (MapTree ∅ ∅ 0) [].
Definition signedBlock : BlockContext :=
  mkBlockContext (mkBeginBlock (mkHeader 40 0 bobAddr []) [mkVoteInfo aliceAddr 7 true; mkVoteInfo bobAddr 3 false] [mkEvidence 1 aliceAddr 7 38 10]) 0 0 [] [].

Ltac in_stakes Hs := repeat (apply elem_of_cons in Hs as [->|Hs]); [..|by apply not_elem_of_nil in Hs].
Lemma signer_ok : delegatee_ok signer /\ sound signer.
Proof.
  split; [split|].
  - constructor; [done| |reflexivity|reflexivity|reflexivity]. intros s Hs. change (dg_Stakes signer) with [valStake; delStake] in Hs. by in_stakes Hs.
  - constructor; [reflexivity|split; vm_compute; congruence..| |intros h Hh; by apply not_elem_of_nil in Hh].
    intros s Hs. change (dg_Stakes signer) with [valStake; delStake] in Hs. in_stakes Hs; constructor; unfold is_i64; cbn; lia.
  - constructor; [|reflexivity|constructor]. apply (bool_decide_unpack _). vm_compute. exact I.
Qed.
Lemma away_ok : delegatee_ok away /\ sound away.
Proof.
  assert (Hh : Forall (fun h => 0 <= h < 100) (dg_NotSignedHeights away)) by (apply (bool_decide_unpack _); vm_compute; exact I).
  split; [split|].
  - constructor; [done| |reflexivity|reflexivity|reflexivity]. intros s Hs. change (dg_Stakes away) with [awayStake] in Hs. by in_stakes Hs.
  - constructor; [reflexivity|split; vm_compute; congruence..| |].
    + intros s Hs. change (dg_Stakes away) with [awayStake] in Hs. in_stakes Hs; constructor; unfold is_i64; cbn; lia.
    + intros h Hin. rewrite list.Forall_forall in Hh. specialize (Hh h Hin). unfold is_i64. lia.
  - constructor; [|reflexivity|]; [apply (bool_decide_unpack _); vm_compute; exact I|]. unfold strictly_increasing. apply (bool_decide_unpack _). vm_compute. exact I.
Qed.

Lemma signer_item k bz : signerMap !! k = Some bz -> exists d, bz = count_encode d /\ Delegatee_Key d = k /\ delegatee_ok d /\ sound d.
Proof.
  unfold signerMap. rewrite lookup_insert. case_decide as Hk; [intros [= <-]; exists signer|rewrite lookup_singleton; case_decide as Hk'; [|done]; intros [= <-]; exists away].
  - split_and!; [done|done|apply signer_ok..].
  - split_and!; [done|done|apply away_ok..].
Qed.

Lemma signer_ledger (tr : mapTree) : tree_map tr = signerMap -> ledger_inv delegatee_ok (NewFinalityLedger tr).
Proof.
  intros Ht. apply fresh_inv. intros k bz. rewrite Ht. intros (d & -> & Hk & Hok & _)%signer_item.
  exists d. unfold Decode, delegatee_item, Delegatee_Decode, delegateeCodec, countCodec, codec_Unmarshal. by rewrite count_decode_encode.
Qed.

Lemma signer_view k d : visible (sc_delegateeLedger signerCtrler) Deliver k = Some d -> sound d.
Proof.
  change (sc_delegateeLedger signerCtrler) with (NewFinalityLedger signerTree : FinalityLedger Delegatee mapTree).
  unfold visible. rewrite fresh_pend. case_decide; [done|]. unfold tree_item. change (tree_map signerTree) with signerMap.
  destruct (signerMap !! k) as [bz|] eqn:E; [|done]. apply signer_item in E as (d' & -> & _ & _ & Hs).
  unfold Decode, delegatee_item, Delegatee_Decode, delegateeCodec, countCodec, codec_Unmarshal. rewrite count_decode_encode. case_decide; [|done]. by intros [= <-].
Qed.

Lemma no_rewards sd k : visible (sc_rewardLedger signerCtrler) sd k = None.
Proof.
  change (sc_rewardLedger signerCtrler) with (NewFinalityLedger (MapTree ∅ ∅ 0) : FinalityLedger Reward_ mapTree).
  unfold visible. rewrite fresh_pend. unfold tree_item. cbn. rewrite lookup_empty. by case_decide.
Qed.

Lemma signer_version : iavl_LazyLoadVersion (tree (sc_delegateeLedger signerCtrler)) (height_of_power (bc_Height signedBlock)) = inr signerTree.
Proof.
  assert (Hh : height_of_power (bc_Height signedBlock) = 36) by (vm_compute; reflexivity). rewrite Hh.
  change (tree (sc_delegateeLedger signerCtrler)) with signerTree. unfold iavl_LazyLoadVersion, mapTree_iavl, signerTree. cbn [mt_saved]. by rewrite lookup_singleton_eq.
Qed.

Lemma signer_rewarded : rewarded (NewFinalityLedger signerTree) (bi_Votes (bc_blockInfo signedBlock)) = [valStake; delStake].
Proof. vm_compute. reflexivity. Qed.

Lemma begin_block_spec_witness :
  exists per c', RewardPerPower Test1GovParams = Ret per /\ 0 < per /\
    StakeCtrler_BeginBlock Test1GovParams signedBlock (signerCtrler, stakerAccts) = (Ret [EvPunishment aliceAddr 1 38 3; EvReward (7 * per)], (c', stakerAccts)) /\
    cumulated_of (sc_rewardLedger c') Deliver (ToLedgerKey bobAddr) = 5 * per /\
    option_map dg_TotalPower (visible (sc_delegateeLedger c') Deliver (ToLedgerKey aliceAddr)) = Some 4 /\
    visible (sc_delegateeLedger c') Deliver (ToLedgerKey bobAddr) = None /\
    visible (sc_frozenLedger c') Deliver (Key awayStake) = Some (set_RefundHeight 50 awayStake).
Proof.
  pose (per := match RewardPerPower Test1GovParams with Ret p => p | _ => 0 end). pose (m := match min_validator_power Test1GovParams with Ret p => p | _ => 0 end).
  assert (He : forall k, 0 <= earned per k [valStake; delStake] <= 7 * per /\ cumulated_of (sc_rewardLedger signerCtrler) Deliver k = 0).
  { intros k. split.
    - unfold earned. rewrite !sumZ_cons, sumZ_nil. unfold earning. cbn [st_Power st_From valStake delStake]. assert (0 <= per) by (vm_compute; discriminate). repeat case_decide; lia.
    - unfold cumulated_of. by rewrite no_rewards. }
  pose proof (begin_block_spec Test1GovParams signedBlock per m signerTree signerCtrler stakerAccts) as H. cbn zeta in H.
  destruct (punishes _ _ _) as [evts v1] eqn:Ep. destruct (misses _ _ _ v1) as [released v2] eqn:Em. rewrite signer_rewarded in H.
  assert (Hp : evts = [EvPunishment aliceAddr 1 38 3]) by (change evts with (evts, v1).1; rewrite <- Ep; vm_compute; reflexivity).
  assert (Hm : released = [awayStake] /\ v2 (ToLedgerKey bobAddr) = None /\ option_map dg_TotalPower (v2 (ToLedgerKey aliceAddr)) = Some 4).
  { change v1 with (evts, v1).2 in Em. rewrite <- Ep in Em. pose proof (f_equal fst Em) as E1. pose proof (f_equal snd Em) as E2. cbn [fst snd] in E1, E2.
    rewrite <- E1, <- E2. clear. split_and!; vm_compute; reflexivity. }
  destruct Hm as (-> & Hbob & Halice). destruct H as (all & D' & F' & R' & _ & Hrun & (_ & Hcum & _) & Hv & (_ & _ & _ & Hfz)).
  - constructor; [apply (signer_ledger signerTree); reflexivity|apply fresh_inv; intros k bz; cbn; by rewrite lookup_empty|reflexivity|reflexivity|exact signer_view].
  - constructor; [apply fresh_inv; intros k bz; cbn; by rewrite lookup_empty|by intros []|]. intros k r Hr. by rewrite no_rewards in Hr.
  - vm_compute. reflexivity.
  - split; vm_compute; congruence.
  - reflexivity.
  - vm_compute. discriminate.
  - vm_compute. reflexivity.
  - split; vm_compute; congruence.
  - vm_compute. discriminate.
  - split; vm_compute; congruence.
  - exact signer_version.
  - apply signer_ledger. reflexivity.
  - intros k. destruct (He k) as [H1 ->]. assert (7 * per < 2 ^ 256) by (vm_compute; reflexivity). lia.
  - vm_compute. reflexivity.
  - eexists per, _. split; [reflexivity|]. split; [vm_compute; reflexivity|]. split_and!.
    + rewrite Hrun, Hp. reflexivity.
    + cbn [sc_rewardLedger]. rewrite Hcum. destruct (He (ToLedgerKey bobAddr)) as [_ ->]. vm_compute. reflexivity.
    + by rewrite Hv.
    + by rewrite Hv.
    + apply (Hfz ltac:(apply NoDup_singleton) awayStake). by apply elem_of_cons; left.
Defined.

(** The window is one block wider than its name: a validator of thirty blocks
    can miss thirty-one of them. *)
Lemma window_counts_one_more : exists d, missed Test1GovParams 40 d = signedBlocksWindow Test1GovParams + 1.
Proof. exists (set_NotSigned (map (fun i => Z.of_nat i + 9) (seq 0 30)) away). vm_compute. reflexivity. Qed.
