(* ===== verification/App.v ===== *)
(** * The application: [node/app.go], [node/query.go], [genesis/]

    The ABCI calls of the consensus engine over the controllers.  An error that
    the code answers with [panic] is [Panic].  Starting is in
    Restart.v, the parallel delivery in Parallel.v.  The hash function, the JSON reader of the
    genesis state and the derivation of addresses are parameters. *)

From Stdlib Require Import Strings.Byte.
From S2P Require Import Prelude Xerrors GoSem Bytes Crypto Ledger LedgerSpec Concrete GovParams Account Trx Context AcctCtrler.
From S2P Require Import Stake StakeLimiter StakeCtrler Proposal GovCtrler Executor MetaDB.

Record Response : Type := mkResponse {
  rs_Code : Z;
  rs_Log : string;
  rs_Data : list Byte.byte;
  rs_GasWanted : Z;
  rs_GasUsed : Z;
  rs_Events : list Event;
}.
Definition CodeTypeOK : Z := 0.
(** [CheckTx] reports no events. *)
Definition err_response (e : XError) (data : list Byte.byte) (evs : list Event) : Response := mkResponse (Code e) (ErrorText e) data 0 0 evs.
Definition ok_response (ctx : TrxContext) (evs : list Event) : Response :=
  mkResponse CodeTypeOK "" (cx_RetData ctx) (i64 (tx_Gas (cx_Tx ctx))) (i64 (cx_GasUsed ctx)) evs.

(** The event that [DeliverTx] adds for a transaction; the status of a failed
    one is the low byte of its code. *)
Definition sent_by (tx : Trx) : list EventAttribute :=
  [mkAttribute EVENT_ATTR_TXTYPE (String.list_byte_of_string (TypeString tx)) true;
   mkAttribute EVENT_ATTR_TXSENDER (HexBytes_String (tx_From tx)) true].
Definition err_event (tx : Trx) (e : XError) : Event :=
  mkEvent "tx" (sent_by tx ++ [mkAttribute EVENT_ATTR_TXSTATUS [byte_of_Z (Code e)] false]).
Definition ok_event {D : DecCodec} (tx : Trx) : Event :=
  mkEvent "tx" (sent_by tx ++
    [mkAttribute EVENT_ATTR_TXRECVER (HexBytes_String (tx_To tx)) true;
     mkAttribute EVENT_ATTR_ADDRPAIR (HexBytes_String (tx_From tx) ++ HexBytes_String (tx_To tx)) true;
     mkAttribute EVENT_ATTR_AMOUNT (String.list_byte_of_string (u256_Dec (tx_Amount tx))) false;
     mkAttribute EVENT_ATTR_TXSTATUS [Byte.x00] false]).

Inductive CheckTxType : Type := CheckTxType_New | CheckTxType_Recheck.

(** [RequestInitChain] *)
Record RequestInitChain : Type := mkInitChain {
  ic_ChainId : string;
  ic_AppStateBytes : list Byte.byte;
  ic_Validators : list (list Byte.byte * Z);
}.

(** Values of queries, before they are rendered as JSON. *)
Inductive QueryValue : Type :=
  | QVAccount (a : Account)
  | QVStake (q : StakeQuery)
  | QVGov (q : GovQuery)
  | QVVm (bz : list Byte.byte).

Section App.
Context {Tr E DB : Type} {Tree : Iavl Tr} {TDB : TmDB DB} {CB : Codec BlockContextJSON}.
Context {CA : Codec AcctProto} {CS : Codec Stake} {CD : Codec Delegatee} {CR : Codec RewardProto}.
Context {CGP : Codec GovParamsProto} {CGJ : Codec GovParamsJSON} {D : DecCodec} {CP : Codec GovProposal}.
Context {RL : RlpLib} {SL : EthCrypto}.
Context {CU : Codec TrxPayloadUnstakingProto} {CW : Codec TrxPayloadWithdrawProto}
        {CPP : Codec TrxPayloadProposalProto} {CV : Codec TrxPayloadVotingProto}
        {CC : Codec TrxPayloadContractProto} {CSD : Codec TrxPayloadSetDocProto} {CT : Codec TrxProto}.
Context {VM : IVMHandler E (FinalityLedger Account Tr)}.
Context (tmjson_Unmarshal : (list Byte.byte -> string + GovParams) -> list Byte.byte -> string + GovParams).
Context (tmjson_genesis : list Byte.byte -> string + GenesisAppState).
Context (tx_hash : list Byte.byte -> list Byte.byte).
Context (vm_Query : Z -> list Byte.byte -> GoM (@World Tr E) (list Byte.byte)).

(** ** Genesis hashes *)
Definition holder_Hash (gh : GenesisAssetHolder) : list Byte.byte := sha256 (gh_Address gh ++ u256_Bytes (gh_Balance gh)).
Definition genesis_Hash (ga : GenesisAppState) : outcome bytes :=
  match GovParams_Encode (gs_GovParams ga) with
  | Ret bz => Ret (sha256 (bz ++ concat (map holder_Hash (AssetHolders ga))))
  | Err e => Err e
  | Panic => Panic
  end.

Record RigoApp : Type := mkApp {
  app_last : option BlockContext;
  app_next : option BlockContext;
  app_meta : @MetaDB DB;
  app_world : @World Tr E;
  app_ChainID : string;
}.

Definition set_last_ctx (b : option BlockContext) (a : RigoApp) : RigoApp := mkApp b (app_next a) (app_meta a) (app_world a) (app_ChainID a).
Definition set_next_ctx (b : option BlockContext) (a : RigoApp) : RigoApp := mkApp (app_last a) b (app_meta a) (app_world a) (app_ChainID a).
Definition set_world (w : World) (a : RigoApp) : RigoApp := mkApp (app_last a) (app_next a) (app_meta a) w (app_ChainID a).
Definition set_chain (c : string) (a : RigoApp) : RigoApp := mkApp (app_last a) (app_next a) (app_meta a) (app_world a) c.
Definition l_world : lens RigoApp (@World Tr E) := Lens app_world set_world.
Definition l_meta : lens RigoApp (@MetaDB DB) :=
  Lens app_meta (fun m a => mkApp (app_last a) (app_next a) m (app_world a) (app_ChainID a)).

Definition world {B} (m : GoM (@World Tr E) B) : GoM RigoApp B := zoom l_world m.
Definition meta {B} (m : GoM (@MetaDB DB) B) : GoM RigoApp B := zoom l_meta m.

(** [if xerr != nil { panic(xerr) }] *)
Definition mustM {S B} (m : GoM S B) : GoM S B :=
  let! r := tryM m in match r with inr b => retM b | inl _ => panicM end.

(** A nil block context is a nil pointer. *)
Definition last_ctx : GoM RigoApp BlockContext := let! o := getsM app_last in match o with Some b => retM b | None => panicM end.
Definition next_ctx : GoM RigoApp BlockContext := let! o := getsM app_next in match o with Some b => retM b | None => panicM end.
Definition upd_next (f : BlockContext -> BlockContext) : GoM RigoApp unit :=
  let! b := next_ctx in modifyM (set_next_ctx (Some (f b))).

(** ** [Info] and [InitChain] *)

(** The height and application hash of the last block; [now] is the time. *)
Definition Info (now : Z) : GoM RigoApp (Z * list Byte.byte) :=
  let! ctx := meta LastBlockContext in
  let! hh := match ctx with
    | None =>
        let! lastHeight := meta LastBlockHeight in
        let! appHash := meta LastBlockAppHash in
        let h := default [] appHash in
        do! modifyM (set_last_ctx (Some (SetAppHash h (NewBlockContext (mkBeginBlock (mkHeader lastHeight now [] []) [] []))))) in
        retM (lastHeight, h)
    | Some b =>
        do! modifyM (set_last_ctx (Some b)) in
        retM (bc_Height b, bc_appHash b)
    end in
  let! chain := meta md_ChainID in
  do! modifyM (set_chain chain) in
  retM hh.

(** The genesis stake of a validator: its own, from block 1, with a zero hash;
    its account is made when there is none. *)
Definition genesis_stake (stakes : list InitStake) (val : list Byte.byte * Z) : GoM RigoApp (list InitStake) :=
  let! addr := mustM (liftO (PubBytes2Addr val.1)) in
  let s0 := NewStakeWithPower addr addr val.2 1 (ZeroBytes 32) in
  do! world (zoom l_acct (findOrNewAccount addr true)) in
  retM (stakes ++ [mkInitStake val.1 [s0]]).

Definition InitChain (req : RequestInitChain) : GoM RigoApp (list Byte.byte) :=
  if bool_decide (ic_ChainId req = ""%string) then panicM
  else
    do! modifyM (set_chain (ic_ChainId req)) in
    do! ignoreM (meta (PutChainID (ic_ChainId req))) in
    match tmjson_genesis (ic_AppStateBytes req) with
    | inl _ => panicM
    | inr appState =>
        let! appHash := mustM (liftO (genesis_Hash appState)) in
        do! mustM (world (zoom l_gov (GovCtrler_InitLedger (Some (gs_GovParams appState))))) in
        do! mustM (world (zoom l_acct (AcctCtrler_InitLedger (Some appState)))) in
        let! initStakes := foldM genesis_stake (ic_Validators req) [] in
        do! mustM (world (zoom l_stake_acct (StakeCtrler_InitLedger (Some initStakes)))) in
        retM appHash
    end.

(** ** Transactions *)

(** [ExecuteSync] and the context afterwards. *)
Definition execute (ctx : TrxContext) : GoM RigoApp ((XError + unit) * TrxContext) := fun app =>
  match ExecuteSync tmjson_Unmarshal (app_world app, ctx) with
  | (Ret _, x) => (Ret (inr tt, x.2), set_world x.1 app)
  | (Err e, x) => (Ret (inl e, x.2), set_world x.1 app)
  | (Panic, x) => (Panic, set_world x.1 app)
  end.

(** [NewTrxContext] with the callback [cb], which runs between the decoding and
    the search for the accounts. *)
Definition new_context (bz : list Byte.byte) (height btime txIdx : Z) (exec : bool) (cb : GoM RigoApp unit) : GoM RigoApp TrxContext :=
  let! tx := liftO (Trx_Decode bz) in
  do! cb in
  let! chain := getsM app_ChainID in
  world (zoom l_acct (new_trx_context tx (tx_hash bz) height btime txIdx exec chain)).

(** [interval]: the configured seconds between empty blocks. *)
Definition CheckTx (interval : Z) (ty : CheckTxType) (tx : list Byte.byte) : GoM RigoApp Response :=
  match ty with
  | CheckTxType_Recheck => retM (mkResponse CodeTypeOK "" [] 0 0 [])
  | CheckTxType_New =>
      let! last := last_ctx in
      let! r := tryM (new_context tx (i64 (bc_Height last + 1)) (bc_ExpectedNextBlockTimeSeconds interval last) 0 false (retM tt)) in
      match r with
      | inl e => retM (err_response (Wrap ErrCheckTx (xcause e)) [] [])
      | inr ctx =>
          let! rc := execute ctx in
          match rc with
          | (inl e, ctx') => retM (err_response (Wrap ErrCheckTx (xcause e)) (cx_RetData ctx') [])
          | (inr _, ctx') => retM (ok_response ctx' [])
          end
      end
  end.

(** When the context cannot be built, [NewTrxContext] returns a nil pointer and
    the event for the failed transaction is made from [txctx.Tx]. *)
Definition deliverTxSync (tx : list Byte.byte) : GoM RigoApp Response :=
  let! next := next_ctx in
  let! r := tryM (new_context tx (bc_Height next) (bc_TimeSeconds next) (bc_txsCnt next) true (upd_next (AddTxsCnt 1))) in
  match r with
  | inl _ => panicM
  | inr ctx =>
      let! rc := execute ctx in
      match rc with
      | (inl e, ctx') =>
          let xerr := Wrap ErrDeliverTx (xcause e) in
          let ctx' := add_Event (err_event (cx_Tx ctx') xerr) ctx' in
          retM (err_response xerr (cx_RetData ctx') (cx_Events ctx'))
      | (inr _, ctx') =>
          let! g := getsM (fun app => params_of (app_world app)) in
          let! price := liftO (GasPrice g) in
          do! upd_next (AddFee (GasToFee (cx_GasUsed ctx') price)) in
          let ctx' := add_Event (ok_event (cx_Tx ctx')) ctx' in
          retM (ok_response ctx' (cx_Events ctx'))
      end
  end.
Definition DeliverTx : list Byte.byte -> GoM RigoApp Response := deliverTxSync.

(** ** Blocks *)
Definition App_BeginBlock (req : RequestBeginBlock) : GoM RigoApp (list GovEvent * list StakeEvent) :=
  let! last := last_ctx in
  if negb (hd_Height (bi_Header req) =? i64 (bc_Height last + 1)) then panicM
  else
    let bctx := NewBlockContext req in
    do! modifyM (set_next_ctx (Some bctx)) in
    let! ev0 := mustM (world (zoom l_gov (GovCtrler_BeginBlock bctx))) in
    let! g := getsM (fun app => params_of (app_world app)) in
    let! ev1 := mustM (world (zoom l_stake_acct (StakeCtrler_BeginBlock g bctx))) in
    do! mustM (world (zoom l_vm_acct (vm_BeginBlock bctx))) in
    retM (ev0, ev1).

Definition App_EndBlock : GoM RigoApp (list ValidatorUpdate * list GovEvent) :=
  let! next := next_ctx in
  let! ev0 := mustM (world (zoom l_gov (GovCtrler_EndBlock tmjson_Unmarshal next))) in
  do! mustM (world (zoom l_acct (AcctCtrler_EndBlock next))) in
  let! g := getsM (fun app => params_of (app_world app)) in
  let! ups := mustM (world (zoom l_stake_acct (StakeCtrler_EndBlock g next))) in
  do! upd_next (SetValUpdates ups) in
  let! next := next_ctx in
  do! mustM (world (zoom l_vm_acct (vm_EndBlock next))) in
  retM (bc_ValUpdates next, ev0).

(** The debug message at the start needs the height of the open block. *)
Definition App_Commit : GoM RigoApp (list Byte.byte) :=
  do! next_ctx in
  let! hv0 := mustM (world (zoom l_gov (GovCtrler_Commit DefaultHash))) in
  let! hv1 := mustM (world (zoom l_acct AcctCtrler_Commit)) in
  let! hv2 := mustM (world (zoom l_stake_acct (StakeCtrler_Commit DefaultHash))) in
  let! hv3 := mustM (world (zoom l_vm_acct vm_Commit)) in
  if negb (hv0.2 =? hv1.2) || negb (hv1.2 =? hv2.2) || negb (hv2.2 =? hv3.2) then panicM
  else
    let appHash := DefaultHash [hv0.1; hv1.1; hv2.1; hv3.1] in
    do! upd_next (SetAppHash appHash) in
    let! next := next_ctx in
    do! ignoreM (meta (PutLastBlockContext next)) in
    do! ignoreM (meta (PutLastBlockHeight hv0.2)) in
    do! modifyM (set_last_ctx (Some next)) in
    do! modifyM (set_next_ctx None) in
    retM appHash.

(** ** [Query] *)
Definition is_stake_path (p : string) : bool :=
  bool_decide (p ∈ ["stakes"; "stakes/total_power"; "stakes/voting_power"; "delegatee"; "reward"]%string).
Definition is_gov_path (p : string) : bool := bool_decide (p ∈ ["proposal"; "gov_params"]%string).

Definition query_value (path : string) (height : Z) (data : list Byte.byte) : GoM RigoApp QueryValue :=
  if bool_decide (path = "account"%string) then
    let! a := world (zoom l_acct (AcctCtrler_Query height data)) in retM (QVAccount a)
  else if is_stake_path path then
    let! g := getsM (fun app => params_of (app_world app)) in
    let! q := world (zoom l_stake_acct (StakeCtrler_Query g path height data)) in retM (QVStake q)
  else if is_gov_path path then
    let! q := world (zoom l_gov (GovCtrler_Query path height data)) in retM (QVGov q)
  else if bool_decide (path = "vm_call"%string) then
    let! bz := world (vm_Query height data) in retM (QVVm bz)
  else errM ErrInvalidQueryPath.

(** Code, log, height and value of the response; height 0 asks for the last one. *)
Definition App_Query (path : string) (height : Z) (data : list Byte.byte) : GoM RigoApp (Z * string * Z * option QueryValue) :=
  let! h := (if height =? 0 then let! last := last_ctx in retM (bc_Height last) else retM height) in
  let! r := tryM (query_value path h data) in
  match r with
  | inr v => retM (CodeTypeOK, ""%string, h, Some v)
  | inl e => retM (Code e, ErrorText e, h, None)
  end.

Lemma next_ctx_inv (a a' : RigoApp) b : next_ctx a = (Ret b, a') -> a' = a /\ app_next a = Some b.
Proof. unfold next_ctx, bindM, getsM. destruct (app_next a) as [b'|]; [|done]. by intros [= -> ->]. Qed.
End App.
