(* ===== verification/Delivery.v ===== *)
(** * The delivery of a transfer, end to end

    From the bytes of a transaction in a block to the accounts after it: the
    context that [NewTrxContext] builds, the checks, the execution, the fee and
    the response. *)

From Stdlib Require Import Strings.Byte.
From S2P Require Import Prelude Xerrors GoSem Bytes Crypto Ledger LedgerSpec LedgerClient LedgerProps Concrete GovParams Account Trx TrxProps Context.
From S2P Require Import AcctCtrler AcctProps AcctClient Stake StakeLimiter StakeCtrler Proposal GovCtrler GovProps Executor Scene ExecutorProps MetaDB App.

Section Ctx.
Context {Tr : Type} {Tree : Iavl Tr} {View : IavlView Tr} {Laws : IavlLaws Tr} {Total : IavlTotal Tr}.
Context {CA : Codec AcctProto} (utf8 : string -> Prop) (utf8_empty : utf8 ""%string).
Context {CL : CodecLaws AcctProto acct_proto_range} {CTot : CodecTotal AcctProto (acct_proto_valid utf8)}.
Abbreviation ok := (acct_ok utf8).
Implicit Types L : FinalityLedger Account Tr.

(** [NewTrxContext] for a sender that exists. *)
Lemma new_context_spec L tx hash height btime idx exec chain a :
  ledger_inv ok L -> no_removed L -> let sd := side_of exec in
  visible L sd (ToLedgerKey (tx_From tx)) = Some a ->
  exists p q L', let ctx := mkTrxContext height btime hash tx idx exec [] p q 0 [] [] chain in
    new_trx_context tx hash height btime idx exec chain L = (Ret ctx, L') /\
    ctx_accounts utf8 L' ctx a (account_at L sd (tx_To tx)) /\
    Key a = ToLedgerKey (tx_From tx) /\ Key (account_at L sd (tx_To tx)) = ToLedgerKey (tx_To tx) /\
    (forall sd' k, visible L' sd' k =
       if decide (sd' = sd /\ k = ToLedgerKey (tx_To tx)) then Some (account_at L sd (tx_To tx)) else visible L sd' k).
Proof.
  intros Hi Hn sd Hva. pose proof (find_account_spec utf8 L (tx_From tx) exec Hi) as Hf. fold sd in Hf. rewrite Hva in Hf.
  destruct Hf as (p & L1 & Hrun & Hi1 & Hp & Hc & Hk). pose proof (preserved_view ok L L1 Hi Hp) as Hsv.
  pose proof (no_removed_view L L1 Hsv Hn) as Hn1.
  destruct (find_or_new_spec utf8 utf8_empty L1 (tx_To tx) exec Hi1 Hn1) as (q & L2 & Hrun2 & Hi2 & Hn2 & Hcq & Hkq & Hcs & Hv2). fold sd in Hcq, Hkq, Hcs, Hv2.
  assert (Hat : account_at L1 sd (tx_To tx) = account_at L sd (tx_To tx)) by (unfold account_at; by rewrite (same_view_visible L L1)).
  rewrite Hat in *. exists p, q, L2. intros ctx. split_and!; try done.
  - unfold new_trx_context. cbn [FindAccount AcctCtrler_handler FindOrNewAccount].
    rewrite (bindM_step _ _ _ _ _ Hrun). by rewrite (bindM_step _ _ _ _ _ Hrun2).
  - constructor; cbn [ctx cx_Exec cx_Sender cx_Receiver]; auto.
  - intros sd' k. rewrite Hv2. by rewrite (same_view_visible L L1).
Qed.
End Ctx.

Section Deliver.
Context {Tr E DB : Type} {Tree : Iavl Tr} {TDB : TmDB DB} {CB : Codec BlockContextJSON}.
Context {CA : Codec AcctProto} {CS : Codec Stake} {CD : Codec Delegatee} {CR : Codec RewardProto}.
Context {CGP : Codec GovParamsProto} {CGJ : Codec GovParamsJSON} {D : DecCodec} {CP : Codec GovProposal}.
Context {RL : RlpLib} {SL : EthCrypto}.
Context {CU : Codec TrxPayloadUnstakingProto} {CW : Codec TrxPayloadWithdrawProto}
        {CPP : Codec TrxPayloadProposalProto} {CV : Codec TrxPayloadVotingProto}
        {CC : Codec TrxPayloadContractProto} {CSD : Codec TrxPayloadSetDocProto} {CT : Codec TrxProto}.
Context {VM : IVMHandler E (FinalityLedger Account Tr)}.
Context (tmjson_Unmarshal : (list Byte.byte -> string + GovParams) -> list Byte.byte -> string + GovParams).
Context (tx_hash : list Byte.byte -> list Byte.byte).
Context {View : IavlView Tr} (utf8 : string -> Prop) {Laws : IavlLaws Tr} {Total : IavlTotal Tr}.
Context {CL : CodecLaws AcctProto acct_proto_range} {CTot : CodecTotal AcctProto (acct_proto_valid utf8)}.
Abbreviation app := (@RigoApp Tr E DB).
Abbreviation ok := (acct_ok utf8).

(** What the executor asks of a transfer of [t] from [a] in a block. *)
Record payable (g : GovParams) (chain : string) (t : Trx) (a : Account) (price : Z) (pub : list Byte.byte) : Prop := {
  py_type : tx_Type t = TRX_TRANSFER;
  py_from : length (tx_From t) = AddrSize;
  py_to : length (tx_To t) = AddrSize;
  py_amount : 0 <= tx_Amount t < 2 ^ 255;
  py_gas : 0 <= tx_Gas t <= MaxInt64;
  py_params : gasPrice g = Some price;
  py_price : tx_GasPrice t = price;
  py_min : GasToFee (minTrxGas g) price <= fee_of t;
  py_range : 0 <= price < 2 ^ 190;
  py_sig : VerifyTrxRLP t chain = Ret (tx_From t, pub);
  py_nonce : Nonce a = tx_Nonce t;
  py_funds : tx_Amount t + price * tx_Gas t <= Balance a;
}.

Lemma small_sign z : 0 <= z < 2 ^ 255 -> u256_Sign z <? 0 = false.
Proof. intros H. unfold u256_Sign. destruct (z =? 0); [done|]. destruct (z <? 2 ^ 255) eqn:E1; [done|lia]. Qed.

Lemma payable_valid (w : @World Tr E) (ctx : TrxContext) a price pub :
  payable (params_of w) (cx_ChainID ctx) (cx_Tx ctx) a price pub -> cx_Exec ctx = true ->
  objs (lheap (w_acct w)) !! cx_Sender ctx = Some a -> is_u256 (Balance a) ->
  validateTrx tmjson_Unmarshal (w, ctx) = (Ret tt, (w, set_SenderPubKey pub ctx)).
Proof.
  intros H Hex Ha Hbal. destruct H.
  destruct (fee_small (cx_Tx ctx) (params_of w) price) as [Hfee Hfb]; [done|done|done|done|]. unfold validateTrx.
  rewrite (bindM_step _ _ _ tt (w, set_SenderPubKey pub ctx)).
  - rewrite (bindM_step _ _ _ tt (w, set_SenderPubKey pub ctx)).
    + unfold validate_by_type, bindM, getM. cbn [fst snd set_SenderPubKey cx_Tx]. rewrite py_type0. cbn.
      unfold on_world, zoom, AcctCtrler_ValidateTrx. cbn. rewrite py_type0. cbn. by destruct w.
    + rewrite (validation1_run (w, set_SenderPubKey pub ctx) a) by done. cbn [snd set_SenderPubKey cx_Tx].
      unfold is_u256 in Hbal. rewrite u256_id by (unfold is_u256; lia). rewrite Hfee, py_nonce0, Z.eqb_refl.
      by rewrite (proj2 (Z.ltb_ge _ _)) by lia.
  - unfold commonValidation0, bindM, getM, liftO, GasPrice, MinTrxFee, deref. cbn [fst snd].
    rewrite py_from0, py_to0, Nat.eqb_refl. cbn [negb]. rewrite !small_sign by lia. rewrite (proj2 (Z.ltb_ge _ _)) by lia.
    rewrite py_params0, py_price0, Z.eqb_refl. cbn [negb]. rewrite (proj2 (Z.ltb_ge _ _)) by lia. by rewrite Hex, py_sig0.
Qed.

Lemma execute_transfer (w : @World Tr E) (ctx : TrxContext) a b price pub :
  ctx_accounts utf8 (w_acct w) ctx a b -> cx_Exec ctx = true ->
  payable (params_of w) (cx_ChainID ctx) (cx_Tx ctx) a price pub -> Code_ b = None ->
  Balance b + tx_Amount (cx_Tx ctx) < 2 ^ 256 ->
  exists L', ExecuteSync tmjson_Unmarshal (w, ctx) = (Ret tt, (lset l_acct L' w, set_GasUsed (tx_Gas (cx_Tx ctx)) (set_SenderPubKey pub ctx))) /\
    ledger_inv ok L' /\ no_removed L' /\ paid (w_acct w) L' Deliver a b (tx_Amount (cx_Tx ctx)) (price * tx_Gas (cx_Tx ctx)).
Proof.
  intros Hca Hex Hpay Hcode Hov. pose proof Hca as [Hi _ Hsa _]. pose proof (cached_handle ok _ _ _ _ Hi Hsa) as (Ha & Hok & _).
  assert (Hr : is_u256 (Balance a)) by apply Hok. pose proof (payable_valid w ctx a price pub Hpay Hex Ha Hr) as Hval.
  destruct Hpay. destruct (transfer_run_spec tmjson_Unmarshal utf8 (w, ctx) (w, set_SenderPubKey pub ctx) a b price py_type0 Hca Hcode py_params0 py_range0) as (L' & Hrun & Hi' & Hn' & Hpaid);
    [cbn; lia|unfold is_u256; cbn; lia|done|exact Hval|].
  exists L'. split_and!; [|done|done|by cbn [snd] in Hpaid; rewrite Hex in Hpaid]. unfold ExecuteSync. rewrite (bindM_step _ _ _ _ _ Hval). exact Hrun.
Qed.

Lemma paid_view (L L1 L' : FinalityLedger Account Tr) sd a b amt fee :
  (forall sd' k, sd' <> sd \/ k <> Key b -> visible L1 sd' k = visible L sd' k) -> paid L1 L' sd a b amt fee -> paid L L' sd a b amt fee.
Proof.
  intros Hv (H1 & H2 & H3). split_and!; [done|done|]. intros sd' k Hk. rewrite H3 by done. apply Hv. tauto.
Qed.

Lemma gas_fee price t : 0 <= price < 2 ^ 190 -> 0 <= tx_Gas t <= MaxInt64 -> GasToFee (tx_Gas t) price = price * tx_Gas t.
Proof.
  intros Hp Hg. unfold GasToFee. rewrite Z.mul_comm. apply u256_id. unfold is_u256, MaxInt64 in *. split; [nia|].
  apply Z.le_lt_trans with (2 ^ 190 * (2 ^ 63 - 1)); [|lia]. apply Z.mul_le_mono_nonneg; lia.
Qed.

Lemma deliver_transfer_run (utf8_empty : utf8 ""%string) (a : app) (next : BlockContext) (bz : list Byte.byte) (t : Trx)
    (from : Account) (price : Z) (pub : list Byte.byte) :
  let L := w_acct (app_world a) in
  let to := account_at L Deliver (tx_To t) in
  let fee := price * tx_Gas t in
  app_next a = Some next -> Trx_Decode bz = Ret t -> ledger_inv ok L -> no_removed L ->
  visible L Deliver (ToLedgerKey (tx_From t)) = Some from ->
  payable (params_of (app_world a)) (app_ChainID a) t from price pub ->
  Code_ to = None -> Balance to + tx_Amount t < 2 ^ 256 ->
  exists L', DeliverTx tmjson_Unmarshal tx_hash bz a =
      (Ret (mkResponse CodeTypeOK "" [] (tx_Gas t) (tx_Gas t) [ok_event t]),
       set_next_ctx (Some (AddFee fee (AddTxsCnt 1 next))) (set_world (lset l_acct L' (app_world a)) a)) /\
    ledger_inv ok L' /\ no_removed L' /\ paid L L' Deliver from to (tx_Amount t) fee.
Proof.
  intros L to fee Hn Hdec Hi Hrem Hva Hpay Hcode Hov. unfold DeliverTx, deliverTxSync.
  rewrite (bindM_step _ _ _ next a) by (unfold next_ctx, bindM, getsM; by rewrite Hn).
  destruct (new_context_spec utf8 utf8_empty L t (tx_hash bz) (bc_Height next) (bc_TimeSeconds next) (bc_txsCnt next) true (app_ChainID a) from)
    as (p & q & L1 & Hctx & Hca & Hkf & Hkt & Hv1); [done|done|done|]. cbn [side_of] in *. fold to in Hca, Hkt, Hv1.
  set (ctx := mkTrxContext _ _ _ _ _ _ _ _ _ _ _ _ _) in *. set (w1 := lset l_acct L1 (app_world a)).
  rewrite (bindM_step _ _ _ (inr ctx) (set_next_ctx (Some (AddTxsCnt 1 next)) (set_world w1 a))).
  2: { apply tryM_ret. unfold new_context. rewrite (bindM_step _ _ _ t a) by (unfold liftO; by rewrite Hdec).
       rewrite (bindM_step _ _ _ tt (set_next_ctx (Some (AddTxsCnt 1 next)) a))
         by (unfold upd_next, next_ctx, bindM, getsM, modifyM; cbn; by rewrite Hn).
       unfold bindM, getsM, world, zoom. cbn [lget l_world l_acct app_world set_next_ctx app_ChainID]. fold L. by rewrite Hctx. }
  cbn beta iota.
  destruct (execute_transfer w1 ctx from to price pub) as (L' & Hexe & Hi' & Hn' & Hpaid); [done|done|exact Hpay|done|done|].
  set (ctx' := set_GasUsed (tx_Gas t) (set_SenderPubKey pub ctx)). exists L'.
  destruct Hpay. split_and!; [|done|done|].
  - rewrite (bindM_step _ _ _ (inr tt, ctx') (set_next_ctx (Some (AddTxsCnt 1 next)) (set_world (lset l_acct L' w1) a)))
      by (unfold execute; cbn [app_world set_next_ctx set_world]; by rewrite Hexe).
    unfold bindM at 1, getsM. unfold bindM at 1, liftO, GasPrice, deref. change (params_of _) with (params_of (app_world a)). rewrite py_params0.
    unfold upd_next, next_ctx, bindM, getsM, modifyM. cbn. rewrite gas_fee by done. unfold ok_response, retM. cbn.
    by rewrite i64_id by (unfold is_i64, MaxInt64 in *; lia).
  - apply (paid_view L L1); [|exact Hpaid]. intros sd' k Hk. rewrite Hv1, decide_False; [done|]. rewrite <- Hkt. tauto.
Qed.

(** C1: a transfer in a block.  Let the bytes of a transaction decode to a
    transfer [t] whose sender exists and which meets the conditions of
    [payable] (lengths, gas price, minimal fee, signature, nonce, funds), and
    let the receiver be an account without code, or new.  Then [DeliverTx]
    answers with code 0, the gas of the transaction and one event that names
    sender, receiver and amount, the accounts change
    exactly by the amount, the fee and the nonce, the fees and the number of
    transactions of the block grow by the fee and by one, and no other
    controller changes. *)
Theorem deliver_transfer (utf8_empty : utf8 ""%string) (a : app) (next : BlockContext) (bz : list Byte.byte) (t : Trx)
    (from : Account) (price : Z) (pub : list Byte.byte) :
  let L := w_acct (app_world a) in
  let to := account_at L Deliver (tx_To t) in
  let fee := price * tx_Gas t in
  app_next a = Some next -> Trx_Decode bz = Ret t -> ledger_inv ok L -> no_removed L ->
  visible L Deliver (ToLedgerKey (tx_From t)) = Some from ->
  payable (params_of (app_world a)) (app_ChainID a) t from price pub ->
  Code_ to = None -> Balance to + tx_Amount t < 2 ^ 256 ->
  exists L', DeliverTx tmjson_Unmarshal tx_hash bz a =
      (Ret (mkResponse CodeTypeOK "" [] (tx_Gas t) (tx_Gas t) [ok_event t]),
       set_next_ctx (Some (AddFee fee (AddTxsCnt 1 next))) (set_world (lset l_acct L' (app_world a)) a)) /\
    ledger_inv ok L' /\ no_removed L' /\ paid L L' Deliver from to (tx_Amount t) fee.
Proof. exact (deliver_transfer_run utf8_empty a next bz t from price pub). Qed.
End Deliver.

(** ** Witness *)
#[export] Instance sceneJson : Codec BlockContextJSON := oneCodec.

Definition sceneBlock (h : Z) : RequestBeginBlock := mkBeginBlock (mkHeader h 0 bobAddr []) [] [].
(** Block 4 is the last one, block 5 is open. *)
Definition sceneApp : @RigoApp mapTree Z (gmap string (list Byte.byte)) :=
  mkApp (Some (NewBlockContext (sceneBlock 4))) (Some (NewBlockContext (sceneBlock 5))) (OpenMetaDB ∅) sceneWorld "rigo".
Definition sendBz : list Byte.byte := match Trx_Encode sendTx with Ret bz => bz | _ => [] end.

Definition alicePub : list Byte.byte := aliceAddr ++ replicate 13 Byte.x00.

Lemma send_payable : payable Test1GovParams "rigo" sendTx rich 10 alicePub.
Proof.
  constructor; cbn [sendTx tx_Type tx_From tx_To tx_Amount tx_Gas tx_GasPrice tx_Nonce rich Nonce Balance]; try reflexivity; try (unfold MaxInt64; lia).
  vm_compute. discriminate.
Qed.

Lemma deliver_transfer_witness :
  exists L', DeliverTx callUnmarshal id sendBz sceneApp =
      (Ret (mkResponse CodeTypeOK "" [] 20 20 [ok_event sendTx]),
       set_next_ctx (Some (AddFee 200 (AddTxsCnt 1 (NewBlockContext (sceneBlock 5))))) (set_world (lset l_acct L' sceneWorld) sceneApp)) /\
    paid sceneAccts L' Deliver rich bob 300 200.
Proof.
  destruct (deliver_transfer callUnmarshal id anyStr I sceneApp (NewBlockContext (sceneBlock 5)) sendBz sendTx rich 10 alicePub)
    as (L' & H1 & _ & _ & H2).
  - reflexivity.
  - vm_compute. reflexivity.
  - apply sceneAccts_ok.
  - apply sceneAccts_ok.
  - vm_compute. reflexivity.
  - exact send_payable.
  - vm_compute. reflexivity.
  - vm_compute. reflexivity.
  - exists L'. split; [exact H1|exact H2].
Defined.
