(* ===== verification/AppProps.v ===== *)
(** * Theorems about the application

    The height of blocks, transactions that cannot be read, and the delivery of
    a transfer with its fee. *)

From Stdlib Require Import Strings.Byte.
From S2P Require Import Prelude Xerrors GoSem Bytes Crypto Ledger LedgerSpec LedgerClient LedgerProps Concrete GovParams Account Trx Context.
From S2P Require Import AcctCtrler AcctProps Stake StakeLimiter StakeCtrler Proposal GovCtrler GovProps Executor Scene ExecutorProps MetaDB App Delivery.

Section AppTheorems.
Context {Tr E DB : Type} {Tree : Iavl Tr} {TDB : TmDB DB} {CB : Codec BlockContextJSON}.
Context {CA : Codec AcctProto} {CS : Codec Stake} {CD : Codec Delegatee} {CR : Codec RewardProto}.
Context {CGP : Codec GovParamsProto} {CGJ : Codec GovParamsJSON} {D : DecCodec} {CP : Codec GovProposal}.
Context {RL : RlpLib} {SL : EthCrypto}.
Context {CU : Codec TrxPayloadUnstakingProto} {CW : Codec TrxPayloadWithdrawProto}
        {CPP : Codec TrxPayloadProposalProto} {CV : Codec TrxPayloadVotingProto}
        {CC : Codec TrxPayloadContractProto} {CSD : Codec TrxPayloadSetDocProto} {CT : Codec TrxProto}.
Context {VM : IVMHandler E (FinalityLedger Account Tr)}.
Context (tmjson_Unmarshal : (list Byte.byte -> string + GovParams) -> list Byte.byte -> string + GovParams).
Context (tx_hash : list Byte.byte -> list Byte.byte).
Abbreviation app := (@RigoApp Tr E DB).

(** ** Heights *)

(** The last block and the header of the current one stay. *)
Definition same_blocks (a a' : app) : Prop :=
  app_last a' = app_last a /\ option_map bc_blockInfo (app_next a') = option_map bc_blockInfo (app_next a).

#[local] Instance same_blocks_refl : Reflexive same_blocks.
Proof. by intros a. Qed.
#[local] Instance same_blocks_trans : Transitive same_blocks.
Proof. intros a b c [H1 H2] [H3 H4]. split; congruence. Qed.

Lemma keeps_world {B} (m : GoM (@World Tr E) B) : keeps same_blocks (world (DB := DB) m).
Proof. intros a. unfold world, zoom. by destruct (m (lget l_world a)). Qed.

Lemma keeps_must {B} (m : GoM app B) : keeps same_blocks m -> keeps same_blocks (mustM m).
Proof. intros Hm. unfold mustM. keeps_tac; done. Qed.

Lemma keeps_next : keeps same_blocks (next_ctx (Tr := Tr) (E := E) (DB := DB)).
Proof. unfold next_ctx. keeps_tac. Qed.

Lemma keeps_upd_next f : (forall b, bc_blockInfo (f b) = bc_blockInfo b) -> keeps same_blocks (upd_next (Tr := Tr) (E := E) (DB := DB) f).
Proof.
  intros Hf a. unfold upd_next, next_ctx, bindM, getsM, modifyM. destruct (app_next a) as [b|] eqn:Eb; cbn; [|done].
  split; [done|]. cbn. by rewrite Eb, Hf.
Qed.

Lemma keeps_execute ctx : keeps same_blocks (execute (DB := DB) tmjson_Unmarshal ctx).
Proof. intros a. unfold execute. by destruct (ExecuteSync tmjson_Unmarshal (app_world a, ctx)) as [[u|e|] x]. Qed.

(** The steps of the application first, then the structure around them. *)
Ltac app_steps :=
  repeat first
    [ apply keeps_next | apply keeps_world | apply keeps_execute | apply keeps_must
    | apply keeps_upd_next; done
    | apply keeps_bind; [exact _| |intros ?]
    | apply keeps_ret; exact _ | apply keeps_panic; exact _ | apply keeps_lift; exact _ | apply keeps_gets; exact _
    | apply keeps_try
    | case_match ].

Lemma keeps_deliver tx : keeps same_blocks (DeliverTx (DB := DB) tmjson_Unmarshal tx_hash tx).
Proof.
  unfold DeliverTx, deliverTxSync, new_context. app_steps.
Qed.

Lemma keeps_endblock : keeps same_blocks (App_EndBlock (DB := DB) tmjson_Unmarshal).
Proof. unfold App_EndBlock. app_steps. Qed.

Lemma begin_inv req (a a1 : app) ev :
  App_BeginBlock (DB := DB) req a = (Ret ev, a1) ->
  exists b, app_last a = Some b /\ hd_Height (bi_Header req) = i64 (bc_Height b + 1) /\
            app_last a1 = app_last a /\ option_map bc_blockInfo (app_next a1) = Some req.
Proof.
  unfold App_BeginBlock. intros (b & a0 & Hlast & H)%bindM_inv.
  assert (app_last a = Some b /\ a0 = a) as [Hb ->].
  { unfold last_ctx, bindM, getsM in Hlast. destruct (app_last a); [|done]. by injection Hlast as -> <-. }
  destruct (hd_Height (bi_Header req) =? i64 (bc_Height b + 1)) eqn:Eh; cbn [negb] in H; [|done].
  unfold bindM at 1, modifyM in H. set (a2 := set_next_ctx (Some (NewBlockContext req)) a) in H.
  assert (Hk : same_blocks a2 a1).
  { change a1 with (Ret ev, a1).2. rewrite <- H. match goal with |- same_blocks _ (?m a2).2 => cut (keeps same_blocks m); [intros Hm; apply Hm|] end.
    app_steps. }
  destruct Hk as [H1 H2]. exists b. split_and!; [done|lia|by rewrite H1|by rewrite H2].
Qed.

Lemma keeps_meta {B} (m : GoM (@MetaDB DB) B) : keeps same_blocks (meta (Tr := Tr) (E := E) m).
Proof. intros a. unfold meta, zoom. by destruct (m (lget l_meta a)). Qed.

(** The end of [Commit]: the block that was open is the last one. *)
Lemma commit_inv (a a' : app) h :
  App_Commit (DB := DB) a = (Ret h, a') ->
  exists b', option_map bc_blockInfo (app_next a) = Some (bc_blockInfo b') /\ app_last a' = Some b' /\ app_next a' = None /\ bc_appHash b' = h.
Proof.
  unfold App_Commit. intros (b0 & a00 & [-> _]%next_ctx_inv & (hv0 & a0 & H0 & (hv1 & a1 & H1 & (hv2 & a2 & H2 & (hv3 & a3 & H3 & H)%bindM_inv)%bindM_inv)%bindM_inv)%bindM_inv)%bindM_inv.
  assert (Hs : same_blocks a a3).
  { pose proof (keeps_must _ (keeps_world (zoom l_gov (GovCtrler_Commit DefaultHash))) a) as K0. rewrite H0 in K0.
    pose proof (keeps_must _ (keeps_world (zoom l_acct AcctCtrler_Commit)) a0) as K1. rewrite H1 in K1.
    pose proof (keeps_must _ (keeps_world (zoom l_stake_acct (StakeCtrler_Commit DefaultHash))) a1) as K2. rewrite H2 in K2.
    pose proof (keeps_must _ (keeps_world (zoom l_vm_acct vm_Commit)) a2) as K3. rewrite H3 in K3.
    etrans; [exact K0|]. etrans; [exact K1|]. etrans; [exact K2|exact K3]. }
  destruct (_ || _); [done|]. set (hash := DefaultHash _) in H.
  apply bindM_inv in H as ([] & a4 & H4 & (b' & a5 & H5 & H)%bindM_inv).
  unfold upd_next, next_ctx, bindM, getsM, modifyM in H4. destruct (app_next a3) as [b3|] eqn:Eb; [|done]. injection H4 as <-.
  unfold next_ctx, bindM, getsM in H5. cbn in H5. injection H5 as <- <-.
  apply bindM_inv in H as (u1 & a6 & H6 & (u2 & a7 & H7 & H)%bindM_inv). unfold bindM, modifyM in H. injection H as <- <-.
  exists (SetAppHash hash b3). split_and!; try done. destruct Hs as [_ Hs]. rewrite <- Hs, Eb. done.
Qed.

(** One block, as the consensus engine drives it. *)
Definition run_block (req : RequestBeginBlock) (txs : list (list Byte.byte)) : GoM app (list Byte.byte) :=
  do! App_BeginBlock (DB := DB) req in
  do! forM_ txs (fun tx => do! DeliverTx tmjson_Unmarshal tx_hash tx in retM tt) in
  do! App_EndBlock tmjson_Unmarshal in
  App_Commit.

(** Heights.  A block that is processed without panic has the height of
    the last block plus one, and becomes the last block: after it no block is
    open and the recorded last height has grown by exactly one, whatever the
    transactions were. *)
Theorem block_height_increments (req : RequestBeginBlock) (txs : list (list Byte.byte)) (a a' : app) (h : list Byte.byte) :
  run_block req txs a = (Ret h, a') ->
  exists b b', app_last a = Some b /\ app_last a' = Some b' /\ app_next a' = None /\
    bc_Height b' = i64 (bc_Height b + 1) /\ bc_blockInfo b' = req /\ bc_appHash b' = h.
Proof.
  unfold run_block. intros (ev & a1 & H1 & (u & a2 & H2 & (up & a3 & H3 & H4)%bindM_inv)%bindM_inv)%bindM_inv.
  destruct (begin_inv req a a1 ev H1) as (b & Hb & Hh & Hl1 & Hn1).
  assert (Hs : same_blocks a1 a3).
  { change a2 with (Ret u, a2).2 in *. etrans; [|change a3 with (Ret up, a3).2; rewrite <- H3; apply keeps_endblock].
    change a2 with (Ret u, a2).2. rewrite <- H2. apply keeps_forM; [exact _..|]. intros tx. apply keeps_bind; [exact _|apply keeps_deliver|]. intros r. apply keeps_ret. exact _. }
  destruct (commit_inv a3 a' h H4) as (b' & Hn3 & Hl' & Hn' & Hhash). destruct Hs as [Hs1 Hs2].
  exists b, b'. rewrite Hn1, Hn3 in Hs2. injection Hs2 as Hs2. split_and!; try done. unfold bc_Height at 1. by rewrite Hs2, Hh.
Qed.

(** ** Transactions that cannot be read *)

(** [DeliverTx] of a transaction that cannot be decoded, or whose sender
    has no account, is a panic: the context is nil and its field is read to
    build the event. *)
Theorem deliver_unreadable_panics (a : app) (next : BlockContext) (tx : list Byte.byte) :
  app_next a = Some next ->
  (exists e, Trx_Decode tx = Err e) \/
  (exists t e L', Trx_Decode tx = Ret t /\ get_on Deliver (ToLedgerKey (tx_From t)) (w_acct (app_world a)) = (Err e, L')) ->
  (DeliverTx (DB := DB) tmjson_Unmarshal tx_hash tx a).1 = Panic.
Proof.
  intros Hn Hbad. unfold DeliverTx, deliverTxSync.
  rewrite (bindM_step _ _ _ next a) by (unfold next_ctx, bindM, getsM; by rewrite Hn).
  assert (Herr : exists e a1, new_context tx_hash tx (bc_Height next) (bc_TimeSeconds next) (bc_txsCnt next) true (upd_next (AddTxsCnt 1)) a = (Err e, a1)).
  { unfold new_context. destruct Hbad as [[e He]|(t & e & L' & Ht & Hg)]; [unfold bindM at 1, liftO; rewrite He; by eexists _, _|].
    rewrite (bindM_step _ _ _ t a) by (unfold liftO; by rewrite Ht).
    rewrite (bindM_step _ _ _ tt (set_next_ctx (Some (AddTxsCnt 1 next)) a))
      by (unfold upd_next, next_ctx, bindM, getsM, modifyM; cbn; by rewrite Hn).
    unfold bindM at 1, getsM. unfold world, zoom. cbn [lget l_world l_acct app_world set_next_ctx].
    unfold new_trx_context. cbn [FindAccount AcctCtrler_handler]. unfold findAccount, bindM, tryM. cbn [side_of]. rewrite Hg. by eexists _, _. }
  destruct Herr as (e & a1 & Herr). rewrite (bindM_step _ _ _ _ _ (tryM_err _ _ _ _ Herr)). done.
Qed.
End AppTheorems.

(** ** Witnesses *)

(** The block with alice's transfer, from its beginning to its commit. *)
Lemma block_height_increments_witness :
  exists a' h b b', run_block callUnmarshal id (sceneBlock 5) [sendBz] sceneApp = (Ret h, a') /\
    app_last sceneApp = Some b /\ app_last a' = Some b' /\ bc_Height b' = i64 (bc_Height b + 1).
Proof.
  destruct (run_block callUnmarshal id (sceneBlock 5) [sendBz] sceneApp) as [r a'] eqn:E.
  assert (Hr : exists h, r = Ret h) by (change r with (r, a').1; rewrite <- E; eexists; vm_compute; reflexivity).
  destruct Hr as [h ->]. exists a', h.
  destruct (block_height_increments callUnmarshal id (sceneBlock 5) [sendBz] sceneApp a' h E) as (b & b' & H1 & H2 & _ & H3 & _).
  exists b, b'. split; [reflexivity|]. split; [exact H1|]. split; assumption.
Defined.

(** A transaction of an unknown sender. *)
Definition strangerBz : list Byte.byte :=
  match Trx_Encode (mkTrx 1 0 0 (replicate 20 Byte.x0c) bobAddr 1 20 10 TRX_TRANSFER None []) with Ret bz => bz | _ => [] end.

Lemma deliver_unreadable_panics_witness : (DeliverTx callUnmarshal id strangerBz sceneApp).1 = Panic.
Proof.
  apply (deliver_unreadable_panics callUnmarshal id sceneApp (NewBlockContext (sceneBlock 5)) strangerBz eq_refl).
  right. eexists _, _, _. split; vm_compute; reflexivity.
Defined.
