(* ===== verification/Genesis.v ===== *)
(** * The start of a chain: [genesis/], and what [InitChain] installs

    A genesis document holds the application state as JSON and its hash;
    [InitChain] reads the state, hashes it again and fills the ledgers of the
    controllers. *)

From Stdlib Require Import Strings.Byte.
From S2P Require Import Prelude Xerrors GoSem Bytes Crypto Ledger LedgerSpec LedgerClient LedgerProps Concrete GovParams Account Trx Context AcctCtrler AcctProps AcctClient.
From S2P Require Import Stake StakeProps StakeLimiter StakeCtrler Proposal GovCtrler GovProps Executor Scene Staking MetaDB App Delivery Units.

Lemma forM_map {S A B} (f : A -> B) (l : list A) (g : B -> GoM S unit) s : forM_ (map f l) g s = forM_ l (fun x => g (f x)) s.
Proof. revert s. induction l as [|x l IH]; intros s; [done|]. cbn. unfold bindM. destruct (g (f x) s) as [[u|e|] s']; [apply IH|done..]. Qed.

(** ** Documents *)
Record HolderJSON : Type := mkHolderJSON { hj_Address : list Byte.byte; hj_Balance : string }.

Section Documents.
Context {D : DecCodec} {CH : Codec HolderJSON} {CGP : Codec GovParamsProto} {EC : EthCrypto}.

Definition holder_MarshalJSON (gh : GenesisAssetHolder) : outcome (list Byte.byte) :=
  match codec_Marshal (mkHolderJSON (gh_Address gh) (u256_Dec (gh_Balance gh))) with inl e => Err (NewOrdinary e) | inr bz => Ret bz end.
Definition holder_UnmarshalJSON (bz : list Byte.byte) : outcome GenesisAssetHolder :=
  match codec_Unmarshal bz with
  | inl e => Err (NewOrdinary e)
  | inr tm => match u256_FromDecimal (hj_Balance tm) with inl e => Err (NewOrdinary e) | inr bal => Ret (mkHolder (hj_Address tm) bal) end
  end.

Lemma holder_json_roundtrip {DL : DecLaws} (valid : HolderJSON -> Prop) {HL : CodecLaws HolderJSON valid} gh bz :
  is_u256 (gh_Balance gh) -> valid (mkHolderJSON (gh_Address gh) (u256_Dec (gh_Balance gh))) -> holder_MarshalJSON gh = Ret bz -> holder_UnmarshalJSON bz = Ret gh.
Proof.
  intros Hb Hv. unfold holder_MarshalJSON. destruct (codec_Marshal _) as [|bz'] eqn:E; [done|]. intros [= <-].
  unfold holder_UnmarshalJSON. rewrite (codec_roundtrip _ _ Hv E). cbn. rewrite dec_roundtrip by done. by destruct gh.
Qed.

(** The fields that come from the arguments; the parameters of blocks and evidence
    are Tendermint's defaults. *)
Record GenesisDoc : Type := mkGenesisDoc {
  gd_ChainID : string; gd_GenesisTime : Z; gd_PubKeyTypes : list string; gd_AppVersion : Z;
  gd_Validators : list (list Byte.byte * Z); gd_AppState : list Byte.byte; gd_AppHash : list Byte.byte;
}.
Definition NewGenesisDoc (tmjson_Marshal : GenesisAppState -> string + list Byte.byte) (now : Z) (v : Version_)
    (chainID : string) (validators : list (list Byte.byte * Z)) (assetHolders : list GenesisAssetHolder) (govParams : GovParams) : outcome GenesisDoc :=
  let appState := mkGenesis assetHolders govParams in
  match tmjson_Marshal appState with
  | inl e => Err (NewOrdinary e)
  | inr blob =>
      match genesis_Hash appState with
      | Ret appHash => Ret (mkGenesisDoc chainID now ["secp256k1"%string] (majorVer v) validators blob appHash)
      | Err e => Err e
      | Panic => Panic
      end
  end.
End Documents.

(** ** [InitChain] *)
Section InitChain.
Context {Tr E DB : Type} {Tree : Iavl Tr} {View : IavlView Tr} {Laws : IavlLaws Tr} {Total : IavlTotal Tr} {TDB : TmDB DB} {CB : Codec BlockContextJSON}.
Context {CA : Codec AcctProto} {CS : Codec Stake} {CD : Codec Delegatee} {CR : Codec RewardProto}.
Context {CGP : Codec GovParamsProto} {CGJ : Codec GovParamsJSON} {D : DecCodec} {CP : Codec GovProposal}.
Context {RL : RlpLib} {EC : EthCrypto} {VM : IVMHandler E (FinalityLedger Account Tr)}.
Context (tmjson_genesis : list Byte.byte -> string + GenesisAppState).
Context (utf8 : string -> Prop) (utf8_empty : utf8 ""%string).
Context {CL : CodecLaws AcctProto acct_proto_range} {CTot : CodecTotal AcctProto (acct_proto_valid utf8)}.
Context {DL : CodecLaws Delegatee delegatee_range} {DT : CodecTotal Delegatee delegatee_range}.
Abbreviation ok := (acct_ok utf8).
Abbreviation app := (@RigoApp Tr E DB).
Abbreviation accounts := (FinalityLedger Account Tr).
Abbreviation delegatees := (FinalityLedger Delegatee Tr).

Definition holder_account (h : GenesisAssetHolder) : Account := mkAccount (gh_Address h) "" 0 (gh_Balance h) None "".
Definition val_addr (v : list Byte.byte * Z) : list Byte.byte := tm_Address v.1.
Definition val_delegatee (v : list Byte.byte * Z) : Delegatee :=
  AddStake [NewStakeWithPower (val_addr v) (val_addr v) v.2 1 (ZeroBytes 32)] (NewDelegatee (val_addr v) v.1).

Lemma holders_run (L : accounts) gs : ledger_inv ok L -> no_removed L -> Forall (fun h => is_u256 (gh_Balance h)) (AssetHolders gs) ->
  exists L', AcctCtrler_InitLedger (Some gs) L = (Ret tt, L') /\ ledger_inv ok L' /\ no_removed L' /\
    forall sd k, visible L' sd k = if decide (sd = Deliver) then installed (map holder_account (AssetHolders gs)) k (visible L sd k) else visible L sd k.
Proof.
  intros Hi Hn Hb. destruct (install_all ok L (map holder_account (AssetHolders gs)) Hi Hn) as (L' & Hrun & Hi' & Hn' & Hv').
  { apply list.Forall_fmap. eapply list.Forall_impl; [exact Hb|]. intros h Hh. split_and!; try done. }
  exists L'. split_and!; [|done..]. rewrite forM_map in Hrun. exact Hrun.
Qed.

(** *** Validators *)
Definition init_stake (v : list Byte.byte * Z) : InitStake := mkInitStake v.1 [NewStakeWithPower (val_addr v) (val_addr v) v.2 1 (ZeroBytes 32)].
Definition val_ok (v : list Byte.byte * Z) : Prop := length v.1 = 33%nat /\ length (val_addr v) = AddrSize /\ 0 < v.2 < 2 ^ 63.

(** The account of a key after the validators have got theirs. *)
Definition with_validators (vals : list (list Byte.byte * Z)) (k : list Byte.byte) (o : option Account) : option Account :=
  fold_left (fun o v => if decide (ToLedgerKey (val_addr v) = k) then Some (default (NewAccountWithName (val_addr v) "") o) else o) vals o.

Lemma genesis_stakes_run (a : app) vals acc : ledger_inv ok (w_acct (app_world a)) -> no_removed (w_acct (app_world a)) -> Forall val_ok vals ->
  exists L', foldM genesis_stake vals acc a = (Ret (acc ++ map init_stake vals), set_world (lset l_acct L' (app_world a)) a) /\ ledger_inv ok L' /\ no_removed L' /\
    forall sd k, visible L' sd k = if decide (sd = Deliver) then with_validators vals k (visible (w_acct (app_world a)) sd k) else visible (w_acct (app_world a)) sd k.
Proof.
  intros Hi Hn Hv. revert a acc Hi Hn. induction Hv as [|v vals (Hl & _ & _) _ IH]; intros a acc Hi Hn.
  - exists (w_acct (app_world a)). split_and!; [|done|done|intros sd k; by case_decide]. cbn. rewrite app_nil_r. unfold retM. do 2 f_equal. destruct a as [? ? ? []]. done.
  - destruct (find_or_new_spec utf8 utf8_empty (w_acct (app_world a)) (val_addr v) true Hi Hn) as (q & L1 & Hrun & Hi1 & Hn1 & _ & _ & _ & Hv1). cbn [side_of] in *.
    set (a1 := set_world (lset l_acct L1 (app_world a)) a). destruct (IH a1 (acc ++ [init_stake v])) as (L' & Hrun' & Hi' & Hn' & Hv'); [done..|].
    exists L'. split_and!; [|done|done|].
    + cbn [foldM]. rewrite (bindM_step _ _ _ (acc ++ [init_stake v]) a1); [by rewrite Hrun', <-app_assoc; destruct a as [? ? ? []]|].
      unfold genesis_stake. rewrite (bindM_step _ _ _ (val_addr v) a) by (unfold mustM, liftO, PubBytes2Addr; by rewrite Hl).
      rewrite (bindM_step _ _ _ q a1); [done|]. unfold world. apply (zoom_eq l_world). apply (zoom_eq l_acct). exact Hrun.
    + intros sd k. rewrite Hv'. destruct (decide (sd = Deliver)) as [->|Hsd]; cbn [a1 app_world set_world lset l_acct w_acct]; rewrite Hv1.
      * cbn [with_validators fold_left]. unfold account_at. destruct (decide (ToLedgerKey (val_addr v) = k)) as [<-|Hk]; [by rewrite decide_True|].
        by rewrite decide_False by (intros [_ ?]; congruence).
      * by rewrite decide_False by tauto.
Qed.

Lemma val_delegatee_key v : dg_PubKey (val_delegatee v) = v.1.
Proof. done. Qed.

Lemma val_delegatee_ok v : val_ok v -> delegatee_ok (val_delegatee v) /\ Key (val_delegatee v) = ToLedgerKey (val_addr v) /\
  dg_SelfPower (val_delegatee v) = v.2 /\ dg_TotalPower (val_delegatee v) = v.2.
Proof.
  intros (Hl & Ha & Hp). unfold val_delegatee. set (s0 := NewStakeWithPower _ _ _ _ _). set (d0 := NewDelegatee _ _).
  assert (Hw : delegatee_wf (AddStake [s0] d0)).
  { apply add_stake_wf; [|intros s ->%list_elem_of_singleton; split; [done|cbn; lia]|unfold sumZ; cbn; lia]. constructor; cbn; try done; [|intros s Hs; by apply not_elem_of_nil in Hs]. intros E'. by rewrite E' in Ha. }
  assert (Hs : self_stakes [s0] = [s0]) by (unfold self_stakes; cbn; unfold IsSelfStake; cbn; by rewrite (proj2 (compare_eq _ _))).
  rewrite add_stake_eq in * by (cbn; unfold is_i64; lia). rewrite Hs in *. unfold sumZ in *. cbn [foldr st_Power s0 NewStakeWithPower d0 NewDelegatee dg_SelfPower dg_TotalPower] in *.
  rewrite !i64_id in * by (unfold is_i64; cbn; lia). split_and!; [|done|cbn; lia|cbn; lia]. split; [done|]. constructor; cbn; try (unfold is_i64; lia); [|intros h Hh; by apply not_elem_of_nil in Hh].
  intros s ->%list_elem_of_singleton. constructor; cbn; unfold is_i64; lia.
Qed.

Lemma init_stakes_run (c : @StakeCtrler Tr) (L : accounts) vals DD : forM_ (map val_delegatee vals) install (sc_delegateeLedger c) = (Ret tt, DD) ->
  StakeCtrler_InitLedger (Some (map init_stake vals)) (c, L) = (Ret tt, (lset l_delegatees DD c, L)).
Proof.
  cbn [StakeCtrler_InitLedger]. revert c. induction vals as [|v vals IH]; intros c; cbn [map forM_]; [intros [= <-]; by destruct c|].
  unfold bindM at 1. destruct (install (val_delegatee v) (sc_delegateeLedger c)) as [[[]|e|] D1] eqn:Hd; [|done..]. intros Hr.
  rewrite (bindM_step _ _ _ tt (lset l_delegatees D1 c, L)); [by rewrite (IH (lset l_delegatees D1 c)); destruct c|].
  cbn [is_Stakes init_stake forM_]. rewrite (bindM_step _ _ _ tt (lset l_delegatees D1 c, L)); [done|]. apply on_delegatees_run. exact Hd.
Qed.

(** What the application needs to start from the state [gs]: empty or consistent
    ledgers, balances and powers in range, addresses and keys of their lengths. *)
Record genesis_ready (a : app) (req : RequestInitChain) (gs : GenesisAppState) : Prop := {
  gr_chain : ic_ChainId req <> ""%string;
  gr_state : tmjson_genesis (ic_AppStateBytes req) = inr gs;
  gr_accounts : ledger_inv ok (w_acct (app_world a));
  gr_accounts_kept : no_removed (w_acct (app_world a));
  gr_delegatees : ledger_inv delegatee_ok (sc_delegateeLedger (w_stake (app_world a)));
  gr_delegatees_kept sd : removedKeys (mem_of sd (sc_delegateeLedger (w_stake (app_world a)))) = [];
  gr_balances : Forall (fun h => is_u256 (gh_Balance h)) (AssetHolders gs);
  gr_validators : Forall val_ok (ic_Validators req);
}.

Lemma with_validators_some vals k x : with_validators vals k (Some x) = Some x.
Proof. unfold with_validators. induction vals as [|v vals IH]; [done|]. cbn. by case_decide. Qed.

Lemma with_validators_in vals v o : v ∈ vals -> is_Some (with_validators vals (ToLedgerKey (val_addr v)) o).
Proof.
  unfold with_validators. revert o. induction vals as [|v0 vals IH]; intros o Hv; [by apply not_elem_of_nil in Hv|]. cbn. apply elem_of_cons in Hv as [->|Hv]; [|by apply IH].
  rewrite decide_True by done. exists (default (NewAccountWithName (val_addr v0) "") o). apply with_validators_some.
Qed.

Lemma with_validators_other vals k o : k ∉ map (fun v => ToLedgerKey (val_addr v)) vals -> with_validators vals k o = o.
Proof.
  unfold with_validators. revert o. induction vals as [|v0 vals IH]; intros o Hk; [done|]. cbn in *. rewrite decide_False by set_solver. apply IH. set_solver.
Qed.

Lemma delegatee_keys vals : map Key (map val_delegatee vals) = map (fun v => ToLedgerKey (val_addr v)) vals.
Proof. by rewrite map_map. Qed.

Lemma params_stored (P : FinalityLedger GovParams Tr) g : exists P', (let! p := alloc g in set_on Deliver p) P = (Ret tt, P').
Proof.
  eexists. rewrite (bindM_step _ _ _ (hnext (lheap P)) (set_heap (heap_alloc g (lheap P)).2 P)) by done. apply set_on_run. apply lookup_insert_eq.
Qed.

(** The run of [InitChain] with the ledgers it leaves. *)
Lemma init_chain_run a req gs h : genesis_ready a req gs -> genesis_Hash gs = Ret h ->
  exists a', InitChain tmjson_genesis req a = (Ret h, a') /\ params_of (app_world a') = gs_GovParams gs /\ app_ChainID a' = ic_ChainId req /\
    ledger_inv ok (w_acct (app_world a')) /\ ledger_inv delegatee_ok (sc_delegateeLedger (w_stake (app_world a'))) /\
    (forall sd k, visible (w_acct (app_world a')) sd k =
       if decide (sd = Deliver) then with_validators (ic_Validators req) k (installed (map holder_account (AssetHolders gs)) k (visible (w_acct (app_world a)) sd k))
       else visible (w_acct (app_world a)) sd k) /\
    (forall sd k, visible (sc_delegateeLedger (w_stake (app_world a'))) sd k =
       if decide (sd = Deliver) then installed (map val_delegatee (ic_Validators req)) k (visible (sc_delegateeLedger (w_stake (app_world a))) sd k)
       else visible (sc_delegateeLedger (w_stake (app_world a))) sd k).
Proof.
  intros [Hc Hg HiA HnA HiD HnD Hb Hv] Hh. unfold InitChain. rewrite bool_decide_eq_false_2 by done.
  rewrite (bindM_step _ _ _ tt (set_chain (ic_ChainId req) a)) by done.
  destruct (ignoreM (meta (PutChainID (ic_ChainId req))) (set_chain (ic_ChainId req) a)) as [r a1] eqn:Hm.
  assert (Ha1 : r = Ret tt /\ app_world a1 = app_world a /\ app_ChainID a1 = ic_ChainId req).
  { revert Hm. unfold ignoreM, meta, zoom, PutChainID, md_put. destruct (db_SetSync _ _ _); cbn; intros [= <- <-]; done. }
  destruct Ha1 as (-> & Hw1 & Hc1). rewrite (bindM_step _ _ _ _ _ Hm), Hg. rewrite (bindM_step _ _ _ h a1) by (unfold mustM, liftO; by rewrite Hh).
  destruct (zoom l_gov (GovCtrler_InitLedger (Some (gs_GovParams gs))) (app_world a1)) as [r2 w2] eqn:Hgov.
  assert (Hgv : r2 = Ret tt /\ w_acct w2 = w_acct (app_world a) /\ w_stake w2 = w_stake (app_world a) /\ params_of w2 = gs_GovParams gs).
  { revert Hgov. rewrite Hw1. cbn [GovCtrler_InitLedger]. destruct (params_stored (lget l_params (set_params (gs_GovParams gs) (gc_newGovParams (w_gov (app_world a))) (w_gov (app_world a)))) (gs_GovParams gs)) as [P' HP].
    unfold zoom at 1. rewrite (bindM_step _ _ _ tt (set_params (gs_GovParams gs) (gc_newGovParams (w_gov (app_world a))) (w_gov (app_world a)))) by done.
    unfold ignoreM. rewrite (zoom_eq l_params _ _ _ _ HP). intros [= <- <-]. done. }
  destruct Hgv as (-> & HwA & HwS & HwP). set (a2 := set_world w2 a1).
  rewrite (bindM_step _ _ _ tt a2) by (unfold mustM; rewrite (bindM_step _ _ _ (inr tt) a2); [done|]; apply tryM_ret, (zoom_eq l_world); exact Hgov).
  rewrite <-HwA in HiA, HnA. destruct (holders_run (w_acct w2) gs HiA HnA Hb) as (L3 & Hrun3 & Hi3 & Hn3 & Hv3). set (a3 := set_world (lset l_acct L3 w2) a2).
  rewrite (bindM_step _ _ _ tt a3) by (unfold mustM; rewrite (bindM_step _ _ _ (inr tt) a3); [done|]; apply tryM_ret, (zoom_eq l_world), (zoom_eq l_acct); exact Hrun3).
  destruct (genesis_stakes_run a3 (ic_Validators req) [] Hi3 Hn3 Hv) as (L4 & Hrun4 & Hi4 & Hn4 & Hv4). rewrite (bindM_step _ _ _ _ _ Hrun4).
  set (a4 := set_world (lset l_acct L4 (app_world a3)) a3).
  destruct (install_all delegatee_ok (sc_delegateeLedger (w_stake (app_world a))) (map val_delegatee (ic_Validators req)) HiD HnD) as (D5 & Hrun5 & Hi5 & _ & Hv5).
  { apply list.Forall_fmap. eapply list.Forall_impl; [exact Hv|]. intros v Hval. by apply val_delegatee_ok. }
  rewrite <-HwS in Hrun5. pose proof (init_stakes_run (w_stake w2) L4 (ic_Validators req) D5 Hrun5) as Hrun6.
  set (a5 := set_world (lset l_stake_acct (lset l_delegatees D5 (w_stake w2), L4) (app_world a4)) a4).
  exists a5. split_and!.
  - rewrite (bindM_step _ _ _ tt a5); [done|]. unfold mustM. rewrite (bindM_step _ _ _ (inr tt) a5); [done|]. apply tryM_ret, (zoom_eq l_world), (zoom_eq l_stake_acct). exact Hrun6.
  - exact HwP.
  - exact Hc1.
  - exact Hi4.
  - exact Hi5.
  - intros sd k. cbn [a5 app_world set_world lset l_stake_acct w_acct snd]. rewrite Hv4. cbn [a3 app_world set_world lset l_acct w_acct]. rewrite Hv3, HwA. by case_decide.
  - intros sd k. apply Hv5.
Qed.

(** C12: the chain starts in the state of its genesis document.  Let [NewGenesisDoc]
    make a document whose application state the node reads back.  Then
    [InitChain] answers with the hash that the document names, the parameters are
    those of the document, every asset holder has a new account with exactly its
    balance, every validator has an account and a delegatee with its public key, whose only
    stake is its own with the power of the document, and no other account or delegatee has
    changed; the view of [CheckTx] is not touched. *)
Theorem genesis_installed (tmjson_Marshal : GenesisAppState -> string + list Byte.byte) now v chain vals holders g doc a :
  NewGenesisDoc tmjson_Marshal now v chain vals holders g = Ret doc ->
  let req := mkInitChain (gd_ChainID doc) (gd_AppState doc) (gd_Validators doc) in
  genesis_ready a req (mkGenesis holders g) ->
  exists a', InitChain tmjson_genesis req a = (Ret (gd_AppHash doc), a') /\ params_of (app_world a') = g /\ app_ChainID a' = chain /\
    let L := w_acct (app_world a) in let L' := w_acct (app_world a') in
    let D0 := sc_delegateeLedger (w_stake (app_world a)) in let D' := sc_delegateeLedger (w_stake (app_world a')) in
    (NoDup (map (fun h => ToLedgerKey (gh_Address h)) holders) -> forall h, h ∈ holders -> visible L' Deliver (ToLedgerKey (gh_Address h)) = Some (holder_account h)) /\
    (forall val, val ∈ vals -> is_Some (visible L' Deliver (ToLedgerKey (val_addr val)))) /\
    (NoDup (map (fun val => ToLedgerKey (val_addr val)) vals) -> forall val, val ∈ vals -> exists d,
       visible D' Deliver (ToLedgerKey (val_addr val)) = Some d /\ dg_PubKey d = val.1 /\ dg_SelfPower d = val.2 /\ dg_TotalPower d = val.2) /\
    (forall k, k ∉ map (fun h => ToLedgerKey (gh_Address h)) holders -> k ∉ map (fun val => ToLedgerKey (val_addr val)) vals -> visible L' Deliver k = visible L Deliver k) /\
    (forall k, k ∉ map (fun val => ToLedgerKey (val_addr val)) vals -> visible D' Deliver k = visible D0 Deliver k) /\
    (forall k, visible L' Check k = visible L Check k /\ visible D' Check k = visible D0 Check k).
Proof.
  intros Hdoc req Hr. revert Hdoc. unfold NewGenesisDoc. cbv zeta. destruct (tmjson_Marshal _) as [|blob]; [done|]. destruct (genesis_Hash (mkGenesis holders g)) as [h| |] eqn:Hh; [|done..]. intros [= Hdoc].
  destruct (init_chain_run a req (mkGenesis holders g) h Hr Hh) as (a' & Hrun & Hp & Hc & _ & _ & HvA & HvD).
  pose proof (gr_validators _ _ _ Hr) as Hvals. subst doc. cbn in req. subst req. cbn [ic_Validators ic_ChainId] in *.
  assert (Hk : map Key (map holder_account holders) = map (fun h => ToLedgerKey (gh_Address h)) holders).
  { rewrite map_map. apply map_ext. intros hd. apply (new_key (gh_Address hd) ""). }
  exists a'. split_and!; [exact Hrun|exact Hp|exact Hc|..].
  - intros Hnd hd Hin. rewrite HvA, decide_True by done. cbn [AssetHolders]. rewrite <-(new_key (gh_Address hd) ""). change (Key (NewAccountWithName (gh_Address hd) "")) with (Key (holder_account hd)).
    rewrite (installed_in ok); [apply with_validators_some|by rewrite Hk|by apply list_elem_of_fmap_2].
  - intros val Hin. rewrite HvA, decide_True by done. by apply with_validators_in.
  - intros Hnd val Hin. pose proof (proj1 (list.Forall_forall _ _) Hvals val Hin) as Hval. destruct (val_delegatee_ok val Hval) as (_ & Hkey & Hs & Ht). exists (val_delegatee val).
    split_and!; [|apply val_delegatee_key|done|done]. rewrite HvD, decide_True by done. rewrite <-Hkey. apply (installed_in delegatee_ok); [by rewrite delegatee_keys|by apply list_elem_of_fmap_2].
  - intros k Hk1 Hk2. rewrite HvA, decide_True by done. rewrite with_validators_other by done. apply (installed_other ok). cbn [AssetHolders]. by rewrite Hk.
  - intros k Hk1. rewrite HvD, decide_True by done. apply (installed_other delegatee_ok). by rewrite delegatee_keys.
  - intros k. by rewrite HvA, HvD.
Qed.
End InitChain.

(** ** Witness: two holders, one of them a validator *)
Definition genHolders : list GenesisAssetHolder := [mkHolder aliceAddr 1000; mkHolder bobAddr 7].
Definition genVals : list (list Byte.byte * Z) := [(alicePub, 5)].
Definition genApp : @RigoApp mapTree Z (gmap string (list Byte.byte)) := mkApp None None (OpenMetaDB ∅) (mkWorld sceneGov noLedger sceneStake 0) "".
Definition genRead (bz : list Byte.byte) : string + GenesisAppState := inr (mkGenesis genHolders Test1GovParams).
Definition genWrite (gs : GenesisAppState) : string + list Byte.byte := inr [Byte.x01].

Lemma genesis_scene_ready : genesis_ready genRead anyStr genApp (mkInitChain "rigo" [Byte.x01] genVals) (mkGenesis genHolders Test1GovParams).
Proof.
  constructor; try done.
  - apply no_acct_inv.
  - intros []; done.
  - apply no_delegatee_inv.
  - intros []; done.
  - repeat constructor; cbn; lia.
  - constructor; [|constructor]. split_and!; [done|done|cbn; lia|cbn; lia].
Qed.

Lemma genesis_keys : NoDup (map (fun h => ToLedgerKey (gh_Address h)) genHolders) /\ NoDup (map (fun val => ToLedgerKey (val_addr val)) genVals).
Proof. split; apply (bool_decide_unpack _); vm_compute; exact I. Qed.

Lemma genesis_installed_witness : exists h a', InitChain genRead (mkInitChain "rigo" [Byte.x01] genVals) genApp = (Ret h, a') /\ params_of (app_world a') = Test1GovParams /\
  visible (w_acct (app_world a')) Deliver (ToLedgerKey aliceAddr) = Some (holder_account (mkHolder aliceAddr 1000)) /\
  exists d, visible (sc_delegateeLedger (w_stake (app_world a'))) Deliver (ToLedgerKey aliceAddr) = Some d /\ dg_TotalPower d = 5.
Proof.
  destruct (NewGenesisDoc genWrite 0 (mkVersion 1 3 19 0) "rigo" genVals genHolders Test1GovParams) as [doc| |] eqn:E; [|vm_compute in E; discriminate..].
  assert (Hd : exists h, doc = mkGenesisDoc "rigo" 0 ["secp256k1"%string] 1 genVals [Byte.x01] h).
  { revert E. unfold NewGenesisDoc. cbn [genWrite]. destruct (genesis_Hash _) as [h| |]; [|done..]. intros [= <-]. by exists h. }
  destruct Hd as [h ->]. exists h.
  destruct (genesis_installed genRead anyStr I genWrite 0 (mkVersion 1 3 19 0) "rigo" genVals genHolders Test1GovParams _ genApp E) as (a' & Hrun & Hp & _ & Hh & _ & Hd & _).
  { apply genesis_scene_ready. }
  exists a'. split_and!; [exact Hrun|exact Hp| |].
  - apply (Hh (proj1 genesis_keys) (mkHolder aliceAddr 1000)). apply list_elem_of_here.
  - destruct (Hd (proj2 genesis_keys) (alicePub, 5)) as (d & Hv & _ & _ & Ht); [apply list_elem_of_here|]. by exists d.
Defined.
