(* ===== verification/JsonText.v ===== *)
(** * JSON texts

    What the repository uses of [encoding/json] and of Tendermint's [tmjson] for
    genesis documents: texts are scanned value by value, the fields of a struct
    are taken by name from the raw text of an object, and a type with its own
    [UnmarshalJSON] gets the raw text of its value.  Numbers of 64 bits are
    written as texts by [tmjson], so no value is a JSON number; escapes in texts
    are not used and refused.  Instances of [Codec] for the structs of asset
    holders and parameters, with the law that what was written is read back. *)

From Stdlib Require Import Strings.Byte.
From S2P Require Import Prelude Xerrors GoSem Bytes GovParams Genesis.

(** ** Scanning *)
Definition expect (c : Byte.byte) (s : list Byte.byte) : option (list Byte.byte) :=
  match s with b :: r => if Byte.eqb b c then Some r else None | [] => None end.
Definition is_space (b : Byte.byte) : bool := Byte.eqb b Byte.x20 || Byte.eqb b Byte.x09 || Byte.eqb b Byte.x0a || Byte.eqb b Byte.x0d.
Fixpoint skip (s : list Byte.byte) : list Byte.byte := match s with b :: r => if is_space b then skip r else s | [] => [] end.

(** A byte of a text that is written as it is; [<], [>] and [&] are escaped too. *)
Definition plain_byte (b : Byte.byte) : bool :=
  (32 <=? byte_val b) && negb (existsb (Byte.eqb b) [Byte.x22; Byte.x5c; Byte.x3c; Byte.x3e; Byte.x26]).
(** The text up to the closing quote, and the rest. *)
Fixpoint scan_text (s : list Byte.byte) : option (list Byte.byte * list Byte.byte) :=
  match s with
  | [] => None
  | b :: r =>
      if Byte.eqb b Byte.x22 then Some ([], r)
      else if Byte.eqb b Byte.x5c || (byte_val b <? 32) then None
      else match scan_text r with Some (t, r') => Some (b :: t, r') | None => None end
  end.
Fixpoint scan_word (w s : list Byte.byte) : option (list Byte.byte) :=
  match w with [] => Some s | c :: w' => match expect c s with Some r => scan_word w' r | None => None end end.
Definition slice (s rest : list Byte.byte) : list Byte.byte := take (length s - length rest) s.

(** The rest after a value; the members of an object and the elements of an
    array with the raw texts of their values.  [fuel]: the length of the text. *)
Fixpoint scan_value (fuel : nat) (s : list Byte.byte) : option (list Byte.byte) :=
  match fuel with
  | O => None
  | S fuel' =>
      match expect Byte.x22 s with
      | Some r => match scan_text r with Some (_, r') => Some r' | None => None end
      | None =>
      match expect Byte.x7b s with
      | Some r => match expect Byte.x7d (skip r) with Some r' => Some r' | None => match scan_members fuel' (skip r) with Some (_, r') => Some r' | None => None end end
      | None =>
      match expect Byte.x5b s with
      | Some r => match expect Byte.x5d (skip r) with Some r' => Some r' | None => match scan_elements fuel' (skip r) with Some (_, r') => Some r' | None => None end end
      | None =>
      match scan_word (String.list_byte_of_string "null") s with
      | Some r => Some r
      | None => match scan_word (String.list_byte_of_string "true") s with Some r => Some r | None => scan_word (String.list_byte_of_string "false") s end
      end end end end
  end
with scan_members (fuel : nat) (s : list Byte.byte) : option (list (list Byte.byte * list Byte.byte) * list Byte.byte) :=
  match fuel with
  | O => None
  | S fuel' =>
      r0 ← expect Byte.x22 s;
      '(key, r1) ← scan_text r0;
      r2 ← expect Byte.x3a (skip r1);
      let v := skip r2 in
      r3 ← scan_value fuel' v;
      let raw := slice v r3 in
      match expect Byte.x2c (skip r3) with
      | Some r4 => '(ms, r5) ← scan_members fuel' (skip r4); Some ((key, raw) :: ms, r5)
      | None => r4 ← expect Byte.x7d (skip r3); Some ([(key, raw)], r4)
      end
  end
with scan_elements (fuel : nat) (s : list Byte.byte) : option (list (list Byte.byte) * list Byte.byte) :=
  match fuel with
  | O => None
  | S fuel' =>
      r3 ← scan_value fuel' s;
      let raw := slice s r3 in
      match expect Byte.x2c (skip r3) with
      | Some r4 => '(vs, r5) ← scan_elements fuel' (skip r4); Some (raw :: vs, r5)
      | None => r4 ← expect Byte.x5d (skip r3); Some ([raw], r4)
      end
  end.

Definition ends (s : list Byte.byte) : bool := match skip s with [] => true | _ => false end.
Definition raw_object (s : list Byte.byte) : option (list (list Byte.byte * list Byte.byte)) :=
  r ← expect Byte.x7b (skip s);
  match expect Byte.x7d (skip r) with
  | Some r' => if ends r' then Some [] else None
  | None => '(ms, r') ← scan_members (length s) (skip r); if ends r' then Some ms else None
  end.
Definition raw_array (s : list Byte.byte) : option (list (list Byte.byte)) :=
  r ← expect Byte.x5b (skip s);
  match expect Byte.x5d (skip r) with
  | Some r' => if ends r' then Some [] else None
  | None => '(vs, r') ← scan_elements (length s) (skip r); if ends r' then Some vs else None
  end.
Definition raw_text (s : list Byte.byte) : option (list Byte.byte) :=
  r ← expect Byte.x22 s; '(t, r') ← scan_text r; if ends r' then Some t else None.
Definition raw_null (s : list Byte.byte) : bool := bool_decide (s = String.list_byte_of_string "null").

(** ** Fields of structs *)

(** The raw text of a field; of several with one name the last counts. *)
Fixpoint field (name : string) (fs : list (list Byte.byte * list Byte.byte)) : option (list Byte.byte) :=
  match fs with
  | [] => None
  | (k, raw) :: r => match field name r with Some x => Some x | None => if bool_decide (k = String.list_byte_of_string name) then Some raw else None end
  end.
(** A text field: missing or null leaves it empty. *)
Definition text_field (name : string) (fs : list (list Byte.byte * list Byte.byte)) : option string :=
  match field name fs with
  | None => Some ""%string
  | Some raw => if raw_null raw then Some ""%string else t ← raw_text raw; Some (String.string_of_list_byte t)
  end.
(** A number of [tmjson]: the decimal digits as a text. *)
Definition int_field (name : string) (fs : list (list Byte.byte * list Byte.byte)) : option Z :=
  match field name fs with
  | None => Some 0
  | Some raw => if raw_null raw then Some 0 else t ← raw_text raw; ParseInt (String.string_of_list_byte t)
  end.
Definition uint_field (name : string) (fs : list (list Byte.byte * list Byte.byte)) : option Z :=
  match field name fs with
  | None => Some 0
  | Some raw =>
      if raw_null raw then Some 0
      else t ← raw_text raw; if bool_decide (t = []) then None else z ← parse_digits (String.string_of_list_byte t) 0; if z <? 2 ^ 64 then Some z else None
  end.

(** ** Writing objects whose values are texts *)
Definition plain (t : list Byte.byte) : Prop := forallb plain_byte t = true.
Definition quote (t : list Byte.byte) : list Byte.byte := Byte.x22 :: t ++ [Byte.x22].
Fixpoint write_members (ms : list (string * list Byte.byte)) : list Byte.byte :=
  match ms with
  | [] => [Byte.x7d]
  | [(k, t)] => quote (String.list_byte_of_string k) ++ Byte.x3a :: quote t ++ [Byte.x7d]
  | (k, t) :: ms' => quote (String.list_byte_of_string k) ++ Byte.x3a :: quote t ++ Byte.x2c :: write_members ms'
  end.
Definition write_object (ms : list (string * list Byte.byte)) : list Byte.byte := Byte.x7b :: write_members ms.
Definition raw_members (ms : list (string * list Byte.byte)) : list (list Byte.byte * list Byte.byte) :=
  map (fun m => (String.list_byte_of_string m.1, quote m.2)) ms.
Definition plain_members (ms : list (string * list Byte.byte)) : Prop := Forall (fun m => plain (String.list_byte_of_string m.1) /\ plain m.2) ms.

Lemma expect_same c r : expect c (c :: r) = Some r.
Proof. unfold expect. by rewrite (Byte.byte_dec_lb (x := c) (y := c) eq_refl). Qed.

Lemma skip_same b r : is_space b = false -> skip (b :: r) = b :: r.
Proof. cbn. by intros ->. Qed.

Lemma scan_plain t r : plain t -> scan_text (t ++ Byte.x22 :: r) = Some (t, r).
Proof.
  unfold plain. induction t as [|b t IH]; [done|]. cbn [forallb app scan_text]. intros [Hb Ht]%andb_prop. unfold plain_byte in Hb. apply andb_prop in Hb as [H32 Hn].
  cbn [existsb] in Hn. apply negb_true_iff in Hn. repeat (apply orb_false_iff in Hn as [? Hn]). rewrite H, H0. cbn [orb]. rewrite (proj2 (Z.ltb_ge _ _)) by lia. by rewrite IH.
Qed.

Lemma scan_quote fuel t r : plain t -> scan_value (S fuel) (quote t ++ r) = Some r.
Proof. intros Ht. unfold quote. cbn [scan_value app]. rewrite expect_same, <-app_assoc. cbn [app]. by rewrite scan_plain. Qed.

Lemma slice_app a r : slice (a ++ r) r = a.
Proof. unfold slice. rewrite length_app, Nat.add_sub. apply take_app_length. Qed.

Lemma scan_member fuel k t c r : plain (String.list_byte_of_string k) -> plain t -> c = Byte.x2c \/ c = Byte.x7d ->
  scan_members (S (S fuel)) (quote (String.list_byte_of_string k) ++ Byte.x3a :: quote t ++ c :: r) =
  (match expect Byte.x2c (c :: r) with
   | Some r4 => '(ms, r5) ← scan_members (S fuel) (skip r4); Some ((String.list_byte_of_string k, quote t) :: ms, r5)
   | None => r4 ← expect Byte.x7d (c :: r); Some ([(String.list_byte_of_string k, quote t)], r4)
   end).
Proof.
  intros Hk Ht Hc. remember (S fuel) as f eqn:Hf. cbn [scan_members]. unfold quote at 1. cbn [app]. rewrite expect_same. cbn [mbind option_bind]. rewrite <-app_assoc. cbn [app].
  rewrite scan_plain by done. cbn [mbind option_bind]. rewrite skip_same by done. rewrite expect_same. cbn [mbind option_bind].
  assert (Hs : skip (quote t ++ c :: r) = quote t ++ c :: r) by done. rewrite Hs. subst f. rewrite scan_quote by done. cbn [mbind option_bind]. rewrite slice_app.
  destruct Hc as [-> | ->]; done.
Qed.

Lemma scan_written ms r fuel : ms <> [] -> plain_members ms -> (S (length ms) <= fuel)%nat -> scan_members fuel (write_members ms ++ r) = Some (raw_members ms, r).
Proof.
  intros Hne Hp. revert fuel. induction Hp as [|[k t] ms [Hk Ht] Hp IH]; [done|]. intros fuel Hf. destruct fuel as [|[|fuel]]; [cbn in Hf; lia..|]. cbn [fst snd] in *.
  destruct ms as [|m ms].
  - cbn [write_members]. rewrite <-app_assoc. cbn [app]. rewrite <-app_assoc. cbn [app]. rewrite scan_member by auto. done.
  - change (write_members ((k, t) :: m :: ms)) with (quote (String.list_byte_of_string k) ++ Byte.x3a :: quote t ++ Byte.x2c :: write_members (m :: ms)).
    rewrite <-app_assoc. cbn [app]. rewrite <-app_assoc. cbn [app]. rewrite scan_member by auto. rewrite expect_same.
    assert (Hs : skip (write_members (m :: ms) ++ r) = write_members (m :: ms) ++ r) by (destruct m, ms; done). rewrite Hs, IH; [done|done|cbn in *; lia].
Qed.

Lemma written_length ms : (length ms <= length (write_members ms))%nat.
Proof.
  induction ms as [|[k t] [|m ms] IH]; [cbn; lia|cbn; lia|].
  change (write_members ((k, t) :: m :: ms)) with (quote (String.list_byte_of_string k) ++ Byte.x3a :: quote t ++ Byte.x2c :: write_members (m :: ms)).
  rewrite length_app. cbn [length]. rewrite length_app. cbn [length] in *. lia.
Qed.

(** An object that was written is read with the same members. *)
Lemma object_roundtrip ms : ms <> [] -> plain_members ms -> raw_object (write_object ms) = Some (raw_members ms).
Proof.
  intros Hne Hp. unfold raw_object, write_object. rewrite skip_same by done. rewrite expect_same. cbn [mbind option_bind].
  assert (Hs : skip (write_members ms) = write_members ms) by (destruct ms as [|[] []]; done).
  assert (He : expect Byte.x7d (write_members ms) = None) by (destruct ms as [|[] []]; done). rewrite Hs, He.
  rewrite <-(app_nil_r (write_members ms)). rewrite scan_written; [done|done|done|]. cbn [length]. rewrite app_nil_r. pose proof (written_length ms). lia.
Qed.

(** ** The structs *)
Lemma field_cons name k t ms : field name (raw_members ((k, t) :: ms)) =
  match field name (raw_members ms) with Some x => Some x | None => if bool_decide (name = k) then Some (quote t) else None end.
Proof.
  cbn [raw_members map field fst snd]. fold (raw_members ms). destruct (field name (raw_members ms)); [done|]. apply (f_equal (fun b : bool => if b then _ else _)).
  apply bool_decide_ext. split; [|by intros ->]. intros E. apply (f_equal String.string_of_list_byte) in E. by rewrite !String.string_of_list_byte_of_string in E.
Qed.

Lemma field_none ms name : name ∉ map fst ms -> field name (raw_members ms) = None.
Proof.
  induction ms as [|[k x] ms IH]; [done|]. cbn [map fst]. intros Hn. rewrite field_cons, IH by set_solver. by rewrite bool_decide_eq_false_2 by set_solver.
Qed.

Lemma field_written ms name t : NoDup (map fst ms) -> (name, t) ∈ ms -> field name (raw_members ms) = Some (quote t).
Proof.
  induction ms as [|[k x] ms IH]; intros Hnd Hin; [by apply not_elem_of_nil in Hin|]. cbn [map fst] in Hnd. apply list.NoDup_cons in Hnd as [Hk Hnd]. rewrite field_cons.
  apply elem_of_cons in Hin as [[= -> ->]|Hin]; [|by rewrite IH]. rewrite field_none by done. by rewrite bool_decide_eq_true_2.
Qed.

Lemma raw_text_quote t : plain t -> raw_text (quote t) = Some t.
Proof. intros Ht. unfold raw_text, quote. rewrite expect_same. cbn [mbind option_bind]. rewrite scan_plain by done. done. Qed.

Section Fields.
Context (ms : list (string * list Byte.byte)) (Hnd : NoDup (map fst ms)) (Hp : plain_members ms).

Lemma member_plain name t : (name, t) ∈ ms -> plain t.
Proof. intros Hin. by destruct (proj1 (list.Forall_forall _ _) Hp _ Hin). Qed.

Lemma text_written name s : (name, String.list_byte_of_string s) ∈ ms -> text_field name (raw_members ms) = Some s.
Proof.
  intros Hin. unfold text_field. rewrite (field_written ms name _ Hnd Hin). change (raw_null (quote (String.list_byte_of_string s))) with false. cbn iota.
  rewrite raw_text_quote by by apply (member_plain name). cbn [mbind option_bind]. by rewrite String.string_of_list_byte_of_string.
Qed.

Lemma int_written name z : 0 <= z < 2 ^ 63 -> (name, String.list_byte_of_string (FormatInt z)) ∈ ms -> int_field name (raw_members ms) = Some z.
Proof.
  intros Hz Hin. unfold int_field. rewrite (field_written ms name _ Hnd Hin). change (raw_null (quote (String.list_byte_of_string (FormatInt z)))) with false. cbn iota.
  rewrite raw_text_quote by by apply (member_plain name). cbn [mbind option_bind]. rewrite String.string_of_list_byte_of_string. by apply parse_format.
Qed.

Lemma uint_written name z : 0 <= z < 2 ^ 64 -> (name, String.list_byte_of_string (dec_digits 20 z "")) ∈ ms -> uint_field name (raw_members ms) = Some z.
Proof.
  intros Hz Hin. unfold uint_field. rewrite (field_written ms name _ Hnd Hin). change (raw_null (quote (String.list_byte_of_string (dec_digits 20 z "")))) with false. cbn iota.
  rewrite raw_text_quote by by apply (member_plain name). cbn [mbind option_bind]. rewrite String.string_of_list_byte_of_string.
  rewrite bool_decide_eq_false_2.
  - destruct (parse_dec_digits 20 z "" 0) as [k Hk]; [change (10 ^ Z.of_nat 21) with (10 ^ 21); lia|]. rewrite Hk. cbn [parse_digits mbind option_bind]. replace (0 * k + z) with z by lia.
    by rewrite (proj2 (Z.ltb_lt _ _)) by lia.
  - intros E. apply (f_equal String.string_of_list_byte) in E. rewrite String.string_of_list_byte_of_string in E. by apply dec_digits_nonempty in E.
Qed.
End Fields.

Lemma plain_digits fuel z acc : plain (String.list_byte_of_string acc) -> plain (String.list_byte_of_string (dec_digits fuel z acc)).
Proof.
  assert (Hone : forall d s, 0 <= d < 10 -> plain (String.list_byte_of_string s) -> plain (String.list_byte_of_string (String.String (digit_char d) s))).
  { intros d s Hd Hs. unfold plain in *. change (String.list_byte_of_string (String.String (digit_char d) s)) with (Ascii.byte_of_ascii (digit_char d) :: String.list_byte_of_string s).
    cbn [forallb]. rewrite Hs, andb_true_r. assert (Hn : exists n, d = Z.of_nat n /\ (n < 10)%nat) by (exists (Z.to_nat d); lia). destruct Hn as (n & -> & Hn).
    do 10 (destruct n as [|n]; [reflexivity|]). lia. }
  revert z acc. induction fuel as [|fuel IH]; intros z acc Ha; cbn [dec_digits]; pose proof (Z.mod_pos_bound z 10); [apply Hone; [lia|done]|].
  case_match; [apply Hone; [lia|done]|apply IH, Hone; [lia|done]].
Qed.

Lemma plain_int z : 0 <= z -> plain (String.list_byte_of_string (FormatInt z)).
Proof. intros Hz. unfold FormatInt. rewrite (proj2 (Z.ltb_ge z 0)) by lia. by apply plain_digits. Qed.

Lemma plain_hex hb : plain (hex_Upper hb).
Proof.
  unfold plain. induction hb as [|b hb IH]; [done|]. change (hex_Upper (b :: hb)) with (hex_Upper [b] ++ hex_Upper hb). rewrite forallb_app, IH, andb_true_r. by destruct b.
Qed.

(** *** Asset holders: addresses are [HexBytes] *)
Definition holder_members (h : HolderJSON) : list (string * list Byte.byte) :=
  [("address", hex_Upper (hj_Address h)); ("balance", String.list_byte_of_string (hj_Balance h))]%string.
Definition read_holder (bz : list Byte.byte) : option HolderJSON :=
  fs ← raw_object bz;
  addr ← match field "address" fs with None => Some [] | Some raw => HexBytes_UnmarshalJSON raw end;
  bal ← text_field "balance" fs;
  Some (mkHolderJSON addr bal).
Definition read_with {M} (read : list Byte.byte -> option M) (bz : list Byte.byte) : string + M :=
  match read bz with Some m => inr m | None => inl "invalid JSON"%string end.
#[export] Instance holder_json : Codec HolderJSON := {|
  codec_Marshal h := inr (write_object (holder_members h));
  codec_Unmarshal := read_with read_holder;
|}.

Ltac solve_in := repeat first [apply list_elem_of_here|apply list_elem_of_further].

#[export] Instance holder_json_laws : CodecLaws HolderJSON (fun h => plain (String.list_byte_of_string (hj_Balance h))).
Proof.
  constructor. intros h bz Hb [= <-]. assert (Hp : plain_members (holder_members h)) by (repeat (apply list.Forall_cons; split); [split; [done|apply plain_hex]|by split|constructor]).
  assert (Hnd : NoDup (map fst (holder_members h))) by (apply (bool_decide_unpack (NoDup ["address"; "balance"]%string)); vm_compute; exact I).
  cbn [codec_Unmarshal holder_json]. unfold read_with, read_holder. rewrite object_roundtrip by done. cbn [mbind option_bind].
  rewrite (field_written _ "address" (hex_Upper (hj_Address h)) Hnd) by solve_in. pose proof (hexbytes_json_roundtrip (hj_Address h)) as Hx. unfold HexBytes_MarshalJSON in Hx. cbn [app] in Hx.
  unfold quote. rewrite Hx. cbn [mbind option_bind]. rewrite (text_written _ Hnd Hp "balance" (hj_Balance h)) by solve_in. by destruct h.
Qed.

(** *** Parameters: [tmjson] writes numbers of 64 bits as texts *)
Definition IntText (z : Z) : list Byte.byte := String.list_byte_of_string (FormatInt z).
Definition UintText (z : Z) : list Byte.byte := String.list_byte_of_string (dec_digits 20 z "").
Abbreviation Text := String.list_byte_of_string.
Definition params_members (j : GovParamsJSON) : list (string * list Byte.byte) := [
  ("version", IntText (js_Version j)); ("maxValidatorCnt", IntText (js_MaxValidatorCnt j)); ("minValidatorStake", Text (js_MinValidatorStake j));
  ("minDelegatorStake", Text (js_MinDelegatorStake j)); ("rewardPerPower", Text (js_RewardPerPower j)); ("lazyRewardBlocks", IntText (js_LazyRewardBlocks j));
  ("lazyApplyingBlocks", IntText (js_LazyApplyingBlocks j)); ("gasPrice", Text (js_GasPrice j)); ("minTrxGas", UintText (js_MinTrxGas j)); ("maxTrxGas", UintText (js_MaxTrxGas j));
  ("maxBlockGas", UintText (js_MaxBlockGas j)); ("minVotingPeriodBlocks", IntText (js_MinVotingPeriodBlocks j)); ("maxVotingPeriodBlocks", IntText (js_MaxVotingPeriodBlocks j));
  ("minSelfStakeRatio", IntText (js_MinSelfStakeRatio j)); ("maxUpdatableStakeRatio", IntText (js_MaxUpdatableStakeRatio j)); ("maxIndividualStakeRatio", IntText (js_MaxIndividualStakeRatio j));
  ("slashRatio", IntText (js_SlashRatio j)); ("signedBlocksWindow", IntText (js_SignedBlocksWindow j)); ("minSignedBlocks", IntText (js_MinSignedBlocks j))]%string.
Definition read_params (bz : list Byte.byte) : option GovParamsJSON :=
  fs ← raw_object bz;
  v ← int_field "version" fs; mv ← int_field "maxValidatorCnt" fs; vs ← text_field "minValidatorStake" fs; ds ← text_field "minDelegatorStake" fs;
  rp ← text_field "rewardPerPower" fs; lr ← int_field "lazyRewardBlocks" fs; la ← int_field "lazyApplyingBlocks" fs; gp ← text_field "gasPrice" fs;
  mt ← uint_field "minTrxGas" fs; xt ← uint_field "maxTrxGas" fs; bg ← uint_field "maxBlockGas" fs; mp ← int_field "minVotingPeriodBlocks" fs;
  xp ← int_field "maxVotingPeriodBlocks" fs; ss ← int_field "minSelfStakeRatio" fs; us ← int_field "maxUpdatableStakeRatio" fs; ir ← int_field "maxIndividualStakeRatio" fs;
  sr ← int_field "slashRatio" fs; sw ← int_field "signedBlocksWindow" fs; sb ← int_field "minSignedBlocks" fs;
  Some {| js_Version := v; js_MaxValidatorCnt := mv; js_MinValidatorStake := vs; js_MinDelegatorStake := ds; js_RewardPerPower := rp; js_LazyRewardBlocks := lr; js_LazyApplyingBlocks := la;
          js_GasPrice := gp; js_MinTrxGas := mt; js_MaxTrxGas := xt; js_MaxBlockGas := bg; js_MinVotingPeriodBlocks := mp; js_MaxVotingPeriodBlocks := xp; js_MinSelfStakeRatio := ss;
          js_MaxUpdatableStakeRatio := us; js_MaxIndividualStakeRatio := ir; js_SlashRatio := sr; js_SignedBlocksWindow := sw; js_MinSignedBlocks := sb |}.
#[export] Instance params_json : Codec GovParamsJSON := {|
  codec_Marshal j := inr (write_object (params_members j));
  codec_Unmarshal := read_with read_params;
|}.

(** What is read back: numbers that are not negative, decimal texts. *)
Definition params_json_ok (j : GovParamsJSON) : Prop :=
  Forall (fun z => 0 <= z < 2 ^ 63) [js_Version j; js_MaxValidatorCnt j; js_LazyRewardBlocks j; js_LazyApplyingBlocks j; js_MinVotingPeriodBlocks j; js_MaxVotingPeriodBlocks j;
    js_MinSelfStakeRatio j; js_MaxUpdatableStakeRatio j; js_MaxIndividualStakeRatio j; js_SlashRatio j; js_SignedBlocksWindow j; js_MinSignedBlocks j] /\
  Forall (fun z => 0 <= z < 2 ^ 64) [js_MinTrxGas j; js_MaxTrxGas j; js_MaxBlockGas j] /\
  Forall (fun t => plain (Text t)) [js_MinValidatorStake j; js_MinDelegatorStake j; js_RewardPerPower j; js_GasPrice j].

Lemma params_members_ok j : params_json_ok j -> plain_members (params_members j) /\ NoDup (map fst (params_members j)).
Proof.
  intros (Hi & Hu & Ht). rewrite !list.Forall_cons in Hi. rewrite !list.Forall_cons in Hu. rewrite !list.Forall_cons in Ht. split.
  - unfold plain_members, params_members. repeat (apply list.Forall_cons; split); [..|constructor]; (split; [done|]); cbn [snd]; first [tauto|apply plain_int; lia|by apply plain_digits].
  - apply (bool_decide_unpack (NoDup ["version"; "maxValidatorCnt"; "minValidatorStake"; "minDelegatorStake"; "rewardPerPower"; "lazyRewardBlocks"; "lazyApplyingBlocks"; "gasPrice"; "minTrxGas"; "maxTrxGas";
      "maxBlockGas"; "minVotingPeriodBlocks"; "maxVotingPeriodBlocks"; "minSelfStakeRatio"; "maxUpdatableStakeRatio"; "maxIndividualStakeRatio"; "slashRatio"; "signedBlocksWindow"; "minSignedBlocks"]%string)). vm_compute. exact I.
Qed.

#[export] Instance params_json_laws : CodecLaws GovParamsJSON params_json_ok.
Proof.
  constructor. intros j bz Hj [= <-]. destruct (params_members_ok j Hj) as [Hp Hnd]. cbn [codec_Unmarshal params_json]. unfold read_with, read_params. rewrite object_roundtrip by done. cbn [mbind option_bind].
  destruct Hj as (Hi & Hu & _). rewrite !list.Forall_cons in Hi. rewrite !list.Forall_cons in Hu.
  repeat (first [erewrite (int_written _ Hnd Hp); [|shelve|solve_in]|erewrite (text_written _ Hnd Hp); [|solve_in]|erewrite (uint_written _ Hnd Hp); [|shelve|solve_in]]; cbn [mbind option_bind]).
  Unshelve. all: try lia. by destruct j.
Qed.
