(* ===== verification/LocalClient.v ===== *)
(** * The local ABCI client: [node/client.go]

    Tendermint talks to the application over several clients (consensus,
    mempool, query); all share one mutex and the application, and any number of
    goroutines call their methods.  Every method is written out as the list of
    its instructions, [Lock], [defer Unlock] and [Unlock] among them, and the
    goroutines interleave between any two instructions, also while the
    application works on a request. *)

From Stdlib Require Import Strings.Byte.
From S2P Require Import Prelude Xerrors GoSem Bytes Crypto Ledger LedgerSpec Concrete GovParams Account Trx Context AcctCtrler.
From S2P Require Import Stake StakeLimiter StakeCtrler Proposal GovCtrler Executor MetaDB App.

(** ** Requests and responses of the ABCI *)
Inductive AbciRequest : Type :=
  | ToRequestEcho (msg : string)
  | ToRequestFlush
  | ToRequestInfo
  | ToRequestSetOption (key value : string)
  | ToRequestDeliverTx (tx : list Byte.byte)
  | ToRequestCheckTx (ty : CheckTxType) (tx : list Byte.byte)
  | ToRequestQuery (path : string) (height : Z) (data : list Byte.byte)
  | ToRequestCommit
  | ToRequestInitChain (req : RequestInitChain)
  | ToRequestBeginBlock (req : RequestBeginBlock)
  | ToRequestEndBlock (height : Z)
  | ToRequestListSnapshots
  | ToRequestOfferSnapshot (snapshot : list Byte.byte)
  | ToRequestLoadSnapshotChunk (height format chunk : Z)
  | ToRequestApplySnapshotChunk (index : Z) (chunk : list Byte.byte).

Inductive AbciResponse : Type :=
  | ToResponseEcho (msg : string)
  | ToResponseInfo (height : Z) (appHash : list Byte.byte)
  | ToResponseDeliverTx (res : Response)
  | ToResponseCheckTx (res : Response)
  | ToResponseQuery (res : Z * string * Z * option QueryValue)
  | ToResponseCommit (appHash : list Byte.byte)
  | ToResponseInitChain (appHash : list Byte.byte)
  | ToResponseBeginBlock (evs : list GovEvent * list StakeEvent)
  | ToResponseEndBlock (ups : list ValidatorUpdate * list GovEvent)
  | ToResponseEmpty.

(** [abcitypes.Application]: one method for each request but [Echo] and [Flush]. *)
Class Application (S : Type) := { serve : AbciRequest -> GoM S AbciResponse }.

(** [RigoApp]; what it does not define is taken from [BaseApplication], which
    answers with an empty response.  [now] and [interval] as in [App]. *)
Section RigoApplication.
Context {Tr E DB : Type} {Tree : Iavl Tr} {TDB : TmDB DB} {CB : Codec BlockContextJSON}.
Context {CA : Codec AcctProto} {CS : Codec Stake} {CD : Codec Delegatee} {CR : Codec RewardProto}.
Context {CGP : Codec GovParamsProto} {CGJ : Codec GovParamsJSON} {D : DecCodec} {CP : Codec GovProposal}.
Context {RL : RlpLib} {SL : EthCrypto}.
Context {CU : Codec TrxPayloadUnstakingProto} {CW : Codec TrxPayloadWithdrawProto}
        {CPP : Codec TrxPayloadProposalProto} {CV : Codec TrxPayloadVotingProto}
        {CC : Codec TrxPayloadContractProto} {CSD : Codec TrxPayloadSetDocProto} {CT : Codec TrxProto}.
Context {VM : IVMHandler E (FinalityLedger Account Tr)}.
Context (tmjson_Unmarshal : (list Byte.byte -> string + GovParams) -> list Byte.byte -> string + GovParams).
Context (tmjson_genesis : list Byte.byte -> string + GenesisAppState).
Context (tx_hash : list Byte.byte -> list Byte.byte).
Context (vm_Query : Z -> list Byte.byte -> GoM (@World Tr E) (list Byte.byte)).
Context (now interval : Z).

Definition rigo_serve (req : AbciRequest) : GoM (@RigoApp Tr E DB) AbciResponse :=
  match req with
  | ToRequestInfo => let! r := Info now in retM (ToResponseInfo r.1 r.2)
  | ToRequestDeliverTx tx => let! r := DeliverTx tmjson_Unmarshal tx_hash tx in retM (ToResponseDeliverTx r)
  | ToRequestCheckTx ty tx => let! r := CheckTx tmjson_Unmarshal tx_hash interval ty tx in retM (ToResponseCheckTx r)
  | ToRequestQuery path height data => let! r := App_Query vm_Query path height data in retM (ToResponseQuery r)
  | ToRequestCommit => let! h := App_Commit in retM (ToResponseCommit h)
  | ToRequestInitChain r => let! h := InitChain tmjson_genesis r in retM (ToResponseInitChain h)
  | ToRequestBeginBlock r => let! evs := App_BeginBlock r in retM (ToResponseBeginBlock evs)
  | ToRequestEndBlock _ => let! ups := App_EndBlock tmjson_Unmarshal in retM (ToResponseEndBlock ups)
  | _ => retM ToResponseEmpty
  end.
Definition rigo_application : Application (@RigoApp Tr E DB) := {| serve := rigo_serve |}.
End RigoApplication.

(** ** Methods *)
Record ReqRes : Type := mkReqRes { rr_Request : AbciRequest; rr_Response : option AbciResponse }.
Definition newLocalReqRes (req : AbciRequest) (res : option AbciResponse) : ReqRes := mkReqRes req res.

(** What a method returns: a [*ReqRes], a response, or nothing but a nil error. *)
Inductive client_ret : Type :=
  | RetReqRes (rr : ReqRes)
  | RetResponse (res : AbciResponse)
  | RetNil.

(** The statements the methods are made of.  A method has one local variable,
    [res]. *)
Inductive instr : Type :=
  | ILock                           (* client.mtx.Lock() *)
  | IDeferUnlock                    (* defer client.mtx.Unlock() *)
  | IUnlock                         (* client.mtx.Unlock() *)
  | ISetCallback (cb : option nat)  (* client.Callback = cb *)
  | IServe (req : AbciRequest)      (* res := client.Application.X(req) *)
  | IRes (r : AbciResponse)         (* a response the client makes itself *)
  | ICallback (req : AbciRequest)   (* return client.callback(req, res) *)
  | IReturnRes                      (* return &res, nil *)
  | IReturn (r : client_ret).       (* return of a constant *)
Abbreviation method := (list instr).

Definition SetResponseCallback (cb : option nat) : method := [ILock; ISetCallback cb; IUnlock].
Definition Client_Error : method := [IReturn RetNil].
Definition FlushAsync : method := [IReturn (RetReqRes (newLocalReqRes ToRequestFlush None))].
Definition EchoAsync (msg : string) : method := [ILock; IDeferUnlock; IRes (ToResponseEcho msg); ICallback (ToRequestEcho msg)].
Definition InfoAsync : method := [ILock; IDeferUnlock; IServe ToRequestInfo; ICallback ToRequestInfo].
Definition SetOptionAsync (key value : string) : method := [ILock; IDeferUnlock; IServe (ToRequestSetOption key value); ICallback (ToRequestSetOption key value)].
Definition DeliverTxAsync (tx : list Byte.byte) : method := [ILock; IDeferUnlock; IServe (ToRequestDeliverTx tx); ICallback (ToRequestDeliverTx tx)].
Definition CheckTxAsync (ty : CheckTxType) (tx : list Byte.byte) : method := [ILock; IDeferUnlock; IServe (ToRequestCheckTx ty tx); ICallback (ToRequestCheckTx ty tx)].
Definition QueryAsync (path : string) (height : Z) (data : list Byte.byte) : method := [ILock; IDeferUnlock; IServe (ToRequestQuery path height data); ICallback (ToRequestQuery path height data)].
Definition CommitAsync : method := [ILock; IDeferUnlock; IServe ToRequestCommit; ICallback ToRequestCommit].
Definition InitChainAsync (req : RequestInitChain) : method := [ILock; IDeferUnlock; IServe (ToRequestInitChain req); ICallback (ToRequestInitChain req)].
Definition BeginBlockAsync (req : RequestBeginBlock) : method := [ILock; IDeferUnlock; IServe (ToRequestBeginBlock req); ICallback (ToRequestBeginBlock req)].
Definition EndBlockAsync (height : Z) : method := [ILock; IDeferUnlock; IServe (ToRequestEndBlock height); ICallback (ToRequestEndBlock height)].
Definition ListSnapshotsAsync : method := [ILock; IDeferUnlock; IServe ToRequestListSnapshots; ICallback ToRequestListSnapshots].
Definition OfferSnapshotAsync (snapshot : list Byte.byte) : method := [ILock; IDeferUnlock; IServe (ToRequestOfferSnapshot snapshot); ICallback (ToRequestOfferSnapshot snapshot)].
Definition LoadSnapshotChunkAsync (height format chunk : Z) : method := [ILock; IDeferUnlock; IServe (ToRequestLoadSnapshotChunk height format chunk); ICallback (ToRequestLoadSnapshotChunk height format chunk)].
Definition ApplySnapshotChunkAsync (index : Z) (chunk : list Byte.byte) : method := [ILock; IDeferUnlock; IServe (ToRequestApplySnapshotChunk index chunk); ICallback (ToRequestApplySnapshotChunk index chunk)].

Definition FlushSync : method := [IReturn RetNil].
Definition EchoSync (msg : string) : method := [IReturn (RetResponse (ToResponseEcho msg))].
Definition InfoSync : method := [ILock; IDeferUnlock; IServe ToRequestInfo; IReturnRes].
Definition SetOptionSync (key value : string) : method := [ILock; IDeferUnlock; IServe (ToRequestSetOption key value); IReturnRes].
Definition DeliverTxSync (tx : list Byte.byte) : method := [ILock; IDeferUnlock; IServe (ToRequestDeliverTx tx); IReturnRes].
Definition CheckTxSync (ty : CheckTxType) (tx : list Byte.byte) : method := [ILock; IDeferUnlock; IServe (ToRequestCheckTx ty tx); IReturnRes].
Definition QuerySync (path : string) (height : Z) (data : list Byte.byte) : method := [ILock; IDeferUnlock; IServe (ToRequestQuery path height data); IReturnRes].
Definition CommitSync : method := [ILock; IDeferUnlock; IServe ToRequestCommit; IReturnRes].
Definition InitChainSync (req : RequestInitChain) : method := [ILock; IDeferUnlock; IServe (ToRequestInitChain req); IReturnRes].
Definition BeginBlockSync (req : RequestBeginBlock) : method := [ILock; IDeferUnlock; IServe (ToRequestBeginBlock req); IReturnRes].
Definition EndBlockSync (height : Z) : method := [ILock; IDeferUnlock; IServe (ToRequestEndBlock height); IReturnRes].
Definition ListSnapshotsSync : method := [ILock; IDeferUnlock; IServe ToRequestListSnapshots; IReturnRes].
Definition OfferSnapshotSync (snapshot : list Byte.byte) : method := [ILock; IDeferUnlock; IServe (ToRequestOfferSnapshot snapshot); IReturnRes].
Definition LoadSnapshotChunkSync (height format chunk : Z) : method := [ILock; IDeferUnlock; IServe (ToRequestLoadSnapshotChunk height format chunk); IReturnRes].
Definition ApplySnapshotChunkSync (index : Z) (chunk : list Byte.byte) : method := [ILock; IDeferUnlock; IServe (ToRequestApplySnapshotChunk index chunk); IReturnRes].

(** [onTrxFinished], for the delivery in parallel: [rs] are the open requests. *)
Definition onTrxFinished (txidx : Z) (res : Response) (rs : list ReqRes) : outcome (list ReqRes) :=
  if Z.of_nat (length rs) <=? txidx then Panic
  else if txidx <? 0 then Panic
  else Ret (alter (fun rr => mkReqRes (rr_Request rr) (Some (ToResponseDeliverTx res))) (Z.to_nat txidx) rs).

(** A call of a method of [abcicli.Client]. *)
Inductive client_call : Type :=
  | CallSetResponseCallback (cb : option nat)
  | CallError
  | CallFlushAsync
  | CallFlushSync
  | CallEchoAsync (msg : string)
  | CallEchoSync (msg : string)
  | CallInfoAsync
  | CallInfoSync
  | CallSetOptionAsync (key value : string)
  | CallSetOptionSync (key value : string)
  | CallDeliverTxAsync (tx : list Byte.byte)
  | CallDeliverTxSync (tx : list Byte.byte)
  | CallCheckTxAsync (ty : CheckTxType) (tx : list Byte.byte)
  | CallCheckTxSync (ty : CheckTxType) (tx : list Byte.byte)
  | CallQueryAsync (path : string) (height : Z) (data : list Byte.byte)
  | CallQuerySync (path : string) (height : Z) (data : list Byte.byte)
  | CallCommitAsync
  | CallCommitSync
  | CallInitChainAsync (req : RequestInitChain)
  | CallInitChainSync (req : RequestInitChain)
  | CallBeginBlockAsync (req : RequestBeginBlock)
  | CallBeginBlockSync (req : RequestBeginBlock)
  | CallEndBlockAsync (height : Z)
  | CallEndBlockSync (height : Z)
  | CallListSnapshotsAsync
  | CallListSnapshotsSync
  | CallOfferSnapshotAsync (snapshot : list Byte.byte)
  | CallOfferSnapshotSync (snapshot : list Byte.byte)
  | CallLoadSnapshotChunkAsync (height format chunk : Z)
  | CallLoadSnapshotChunkSync (height format chunk : Z)
  | CallApplySnapshotChunkAsync (index : Z) (chunk : list Byte.byte)
  | CallApplySnapshotChunkSync (index : Z) (chunk : list Byte.byte).

Definition method_of (c : client_call) : method :=
  match c with
  | CallSetResponseCallback cb => SetResponseCallback cb
  | CallError => Client_Error
  | CallFlushAsync => FlushAsync
  | CallFlushSync => FlushSync
  | CallEchoAsync msg => EchoAsync msg
  | CallEchoSync msg => EchoSync msg
  | CallInfoAsync => InfoAsync
  | CallInfoSync => InfoSync
  | CallSetOptionAsync key value => SetOptionAsync key value
  | CallSetOptionSync key value => SetOptionSync key value
  | CallDeliverTxAsync tx => DeliverTxAsync tx
  | CallDeliverTxSync tx => DeliverTxSync tx
  | CallCheckTxAsync ty tx => CheckTxAsync ty tx
  | CallCheckTxSync ty tx => CheckTxSync ty tx
  | CallQueryAsync path height data => QueryAsync path height data
  | CallQuerySync path height data => QuerySync path height data
  | CallCommitAsync => CommitAsync
  | CallCommitSync => CommitSync
  | CallInitChainAsync req => InitChainAsync req
  | CallInitChainSync req => InitChainSync req
  | CallBeginBlockAsync req => BeginBlockAsync req
  | CallBeginBlockSync req => BeginBlockSync req
  | CallEndBlockAsync height => EndBlockAsync height
  | CallEndBlockSync height => EndBlockSync height
  | CallListSnapshotsAsync => ListSnapshotsAsync
  | CallListSnapshotsSync => ListSnapshotsSync
  | CallOfferSnapshotAsync snapshot => OfferSnapshotAsync snapshot
  | CallOfferSnapshotSync snapshot => OfferSnapshotSync snapshot
  | CallLoadSnapshotChunkAsync height format chunk => LoadSnapshotChunkAsync height format chunk
  | CallLoadSnapshotChunkSync height format chunk => LoadSnapshotChunkSync height format chunk
  | CallApplySnapshotChunkAsync index chunk => ApplySnapshotChunkAsync index chunk
  | CallApplySnapshotChunkSync index chunk => ApplySnapshotChunkSync index chunk
  end.

(** What a client promises of a call: to have the application serve a request
    and return its response, through the callback or not; to answer by itself;
    to install a callback. *)
Inductive intent : Type :=
  | Asks (req : AbciRequest) (cb : bool)
  | Tells (req : AbciRequest) (r : AbciResponse)
  | Answers (r : client_ret)
  | Installs (cb : option nat).

Definition intended (c : client_call) : intent :=
  match c with
  | CallSetResponseCallback cb => Installs cb
  | CallError => Answers RetNil
  | CallFlushAsync => Answers (RetReqRes (mkReqRes ToRequestFlush None))
  | CallFlushSync => Answers RetNil
  | CallEchoAsync msg => Tells (ToRequestEcho msg) (ToResponseEcho msg)
  | CallEchoSync msg => Answers (RetResponse (ToResponseEcho msg))
  | CallInfoAsync => Asks ToRequestInfo true
  | CallInfoSync => Asks ToRequestInfo false
  | CallSetOptionAsync key value => Asks (ToRequestSetOption key value) true
  | CallSetOptionSync key value => Asks (ToRequestSetOption key value) false
  | CallDeliverTxAsync tx => Asks (ToRequestDeliverTx tx) true
  | CallDeliverTxSync tx => Asks (ToRequestDeliverTx tx) false
  | CallCheckTxAsync ty tx => Asks (ToRequestCheckTx ty tx) true
  | CallCheckTxSync ty tx => Asks (ToRequestCheckTx ty tx) false
  | CallQueryAsync path height data => Asks (ToRequestQuery path height data) true
  | CallQuerySync path height data => Asks (ToRequestQuery path height data) false
  | CallCommitAsync => Asks ToRequestCommit true
  | CallCommitSync => Asks ToRequestCommit false
  | CallInitChainAsync req => Asks (ToRequestInitChain req) true
  | CallInitChainSync req => Asks (ToRequestInitChain req) false
  | CallBeginBlockAsync req => Asks (ToRequestBeginBlock req) true
  | CallBeginBlockSync req => Asks (ToRequestBeginBlock req) false
  | CallEndBlockAsync height => Asks (ToRequestEndBlock height) true
  | CallEndBlockSync height => Asks (ToRequestEndBlock height) false
  | CallListSnapshotsAsync => Asks ToRequestListSnapshots true
  | CallListSnapshotsSync => Asks ToRequestListSnapshots false
  | CallOfferSnapshotAsync snapshot => Asks (ToRequestOfferSnapshot snapshot) true
  | CallOfferSnapshotSync snapshot => Asks (ToRequestOfferSnapshot snapshot) false
  | CallLoadSnapshotChunkAsync height format chunk => Asks (ToRequestLoadSnapshotChunk height format chunk) true
  | CallLoadSnapshotChunkSync height format chunk => Asks (ToRequestLoadSnapshotChunk height format chunk) false
  | CallApplySnapshotChunkAsync index chunk => Asks (ToRequestApplySnapshotChunk index chunk) true
  | CallApplySnapshotChunkSync index chunk => Asks (ToRequestApplySnapshotChunk index chunk) false
  end.

(** ** Goroutines *)
Section Client.
Context {S : Type} {Ap : Application S}.

(** What all clients share: the application, the callback of every client that
    has one, and the invocations of callbacks so far. *)
Record shared : Type := mkShared {
  sh_app : S;
  sh_callback : gmap nat nat;
  sh_invoked : list (nat * AbciRequest * AbciResponse);
}.
Definition with_app (a : S) (sh : shared) : shared := mkShared a (sh_callback sh) (sh_invoked sh).
Definition set_callback (k : nat) (cb : option nat) (sh : shared) : shared :=
  mkShared (sh_app sh) (partial_alter (fun _ => cb) k (sh_callback sh)) (sh_invoked sh).
(** [callback]: a nil [Callback] panics; [InvokeCallback] of the new [ReqRes]
    finds none registered. *)
Definition callback (k : nat) (req : AbciRequest) (res : option AbciResponse) (sh : shared) : option (ReqRes * shared) :=
  match sh_callback sh !! k, res with
  | Some cb, Some r => Some (newLocalReqRes req (Some r), mkShared (sh_app sh) (sh_callback sh) (sh_invoked sh ++ [(cb, req, r)]))
  | _, _ => None
  end.

(** A goroutine between two calls: the client it uses, the calls to come (the
    one that runs first among them) and what the earlier ones returned. *)
Record caller : Type := mkCaller {
  cl_client : nat;
  cl_todo : list client_call;
  cl_results : list (outcome client_ret);
}.
Definition return_ (r : outcome client_ret) (c : caller) : caller := mkCaller (cl_client c) (tail (cl_todo c)) (cl_results c ++ [r]).

(** A method that runs: its remaining instructions, the number of deferred
    [Unlock]s, the state the application had when it began with the request it
    is serving, the local variable, the value to return, and whether it panics. *)
Record frame : Type := mkFrame {
  fr_body : list instr;
  fr_defer : nat;
  fr_serving : option S;
  fr_res : option AbciResponse;
  fr_ret : client_ret;
  fr_panic : bool;
}.
Definition enter (m : method) : frame := mkFrame m 0 None None RetNil false.
Definition panics (fr : frame) : frame := mkFrame [] (fr_defer fr) None (fr_res fr) (fr_ret fr) true.
Definition goto (b : list instr) (fr : frame) : frame := mkFrame b (fr_defer fr) None (fr_res fr) (fr_ret fr) (fr_panic fr).
Definition deferred (d : nat) (fr : frame) : frame := mkFrame (fr_body fr) d (fr_serving fr) (fr_res fr) (fr_ret fr) (fr_panic fr).
Definition set_res (r : option AbciResponse) (fr : frame) : frame := mkFrame (fr_body fr) (fr_defer fr) (fr_serving fr) r (fr_ret fr) (fr_panic fr).
Definition set_ret (r : client_ret) (fr : frame) : frame := mkFrame (fr_body fr) (fr_defer fr) (fr_serving fr) (fr_res fr) r (fr_panic fr).
Definition serving (a : S) (fr : frame) : frame := mkFrame (fr_body fr) (fr_defer fr) (Some a) (fr_res fr) (fr_ret fr) (fr_panic fr).
Definition outcome_of (fr : frame) : outcome client_ret := if fr_panic fr then Panic else Ret (fr_ret fr).

(** [return &res, nil]; there is no way to it without a response. *)
Definition return_res (fr : frame) : frame := set_ret (match fr_res fr with Some r => RetResponse r | None => fr_ret fr end) fr.

(** One step of a method of client [k].  [Lock] waits while the mutex is locked;
    [Unlock] of an unlocked mutex is a fatal error, which has no step.  The
    application reads its state when it begins with a request and leaves it
    changed when it is done: whoever works on it in between is overwritten.  A
    panic, like the end of the body, runs the deferred [Unlock]s. *)
Inductive fstep (k : nat) : bool * shared * frame -> bool * shared * frame -> Prop :=
  | fs_lock sh fr b : fr_body fr = ILock :: b -> fstep k (false, sh, fr) (true, sh, goto b fr)
  | fs_defer l sh fr b : fr_body fr = IDeferUnlock :: b -> fstep k (l, sh, fr) (l, sh, goto b (deferred (Datatypes.S (fr_defer fr)) fr))
  | fs_unlock sh fr b : fr_body fr = IUnlock :: b -> fstep k (true, sh, fr) (false, sh, goto b fr)
  | fs_set l sh fr cb b : fr_body fr = ISetCallback cb :: b -> fstep k (l, sh, fr) (l, set_callback k cb sh, goto b fr)
  | fs_begin l sh fr req b : fr_body fr = IServe req :: b -> fr_serving fr = None -> fstep k (l, sh, fr) (l, sh, serving (sh_app sh) fr)
  | fs_served l sh fr req b a r a' : fr_body fr = IServe req :: b -> fr_serving fr = Some a -> serve req a = (Ret r, a') ->
      fstep k (l, sh, fr) (l, with_app a' sh, goto b (set_res (Some r) fr))
  | fs_serve_panic l sh fr req b a o a' : fr_body fr = IServe req :: b -> fr_serving fr = Some a -> serve req a = (o, a') -> (forall r, o <> Ret r) ->
      fstep k (l, sh, fr) (l, with_app a' sh, panics fr)
  | fs_res l sh fr r b : fr_body fr = IRes r :: b -> fstep k (l, sh, fr) (l, sh, goto b (set_res (Some r) fr))
  | fs_callback l sh fr req b rr sh' : fr_body fr = ICallback req :: b -> callback k req (fr_res fr) sh = Some (rr, sh') ->
      fstep k (l, sh, fr) (l, sh', goto [] (set_ret (RetReqRes rr) fr))
  | fs_callback_panic l sh fr req b : fr_body fr = ICallback req :: b -> callback k req (fr_res fr) sh = None -> fstep k (l, sh, fr) (l, sh, panics fr)
  | fs_return_res l sh fr b : fr_body fr = IReturnRes :: b -> fstep k (l, sh, fr) (l, sh, goto [] (return_res fr))
  | fs_return l sh fr r b : fr_body fr = IReturn r :: b -> fstep k (l, sh, fr) (l, sh, goto [] (set_ret r fr))
  | fs_unwind sh fr n : fr_body fr = [] -> fr_defer fr = Datatypes.S n -> fstep k (true, sh, fr) (false, sh, deferred n fr).

Record thread : Type := mkThread { th_caller : caller; th_run : option frame }.
Record system : Type := mkSystem { sy_locked : bool; sy_shared : shared; sy_threads : list thread }.

Inductive step : system -> system -> Prop :=
  | step_call l sh ths i c m ms : ths !! i = Some (mkThread c None) -> cl_todo c = m :: ms ->
      step (mkSystem l sh ths) (mkSystem l sh (<[i := mkThread c (Some (enter (method_of m)))]> ths))
  | step_run l sh ths i c fr l' sh' fr' : ths !! i = Some (mkThread c (Some fr)) -> fstep (cl_client c) (l, sh, fr) (l', sh', fr') ->
      step (mkSystem l sh ths) (mkSystem l' sh' (<[i := mkThread c (Some fr')]> ths))
  | step_return l sh ths i c fr : ths !! i = Some (mkThread c (Some fr)) -> fr_body fr = [] -> fr_defer fr = 0%nat ->
      step (mkSystem l sh ths) (mkSystem l sh (<[i := mkThread (return_ (outcome_of fr) c) None]> ths)).

Definition start (sh : shared) (cs : list caller) : system := mkSystem false sh (map (fun c => mkThread c None) cs).
Definition idle (s : system) : Prop := forall i th, sy_threads s !! i = Some th -> th_run th = None.

(** ** The specification: every call is one step *)
Definition call_spec (k : nat) (m : client_call) (sh : shared) : outcome client_ret * shared :=
  match intended m with
  | Asks req cb =>
      match serve req (sh_app sh) with
      | (Ret r, a) =>
          if cb then
            match sh_callback sh !! k with
            | Some f => (Ret (RetReqRes (mkReqRes req (Some r))), mkShared a (sh_callback sh) (sh_invoked sh ++ [(f, req, r)]))
            | None => (Panic, with_app a sh)
            end
          else (Ret (RetResponse r), with_app a sh)
      | (_, a) => (Panic, with_app a sh)
      end
  | Tells req r =>
      match sh_callback sh !! k with
      | Some f => (Ret (RetReqRes (mkReqRes req (Some r))), mkShared (sh_app sh) (sh_callback sh) (sh_invoked sh ++ [(f, req, r)]))
      | None => (Panic, sh)
      end
  | Answers r => (Ret r, sh)
  | Installs cb => (Ret RetNil, set_callback k cb sh)
  end.

Inductive atomic : shared * list caller -> shared * list caller -> Prop :=
  | atomic_call sh cs i c m ms r sh' : cs !! i = Some c -> cl_todo c = m :: ms -> call_spec (cl_client c) m sh = (r, sh') ->
      atomic (sh, cs) (sh', <[i := return_ r c]> cs).

(** The rest of a method, run without interruption. *)
Fixpoint finish (k : nat) (b : list instr) (res : option AbciResponse) (ret : client_ret) (sh : shared) : outcome client_ret * shared :=
  match b with
  | [] => (Ret ret, sh)
  | ILock :: b' | IDeferUnlock :: b' | IUnlock :: b' => finish k b' res ret sh
  | ISetCallback cb :: b' => finish k b' res ret (set_callback k cb sh)
  | IServe req :: b' =>
      match serve req (sh_app sh) with
      | (Ret r, a) => finish k b' (Some r) ret (with_app a sh)
      | (_, a) => (Panic, with_app a sh)
      end
  | IRes r :: b' => finish k b' (Some r) ret sh
  | ICallback req :: _ =>
      match callback k req res sh with
      | Some (rr, sh') => (Ret (RetReqRes rr), sh')
      | None => (Panic, sh)
      end
  | IReturnRes :: _ => (Ret (match res with Some r => RetResponse r | None => ret end), sh)
  | IReturn r :: _ => (Ret r, sh)
  end.
Definition finish_frame (k : nat) (fr : frame) (sh : shared) : outcome client_ret * shared :=
  if fr_panic fr then (Panic, sh) else finish k (fr_body fr) (fr_res fr) (fr_ret fr) sh.

(** A method that waits for the mutex has not begun; any other one that runs is
    brought to its end. *)
Definition waits (fr : frame) : bool := match fr_body fr with ILock :: _ => true | _ => false end.
Definition complete_thread (th : thread) (sh : shared) : caller * shared :=
  match th_run th with
  | None => (th_caller th, sh)
  | Some fr => if waits fr then (th_caller th, sh)
               else let '(r, sh') := finish_frame (cl_client (th_caller th)) fr sh in (return_ r (th_caller th), sh')
  end.
Fixpoint complete (ths : list thread) (sh : shared) : shared * list caller :=
  match ths with
  | [] => (sh, [])
  | th :: ths' => let '(c, sh1) := complete_thread th sh in let '(sh2, cs) := complete ths' sh1 in (sh2, c :: cs)
  end.
Definition completed (s : system) : shared * list caller := complete (sy_threads s) (sy_shared s).

(** ** The discipline of the methods

    [outside] is code that leaves alone what the clients share; [inside d] is
    code that holds the mutex, with [d] deferred [Unlock]s: it may call the
    application or a callback, which may panic, only once the [Unlock] has been
    deferred, and it releases the mutex exactly once on every path. *)
Fixpoint outside (b : list instr) : bool :=
  match b with
  | [] => true
  | IRes _ :: b' => outside b'
  | IReturnRes :: _ | IReturn _ :: _ => true
  | _ => false
  end.
Fixpoint inside (d : nat) (b : list instr) : bool :=
  match b with
  | [] => (d =? 1)%nat
  | ILock :: _ => false
  | IDeferUnlock :: b' => (d =? 0)%nat && inside 1 b'
  | IUnlock :: b' => (d =? 0)%nat && outside b'
  | ISetCallback _ :: b' | IRes _ :: b' => inside d b'
  | IServe _ :: b' => (d =? 1)%nat && inside d b'
  | ICallback _ :: _ | IReturnRes :: _ | IReturn _ :: _ => (d =? 1)%nat
  end.
Definition disciplined (m : method) : bool := match m with ILock :: b => inside 0 b | b => outside b end.

Lemma methods_disciplined c : disciplined (method_of c) = true.
Proof. by destruct c. Qed.

Lemma methods_meet_spec k c sh : finish k (method_of c) None RetNil sh = call_spec k c sh.
Proof.
  destruct c; unfold call_spec; cbn [intended method_of]; try done.
  all: cbn [finish SetResponseCallback EchoAsync InfoAsync InfoSync SetOptionAsync SetOptionSync DeliverTxAsync DeliverTxSync CheckTxAsync CheckTxSync
            QueryAsync QuerySync CommitAsync CommitSync InitChainAsync InitChainSync BeginBlockAsync BeginBlockSync EndBlockAsync EndBlockSync
            ListSnapshotsAsync ListSnapshotsSync OfferSnapshotAsync OfferSnapshotSync LoadSnapshotChunkAsync LoadSnapshotChunkSync
            ApplySnapshotChunkAsync ApplySnapshotChunkSync].
  all: try done.
  all: unfold callback; repeat (case_match; simplify_eq; cbn [with_app sh_app sh_callback sh_invoked] in *); done.
Qed.

(** ** The invariant

    [h]: the method holds the mutex.  Without it the method waits at its
    beginning, or has nothing shared left to do. *)
Definition free_frame (fr : frame) : Prop :=
  outside (fr_body fr) = true /\ fr_defer fr = 0%nat /\ fr_serving fr = None /\ (fr_panic fr = true -> fr_body fr = []).
Definition held_frame (sh : shared) (fr : frame) : Prop :=
  inside (fr_defer fr) (fr_body fr) = true /\ (forall a, fr_serving fr = Some a -> a = sh_app sh /\ fr_body fr <> []) /\ (fr_panic fr = true -> fr_body fr = []).
Inductive frame_ok (sh : shared) (m : client_call) : bool -> frame -> Prop :=
  | fo_waits b : method_of m = ILock :: b -> inside 0 b = true -> frame_ok sh m false (enter (method_of m))
  | fo_free fr : free_frame fr -> frame_ok sh m false fr
  | fo_holds fr : held_frame sh fr -> frame_ok sh m true fr.
Definition thread_ok (sh : shared) (h : bool) (th : thread) : Prop :=
  match th_run th with
  | None => h = false
  | Some fr => exists m ms, cl_todo (th_caller th) = m :: ms /\ frame_ok sh m h fr
  end.
Definition inv (s : system) : Prop := exists o : option nat,
  sy_locked s = bool_decide (is_Some o) /\ (forall i, o = Some i -> is_Some (sy_threads s !! i)) /\
  forall i th, sy_threads s !! i = Some th -> thread_ok (sy_shared s) (bool_decide (o = Some i)) th.

Lemma inside_waits d b : inside d b = true -> match b with ILock :: _ => true | _ => false end = false.
Proof. by destruct b as [|[]]. Qed.
Lemma outside_waits b : outside b = true -> match b with ILock :: _ => true | _ => false end = false.
Proof. by destruct b as [|[]]. Qed.
Lemma outside_finish b : outside b = true -> forall res ret, exists r, forall k sh, finish k b res ret sh = (r, sh).
Proof. induction b as [|[] b IH]; cbn; intros H res ret; try done; eauto. Qed.

Ltac frame_cases fr := destruct fr as [body df sv rs rt pn]; cbn in *; subst; cbn in *.

Lemma free_step k l l' sh sh' fr fr' : free_frame fr -> fstep k (l, sh, fr) (l', sh', fr') ->
  free_frame fr' /\ l' = l /\ sh' = sh /\ finish_frame k fr' sh' = finish_frame k fr sh.
Proof.
  intros (Ho & Hd & Hs & Hp) H. inversion H; subst; clear H; frame_cases fr; try done.
  all: assert (pn = false) by (destruct pn; [by specialize (Hp eq_refl)|done]); subst pn.
  all: split; [done|]; unfold finish_frame; cbn; by repeat case_match.
Qed.

Lemma hold_step k l' sh sh' fr fr' : held_frame sh fr -> fstep k (true, sh, fr) (l', sh', fr') ->
  (if l' then held_frame sh' fr' else free_frame fr') /\ finish_frame k fr' sh' = finish_frame k fr sh.
Proof.
  intros (Hi & Hs & Hp) H. inversion H; subst; clear H; frame_cases fr; try done.
  all: try (assert (pn = false) by (destruct pn; [by specialize (Hp eq_refl)|done]); subst pn).
  all: try (apply andb_true_iff in Hi as [->%Nat.eqb_eq Hi]).
  all: try match goal with Hs : forall a, Some ?x = Some a -> _ |- _ => destruct (Hs x eq_refl) as [-> _] end.
  all: split; [|unfold finish_frame; cbn; repeat case_match; simplify_eq; try done].
  all: try done.
  - split; cbn; [by rewrite Hi|]. split; [intros a [= <-]; done|done].
  - exfalso. by match goal with Hn : forall r, _ <> Ret r |- _ => eapply Hn end.
  - apply Nat.eqb_eq in Hi as [= ->]. split; [done|]. split; [done|]. split; [|done]. cbn. destruct sv as [a|]; [by destruct (Hs a eq_refl)|done].
Qed.

(** A thread without the mutex: its caller, once it is completed, and nothing
    shared changed. *)
Lemma quiet_thread sh th : thread_ok sh false th -> exists c, forall sh', complete_thread th sh' = (c, sh').
Proof.
  unfold thread_ok, complete_thread. destruct th as [c [fr|]]; cbn [th_run th_caller]; [|intros _; by exists c].
  intros (m & ms & _ & Hf). inversion Hf as [b Hm Hi|fr0 (Ho & _)|]; subst.
  - exists c. intros sh'. cbn [enter waits fr_body]. unfold waits. cbn [enter fr_body]. by rewrite Hm.
  - unfold waits, finish_frame. rewrite (outside_waits _ Ho). destruct (fr_panic fr); [by eexists|].
    destruct (outside_finish _ Ho (fr_res fr) (fr_ret fr)) as [r Hr]. exists (return_ r c). intros sh'. by rewrite Hr.
Qed.

Lemma ok_false_shared sh sh' th : thread_ok sh false th -> thread_ok sh' false th.
Proof.
  unfold thread_ok. destruct (th_run th) as [fr|]; [|done]. intros (m & ms & Ht & Hf). exists m, ms. split; [done|].
  inversion Hf; subst; [by eapply fo_waits|by apply fo_free].
Qed.

(** The completion when one thread changes: a quiet one, or the only one that
    may not be. *)
Lemma complete_quiet ths : forall sh i th c th' c', ths !! i = Some th -> (forall sh, complete_thread th sh = (c, sh)) -> (forall sh, complete_thread th' sh = (c', sh)) ->
  (complete ths sh).2 !! i = Some c /\ complete (<[i := th']> ths) sh = ((complete ths sh).1, <[i := c']> (complete ths sh).2).
Proof.
  induction ths as [|t ths IH]; intros sh [|i] th c th' c' Hi Hc Hc'; try done.
  - injection Hi as ->. cbn. rewrite Hc, Hc'. by destruct (complete ths sh).
  - change (<[Datatypes.S i := th']> (t :: ths)) with (t :: <[i := th']> ths). cbn in Hi |- *. destruct (complete_thread t sh) as [c1 sh1]. destruct (IH sh1 i th c th' c' Hi Hc Hc') as [H1 H2]. rewrite H2.
    by destruct (complete ths sh1).
Qed.

Definition quiet (th : thread) : Prop := exists c, forall sh, complete_thread th sh = (c, sh).
Lemma complete_all_quiet ths : Forall quiet ths -> exists cs, length cs = length ths /\ forall sh, complete ths sh = (sh, cs).
Proof.
  induction 1 as [|th ths [c Hc] _ (cs & Hl & IH)]; [by exists []|]. exists (c :: cs). split; [by cbn; rewrite Hl|]. intros sh. cbn. by rewrite Hc, IH.
Qed.
Lemma complete_app l1 l2 sh : complete (l1 ++ l2) sh =
  ((complete l2 (complete l1 sh).1).1, (complete l1 sh).2 ++ (complete l2 (complete l1 sh).1).2).
Proof.
  revert sh. induction l1 as [|th l1 IH]; intros sh; [by destruct (complete l2 sh) eqn:E; cbn; rewrite E|]. cbn. destruct (complete_thread th sh) as [c sh1].
  rewrite IH. by destruct (complete l1 sh1).
Qed.
Lemma update_middle {A} (l1 l2 : list A) x y : <[length l1 := y]> (l1 ++ x :: l2) = l1 ++ y :: l2.
Proof. induction l1 as [|z l1 IH]; [done|]. cbn [length app]. change (<[Datatypes.S (length l1) := y]> (z :: ?l)) with (z :: <[length l1 := y]> l). cbn. by f_equal. Qed.
Lemma complete_one ths i th : ths !! i = Some th -> (forall j t, j <> i -> ths !! j = Some t -> quiet t) ->
  exists l1 l2, length l1 = i /\ forall th' sh, complete (<[i := th']> ths) sh = ((complete_thread th' sh).2, l1 ++ (complete_thread th' sh).1 :: l2).
Proof.
  intros Hi Hq. assert (H1 : Forall quiet (take i ths)).
  { apply list.Forall_lookup. intros j t [Hj Hlt]%lookup_take_Some. apply (Hq j); [lia|done]. }
  assert (H2 : Forall quiet (drop (Datatypes.S i) ths)).
  { apply list.Forall_lookup. intros j t Hj. rewrite lookup_drop in Hj. by apply (Hq (Datatypes.S i + j)%nat); [lia|]. }
  destruct (complete_all_quiet _ H1) as (c1 & Hl1 & E1), (complete_all_quiet _ H2) as (c2 & _ & E2). pose proof (lookup_lt_Some _ _ _ Hi) as Hlt.
  exists c1, c2. split; [rewrite Hl1, length_take; lia|]. intros th' sh. rewrite insert_take_drop by done. rewrite complete_app, E1. cbn.
  destruct (complete_thread th' sh) as [c sh']. by rewrite E2.
Qed.

(** What a step has to show of the thread that takes it: without the mutex
    before and after, taking it, or holding it. *)
Definition simulated (s s' : system) : Prop := inv s' /\ (completed s' = completed s \/ atomic (completed s) (completed s')).

Lemma quiet_simulated l sh ths i th th' c c' :
  inv (mkSystem l sh ths) -> ths !! i = Some th -> (forall h, thread_ok sh h th -> h = false /\ thread_ok sh false th') ->
  (forall sh, complete_thread th sh = (c, sh)) -> (forall sh, complete_thread th' sh = (c', sh)) ->
  (c' = c \/ exists m ms r, cl_todo c = m :: ms /\ c' = return_ r c /\ forall sh, call_spec (cl_client c) m sh = (r, sh)) ->
  simulated (mkSystem l sh ths) (mkSystem l sh (<[i := th']> ths)).
Proof.
  intros (o & Hl & Ho & Hok) Hi Hth Hc Hc' Hcase. cbn in *. destruct (Hth _ (Hok i th Hi)) as [Hne%bool_decide_eq_false Hth'].
  destruct (complete_quiet ths sh i th c th' c' Hi Hc Hc') as [Hcs Hcomp]. split.
  - exists o. split; [done|]. cbn. split; [intros j Hj; apply lookup_lt_is_Some; rewrite length_insert; by apply lookup_lt_is_Some, Ho|].
    intros j t Hj. destruct (decide (j = i)) as [->|Hji].
    + rewrite list_lookup_insert_eq in Hj by (by eapply lookup_lt_Some). injection Hj as <-. by rewrite bool_decide_eq_false_2.
    + rewrite list_lookup_insert_ne in Hj by done. by apply Hok.
  - unfold completed. cbn [sy_threads sy_shared]. rewrite Hcomp. destruct (complete ths sh) as [sh1 cs]. cbn [fst snd] in *.
    destruct Hcase as [->|(m & ms & r & Ht & -> & Hs)]; [left; by rewrite list_insert_id|right]. by eapply atomic_call.
Qed.

Lemma inv_owner l sh ths i th l' sh' th' :
  inv (mkSystem l sh ths) -> ths !! i = Some th -> (forall h, thread_ok sh h th -> h = l) -> thread_ok sh' l' th' ->
  inv (mkSystem l' sh' (<[i := th']> ths)) /\ (forall j t, j <> i -> ths !! j = Some t -> quiet t).
Proof.
  intros (o & Hl & Ho & Hok) Hi Hh Hth'. cbn in *. pose proof (Hh _ (Hok i th Hi)) as Hlo.
  assert (Hothers : forall j t, j <> i -> ths !! j = Some t -> thread_ok sh false t).
  { intros j t Hji Hj. specialize (Hok j t Hj). rewrite bool_decide_eq_false_2 in Hok; [done|]. intros ->.
    rewrite Hl in Hlo. rewrite (bool_decide_eq_true_2 (is_Some (Some j))) in Hlo by eauto. apply bool_decide_eq_true in Hlo. congruence. }
  split; [|intros j t Hji Hj; eapply quiet_thread; eauto]. exists (if l' then Some i else None). cbn. split; [by destruct l'|]. split.
  - intros j Hj. destruct l'; [injection Hj as <-|done]. apply lookup_lt_is_Some. rewrite length_insert. by eapply lookup_lt_Some.
  - intros j t Hj. destruct (decide (j = i)) as [->|Hji].
    + rewrite list_lookup_insert_eq in Hj by (by eapply lookup_lt_Some). injection Hj as <-. by destruct l'; [rewrite bool_decide_eq_true_2|rewrite bool_decide_eq_false_2].
    + rewrite list_lookup_insert_ne in Hj by done. rewrite bool_decide_eq_false_2 by (destruct l'; congruence). eapply ok_false_shared; eauto.
Qed.

Lemma inside_outside b : inside 0 b = true -> outside b = false.
Proof. induction b as [|[] b IH]; cbn; intros H; try done; auto. Qed.
Lemma frame_holds sh sh' m h fr : held_frame sh fr -> frame_ok sh' m h fr -> h = true.
Proof.
  intros (Hi & _) Hf. inversion Hf as [b Hm Hb|fr0 (Ho & Hd & _)|]; subst; [|rewrite Hd in Hi; apply inside_outside in Hi; congruence|done].
  cbn in Hi. by rewrite Hm in Hi.
Qed.
Lemma frame_free sh m h fr : free_frame fr -> frame_ok sh m h fr -> h = false.
Proof. intros (Ho & Hd & _) Hf. inversion Hf as [| |fr0 (Hi & _)]; subst; [done|done|]. rewrite Hd in Hi. apply inside_outside in Hi. congruence. Qed.
Lemma frame_waits sh m h fr : waits fr = true -> frame_ok sh m h fr -> h = false.
Proof. intros Hw Hf. inversion Hf as [| |fr0 (Hi & _)]; subst; [done|done|]. unfold waits in Hw. by erewrite inside_waits in Hw. Qed.

(** The three kinds of thread that run a step of a method. *)
Lemma waiting_simulated sh ths i c m ms b fr' : inv (mkSystem false sh ths) -> ths !! i = Some (mkThread c (Some (enter (method_of m)))) ->
  cl_todo c = m :: ms -> method_of m = ILock :: b -> inside 0 b = true -> fr' = goto b (enter (method_of m)) ->
  simulated (mkSystem false sh ths) (mkSystem true sh (<[i := mkThread c (Some fr')]> ths)).
Proof.
  intros Hinv Hi Ht Hm Hb ->. assert (Hw : waits (enter (method_of m)) = true) by (unfold waits; cbn; by rewrite Hm).
  destruct (inv_owner _ _ _ _ _ true sh (mkThread c (Some (goto b (enter (method_of m))))) Hinv Hi) as [Hinv' Hq].
  { intros h (m' & ms' & _ & Hf). exact (frame_waits _ _ _ _ Hw Hf). }
  { exists m, ms. split; [done|]. by apply fo_holds. }
  split; [done|right]. destruct (complete_one _ _ _ Hi Hq) as (l1 & l2 & Hlen & Hc). unfold completed. cbn [sy_threads sy_shared].
  rewrite Hc. rewrite <- (list_insert_id ths i _ Hi) at 1. rewrite Hc. unfold complete_thread. cbn [th_run th_caller]. rewrite Hw.
  assert (Hnw : waits (goto b (enter (method_of m))) = false) by (unfold waits; cbn; by eapply inside_waits). rewrite Hnw.
  pose proof (methods_meet_spec (cl_client c) m sh) as Hspec. rewrite Hm in Hspec. cbn [finish] in Hspec.
  unfold finish_frame. cbn [goto enter fr_panic fr_body fr_res fr_ret]. rewrite Hspec. destruct (call_spec (cl_client c) m sh) as [r sh'] eqn:Hr. cbn [fst snd].
  rewrite <- (update_middle l1 l2 c (return_ r c)), Hlen. eapply atomic_call; [|done|done].
  by rewrite <- Hlen, list_lookup_middle.
Qed.

Lemma free_simulated l sh ths i c m ms fr l' sh' fr' : inv (mkSystem l sh ths) -> ths !! i = Some (mkThread c (Some fr)) ->
  cl_todo c = m :: ms -> free_frame fr -> fstep (cl_client c) (l, sh, fr) (l', sh', fr') ->
  simulated (mkSystem l sh ths) (mkSystem l' sh' (<[i := mkThread c (Some fr')]> ths)).
Proof.
  intros Hinv Hi Ht Hfr Hstep. destruct (free_step _ _ _ _ _ _ _ Hfr Hstep) as (Hfr' & -> & -> & Hfin).
  assert (Hth : thread_ok sh false (mkThread c (Some fr))) by (exists m, ms; split; [done|by apply fo_free]).
  assert (Hth' : thread_ok sh false (mkThread c (Some fr'))) by (exists m, ms; split; [done|by apply fo_free]).
  destruct (quiet_thread _ _ Hth) as [c0 Hc], (quiet_thread _ _ Hth') as [c0' Hc']. eapply quiet_simulated; try done.
  - intros h (m' & ms' & _ & Hh). split; [exact (frame_free _ _ _ _ Hfr Hh)|done].
  - left. specialize (Hc sh). specialize (Hc' sh). unfold complete_thread, waits in *. cbn [th_run th_caller] in *.
    rewrite (outside_waits _ (proj1 Hfr)) in Hc. rewrite (outside_waits _ (proj1 Hfr')) in Hc'. rewrite Hfin in Hc'. destruct (finish_frame (cl_client c) fr sh). congruence.
Qed.

Lemma held_simulated l sh ths i c m ms fr l' sh' fr' : inv (mkSystem l sh ths) -> ths !! i = Some (mkThread c (Some fr)) ->
  cl_todo c = m :: ms -> held_frame sh fr -> fstep (cl_client c) (l, sh, fr) (l', sh', fr') ->
  simulated (mkSystem l sh ths) (mkSystem l' sh' (<[i := mkThread c (Some fr')]> ths)).
Proof.
  intros Hinv Hi Ht Hfr Hstep. assert (l = true) as ->.
  { destruct Hinv as (o & Hl & _ & Hok). destruct (Hok i _ Hi) as (m' & ms' & _ & Hf). pose proof (frame_holds _ _ _ _ _ Hfr Hf) as Ho.
    apply bool_decide_eq_true in Ho. cbn in Hl. by rewrite Hl, Ho. }
  destruct (hold_step _ _ _ _ _ _ Hfr Hstep) as [Hfr' Hfin].
  destruct (inv_owner _ _ _ _ _ l' sh' (mkThread c (Some fr')) Hinv Hi) as [Hinv' Hq].
  { intros h (m' & ms' & _ & Hf). exact (frame_holds _ _ _ _ _ Hfr Hf). }
  { exists m, ms. split; [done|]. destruct l'; [by apply fo_holds|by apply fo_free]. }
  split; [done|left]. destruct (complete_one _ _ _ Hi Hq) as (l1 & l2 & Hlen & Hc). unfold completed. cbn [sy_threads sy_shared].
  rewrite Hc. rewrite <- (list_insert_id ths i _ Hi) at 1. rewrite Hc. unfold complete_thread, waits. cbn [th_run th_caller].
  rewrite (inside_waits _ _ (proj1 Hfr)), Hfin. by replace (match fr_body fr' with ILock :: _ => true | _ => false end) with false
    by (symmetry; destruct l'; [apply (inside_waits _ _ (proj1 Hfr'))|apply (outside_waits _ (proj1 Hfr'))]).
Qed.

Lemma none_complete c : forall sh : shared, complete_thread (mkThread c None) sh = (c, sh).
Proof. done. Qed.

Lemma call_simulated l sh ths i c m ms : inv (mkSystem l sh ths) -> ths !! i = Some (mkThread c None) -> cl_todo c = m :: ms ->
  simulated (mkSystem l sh ths) (mkSystem l sh (<[i := mkThread c (Some (enter (method_of m)))]> ths)).
Proof.
  intros Hinv Hi Ht. pose proof (methods_disciplined m) as Hd. unfold disciplined in Hd. destruct (waits (enter (method_of m))) eqn:Hw.
  - unfold waits in Hw. cbn in Hw. destruct (method_of m) as [|[] b] eqn:Hm; try done.
    eapply quiet_simulated; [done|done| |apply none_complete| |by left]; [|intros sh'; done].
    intros h ->. split; [done|]. exists m, ms. split; [done|]. rewrite <- Hm. by eapply fo_waits.
  - assert (Ho : outside (method_of m) = true) by (unfold waits in Hw; cbn in Hw; by destruct (method_of m) as [|[]]).
    destruct (outside_finish _ Ho None RetNil) as [r Hr].
    eapply quiet_simulated; [done|done| |apply none_complete| |].
    + intros h ->. split; [done|]. exists m, ms. split; [done|]. by apply fo_free.
    + intros sh'. unfold complete_thread. cbn [th_run th_caller]. rewrite Hw. unfold finish_frame. cbn [enter fr_panic fr_body fr_res fr_ret]. by rewrite Hr.
    + right. exists m, ms, r. split; [done|]. split; [done|]. intros sh'. by rewrite <- methods_meet_spec.
Qed.

Lemma return_simulated l sh ths i c fr : inv (mkSystem l sh ths) -> ths !! i = Some (mkThread c (Some fr)) -> fr_body fr = [] -> fr_defer fr = 0%nat ->
  simulated (mkSystem l sh ths) (mkSystem l sh (<[i := mkThread (return_ (outcome_of fr) c) None]> ths)).
Proof.
  intros Hinv Hi Hb Hd. eapply quiet_simulated; [done|done| | |apply none_complete|by left].
  - intros h (m & ms & _ & Hf). split; [|done]. inversion Hf as [| |fr0 (Hin & _)]; [done|done|]. subst. by rewrite Hb, Hd in Hin.
  - intros sh'. unfold complete_thread, waits, finish_frame, outcome_of. cbn [th_run th_caller]. rewrite Hb. by destruct (fr_panic fr).
Qed.

Lemma step_simulated s s' : step s s' -> inv s -> simulated s s'.
Proof.
  destruct 1 as [l sh ths i c m ms Hi Ht|l sh ths i c fr l' sh' fr' Hi Hf|l sh ths i c fr Hi Hb Hd]; intros Hinv.
  - by eapply call_simulated.
  - destruct (Hinv) as (o & _ & _ & Hok). destruct (Hok i _ Hi) as (m & ms & Ht & Hfr). cbn in Hfr, Ht.
    inversion Hfr as [b Hm Hb|fr0 Hfree|fr0 Hheld]; subst; [|by eapply free_simulated|by eapply held_simulated].
    assert (Hbody : fr_body (enter (method_of m)) = ILock :: b) by done.
    inversion Hf; subst; rewrite ?Hbody in *; simplify_eq. by eapply waiting_simulated.
  - by eapply return_simulated.
Qed.

Lemma start_inv sh cs : inv (start sh cs).
Proof. exists None. split; [done|]. split; [done|]. cbn. intros i th Hi. apply list_lookup_fmap_Some in Hi as (c & -> & _). done. Qed.
Lemma complete_idle ths sh : (forall i th, ths !! i = Some th -> th_run th = None) -> complete ths sh = (sh, map th_caller ths).
Proof.
  induction ths as [|th ths IH]; intros H; [done|]. cbn. unfold complete_thread. rewrite (H 0%nat th eq_refl). rewrite IH; [done|].
  intros i. apply (H (Datatypes.S i)).
Qed.
Lemma start_completed sh cs : completed (start sh cs) = (sh, cs).
Proof.
  unfold completed. cbn. rewrite complete_idle; [|intros i th Hi; by apply list_lookup_fmap_Some in Hi as (c & -> & _)]. by rewrite map_map, map_id.
Qed.
Lemma reachable_inv sh cs s : rtc step (start sh cs) s -> inv s /\ rtc atomic (sh, cs) (completed s).
Proof.
  intros Hr. rewrite <- (start_completed sh cs). generalize (start_inv sh cs). induction Hr as [|x y z Hxy _ IH]; [done|]. intros Hx.
  destruct (step_simulated _ _ Hxy Hx) as [Hy Hs]. destruct (IH Hy) as [Hz Ha]. split; [done|].
  destruct Hs as [<-|Hs]; [done|by eapply rtc_l].
Qed.

(** C21: the calls of the clients are atomic.  However the instructions of the
    methods interleave, for any number of goroutines that use any clients, also
    when the application or a nil callback panics in the middle of one, every
    reachable state, once the methods that hold or have held the mutex have
    returned, is reached by calls made one after the other, each with the whole
    effect its method promises: the application serves the request on the state
    the call before has left, the callback of the client is invoked with the
    response, and the response is returned.  Between calls the state is exactly
    that. *)
Theorem connections_atomic sh cs s : rtc step (start sh cs) s ->
  rtc atomic (sh, cs) (completed s) /\ (idle s -> completed s = (sy_shared s, map th_caller (sy_threads s))).
Proof. intros Hr. split; [by apply reachable_inv|]. intros Hi. by apply complete_idle. Qed.

(** ** Progress *)
Definition frame_work (fr : frame) : nat := 3 * length (fr_body fr) + fr_defer fr + 2 - match fr_serving fr with Some _ => 1 | None => 0 end.
Definition call_work (m : client_call) : nat := 3 * length (method_of m) + 3.
Definition thread_work (th : thread) : nat :=
  match th_run th with
  | None => sum_list (map call_work (cl_todo (th_caller th)))
  | Some fr => frame_work fr + sum_list (map call_work (tail (cl_todo (th_caller th))))
  end.
Definition work (s : system) : nat := sum_list (map thread_work (sy_threads s)).
Definition calls (th : thread) : nat := length (cl_results (th_caller th)) + length (cl_todo (th_caller th)).

Lemma sum_insert {A} (f : A -> nat) (l : list A) i x y : l !! i = Some x -> (sum_list (map f (<[i := y]> l)) + f x = sum_list (map f l) + f y)%nat.
Proof.
  revert i. induction l as [|z l IH]; intros [|i] H; try done.
  - injection H as ->. cbn. lia.
  - specialize (IH i H). change (<[Datatypes.S i := y]> (z :: l)) with (z :: <[i := y]> l). cbn [map sum_list sum_list_with]. unfold sum_list, id in *. cbn. lia.
Qed.

Lemma fstep_work k l sh fr l' sh' fr' : fstep k (l, sh, fr) (l', sh', fr') -> (frame_work fr' < frame_work fr)%nat.
Proof. intros H. inversion H; subst; clear H; frame_cases fr; unfold frame_work; cbn; repeat case_match; lia. Qed.

Lemma step_work s s' : step s s' -> (work s' < work s)%nat.
Proof.
  destruct 1 as [l sh ths i c m ms Hi Ht|l sh ths i c fr l' sh' fr' Hi Hf|l sh ths i c fr Hi Hb Hd]; unfold work; cbn [sy_threads];
    match goal with |- context [<[i := ?y]> ths] => pose proof (sum_insert thread_work ths i _ y Hi) as Hs end.
  - assert (H1 : thread_work (mkThread c None) = (call_work m + sum_list (map call_work ms))%nat) by (unfold thread_work; cbn [th_run th_caller]; by rewrite Ht).
    assert (H2 : thread_work (mkThread c (Some (enter (method_of m)))) = (3 * length (method_of m) + 2 + sum_list (map call_work ms))%nat).
    { unfold thread_work. cbn [th_run th_caller]. rewrite Ht. unfold frame_work. cbn [tail enter fr_body fr_defer fr_serving]. lia. }
    unfold call_work in H1 at 1. lia.
  - apply fstep_work in Hf. unfold thread_work in Hs at 2 4. cbn [th_run th_caller] in Hs. lia.
  - assert (H1 : (thread_work (mkThread c (Some fr)) >= 1 + thread_work (mkThread (return_ (outcome_of fr) c) None))%nat).
    { unfold thread_work, frame_work. cbn [th_run th_caller return_ cl_todo]. rewrite Hb, Hd. cbn [length]. destruct (fr_serving fr); lia. }
    lia.
Qed.

Lemma step_calls s s' : step s s' -> inv s -> forall i, calls <$> sy_threads s' !! i = calls <$> sy_threads s !! i.
Proof.
  intros Hs Hinv j. destruct Hs as [l sh ths i c m ms Hi Ht|l sh ths i c fr l' sh' fr' Hi Hf|l sh ths i c fr Hi Hb Hd]; cbn [sy_threads].
  all: destruct (decide (i = j)) as [->|Hne]; [|by rewrite list_lookup_insert_ne].
  all: rewrite list_lookup_insert_eq by (by eapply lookup_lt_Some); rewrite Hi; cbn; f_equal.
  unfold calls. cbn. destruct Hinv as (o & _ & _ & Hok). destruct (Hok j _ Hi) as (m & ms & Ht & _). cbn in Ht. rewrite Ht, length_app. cbn. lia.
Qed.

Lemma held_progress k sh fr : held_frame sh fr -> exists l' sh' fr', fstep k (true, sh, fr) (l', sh', fr').
Proof.
  intros (Hi & _). destruct (fr_body fr) as [|ins b] eqn:Hb.
  - apply Nat.eqb_eq in Hi. do 3 eexists. by eapply fs_unwind.
  - destruct ins; try done; try (do 3 eexists; by econstructor).
    + destruct (fr_serving fr) as [a|] eqn:Hs; [|do 3 eexists; by eapply fs_begin].
      destruct (serve req a) as [o a'] eqn:Ho. destruct o; do 3 eexists; [by eapply fs_served|by eapply fs_serve_panic..].
    + destruct (callback k req (fr_res fr) sh) as [[rr sh']|] eqn:Hc; do 3 eexists; [by eapply fs_callback|by eapply fs_callback_panic].
Qed.
Lemma free_progress k l sh fr : free_frame fr -> fr_body fr = [] \/ exists l' sh' fr', fstep k (l, sh, fr) (l', sh', fr').
Proof.
  intros (Ho & _). destruct (fr_body fr) as [|ins b] eqn:Hb; [by left|right]. destruct ins; try done; do 3 eexists; by econstructor.
Qed.

Lemma can_step s : inv s -> (exists s', step s s') \/
  (sy_locked s = false /\ forall i th, sy_threads s !! i = Some th -> th_run th = None /\ cl_todo (th_caller th) = []).
Proof.
  destruct s as [l sh ths]. intros (o & Hl & Ho & Hok). cbn in *. destruct o as [i|].
  - left. destruct (Ho i eq_refl) as [[c run] Hi]. specialize (Hok i _ Hi). rewrite bool_decide_eq_true_2 in Hok by done.
    destruct run as [fr|]; [|done]. destruct Hok as (m & ms & _ & Hf). inversion Hf as [| |fr0 Hh]; subst.
    destruct (held_progress (cl_client c) _ _ Hh) as (l' & sh' & fr' & Hst). eexists. by eapply step_run.
  - destruct (decide (Exists (fun th => cl_todo (th_caller th) <> []) ths)) as [He|Hne].
    + left. apply list.Exists_exists in He as ([c run] & [i Hi]%list_elem_of_lookup & Ht). cbn in Ht. specialize (Hok i _ Hi).
      destruct run as [fr|].
      * destruct Hok as (m & ms & _ & Hf). inversion Hf as [b Hm Hb|fr0 Hfr|]; subst.
        -- eexists. eapply step_run; [done|]. by apply fs_lock.
        -- destruct (free_progress (cl_client c) false sh _ Hfr) as [Hb|(l' & sh' & fr' & Hst)]; eexists; [|by eapply step_run].
           eapply step_return; [done|done|apply Hfr].
      * destruct (cl_todo c) as [|m ms] eqn:E; [done|]. eexists. by eapply step_call.
    + right. split; [done|]. intros i th Hi. specialize (Hok i th Hi). unfold thread_ok in Hok.
      assert (Ht : cl_todo (th_caller th) = []).
      { destruct (cl_todo (th_caller th)) eqn:E; [done|]. destruct Hne. apply list.Exists_exists. exists th. split; [by apply list_elem_of_lookup_2 with i|by rewrite E]. }
      split; [|done]. destruct (th_run th); [|done]. destruct Hok as (m & ms & E & _). congruence.
Qed.

(** C22: every call returns.  No run of the goroutines is longer than the work
    they have, no state is stuck before all calls are made, and then every
    goroutine has as many results as it made calls and the mutex is free, even
    when the application or a callback panics in some of them. *)
Theorem every_call_returns sh cs :
  (forall n s, nsteps step n (start sh cs) s -> (n <= work (start sh cs))%nat) /\
  forall s, rtc step (start sh cs) s ->
    (exists s', step s s') \/
    (sy_locked s = false /\ idle s /\ forall i th c0, cs !! i = Some c0 -> sy_threads s !! i = Some th ->
       cl_todo (th_caller th) = [] /\ length (cl_results (th_caller th)) = (length (cl_results c0) + length (cl_todo c0))%nat).
Proof.
  split.
  - intros n s Hn. enough (n + work s <= work (start sh cs))%nat by lia.
    induction Hn as [|n x y z Hxy _ IH]; [lia|]. pose proof (step_work _ _ Hxy). lia.
  - intros s Hr. assert (Hc : forall i, calls <$> sy_threads s !! i = calls <$> sy_threads (start sh cs) !! i).
    { generalize (start_inv sh cs). induction Hr as [|x y z Hxy _ IH]; [done|]. intros Hx i. destruct (step_simulated _ _ Hxy Hx) as [Hy _].
      rewrite (IH Hy). by apply step_calls. }
    apply reachable_inv in Hr as [Hinv _]. destruct (can_step s Hinv) as [?|[Hl Hend]]; [by left|right]. split; [done|].
    split; [intros i th Hi; by apply (Hend i)|]. intros i th c0 H0 Hi. destruct (Hend i th Hi) as [_ Ht]. split; [done|].
    specialize (Hc i). rewrite Hi in Hc. cbn [start sy_threads] in Hc. rewrite list_lookup_fmap, H0 in Hc. cbn in Hc. injection Hc as Hc.
    unfold calls in Hc. rewrite Ht in Hc. cbn in Hc. lia.
Qed.
End Client.

(** ** Two clients

    An application that counts transactions and panics on queries.  The second
    goroutine queries and echoes while the first delivers a transaction. *)
#[local] Instance counter : Application Z := {|
  serve req := match req with
               | ToRequestDeliverTx _ => fun n => (Ret (ToResponseDeliverTx (mkResponse n "" [] 0 0 [])), n + 1)
               | ToRequestQuery _ _ _ => panicM
               | _ => retM ToResponseEmpty
               end;
|}.
Definition counted (n : Z) : AbciResponse := ToResponseDeliverTx (mkResponse n "" [] 0 0 []).
Definition two_callers : list caller :=
  [mkCaller 0 [CallDeliverTxAsync []] []; mkCaller 1 [CallQuerySync "account" 0 []; CallEchoSync "hi"; CallInfoSync] []].
Definition shared0 : shared := mkShared 0 {[ 0%nat := 7%nat ]} [].
Definition delivered : system :=
  mkSystem false (mkShared 1 {[ 0%nat := 7%nat ]} [(7%nat, ToRequestDeliverTx [], counted 0)])
    [mkThread (mkCaller 0 [] [Ret (RetReqRes (mkReqRes (ToRequestDeliverTx []) (Some (counted 0))))]) None;
     mkThread (mkCaller 1 [CallInfoSync] [Panic; Ret (RetResponse (ToResponseEcho "hi"))]) None].

Ltac calls_of i := eapply rtc_l; [eapply (step_call _ _ _ i); reflexivity|].
Ltac runs i rule := eapply rtc_l; [eapply (step_run _ _ _ i); [reflexivity|eapply rule; first [reflexivity|discriminate]]|].
Ltac returns i := eapply rtc_l; [eapply (step_return _ _ _ i); reflexivity|].

(** The transaction waits for the mutex the query holds; the query panics, its
    deferred [Unlock] runs, and the echo returns while the transaction is served. *)
Lemma two_callers_run : rtc step (start shared0 two_callers) delivered.
Proof.
  calls_of 1%nat. runs 1%nat fs_lock. calls_of 0%nat. runs 1%nat fs_defer. runs 1%nat fs_begin. runs 1%nat fs_serve_panic. runs 1%nat fs_unwind.
  runs 0%nat fs_lock. returns 1%nat. calls_of 1%nat. runs 0%nat fs_defer. runs 0%nat fs_begin. runs 1%nat fs_return. runs 0%nat fs_served.
  returns 1%nat. runs 0%nat fs_callback. runs 0%nat fs_unwind. returns 0%nat. apply rtc_refl.
Qed.

Lemma connections_atomic_witness : rtc atomic (shared0, two_callers) (sy_shared delivered, map th_caller (sy_threads delivered)).
Proof.
  destruct (connections_atomic _ _ _ two_callers_run) as [H Hc]. rewrite Hc in H; [exact H|]. intros [|[|i]] th Hi; [injection Hi as <-; reflexivity|injection Hi as <-; reflexivity|discriminate Hi].
Defined.

Lemma every_call_returns_witness : exists s', step delivered s'.
Proof.
  destruct (every_call_returns shared0 two_callers) as [_ H]. destruct (H _ two_callers_run) as [Hs|(_ & _ & Hend)]; [exact Hs|].
  destruct (Hend 1%nat _ _ eq_refl eq_refl) as [Hbad _]. discriminate Hbad.
Defined.
