(* ===== verification/Parallel.v ===== *)
(** * The pool of execution routines: [node/trx_executor.go], [deliverTxAsync]

    The parallel mode of the executor: contexts go through one of [n] channels,
    chosen by the first byte of the sender, and one goroutine per channel
    validates and runs them.  The contexts are objects that the channels point
    to.  The body of a routine is a list of statements over the shared state and
    the context; the routines and the caller interleave between any two of them,
    so the theorems hold at every granularity.  The mode is built but switched
    off: [NewRigoApp] makes a pool without channels. *)

From Stdlib Require Import Strings.Byte.
From S2P Require Import Prelude Xerrors GoSem Bytes Crypto Ledger LedgerSpec Concrete GovParams Account Trx Context AcctCtrler.
From S2P Require Import Stake StakeLimiter StakeCtrler Proposal GovCtrler Executor MetaDB App LocalClient.

(** A channel: the pointers in its buffer, and whether it is closed. *)
Record chan : Type := mkChan { ch_buf : list nat; ch_closed : bool }.
Definition chan_cap : Z := 5000.

Section Pool.
Context {S X : Type} (sender : X -> list Byte.byte).
Context (body : list (GoM (S * X) unit)) (Callback : X -> option XError -> GoM S unit) (refused : X -> XError -> GoM S unit).

(** [executionRoutine]: waiting for a context, executing one, about to call its
    callback, or returned because its channel is closed and empty. *)
Inductive routine : Type :=
  | Waiting
  | Busy (c : nat) (rest : list (GoM (S * X) unit))
  | Calling (c : nat) (xerr : option XError)
  | Ended.

(** [po_sent] (the sender of each context when it was submitted) and [po_calls]
    (the callbacks made) are history. *)
Record pool : Type := mkPool {
  txCtxChs : list (option nat);
  po_chans : list chan;
  po_routines : list routine;
  po_ctxs : list X;
  po_shared : S;
  po_sent : list (list Byte.byte);
  po_calls : list nat;
}.
Definition set_routine (i : nat) (r : routine) (p : pool) : pool :=
  mkPool (txCtxChs p) (po_chans p) (<[i := r]> (po_routines p)) (po_ctxs p) (po_shared p) (po_sent p) (po_calls p).
Definition set_chan (i : nat) (ch : chan) (p : pool) : pool :=
  mkPool (txCtxChs p) (<[i := ch]> (po_chans p)) (po_routines p) (po_ctxs p) (po_shared p) (po_sent p) (po_calls p).
Definition set_ctx (c : nat) (x : X) (p : pool) : pool :=
  mkPool (txCtxChs p) (po_chans p) (po_routines p) (<[c := x]> (po_ctxs p)) (po_shared p) (po_sent p) (po_calls p).
Definition set_shared (s : S) (p : pool) : pool :=
  mkPool (txCtxChs p) (po_chans p) (po_routines p) (po_ctxs p) s (po_sent p) (po_calls p).
Definition add_call (c : nat) (p : pool) : pool :=
  mkPool (txCtxChs p) (po_chans p) (po_routines p) (po_ctxs p) (po_shared p) (po_sent p) (po_calls p ++ [c]).
Definition add_ctx (x : X) (p : pool) : pool :=
  mkPool (txCtxChs p) (po_chans p) (po_routines p) (po_ctxs p ++ [x]) (po_shared p) (po_sent p ++ [sender x]) (po_calls p).

Definition NewTrxExecutor (n : nat) (s : S) : pool :=
  mkPool (map Some (seq 0 n)) (replicate n (mkChan [] false)) [] [] s [] [].
(** One routine for each channel. *)
Definition Start (p : pool) : pool :=
  mkPool (txCtxChs p) (po_chans p) (map (fun _ => Waiting) (txCtxChs p)) (po_ctxs p) (po_shared p) (po_sent p) (po_calls p).
(** Closing an absent or closed channel panics. *)
Definition close_chan (o : option nat) (cs : outcome (list chan)) : outcome (list chan) :=
  match cs, o with
  | Ret cs, Some k => match cs !! k with Some ch => if ch_closed ch then Panic else Ret (<[k := mkChan (ch_buf ch) true]> cs) | None => Panic end
  | Ret _, None => Panic
  | r, _ => r
  end.
Definition Stop (p : pool) : outcome pool :=
  match fold_left (fun cs o => close_chan o cs) (txCtxChs p) (Ret (po_chans p)) with
  | Ret cs => Ret (mkPool [] cs (po_routines p) (po_ctxs p) (po_shared p) (po_sent p) (po_calls p))
  | Err e => Err e
  | Panic => Panic
  end.

(** [None]: the sender is blocked, because the buffer is full. *)
Definition ExecuteAsync (x : X) (p : pool) : option (outcome unit * pool) :=
  match sender x with
  | [] => Some (Panic, p)
  | b :: _ =>
      let n := Z.of_nat (length (txCtxChs p)) in
      if n =? 0 then Some (Panic, p)
      else
        match txCtxChs p !! Z.to_nat (byte_val b mod n) with
        | None => Some (Panic, p)
        | Some None => Some (Err (NewOrdinary "transaction execution channel is not available"), p)
        | Some (Some k) =>
            match po_chans p !! k with
            | None => None
            | Some ch =>
                if ch_closed ch then Some (Panic, p)
                else if (Z.of_nat (length (ch_buf ch)) <? chan_cap) then Some (Ret tt, set_chan k (mkChan (ch_buf ch ++ [length (po_ctxs p)]) false) (add_ctx x p))
                else None
            end
        end
  end.

(** The next step of routine [i]: [None] when it waits or has ended,
    [Some None] when it panics, which ends the process. *)
Definition executionRoutine (i : nat) (p : pool) : option (option pool) :=
  match po_routines p !! i, po_chans p !! i with
  | Some Waiting, Some ch =>
      match ch_buf ch with
      | c :: b => Some (Some (set_routine i (Busy c body) (set_chan i (mkChan b (ch_closed ch)) p)))
      | [] => if ch_closed ch then Some (Some (set_routine i Ended p)) else None
      end
  | Some (Busy c []), _ => Some (Some (set_routine i (Calling c None) p))
  | Some (Busy c (m :: ms)), _ =>
      match po_ctxs p !! c with
      | None => None
      | Some x =>
          let '(r, (s', x')) := m (po_shared p, x) in
          let p' := set_ctx c x' (set_shared s' p) in
          match r with
          | Ret _ => Some (Some (set_routine i (Busy c ms) p'))
          | Err e => Some (Some (set_routine i (Calling c (Some e)) p'))
          | Panic => Some None
          end
      end
  | Some (Calling c e), _ =>
      match po_ctxs p !! c with
      | None => None
      | Some x =>
          match Callback x e (po_shared p) with
          | (Ret _, s') => Some (Some (set_routine i Waiting (add_call c (set_shared s' p))))
          | _ => Some None
          end
      end
  | _, _ => None
  end.

(** ** The caller and the routines

    The caller prepares a context, which may use the shared state, and submits
    it; then the next. *)
Record system : Type := mkSys { sy_todo : list (GoM S X); sy_sending : option X; sy_pool : pool }.

Inductive step : system -> option system -> Prop :=
  | step_routine i s r : executionRoutine i (sy_pool s) = Some r -> step s (mkSys (sy_todo s) (sy_sending s) <$> r)
  | step_prepare s m ms x s' : sy_sending s = None -> sy_todo s = m :: ms -> m (po_shared (sy_pool s)) = (Ret x, s') ->
      step s (Some (mkSys ms (Some x) (set_shared s' (sy_pool s))))
  | step_lost s m ms r s' : sy_sending s = None -> sy_todo s = m :: ms -> m (po_shared (sy_pool s)) = (r, s') -> (forall x, r <> Ret x) -> step s None
  | step_send s x p : sy_sending s = Some x -> ExecuteAsync x (sy_pool s) = Some (Ret tt, p) -> step s (Some (mkSys (sy_todo s) None p))
  | step_refused s x e p u s' : sy_sending s = Some x -> ExecuteAsync x (sy_pool s) = Some (Err e, p) -> refused x e (po_shared p) = (Ret u, s') ->
      step s (Some (mkSys (sy_todo s) None (set_shared s' p)))
  | step_refused_panic s x e p s' r : sy_sending s = Some x -> ExecuteAsync x (sy_pool s) = Some (Err e, p) -> refused x e (po_shared p) = (r, s') ->
      (forall u, r <> Ret u) -> step s None
  | step_send_panic s x p : sy_sending s = Some x -> ExecuteAsync x (sy_pool s) = Some (Panic, p) -> step s None
  | step_stop s p : txCtxChs (sy_pool s) <> [] -> Stop (sy_pool s) = Ret p -> step s (Some (mkSys (sy_todo s) (sy_sending s) p)).

Definition moves (s s' : system) : Prop := step s (Some s').
Definition launch (n : nat) (s : S) (todo : list (GoM S X)) : system := mkSys todo None (Start (NewTrxExecutor n s)).

(** ** The order of execution

    The channel of a sender, the contexts of one channel among [l], and the
    context a routine works on. *)
Definition chan_no (n : nat) (a : list Byte.byte) : option nat :=
  match a with [] => None | b :: _ => Some (Z.to_nat (byte_val b mod Z.of_nat n)) end.
Definition on_chan (n : nat) (sent : list (list Byte.byte)) (k : nat) (l : list nat) : list nat :=
  filter (fun c => sent !! c ≫= chan_no n = Some k) l.
Definition pending (r : routine) : list nat := match r with Busy c _ | Calling c _ => [c] | _ => [] end.

Record pool_inv (p : pool) : Prop := {
  pi_sent : length (po_sent p) = length (po_ctxs p);
  pi_routines : length (po_routines p) = length (po_chans p);
  pi_chans : txCtxChs p = [] \/ txCtxChs p = map Some (seq 0 (length (po_chans p))) /\ Forall (fun ch => ch_closed ch = false) (po_chans p);
  pi_calls : Forall (fun c => c < length (po_ctxs p))%nat (po_calls p);
  pi_nodup : NoDup (po_calls p);
  pi_valid : Forall (fun a => exists k, chan_no (length (po_chans p)) a = Some k /\ k < length (po_chans p))%nat (po_sent p);
  pi_ended k ch : po_chans p !! k = Some ch -> po_routines p !! k = Some Ended -> ch_buf ch = [] /\ ch_closed ch = true;
  pi_order k ch r : po_chans p !! k = Some ch -> po_routines p !! k = Some r ->
    on_chan (length (po_chans p)) (po_sent p) k (po_calls p) ++ pending r ++ ch_buf ch =
    on_chan (length (po_chans p)) (po_sent p) k (seq 0 (length (po_ctxs p)));
}.

Lemma on_chan_app n sent k l l' : on_chan n sent k (l ++ l') = on_chan n sent k l ++ on_chan n sent k l'.
Proof. apply list.filter_app. Qed.

Lemma on_chan_snoc n sent a k l : Forall (fun c => c < length sent)%nat l -> on_chan n (sent ++ [a]) k l = on_chan n sent k l.
Proof.
  intros Hl. unfold on_chan. induction Hl as [|c l Hc _ IH]; [done|]. rewrite !filter_cons, IH, lookup_app_l by done. done.
Qed.

Lemma on_chan_last n sent a k : on_chan n (sent ++ [a]) k [length sent] = if decide (chan_no n a = Some k) then [length sent] else [].
Proof. unfold on_chan. rewrite filter_cons, filter_nil, list_lookup_middle by done. done. Qed.

Lemma seq_lt n : Forall (fun c => c < n)%nat (seq 0 n).
Proof. apply list.Forall_forall. intros c Hc%elem_of_seq. lia. Qed.

Lemma launch_inv n s todo : pool_inv (sy_pool (launch n s todo)).
Proof.
  assert (Hl : length (po_chans (NewTrxExecutor n s)) = n) by apply length_replicate.
  split; cbn [launch sy_pool Start po_sent po_ctxs po_routines po_chans txCtxChs po_calls].
  - done.
  - rewrite length_map. cbn. by rewrite length_map, length_seq, length_replicate.
  - right. split; [by rewrite Hl|]. apply list.Forall_forall. by intros ch [-> _]%elem_of_replicate.
  - constructor.
  - constructor.
  - constructor.
  - intros k ch _ Hr. by apply list_elem_of_lookup_2, list_elem_of_fmap in Hr as (? & ? & _).
  - intros k ch r [-> _]%lookup_replicate Hr. apply list_elem_of_lookup_2, list_elem_of_fmap in Hr as (? & -> & _). done.
Qed.

Lemma ended_insert i (r : routine) (p : pool) (Q : chan -> Prop) : r <> Ended \/ (forall ch, po_chans p !! i = Some ch -> Q ch) -> forall k ch, po_chans p !! k = Some ch ->
  <[i := r]> (po_routines p) !! k = Some Ended -> po_routines p !! k = Some Ended \/ Q ch.
Proof.
  intros Hr k ch Hc Hk. destruct (decide (i = k)) as [<-|Hne]; [|rewrite list_lookup_insert_ne in Hk by done; by left].
  destruct Hr as [Hr|Hq]; [|right; by apply Hq]. apply list_lookup_insert_Some in Hk. naive_solver.
Qed.

(** Steps that leave the contexts, the channels and the history alone. *)
Lemma inv_idle_step p p' : pool_inv p -> txCtxChs p' = txCtxChs p -> po_chans p' = po_chans p -> po_sent p' = po_sent p -> po_calls p' = po_calls p ->
  length (po_ctxs p') = length (po_ctxs p) -> map pending (po_routines p') = map pending (po_routines p) ->
  (forall k ch, po_chans p !! k = Some ch -> po_routines p' !! k = Some Ended -> po_routines p !! k = Some Ended \/ ch_buf ch = [] /\ ch_closed ch = true) -> pool_inv p'.
Proof.
  intros [H1 H2 H3 H4 Hnd Hv He H5] E1 E2 E3 E4 E5 E6 Hend. split; rewrite ?E1, ?E2, ?E3, ?E4, ?E5; try done.
  - rewrite <-H2, <-(length_map pending (po_routines p)), <-E6. by rewrite length_map.
  - intros k ch Hc Hr. destruct (Hend k ch Hc Hr); [by apply He with k|done].
  - intros k ch r Hc Hr. assert (Hp : map pending (po_routines p) !! k = Some (pending r)) by (rewrite <-E6; by rewrite list_lookup_fmap, Hr).
    rewrite list_lookup_fmap in Hp. destruct (po_routines p !! k) as [r0|] eqn:Hr0; [|done]. injection Hp as <-. by apply H5.
Qed.

Lemma pending_insert i (r r0 : routine) rs : rs !! i = Some r0 -> pending r = pending r0 -> map pending (<[i := r]> rs) = map pending rs.
Proof.
  intros Hr He. apply list_eq. intros j. rewrite !list_lookup_fmap. destruct (decide (i = j)) as [->|Hne].
  - rewrite list_lookup_insert_eq by (by eapply lookup_lt_Some). rewrite Hr. cbn. by rewrite He.
  - by rewrite list_lookup_insert_ne.
Qed.

Lemma inv_recv i p ch c b : pool_inv p -> po_routines p !! i = Some Waiting -> po_chans p !! i = Some ch -> ch_buf ch = c :: b ->
  pool_inv (set_routine i (Busy c body) (set_chan i (mkChan b (ch_closed ch)) p)).
Proof.
  intros [H1 H2 H3 H4 Hnd Hv He H5] Hr Hc Hb. split; cbn [set_routine set_chan txCtxChs po_chans po_routines po_ctxs po_sent po_calls]; rewrite ?length_insert; try done.
  - destruct H3 as [?|[? Hcl]]; [by left|right]. split; [done|]. apply Forall_insert; [done|]. cbn. by eapply (Forall_lookup_1 _ _ _ _ Hcl).
  - intros k ch' Hc' Hr'. destruct (decide (i = k)) as [<-|Hne].
    + by rewrite list_lookup_insert_eq in Hr' by (by eapply lookup_lt_Some).
    + rewrite list_lookup_insert_ne in Hc' by done. rewrite list_lookup_insert_ne in Hr' by done. by apply He with k.
  - intros k ch' r Hc' Hr'. destruct (decide (i = k)) as [<-|Hne].
    + rewrite list_lookup_insert_eq in Hc' by (by eapply lookup_lt_Some). rewrite list_lookup_insert_eq in Hr' by (by eapply lookup_lt_Some).
      injection Hc' as <-. injection Hr' as <-. cbn. rewrite <-(H5 i ch Waiting Hc Hr), Hb. done.
    + rewrite list_lookup_insert_ne in Hc' by done. rewrite list_lookup_insert_ne in Hr' by done. by apply H5.
Qed.

Lemma inv_called i p c e s' : pool_inv p -> po_routines p !! i = Some (Calling c e) -> pool_inv (set_routine i Waiting (add_call c (set_shared s' p))).
Proof.
  intros [H1 H2 H3 H4 Hnd Hv He H5] Hr. destruct (lookup_lt_is_Some_2 (po_chans p) i) as [ch Hc]; [rewrite <-H2; by eapply lookup_lt_Some|].
  pose proof (H5 i ch _ Hc Hr) as Ho. assert (Hin : c ∈ on_chan (length (po_chans p)) (po_sent p) i (seq 0 (length (po_ctxs p)))) by (rewrite <-Ho; set_solver).
  apply list_elem_of_filter in Hin as [Hci Hlt%elem_of_seq].
  split; cbn [set_routine add_call set_shared txCtxChs po_chans po_routines po_ctxs po_sent po_calls]; rewrite ?length_insert; try done.
  - apply Forall_app; split; [done|]. constructor; [lia|constructor].
  - apply list.NoDup_app; split; [done|]. split; [|apply NoDup_singleton]. intros c' Hc' ->%list_elem_of_singleton.
    assert (Hn : NoDup (on_chan (length (po_chans p)) (po_sent p) i (seq 0 (length (po_ctxs p))))) by (apply list.NoDup_filter, NoDup_seq).
    rewrite <-Ho in Hn. apply list.NoDup_app in Hn as (_ & Hn & _). apply (Hn c); [by apply list_elem_of_filter|set_solver].
  - intros k ch' Hc' Hr'. destruct (decide (i = k)) as [<-|Hne].
    + by rewrite list_lookup_insert_eq in Hr' by (by eapply lookup_lt_Some).
    + rewrite list_lookup_insert_ne in Hr' by done. by apply He with k.
  - intros k ch' r Hc' Hr'. rewrite on_chan_app. destruct (decide (i = k)) as [<-|Hne].
    + rewrite list_lookup_insert_eq in Hr' by (by eapply lookup_lt_Some). injection Hr' as <-. simplify_eq. rewrite <-Ho.
      unfold on_chan at 2. rewrite filter_cons_True, filter_nil by done. cbn. by rewrite <-app_assoc.
    + rewrite list_lookup_insert_ne in Hr' by done. unfold on_chan at 2. rewrite filter_cons_False, filter_nil, app_nil_r by (rewrite Hci; congruence). by apply H5.
Qed.

Lemma inv_routine i p p' : pool_inv p -> executionRoutine i p = Some (Some p') -> pool_inv p'.
Proof.
  intros Hi. unfold executionRoutine. destruct (po_routines p !! i) as [[|c [|m ms]|c e|]|] eqn:Hr; try done.
  - destruct (po_chans p !! i) as [ch|] eqn:Hc; [|done]. destruct (ch_buf ch) as [|c b] eqn:Hb.
    + destruct (ch_closed ch) eqn:Hcl; [|done]. intros [= <-]. eapply inv_idle_step; [done..|by eapply pending_insert|]. apply ended_insert. right. intros ch' ?. by simplify_eq.
    + intros [= <-]. by apply inv_recv.
  - intros [= <-]. eapply inv_idle_step; [done..|by eapply pending_insert|]. apply ended_insert. by left.
  - destruct (po_ctxs p !! c) as [x|]; [|done]. destruct (m (po_shared p, x)) as [r [s' x']].
    destruct r; intros [= <-]; (eapply inv_idle_step; [done..|apply length_insert|by eapply pending_insert|]; apply (ended_insert i _ p); by left).
  - destruct (po_ctxs p !! c) as [x|]; [|done]. destruct (Callback x e (po_shared p)) as [[] s']; intros [= <-]. by eapply inv_called.
Qed.

Lemma inv_send x p p' : pool_inv p -> ExecuteAsync x p = Some (Ret tt, p') -> pool_inv p'.
Proof.
  intros [H1 H2 H3 H4 Hnd Hv He H5]. unfold ExecuteAsync. destruct (sender x) as [|b a] eqn:Hx; [done|]. destruct (_ =? 0) eqn:Hn; [done|].
  destruct H3 as [H3|[H3 Hcl]]; [by rewrite H3 in Hn|]. set (n := length (po_chans p)) in *.
  assert (Hlen : length (txCtxChs p) = n) by (by rewrite H3, length_map, length_seq). rewrite Hlen in *. apply Z.eqb_neq in Hn.
  set (i := Z.to_nat (byte_val b mod Z.of_nat n)) in *. assert (Hi : (i < n)%nat) by (subst i; pose proof (Z.mod_pos_bound (byte_val b) (Z.of_nat n)); lia).
  rewrite H3, list_lookup_fmap, lookup_seq_lt by done. cbn [fmap option_fmap option_map Nat.add]. destruct (po_chans p !! i) as [ch|] eqn:Hc; [|done].
  assert (Hcf : ch_closed ch = false) by exact (list.Forall_lookup_1 (fun ch => ch_closed ch = false) _ i ch Hcl Hc). rewrite Hcf. destruct (Z.of_nat (length (ch_buf ch)) <? chan_cap); [|done]. intros [= <-].
  split; cbn [set_chan add_ctx txCtxChs po_chans po_routines po_ctxs po_sent po_calls]; rewrite ?length_insert, ?length_app; cbn [length]; fold n; rewrite ?H1; try done.
  - right. split; [done|]. by apply Forall_insert.
  - eapply list.Forall_impl; [exact H4|]. cbn. lia.
  - apply Forall_app; split; [done|]. constructor; [|constructor]. exists i. rewrite Hx. done.
  - intros k ch' Hc' Hr'. destruct (decide (i = k)) as [<-|Hne]; [|rewrite list_lookup_insert_ne in Hc' by done; by apply He with k].
    destruct (He i ch Hc Hr') as [_ Hcc]. by rewrite Hcf in Hcc.
  - intros k ch' r Hc' Hr'. rewrite Nat.add_1_r, seq_S, on_chan_app, <-H1, Nat.add_0_l, on_chan_last, !on_chan_snoc by (rewrite H1; first [done|apply seq_lt]).
    rewrite Hx. cbn [chan_no]. fold i. rewrite H1. destruct (decide (i = k)) as [<-|Hne].
    + rewrite list_lookup_insert_eq in Hc' by (by eapply lookup_lt_Some). injection Hc' as <-. rewrite decide_True by done. cbn. rewrite <-(H5 i ch r Hc Hr'), <-!app_assoc. done.
    + rewrite list_lookup_insert_ne in Hc' by done. rewrite decide_False, app_nil_r by congruence. by apply H5.
Qed.

Lemma close_bufs l cs cs' : fold_left (fun cs o => close_chan o cs) l (Ret cs) = Ret cs' ->
  length cs' = length cs /\ forall k ch', cs' !! k = Some ch' -> exists ch, cs !! k = Some ch /\ ch_buf ch = ch_buf ch' /\ (ch_closed ch = true -> ch_closed ch' = true).
Proof.
  revert cs. induction l as [|o l IH]; intros cs; cbn; [intros [= <-]; split; [done|eauto]|].
  assert (Hp : fold_left (fun cs o => close_chan o cs) l Panic = Panic) by (clear; induction l as [|[] l IH]; done).
  destruct o as [k|]; cbn; [|by rewrite Hp]. destruct (cs !! k) as [ch|] eqn:Hk; [|by rewrite Hp]. destruct (ch_closed ch) eqn:Hc; [by rewrite Hp|].
  intros [Hl H]%IH. rewrite length_insert in Hl. split; [done|]. intros j ch' (ch1 & H1 & Hb & Hcl)%H. destruct (decide (k = j)) as [<-|Hne].
  - rewrite list_lookup_insert_eq in H1 by (by eapply lookup_lt_Some). injection H1 as <-. exists ch. split_and!; [done|done|]. by rewrite Hc.
  - rewrite list_lookup_insert_ne in H1 by done. by exists ch1.
Qed.

Lemma inv_stop p p' : pool_inv p -> Stop p = Ret p' -> pool_inv p'.
Proof.
  intros [H1 H2 H3 H4 Hnd Hv He H5]. unfold Stop. destruct (fold_left _ _ _) as [cs| |] eqn:Hf; [|done..]. intros [= <-].
  apply close_bufs in Hf as [Hl Hcs]. split; cbn; rewrite ?Hl; try done; [by left| |].
  - intros k ch' (ch & Hc & <- & Hcl)%Hcs Hr. destruct (He k ch Hc Hr) as [? ?]. auto.
  - intros k ch' r (ch & Hc & <- & _)%Hcs Hr. by apply H5.
Qed.

Lemma inv_shared s p : pool_inv p -> pool_inv (set_shared s p).
Proof. intros [H1 H2 H3 H4 Hnd Hv He H5]. by split. Qed.

(** An error of [ExecuteAsync] does not occur in a pool made by [NewTrxExecutor]. *)
Lemma never_refused x p e p' : pool_inv p -> ExecuteAsync x p = Some (Err e, p') -> False.
Proof.
  intros Hi. unfold ExecuteAsync. destruct (sender x); [done|]. destruct (_ =? 0); [done|]. destruct (txCtxChs p !! _) as [[k|]|] eqn:Hk; [| |done].
  - repeat case_match; congruence.
  - destruct (pi_chans p Hi) as [E|[E _]]; rewrite E in Hk; [done|]. rewrite list_lookup_fmap in Hk. by destruct (seq _ _ !! _).
Qed.

(** The contexts that are submitted or still to be. *)
Definition total (s : system) : nat := length (po_ctxs (sy_pool s)) + length (sy_todo s) + match sy_sending s with Some _ => 1 | None => 0 end.

Lemma routine_ctxs i p p' : executionRoutine i p = Some (Some p') -> length (po_ctxs p') = length (po_ctxs p).
Proof. unfold executionRoutine. repeat case_match; intros [= <-]; try done; cbn; by rewrite length_insert. Qed.

Lemma send_ctxs x p p' : ExecuteAsync x p = Some (Ret tt, p') -> length (po_ctxs p') = Datatypes.S (length (po_ctxs p)).
Proof. unfold ExecuteAsync. repeat case_match; intros [= <-]; cbn; rewrite length_app; cbn; lia. Qed.

Lemma moves_inv s s' : moves s s' -> pool_inv (sy_pool s) -> pool_inv (sy_pool s') /\ total s' = total s.
Proof.
  unfold moves. remember (Some s') as o eqn:Ho. destruct 1 as [i s [p|] Hr|s m ms x s1 Hs Ht Hm| |s x p Hs Hx|s x e p u s1 Hs Hx Hf| | |s p _ Hp]; try done; injection Ho as <-; intros Hi; unfold total; cbn [sy_pool sy_todo sy_sending].
  - split; [by eapply inv_routine|]. by rewrite (routine_ctxs _ _ _ Hr).
  - split; [by apply inv_shared|]. rewrite Ht, Hs. cbn. lia.
  - split; [by eapply inv_send|]. rewrite (send_ctxs _ _ _ Hx), Hs. lia.
  - by destruct (never_refused _ _ _ _ Hi Hx).
  - split; [by eapply inv_stop|]. unfold Stop in Hp. destruct (fold_left _ _ _); [by injection Hp as <-|done..].
Qed.

Lemma reach_inv n s todo s' : rtc moves (launch n s todo) s' -> pool_inv (sy_pool s') /\ total s' = length todo.
Proof.
  intros Hr. assert (H0 : total (launch n s todo) = length todo) by (unfold total; cbn; lia). rewrite <-H0. clear H0. pose proof (launch_inv n s todo) as Hi. revert Hi.
  induction Hr as [|x y z Hxy _ IH]; [done|]. intros Hi. destruct (moves_inv _ _ Hxy Hi) as [Hy <-]. by apply IH.
Qed.

Definition by_sender (a : list Byte.byte) (p : pool) (l : list nat) : list nat := filter (fun c => po_sent p !! c = Some a) l.

Lemma by_sender_chan a p k l : chan_no (length (po_chans p)) a = Some k -> by_sender a p (on_chan (length (po_chans p)) (po_sent p) k l) = by_sender a p l.
Proof. intros Hk. unfold by_sender, on_chan. rewrite list_filter_filter. apply list_filter_iff. intros c. split; [by intros []|]. intros Hc. split; [done|]. by rewrite Hc. Qed.

Lemma pending_chan p i r c : pool_inv p -> po_routines p !! i = Some r -> c ∈ pending r ->
  po_sent p !! c ≫= chan_no (length (po_chans p)) = Some i /\ (c < length (po_ctxs p))%nat.
Proof.
  intros Hi Hr Hc. destruct (lookup_lt_is_Some_2 (po_chans p) i) as [ch Hch]; [rewrite <-(pi_routines p Hi); by eapply lookup_lt_Some|].
  assert (Hin : c ∈ on_chan (length (po_chans p)) (po_sent p) i (seq 0 (length (po_ctxs p)))) by (rewrite <-(pi_order p Hi i ch r Hch Hr); set_solver).
  apply list_elem_of_filter in Hin as [? Hlt%elem_of_seq]. split; [done|lia].
Qed.

Lemma sender_chan p c a : pool_inv p -> po_sent p !! c = Some a -> exists k ch r,
  chan_no (length (po_chans p)) a = Some k /\ po_chans p !! k = Some ch /\ po_routines p !! k = Some r.
Proof.
  intros Hi Hc. destruct (list.Forall_lookup_1 _ _ _ _ (pi_valid p Hi) Hc) as (k & Hk & Hlt). destruct (lookup_lt_is_Some_2 (po_chans p) k Hlt) as [ch Hch].
  destruct (lookup_lt_is_Some_2 (po_routines p) k) as [r Hr]; [by rewrite (pi_routines p Hi)|]. by exists k, ch, r.
Qed.

(** C15: the transactions of one sender run in the order in which they were
    submitted, one at a time.  At every moment of every interleaving, and
    whether or not the pool has been stopped, the callbacks made for a sender are
    those of its first transactions, in order; a routine that works on one of its
    transactions works on the next in order; and no two routines work on
    transactions of the same sender. *)
Theorem sender_order n s0 todo s a : rtc moves (launch n s0 todo) s ->
  let p := sy_pool s in
  exists rest, by_sender a p (seq 0 (length (po_ctxs p))) = by_sender a p (po_calls p) ++ rest /\
    (forall i r c, po_routines p !! i = Some r -> c ∈ pending r -> po_sent p !! c = Some a -> head rest = Some c) /\
    (forall i j r r' c d, po_routines p !! i = Some r -> po_routines p !! j = Some r' -> c ∈ pending r -> d ∈ pending r' ->
       po_sent p !! c = Some a -> po_sent p !! d = Some a -> i = j /\ c = d).
Proof.
  intros [Hi _]%reach_inv p. assert (Huniq : forall i j r r' c d, po_routines p !! i = Some r -> po_routines p !! j = Some r' -> c ∈ pending r -> d ∈ pending r' ->
       po_sent p !! c = Some a -> po_sent p !! d = Some a -> i = j /\ c = d).
  { intros i j r r' c d Hr Hr' Hc Hd Hca Hda. destruct (pending_chan p i r c Hi Hr Hc) as [Ei _]. destruct (pending_chan p j r' d Hi Hr' Hd) as [Ej _].
    rewrite Hca in Ei. rewrite Hda in Ej. assert (i = j) as -> by (cbn in *; congruence). split; [done|]. simplify_eq. destruct r; cbn in *; set_solver. }
  destruct (decide (Exists (fun b => b = a) (po_sent p))) as [Hex|Hno].
  - apply list.Exists_exists in Hex as (b & [c0 Hc0]%list_elem_of_lookup & ->). destruct (sender_chan p c0 a Hi Hc0) as (k & ch & r & Hk & Hch & Hr).
    exists (by_sender a p (pending r ++ ch_buf ch)). split_and!; [|intros i r' c Hr' Hc Hca|exact Huniq].
    + rewrite <-(by_sender_chan a p k _ Hk), <-(pi_order p Hi k ch r Hch Hr). unfold by_sender at 1. rewrite list.filter_app. f_equal. by apply by_sender_chan.
    + destruct (pending_chan p i r' c Hi Hr' Hc) as [Ei _]. rewrite Hca in Ei. cbn in Ei. assert (i = k) as -> by congruence. assert (r' = r) as -> by congruence.
      destruct r; cbn in Hc; try (by apply not_elem_of_nil in Hc); apply list_elem_of_singleton in Hc as <-; unfold by_sender; cbn [pending app]; by rewrite filter_cons_True.
  - assert (Hn : forall l, by_sender a p l = []).
    { intros l. unfold by_sender. induction l as [|c l IH]; [done|]. rewrite filter_cons_False; [done|]. intros Hc. apply Hno, list.Exists_exists. exists a. split; [by eapply list_elem_of_lookup_2|done]. }
    exists []. rewrite !Hn. split_and!; [done| |exact Huniq]. intros i r c _ _ Hc. destruct Hno. apply list.Exists_exists. exists a. split; [by eapply list_elem_of_lookup_2|done].
Qed.











(** ** One routine

    What the body and the callback do when nothing runs in between. *)
Fixpoint finish (ms : list (GoM (S * X) unit)) (sx : S * X) : option (option XError * (S * X)) :=
  match ms with
  | [] => Some (None, sx)
  | m :: ms => match m sx with (Ret _, sx') => finish ms sx' | (Err e, sx') => Some (Some e, sx') | (Panic, _) => None end
  end.
Definition deliver (x : X) (s : S) : option (X * S) :=
  match finish body (s, x) with
  | Some (e, (s', x')) => match Callback x' e s' with (Ret _, s'') => Some (x', s'') | _ => None end
  | None => None
  end.
Fixpoint deliver_all (xs : list X) (s : S) : option (list X * S) :=
  match xs with
  | [] => Some ([], s)
  | x :: xs => match deliver x s with Some (x', s') => match deliver_all xs s' with Some (ys, s'') => Some (x' :: ys, s'') | None => None end | None => None end
  end.

Lemma deliver_all_snoc xs x s ys s1 y s2 : deliver_all xs s = Some (ys, s1) -> deliver x s1 = Some (y, s2) -> deliver_all (xs ++ [x]) s = Some (ys ++ [y], s2).
Proof.
  revert s ys. induction xs as [|x0 xs IH]; intros s ys; cbn; [by intros [= <- <-] ->|].
  destruct (deliver x0 s) as [[x' s']|]; [|done]. destruct (deliver_all xs s') as [[ys' s'']|] eqn:E; [|done]. intros [= <- <-] Hd. by rewrite (IH _ _ E Hd).
Qed.

(** The state of the routine after the contexts [xs1] have been delivered as [ys]:
    [x] is the next one. *)
Definition progress (r : routine) (s1 s : S) (rest cur : list X) : Prop :=
  match r with
  | Waiting | Ended => s = s1 /\ cur = rest
  | Busy _ ms => exists x x' xs, rest = x :: xs /\ cur = x' :: xs /\ finish body (s1, x) = finish ms (s, x')
  | Calling _ e => exists x x' xs, rest = x :: xs /\ cur = x' :: xs /\ finish body (s1, x) = Some (e, (s, x'))
  end.

(** [sub]: the contexts as they were submitted. *)
Record solo (s0 : S) (sub : list X) (p : pool) : Prop := {
  so_chans : length (po_chans p) = 1%nat;
  so_sub : length (po_ctxs p) = length sub;
  so_done : exists r ys s1 cur, po_routines p !! 0%nat = Some r /\ deliver_all (take (length (po_calls p)) sub) s0 = Some (ys, s1) /\
    po_ctxs p = ys ++ cur /\ length ys = length (po_calls p) /\ progress r s1 (po_shared p) (drop (length (po_calls p)) sub) cur;
}.

Lemma solo_queue p r ch : pool_inv p -> length (po_chans p) = 1%nat -> po_chans p !! 0%nat = Some ch -> po_routines p !! 0%nat = Some r ->
  po_calls p ++ pending r ++ ch_buf ch = seq 0 (length (po_ctxs p)).
Proof.
  intros Hi Hn Hc Hr. assert (Hall : forall l, Forall (fun c => c < length (po_ctxs p))%nat l -> on_chan (length (po_chans p)) (po_sent p) 0 l = l).
  { intros l Hl. unfold on_chan. induction Hl as [|c l Hlt _ IH]; [done|]. rewrite filter_cons_True; [by rewrite IH|].
    rewrite <-(pi_sent p Hi) in Hlt. apply lookup_lt_is_Some in Hlt as [a Ha]. destruct (list.Forall_lookup_1 _ _ _ _ (pi_valid p Hi) Ha) as (k & Hk & Hlt').
    rewrite Ha. cbn. rewrite Hk. f_equal. lia. }
  pose proof (pi_order p Hi 0%nat ch r Hc Hr) as Ho. rewrite (Hall _ (pi_calls p Hi)), (Hall _ (seq_lt _)) in Ho. done.
Qed.

Lemma queue_next calls c l n : calls ++ c :: l = seq 0 n -> c = length calls.
Proof. intros E. assert (H : seq 0 n !! length calls = Some c) by (by rewrite <-E, list_lookup_middle). apply lookup_seq in H. lia. Qed.

Lemma insert_middle {A} (l k : list A) x y : <[length l := y]> (l ++ x :: k) = l ++ y :: k.
Proof. induction l as [|z l IH]; [done|]. change (z :: <[length l := y]> (l ++ x :: k) = z :: l ++ y :: k). by rewrite IH. Qed.

Lemma solo_index p i : pool_inv p -> length (po_chans p) = 1%nat -> is_Some (po_routines p !! i) -> i = 0%nat.
Proof. intros Hi Hn Hr%lookup_lt_is_Some. rewrite (pi_routines p Hi), Hn in Hr. lia. Qed.

Lemma solo_routine s0 sub i p p' : pool_inv p -> solo s0 sub p -> executionRoutine i p = Some (Some p') -> solo s0 sub p'.
Proof.
  intros Hi [Hn Hsub (r & ys & s1 & cur & Hr & Hd & Hx & Hy & Hp)] He.
  assert (i = 0%nat) as ->. { apply (solo_index p i Hi Hn). unfold executionRoutine in He. by destruct (po_routines p !! i). }
  destruct (lookup_lt_is_Some_2 (po_chans p) 0%nat) as [ch Hc]; [lia|]. pose proof (solo_queue p r ch Hi Hn Hc Hr) as Hq.
  assert (Hset : forall q, <[0%nat := q]> (po_routines p) !! 0%nat = Some q) by (intros q; apply list_lookup_insert_eq; by eapply lookup_lt_Some).
  unfold executionRoutine in He. rewrite Hr, Hc in He. destruct r as [|c [|m ms]|c e|]; [destruct Hp as [Hs ->]|destruct Hp as (x & x' & xs & Hrest & -> & Hf)..|done].
  - destruct (ch_buf ch) as [|c b] eqn:Hb.
    + destruct (ch_closed ch); [|done]. injection He as <-. split; [done|done|]. exists Ended, ys, s1, (drop (length (po_calls p)) sub). split_and!; [apply Hset|done..].
    + injection He as <-. apply queue_next in Hq as ->. split; [cbn; by rewrite length_insert|done|].
      assert (Hlt : (length (po_calls p) < length sub)%nat). { destruct (pending_chan (set_routine 0 (Busy (length (po_calls p)) body) (set_chan 0 (mkChan b (ch_closed ch)) p)) 0 (Busy (length (po_calls p)) body) (length (po_calls p))) as [_ Hlt];
          [by apply inv_recv|apply Hset|set_solver|cbn in Hlt; lia]. }
      destruct (lookup_lt_is_Some_2 _ _ Hlt) as [x Hxs]. pose proof (drop_S _ _ _ Hxs) as Hdr.
      exists (Busy (length (po_calls p)) body), ys, s1, (drop (length (po_calls p)) sub). split_and!; [apply Hset|done..|]. exists x, x, (drop (Datatypes.S (length (po_calls p))) sub). cbn. by rewrite Hs.
  - injection He as <-. split; [done|done|]. exists (Calling c None), ys, s1, (x' :: xs). split_and!; [apply Hset|done..|]. by exists x, x', xs.
  - apply queue_next in Hq as ->. rewrite Hx, <-Hy, list_lookup_middle in He by done. destruct (m (po_shared p, x')) as [o [s' x1]] eqn:Em.
    assert (Hlen : length (po_ctxs (set_ctx (length ys) x1 (set_shared s' p))) = length sub) by (cbn; by rewrite length_insert).
    assert (Hctx : po_ctxs (set_ctx (length ys) x1 (set_shared s' p)) = ys ++ x1 :: xs) by (cbn; by rewrite Hx, insert_middle).
    cbn [finish] in Hf. rewrite Em in Hf.
    destruct o as [u|e|]; [| |done]; injection He as <-; (split; [done|exact Hlen|]); [exists (Busy (length ys) ms)|exists (Calling (length ys) (Some e))];
      exists ys, s1, (x1 :: xs); (split_and!; [apply Hset|done..|]); by exists x, x1, xs.
  - apply queue_next in Hq as ->. rewrite Hx, <-Hy, list_lookup_middle in He by done. destruct (Callback x' e (po_shared p)) as [[u|?|] s'] eqn:Ec; [|done..]. injection He as <-.
    assert (Hxs : sub !! length (po_calls p) = Some x) by (rewrite <-(Nat.add_0_r (length (po_calls p))), <-lookup_drop; by rewrite Hrest).
    split; [done|done|]. exists Waiting, (ys ++ [x']), s', xs. cbn [set_routine add_call set_shared po_routines po_calls po_ctxs po_shared]. rewrite length_app. cbn [length]. rewrite Nat.add_1_r.
    split_and!; [apply Hset| |by rewrite Hx, <-app_assoc|rewrite length_app; cbn; lia|].
    + rewrite (take_S_r _ _ x) by done. eapply deliver_all_snoc; [done|]. unfold deliver. by rewrite Hf, Ec.
    + split; [done|]. rewrite (drop_S _ x) in Hrest by done. by injection Hrest.
Qed.

Lemma progress_snoc r s1 s rest cur x : progress r s1 s rest cur -> progress r s1 s (rest ++ [x]) (cur ++ [x]).
Proof.
  destruct r; cbn; [by intros [-> ->]|intros (y & y' & xs & -> & -> & H)|intros (y & y' & xs & -> & -> & H)|by intros [-> ->]]; by exists y, y', (xs ++ [x]).
Qed.

Lemma solo_send s0 sub x p p' : pool_inv p -> solo s0 sub p -> ExecuteAsync x p = Some (Ret tt, p') -> solo s0 (sub ++ [x]) p'.
Proof.
  intros Hi [Hn Hsub (r & ys & s1 & cur & Hr & Hd & Hx & Hy & Hp)] He. pose proof (send_ctxs _ _ _ He) as Hl.
  unfold ExecuteAsync in He. destruct (sender x); [done|]. destruct (_ =? 0); [done|]. destruct (txCtxChs p !! _) as [[k|]|]; try done.
  destruct (po_chans p !! k) as [ch|]; [|done]. destruct (ch_closed ch); [done|]. destruct (_ <? _); [|done]. injection He as <-.
  assert (Hle : (length (po_calls p) <= length sub)%nat) by (rewrite <-Hsub, Hx, length_app; lia).
  split; [cbn; by rewrite length_insert|rewrite Hl, length_app; cbn; lia|]. exists r, ys, s1, (cur ++ [x]). cbn [set_chan add_ctx po_routines po_calls po_ctxs po_shared].
  rewrite take_app_le, drop_app_le by done. split_and!; [done|done|by rewrite Hx, app_assoc|done|by apply progress_snoc].
Qed.

Lemma solo_stop s0 sub p p' : solo s0 sub p -> Stop p = Ret p' -> solo s0 sub p'.
Proof.
  intros [Hn Hsub Hd]. unfold Stop. destruct (fold_left _ _ _) as [cs| |] eqn:Hf; [|done..]. intros [= <-]. apply close_bufs in Hf as [Hl _]. split; [cbn; lia|done|exact Hd].
Qed.

(** [xs] are all contexts that the caller submits. *)
Definition solo_sys (s0 : S) (xs : list X) (s : system) : Prop :=
  exists sub later, solo s0 sub (sy_pool s) /\ sy_todo s = map retM later /\ sub ++ option_list (sy_sending s) ++ later = xs.

Lemma solo_moves s0 xs s s' : pool_inv (sy_pool s) -> solo_sys s0 xs s -> moves s s' -> solo_sys s0 xs s'.
Proof.
  intros Hi (sub & later & Hs & Ht & Hxs). unfold moves. remember (Some s') as o eqn:Ho.
  destruct 1 as [i s [p|] Hr|s m ms x s1 Hsd Htd Hm| |s x p Hsd Hx|s x e p u s1 Hsd Hx Hf| | |s p Hne Hp]; try done; injection Ho as <-; cbn [sy_pool sy_todo sy_sending] in *.
  - exists sub, later. split_and!; [by eapply solo_routine|done..].
  - rewrite Ht in Htd. destruct later as [|x0 later]; [done|]. cbn in Htd. injection Htd as <- <-. injection Hm as <- <-. rewrite Hsd in Hxs.
    exists sub, later. split_and!; [|done|done]. destruct Hs as [H1 H2 H3]. by split.
  - rewrite Hsd in Hxs. exists (sub ++ [x]), later. split_and!; [by eapply solo_send|done|]. by rewrite <-app_assoc.
  - by destruct (never_refused _ _ _ _ Hi Hx).
  - exists sub, later. split_and!; [by eapply solo_stop|done..].
Qed.

(** C17: a pool of one routine is the synchronous executor.  When contexts that do
    not depend on the shared state are submitted to a single routine and all
    callbacks have been made, the shared state and the contexts are those of
    running the transactions to their end one after the other, in order, however
    the caller and the routine were interleaved. *)
Theorem one_routine_sync s0 xs s : rtc moves (launch 1 s0 (map retM xs)) s ->
  po_calls (sy_pool s) ≡ₚ seq 0 (length xs) -> deliver_all xs s0 = Some (po_ctxs (sy_pool s), po_shared (sy_pool s)).
Proof.
  intros Hr Hall. destruct (reach_inv _ _ _ _ Hr) as [Hi _]. assert (Hs : solo_sys s0 xs s).
  { assert (H0 : solo_sys s0 xs (launch 1 s0 (map retM xs))).
    { exists [], xs. split_and!; [|done|done]. split; [done|done|]. by exists Waiting, [], s0, []. }
    pose proof (launch_inv 1 s0 (map retM xs)) as Hl. clear Hi Hall. revert H0 Hl. induction Hr as [|x y z Hxy _ IH]; [done|]. intros H0 Hl.
    destruct (moves_inv _ _ Hxy Hl) as [Hy _]. apply IH; [|done]. exact (solo_moves _ _ _ _ Hl H0 Hxy). }
  destruct Hs as (sub & later & [Hn Hsub (r & ys & s1 & cur & Hr0 & Hd & Hx & Hy & Hp)] & Ht & Hxs).
  apply Permutation_length in Hall. rewrite length_seq in Hall. assert (Hle : (length (po_calls (sy_pool s)) <= length sub)%nat) by (rewrite <-Hsub, Hx, length_app; lia).
  assert (Hl : length xs = (length sub + length (option_list (sy_sending s) ++ later))%nat) by (by rewrite <-Hxs, length_app).
  assert (Hnil : option_list (sy_sending s) ++ later = []) by (apply length_zero_iff_nil; lia). rewrite Hnil, app_nil_r in Hxs. subst sub.
  rewrite Hall, take_ge in Hd by done. rewrite Hall, drop_ge in Hp by done. destruct r; cbn in Hp; [|by destruct Hp as (? & ? & ? & ? & _)..|]; destruct Hp as [-> ->]; by rewrite Hx, app_nil_r.
Qed.

(** ** Schedules

    Which of the caller and the routines takes the next step. *)
Inductive turn : Type := Caller | Routine (i : nat).
Definition take_turn (t : turn) (s : system) : option system :=
  match t with
  | Routine i => match executionRoutine i (sy_pool s) with Some (Some p) => Some (mkSys (sy_todo s) (sy_sending s) p) | _ => None end
  | Caller =>
      match sy_sending s with
      | Some x => match ExecuteAsync x (sy_pool s) with Some (Ret tt, p) => Some (mkSys (sy_todo s) None p) | _ => None end
      | None =>
          match sy_todo s with
          | m :: ms => match m (po_shared (sy_pool s)) with (Ret x, s') => Some (mkSys ms (Some x) (set_shared s' (sy_pool s))) | _ => None end
          | [] => None
          end
      end
  end.
Fixpoint take_turns (ts : list turn) (s : system) : option system :=
  match ts with [] => Some s | t :: ts => match take_turn t s with Some s' => take_turns ts s' | None => None end end.

Lemma take_turn_moves t s s' : take_turn t s = Some s' -> moves s s'.
Proof.
  destruct t as [|i]; cbn.
  - destruct (sy_sending s) as [x|] eqn:Hs.
    + destruct (ExecuteAsync x (sy_pool s)) as [[[[]| |] p]|] eqn:Hx; try done. intros [= <-]. by eapply step_send.
    + destruct (sy_todo s) as [|m ms] eqn:Ht; [done|]. destruct (m _) as [[x| |] s1] eqn:Hm; try done. intros [= <-]. by eapply step_prepare.
  - destruct (executionRoutine i (sy_pool s)) as [[p|]|] eqn:Hr; try done. intros [= <-]. by apply (step_routine i s (Some p)).
Qed.

Lemma take_turns_moves ts s s' : take_turns ts s = Some s' -> rtc moves s s'.
Proof.
  revert s. induction ts as [|t ts IH]; intros s; cbn; [by intros [= <-]|]. destruct (take_turn t s) as [s1|] eqn:Ht; [|done]. intros H%IH. eapply rtc_l; [by apply take_turn_moves with t|done].
Qed.
End Pool.

(** ** The application *)
Section ParallelApp.
Context {Tr E DB : Type} {Tree : Iavl Tr} {TDB : TmDB DB} {CB : Codec BlockContextJSON}.
Context {CA : Codec AcctProto} {CS : Codec Stake} {CD : Codec Delegatee} {CR : Codec RewardProto}.
Context {CGP : Codec GovParamsProto} {CGJ : Codec GovParamsJSON} {D : DecCodec} {CP : Codec GovProposal}.
Context {RL : RlpLib} {SL : EthCrypto}.
Context {CU : Codec TrxPayloadUnstakingProto} {CW : Codec TrxPayloadWithdrawProto}
        {CPP : Codec TrxPayloadProposalProto} {CV : Codec TrxPayloadVotingProto}
        {CC : Codec TrxPayloadContractProto} {CSD : Codec TrxPayloadSetDocProto} {CT : Codec TrxProto}.
Context {VM : IVMHandler E (FinalityLedger Account Tr)}.
Context (tmjson_Unmarshal : (list Byte.byte -> string + GovParams) -> list Byte.byte -> string + GovParams).
Context (tx_hash : list Byte.byte -> list Byte.byte).

(** The application and the open requests of its local client. *)
Abbreviation AS := (@RigoApp Tr E DB * list ReqRes)%type.

Definition ctx_sender (ctx : TrxContext) : list Byte.byte := tx_From (cx_Tx ctx).
Definition l_exec : lens (AS * TrxContext) (@World Tr E * TrxContext) :=
  Lens (fun x => (app_world x.1.1, x.2)) (fun y x => ((set_world y.1 x.1.1, x.1.2), y.2)).
Definition trx_body : list (GoM (AS * TrxContext) unit) := [zoom l_exec (validateTrx tmjson_Unmarshal); zoom l_exec runTrx].

Definition OnTrxExecFinished (txidx : Z) (res : Response) : GoM AS unit := fun s =>
  match onTrxFinished txidx res s.2 with
  | Ret rs => (Ret tt, (s.1, rs))
  | Err e => (Err e, s)
  | Panic => (Panic, s)
  end.

(** The event of the parallel mode has no amount and no status. *)
Definition async_event (tx : Trx) : Event :=
  mkEvent "tx" (sent_by tx ++
    [mkAttribute EVENT_ATTR_TXRECVER (HexBytes_String (tx_To tx)) true;
     mkAttribute EVENT_ATTR_ADDRPAIR (HexBytes_String (tx_From tx) ++ HexBytes_String (tx_To tx)) true]).

Definition async_callback (ctx : TrxContext) (xerr : option XError) : GoM AS unit :=
  match xerr with
  | Some e => OnTrxExecFinished (cx_TxIdx ctx) (err_response (Wrap ErrDeliverTx (xcause e)) [] [])
  | None =>
      let! g := getsM (fun s => params_of (app_world s.1)) in
      let! price := liftO (GasPrice g) in
      do! zoom lens_fst (upd_next (AddFee (GasToFee (cx_GasUsed ctx) price))) in
      OnTrxExecFinished (cx_TxIdx ctx) (ok_response ctx [async_event (cx_Tx ctx)])
  end.

(** [deliverTxAsync] up to the submission: when the context cannot be built the
    client is told, and then [ExecuteAsync] dereferences the nil context. *)
Definition deliverTxAsync (tx : list Byte.byte) : GoM AS TrxContext :=
  let! next := zoom lens_fst next_ctx in
  let txIdx := bc_txsCnt next in
  do! zoom lens_fst (upd_next (AddTxsCnt 1)) in
  let! r := tryM (zoom lens_fst (new_context tx_hash tx (bc_Height next) (bc_TimeSeconds next) txIdx true (retM tt))) in
  match r with
  | inr ctx => retM ctx
  | inl e => do! OnTrxExecFinished txIdx (err_response (Wrap ErrDeliverTx (xcause e)) [] []) in panicM
  end.
Definition async_refused (ctx : TrxContext) (e : XError) : GoM AS unit :=
  OnTrxExecFinished (cx_TxIdx ctx) (err_response (Wrap ErrDeliverTx (xcause e)) [] []).

(** The body of a routine is [ExecuteSync]. *)
Lemma body_sync app rs ctx : finish trx_body ((app, rs), ctx) =
  match ExecuteSync tmjson_Unmarshal (app_world app, ctx) with
  | (Ret _, x) => Some (None, ((set_world x.1 app, rs), x.2))
  | (Err e, x) => Some (Some e, ((set_world x.1 app, rs), x.2))
  | (Panic, _) => None
  end.
Proof.
  cbn [finish trx_body]. unfold ExecuteSync, zoom, bindM. cbn [l_exec lget lset fst snd].
  destruct (validateTrx tmjson_Unmarshal (app_world app, ctx)) as [[u|e|] [w1 c1]]; try done. cbn [fst snd]. change (app_world (set_world w1 app)) with w1.
  destruct (runTrx (w1, c1)) as [[u'|e|] [w2 c2]]; done.
Qed.
End ParallelApp.

(** ** A small pool

    Contexts are bytes, which are also their senders; the body appends the byte to
    the shared list in two statements. *)
Module SmallPool.
Definition jot (sx : list Byte.byte * Byte.byte) : outcome unit * (list Byte.byte * Byte.byte) := (Ret tt, (sx.1 ++ [sx.2], sx.2)).
Definition small_sender (x : Byte.byte) : list Byte.byte := [x].
Definition small_call (x : Byte.byte) (e : option XError) : GoM (list Byte.byte) unit := retM tt.
Definition small_refused (x : Byte.byte) (e : XError) : GoM (list Byte.byte) unit := retM tt.
Abbreviation small_moves := (moves small_sender [jot; jot] small_call small_refused).
Abbreviation small_turns := (take_turns small_sender [jot; jot] small_call).

(** Two routines; the second overtakes the first, whose sender [x00] has two
    transactions. *)
Abbreviation overtaken := (small_turns [Caller; Caller; Caller; Caller; Caller; Caller; Routine 0; Routine 1; Routine 1; Routine 0; Routine 1; Routine 1; Routine 1; Routine 0; Routine 0; Routine 0; Routine 0]%nat
    (launch 2 [] (map retM [Byte.x00; Byte.x01; Byte.x00]))).

Lemma overtaken_state : match overtaken with
  | Some s => po_calls (sy_pool s) = [1; 0]%nat /\ po_routines (sy_pool s) !! 0%nat = Some (Busy 2 [jot; jot]) /\ length (po_ctxs (sy_pool s)) = 3%nat /\ po_sent (sy_pool s) !! 2%nat = Some [Byte.x00]
  | None => False
  end.
Proof. vm_compute. repeat split. Qed.

Lemma sender_order_witness : exists s, overtaken = Some s /\ po_calls (sy_pool s) = [1; 0]%nat /\ po_routines (sy_pool s) !! 0%nat = Some (Busy 2 [jot; jot]) /\
  exists rest, by_sender [Byte.x00] (sy_pool s) (seq 0 3) = by_sender [Byte.x00] (sy_pool s) (po_calls (sy_pool s)) ++ rest /\ head rest = Some 2%nat.
Proof.
  pose proof overtaken_state as Hs.
  destruct overtaken as [s|] eqn:E; [|destruct Hs]. exists s. destruct Hs as (H1 & H2 & H3 & H4).
  destruct (sender_order small_sender [jot; jot] small_call small_refused 2 [] (map retM [Byte.x00; Byte.x01; Byte.x00]) s [Byte.x00]) as (rest & Hr & Hh & _); [exact (take_turns_moves _ _ _ _ _ _ _ E)|].
  rewrite H3 in Hr. split_and!; [done..|]. exists rest. split; [done|]. apply (Hh _ _ 2%nat H2); [apply list_elem_of_here|done].
Defined.

Abbreviation alternated := (small_turns [Caller; Caller; Routine 0; Routine 0; Caller; Caller; Routine 0; Routine 0; Routine 0; Routine 0; Routine 0; Routine 0; Routine 0; Routine 0]%nat
    (launch 1 [] (map retM [Byte.x05; Byte.x06]))).

Lemma alternated_state : match alternated with
  | Some s => po_calls (sy_pool s) = [0; 1]%nat /\ po_shared (sy_pool s) = [Byte.x05; Byte.x05; Byte.x06; Byte.x06]
  | None => False
  end.
Proof. vm_compute. repeat split. Qed.

Lemma one_routine_sync_witness : exists s, alternated = Some s /\ po_shared (sy_pool s) = [Byte.x05; Byte.x05; Byte.x06; Byte.x06] /\
  deliver_all [jot; jot] small_call [Byte.x05; Byte.x06] [] = Some (po_ctxs (sy_pool s), po_shared (sy_pool s)).
Proof.
  pose proof alternated_state as Hs.
  destruct alternated as [s|] eqn:E; [|destruct Hs]. exists s. destruct Hs as [H1 H2]. split_and!; [done..|].
  apply (one_routine_sync small_sender [jot; jot] small_call small_refused); [exact (take_turns_moves _ _ _ _ _ _ _ E)|by rewrite H1].
Defined.

End SmallPool.
