(* ===== verification/Lifecycle.v ===== *)
(** * Opening and closing the databases of a node

    [NewSimpleLedger], [NewFinalityLedger], [Close] of [ledger/];  [OpenMetaDB],
    [Close] of [ctrlers/types/meta_db.go];  the constructors and [Close] of the
    controllers;  [NewRigoApp], [Start], [Stop], [SetLocalClient] of
    [node/app.go];  the clients that start and stop the application in
    [node/client.go].

    The other files model what the databases hold.  This one models which of
    them a process has open: pointers that may be nil, and the set of databases
    the process has locked. *)

From S2P Require Import Prelude Xerrors GoSem.
From S2P Require Import App Parallel.
Open Scope string_scope.

(** The database library ([tm-db] over goleveldb, go-ethereum's [rawdb]) and the
    loading of a tree ([iavl]).  A database is named by its file. *)
Class DbEnv (W : Type) := {
  open_dbs : W -> gset string;
  db_Open : string -> GoM W unit;
  db_Close : string -> GoM W unit;
  tree_New : string -> GoM W unit;
  tree_Load : string -> GoM W unit;
}.

(** goleveldb locks the files of an open database: it cannot be opened twice,
    and closing it twice is an error.  Reading a tree opens and closes nothing. *)
Class DbLaws (W : Type) {E : DbEnv W} : Prop := {
  open_locked : forall n w, n ∈ open_dbs w -> exists e, db_Open n w = (Err e, w);
  open_new : forall n w, n ∉ open_dbs w ->
    exists r w', db_Open n w = (r, w') /\ r <> Panic /\ (r = Ret tt -> open_dbs w' = {[n]} ∪ open_dbs w) /\ (r <> Ret tt -> open_dbs w' = open_dbs w);
  close_open : forall n w, n ∈ open_dbs w -> exists w', db_Close n w = (Ret tt, w') /\ open_dbs w' = open_dbs w ∖ {[n]};
  close_closed : forall n w, n ∉ open_dbs w -> exists e, db_Close n w = (Err e, w);
  tree_new_frame : forall n w, (tree_New n w).1 <> Panic /\ open_dbs (tree_New n w).2 = open_dbs w;
  tree_load_frame : forall n w, (tree_Load n w).1 <> Panic /\ open_dbs (tree_Load n w).2 = open_dbs w;
}.
(** No call fails on sound files. *)
Class DbSound (W : Type) {E : DbEnv W} : Prop := {
  open_sound : forall n w, n ∉ open_dbs w -> (db_Open n w).1 = Ret tt;
  tree_sound : forall n w, (tree_New n w).1 = Ret tt /\ (tree_Load n w).1 = Ret tt;
}.

(** [xerrors.From] of the error of a call *)
Definition fromM {S A} (m : GoM S A) : GoM S A :=
  let! r := tryM m in
  match r with
  | inl e => errM (NewOrdinary (ErrorText e))
  | inr a => retM a
  end.

Section Lifecycle.
Context {W : Type} {E : DbEnv W}.

(** ** Ledgers *)

(** The pointers of a ledger that [Close] clears. *)
Record LedgerH : Type := mkLedgerH { lh_db : option string; lh_tree : bool }.

(** [newTree] is [iavl.NewMutableTree] or [iavl.NewMutableTreeWithOpts]. *)
Definition open_ledger (newTree : string -> GoM W unit) (name : string) : GoM W LedgerH :=
  do! fromM (db_Open name) in
  let! r := tryM (newTree name) in
  match r with
  | inl e => do! ignoreM (db_Close name) in errM (NewOrdinary (ErrorText e))
  | inr _ =>
      let! r := tryM (tree_Load name) in
      match r with
      | inl e => do! ignoreM (db_Close name) in errM (NewOrdinary (ErrorText e))
      | inr _ => retM (mkLedgerH (Some name) true)
      end
  end.
Definition NewSimpleLedger : string -> GoM W LedgerH := open_ledger tree_New.
Definition open_FinalityLedger : string -> GoM W LedgerH := open_ledger tree_New.

(** A call of the database library from an object. *)
Definition on_env {S A} (m : GoM W A) : GoM (S * W) A := zoom lens_snd m.
Definition on_obj {S A} (m : GoM S A) : GoM (S * W) A := zoom lens_fst m.

(** A clone has the tree and no database of its own. *)
Definition ledger_Clone (L : LedgerH) : LedgerH := mkLedgerH None (lh_tree L).

Definition ledger_Close : GoM (LedgerH * W) unit :=
  let! L := getsM fst in
  do! match lh_db L with Some n => fromM (on_env (db_Close n)) | None => retM tt end in
  on_obj (modifyM (fun _ => mkLedgerH None false)).

(** [if l != nil { if xerr := l.Close(); xerr != nil { log }; l = nil }] *)
Definition close_field {S} (f : lens S (option LedgerH)) : GoM (S * W) unit := fun s =>
  match lget f s.1 with
  | None => (Ret tt, s)
  | Some L =>
      match ledger_Close (L, s.2) with
      | (Panic, (_, w)) => (Panic, (s.1, w))
      | (_, (_, w)) => (Ret tt, (lset f None s.1, w))
      end
  end.

(** ** The metadata store *)
Record MetaH : Type := mkMetaH { mh_db : string; mh_cache : gmap string (list Byte.byte) }.
Definition open_MetaDB (name : string) : GoM W MetaH := do! db_Open name in retM (mkMetaH name ∅).
Definition MetaDB_Close : GoM (MetaH * W) unit :=
  do! on_obj (modifyM (fun m => mkMetaH (mh_db m) ∅)) in
  let! m := getsM fst in
  on_env (db_Close (mh_db m)).

(** ** Controllers *)
Record AcctH : Type := mkAcctH { ah_acctLedger : option LedgerH }.
Record StakeH : Type := mkStakeH { sh_rwdHashDB : MetaH; sh_delegateeLedger : option LedgerH; sh_frozenLedger : option LedgerH; sh_rewardLedger : option LedgerH }.
Record GovH : Type := mkGovH { gh_paramsLedger : option LedgerH; gh_proposalLedger : option LedgerH; gh_frozenLedger : option LedgerH }.
(** [eh_stateDBWrapper] is nil until the first block begins; the wrapper points to
    the state, here named by its database, or to nil after its [Close]. *)
Record EvmH : Type := mkEvmH { eh_metadb : option string; eh_ethDB : string; eh_stateDBWrapper : option (option string) }.

Definition f_acct : lens AcctH (option LedgerH) := Lens ah_acctLedger (fun l _ => mkAcctH l).
Definition f_delegatee : lens StakeH (option LedgerH) := Lens sh_delegateeLedger (fun l c => mkStakeH (sh_rwdHashDB c) l (sh_frozenLedger c) (sh_rewardLedger c)).
Definition f_sfrozen : lens StakeH (option LedgerH) := Lens sh_frozenLedger (fun l c => mkStakeH (sh_rwdHashDB c) (sh_delegateeLedger c) l (sh_rewardLedger c)).
Definition f_params : lens GovH (option LedgerH) := Lens gh_paramsLedger (fun l c => mkGovH l (gh_proposalLedger c) (gh_frozenLedger c)).
Definition f_proposal : lens GovH (option LedgerH) := Lens gh_proposalLedger (fun l c => mkGovH (gh_paramsLedger c) l (gh_frozenLedger c)).

Definition NewAcctCtrler : GoM W AcctH :=
  let! l := open_FinalityLedger "accounts" in
  retM (mkAcctH (Some l)).
Definition AcctCtrler_Close : GoM (AcctH * W) unit := close_field f_acct.

(** [OpenMetaDB] panics on an error, the ledgers return it. *)
Definition open_StakeCtrler : GoM W StakeH :=
  let! m := mustM (open_MetaDB "rigo_app_rwd_hash") in
  let! d := open_FinalityLedger "delegatees" in
  let! z := open_FinalityLedger "frozen" in
  let! r := open_FinalityLedger "rewards" in
  retM (mkStakeH m (Some d) (Some z) (Some r)).
Definition StakeCtrler_Close : GoM (StakeH * W) unit :=
  do! close_field f_delegatee in
  close_field f_sfrozen.

Definition open_GovCtrler : GoM W GovH :=
  let! g := open_FinalityLedger "gov_params" in
  let! p := open_FinalityLedger "proposal" in
  let! z := open_FinalityLedger "frozen_proposal" in
  retM (mkGovH (Some g) (Some p) (Some z)).
Definition GovCtrler_Close : GoM (GovH * W) unit :=
  do! close_field f_params in
  close_field f_proposal.

Definition open_EVMCtrler (path : string) : GoM W EvmH :=
  do! mustM (db_Open "heightRootHash") in
  do! mustM (db_Open path) in
  retM (mkEvmH (Some "heightRootHash") path None).
(** [StateDBWrapper.Close]: the pointer is cleared, the error returned. *)
Definition StateDBWrapper_Close : GoM (option string * W) unit := fun s =>
  match s.1 with
  | None => (Panic, s)
  | Some n => let '(r, w) := db_Close n s.2 in (r, (None, w))
  end.
Definition close_wrapper (sdb : option string) : GoM (EvmH * W) unit := fun s =>
  match StateDBWrapper_Close (sdb, s.2) with
  | (Ret _, (_, w)) => (Ret tt, (mkEvmH (eh_metadb s.1) (eh_ethDB s.1) None, w))
  | (Err e, (sdb', w)) => (Err (NewOrdinary (ErrorText e)), (mkEvmH (eh_metadb s.1) (eh_ethDB s.1) (Some sdb'), w))
  | (Panic, (_, w)) => (Panic, (s.1, w))
  end.
Definition EVMCtrler_Close : GoM (EvmH * W) unit :=
  let! c := getsM fst in
  do! match eh_metadb c with
      | Some n =>
          do! fromM (on_env (db_Close n)) in
          on_obj (modifyM (fun c => mkEvmH None (eh_ethDB c) (eh_stateDBWrapper c)))
      | None => retM tt
      end in
  match eh_stateDBWrapper c with
  | Some sdb => close_wrapper sdb
  | None => retM tt
  end.

(** ** The application *)
Context {S X C : Type}.

(** [ap_localClient] is the client that was made last. *)
Record AppH : Type := mkAppH {
  ap_metaDB : MetaH; ap_acct : AcctH; ap_stake : StakeH; ap_gov : GovH; ap_evm : EvmH;
  ap_executor : @pool S X; ap_localClient : option C; ap_started : Z;
}.
Definition a_meta : lens AppH MetaH := Lens ap_metaDB (fun m a => mkAppH m (ap_acct a) (ap_stake a) (ap_gov a) (ap_evm a) (ap_executor a) (ap_localClient a) (ap_started a)).
Definition a_acct : lens AppH AcctH := Lens ap_acct (fun c a => mkAppH (ap_metaDB a) c (ap_stake a) (ap_gov a) (ap_evm a) (ap_executor a) (ap_localClient a) (ap_started a)).
Definition a_stake : lens AppH StakeH := Lens ap_stake (fun c a => mkAppH (ap_metaDB a) (ap_acct a) c (ap_gov a) (ap_evm a) (ap_executor a) (ap_localClient a) (ap_started a)).
Definition a_gov : lens AppH GovH := Lens ap_gov (fun c a => mkAppH (ap_metaDB a) (ap_acct a) (ap_stake a) c (ap_evm a) (ap_executor a) (ap_localClient a) (ap_started a)).
Definition a_evm : lens AppH EvmH := Lens ap_evm (fun c a => mkAppH (ap_metaDB a) (ap_acct a) (ap_stake a) (ap_gov a) c (ap_executor a) (ap_localClient a) (ap_started a)).
Definition set_executor (p : @pool S X) (a : AppH) : AppH := mkAppH (ap_metaDB a) (ap_acct a) (ap_stake a) (ap_gov a) (ap_evm a) p (ap_localClient a) (ap_started a).
Definition on_part {A B} (l : lens AppH A) (m : GoM (A * W) B) : GoM (AppH * W) B := fun s =>
  let '(r, (x, w)) := m (lget l s.1, s.2) in (r, (lset l x s.1, w)).

(** [NewRigoApp]: every error is a panic; the pool has no channels. *)
Definition open_app (dbDir : string) (s : S) : GoM W AppH :=
  let! m := mustM (open_MetaDB "rigo_app") in
  let! g := mustM open_GovCtrler in
  let! a := mustM NewAcctCtrler in
  let! k := mustM open_StakeCtrler in
  let! e := open_EVMCtrler dbDir in
  retM (mkAppH m a k g e (NewTrxExecutor 0 s) None 0).

Definition App_Start : GoM AppH unit := fun a =>
  if (ap_started a =? 0)%Z then
    (Ret tt, mkAppH (ap_metaDB a) (ap_acct a) (ap_stake a) (ap_gov a) (ap_evm a) (Start (ap_executor a)) (ap_localClient a) 1)
  else (Ret tt, a).

Definition App_Stop : GoM (AppH * W) unit :=
  let! a := getsM fst in
  let! p := liftO (Stop (ap_executor a)) in
  do! on_obj (modifyM (set_executor p)) in
  do! on_part a_acct AcctCtrler_Close in
  do! on_part a_stake StakeCtrler_Close in
  do! on_part a_gov GovCtrler_Close in
  do! on_part a_evm EVMCtrler_Close in
  on_part a_meta MetaDB_Close.

Definition SetLocalClient (c : C) (a : AppH) : AppH :=
  mkAppH (ap_metaDB a) (ap_acct a) (ap_stake a) (ap_gov a) (ap_evm a) (ap_executor a) (Some c) (ap_started a).

(** [OnStart] and [OnStop] of a client: the error of [Stop] is dropped. *)
Definition OnStart : GoM AppH unit := App_Start.
Definition OnStop : GoM (AppH * W) unit := ignoreM App_Stop.

(** ** What opening and closing does to the open databases *)
Section Laws.
Context {L : DbLaws W}.

(** Opening a ledger that fails leaves no database open. *)
Lemma open_ledger_fails n w r w' : open_ledger tree_New n w = (r, w') ->
  r <> Panic /\ ((exists l, r = Ret l) \/ open_dbs w' = open_dbs w).
Proof.
  unfold open_ledger, fromM, bindM, tryM, ignoreM. destruct (decide (n ∈ open_dbs w)) as [Hin|Hin].
  { destruct (open_locked n w Hin) as [e ->]. intros [= <- <-]. split; [done|by right]. }
  destruct (open_new n w Hin) as (r0 & w0 & -> & Hp & Hr & Hf). destruct r0 as [[]|e|]; [|intros [= <- <-]; split; [done|right; by apply Hf]|done]. cbn.
  specialize (Hr eq_refl). destruct (tree_new_frame n w0) as [Hp1 Ht1]. destruct (tree_New n w0) as [[u|e|] w1]; cbn in Hp1, Ht1; [| |done].
  2:{ destruct (close_open n w1) as (w2 & -> & Hc); [set_solver|]. intros [= <- <-]. split; [done|]. right. rewrite Hc. set_solver. }
  destruct (tree_load_frame n w1) as [Hp2 Ht2]. destruct (tree_Load n w1) as [[u'|e|] w2]; cbn in Hp2, Ht2; [| |done].
  - intros [= <- <-]. split; [done|]. left. by eexists.
  - destruct (close_open n w2) as (w3 & -> & Hc); [set_solver|]. intros [= <- <-]. split; [done|]. right. rewrite Hc. set_solver.
Qed.

Lemma open_ledger_locked n w : n ∈ open_dbs w -> exists e, open_ledger tree_New n w = (Err e, w).
Proof. intros Hin. destruct (open_locked n w Hin) as [e H]. unfold open_ledger, fromM, bindM, tryM. rewrite H. by eexists. Qed.

(** The databases of a node, and those that no [Close] closes. *)
Definition gov_dbs : list string := ["gov_params"; "proposal"; "frozen_proposal"].
Definition stake_dbs : list string := ["rigo_app_rwd_hash"; "delegatees"; "frozen"; "rewards"].
Definition node_dbs (dbDir : string) : list string := "rigo_app" :: gov_dbs ++ "accounts" :: stake_dbs ++ ["heightRootHash"; dbDir].
Definition leaked_dbs : list string := ["frozen_proposal"; "rigo_app_rwd_hash"; "rewards"].

(** The application as the constructors leave it. *)
Definition ledger_of (n : string) : option LedgerH := Some (mkLedgerH (Some n) true).
Definition gov_opened : GovH := mkGovH (ledger_of "gov_params") (ledger_of "proposal") (ledger_of "frozen_proposal").
Definition stake_opened : StakeH := mkStakeH (mkMetaH "rigo_app_rwd_hash" ∅) (ledger_of "delegatees") (ledger_of "frozen") (ledger_of "rewards").
Definition opened (dbDir : string) (s : S) : AppH :=
  mkAppH (mkMetaH "rigo_app" ∅) (mkAcctH (ledger_of "accounts")) stake_opened gov_opened (mkEvmH (Some "heightRootHash") dbDir None) (NewTrxExecutor 0 s) None 0.

(** ** Opening *)

(** Run where none of [ns] is open, [m] opens exactly these and returns [a]. *)
Definition opens {A} (ns : list string) (m : GoM W A) (a : A) : Prop := forall w,
  NoDup ns -> (forall n, n ∈ ns -> n ∉ open_dbs w) ->
  exists w', m w = (Ret a, w') /\ forall n, n ∈ open_dbs w' <-> n ∈ ns \/ n ∈ open_dbs w.

Lemma opens_ret {A} (a : A) : opens [] (retM a) a.
Proof. intros w _ _. exists w. split; [done|]. intros n. rewrite elem_of_nil. tauto. Qed.

Lemma opens_bind {A B} ns ms (m : GoM W A) (k : A -> GoM W B) a b : opens ns m a -> opens ms (k a) b -> opens (ns ++ ms) (bindM m k) b.
Proof.
  intros Hm Hk w Hnd Hno. apply list.NoDup_app in Hnd as (Hn1 & Hdis & Hn2). setoid_rewrite elem_of_app in Hno.
  destruct (Hm w Hn1) as (w1 & Hr1 & H1); [naive_solver|]. destruct (Hk w1 Hn2) as (w2 & Hr2 & H2); [intros n Hn; rewrite (H1 n); naive_solver|].
  exists w2. split; [by rewrite (bindM_step _ _ _ _ _ Hr1)|]. intros n. rewrite (H2 n), (H1 n), elem_of_app. tauto.
Qed.

Lemma opens_must {A} ns (m : GoM W A) a : opens ns m a -> opens ns (mustM m) a.
Proof. intros Hm w H1 H2. destruct (Hm w H1 H2) as (w' & Hr & H). exists w'. split; [|done]. unfold mustM, bindM, tryM. by rewrite Hr. Qed.

Lemma opens_db {Sd : DbSound W} n : opens [n] (db_Open n) tt.
Proof.
  intros w _ Hno. assert (Hin : n ∉ open_dbs w) by (apply Hno; by apply list_elem_of_singleton).
  pose proof (open_sound n w Hin) as Hs. destruct (open_new n w Hin) as (r & w0 & H & _ & Hr & _). rewrite H in Hs. cbn in Hs. subst r.
  exists w0. split; [done|]. intros k. rewrite Hr by done. rewrite elem_of_union, elem_of_singleton, list_elem_of_singleton. done.
Qed.

Lemma opens_from {A} ns (m : GoM W A) a : opens ns m a -> opens ns (fromM m) a.
Proof. intros Hm w H1 H2. destruct (Hm w H1 H2) as (w' & Hr & H). exists w'. split; [|done]. unfold fromM, bindM, tryM. by rewrite Hr. Qed.

Lemma opens_frame {A} (m : GoM W A) a : (forall w, (m w).1 = Ret a /\ open_dbs (m w).2 = open_dbs w) -> opens [] (tryM m) (inr a).
Proof.
  intros Hm w _ _. destruct (Hm w) as [H1 H2]. exists (m w).2. unfold tryM. destruct (m w) as [r w']. cbn in *. subst r. split; [done|].
  intros n. rewrite H2, elem_of_nil. tauto.
Qed.

Lemma opens_ledger {Sd : DbSound W} n : opens [n] (open_FinalityLedger n) (mkLedgerH (Some n) true).
Proof.
  apply (opens_bind [n] []) with (a := tt); [apply opens_from, opens_db|]. apply (opens_bind [] []) with (a := inr tt).
  - apply opens_frame. intros w. split; [apply tree_sound|apply tree_new_frame].
  - apply (opens_bind [] []) with (a := inr tt); [|apply opens_ret]. apply opens_frame. intros w. split; [apply tree_sound|apply tree_load_frame].
Qed.

Lemma opens_meta {Sd : DbSound W} n : opens [n] (open_MetaDB n) (mkMetaH n ∅).
Proof. apply (opens_bind [n] []) with (a := tt); [apply opens_db|apply opens_ret]. Qed.

Lemma opens_gov {Sd : DbSound W} : opens gov_dbs open_GovCtrler gov_opened.
Proof. do 3 (eapply (opens_bind [_]); [apply opens_ledger|]). apply opens_ret. Qed.
Lemma opens_stake {Sd : DbSound W} : opens stake_dbs open_StakeCtrler stake_opened.
Proof. eapply (opens_bind [_]); [apply opens_must, opens_meta|]. do 3 (eapply (opens_bind [_]); [apply opens_ledger|]). apply opens_ret. Qed.

Lemma opens_app {Sd : DbSound W} dbDir (s : S) : opens (node_dbs dbDir) (open_app dbDir s) (opened dbDir s).
Proof.
  eapply (opens_bind [_]); [apply opens_must, opens_meta|]. eapply (opens_bind gov_dbs); [apply opens_must, opens_gov|].
  eapply (opens_bind [_]); [apply opens_must; eapply (opens_bind [_] []); [apply opens_ledger|apply opens_ret]|].
  eapply (opens_bind stake_dbs); [apply opens_must, opens_stake|]. eapply (opens_bind [_; _] []); [|apply opens_ret].
  eapply (opens_bind [_]); [apply opens_must, opens_db|]. eapply (opens_bind [_] []); [apply opens_must, opens_db|apply opens_ret].
Qed.

(** ** Closing *)

(** Run where all of [ns] are open, [m] closes exactly these and takes the object from [x] to [y]. *)
Definition closes {A} (ns : list string) (m : GoM (A * W) unit) (x y : A) : Prop := forall w,
  NoDup ns -> (forall n, n ∈ ns -> n ∈ open_dbs w) ->
  exists w', m (x, w) = (Ret tt, (y, w')) /\ forall n, n ∈ open_dbs w' <-> n ∉ ns /\ n ∈ open_dbs w.

Lemma closes_none {A} (m : GoM (A * W) unit) x y : (forall w, m (x, w) = (Ret tt, (y, w))) -> closes [] m x y.
Proof. intros Hm w _ _. exists w. split; [apply Hm|]. intros n. rewrite elem_of_nil. tauto. Qed.

Lemma closes_bind {A} ns ms (m k : GoM (A * W) unit) x y z : closes ns m x y -> closes ms k y z -> closes (ns ++ ms) (do! m in k) x z.
Proof.
  intros Hm Hk w Hnd Hall. apply list.NoDup_app in Hnd as (Hn1 & Hdis & Hn2). setoid_rewrite elem_of_app in Hall.
  destruct (Hm w Hn1) as (w1 & Hr1 & H1); [naive_solver|]. destruct (Hk w1 Hn2) as (w2 & Hr2 & H2); [intros n Hn; rewrite (H1 n); naive_solver|].
  exists w2. split; [by rewrite (bindM_step _ _ _ _ _ Hr1)|]. intros n. rewrite (H2 n), (H1 n), elem_of_app. tauto.
Qed.

Lemma closes_gets {A} ns (k : A -> GoM (A * W) unit) x y : closes ns (k x) x y -> closes ns (let! c := getsM fst in k c) x y.
Proof. done. Qed.

Lemma closes_part {A} ns (l : lens AppH A) m a x : closes ns m (lget l a) x -> closes ns (on_part l m) a (lset l x a).
Proof. intros Hm w Hn Ho. destruct (Hm w Hn Ho) as (w' & Hr & H). exists w'. split; [|done]. unfold on_part. cbn [fst snd]. by rewrite Hr. Qed.

Lemma closes_db {A} n (x : A) : closes [n] (on_env (db_Close n)) x x.
Proof.
  intros w _ Ho. destruct (close_open n w) as (w' & Hr & H); [apply Ho; by apply list_elem_of_singleton|]. exists w'. split; [by apply (zoom_eq lens_snd)|].
  intros k. rewrite H, elem_of_difference, elem_of_singleton, list_elem_of_singleton. tauto.
Qed.

Lemma closes_from {A} ns (m : GoM (A * W) unit) x y : closes ns m x y -> closes ns (fromM m) x y.
Proof. intros Hm w Hn Ho. destruct (Hm w Hn Ho) as (w' & Hr & H). exists w'. split; [|done]. unfold fromM, bindM, tryM. by rewrite Hr. Qed.

Lemma closes_ledger n t : closes [n] ledger_Close (mkLedgerH (Some n) t) (mkLedgerH None false).
Proof. apply (closes_bind [n] []) with (y := mkLedgerH (Some n) t); [apply closes_from, closes_db|by apply closes_none]. Qed.

Lemma closes_field {A} (f : lens A (option LedgerH)) c n t : lget f c = Some (mkLedgerH (Some n) t) -> closes [n] (close_field f) c (lset f None c).
Proof.
  intros Hf w Hn Ho. destruct (closes_ledger n t w Hn Ho) as (w' & Hr & H). exists w'. split; [|done]. unfold close_field. cbn [fst snd]. by rewrite Hf, Hr.
Qed.

Lemma closes_meta m : closes [mh_db m] MetaDB_Close m (mkMetaH (mh_db m) ∅).
Proof. apply (closes_bind [] [mh_db m]) with (y := mkMetaH (mh_db m) ∅); [by apply closes_none|]. apply (closes_db (mh_db m)). Qed.

(** The databases that [Stop] closes: that of the state only once a block has begun. *)
Definition state_db (dbDir : string) (began : bool) : list string := if began then [dbDir] else [].
Definition closed_dbs (dbDir : string) (began : bool) : list string :=
  "accounts" :: ["delegatees"; "frozen"] ++ ["gov_params"; "proposal"] ++ ("heightRootHash" :: state_db dbDir began) ++ ["rigo_app"].

(** [BeginBlock] of the EVM controller makes the wrapper over [ethDB]. *)
Definition first_block (began : bool) (a : AppH) : AppH :=
  lset a_evm (mkEvmH (eh_metadb (ap_evm a)) (eh_ethDB (ap_evm a)) (if began then Some (Some (eh_ethDB (ap_evm a))) else None)) a.
(** What is left of the application. *)
Definition stopped (dbDir : string) (s : S) (cl : option C) : AppH :=
  mkAppH (mkMetaH "rigo_app" ∅) (mkAcctH None) (mkStakeH (mkMetaH "rigo_app_rwd_hash" ∅) None None (ledger_of "rewards"))
    (mkGovH None None (ledger_of "frozen_proposal")) (mkEvmH None dbDir None) (Start (NewTrxExecutor 0 s)) cl 1.

Lemma closes_evm dbDir began :
  closes ("heightRootHash" :: state_db dbDir began) EVMCtrler_Close (mkEvmH (Some "heightRootHash") dbDir (if began then Some (Some dbDir) else None)) (mkEvmH None dbDir None).
Proof.
  apply closes_gets. apply (closes_bind ["heightRootHash"]) with (y := mkEvmH None dbDir (if began then Some (Some dbDir) else None)).
  { apply (closes_bind ["heightRootHash"] []) with (y := mkEvmH (Some "heightRootHash") dbDir (if began then Some (Some dbDir) else None)); [apply closes_from, closes_db|by apply closes_none]. }
  destruct began; cbn [state_db eh_stateDBWrapper]; [|by apply closes_none].
  intros w Hn Ho. destruct (closes_db dbDir tt w Hn Ho) as (w' & Hr & H). exists w'. split; [|done]. unfold on_env, zoom in Hr. cbn in Hr.
  unfold close_wrapper, StateDBWrapper_Close. cbn [fst snd]. destruct (db_Close dbDir w) as [r w1]. by injection Hr as -> ->.
Qed.

Lemma closes_app dbDir (s : S) began cl :
  closes (closed_dbs dbDir began) App_Stop (first_block began (SetLocalClient cl (App_Start (opened dbDir s)).2)) (stopped dbDir s (Some cl)).
Proof.
  unfold closed_dbs. set (a := first_block _ _).
  apply closes_gets. change (closes ([] ++ closed_dbs dbDir began) (do! on_obj (modifyM (set_executor (Start (NewTrxExecutor 0 s)))) in
    do! on_part a_acct AcctCtrler_Close in do! on_part a_stake StakeCtrler_Close in do! on_part a_gov GovCtrler_Close in
    do! on_part a_evm EVMCtrler_Close in on_part a_meta MetaDB_Close) a (stopped dbDir s (Some cl))).
  apply closes_bind with (y := a); [by apply closes_none|].
  eapply (closes_bind ["accounts"]); [by apply closes_part, closes_field with (t := true)|].
  eapply (closes_bind ["delegatees"; "frozen"]); [apply closes_part; eapply (closes_bind ["delegatees"] ["frozen"]); by apply closes_field with (t := true)|].
  eapply (closes_bind ["gov_params"; "proposal"]); [apply closes_part; eapply (closes_bind ["gov_params"] ["proposal"]); by apply closes_field with (t := true)|].
  eapply (closes_bind ("heightRootHash" :: state_db dbDir began)); [apply closes_part, closes_evm|].
  apply (closes_part ["rigo_app"] a_meta). apply (closes_meta (mkMetaH "rigo_app" ∅)).
Qed.

(** A second [Stop] finds only the metadata store, which is closed. *)
Lemma stop_again dbDir (s : S) cl w : "rigo_app" ∉ open_dbs w ->
  exists e, App_Stop (stopped dbDir s cl, w) = (Err e, (stopped dbDir s cl, w)).
Proof.
  intros Hn. destruct (close_closed "rigo_app" w Hn) as [e He]. exists e.
  change (App_Stop (stopped dbDir s cl, w)) with (on_part a_meta MetaDB_Close (stopped dbDir s cl, w)).
  unfold on_part, MetaDB_Close. change ((on_obj (modifyM (fun m => mkMetaH (mh_db m) ∅)) (ap_metaDB (stopped dbDir s cl), w))) with (@Ret unit tt, (mkMetaH "rigo_app" ∅, w)).
  assert (H : on_env (db_Close "rigo_app") (mkMetaH "rigo_app" ∅, w) = (Err e, (mkMetaH "rigo_app" ∅, w))) by by apply (zoom_eq lens_snd).
  unfold bindM, getsM. cbn [fst snd lget a_meta]. change (ap_metaDB (stopped dbDir s cl)) with (mkMetaH "rigo_app" ∅).
  unfold on_obj, zoom, modifyM. cbn [lget lset lens_fst fst snd mh_db]. rewrite H. done.
Qed.

(** While the ledger of frozen proposals is open, no application can be made. *)
Lemma reopen_panics {Sd : DbSound W} dbDir (s : S) w :
  "frozen_proposal" ∈ open_dbs w -> (forall n, n ∈ ["rigo_app"; "gov_params"; "proposal"] -> n ∉ open_dbs w) ->
  exists w', open_app dbDir s w = (Panic, w').
Proof.
  intros Hz Hno. destruct (opens_must _ _ _ (opens_meta "rigo_app") w) as (w1 & H1 & O1); [apply NoDup_singleton|set_solver|].
  assert (Hg : opens ["gov_params"; "proposal"] (let! g := open_FinalityLedger "gov_params" in let! p := open_FinalityLedger "proposal" in retM (g, p))
                 (mkLedgerH (Some "gov_params") true, mkLedgerH (Some "proposal") true)).
  { do 2 (eapply (opens_bind [_]); [apply opens_ledger|]). apply opens_ret. }
  destruct (Hg w1) as (w2 & H2 & O2); [by repeat constructor; set_solver|intros n Hn; rewrite (O1 n); intros [H|H]; [|eapply Hno; [|exact H]; set_solver]|].
  { apply list_elem_of_singleton in H. subst n. apply elem_of_cons in Hn as [Hn|Hn]; [discriminate|apply list_elem_of_singleton in Hn; discriminate]. }
  destruct (open_ledger_locked "frozen_proposal" w2) as [e H3]; [apply O2; right; apply O1; by right|].
  exists w2. unfold open_app. rewrite (bindM_step _ _ _ _ _ H1). apply bindM_inv in H2 as (g & w3 & Hg1 & H2). apply bindM_inv in H2 as (p & w4 & Hg2 & H2). injection H2 as _ _ ->.
  unfold mustM, bindM at 1 2, tryM at 1. unfold open_GovCtrler. rewrite (bindM_step _ _ _ _ _ Hg1), (bindM_step _ _ _ _ _ Hg2).
  unfold bindM at 1. unfold open_FinalityLedger. rewrite H3. reflexivity.
Qed.

(** C37: the life of a node, for its databases.  A node that is made where none
    of its databases is open, started and stopped closes them except three: the
    ledger of frozen proposals, the rewards and the store of the reward hash
    stay open, and so does the database of the EVM when no block has begun.
    A second stop, which every further connection asks for, reports an error and
    changes nothing, and no application can be made again in the process. *)
Theorem stop_leaves_open {Sd : DbSound W} (dbDir : string) (s : S) (cl : C) (began : bool) (w : W) :
  NoDup (node_dbs dbDir) -> (forall n, n ∈ node_dbs dbDir -> n ∉ open_dbs w) ->
  exists a w1 a' w2, open_app dbDir s w = (Ret a, w1) /\
    App_Stop (first_block began (SetLocalClient cl (App_Start a).2), w1) = (Ret tt, (a', w2)) /\
    (forall n, n ∈ open_dbs w2 <-> n ∈ open_dbs w \/ n ∈ leaked_dbs \/ (began = false /\ n = dbDir)) /\
    (exists e, App_Stop (a', w2) = (Err e, (a', w2))) /\ OnStop (a', w2) = (Ret tt, (a', w2)) /\
    exists w3, open_app dbDir s w2 = (Panic, w3).
Proof.
  intros Hnd Hno. destruct (opens_app dbDir s w Hnd Hno) as (w1 & Hopen & O1).
  assert (Hp : node_dbs dbDir ≡ₚ closed_dbs dbDir began ++ leaked_dbs ++ state_db dbDir (negb began)).
  { destruct began; unfold closed_dbs, node_dbs, gov_dbs, stake_dbs, leaked_dbs; cbn; solve_Permutation. }
  assert (Hin : forall n, n ∈ node_dbs dbDir <-> n ∈ closed_dbs dbDir began \/ n ∈ leaked_dbs \/ n ∈ state_db dbDir (negb began)).
  { intros n. by rewrite Hp, !elem_of_app. }
  rewrite Hp in Hnd. apply list.NoDup_app in Hnd as (Hn1 & Hdis & _). setoid_rewrite elem_of_app in Hdis.
  destruct (closes_app dbDir s began cl w1 Hn1) as (w2 & Hstop & O2); [intros n Hn; apply O1; left; apply Hin; by left|].
  assert (Hst : forall n, n ∈ state_db dbDir (negb began) <-> began = false /\ n = dbDir).
  { intros n. destruct began; cbn; [rewrite elem_of_nil; naive_solver|rewrite list_elem_of_singleton; naive_solver]. }
  assert (Hleft : forall n, n ∈ open_dbs w2 <-> n ∈ open_dbs w \/ n ∈ leaked_dbs \/ (began = false /\ n = dbDir)).
  { intros n. specialize (Hdis n). specialize (Hno n). rewrite (O2 n), (O1 n), <- (Hst n). rewrite (Hin n) in Hno |- *. tauto. }
  assert (Hclosed : forall n, n ∈ closed_dbs dbDir began -> n ∉ open_dbs w2) by (intros n Hn Ho; by apply O2 in Ho as [Ho _]).
  destruct (stop_again dbDir s (Some cl) w2) as [e He]; [apply Hclosed; unfold closed_dbs; destruct began; cbn; rewrite !elem_of_cons; tauto|].
  exists (opened dbDir s), w1, (stopped dbDir s (Some cl)), w2. split_and!; [done|done|done|by exists e|unfold OnStop, ignoreM; by rewrite He|].
  apply reopen_panics; [apply Hleft; right; left; unfold leaked_dbs; apply elem_of_cons; by left|].
  intros n Hn. apply Hclosed. unfold closed_dbs. revert Hn. rewrite !elem_of_cons, !elem_of_app, !elem_of_cons, !elem_of_nil. tauto.
Qed.
End Laws.
End Lifecycle.

(** ** The clients of the application

    The state is the number of mutexes made so far; a mutex is its number. *)
Section Clients.
Context {W S X : Type} {E : DbEnv W}.
Record ClientH : Type := mkClientH { lc_mtx : nat }.
Record rigoLocalClientCreator : Type := mkCreator { cr_mtx : nat }.
Definition new_mutex : GoM nat nat := fun n => (Ret n, Datatypes.S n).

Definition NewRigoLocalClientCreator : GoM nat rigoLocalClientCreator := let! m := new_mutex in retM (mkCreator m).
Definition NewRigoLocalClient (mtx : option nat) : GoM nat ClientH :=
  let! m := match mtx with None => new_mutex | Some m => retM m end in
  retM (mkClientH m).
(** The application keeps the client that was made last. *)
Definition NewABCIClient (l : rigoLocalClientCreator) : GoM (@AppH S X ClientH * nat) ClientH :=
  let! client := zoom lens_snd (NewRigoLocalClient (Some (cr_mtx l))) in
  do! zoom lens_fst (modifyM (SetLocalClient client)) in
  retM client.

(** All connections that one creator makes lock the same mutex. *)
Lemma clients_share_mutex l k s : exists cs s', foldM (fun cs _ => let! c := NewABCIClient l in retM (cs ++ [c])%list) (seq 0 k) [] s = (Ret cs, s') /\
  length cs = k /\ (forall c, c ∈ cs -> lc_mtx c = cr_mtx l) /\ s'.2 = s.2.
Proof.
  assert (Hgen : forall xs acc s, exists cs s', foldM (fun cs (_ : nat) => let! c := NewABCIClient l in retM (cs ++ [c])%list) xs acc s = (Ret (acc ++ cs)%list, s') /\
    length cs = length xs /\ (forall c, c ∈ cs -> lc_mtx c = cr_mtx l) /\ s'.2 = s.2).
  { induction xs as [|x xs IH]; intros acc s0; [exists [], s0; rewrite app_nil_r; split_and!; try done; intros c Hc; by apply not_elem_of_nil in Hc|].
    destruct (IH (acc ++ [mkClientH (cr_mtx l)])%list (SetLocalClient (mkClientH (cr_mtx l)) s0.1, s0.2)) as (cs & s' & Hr & Hl & Hc & Hs).
    exists (mkClientH (cr_mtx l) :: cs), s'. split_and!; [|cbn; by rewrite Hl| |done].
    - cbn [foldM]. rewrite <- app_assoc in Hr. exact Hr.
    - intros c Hin. apply elem_of_cons in Hin as [->|Hin]; [done|by apply Hc]. }
  destruct (Hgen (seq 0 k) [] s) as (cs & s' & Hr & Hl & Hc & Hs). exists cs, s'. rewrite length_seq in Hl. done.
Qed.
End Clients.

(** ** A process whose databases are sound *)
#[export] Instance lockDb : DbEnv (gset string) := {|
  open_dbs w := w;
  db_Open n w := if decide (n ∈ w) then (Err (NewOrdinary "resource temporarily unavailable"), w) else (Ret tt, {[n]} ∪ w);
  db_Close n w := if decide (n ∈ w) then (Ret tt, w ∖ {[n]}) else (Err (NewOrdinary "leveldb: closed"), w);
  tree_New _ w := (Ret tt, w);
  tree_Load _ w := (Ret tt, w);
|}.
#[export] Instance lockDb_laws : DbLaws (gset string).
Proof.
  constructor; cbn; try done.
  - intros n w Hn. rewrite decide_True by done. by eexists.
  - intros n w Hn. rewrite decide_False by done. by exists (Ret tt), ({[n]} ∪ w).
  - intros n w Hn. rewrite decide_True by done. by eexists.
  - intros n w Hn. rewrite decide_False by done. by eexists.
Qed.
#[export] Instance lockDb_sound : DbSound (gset string).
Proof. constructor; cbn; [|done]. intros n w Hn. by rewrite decide_False. Qed.

Lemma stop_leaves_open_witness :
  exists (a a' : @AppH unit unit unit) w1 w2, open_app "data" tt (∅ : gset string) = (Ret a, w1) /\
    App_Stop (first_block true (SetLocalClient tt (App_Start a).2), w1) = (Ret tt, (a', w2)) /\ "rewards" ∈ open_dbs w2 /\ "accounts" ∉ open_dbs w2.
Proof.
  destruct (stop_leaves_open (S := unit) (X := unit) "data" tt tt true (∅ : gset string)) as (a & w1 & a' & w2 & H1 & H2 & H3 & _).
  - apply (bool_decide_unpack (NoDup (node_dbs "data"))). vm_compute. exact I.
  - intros n _. apply not_elem_of_empty.
  - exists a, a', w1, w2. split; [exact H1|]. split; [exact H2|]. split.
    + apply H3. right. left. apply elem_of_cons. right. apply elem_of_cons. right. by apply list_elem_of_singleton.
    + rewrite H3. intros [H|[H|[H _]]]; [by apply not_elem_of_empty in H| |discriminate].
      repeat (apply elem_of_cons in H as [H|H]; [discriminate|]). by apply not_elem_of_nil in H.
Defined.
