(* ===== verification/Rpc.v ===== *)
(** * The RPC functions of the node: [rpc/functions.go], [rpc/routes.go]

    Queries of the state go to the application through Tendermint's [ABCIQuery],
    which is a parameter here.  Queries for events are strings in which every long
    hexadecimal word is made upper case, because the attributes of events hold
    addresses and hashes in upper case. *)

From Stdlib Require Import Strings.Byte.
From S2P Require Import Prelude Xerrors GoSem Bytes GovParams.

(** ** Queries of the state *)
Definition adjustHeight (heightPtr : option Z) : Z := match heightPtr with None => 0 | Some h => h end.

(** [copy(dst[off:], src)]; slicing beyond the length panics. *)
Definition copy_at (off : nat) (src dst : list Byte.byte) : outcome (list Byte.byte) :=
  if (length dst <? off)%nat then Panic
  else Ret (take off dst ++ take (length dst - off) src ++ drop (off + length src) dst).

(** The request of [vm_call]: the two addresses and the input, one after the other. *)
Definition vm_params (addr to data : list Byte.byte) : outcome (list Byte.byte) :=
  let params := replicate (length addr + length to + length data) Byte.x00 in
  match copy_at 0 addr params with
  | Ret params =>
      match copy_at (length addr) to params with
      | Ret params => copy_at (length addr + length to) data params
      | r => r
      end
  | r => r
  end.

Section Queries.
Context {St R : Type} (ABCIQuery : string -> list Byte.byte -> Z -> bool -> GoM St R).

Definition QueryAccount (addr : list Byte.byte) (heightPtr : option Z) : GoM St R := ABCIQuery "account" addr (adjustHeight heightPtr) false.
Definition QueryDelegatee (addr : list Byte.byte) (heightPtr : option Z) : GoM St R := ABCIQuery "delegatee" addr (adjustHeight heightPtr) false.
Definition QueryStakes (addr : list Byte.byte) (heightPtr : option Z) : GoM St R := ABCIQuery "stakes" addr (adjustHeight heightPtr) false.
Definition QueryStakes1 (heightPtr : option Z) : GoM St R := ABCIQuery "stakes/total_power" [] (adjustHeight heightPtr) false.
Definition QueryStakes2 (heightPtr : option Z) : GoM St R := ABCIQuery "stakes/voting_power" [] (adjustHeight heightPtr) false.
Definition rpc_QueryReward (addr : list Byte.byte) (heightPtr : option Z) : GoM St R := ABCIQuery "reward" addr (adjustHeight heightPtr) false.
Definition QueryProposal (txhash : list Byte.byte) (heightPtr : option Z) : GoM St R := ABCIQuery "proposal" txhash (adjustHeight heightPtr) false.
Definition QueryGovParams (heightPtr : option Z) : GoM St R := ABCIQuery "gov_params" [] (adjustHeight heightPtr) false.
Definition QueryVM (addr to : list Byte.byte) (heightPtr : option Z) (data : list Byte.byte) : GoM St R :=
  let! params := liftO (vm_params addr to data) in
  ABCIQuery "vm_call" params (adjustHeight heightPtr) false.

(** The routes of the queries of the state, by name; the arguments are what the
    JSON of the request holds. *)
Inductive QueryRoute : Type :=
  | ByAddress (f : list Byte.byte -> option Z -> GoM St R)
  | ByHeight (f : option Z -> GoM St R)
  | ByCall (f : list Byte.byte -> list Byte.byte -> option Z -> list Byte.byte -> GoM St R).
Definition AddRoutes : gmap string QueryRoute :=
  list_to_map [("account", ByAddress QueryAccount); ("delegatee", ByAddress QueryDelegatee); ("stakes", ByAddress QueryStakes);
    ("stakes/total_power", ByHeight QueryStakes1); ("stakes/voting_power", ByHeight QueryStakes2); ("reward", ByAddress rpc_QueryReward);
    ("proposals", ByAddress QueryProposal); ("proposal", ByAddress QueryProposal); ("rule", ByHeight QueryGovParams);
    ("gov_params", ByHeight QueryGovParams); ("vm_call", ByCall QueryVM)]%string.
End Queries.

(** ** The result of a query: [rpc/responses.go]

    The JSON form has the fields of Tendermint's [ResponseQuery]; the value is
    inserted as it is, so it has to be JSON itself. *)
Section QueryResult.
Context {ProofOps : Type}.
Record ResponseQuery : Type := mkResponseQuery {
  rq_Code : Z; rq_Log : string; rq_Info : string; rq_Index : Z; rq_Key : list Byte.byte; rq_Value : list Byte.byte;
  rq_ProofOps : option ProofOps; rq_Height : Z; rq_Codespace : string;
}.
Record QueryResultJSON : Type := mkQueryResultJSON {
  qj_Code : Z; qj_Log : string; qj_Info : string; qj_Index : Z; qj_Key : list Byte.byte; qj_Value : list Byte.byte;
  qj_ProofOps : option ProofOps; qj_Height : Z; qj_Codespace : string;
}.
Context {CJ : Codec QueryResultJSON}.

Definition query_json (qr : ResponseQuery) : QueryResultJSON :=
  mkQueryResultJSON (rq_Code qr) (rq_Log qr) (rq_Info qr) (rq_Index qr) (rq_Key qr) (rq_Value qr) (rq_ProofOps qr) (rq_Height qr) (rq_Codespace qr).
Definition QueryResult_MarshalJSON (qr : ResponseQuery) : outcome (list Byte.byte) :=
  match codec_Marshal (query_json qr) with inl e => Err (NewOrdinary e) | inr bz => Ret bz end.
Definition QueryResult_UnmarshalJSON (bz : list Byte.byte) : GoM ResponseQuery unit :=
  match codec_Unmarshal bz with
  | inl e => errM (NewOrdinary e)
  | inr tmpQr => modifyM (fun _ => mkResponseQuery (qj_Code tmpQr) (qj_Log tmpQr) (qj_Info tmpQr) (qj_Index tmpQr) (qj_Key tmpQr) (qj_Value tmpQr)
                                     (qj_ProofOps tmpQr) (qj_Height tmpQr) (qj_Codespace tmpQr))
  end.

(** A client reads the result that the node has written. *)
Lemma query_result_roundtrip (valid : QueryResultJSON -> Prop) {JL : CodecLaws QueryResultJSON valid} qr bz old :
  valid (query_json qr) -> QueryResult_MarshalJSON qr = Ret bz -> QueryResult_UnmarshalJSON bz old = (Ret tt, qr).
Proof.
  intros Hv. unfold QueryResult_MarshalJSON. destruct (codec_Marshal _) as [|bz'] eqn:E; [done|]. intros [= <-].
  unfold QueryResult_UnmarshalJSON. rewrite (codec_roundtrip _ _ Hv E). by destruct qr.
Qed.
End QueryResult.

Lemma copy_at_app a b src z : length src = length b -> copy_at (length a) src (a ++ b ++ z) = Ret (a ++ src ++ z).
Proof.
  intros Hl. unfold copy_at. rewrite !length_app, (proj2 (Nat.ltb_ge _ _)) by lia. rewrite take_app_length.
  rewrite (take_ge src) by lia. rewrite drop_app_ge, drop_app_ge by lia. replace (length a + length src - length a - length b)%nat with 0%nat by lia. done.
Qed.

Lemma vm_params_spec addr to data : vm_params addr to data = Ret (addr ++ to ++ data).
Proof.
  unfold vm_params. rewrite <-Nat.add_assoc, !replicate_add. set (ra := replicate (length addr) _). set (rt := replicate (length to) _). set (rd := replicate (length data) _).
  assert (Ha : length addr = length ra) by (symmetry; apply length_replicate). assert (Ht : length to = length rt) by (symmetry; apply length_replicate).
  assert (Hd : length data = length rd) by (symmetry; apply length_replicate).
  change (copy_at 0 addr (ra ++ rt ++ rd)) with (copy_at (length (@nil Byte.byte)) addr ([] ++ ra ++ rt ++ rd)). rewrite copy_at_app by done. cbn [app].
  rewrite copy_at_app by done. rewrite <-length_app, (app_assoc addr to rd), <-(app_nil_r rd), copy_at_app by done. by rewrite app_nil_r, app_assoc.
Qed.

(** ** Queries for events

    [hexReg], [(?i)[a-f0-9]{40,}]: a match is a longest word of hexadecimal
    digits that has at least 40 of them. *)
Definition is_hex (c : Byte.byte) : bool := bool_decide (is_Some (hexval c)).
Definition to_upper (c : Byte.byte) : Byte.byte :=
  let v := byte_val c in if (97 <=? v) && (v <=? 122) then byte_of_Z (v - 32) else c.
Definition replace_word (w : list Byte.byte) : list Byte.byte := if (40 <=? length w)%nat then map to_upper w else w.

(** [word]: the hexadecimal digits since the last other character. *)
Fixpoint replace_words (word s : list Byte.byte) : list Byte.byte :=
  match s with
  | [] => replace_word word
  | c :: s' => if is_hex c then replace_words (word ++ [c]) s' else replace_word word ++ c :: replace_words [] s'
  end.
(** [hexReg.ReplaceAllStringFunc(query, strings.ToUpper)] *)
Definition upper_query (query : list Byte.byte) : list Byte.byte := replace_words [] query.

Section Events.
Context {Conn St Rs Ru Rx Rv : Type}.
Context (core_Subscribe : Conn -> list Byte.byte -> GoM St Rs) (core_Unsubscribe : Conn -> list Byte.byte -> GoM St Ru).
Context (core_TxSearch : list Byte.byte -> bool -> option Z -> option Z -> string -> GoM St Rx) (core_Validators : option Z -> option Z -> option Z -> GoM St Rv).

(** Without a websocket connection and its request there is no subscription. *)
Definition Subscribe (ws : option Conn) (has_req : bool) (query : list Byte.byte) : GoM St Rs :=
  match ws, has_req with
  | Some c, true => core_Subscribe c (upper_query query)
  | _, _ => errM (NewOrdinary "error connection type: no websocket connection")
  end.
Definition Unsubscribe (ws : Conn) (query : list Byte.byte) : GoM St Ru := core_Unsubscribe ws (upper_query query).
Definition TxSearch (query : list Byte.byte) (prove : bool) (pagePtr perPagePtr : option Z) (orderBy : string) : GoM St Rx :=
  core_TxSearch (upper_query query) prove pagePtr perPagePtr orderBy.
(** Height 0 is the last one; a missing height is a nil dereference. *)
Definition rpc_Validators (heightPtr pagePtr perPagePtr : option Z) : GoM St Rv :=
  match heightPtr with
  | None => panicM
  | Some h => core_Validators (if h =? 0 then None else heightPtr) pagePtr perPagePtr
  end.
End Events.

(** ** What the replacement does

    Position [i] lies in a word of at least 40 hexadecimal digits. *)
Definition in_word (s : list Byte.byte) (i : nat) : Prop :=
  exists a b, (a <= i < b)%nat /\ (40 <= b - a)%nat /\ forall j, (a <= j < b)%nat -> exists c, s !! j = Some c /\ is_hex c = true.

Lemma in_word_lt s i : in_word s i -> (i < length s)%nat.
Proof. intros (a & b & Hi & _ & Hj). destruct (Hj i Hi) as (c & Hc & _). by eapply lookup_lt_Some. Qed.

(** A word does not contain another character. *)
Lemma in_word_split r c l i : is_hex c = false -> in_word (r ++ c :: l) i <-> in_word r i \/ (length r < i)%nat /\ in_word l (i - length r - 1).
Proof.
  intros Hc. split.
  - intros (a & b & Hi & Hl & Hj). destruct (decide (a <= length r < b)%nat) as [Hin|Hout].
    { destruct (Hj _ Hin) as (c' & Hc' & Hh). rewrite list_lookup_middle in Hc' by done. injection Hc' as <-. congruence. }
    destruct (decide (b <= length r)%nat) as [Hb|Hb]; [left; exists a, b|right; split; [lia|]; exists (a - length r - 1)%nat, (b - length r - 1)%nat].
    + split_and!; [lia..|]. intros j Hjj. destruct (Hj j Hjj) as (c' & Hc' & Hh). rewrite lookup_app_l in Hc' by lia. eauto.
    + split_and!; [lia..|]. intros j Hjj. destruct (Hj (j + length r + 1)%nat) as (c' & Hc' & Hh); [lia|]. rewrite lookup_app_r in Hc' by lia.
      replace (j + length r + 1 - length r)%nat with (S j) in Hc' by lia. eauto.
  - intros [(a & b & Hi & Hl & Hj)|[Hi (a & b & Hab & Hl & Hj)]].
    + exists a, b. split_and!; [lia..|]. intros j Hjj. destruct (Hj j Hjj) as (c' & Hc' & Hh). exists c'. split; [|done]. by apply lookup_app_l_Some.
    + exists (a + length r + 1)%nat, (b + length r + 1)%nat. split_and!; [lia..|]. intros j Hjj. destruct (Hj (j - length r - 1)%nat) as (c' & Hc' & Hh); [lia|]. exists c'. split; [|done].
      rewrite lookup_app_r by lia. replace (j - length r)%nat with (S (j - length r - 1)) by lia. done.
Qed.

Definition upper_at (s out : list Byte.byte) : Prop :=
  forall i, (in_word s i -> out !! i = to_upper <$> s !! i) /\ (~ in_word s i -> out !! i = s !! i).

Lemma replace_word_spec w : Forall (fun c => is_hex c = true) w -> upper_at w (replace_word w).
Proof.
  intros Hw i. unfold replace_word. destruct (40 <=? length w)%nat eqn:Hl.
  - apply Nat.leb_le in Hl. rewrite list_lookup_fmap. split; [done|]. intros Hn. destruct (w !! i) as [c|] eqn:Hi; [|done]. destruct Hn. exists 0%nat, (length w).
    pose proof (lookup_lt_Some _ _ _ Hi). split_and!; [lia..|]. intros j Hj. destruct (lookup_lt_is_Some_2 w j) as [c' Hc']; [lia|]. exists c'. split; [done|].
    by eapply (list.Forall_lookup_1 _ _ _ _ Hw).
  - apply Nat.leb_gt in Hl. split; [|done]. intros (a & b & Hi & Hab & Hj). destruct (Hj (b - 1)%nat) as (c & Hc%lookup_lt_Some & _); lia.
Qed.

Lemma replace_word_length w : length (replace_word w) = length w.
Proof. unfold replace_word. by destruct (_ <=? _)%nat; rewrite ?length_map. Qed.

Lemma replace_words_spec w s : Forall (fun c => is_hex c = true) w -> upper_at (w ++ s) (replace_words w s).
Proof.
  revert w. induction s as [|c s IH]; intros w Hw; cbn; [rewrite app_nil_r; by apply replace_word_spec|]. destruct (is_hex c) eqn:Hc.
  - rewrite cons_middle, app_assoc. apply IH. apply Forall_app; split; [done|]. by constructor.
  - intros i. rewrite in_word_split by done. destruct (replace_word_spec w Hw i) as [H1 H2]. destruct (IH [] (List.Forall_nil _) (i - length w - 1)%nat) as [H3 H4].
    cbn [app] in H3, H4. destruct (decide (i < length w)%nat) as [Hlt|Hge].
    + rewrite (lookup_app_l w) by done. rewrite lookup_app_l by (by rewrite replace_word_length). split; [intros [?|[? ?]]; [by apply H1|lia]|]. intros Hn. apply H2. tauto.
    + rewrite (lookup_app_r w) by lia. rewrite lookup_app_r, replace_word_length by (rewrite replace_word_length; lia).
      destruct (i - length w)%nat as [|k] eqn:Hk; [split; [|done]; intros [H%in_word_lt|[? ?]]; lia|]. replace (S k - 1)%nat with k in * by lia.
      change ((c :: replace_words [] s) !! S k) with (replace_words [] s !! k). change ((c :: s) !! S k) with (s !! k).
      split; [intros [H%in_word_lt|[_ H]]; [lia|by apply H3]|]. intros Hn. apply H4. intros H. apply Hn. right. split; [lia|done].
Qed.

(** ** Addresses in a query *)
Lemma upper_query_split p c q : is_hex c = false -> upper_query (p ++ c :: q) = upper_query p ++ c :: upper_query q.
Proof.
  intros Hc. unfold upper_query. generalize (@nil Byte.byte) at 1 2 as w. induction p as [|x p IH]; intros w; cbn; [by rewrite Hc|].
  destruct (is_hex x); [apply IH|]. by rewrite IH, <-app_assoc.
Qed.

Lemma upper_query_word w : Forall (fun c => is_hex c = true) w -> upper_query w = replace_word w.
Proof.
  unfold upper_query. intros Hw. change w with ([] ++ w) at 2. revert Hw. generalize (@nil Byte.byte) as v. induction w as [|c w IH]; intros v Hw; cbn; [by rewrite app_nil_r|].
  inversion_clear Hw as [|? ? Hc Hw']. rewrite Hc, (IH (v ++ [c]) Hw'), <-app_assoc. done.
Qed.

Lemma lower_digit d : 0 <= d < 16 -> is_hex (hexdigit_lower d) = true /\ to_upper (hexdigit_lower d) = hexdigit d.
Proof.
  intros Hd. assert (Hall : Forall (fun d => is_hex (hexdigit_lower d) = true /\ to_upper (hexdigit_lower d) = hexdigit d) (seqZ 0 16)).
  { apply (bool_decide_unpack (Forall _ _)). vm_compute. exact I. }
  apply (proj1 (list.Forall_forall _ _) Hall). apply elem_of_seqZ. lia.
Qed.

Lemma lower_digits hb : Forall (fun c => is_hex c = true) (hex_EncodeToString hb) /\ map to_upper (hex_EncodeToString hb) = HexBytes_String hb /\
  length (hex_EncodeToString hb) = (2 * length hb)%nat.
Proof.
  unfold hex_EncodeToString, HexBytes_String, hex_Upper. induction hb as [|b hb (IH1 & IH2 & IH3)]; cbn; [done|]. pose proof (byte_val_bound b).
  destruct (lower_digit (byte_val b / 16)) as [H1 H2]; [split; [apply Z.div_pos|apply Z.div_lt_upper_bound]; lia|].
  destruct (lower_digit (byte_val b mod 16)) as [H3 H4]; [apply Z.mod_pos_bound; lia|]. split_and!; [by repeat constructor|by rewrite H2, H4, IH2|rewrite IH3; lia].
Qed.

(** A query for events is matched whatever the case of the addresses in it.
    The replacement changes the characters of words of at least 40 hexadecimal
    digits to upper case and no others; in particular an address or hash written
    with small letters, between two other characters such as quotes, becomes
    exactly the text that the events carry for it, and the query around it is
    replaced on its own. *)
Theorem event_query_spec query : upper_at query (upper_query query) /\
  forall p c addr d q, query = p ++ c :: hex_EncodeToString addr ++ d :: q -> is_hex c = false -> is_hex d = false -> (20 <= length addr)%nat ->
    upper_query query = upper_query p ++ c :: HexBytes_String addr ++ d :: upper_query q.
Proof.
  split; [apply (replace_words_spec [] query); constructor|]. intros p c addr d q -> Hc Hd Ha. destruct (lower_digits addr) as (H1 & H2 & H3).
  assert (E : replace_word (hex_EncodeToString addr) = HexBytes_String addr) by (unfold replace_word; by rewrite H3, (proj2 (Nat.leb_le _ _)) by lia).
  by rewrite !upper_query_split, (upper_query_word (hex_EncodeToString addr)), E by done.
Qed.

Lemma event_query_spec_witness :
  upper_query (String.list_byte_of_string "tx.sender='0123456789abcdef0123456789abcdef01234567' AND tx.type='transfer'") =
  String.list_byte_of_string "tx.sender='0123456789ABCDEF0123456789ABCDEF01234567' AND tx.type='transfer'".
Proof.
  pose (addr := [Byte.x01; Byte.x23; Byte.x45; Byte.x67; Byte.x89; Byte.xab; Byte.xcd; Byte.xef; Byte.x01; Byte.x23; Byte.x45; Byte.x67; Byte.x89; Byte.xab; Byte.xcd; Byte.xef; Byte.x01; Byte.x23; Byte.x45; Byte.x67]).
  rewrite (proj2 (event_query_spec _) (String.list_byte_of_string "tx.sender=") Byte.x27 addr Byte.x27 (String.list_byte_of_string " AND tx.type='transfer'")); vm_compute; [done|done|done|done|lia].
Defined.
