(* ===== verification/Web3.v ===== *)
(** * The client library: [libs/web3/], [NewTrx] of [ctrlers/types/trx.go]

    Transactions are built, signed with the key of a wallet and sent to a node
    over JSON-RPC; queries read the state of the node.  The provider that carries
    requests ([prov_Call], over a state [N] of the network), the JSON library and
    the time are parameters.  The mutexes of wallet and client are left out. *)

From Stdlib Require Import Strings.Byte.
From S2P Require Import Prelude Xerrors GoSem Bytes Crypto Slice FileIO GovParams Ledger WalletKey Account Trx Context Stake Rpc.

(** ** Transactions *)
Definition NewTrxTransfer (now : Z) (from to : list Byte.byte) (nonce gas gasPrice amt : Z) : Trx :=
  NewTrx now 1 from to nonce gas gasPrice amt PayloadAssetTransfer.
Definition NewTrxStaking (now : Z) (from to : list Byte.byte) (nonce gas gasPrice amt : Z) : Trx :=
  NewTrx now 1 from to nonce gas gasPrice amt PayloadStaking.
Definition NewTrxUnstaking (now : Z) (from to : list Byte.byte) (nonce gas gasPrice : Z) (txhash : list Byte.byte) : Trx :=
  NewTrx now 1 from to nonce gas gasPrice 0 (PayloadUnstaking txhash).
Definition NewTrxWithdraw (now : Z) (from to : list Byte.byte) (nonce gas gasPrice req : Z) : Trx :=
  NewTrx now 1 from to nonce gas gasPrice 0 (PayloadWithdraw req).
Definition NewTrxProposal (now : Z) (from to : list Byte.byte) (nonce gas gasPrice : Z) (msg : string) (start period applyingHeight optType : Z)
    (options : list (list Byte.byte)) : Trx :=
  NewTrx now 1 from to nonce gas gasPrice 0 (PayloadProposal (mkPayloadProposal msg start period applyingHeight optType options)).
Definition NewTrxVoting (now : Z) (from to : list Byte.byte) (nonce gas gasPrice : Z) (txHash : list Byte.byte) (choice : Z) : Trx :=
  NewTrx now 1 from to nonce gas gasPrice 0 (PayloadVoting txHash choice).
Definition NewTrxContract (now : Z) (from to : list Byte.byte) (nonce gas gasPrice amt : Z) (data : list Byte.byte) : Trx :=
  NewTrx now 1 from to nonce gas gasPrice amt (PayloadContract data).
Definition NewTrxSetDoc (now : Z) (from : list Byte.byte) (nonce gas gasPrice : Z) (name docUrl : string) : Trx :=
  NewTrx now 1 from (ZeroBytes 20) nonce gas gasPrice 0 (PayloadSetDoc name docUrl).

(** ** JSON-RPC *)
Inductive rpcArg : Type := ArgStr (s : string) | ArgBytes (bz : list Byte.byte) | ArgBool (b : bool).
Record JSONRpcReq : Type := mkRpcReq { rq_Id : Z; rq_Method : string; rq_Params : list Byte.byte }.
Record JSONRpcResp : Type := mkRpcResp { rp_Result : list Byte.byte; rp_Error : option (list Byte.byte) }.

(** What the library reads from JSON: Tendermint's results, and the value of a
    query, which is JSON again. *)
Class JsonRead (A : Type) := { json_read : list Byte.byte -> string + A }.
Record ResultBroadcastTx : Type := mkBroadcast { bt_Code : Z; bt_Data : list Byte.byte; bt_Log : string; bt_Hash : list Byte.byte }.
Record ResultBroadcastTxCommit : Type := mkBroadcastCommit {
  bt_CheckCode : Z; bt_DeliverCode : Z; bt_DeliverData : list Byte.byte; bt_DeliverEvents : list Event; bt_CommitHash : list Byte.byte; bt_AtHeight : Z }.
(** The account as a node reports it. *)
Record AccountJSON : Type := mkAccountJSON {
  aj_Address : list Byte.byte; aj_Name : string; aj_Nonce : Z; aj_Balance : string; aj_Code : option (list Byte.byte); aj_DocURL : string;
}.

Record RigoWeb3 : Type := mkRigoWeb3 { rw_chainId : string; rw_callId : Z }.

Section Web3.
Context {EC : EthCrypto} {KL : KeyLib} {RL : RlpLib}.
Context {CU : Codec TrxPayloadUnstakingProto} {CW : Codec TrxPayloadWithdrawProto}
        {CPP : Codec TrxPayloadProposalProto} {CV : Codec TrxPayloadVotingProto}
        {CC : Codec TrxPayloadContractProto} {CSD : Codec TrxPayloadSetDocProto} {CT : Codec TrxProto}.
Context {N : Type} (prov_Call : JSONRpcReq -> GoM N JSONRpcResp) (json_args : list rpcArg -> string + list Byte.byte).
Context {JB : JsonRead ResultBroadcastTx} {JC : JsonRead ResultBroadcastTxCommit} {ProofOps : Type} {JQ : JsonRead (ResponseQuery (ProofOps := ProofOps))} {JA : JsonRead AccountJSON}.
Context {D : DecCodec} (u256_FromHex : string -> string + Z).

Abbreviation W3 A := (GoM (RigoWeb3 * N) A).

Definition readM {A} `{JsonRead A} {St} (bz : list Byte.byte) : GoM St A :=
  match json_read bz with inl e => errM (NewOrdinary e) | inr a => retM a end.

Definition set_callId (f : Z -> Z) (rw : RigoWeb3) : RigoWeb3 := mkRigoWeb3 (rw_chainId rw) (f (rw_callId rw)).
Definition ChainID (rw : RigoWeb3) : string := rw_chainId rw.
Definition SetChainID (cid : string) (rw : RigoWeb3) : RigoWeb3 := mkRigoWeb3 cid (rw_callId rw).

Definition NewRequest (method : string) (args : list rpcArg) : W3 JSONRpcReq :=
  do! modifyM (fun s => (set_callId (fun n => i64 (n + 1)) s.1, s.2)) in
  let! rw := getsM fst in
  match json_args args with
  | inl e => errM (NewOrdinary e)
  | inr params => retM (mkRpcReq (rw_callId rw) method params)
  end.

(** [provider.Call] and the check of the error in the response. *)
Definition call (req : JSONRpcReq) : W3 (list Byte.byte) :=
  let! resp := zoom lens_snd (prov_Call req) in
  match rp_Error resp with
  | Some e => errM (NewOrdinary ("provider error: " +:+ String.string_of_list_byte e))
  | None => retM (rp_Result resp)
  end.

(** Most queries panic when the request cannot be built. *)
Definition query (method : string) (args : list rpcArg) : W3 (list Byte.byte) :=
  let! req := must (NewRequest method args) in
  call req.

Definition height_arg (h : Z) : rpcArg := ArgStr (FormatInt h).
Definition addr_arg (addr : list Byte.byte) : rpcArg := ArgStr (String.string_of_list_byte (HexBytes_String addr)).

(** The value of a query of the state. *)
Definition state_query {A} `{JsonRead A} (method : string) (args : list rpcArg) : W3 A :=
  let! bz := query method args in
  let! qr := readM (A := ResponseQuery) bz in
  readM (rq_Value qr).

Definition Status {A} `{JsonRead A} : W3 A := let! bz := query "status" [] in readM bz.
Definition Genesis {A} `{JsonRead A} : W3 A := let! bz := query "genesis" [] in readM bz.
Definition GetGovParams `{JsonRead GovParams} : W3 GovParams := state_query "gov_params" [height_arg 0].
Definition GetDelegatee `{JsonRead Delegatee} (addr : list Byte.byte) : W3 Delegatee := state_query "delegatee" [addr_arg addr; height_arg 0].
Definition GetStakes `{JsonRead (list Stake)} (addr : list Byte.byte) : W3 (list Stake) := state_query "stakes" [addr_arg addr; height_arg 0].
Definition QueryReward `{JsonRead Reward_} (addr : list Byte.byte) (height : Z) : W3 Reward_ := state_query "reward" [addr_arg addr; height_arg height].

Definition query_power (method : string) (height : Z) : W3 Z :=
  let! bz := query method [height_arg height] in
  let! qr := readM (A := ResponseQuery) bz in
  match ParseInt (String.string_of_list_byte (rq_Value qr)) with
  | None => errM (NewOrdinary "strconv.ParseInt: invalid syntax")
  | Some p => retM p
  end.
Definition QueryTotalPower (height : Z) : W3 Z := query_power "stakes/total_power" height.
Definition QueryVotingPower (height : Z) : W3 Z := query_power "stakes/voting_power" height.

(** The balance is hexadecimal or decimal; a malformed one panics. *)
Definition parse_balance (s : string) : outcome Z :=
  match (if String.prefix "0x" s then u256_FromHex s else u256_FromDecimal s) with inl _ => Panic | inr z => Ret z end.
Definition GetAccount (addr : list Byte.byte) : W3 Account :=
  let! a := state_query (A := AccountJSON) "account" [addr_arg addr; height_arg 0] in
  let! bal := liftO (parse_balance (aj_Balance a)) in
  retM (mkAccount (aj_Address a) (aj_Name a) (aj_Nonce a) bal (aj_Code a) (aj_DocURL a)).

Definition sendTransaction (tx : Trx) (method : string) : W3 (list Byte.byte) :=
  let! txbz := liftO (Trx_Encode tx) in
  let! req := NewRequest method [ArgBytes txbz] in
  call req.
Definition SendTransactionAsync (tx : Trx) : W3 ResultBroadcastTx := let! r := sendTransaction tx "broadcast_tx_async" in readM r.
Definition SendTransactionSync (tx : Trx) : W3 ResultBroadcastTx := let! r := sendTransaction tx "broadcast_tx_sync" in readM r.
Definition SendTransactionCommit (tx : Trx) : W3 ResultBroadcastTxCommit := let! r := sendTransaction tx "broadcast_tx_commit" in readM r.

(** A transaction found by its hash, decoded from the bytes of the result. *)
Definition GetTransaction `{JsonRead (list Byte.byte)} (txhash : list Byte.byte) : W3 (list Byte.byte * Trx) :=
  let! req := NewRequest "tx" [ArgBytes txhash; ArgBool false] in
  let! bz := call req in
  let! txbz := readM (A := list Byte.byte) bz in
  let! tx := liftO (Trx_Decode txbz) in
  retM (txbz, tx).

Definition GetValidators {A} `{JsonRead A} (height page perPage : Z) : W3 A :=
  let _height := if 0 <? height then FormatInt height else "0" in
  let page := if page =? 0 then 1 else page in
  let! req := NewRequest "validators" [ArgStr _height; ArgStr (FormatInt page); ArgStr (FormatInt perPage)] in
  let! bz := call req in
  readM bz.

Definition VmCall {A} `{JsonRead A} (from to : list Byte.byte) (height : Z) (data : list Byte.byte) : W3 A :=
  let! req := NewRequest "vm_call" [addr_arg from; addr_arg to; height_arg height; ArgBytes data] in
  let! bz := call req in
  let! qr := readM (A := ResponseQuery) bz in
  if negb (rq_Code qr =? 0) then errM (NewOrdinary (rq_Log qr)) else readM (rq_Value qr).

(** ** Wallets

    The account is nil until it is synchronised, when the wallet is opened from a
    file. *)
Record Wallet : Type := mkWallet { wl_wkey : WalletKey; wl_acct : option Account }.
Abbreviation WS := ((Wallet * mem) * (RigoWeb3 * N))%type.
Definition web {A} (m : W3 A) : GoM WS A := zoom lens_snd m.
Definition lens_wkey : lens (Wallet * mem) (WalletKey * mem) := Lens (fun s => (wl_wkey s.1, s.2)) (fun k s => (mkWallet k.1 (wl_acct s.1), k.2)).

(** [NewWallet] generates [prvKey]. *)
Definition ImportKey (prvKey : slice) (s : option (list Byte.byte)) (salt iv : list Byte.byte) : GoM mem Wallet :=
  let! wkey := NewWalletKeyWith prvKey s salt iv in
  retM (mkWallet wkey (Some (NewAccount (wk_Address wkey)))).
Definition NewWallet (prvKey : slice) (s : option (list Byte.byte)) (salt iv : list Byte.byte) : GoM mem Wallet := ImportKey prvKey s salt iv.
Definition OpenWallet {FS : FileSystem} {CJ : Codec WalletKeyJSON} (path : string) : GoM (mem * Disk) Wallet :=
  let! wk := OpenWalletKey path in
  retM (mkWallet wk None).
Definition Wallet_Save {FS : FileSystem} {CJ : Codec WalletKeyJSON} (w : Wallet) (path : string) : GoM (mem * Disk) unit := wk_Save (wl_wkey w) path.

(** A nil account is a nil pointer. *)
Definition acct_of (w : Wallet) : outcome Account := match wl_acct w with Some a => Ret a | None => Panic end.
Definition Wallet_Clone (w : Wallet) : outcome Wallet :=
  match acct_of w with Ret a => Ret (mkWallet (wl_wkey w) (Some (Clone a))) | Err e => Err e | Panic => Panic end.
Definition Wallet_GetNonce (w : Wallet) : outcome Z := match acct_of w with Ret a => Ret (Nonce a) | Err e => Err e | Panic => Panic end.
Definition Wallet_GetBalance (w : Wallet) : Z := match wl_acct w with Some a => Balance a | None => 0 end.
Definition Wallet_AddNonce : GoM WS unit :=
  let! s := getsM fst in
  let! a := liftO (acct_of s.1) in
  modifyM (fun s => ((mkWallet (wl_wkey s.1.1) (Some (AddNonce a)), s.1.2), s.2)).
Definition Wallet_Lock : GoM WS unit := zoom lens_fst (zoom lens_wkey wk_Lock).
Definition Wallet_Unlock (s : option (list Byte.byte)) : GoM WS unit := zoom lens_fst (zoom lens_wkey (Unlock s)).

(** The signature is stored in the transaction, which is returned. *)
Definition sign_preimage (tx : Trx) (preimg : list Byte.byte) : GoM WS Trx :=
  let! s := getsM fst in
  let! sig := liftO (wk_Sign preimg (wl_wkey s.1, s.2)) in
  retM (set_Sig sig tx).
Definition SignTrxProto (tx : Trx) (chainId : string) : GoM WS Trx :=
  let! preimg := liftO (PreImageToSignTrxProto tx chainId) in
  sign_preimage tx preimg.
Definition SignTrxRLP (tx : Trx) (chainId : string) : GoM WS Trx :=
  match PreImageToSignTrxRLP tx chainId with
  | inl xerr => errM xerr
  | inr preimg => sign_preimage tx preimg
  end.

Definition sign_and {A} (send : Trx -> W3 A) (tx : Trx) : GoM WS A :=
  let! rw := getsM (fun s => s.2.1) in
  let! tx := SignTrxRLP tx (ChainID rw) in
  web (send tx).
Definition SendTxAsync : Trx -> GoM WS ResultBroadcastTx := sign_and SendTransactionAsync.
Definition SendTxSync : Trx -> GoM WS ResultBroadcastTx := sign_and SendTransactionSync.
Definition SendTxCommit : Trx -> GoM WS ResultBroadcastTxCommit := sign_and SendTransactionCommit.

(** A transaction from the address of the wallet with the nonce of its account. *)
Definition with_nonce {A} (mk : list Byte.byte -> Z -> Trx) (send : Trx -> GoM WS A) : GoM WS A :=
  let! s := getsM fst in
  let! nonce := liftO (Wallet_GetNonce s.1) in
  send (mk (wk_Address (wl_wkey s.1)) nonce).

Section Requests.
Context (now gas gasPrice : Z).
Definition trx_transfer (to : list Byte.byte) (amt : Z) (from : list Byte.byte) (nonce : Z) : Trx := NewTrxTransfer now from to nonce gas gasPrice amt.
Definition trx_staking (to : list Byte.byte) (amt : Z) (from : list Byte.byte) (nonce : Z) : Trx := NewTrxStaking now from to nonce gas gasPrice amt.
Definition trx_withdraw (req : Z) (from : list Byte.byte) (nonce : Z) : Trx := NewTrxWithdraw now from from nonce gas gasPrice req.
Definition trx_setdoc (name url : string) (from : list Byte.byte) (nonce : Z) : Trx := NewTrxSetDoc now from nonce gas gasPrice name url.
Definition trx_proposal (msg : string) (start period applyingHeight optType : Z) (options : list Byte.byte) (from : list Byte.byte) (nonce : Z) : Trx :=
  NewTrxProposal now from (ZeroBytes 20) nonce gas gasPrice msg start period applyingHeight optType [options].
Definition trx_voting (txHash : list Byte.byte) (choice : Z) (from : list Byte.byte) (nonce : Z) : Trx :=
  NewTrxVoting now from (ZeroBytes 20) nonce gas gasPrice txHash choice.

Definition TransferAsync to amt := with_nonce (trx_transfer to amt) SendTxAsync.
Definition TransferSync to amt := with_nonce (trx_transfer to amt) SendTxSync.
Definition TransferCommit to amt := with_nonce (trx_transfer to amt) SendTxCommit.
Definition StakingAsync to amt := with_nonce (trx_staking to amt) SendTxAsync.
Definition StakingSync to amt := with_nonce (trx_staking to amt) SendTxSync.
Definition StakingCommit to amt := with_nonce (trx_staking to amt) SendTxCommit.
Definition WithdrawAsync req := with_nonce (trx_withdraw req) SendTxAsync.
Definition WithdrawSync req := with_nonce (trx_withdraw req) SendTxSync.
Definition WithdrawCommit req := with_nonce (trx_withdraw req) SendTxCommit.
Definition SetDocSync name url := with_nonce (trx_setdoc name url) SendTxSync.
Definition SetDocCommit name url := with_nonce (trx_setdoc name url) SendTxCommit.
Definition ProposalSync msg start period applyingHeight optType options := with_nonce (trx_proposal msg start period applyingHeight optType options) SendTxSync.
Definition ProposalCommit msg start period applyingHeight optType options := with_nonce (trx_proposal msg start period applyingHeight optType options) SendTxCommit.
Definition VotingSync txHash choice := with_nonce (trx_voting txHash choice) SendTxSync.
Definition VotingCommit txHash choice := with_nonce (trx_voting txHash choice) SendTxCommit.
End Requests.

Definition SyncAccount : GoM WS unit :=
  let! s := getsM fst in
  let! acct := web (GetAccount (wk_Address (wl_wkey s.1))) in
  modifyM (fun s => ((mkWallet (wl_wkey s.1.1) (Some acct), s.1.2), s.2)).
Definition SyncNonce : GoM WS unit := SyncAccount.
Definition SyncBalance : GoM WS unit := SyncAccount.

(** ** Contracts: [libs/web3/vm/evm_contract.go]

    The ABI library packs the arguments of a call.  The empty name is the
    constructor. *)
Record EVMContract : Type := mkEVMContract { ev_Bytecode : list Byte.byte; ev_addr : option (list Byte.byte) }.
Context {Arg : Type} (abi_Pack : string -> list Arg -> string + list Byte.byte) (abi_Unpack : string -> list Byte.byte -> string + list Arg).
Abbreviation CS := (EVMContract * WS)%type.
Definition SetAddress (addr : list Byte.byte) (c : EVMContract) : EVMContract := mkEVMContract (ev_Bytecode c) (Some addr).

Definition pack (name : string) (args : list Arg) : GoM CS (list Byte.byte) :=
  match abi_Pack name args with inl e => errM (NewOrdinary e) | inr data => retM data end.

Definition Contract_Call (vm_call : list Byte.byte -> list Byte.byte -> Z -> list Byte.byte -> W3 (list Byte.byte)) (name : string) (args : list Arg)
    (from : list Byte.byte) (height : Z) : GoM CS (list Arg) :=
  let! c := getsM fst in
  match ev_addr c with
  | None => errM (NewOrdinary "no contract address")
  | Some addr =>
      let! data := pack name args in
      let! ret := zoom lens_snd (web (vm_call from addr height data)) in
      match abi_Unpack name ret with inl e => errM (NewOrdinary e) | inr r => retM r end
  end.

(** A nil address is an empty byte string for the transaction. *)
Definition exec_with {R} (now nonce gas gasPrice amt : Z) (send : Trx -> W3 R) (name : string) (args : list Arg) : GoM CS R :=
  let! c := getsM fst in
  let! data := pack name args in
  let is_new := bool_decide (name = ""%string) in
  let to := if is_new then ZeroBytes 20 else default [] (ev_addr c) in
  let data := if is_new then ev_Bytecode c ++ data else data in
  let! s := getsM (fun s => s.2.1.1) in
  zoom lens_snd (sign_and send (NewTrxContract now (wk_Address (wl_wkey s)) to nonce gas gasPrice amt data)).
Definition ExecAsync (now nonce gas gasPrice amt : Z) (name : string) (args : list Arg) : GoM CS (list Byte.byte) :=
  let! ret := exec_with now nonce gas gasPrice amt SendTransactionAsync name args in
  retM (bt_Hash ret).
Definition ExecSync (now nonce gas gasPrice amt : Z) (name : string) (args : list Arg) : GoM CS ResultBroadcastTx :=
  exec_with now nonce gas gasPrice amt SendTransactionSync name args.

(** The address of a new contract is the first attribute of the first event. *)
Definition created_address (evs : list Event) : outcome (list Byte.byte) :=
  match evs with
  | mkEvent _ (a :: _) :: _ => HexToAddress (at_Value a)
  | _ => Panic
  end.
Definition ExecCommit (now nonce gas gasPrice amt : Z) (name : string) (args : list Arg) : GoM CS ResultBroadcastTxCommit :=
  let! ret := exec_with now nonce gas gasPrice amt SendTransactionCommit name args in
  if (bt_CheckCode ret =? 0) && (bt_DeliverCode ret =? 0) && bool_decide (name = ""%string) then
    match created_address (bt_DeliverEvents ret) with
    | Ret addr => do! modifyM (fun s => (SetAddress addr s.1, s.2)) in retM ret
    | Err e => do! modifyM (fun s => (mkEVMContract (ev_Bytecode s.1) None, s.2)) in errM e
    | Panic => panicM
    end
  else retM ret.
End Web3.
