(* ===== verification/Web3Props.v ===== *)
(** * From the wallet to the ledger

    What the client library sends is what the node accepts: the transaction that
    a wallet signs is decoded by the node, its signature verifies to the address
    of the wallet, and a transfer has its effect on the accounts. *)

From Stdlib Require Import Strings.Byte.
From S2P Require Import Prelude Xerrors GoSem Bytes Crypto Slice FileIO Ledger LedgerSpec LedgerClient LedgerProps Concrete GovParams WalletKey WalletProps Account Trx TrxProps Context.
From S2P Require Import AcctCtrler AcctProps AcctClient Stake StakeLimiter StakeCtrler Proposal GovCtrler GovProps Executor Scene ExecutorProps MetaDB StateDB EvmCtrler EvmProps EvmScene App Delivery Rpc Web3.

(** A signature made with the bytes of a key recovers to its public key. *)
Class KeySignLaws {EC : EthCrypto} {KL : KeyLib} : Prop := {
  ethec_recovers : forall h prv sig, ethec_Sign h prv = inr sig -> exists pub, eth_SigToPub h sig = inr pub /\ eth_CompressPubkey pub = tm_PubKey prv;
}.

Section Sent.
Context {EC : EthCrypto} {ECL : EthCryptoLaws} {KL : KeyLib} {KSL : KeySignLaws} {RL : RlpLib}.
Context {CU : Codec TrxPayloadUnstakingProto} {CW : Codec TrxPayloadWithdrawProto}
        {CPP : Codec TrxPayloadProposalProto} {CV : Codec TrxPayloadVotingProto}
        {CC : Codec TrxPayloadContractProto} {CSD : Codec TrxPayloadSetDocProto} {CT : Codec TrxProto}.
Context {LU : CodecLaws TrxPayloadUnstakingProto (fun _ => True)} {LW : CodecLaws TrxPayloadWithdrawProto (fun _ => True)}
        {LP : CodecLaws TrxPayloadProposalProto proposal_proto_range} {LV : CodecLaws TrxPayloadVotingProto voting_proto_range}
        {LC : CodecLaws TrxPayloadContractProto (fun _ => True)} {LS : CodecLaws TrxPayloadSetDocProto (fun _ => True)}
        {LT : CodecLaws TrxProto trx_proto_range}.
Context {N : Type} (prov_Call : JSONRpcReq -> GoM N JSONRpcResp) (json_args : list rpcArg -> string + list Byte.byte).
Context {JB : JsonRead ResultBroadcastTx} {JC : JsonRead ResultBroadcastTxCommit}.

(** The wallet is unlocked with [prv], and its address is the address of that key. *)
Definition unlocked (w : Wallet) (m : mem) (prv : list Byte.byte) : Prop :=
  PrvKey (wl_wkey w, m) = Some prv /\ wk_Address (wl_wkey w) = tm_Address (tm_PubKey prv).

(** The signature [sig] and the bytes [bz] of [tx]; the libraries do not fail. *)
Record signed (prv : list Byte.byte) (chain : string) (tx : Trx) (pre sig bz params : list Byte.byte) : Prop := {
  sd_pre : PreImageToSignTrxRLP tx chain = inr pre;
  sd_sig : ethec_Sign (DefaultHash [pre]) prv = inr sig;
  sd_bytes : Trx_Encode (set_Sig sig tx) = Ret bz;
  sd_args : json_args [ArgBytes bz] = inr params;
}.

Lemma canonical_preimage tx chain : PreImageToSignTrxRLP (canonical tx) chain = PreImageToSignTrxRLP tx chain.
Proof. unfold canonical. destruct tx as [? ? ? ? ? ? ? ? ? [[]|] ?]; done. Qed.

(** The node decodes and verifies what was signed. *)
Lemma signed_verifies prv chain tx pre sig bz params :
  signed prv chain tx pre sig bz params -> trx_range tx -> trx_typed tx -> tx_From tx = tm_Address (tm_PubKey prv) ->
  Trx_Decode bz = Ret (canonical (set_Sig sig tx)) /\
  VerifyTrxRLP (canonical (set_Sig sig tx)) chain = Ret (tx_From tx, tm_PubKey prv).
Proof.
  intros [Hpre Hsig Hbz _] Hr Ht Hf. split; [by apply trx_decode_encode|]. unfold VerifyTrxRLP. rewrite canonical_preimage.
  change (PreImageToSignTrxRLP (set_Sig sig tx) chain) with (PreImageToSignTrxRLP tx chain). rewrite Hpre.
  assert (tx_Sig (canonical (set_Sig sig tx)) = sig) as -> by (unfold canonical; by case_match).
  assert (tx_From (canonical (set_Sig sig tx)) = tx_From tx) as -> by (unfold canonical; by case_match).
  unfold Sig2Addr. destruct (ethec_recovers _ _ _ Hsig) as (pub & Hrec & Hcomp). rewrite Hrec. unfold Pub2Addr, PubBytes2Addr, CompressPubkey.
  rewrite compress_length, Nat.eqb_refl, Hcomp, Hf. by rewrite compare_refl.
Qed.

(** Signing and sending: the provider gets the request, its answer is returned. *)
Lemma sign_and_sends {A} `{JsonRead A} method w m rw n prv tx pre sig bz params :
  unlocked w m prv -> signed prv (rw_chainId rw) tx pre sig bz params ->
  let req := mkRpcReq (i64 (rw_callId rw + 1)) method params in
  forall resp n' res, prov_Call req n = (Ret resp, n') -> rp_Error resp = None -> json_read (rp_Result resp) = inr res ->
  sign_and (fun tx => let! r := sendTransaction prov_Call json_args tx method in readM r) tx ((w, m), (rw, n)) =
    (Ret res, ((w, m), (set_callId (fun n => i64 (n + 1)) rw, n'))).
Proof.
  intros [Hk _] [Hpre Hsig Hbz Hj] req resp n' res Hcall He Hres. unfold sign_and. rewrite (bindM_step _ _ _ rw ((w, m), (rw, n))) by done.
  rewrite (bindM_step _ _ _ (set_Sig sig tx) ((w, m), (rw, n))).
  2: { unfold SignTrxRLP, ChainID. rewrite Hpre. unfold sign_preimage. rewrite (bindM_step _ _ _ (w, m) ((w, m), (rw, n))) by done.
       rewrite (bindM_step _ _ _ sig ((w, m), (rw, n))); [done|]. unfold liftO, wk_Sign. cbn [fst snd]. by rewrite Hk, Hsig. }
  unfold web. set (rw' := set_callId _ rw).
  apply (zoom_eq lens_snd). cbn [lget lens_snd snd].
  rewrite (bindM_step _ _ _ (rp_Result resp) (rw', n')); [unfold readM; by rewrite Hres|].
  unfold sendTransaction. rewrite (bindM_step _ _ _ bz (rw, n)) by (unfold liftO; by rewrite Hbz).
  rewrite (bindM_step _ _ _ req (rw', n)).
  2: { unfold NewRequest. rewrite (bindM_step _ _ _ tt (rw', n)) by done. rewrite (bindM_step _ _ _ rw' (rw', n)) by done. by rewrite Hj. }
  unfold call. rewrite (bindM_step _ _ _ resp (rw', n')) by (by apply (zoom_eq lens_snd)). by rewrite He.
Qed.
End Sent.

(** ** A transfer, from the wallet to the accounts *)
Section EndToEnd.
Context {Tr E DB : Type} {Tree : Iavl Tr} {TDB : TmDB DB} {CB : Codec BlockContextJSON}.
Context {CA : Codec AcctProto} {CS : Codec Stake} {CD : Codec Delegatee} {CR : Codec RewardProto}.
Context {CGP : Codec GovParamsProto} {CGJ : Codec GovParamsJSON} {D : DecCodec} {CP : Codec GovProposal}.
Context {EC : EthCrypto} {ECL : EthCryptoLaws} {KL : KeyLib} {KSL : KeySignLaws} {RL : RlpLib}.
Context {CU : Codec TrxPayloadUnstakingProto} {CW : Codec TrxPayloadWithdrawProto}
        {CPP : Codec TrxPayloadProposalProto} {CV : Codec TrxPayloadVotingProto}
        {CC : Codec TrxPayloadContractProto} {CSD : Codec TrxPayloadSetDocProto} {CT : Codec TrxProto}.
Context {LU : CodecLaws TrxPayloadUnstakingProto (fun _ => True)} {LW : CodecLaws TrxPayloadWithdrawProto (fun _ => True)}
        {LP : CodecLaws TrxPayloadProposalProto proposal_proto_range} {LV : CodecLaws TrxPayloadVotingProto voting_proto_range}
        {LC : CodecLaws TrxPayloadContractProto (fun _ => True)} {LS : CodecLaws TrxPayloadSetDocProto (fun _ => True)}
        {LT : CodecLaws TrxProto trx_proto_range}.
Context {VM : IVMHandler E (FinalityLedger Account Tr)}.
Context (tmjson_Unmarshal : (list Byte.byte -> string + GovParams) -> list Byte.byte -> string + GovParams).
Context (tx_hash : list Byte.byte -> list Byte.byte).
Context {View : IavlView Tr} (utf8 : string -> Prop) (utf8_empty : utf8 ""%string) {Laws : IavlLaws Tr} {Total : IavlTotal Tr}.
Context {CL : CodecLaws AcctProto acct_proto_range} {CTot : CodecTotal AcctProto (acct_proto_valid utf8)}.
Context {N : Type} (prov_Call : JSONRpcReq -> GoM N JSONRpcResp) (json_args : list rpcArg -> string + list Byte.byte).
Context {JB : JsonRead ResultBroadcastTx}.
Abbreviation app := (@RigoApp Tr E DB).
Abbreviation ok := (acct_ok utf8).

(** The node [a], with block [next] open, has the account [from] of the wallet in
    the state the wallet believes, on the chain the client is connected to, and
    the request is one the node executes. *)
Record ready (a : app) (next : BlockContext) (rw : RigoWeb3) (acct from : Account) (addr to : list Byte.byte) (gas price amt : Z) : Prop := {
  rd_block : app_next a = Some next;
  rd_chain : app_ChainID a = rw_chainId rw;
  rd_inv : ledger_inv ok (w_acct (app_world a));
  rd_removed : no_removed (w_acct (app_world a));
  rd_from : visible (w_acct (app_world a)) Deliver (ToLedgerKey addr) = Some from;
  rd_nonce : Nonce from = Nonce acct;
  rd_u64 : is_u64 (Nonce acct);
  rd_addr : length addr = AddrSize;
  rd_to : length to = AddrSize;
  rd_amount : 0 <= amt < 2 ^ 255;
  rd_gas : 0 <= gas <= MaxInt64;
  rd_price : gasPrice (params_of (app_world a)) = Some price;
  rd_range : 0 <= price < 2 ^ 190;
  rd_min : GasToFee (minTrxGas (params_of (app_world a))) price <= price * gas;
  rd_funds : amt + price * gas <= Balance from;
  rd_code : Code_ (account_at (w_acct (app_world a)) Deliver to) = None;
  rd_room : Balance (account_at (w_acct (app_world a)) Deliver to) + amt < 2 ^ 256;
}.

Lemma transfer_range now from to nonce gas price amt sig :
  is_i64 now -> is_u64 nonce -> 0 <= amt < 2 ^ 255 -> 0 <= gas <= MaxInt64 -> 0 <= price < 2 ^ 190 ->
  trx_range (set_Sig sig (NewTrxTransfer now from to nonce gas price amt)).
Proof.
  intros Hn Hnn Ha Hg Hp. unfold trx_range, is_u32, is_u256, is_u64, is_i32, MaxInt64 in *. cbn. split_and!; try done; try lia. by intros p [= <-].
Qed.

(** C14: a transfer from the wallet to the ledger.  An unlocked wallet whose view
    of its account is current asks for a transfer: the request that
    [TransferSync] hands to the provider carries bytes which the node, when they
    are delivered in its block, answers with code 0, moving exactly the amount to
    the receiver, the fee to the block and counting the nonce of the sender. *)
Theorem wallet_transfer_delivered now gas price to amt w m rw n prv acct from pre sig bz params resp n' res (a : app) next :
  let addr := wk_Address (wl_wkey w) in
  let tx := trx_transfer now gas price to amt addr (Nonce acct) in
  let L := w_acct (app_world a) in
  is_i64 now -> unlocked w m prv -> wl_acct w = Some acct -> signed json_args prv (rw_chainId rw) tx pre sig bz params ->
  prov_Call (mkRpcReq (i64 (rw_callId rw + 1)) "broadcast_tx_sync" params) n = (Ret resp, n') ->
  rp_Error resp = None -> json_read (rp_Result resp) = inr res ->
  ready a next rw acct from addr to gas price amt ->
  TransferSync prov_Call json_args now gas price to amt ((w, m), (rw, n)) = (Ret res, ((w, m), (set_callId (fun n => i64 (n + 1)) rw, n'))) /\
  exists L', DeliverTx tmjson_Unmarshal tx_hash bz a =
      (Ret (mkResponse CodeTypeOK "" [] gas gas [ok_event tx]),
       set_next_ctx (Some (AddFee (price * gas) (AddTxsCnt 1 next))) (set_world (lset l_acct L' (app_world a)) a)) /\
    paid L L' Deliver from (account_at L Deliver to) amt (price * gas).
Proof.
  intros addr tx L Hnow Hun Hacct Hsd Hcall Herr Hres Hrd. destruct Hrd. split.
  - unfold TransferSync, with_nonce. rewrite (bindM_step _ _ _ (w, m) ((w, m), (rw, n))) by done.
    rewrite (bindM_step _ _ _ (Nonce acct) ((w, m), (rw, n))) by (unfold liftO, Wallet_GetNonce, acct_of; cbn; by rewrite Hacct).
    by apply (sign_and_sends prov_Call json_args "broadcast_tx_sync" w m rw n prv tx pre sig bz params Hun Hsd resp).
  - assert (Hr : forall s, trx_range (set_Sig s tx)) by (intros s; by apply transfer_range).
    destruct (signed_verifies json_args prv (rw_chainId rw) tx pre sig bz params Hsd (Hr []) eq_refl (proj2 Hun)) as [Hdec Hver].
    set (t := canonical (set_Sig sig tx)) in *.
    destruct (deliver_transfer_run tmjson_Unmarshal tx_hash utf8 utf8_empty a next bz t from price (tm_PubKey prv)) as (L' & Hrun & _ & _ & Hpaid); try done.
    + constructor; try done; cbn; try lia.
      * unfold fee_of. cbn. rewrite (u64_id gas) by (unfold is_u64, MaxInt64 in *; lia). rewrite u256_id; [exact rd_min0|]. unfold is_u256, MaxInt64 in *. split; [nia|].
        apply Z.le_lt_trans with (2 ^ 190 * (2 ^ 63 - 1)); [apply Z.mul_le_mono_nonneg; lia|lia].
      * by rewrite rd_chain0.
    + exists L'. split; [exact Hrun|exact Hpaid].
Qed.
End EndToEnd.

(** ** The address of a new contract *)
Section NewContract.
Context {G : GethState} {VM : EthVM} {DB : Type} {TD : TmDB DB} {TB : TmBatch DB} {D : DecCodec}.
Context {A : Type} {AH : IAccountHandler A} (order : gmap (list Byte.byte) Z -> list (list Byte.byte)).

(** What the library reads back from the upper-case form. *)
Lemma hex_to_address addr : length addr = AddrSize -> HexToAddress (HexBytes_String addr) = Ret addr.
Proof. intros H. unfold HexToAddress, HexBytes_String. by rewrite trim_0x_upper, hex_decode_upper, H. Qed.

(** The client learns the address of its contract.  When a transaction that
    creates a contract has been executed, the address that [ExecCommit] reads from
    the first event of the response is the one under which the node has recorded
    the contract and which it returns as data: the address derived from sender and
    nonce. *)
Theorem contract_address_agreed g (c c' : EVMCtrler (G := G) (DB := DB)) (a a' : A) (ctx ctx' : TrxContext) :
  (forall addr n, is_addr addr -> is_addr (CreateAddress addr n)) ->
  cx_Exec ctx = true -> IsZeroAddress (tx_To (cx_Tx ctx)) = true -> cx_Events ctx = [] ->
  EVM_ExecuteTrx order g (c, a, ctx) = (Ret tt, (c', a', ctx')) ->
  let addr := CreateAddress (Array20 (tx_From (cx_Tx ctx))) (tx_Nonce (cx_Tx ctx)) in
  cx_RetData ctx' = addr /\ created_address (cx_Events (add_Event (ok_event (cx_Tx ctx')) ctx')) = Ret addr.
Proof.
  intros Hlen Hex Hz Hev H addr. unfold EVM_ExecuteTrx in H. rewrite (bindM_step _ _ _ ctx (c, a, ctx)) in H by done. rewrite Hex in H. cbn [negb] in H.
  assert (Hzoom : forall R (m : GoM (EVMCtrler (G := G) (DB := DB) * A) R) s r s', zoom l_ctrler m s = (Ret r, s') -> s'.2 = s.2)
    by (intros R m s r s' (x & _ & ->)%zoom_inv; done).
  apply bindM_inv in H as (rcv & s0 & H0 & H). destruct (not_contract ctx rcv); [done|].
  apply bindM_inv in H as (snap & s1 & H1 & H). apply bindM_inv in H as ([] & s2 & H2 & H). apply bindM_inv in H as (gp & s3 & H3 & H).
  injection H3 as _ <-. apply bindM_inv in H as (r & s4 & H4%tryM_inv & H). destruct r as [e|res]; [by apply bindM_inv in H as (? & ? & _ & ?)|].
  destruct (er_Err res); [apply bindM_inv in H as (? & ? & _ & H); by apply bindM_inv in H as (? & ? & _ & ?)|].
  apply bindM_inv in H as ([] & s5 & H5 & H). apply bindM_inv in H as ([] & s6 & H6 & H).
  apply bindM_inv in H as ([] & s7 & H7 & H). injection H7 as <-. apply bindM_inv in H as ([] & s8 & H8 & H). injection H8 as <-.
  assert (Hs6 : s6.2 = ctx).
  { rewrite (Hzoom _ _ _ _ _ H6), (Hzoom _ _ _ _ _ H5), (Hzoom _ _ _ _ _ H4), (Hzoom _ _ _ _ _ H2), (Hzoom _ _ _ _ _ H1). by rewrite (Hzoom _ _ _ _ _ H0). }
  rewrite Hz in H. apply bindM_inv in H as (attrs & s9 & H9 & H). apply bindM_inv in H9 as (created & s10 & H10 & H9).
  apply bindM_inv in H9 as ([] & s11 & H11 & H9). injection H11 as <-. injection H9 as <- <-.
  apply bindM_inv in H as (logs & s12 & H12%Hzoom & H). injection H as _ <-.
  assert (Hcr : created = addr).
  { apply zoom_inv in H10 as (x & H10 & _). unfold record_contract in H10. apply bindM_inv in H10 as ([p|] & ? & _ & H10); [|done].
    apply bindM_inv in H10 as (? & ? & _ & H10). apply bindM_inv in H10 as (? & ? & _ & H10). by injection H10. }
  apply Hzoom in H10. rewrite H12. cbn [snd fst add_Event set_RetData set_GasUsed cx_RetData cx_Events]. rewrite H10. cbn [snd fst set_RetData set_GasUsed cx_Events].
  rewrite Hs6, Hev, Hcr. split; [done|]. cbn [app created_address created_attrs at_Value]. apply hex_to_address, Hlen, array20_addr.
Qed.

(** [vm_call]: when both addresses have their length, the node cuts the request of
    the RPC function back into what the caller gave; a shorter address would
    shift the rest, which neither side checks. *)
Lemma vm_call_args immutable_at block_time (c : EVMCtrler (G := G) (DB := DB)) (a : A) from to data params height :
  length from = 20%nat -> length to = 20%nat -> vm_params from to data = Ret params ->
  EVM_Query immutable_at block_time c a params height =
  let height := if height <=? 0 then ec_lastBlockHeight c else height in
  match block_time height with
  | inl e => Err (NewOrdinary e)
  | inr btm =>
      match callVM immutable_at c a from to data height btm with
      | Ret r => Ret (mkVMCallResult (UsedGas r) (default ""%string (er_Err r)) (ReturnData r))
      | Err e => Err e
      | Panic => Panic
      end
  end.
Proof.
  intros Hf Ht. rewrite vm_params_spec. intros [= <-]. unfold EVM_Query. rewrite !length_app, (proj2 (Nat.ltb_ge _ _)) by lia.
  rewrite (take_app_le from), (take_ge from) by lia. rewrite (drop_app_ge from _ 20), Hf, drop_0 by lia. rewrite (take_app_le to), (take_ge to) by lia.
  rewrite (drop_app_ge from _ 40), (drop_app_ge to), Hf, Ht by lia. change (40 - 20 - 20)%nat with 0%nat. by rewrite drop_0.
Qed.
End NewContract.

(** ** Witness: Alice's wallet and the node of the scene *)
#[local] Instance sceneKeys : KeyLib := toyKeys.
#[local] Instance sceneKeys_sign : KeySignLaws.
Proof. constructor. intros h prv sig [= ->]. exists sig. done. Qed.
#[local] Instance unstaking_laws : CodecLaws TrxPayloadUnstakingProto (fun _ => True) := countCodec_laws _ _.
#[local] Instance withdraw_laws : CodecLaws TrxPayloadWithdrawProto (fun _ => True) := countCodec_laws _ _.
#[local] Instance payProposal_laws : CodecLaws TrxPayloadProposalProto proposal_proto_range := countCodec_laws _ _.
#[local] Instance voting_laws : CodecLaws TrxPayloadVotingProto voting_proto_range := countCodec_laws _ _.
#[local] Instance contract_laws : CodecLaws TrxPayloadContractProto (fun _ => True) := countCodec_laws _ _.
#[local] Instance setdoc_laws : CodecLaws TrxPayloadSetDocProto (fun _ => True) := countCodec_laws _ _.
#[local] Instance trx_laws : CodecLaws TrxProto trx_proto_range := countCodec_laws _ _.
#[local] Instance okBroadcast : JsonRead ResultBroadcastTx := {| json_read bz := inr (mkBroadcast 0 [] "" bz) |}.

(** Alice's key is unlocked at address 1 of the memory; the network is the list
    of the requests it has carried. *)
Definition aliceMem : mem := Heap {[ 1%positive := aliceAddr ]} 2.
Definition aliceWallet : Wallet := mkWallet (mkWalletKey 1 aliceAddr AsymmAlgo None None (Some (Slice 1 20)) (tm_PubKey aliceAddr)) (Some rich).
Definition wire (req : JSONRpcReq) : GoM (list JSONRpcReq) JSONRpcResp := fun l => (Ret (mkRpcResp (rq_Params req) None), l ++ [req]).
Definition first_arg (args : list rpcArg) : string + list Byte.byte := match args with ArgBytes bz :: _ => inr bz | _ => inr [] end.
Definition webScene : RigoWeb3 := mkRigoWeb3 "rigo" 41.
Definition webTx : Trx := trx_transfer 0 20 10 bobAddr 300 aliceAddr 3.
Definition webPre : list Byte.byte := match PreImageToSignTrxRLP webTx "rigo" with inr p => p | inl _ => [] end.
Definition webBz : list Byte.byte := match Trx_Encode (set_Sig aliceAddr webTx) with Ret bz => bz | _ => [] end.

Lemma ret_default (o : outcome (list Byte.byte)) :
  match o with Ret _ => true | _ => false end = true -> o = Ret (match o with Ret bz => bz | _ => [] end).
Proof. by destruct o. Qed.
Lemma inr_default {A} (o : A + list Byte.byte) :
  match o with inr _ => true | _ => false end = true -> o = inr (match o with inr bz => bz | _ => [] end).
Proof. by destruct o. Qed.
Lemma web_signed : signed first_arg aliceAddr "rigo" webTx webPre aliceAddr webBz webBz.
Proof.
  constructor; [apply inr_default; vm_compute; reflexivity|reflexivity|apply ret_default; vm_compute; reflexivity|reflexivity].
Qed.

Lemma scene_ready : ready anyStr sceneApp (NewBlockContext (sceneBlock 5)) webScene rich rich aliceAddr bobAddr 20 10 300.
Proof. constructor; try reflexivity; try apply sceneAccts_ok; try (vm_compute; reflexivity); try (cbn; unfold is_u64, MaxInt64; lia). vm_compute. discriminate. Qed.

Lemma wallet_transfer_delivered_witness :
  TransferSync wire first_arg 0 20 10 bobAddr 300 ((aliceWallet, aliceMem), (webScene, [])) =
    (Ret (mkBroadcast 0 [] "" webBz), ((aliceWallet, aliceMem), (mkRigoWeb3 "rigo" 42, [mkRpcReq 42 "broadcast_tx_sync" webBz]))) /\
  exists L', paid sceneAccts L' Deliver rich bob 300 200.
Proof.
  destruct (wallet_transfer_delivered callUnmarshal id anyStr I wire first_arg 0 20 10 bobAddr 300 aliceWallet aliceMem webScene [] aliceAddr rich rich
    webPre aliceAddr webBz webBz (mkRpcResp webBz None) [mkRpcReq 42 "broadcast_tx_sync" webBz] (mkBroadcast 0 [] "" webBz) sceneApp (NewBlockContext (sceneBlock 5)))
    as (H1 & L' & _ & H2).
  - split; lia.
  - split; vm_compute; reflexivity.
  - reflexivity.
  - exact web_signed.
  - reflexivity.
  - reflexivity.
  - reflexivity.
  - exact scene_ready.
  - split; [exact H1|]. exists L'. exact H2.
Defined.

(** Alice creates a contract. *)
Definition createTx : Trx := mkTrx 1 0 3 aliceAddr (ZeroBytes 20) 0 30000 10 TRX_CONTRACT (Some (PayloadContract [])) aliceAddr.
Definition createCtx : TrxContext := mkTrxContext 1 0 [Byte.x09] createTx 0 true [] 1%positive 2%positive 0 [] [] "rigo".

Lemma contract_address_agreed_witness :
  exists c' a' ctx', EVM_ExecuteTrx keys_order Test1GovParams (evmCtrler, sceneAccts, createCtx) = (Ret tt, (c', a', ctx')) /\
    created_address (cx_Events (add_Event (ok_event (cx_Tx ctx')) ctx')) = Ret aliceAddr.
Proof.
  assert (He : (EVM_ExecuteTrx keys_order Test1GovParams (evmCtrler, sceneAccts, createCtx)).1 = Ret tt) by (vm_compute; reflexivity).
  destruct (EVM_ExecuteTrx keys_order Test1GovParams (evmCtrler, sceneAccts, createCtx)) as [r [[c' a'] ctx']] eqn:E. cbn [fst] in He. subst r.
  exists c', a', ctx'. split; [reflexivity|].
  apply (contract_address_agreed keys_order Test1GovParams evmCtrler c' sceneAccts a' createCtx ctx' ltac:(intros addr n H; exact H) eq_refl eq_refl eq_refl E).
Defined.
