(* ===== verification/Transport.v ===== *)
(** * How the client library reaches a node

    [libs/web3/http_provider.go] (requests over HTTP), [libs/web3/subscriber.go]
    (events over a web socket), [NewRequest] of [libs/web3/types/jsonrpc.go],
    [NewRigoWeb3], and what [libs/web3/vm/evm_contract.go] has beside the calls of
    Web3.v.  HTTP, web sockets, JSON and the ABI are libraries: parameters. *)

From Stdlib Require Import Strings.Byte.
From S2P Require Import Prelude Xerrors GoSem Bytes Crypto Slice FileIO GovParams Ledger WalletKey Account Trx Context Stake Rpc Web3.

(** ** Requests *)

(** [types.NewRequest] *)
Definition rpc_NewRequest (json_args : list rpcArg -> string + list Byte.byte) (id : Z) (method : string) (args : list rpcArg) : string + JSONRpcReq :=
  match json_args args with
  | inl err => inl err
  | inr params => inr (mkRpcReq id method params)
  end.

(** An answer over HTTP: its status and what reading the body gives. *)
Record httpResponse : Type := mkHttp { ht_StatusCode : Z; ht_Status : string; ht_Body : string + list Byte.byte }.
Definition StatusOK : Z := 200.

Record HttpProvider : Type := mkHttpProvider { hp_url : string }.
Definition NewHttpProvider (url : string) (opts : list (HttpProvider -> HttpProvider)) : HttpProvider :=
  fold_left (fun p cb => cb p) opts (mkHttpProvider url).

Section Http.
Context {N : Type} {CQ : Codec JSONRpcReq} {CR : Codec JSONRpcResp}.
Context (http_Post : string -> string -> list Byte.byte -> GoM N httpResponse).

Definition HttpProvider_Call (client : HttpProvider) (req : JSONRpcReq) : GoM N JSONRpcResp :=
  match codec_Marshal req with
  | inl err => errM (NewOrdinary err)
  | inr reqbz =>
      let! httpResp := http_Post (hp_url client) "application/json" reqbz in
      if negb (ht_StatusCode httpResp =? StatusOK) then errM (NewOrdinary ("Bad HTTP Response: " +:+ ht_Status httpResp))
      else match ht_Body httpResp with
           | inl err => errM (NewOrdinary err)
           | inr respBody =>
               match codec_Unmarshal respBody with
               | inl err => errM (NewOrdinary err)
               | inr res => retM res
               end
           end
  end.

(** A node that answers requests: over HTTP the client gets what the node
    answers to the request it made, and nothing else. *)
Definition serves (answer : JSONRpcReq -> GoM N JSONRpcResp) : Prop := forall url bz n, exists r,
  http_Post url "application/json" bz n =
    match codec_Unmarshal bz with
    | inl err => (Ret (mkHttp 400 "400 Bad Request" (inr [])), n)
    | inr req =>
        match answer req n with
        | (Ret resp, n') => (Ret (mkHttp 200 "200 OK" (codec_Marshal resp)), n')
        | (Err _, n') => (Ret (mkHttp 500 "500 Internal Server Error" (inr [])), n')
        | (Panic, n') => (Ret r, n')
        end
    end.

Lemma http_carries (okq : JSONRpcReq -> Prop) (okr : JSONRpcResp -> Prop) {LQ : CodecLaws JSONRpcReq okq} {TQ : CodecTotal JSONRpcReq okq}
    {LR : CodecLaws JSONRpcResp okr} {TR : CodecTotal JSONRpcResp okr} answer client req n resp n' :
  serves answer -> okq req -> answer req n = (Ret resp, n') -> okr resp -> HttpProvider_Call client req n = (Ret resp, n').
Proof.
  intros Hs Hq Ha Hr. unfold HttpProvider_Call. destruct (codec_total req Hq) as [bz Hbz]. rewrite Hbz. destruct (Hs (hp_url client) bz n) as [r Hp].
  rewrite (codec_roundtrip _ _ Hq Hbz), Ha in Hp. rewrite (bindM_step _ _ _ _ _ Hp). cbn [ht_StatusCode ht_Body]. cbn.
  destruct (codec_total resp Hr) as [rz Hrz]. rewrite Hrz. by rewrite (codec_roundtrip _ _ Hr Hrz).
Qed.
End Http.

(** ** Subscriptions *)

Record Subscriber : Type := mkSubscriber { sb_url : string; sb_conn : option positive; sb_query : string }.
Definition NewSubscriber (url : string) : Subscriber := mkSubscriber url None "".

Section Socket.
Context {N L : Type} {CQ : Codec JSONRpcReq} {CR : Codec JSONRpcResp} (json_args : list rpcArg -> string + list Byte.byte).
(** The web-socket library; a message is text or of another type. *)
Context (ws_Dial : string -> GoM N positive) (ws_Write : positive -> list Byte.byte -> GoM N unit)
        (ws_Read : positive -> GoM N (bool * list Byte.byte)) (ws_Close : positive -> GoM N unit).

(** The subscriber, the network and what the callbacks change. *)
Abbreviation St := (Subscriber * (N * L))%type.
Definition net {A} (m : GoM N A) : GoM St A := zoom lens_snd (zoom lens_fst m).
Definition json_request (id : Z) (method query : string) : string + list Byte.byte :=
  match rpc_NewRequest json_args id method [ArgStr query] with
  | inl err => inl err
  | inr req => codec_Marshal req
  end.

(** [Start] up to the new goroutine, which runs [receiveRoutine]. *)
Definition Subscriber_Start (query : string) : GoM St unit :=
  let! sub := getsM fst in
  let! conn := net (ws_Dial (sb_url sub)) in
  match json_request 0 "subscribe" query with
  | inl err => errM (NewOrdinary err)
  | inr bz =>
      do! net (ws_Write conn bz) in
      do! net (ws_Read conn) in
      modifyM (fun s => (mkSubscriber (sb_url s.1) (Some conn) query, s.2))
  end.

Definition Subscriber_Stop : GoM St unit :=
  let! sub := getsM fst in
  match sb_conn sub with
  | None => retM tt
  | Some conn =>
      match json_request 1 "unsubscribe" (sb_query sub) with
      | inl _ => panicM
      | inr bz =>
          let! r := tryM (net (ws_Write conn bz)) in
          match r with
          | inl _ => panicM
          | inr _ =>
              do! modifyM (fun s => (mkSubscriber (sb_url s.1) (sb_conn s.1) "", s.2)) in
              do! ignoreM (net (ws_Close conn)) in
              modifyM (fun s => (mkSubscriber (sb_url s.1) None (sb_query s.1), s.2))
          end
      end
  end.

Context (callback : option (list Byte.byte -> GoM St unit)).

(** One message; the result says whether the loop goes on. *)
Definition receive_one : GoM St bool :=
  let! sub := getsM fst in
  match sb_conn sub with
  | None => retM false
  | Some conn =>
      let! r := tryM (net (ws_Read conn)) in
      match r with
      | inl _ => retM false
      | inr (text, msg) =>
          if text then
            match codec_Unmarshal msg with
            | inl _ => panicM
            | inr resp =>
                match rp_Error resp with
                | Some _ => panicM
                | None =>
                    do! (if (2 <? length (rp_Result resp))%nat then match callback with Some cb => cb (rp_Result resp) | None => retM tt end else retM tt) in
                    retM true
                end
            end
          else retM true
      end
  end.
(** [fuel] bounds the messages; [None]: more of them are to come. *)
Fixpoint receive_loop (fuel : nat) : GoM St (option unit) :=
  match fuel with
  | O => retM None
  | S fuel' => let! more := receive_one in if more : bool then receive_loop fuel' else retM (Some tt)
  end.
Definition receiveRoutine (fuel : nat) : GoM St (option unit) :=
  let! r := receive_loop fuel in
  match r with
  | None => retM None
  | Some _ => do! Subscriber_Stop in retM (Some tt)
  end.

(** *** What a connection delivers *)

(** The messages that reading [c] gives from [n] on, until reading fails. *)
Inductive yields (c : positive) : N -> list (bool * list Byte.byte) -> N -> Prop :=
  | yields_end n e n' : ws_Read c n = (Err e, n') -> yields c n [] n'
  | yields_msg n m n1 ms n2 : ws_Read c n = (Ret m, n1) -> yields c n1 ms n2 -> yields c n (m :: ms) n2.

Definition answer_of (m : bool * list Byte.byte) : option JSONRpcResp :=
  if m.1 then match codec_Unmarshal m.2 with inr resp => Some resp | inl _ => None end else None.
(** A message the routine survives: not text, or an answer without error. *)
Definition harmless (m : bool * list Byte.byte) : Prop := m.1 = true -> exists resp, answer_of m = Some resp /\ rp_Error resp = None.
Definition event_of (m : bool * list Byte.byte) : option (list Byte.byte) :=
  match answer_of m with
  | Some resp => if (2 <? length (rp_Result resp))%nat then Some (rp_Result resp) else None
  | None => None
  end.

Context (note : L -> list Byte.byte -> L).
Definition noting (bz : list Byte.byte) : GoM St unit := modifyM (fun s => (s.1, (s.2.1, note s.2.2 bz))).
Context (Hcb : callback = Some noting).

Lemma receive_all sub c n ms n' l :
  sb_conn sub = Some c -> yields c n ms n' -> Forall harmless ms ->
  receive_loop (S (length ms)) (sub, (n, l)) = (Ret (Some tt), (sub, (n', fold_left note (omap event_of ms) l))).
Proof.
  intros Hc Hy. revert l. induction Hy as [n e n' Hr|n m n1 ms n2 Hr Hy IH]; intros l Hh.
  - cbn [length receive_loop]. assert (Hone : receive_one (sub, (n, l)) = (Ret false, (sub, (n', l)))); [|by rewrite (bindM_step _ _ _ _ _ Hone)].
    unfold receive_one, bindM, getsM, tryM, net, zoom. cbn. rewrite Hc. cbn. by rewrite Hr.
  - apply list.Forall_cons in Hh as [Hm Hh]. cbn [length].
    assert (Hone : receive_one (sub, (n, l)) = (Ret true, (sub, (n1, fold_left note (omap event_of [m]) l)))).
    { unfold receive_one, bindM, getsM, tryM, net, zoom. cbn. rewrite Hc. cbn. rewrite Hr. destruct m as [text msg]. destruct text; [|done].
      destruct (Hm eq_refl) as (resp & Ha & He). unfold event_of. rewrite Ha. unfold answer_of in Ha. cbn in Ha. cbn. destruct (codec_Unmarshal msg) as [|r]; [done|].
      injection Ha as ->. rewrite He. rewrite Hcb. unfold noting, modifyM. by destruct (rp_Result resp) as [|? [|? [|? ?]]]. }
    change (receive_loop (S (S (length ms))) (sub, (n, l))) with ((let! more := receive_one in if more : bool then receive_loop (S (length ms)) else retM (Some tt)) (sub, (n, l))).
    rewrite (bindM_step _ _ _ _ _ Hone), IH by done. cbn. by destruct (event_of m).
Qed.

(** When the connection ends the routine unsubscribes.  It has given the
    callback every event of the connection, in order and once.  On a connection
    that can still be written to it ends and clears the subscriber; on a broken
    one, where writing fails as well, it panics. *)
Lemma receive_routine_spec sub c n ms n' l bz :
  sb_conn sub = Some c -> yields c n ms n' -> Forall harmless ms -> json_request 1 "unsubscribe" (sb_query sub) = inr bz ->
  let l' := fold_left note (omap event_of ms) l in
  match ws_Write c bz n' with
  | (Ret _, n2) => receiveRoutine (S (length ms)) (sub, (n, l)) =
      (match (ws_Close c n2).1 with Panic => Panic | _ => Ret (Some tt) end,
       (mkSubscriber (sb_url sub) (match (ws_Close c n2).1 with Panic => Some c | _ => None end) "", ((ws_Close c n2).2, l')))
  | (_, n2) => receiveRoutine (S (length ms)) (sub, (n, l)) = (Panic, (sub, (n2, l')))
  end.
Proof.
  intros Hc Hy Hh Hq l'. unfold receiveRoutine. pose proof (receive_all sub c n ms n' l Hc Hy Hh) as Hrun.
  assert (Hstop : (let! r := receive_loop (S (length ms)) in match r with None => retM None | Some _ => do! Subscriber_Stop in retM (Some tt) end) (sub, (n, l)) =
    (do! Subscriber_Stop in retM (Some tt)) (sub, (n', l'))) by by rewrite (bindM_step _ _ _ _ _ Hrun).
  rewrite Hstop. unfold Subscriber_Stop, bindM, getsM, tryM, net, zoom, ignoreM, modifyM. cbn. rewrite Hc, Hq. cbn.
  destruct (ws_Write c bz n') as [[u|e|] n2]; cbn; [|done|done]. destruct (ws_Close c n2) as [[v|e|] n3]; cbn; by rewrite ?Hc.
Qed.
End Socket.

(** ** The start of a client, and contracts from their build files *)
Section Clients.
Context {N G : Type} (prov_Call : JSONRpcReq -> GoM N JSONRpcResp) (json_args : list rpcArg -> string + list Byte.byte) {JG : JsonRead G} (gen_ChainID : G -> string).

(** [NewRigoWeb3]: the chain is the one of the genesis document of the node; a
    node that does not answer is a panic. *)
Definition NewRigoWeb3 : GoM N RigoWeb3 := fun n =>
  match Genesis prov_Call json_args (A := G) (mkRigoWeb3 "" 0, n) with
  | (Ret gen, (rw, n')) => (Ret (SetChainID (gen_ChainID gen) rw), n')
  | (_, (_, n')) => (Panic, n')
  end.
End Clients.

(** [truffleBuildInfo]: [bi_ABI] is JSON again. *)
Record truffleBuildInfo : Type := mkBuildInfo { bi_ABI : list Byte.byte; bi_Bytecode : list Byte.byte; bi_DeployedBytecode : list Byte.byte }.
(** The contract with everything its file holds; Web3.v needs the code and the
    address only. *)
Record contractFile (Abi : Type) : Type := mkContractFile { cf_buildInfo : truffleBuildInfo; cf_abi : Abi; cf_addr : option (list Byte.byte) }.
Arguments mkContractFile {Abi} _ _ _.
Arguments cf_buildInfo {Abi} _.
Arguments cf_abi {Abi} _.
Arguments cf_addr {Abi} _.

Section Contracts.
Context {FS : FileSystem} {Abi : Type} (json_build : list Byte.byte -> string + truffleBuildInfo) (abi_JSON : list Byte.byte -> string + Abi).

Definition NewEVMContract (path : string) (d : Disk) : outcome (contractFile Abi) :=
  match os_ReadFile path d with
  | None => Err (NewOrdinary "open: no such file or directory")
  | Some bz =>
      match json_build bz with
      | inl err => Err (NewOrdinary err)
      | inr bi =>
          match abi_JSON (bi_ABI bi) with
          | inl err => Err (NewOrdinary err)
          | inr abi => Ret (mkContractFile bi abi None)
          end
      end
  end.
Definition GetAddress (ec : contractFile Abi) : option (list Byte.byte) := cf_addr ec.
Definition GetBytecode (ec : contractFile Abi) : list Byte.byte := bi_Bytecode (cf_buildInfo ec).
Definition GetDeployedBytecode (ec : contractFile Abi) : list Byte.byte := bi_DeployedBytecode (cf_buildInfo ec).
Definition contract_of (ec : contractFile Abi) : EVMContract := mkEVMContract (GetBytecode ec) (cf_addr ec).
End Contracts.

Section ExecWith.
Context {EC : EthCrypto} {KL : KeyLib} {RL : RlpLib}.
Context {CU : Codec TrxPayloadUnstakingProto} {CW : Codec TrxPayloadWithdrawProto}
        {CPP : Codec TrxPayloadProposalProto} {CV : Codec TrxPayloadVotingProto}
        {CC : Codec TrxPayloadContractProto} {CSD : Codec TrxPayloadSetDocProto} {CT : Codec TrxProto}.
Context {N : Type} (prov_Call : JSONRpcReq -> GoM N JSONRpcResp) (json_args : list rpcArg -> string + list Byte.byte) {JC : JsonRead ResultBroadcastTxCommit}.
Context {Arg : Type} (abi_Unpack : string -> list Byte.byte -> string + list Arg).

(** [ExecCommitWith]: data that are packed already; no address is taken over. *)
Definition ExecCommitWith (now : Z) (data : list Byte.byte) (nonce gas gasPrice amt : Z) : GoM (EVMContract * ((Wallet * mem) * (RigoWeb3 * N))) ResultBroadcastTxCommit :=
  let! c := getsM fst in
  let! s := getsM (fun s => s.2.1.1) in
  zoom lens_snd (sign_and (SendTransactionCommit prov_Call json_args) (NewTrxContract now (wk_Address (wl_wkey s)) (default [] (ev_addr c)) nonce gas gasPrice amt data)).
Definition unpack (name : string) (bz : list Byte.byte) : outcome (list Arg) :=
  match abi_Unpack name bz with inl err => Err (NewOrdinary err) | inr r => Ret r end.
End ExecWith.
