(* ===== verification/Prompt.v ===== *)
(** * Prompts, paths, signals and the command-line wallet

    [libs/sprompt.go] (passphrases are read from a terminal or from the standard
    input), [libs/path.go], the signals and the configuration of
    [cmd/commands/run_node.go] and [root.go], and the commands of [rg]
    ([libs/cli/cmds/]).  A program can end by [os.Exit]; terminal and environment
    are parameters. *)

From Stdlib Require Import Strings.Byte.
From S2P Require Import Prelude Xerrors GoSem Bytes Crypto Slice FileIO GovParams Ledger WalletKey Account Trx Context Stake Json Rpc Web3 Transport.

(** ** [bytes.TrimSpace] and [bufio.Reader.ReadString] *)

(** The bytes of the white space that Go's [unicode.IsSpace] knows, in UTF-8. *)
Definition space_runes : list (list Byte.byte) :=
  map (fun b => [b]) [Byte.x09; Byte.x0a; Byte.x0b; Byte.x0c; Byte.x0d; Byte.x20] ++
  [[Byte.xc2; Byte.x85]; [Byte.xc2; Byte.xa0]; [Byte.xe1; Byte.x9a; Byte.x80]] ++
  map (fun b => [Byte.xe2; Byte.x80; b])
    [Byte.x80; Byte.x81; Byte.x82; Byte.x83; Byte.x84; Byte.x85; Byte.x86; Byte.x87; Byte.x88; Byte.x89; Byte.x8a; Byte.xa8; Byte.xa9; Byte.xaf] ++
  [[Byte.xe2; Byte.x81; Byte.x9f]; [Byte.xe3; Byte.x80; Byte.x80]].

(** The length of the first rune of [rs] that starts [s]. *)
Fixpoint starts_with (rs : list (list Byte.byte)) (s : list Byte.byte) : option nat :=
  match rs with
  | [] => None
  | r :: rs' => if bool_decide (take (length r) s = r) then Some (length r) else starts_with rs' s
  end.
Fixpoint trim_left (fuel : nat) (rs : list (list Byte.byte)) (s : list Byte.byte) : list Byte.byte :=
  match fuel with
  | O => s
  | S fuel' => match starts_with rs s with Some n => trim_left fuel' rs (drop n s) | None => s end
  end.
Definition TrimSpace (s : list Byte.byte) : list Byte.byte :=
  let s1 := trim_left (length s) space_runes s in
  reverse (trim_left (length s1) (map reverse space_runes) (reverse s1)).

(** Up to and with the first newline; without one, an error. *)
Fixpoint ReadString (input : list Byte.byte) : option (list Byte.byte * list Byte.byte) :=
  match input with
  | [] => None
  | b :: r => if bool_decide (b = Byte.x0a) then Some ([b], r) else
                match ReadString r with Some (l, r') => Some (b :: l, r') | None => None end
  end.

(** ** Passphrases *)
Inductive exec (A : Type) : Type := Done (a : A) | Exit (code : Z) | Crash.
Arguments Done {A} _.
Arguments Exit {A} _.
Arguments Crash {A}.

(** The standard input and what has been printed; [tm_echo]: the terminal shows
    what is typed. *)
Record terminal : Type := mkTerminal { tm_isTerminal : bool; tm_input : list Byte.byte; tm_output : list string; tm_echo : bool }.
Definition print (s : string) (t : terminal) : terminal := mkTerminal (tm_isTerminal t) (tm_input t) (tm_output t ++ [s]) (tm_echo t).

Section ReadCredential.
(** [terminal.GetState] and [terminal.ReadPassword] of the terminal library, and
    whether an interrupt comes while the passphrase is read. *)
Context (GetState_fails : bool) (ReadPassword : terminal -> option (list Byte.byte) * terminal) (interrupted : bool).

Definition termEcho (on : bool) (t : terminal) : terminal := t.

(** An interrupt restores the terminal as it was and ends the process. *)
Definition readFromTERM (prompt : string) (t : terminal) : exec (list Byte.byte) * terminal :=
  if GetState_fails then (Crash, t)
  else
    let t1 := print prompt t in
    if interrupted then (Exit 1, mkTerminal (tm_isTerminal t1) (tm_input t1) (tm_output t1) (tm_echo t))
    else
      let '(p, t2) := ReadPassword t1 in
      let t3 := print "" t2 in
      match p with
      | None => (Crash, t3)
      | Some p => (Done (TrimSpace p), t3)
      end.

Definition readFromSTTY (prompt : string) (t : terminal) : exec (list Byte.byte) * terminal :=
  let t1 := print prompt t in
  if interrupted then (Exit 1, termEcho true (print "^C interrupt." t1))
  else
    let t2 := termEcho false t1 in
    match ReadString (tm_input t2) with
    | Some (text, rest) =>
        (Done (TrimSpace text), print "" (termEcho true (mkTerminal (tm_isTerminal t2) rest (tm_output t2) (tm_echo t2))))
    | None => (Exit 1, print "ERROR:" (print "" (termEcho true (mkTerminal (tm_isTerminal t2) [] (tm_output t2) (tm_echo t2)))))
    end.

Definition ReadCredential (prompt : string) (t : terminal) : exec (list Byte.byte) * terminal :=
  if tm_isTerminal t then readFromTERM prompt t else readFromSTTY prompt t.

(** From the standard input the echo is never switched off, whatever [termEcho] is asked. *)
Lemma stty_echo_kept prompt t : tm_echo (readFromSTTY prompt t).2 = tm_echo t.
Proof. unfold readFromSTTY, termEcho. destruct interrupted; [done|]. by destruct (ReadString _) as [[]|]. Qed.
End ReadCredential.

Definition no_space (s : list Byte.byte) : Prop := starts_with space_runes s = None.

Lemma trim_left_none fuel rs s : starts_with rs s = None -> trim_left fuel rs s = s.
Proof. intros H. destruct fuel; [done|]. cbn. by rewrite H. Qed.

(** No rune of more than one byte has a newline in it. *)
Lemma starts_newline rs s : Forall (fun r => length r = 1%nat \/ Byte.x0a ∉ r) rs -> s <> [] -> starts_with rs s = None -> starts_with rs (s ++ [Byte.x0a]) = None.
Proof.
  intros Hr Hs. induction Hr as [|r rs Hn _ IH]; [done|]. cbn [starts_with]. destruct (bool_decide (take (length r) s = r)) eqn:E; [done|]. intros H.
  apply bool_decide_eq_false in E. rewrite bool_decide_eq_false_2; [by apply IH|]. intros Ht. apply E.
  destruct (decide (length r <= length s)%nat) as [Hl|Hl]; [by rewrite take_app_le in Ht|]. exfalso.
  destruct Hn as [Hn|Hn]; [destruct s; [done|]; cbn in Hl; lia|]. apply Hn. rewrite <- Ht, firstn_all2; [|rewrite length_app; cbn; lia].
  apply elem_of_app. right. by apply list_elem_of_singleton.
Qed.

(** A line that neither begins nor ends with white space is read as it was typed. *)
Lemma trim_newline s : no_space s -> starts_with (map reverse space_runes) (reverse s) = None -> TrimSpace (s ++ [Byte.x0a]) = s.
Proof.
  intros H1 H2. unfold TrimSpace. destruct s as [|b s]; [vm_compute; done|].
  assert (Hf : Forall (fun r => length r = 1%nat \/ Byte.x0a ∉ r) space_runes).
  { apply (bool_decide_unpack (Forall (fun r => length r = 1%nat \/ Byte.x0a ∉ r) space_runes)). vm_compute. exact I. }
  rewrite (trim_left_none (length ((b :: s) ++ [Byte.x0a])) space_runes) by by apply starts_newline.
  rewrite length_app, reverse_app. cbn [length]. change (reverse [Byte.x0a]) with [Byte.x0a]. cbn [app].
  replace (S (length s) + 1)%nat with (S (S (length s))) by lia. change (trim_left (S (S (length s))) (map reverse space_runes) (Byte.x0a :: reverse (b :: s))) with
    (trim_left (S (length s)) (map reverse space_runes) (reverse (b :: s))). rewrite trim_left_none by done. apply reverse_involutive.
Qed.

(** ** Paths: [libs/path.go] *)

(** The elements of a path: what lies between the slashes. *)
Fixpoint split_path (cur : list Byte.byte) (p : list Byte.byte) : list (list Byte.byte) :=
  match p with
  | [] => [cur]
  | b :: r => if bool_decide (b = Byte.x2f) then cur :: split_path [] r else split_path (cur ++ [b]) r
  end.
Definition dot : list Byte.byte := [Byte.x2e].
Definition dotdot : list Byte.byte := [Byte.x2e; Byte.x2e].
(** [filepath.Clean]: no empty element and no dot; a double dot takes away the
    element before it, stays at the beginning of a relative path and is dropped
    at the root.  [out] is reversed. *)
Fixpoint clean_elems (rooted : bool) (out : list (list Byte.byte)) (es : list (list Byte.byte)) : list (list Byte.byte) :=
  match es with
  | [] => reverse out
  | e :: r =>
      if bool_decide (e = []) || bool_decide (e = dot) then clean_elems rooted out r
      else if bool_decide (e = dotdot) then
        match out with
        | x :: out' => if bool_decide (x = dotdot) then clean_elems rooted (e :: out) r else clean_elems rooted out' r
        | [] => clean_elems rooted (if rooted then [] else [e]) r
        end
      else clean_elems rooted (e :: out) r
  end.
Fixpoint join_slash (es : list (list Byte.byte)) : list Byte.byte :=
  match es with
  | [] => []
  | [e] => e
  | e :: r => e ++ Byte.x2f :: join_slash r
  end.
Definition IsAbs (p : list Byte.byte) : bool := match p with b :: _ => bool_decide (b = Byte.x2f) | [] => false end.
Definition Clean (p : list Byte.byte) : list Byte.byte :=
  let body := join_slash (clean_elems (IsAbs p) [] (split_path [] p)) in
  if IsAbs p then Byte.x2f :: body else match body with [] => dot | _ => body end.
(** [filepath.Join] of two elements: empty ones are left out. *)
Definition Join (a b : list Byte.byte) : list Byte.byte :=
  match a, b with
  | [], [] => []
  | [], _ => Clean b
  | _, [] => Clean a
  | _, _ => Clean (a ++ Byte.x2f :: b)
  end.

Definition GetHome (windows : bool) (Getenv : string -> list Byte.byte) : list Byte.byte :=
  if windows then
    let home := Getenv "HOMEDRIVE" ++ Getenv "HOMEPATH" in
    match home with [] => Getenv "USERPROFILE" | _ => home end
  else Getenv "HOME".

Definition AbsPath (Getwd : string + list Byte.byte) (path : list Byte.byte) : outcome (list Byte.byte) :=
  if IsAbs path then Ret path
  else match Getwd with
       | inl _ => Panic
       | inr currDir => Ret (Join currDir path)
       end.

(** In a process that has a working directory the result is absolute. *)
Lemma abs_path_absolute wd path : IsAbs wd = true -> exists p, AbsPath (inr wd) path = Ret p /\ IsAbs p = true.
Proof.
  intros Hw. unfold AbsPath. destruct (IsAbs path) eqn:E; [by exists path|]. eexists. split; [done|]. destruct wd as [|b wd]; [done|]. unfold Join.
  destruct path as [|c path]; unfold Clean; [by rewrite Hw|]. change (IsAbs ((b :: wd) ++ Byte.x2f :: c :: path)) with (IsAbs (b :: wd)). by rewrite Hw.
Qed.

Example clean_examples : Clean (String.list_byte_of_string "/a/./b//../c/") = String.list_byte_of_string "/a/c" /\
  Clean (String.list_byte_of_string "../x/..") = String.list_byte_of_string ".." /\ Clean [] = dot /\ Clean (String.list_byte_of_string "/..") = [Byte.x2f].
Proof. vm_compute. done. Qed.

(** ** Signals: [trapSignal] of [cmd/commands/run_node.go] *)
Inductive signal : Type := SIGINT | SIGHUP | SIGKILL | SIGTERM | SIGQUIT | SIGABRT | SIGSTOP | SIGUSR1.
#[export] Instance signal_eq_dec : EqDecision signal. Proof. solve_decision. Defined.
Definition trapped : list signal := [SIGINT; SIGHUP; SIGINT; SIGKILL; SIGTERM].

(** What the system and Go's runtime do with a signal that has no channel: [SIGKILL]
    cannot be trapped, also when it is asked for; [SIGQUIT] and [SIGABRT] end the
    process with a dump of its stacks; the others do nothing here. *)
Definition uncatchable : list signal := [SIGKILL; SIGSTOP].
Definition fatal : list signal := [SIGKILL; SIGQUIT; SIGABRT].
Definition to_channel (sig : signal) : bool := bool_decide (sig ∈ trapped) && negb (bool_decide (sig ∈ uncatchable)).

(** The first signal that is trapped runs the callback and ends the process; a
    panic of the callback ends it as well. *)
Fixpoint trapSignal {S} (cb : option (GoM S unit)) (sigs : list signal) (s : S) : exec unit * S :=
  match sigs with
  | [] => (Done tt, s)
  | sig :: r =>
      if to_channel sig then
        match cb with
        | None => (Exit 0, s)
        | Some f => match f s with (Panic, s') => (Crash, s') | (_, s') => (Exit 0, s') end
        end
      else if bool_decide (sig ∈ fatal) then (Crash, s)
      else trapSignal cb r s
  end.

(** The callback of [start]: the application first, then the node; errors are logged. *)
Definition stop_node {S} (IsRunning : S -> bool) (proxy_Stop node_Stop : GoM S unit) : GoM S unit :=
  let! running := getsM IsRunning in
  if running : bool then do! ignoreM proxy_Stop in ignoreM node_Stop else retM tt.

(** A node is stopped at most once, by the first signal that ends the process,
    and only [SIGINT], [SIGHUP] and [SIGTERM] stop it in order. *)
Lemma stopped_once {S} IsRunning (proxy_Stop node_Stop : GoM S unit) sigs s :
  trapSignal (Some (stop_node IsRunning proxy_Stop node_Stop)) sigs s =
    match find (fun sig => to_channel sig || bool_decide (sig ∈ fatal)) sigs with
    | None => (Done tt, s)
    | Some sig =>
        if bool_decide (sig ∈ [SIGINT; SIGHUP; SIGTERM]) then
          (match (stop_node IsRunning proxy_Stop node_Stop s).1 with Panic => Crash | _ => Exit 0 end, (stop_node IsRunning proxy_Stop node_Stop s).2)
        else (Crash, s)
    end.
Proof.
  induction sigs as [|sig r IH]; [done|]. cbn [trapSignal find]. destruct sig; cbn -[stop_node]; try exact IH; try done;
    by destruct (stop_node IsRunning proxy_Stop node_Stop s) as [[[]|e|] s'].
Qed.

(** ** The configuration: [ParseConfig], [DefaultConfig] *)
Section Config.
Context {Cfg : Type} (tm_Default : Cfg) (viper_Unmarshal : Cfg -> string + Cfg) (set_root : Cfg -> Cfg) (ValidateBasic : Cfg -> option string).
(** Tendermint's configuration with the identifier of the chain. *)
Record rigoConfig : Type := mkRigoConfig { rc_Config : Cfg; rc_ChainID : string }.
Definition DefaultConfig : rigoConfig := mkRigoConfig tm_Default "".
(** [set_root] is [SetRoot] with [EnsureRoot], which makes the directories. *)
Definition ParseConfig : outcome rigoConfig :=
  match viper_Unmarshal tm_Default with
  | inl err => Err (NewOrdinary err)
  | inr conf =>
      let conf := set_root conf in
      match ValidateBasic conf with
      | Some err => Err (NewOrdinary ("error in rootConfig file: " +:+ err))
      | None => Ret (mkRigoConfig conf "")
      end
  end.
End Config.

(** ** [rg]: the command-line wallet of [libs/cli/] *)
Record RootFlags : Type := mkRootFlags { rf_RPCUrl : string; rf_From : string; rf_To : list Byte.byte; rf_Gas : Z; rf_GasPrice : string; rf_Amount : string }.

(** The hook that reads byte flags: a text whose target is a byte slice is
    hexadecimal, with or without [0x]. *)
Inductive flagData : Type := DString (s : list Byte.byte) | DBytes (bz : list Byte.byte) | DOther.
Definition BytesDecodeHookFunc (target_is_bytes : bool) (data : flagData) : string + flagData :=
  match data with
  | DString s => if target_is_bytes then match hex_DecodeString (trim_0x s) with Some bz => inr (DBytes bz) | None => inl "encoding/hex: invalid byte" end else inr data
  | _ => inr data
  end.

Section Rg.
Context {EC : EthCrypto} {KL : KeyLib} {RL : RlpLib}.
Context {CU : Codec TrxPayloadUnstakingProto} {CW : Codec TrxPayloadWithdrawProto}
        {CPP : Codec TrxPayloadProposalProto} {CV : Codec TrxPayloadVotingProto}
        {CC : Codec TrxPayloadContractProto} {CSD : Codec TrxPayloadSetDocProto} {CT : Codec TrxProto}.
Context {N G : Type} (prov_Call : string -> JSONRpcReq -> GoM N JSONRpcResp) (json_args : list rpcArg -> string + list Byte.byte).
Context {JC : JsonRead ResultBroadcastTxCommit} {ProofOps : Type} {JQ : JsonRead (ResponseQuery (ProofOps := ProofOps))} {JA : JsonRead AccountJSON}.
Context {JG : JsonRead G} (gen_ChainID : G -> string) {D : DecCodec} (u256_FromHex : string -> string + Z).
Context {FS : FileSystem} {CJ : Codec WalletKeyJSON} (json_indent : Account -> string + list Byte.byte).
Context (flags : RootFlags).

(** The state: memory, files and the network. *)
Abbreviation RgS := ((mem * Disk) * N)%type.
Definition on_net {A} (m : GoM N A) : GoM RgS A := zoom lens_snd m.
Definition on_files {A} (m : GoM (mem * Disk) A) : GoM RgS A := zoom lens_fst m.
Definition provider : JSONRpcReq -> GoM N JSONRpcResp := prov_Call (hp_url (NewHttpProvider (rf_RPCUrl flags) [])).
Definition new_web3 : GoM RgS RigoWeb3 := on_net (NewRigoWeb3 provider json_args gen_ChainID).

(** A call of the client library; the client itself is not used afterwards. *)
Definition with_web3 {A} (rw : RigoWeb3) (m : GoM (RigoWeb3 * N) A) : GoM RgS A := fun s =>
  let '(r, (_, n)) := m (rw, s.2) in (r, (s.1, n)).
(** A method of the wallet; the wallet afterwards. *)
Definition with_wallet {A} (m : GoM ((Wallet * mem) * (RigoWeb3 * N)) A) : GoM (RgS * (Wallet * RigoWeb3)) A := fun s =>
  let '(r, ((w, mm), (rw, n))) := m ((s.2.1, s.1.1.1), (s.2.2, s.1.2)) in (r, (((mm, s.1.1.2), n), (w, rw))).

Definition account : GoM RgS (list Byte.byte) :=
  let! rw := new_web3 in
  let! acct := with_web3 rw (GetAccount provider json_args u256_FromHex (rf_To flags)) in
  match json_indent acct with inl err => errM (NewOrdinary err) | inr out => retM out end.

(** The passphrase is fixed; the results of synchronising and of unlocking are
    not looked at.  The text of a refusal is the log of the node. *)
Definition transfer_wallet (now : Z) : GoM (RgS * (Wallet * RigoWeb3)) unit :=
  do! ignoreM (with_wallet (SyncAccount provider json_args u256_FromHex)) in
  do! ignoreM (with_wallet (Wallet_Unlock (Some (String.list_byte_of_string "1111")))) in
  let! gasPrice := liftO (MustFromDecimal (rf_GasPrice flags)) in
  let! amount := liftO (MustFromDecimal (rf_Amount flags)) in
  let! ret := with_wallet (TransferCommit provider json_args now (rf_Gas flags) gasPrice (rf_To flags) amount) in
  if negb (bt_CheckCode ret =? 0) then errM (NewOrdinary "CheckTx.Log")
  else if negb (bt_DeliverCode ret =? 0) then errM (NewOrdinary "DeliverTx.Log")
  else retM tt.

Definition transfer (now : Z) : GoM RgS unit :=
  let! rw := new_web3 in
  if bool_decide (rf_From flags = "") then errM (NewOrdinary "please set the wallet key file of sender")
  else
    let! w := on_files (OpenWallet (rf_From flags)) in
    fun s => let '(r, (s', _)) := transfer_wallet now (s, (w, rw)) in (r, s').
End Rg.
