(* ===== verification/CommandTree.v ===== *)
(** * Commands and their flags

    The three programs of the repository, [rigo] ([cmd/]), [sfeeder] ([sfeeder/])
    and [rg] ([libs/cli/]), as data: their commands with names, aliases and flags.
    A flag has a name, a shorthand, a default and a text.  What the commands do is
    in Commands.v, FeederCmds.v and Prompt.v; the parsing of arguments is cobra's. *)

From Stdlib Require Import Strings.Byte.
From S2P Require Import Prelude Xerrors GoSem Bytes.
Open Scope string_scope.

Inductive flagValue : Type :=
  | FString (s : string)
  | FBool (b : bool)
  | FInt (z : Z)
  | FUint64 (z : Z)
  | FBytesHex (bz : list Byte.byte)
  | FStrings (l : list string).
Record flag : Type := mkFlag { fl_name : string; fl_short : string; fl_default : flagValue; fl_usage : string }.
(** [cmd.Flags().String(name, default, usage)] and the variant with a shorthand. *)
Definition Flag (name : string) (d : flagValue) (usage : string) : flag := mkFlag name "" d usage.
Definition FlagP (name short : string) (d : flagValue) (usage : string) : flag := mkFlag name short d usage.

(** [cm_PreRun]: whether [deprecateSnakeCase] runs first. *)
Record command : Type := mkCommand {
  cm_Use : string; cm_Aliases : list string; cm_Short : string; cm_PreRun : bool; cm_Flags : list flag; cm_Persistent : list flag;
}.

(** The fields of Tendermint's configuration that are defaults of flags. *)
Record tmConfig : Type := mkTmConfig {
  tc_LogLevel : string; tc_Moniker : string; tc_PrivValidatorListenAddr : string; tc_FastSyncMode : bool; tc_DoubleSignCheckHeight : Z;
  tc_ProxyApp : string; tc_ABCI : string; tc_RPCListenAddress : string; tc_CORSAllowedOrigins : list string; tc_GRPCListenAddress : string;
  tc_Unsafe : bool; tc_PprofListenAddress : string; tc_MaxSubscriptionClients : Z; tc_P2PListenAddress : string; tc_Seeds : string;
  tc_PersistentPeers : string; tc_UnconditionalPeerIDs : string; tc_UPNP : bool; tc_PexReactor : bool; tc_SeedMode : bool; tc_PrivatePeerIDs : string;
  tc_CreateEmptyBlocks : bool; tc_CreateEmptyBlocksInterval : string; tc_DBBackend : string; tc_DBPath : string;
}.

(** ** [rigo] *)
Definition secret_flag : flag :=
  Flag "priv_validator_secret" (FString "") "passphrase to encrypt and decrypt a private key in priv_validator_key.json".

Section Rigo.
Context (c : tmConfig).

Definition registerFlagsRootCmd : list flag := [Flag "log_level" (FString (tc_LogLevel c)) "log level"].

Definition AddNodeFlags : list flag := [
  Flag "moniker" (FString (tc_Moniker c)) "rigo name";
  Flag "priv_validator_laddr" (FString (tc_PrivValidatorListenAddr c)) "socket address to listen on for connections from external priv_validator process";
  secret_flag;
  Flag "priv_validator_secret_feeder" (FString "") "socket address to listen on for connections from external priv_validator process";
  Flag "fast_sync" (FBool (tc_FastSyncMode c)) "fast blockchain syncing";
  Flag "genesis_hash" (FBytesHex []) "optional SHA-256 hash of the genesis file";
  Flag "consensus.double_sign_check_height" (FInt (tc_DoubleSignCheckHeight c))
    "how many blocks to look back to check existence of the rigo's consensus votes before joining consensus";
  Flag "proxy_app" (FString (tc_ProxyApp c))
    "proxy app address, or one of: 'kvstore', 'persistent_kvstore', 'counter', 'counter_serial' or 'noop' for local testing.";
  Flag "abci" (FString (tc_ABCI c)) "specify abci transport (socket | grpc)";
  Flag "rpc.laddr" (FString (tc_RPCListenAddress c)) "RPC listen address. Port required";
  Flag "rpc.cors_allowed_origins" (FStrings (tc_CORSAllowedOrigins c)) "";
  Flag "rpc.grpc_laddr" (FString (tc_GRPCListenAddress c)) "GRPC listen address (BroadcastTx only). Port required";
  Flag "rpc.unsafe" (FBool (tc_Unsafe c)) "enabled unsafe provider methods";
  Flag "rpc.pprof_laddr" (FString (tc_PprofListenAddress c)) "pprof listen address (https://golang.org/pkg/net/http/pprof)";
  Flag "rpc.max_subscription_clients" (FInt (tc_MaxSubscriptionClients c)) "Maximum number of unique clientIDs that can /subscribe";
  Flag "p2p.laddr" (FString (tc_P2PListenAddress c)) "rigo listen address. (0.0.0.0:0 means any interface, any port)";
  Flag "p2p.seeds" (FString (tc_Seeds c)) "comma-delimited ID@host:port seed nodes";
  Flag "p2p.persistent_peers" (FString (tc_PersistentPeers c)) "comma-delimited ID@host:port persistent peers";
  Flag "p2p.unconditional_peer_ids" (FString (tc_UnconditionalPeerIDs c)) "comma-delimited IDs of unconditional peers";
  Flag "p2p.upnp" (FBool (tc_UPNP c)) "enable/disable UPNP port forwarding";
  Flag "p2p.pex" (FBool (tc_PexReactor c)) "enable/disable Peer-Exchange";
  Flag "p2p.seed_mode" (FBool (tc_SeedMode c)) "enable/disable seed mode";
  Flag "p2p.private_peer_ids" (FString (tc_PrivatePeerIDs c)) "comma-delimited private peer IDs";
  Flag "consensus.create_empty_blocks" (FBool (tc_CreateEmptyBlocks c))
    "set this to false to only produce blocks when there are txs or when the AppHash changes";
  Flag "consensus.create_empty_blocks_interval" (FString (tc_CreateEmptyBlocksInterval c)) "the possible interval between empty blocks";
  Flag "db_backend" (FString (tc_DBBackend c)) "database backend: goleveldb | cleveldb | boltdb | rocksdb | badgerdb";
  Flag "db_dir" (FString (tc_DBPath c)) "database directory" ].

Definition AddInitFlags : list flag := [
  Flag "chain_id" (FString "mainnet") "the id of chain to generate (e.g. mainnet, testnet, devnet and others)";
  Flag "holders" (FInt 9)
    "the number of holder's accounts to generate. if you create a new genesis of your own blockchain, you need to generate accounts of genesis holders and these accounts will be saved at $RIGOHOME/walkeys";
  secret_flag ].
Definition AddWalletKeyCmdFlag : list flag := [
  FlagP "passphrase" "p" (FString "") "passphrase to encrypt and decrypt a private key in a wallet key files";
  FlagP "change-passphrase" "c" (FBool false) "Change passphrase of a wallet key file" ].
(** [init] of reset.go: the flags of the two reset commands. *)
Definition reset_flags : list flag := [Flag "keep-addr-book" (FBool false) "keep the address book intact"; secret_flag].

Definition NewInitFilesCmd : command := mkCommand "init" [] "Initialize a rigo" false AddInitFlags [].
Definition NewRunNodeCmd : command := mkCommand "start" ["run"] "Run the rigo" false AddNodeFlags [].
Definition ResetAllCmd : command :=
  mkCommand "unsafe-reset-all" ["unsafe_reset_all"] "(unsafe) Remove all the data and WAL, reset this rigo's validator to genesis state" true reset_flags [].
Definition ResetPrivValidatorCmd : command :=
  mkCommand "unsafe-reset-priv-validator" ["unsafe_reset_priv_validator"] "(unsafe) Reset this rigo's validator to genesis state" true [secret_flag] [].
Definition ShowNodeIDCmd : command := mkCommand "show-node-id" ["show_node_id"] "Show this node's ID" true [] [].
Definition NewWalletKeyCmd : command := mkCommand "wallet-key" ["wallet_key"] "Wallet key file management" true AddWalletKeyCmdFlag [].
Definition VersionCmd : command := mkCommand "version" [] "Show version info" false [] [].

(** [main] of cmd/main.go; Tendermint's [cli.PrepareBaseCmd] adds [home] and [trace]. *)
Definition rigo_commands : list command :=
  [NewInitFilesCmd; ResetPrivValidatorCmd; ResetAllCmd; NewRunNodeCmd; ShowNodeIDCmd; NewWalletKeyCmd; VersionCmd].
Definition rigo_persistent : list flag :=
  registerFlagsRootCmd ++ [Flag "home" (FString "") "directory for config and data"; Flag "trace" (FBool false) "print out full stack trace on errors"].
End Rigo.

(** The message about commands with an underscore in the name they were called by. *)
Definition deprecateSnakeCase (calledAs : string) : list string :=
  if existsb (fun b => bool_decide (b = Byte.x5f)) (String.list_byte_of_string calledAs)
  then ["Deprecated: snake_case commands will be replaced by hyphen-case commands in the next major release"] else [].

(** ** [sfeeder] *)
Definition prepareBaseCmd : list flag := [FlagP "pass" "p" (FString "") "-"; FlagP "data" "d" (FString "") "-"].
Definition addStartFlags : list flag := [FlagP "laddr" "l" (FString "127.0.0.1:9900") "-"].
Definition addGetSecretFlags : list flag := [FlagP "addr" "a" (FBytesHex []) "-"].
Definition addSetSecretFlags : list flag := [FlagP "addrs" "a" (FStrings []) "-"].
Definition addRemoveAllFlags : list flag := [FlagP "data" "d" (FString "") "-"].
Definition NewCmd_Start : command := mkCommand "start" ["run"] "start sfeeder server" false [] addStartFlags.
Definition NewCmd_GetSecret : command := mkCommand "get" ["read"; "show"] "get secret" false [] addGetSecretFlags.
Definition NewCmd_SetSecret : command := mkCommand "set" ["new"; "add"] "add secret" false [] addSetSecretFlags.
Definition NewCmd_RemoveAll : command := mkCommand "remove" ["clear"] "remove all secrets" false [] addRemoveAllFlags.
Definition NewCmd_Base : list command := [NewCmd_SetSecret; NewCmd_GetSecret; NewCmd_Start; NewCmd_RemoveAll].

(** ** [rg] *)
Definition PrepareBaseCmd : list flag := [
  Flag "rpc" (FString "http://localhost:26657") "RPC Node URL";
  FlagP "from" "f" (FString "") "wallet key file of sender";
  FlagP "to" "t" (FBytesHex (ZeroBytes 20)) "an address of receiver";
  FlagP "gas" "g" (FUint64 0) "gas";
  FlagP "gas_price" "p" (FString "0") "gas price";
  FlagP "amt" "a" (FString "0") "amount to transfer" ].
Definition NewCmd_Account : command := mkCommand "account" [] "get account" false [] [].
Definition NewCmd_Transfer : command := mkCommand "transfer" [] "transfer RIGO coin" false [] [].
Definition rg_commands : list command := [NewCmd_Account; NewCmd_Transfer].

(** ** No two meanings

    cobra panics when a flag is defined twice in one command, or when two flags
    that are both in force share a shorthand. *)
Definition names_of (cmd : command) : list string := cm_Use cmd :: cm_Aliases cmd.
Definition own_flags (cmd : command) : list flag := cm_Flags cmd ++ cm_Persistent cmd.
(** The inherited flags that the command does not define itself. *)
Definition inherited (parent : list flag) (cmd : command) : list flag :=
  List.filter (fun f => negb (existsb (fun g => bool_decide (fl_name g = fl_name f)) (own_flags cmd))) parent.
Definition in_force (parent : list flag) (cmd : command) : list flag := own_flags cmd ++ inherited parent cmd.
Definition shorthands (fs : list flag) : list string := List.filter (fun s => negb (bool_decide (s = ""))) (map fl_short fs).
Definition well_formed (parent : list flag) (cmds : list command) : Prop :=
  NoDup (concat (map names_of cmds)) /\
  Forall (fun cmd => NoDup (map fl_name (in_force parent cmd)) /\ NoDup (shorthands (in_force parent cmd))) cmds.
#[export] Instance well_formed_dec parent cmds : Decision (well_formed parent cmds).
Proof. unfold well_formed. apply _. Defined.

(** Every name and alias calls one command, and no flag or shorthand is defined twice, whatever the configuration. *)
Lemma commands_well_formed (c : tmConfig) :
  well_formed (rigo_persistent c) (rigo_commands c) /\ well_formed prepareBaseCmd NewCmd_Base /\ well_formed PrepareBaseCmd rg_commands.
Proof. destruct c. split; [|split]; (match goal with |- ?P => apply (bool_decide_unpack P) end; vm_compute; exact I). Qed.

(** The message is printed exactly for the old aliases. *)
Lemma deprecated_aliases (c : tmConfig) cmd n : cmd ∈ rigo_commands c -> n ∈ names_of cmd ->
  deprecateSnakeCase n <> [] -> n ∈ cm_Aliases cmd /\ cm_PreRun cmd = true.
Proof.
  intros Hc Hn Hd. unfold rigo_commands in Hc. repeat (apply elem_of_cons in Hc as [->|Hc]); [..|by apply not_elem_of_nil in Hc];
    cbn in Hn; repeat (apply elem_of_cons in Hn as [->|Hn]); try (by apply not_elem_of_nil in Hn); try (by exfalso; apply Hd; vm_compute);
    (split; [cbn; by apply elem_of_cons; left|done]).
Qed.
