(* ===== verification/Frame.v ===== *)
(** * What reaches the disk

    Between two commits every call works on the caches of the ledgers: the
    trees, the database of the metadata and the stored hash of the rewards stay
    as the last [Commit] left them, whatever the calls return.  [fixes f m]: the
    computation [m] does not change the part [f] of the state, also when it
    fails or panics. *)

From Stdlib Require Import Strings.Byte.
From S2P Require Import Prelude Xerrors GoSem Bytes Crypto Ledger LedgerSpec GovParams Account Trx Context AcctCtrler.
From S2P Require Import Stake StakeLimiter StakeCtrler Proposal GovCtrler Executor MetaDB App.

Definition fixes {S A D} (f : S -> D) (m : GoM S A) : Prop := forall s, f (m s).2 = f s.

Create HintDb frame discriminated.

Section Fixes.
Context {S D : Type} (f : S -> D).

Lemma fixes_bind {A B} (m : GoM S A) (k : A -> GoM S B) : fixes f m -> (forall a, fixes f (k a)) -> fixes f (bindM m k).
Proof. intros Hm Hk s. unfold bindM. specialize (Hm s). destruct (m s) as [[a|e|] s1]; cbn in *; [|done..]. by rewrite Hk. Qed.
Lemma fixes_ret {A} (a : A) : fixes f (retM a). Proof. done. Qed.
Lemma fixes_err {A} e : fixes f (errM (A := A) e). Proof. done. Qed.
Lemma fixes_panic {A} : fixes f (panicM (A := A)). Proof. done. Qed.
Lemma fixes_lift {A} (o : outcome A) : fixes f (liftO o). Proof. done. Qed.
Lemma fixes_gets {A} (g : S -> A) : fixes f (getsM g). Proof. done. Qed.
Lemma fixes_get : fixes f getM. Proof. done. Qed.
Lemma fixes_modify g : (forall s, f (g s) = f s) -> fixes f (modifyM g). Proof. intros H s. apply H. Qed.
Lemma fixes_try {A} (m : GoM S A) : fixes f m -> fixes f (tryM m).
Proof. intros Hm s. specialize (Hm s). unfold tryM. by destruct (m s) as [[a|e|] s1]. Qed.
Lemma fixes_ignore {A} (m : GoM S A) : fixes f m -> fixes f (ignoreM m).
Proof. intros Hm s. specialize (Hm s). unfold ignoreM. by destruct (m s) as [[a|e|] s1]. Qed.
Lemma fixes_must {A} (m : GoM S A) : fixes f m -> fixes f (mustM m).
Proof. intros Hm. unfold mustM. apply fixes_bind; [by apply fixes_try|by intros []]. Qed.
Lemma fixes_forM {A} (l : list A) (g : A -> GoM S unit) : (forall x, fixes f (g x)) -> fixes f (forM_ l g).
Proof. intros Hg. induction l as [|x l IH]; cbn [forM_]; [done|by apply fixes_bind]. Qed.
Lemma fixes_foldM {A B} (g : B -> A -> GoM S B) (l : list A) b : (forall b x, fixes f (g b x)) -> fixes f (foldM g l b).
Proof. intros Hg. revert b. induction l as [|x l IH]; intros b; cbn [foldM]; [done|by apply fixes_bind]. Qed.

(** Through a lens, when the part seen there determines [f]. *)
Lemma fixes_zoom {A B E} (l : lens S A) (g : A -> E) (m : GoM A B) :
  (forall a s, g a = g (lget l s) -> f (lset l a s) = f s) -> fixes g m -> fixes f (zoom l m).
Proof. intros Hl Hm s. unfold zoom. specialize (Hm (lget l s)). destruct (m (lget l s)) as [r a]. by apply Hl. Qed.
End Fixes.

Ltac frame_tac :=
  repeat first
    [ solve [eauto with frame nocore]
    | apply fixes_bind; [|intros ?]
    | apply fixes_ret | apply fixes_err | apply fixes_panic | apply fixes_lift | apply fixes_gets | apply fixes_get
    | apply fixes_modify; by intros
    | apply fixes_try | apply fixes_ignore | apply fixes_must | apply fixes_forM; intros ? | apply fixes_foldM; intros ? ?
    | case_match ].

(** ** One ledger *)
Section LedgerFrame.
Context {T Tr : Type} {Item : ILedgerItem T} {Tree : Iavl Tr}.
Abbreviation L := (FinalityLedger T Tr).

Lemma fixes_mem sd g : fixes tree (modifyM (upd_mem (T := T) (Tr := Tr) sd g)).
Proof. by intros s; destruct sd. Qed.
Hint Resolve fixes_mem : frame.
Lemma fixes_alloc (x : T) : fixes tree (alloc (Tr := Tr) x). Proof. intros s. unfold alloc. by destruct (heap_alloc x (lheap s)). Qed.
Lemma fixes_load p : fixes tree (load (T := T) (Tr := Tr) p). Proof. intros s. unfold load. by destruct (objs (lheap s) !! p). Qed.
Lemma fixes_store p (x : T) : fixes tree (store (Tr := Tr) p x). Proof. done. Qed.
Lemma fixes_read k : fixes tree (read (T := T) (Tr := Tr) k). Proof. intros s. unfold read. by repeat case_match. Qed.
Lemma fixes_immutable n : fixes tree (ImmutableLedgerAt (T := T) (Tr := Tr) n). Proof. intros s. unfold ImmutableLedgerAt. by case_match. Qed.
Hint Resolve fixes_alloc fixes_load fixes_store fixes_read : frame.
Lemma fixes_get_on sd k : fixes tree (get_on (T := T) (Tr := Tr) sd k). Proof. unfold get_on. frame_tac. Qed.
Hint Resolve fixes_get_on : frame.
Lemma fixes_get_opt sd k : fixes tree (get_opt (T := T) (Tr := Tr) sd k). Proof. unfold get_opt. frame_tac. Qed.
Lemma fixes_load_opt o : fixes tree (load_opt (T := T) (Tr := Tr) o). Proof. unfold load_opt. frame_tac. Qed.
Lemma fixes_set_on sd p : fixes tree (set_on (T := T) (Tr := Tr) sd p). Proof. unfold set_on. frame_tac. Qed.
Lemma fixes_cancel_set sd k : fixes tree (cancel_set_on (T := T) (Tr := Tr) sd k). Proof. unfold cancel_set_on. frame_tac. Qed.
Lemma fixes_del_on sd k : fixes tree (del_on (T := T) (Tr := Tr) sd k). Proof. unfold del_on. frame_tac. Qed.
Hint Resolve fixes_del_on : frame.
Lemma fixes_del_finality k : fixes tree (DelFinality (T := T) (Tr := Tr) k). Proof. unfold DelFinality. frame_tac. Qed.
Hint Resolve fixes_del_finality : frame.
Lemma fixes_del_for b k : fixes tree (del_for (T := T) (Tr := Tr) b k). Proof. unfold del_for, Del. frame_tac. Qed.

Lemma fixes_iterate {S D} (f : S -> D) (l : lens S L) cb : (forall x, fixes f (cb x)) -> fixes f (IterateReadAllItems l cb).
Proof. intros Hcb. unfold IterateReadAllItems. frame_tac. Qed.
End LedgerFrame.
#[export] Hint Resolve fixes_mem fixes_alloc fixes_load fixes_store fixes_read fixes_immutable fixes_get_on fixes_get_opt fixes_load_opt : frame.
#[export] Hint Resolve fixes_set_on fixes_cancel_set fixes_del_on fixes_del_finality fixes_del_for : frame.

(** ** The controllers *)
Section ControllerFrames.
Context {Tr : Type} {Tree : Iavl Tr}.
Context {CA : Codec AcctProto} {CS : Codec Stake} {CD : Codec Delegatee} {CR : Codec RewardProto}.
Context {CGP : Codec GovParamsProto} {CGJ : Codec GovParamsJSON} {D : DecCodec} {CP : Codec GovProposal}.
Context (tmjson_Unmarshal : (list Byte.byte -> string + GovParams) -> list Byte.byte -> string + GovParams).

(** *** Accounts *)
Lemma fixes_acct_method p g : fixes tree (acct_method (Tr := Tr) p g). Proof. unfold acct_method. frame_tac. Qed.
Lemma fixes_committable p b : fixes tree (setAccountCommittable (Tr := Tr) p b). Proof. unfold setAccountCommittable. frame_tac. Qed.
Lemma fixes_find a b : fixes tree (findAccount (Tr := Tr) a b). Proof. unfold findAccount. frame_tac. Qed.
Hint Resolve fixes_acct_method fixes_committable fixes_find : frame.
Lemma fixes_find_or_new a b : fixes tree (findOrNewAccount (Tr := Tr) a b). Proof. unfold findOrNewAccount. frame_tac. Qed.
Lemma fixes_transfer p q z : fixes tree (transfer (Tr := Tr) p q z). Proof. unfold transfer. frame_tac. Qed.
Hint Resolve fixes_find_or_new fixes_transfer : frame.
Lemma fixes_acct_reward a z b : fixes tree (AcctCtrler_Reward (Tr := Tr) a z b). Proof. unfold AcctCtrler_Reward. frame_tac. Qed.
Lemma fixes_acct_validate ctx : fixes tree (AcctCtrler_ValidateTrx (Tr := Tr) ctx). Proof. unfold AcctCtrler_ValidateTrx. frame_tac. Qed.
Lemma fixes_acct_execute ctx : fixes tree (AcctCtrler_ExecuteTrx (Tr := Tr) ctx). Proof. unfold AcctCtrler_ExecuteTrx, setDoc. frame_tac. Qed.
Lemma fixes_acct_endblock b : fixes tree (AcctCtrler_EndBlock (Tr := Tr) b). Proof. unfold AcctCtrler_EndBlock. frame_tac. Qed.
Lemma fixes_acct_query h d : fixes tree (AcctCtrler_Query (Tr := Tr) h d). Proof. unfold AcctCtrler_Query. frame_tac. Qed.

(** *** Stakes, with the accounts *)
Abbreviation W := (@StakeCtrler Tr * FinalityLedger Account Tr)%type.
Definition stake_disk (c : @StakeCtrler Tr) : Tr * Tr * Tr * list Byte.byte :=
  (tree (sc_delegateeLedger c), tree (sc_frozenLedger c), tree (sc_rewardLedger c), sc_rwdHashDB c).
Definition stake_acct_disk (w : W) := (stake_disk w.1, tree w.2).

Lemma fixes_on_delegatees {B} (m : GoM _ B) : fixes tree m -> fixes stake_acct_disk (on_delegatees m).
Proof. apply fixes_zoom. intros a [c x]. unfold stake_acct_disk, stake_disk. cbn. by intros ->. Qed.
Lemma fixes_on_frozen {B} (m : GoM _ B) : fixes tree m -> fixes stake_acct_disk (on_frozen m).
Proof. apply fixes_zoom. intros a [c x]. unfold stake_acct_disk, stake_disk. cbn. by intros ->. Qed.
Lemma fixes_on_rewards {B} (m : GoM _ B) : fixes tree m -> fixes stake_acct_disk (on_rewards m).
Proof. apply fixes_zoom. intros a [c x]. unfold stake_acct_disk, stake_disk. cbn. by intros ->. Qed.
Lemma fixes_on_limiter {B} (m : GoM StakeLimiter B) : fixes stake_acct_disk (on_limiter m).
Proof. apply (fixes_zoom _ _ (fun _ => tt)); [|done]. by intros a [c x]. Qed.
Lemma fixes_on_accounts {B} (m : GoM _ B) : fixes tree m -> fixes stake_acct_disk (on_accounts m).
Proof. apply fixes_zoom. intros a [c x]. unfold stake_acct_disk. cbn. by intros ->. Qed.
Lemma fixes_set_all l : fixes stake_acct_disk (modify_ctrler (fun c => set_all (l c) c)). Proof. done. Qed.
Lemma fixes_set_last l : fixes stake_acct_disk (modify_ctrler (set_last l)). Proof. done. Qed.
Hint Resolve fixes_set_all fixes_set_last fixes_on_limiter : frame.

Ltac stake_tac :=
  repeat first
    [ progress frame_tac
    | apply fixes_on_delegatees | apply fixes_on_frozen | apply fixes_on_rewards | apply fixes_on_accounts
    | apply fixes_iterate; intros ? | by intros [] ].

Lemma fixes_delegatee_method {B} p (g : Delegatee -> B * Delegatee) : fixes stake_acct_disk (delegatee_method p g).
Proof. unfold delegatee_method. stake_tac. Qed.
Lemma fixes_freeze sd h s : fixes stake_acct_disk (freeze sd h s).
Proof. unfold freeze. stake_tac. Qed.
Hint Resolve @fixes_delegatee_method fixes_freeze : frame.

Lemma fixes_stake_begin g b : fixes stake_acct_disk (StakeCtrler_BeginBlock g b).
Proof.
  unfold StakeCtrler_BeginBlock, collect_delegatees, punish_all, doPunish, process_vote, reward_vote, miss_vote, doRewardTo, reward_stake. stake_tac.
Qed.
Lemma fixes_stake_validate g ctx : fixes stake_acct_disk (StakeCtrler_ValidateTrx g ctx).
Proof. unfold StakeCtrler_ValidateTrx, validate_staking, validate_unstaking, validate_withdraw, check_ratio. stake_tac. Qed.
Lemma fixes_stake_execute g ctx : fixes stake_acct_disk (StakeCtrler_ExecuteTrx g ctx).
Proof.
  unfold StakeCtrler_ExecuteTrx, exeStaking, exeUnstaking, exeWithdraw.
  cbn [Transfer Reward SetAccountCommittable load_account on_account AcctCtrler_handler]. stake_tac; apply fixes_acct_reward.
Qed.
Lemma fixes_stake_end g b : fixes stake_acct_disk (StakeCtrler_EndBlock g b).
Proof.
  unfold StakeCtrler_EndBlock, unfreezingStakes, updateValidators. cbn [Reward AcctCtrler_handler]. stake_tac; apply fixes_acct_reward.
Qed.
Lemma fixes_stake_query g p h d : fixes stake_acct_disk (StakeCtrler_Query g p h d).
Proof. unfold StakeCtrler_Query. stake_tac. Qed.

(** *** Governance *)
Definition gov_disk (c : @GovCtrler Tr) : Tr * Tr * Tr :=
  (tree (gc_paramsLedger c), tree (gc_proposalLedger c), tree (gc_frozenLedger c)).

Lemma fixes_on_params {B} (m : GoM _ B) : fixes tree m -> fixes gov_disk (zoom l_params m).
Proof. apply fixes_zoom. intros a c. unfold gov_disk. cbn. by intros ->. Qed.
Lemma fixes_on_proposals {B} (m : GoM _ B) : fixes tree m -> fixes gov_disk (zoom l_proposals m).
Proof. apply fixes_zoom. intros a c. unfold gov_disk. cbn. by intros ->. Qed.
Lemma fixes_on_gfrozen {B} (m : GoM _ B) : fixes tree m -> fixes gov_disk (zoom l_gfrozen m).
Proof. apply fixes_zoom. intros a c. unfold gov_disk. cbn. by intros ->. Qed.
Lemma fixes_on_ctrler {B C} (m : GoM (@GovCtrler Tr) C) : fixes gov_disk m -> fixes (fun s : @GovCtrler Tr * B => gov_disk s.1) (on_ctrler m).
Proof. apply fixes_zoom. by intros a [c x]. Qed.
Lemma fixes_with_locals {B} (b : B) m : fixes (fun s : @GovCtrler Tr * B => gov_disk s.1) m -> fixes gov_disk (with_locals b m).
Proof. intros Hm c. unfold with_locals. specialize (Hm (c, b)). by destruct (m (c, b)) as [[u|e|] [c' b']]. Qed.
Lemma fixes_add_local {B} (g : B -> B) : fixes (fun s : @GovCtrler Tr * B => gov_disk s.1) (add_local g).
Proof. done. Qed.
Hint Resolve @fixes_add_local : frame.

Ltac gov_tac :=
  repeat first
    [ progress frame_tac
    | apply fixes_on_params | apply fixes_on_proposals | apply fixes_on_gfrozen | apply fixes_on_ctrler | apply fixes_with_locals
    | apply fixes_iterate; intros ? | by intros [] ].

Lemma fixes_gov_begin b : fixes gov_disk (GovCtrler_BeginBlock b).
Proof. unfold GovCtrler_BeginBlock, GovCtrler_doPunish, target_keys, punish_proposal. gov_tac. Qed.
Lemma fixes_gov_validate (sh : @StakeCtrler Tr) ctx : fixes gov_disk (GovCtrler_ValidateTrx tmjson_Unmarshal sh ctx).
Proof. unfold GovCtrler_ValidateTrx, validate_proposal, validate_voting. gov_tac. Qed.
Lemma fixes_gov_execute (sh : @StakeCtrler Tr) ctx : fixes gov_disk (GovCtrler_ExecuteTrx sh ctx).
Proof. unfold GovCtrler_ExecuteTrx, execProposing, execVoting. gov_tac. Qed.
Lemma fixes_gov_end b : fixes gov_disk (GovCtrler_EndBlock tmjson_Unmarshal b).
Proof. unfold GovCtrler_EndBlock, freezeProposals, applyProposals, freeze_proposal, apply_proposal, take_params. gov_tac. Qed.
Lemma fixes_gov_query p h d : fixes gov_disk (GovCtrler_Query (Tr := Tr) p h d).
Proof. unfold GovCtrler_Query. gov_tac. Qed.
End ControllerFrames.
#[export] Hint Resolve fixes_acct_method fixes_committable fixes_find fixes_find_or_new fixes_acct_validate fixes_acct_execute fixes_acct_endblock fixes_acct_query : frame.
#[export] Hint Resolve fixes_stake_begin fixes_stake_validate fixes_stake_execute fixes_stake_end fixes_stake_query : frame.
#[export] Hint Resolve fixes_gov_begin fixes_gov_validate fixes_gov_execute fixes_gov_end fixes_gov_query : frame.

(** What a controller of the EVM promises: between commits neither its databases
    ([vm_disk]) nor the tree of the accounts change, and its commit leaves the
    accounts alone. *)
Class VMFrame {Tr E VD : Type} {VM : IVMHandler E (FinalityLedger Account Tr)} (vm_disk : E -> VD) : Prop := {
  vm_validate_fixes : forall ctx, fixes (fun s => (vm_disk s.1, tree s.2)) (vm_ValidateTrx ctx);
  vm_execute_fixes : forall g, fixes (fun s => (vm_disk s.1.1, tree s.1.2)) (vm_ExecuteTrx g);
  vm_begin_fixes : forall b, fixes (fun s => (vm_disk s.1, tree s.2)) (vm_BeginBlock b);
  vm_end_fixes : forall b, fixes (fun s => (vm_disk s.1, tree s.2)) (vm_EndBlock b);
  vm_commit_accounts : fixes snd vm_Commit;
}.
#[export] Hint Resolve vm_validate_fixes vm_execute_fixes vm_begin_fixes vm_end_fixes : frame.

(** ** The application *)
Section AppFrame.
Context {Tr E DB VD : Type} {Tree : Iavl Tr} {TDB : TmDB DB} {CB : Codec BlockContextJSON}.
Context {CA : Codec AcctProto} {CS : Codec Stake} {CD : Codec Delegatee} {CR : Codec RewardProto}.
Context {CGP : Codec GovParamsProto} {CGJ : Codec GovParamsJSON} {D : DecCodec} {CP : Codec GovProposal}.
Context {RL : RlpLib} {SL : EthCrypto}.
Context {CU : Codec TrxPayloadUnstakingProto} {CW : Codec TrxPayloadWithdrawProto}
        {CPP : Codec TrxPayloadProposalProto} {CV : Codec TrxPayloadVotingProto}
        {CC : Codec TrxPayloadContractProto} {CSD : Codec TrxPayloadSetDocProto} {CT : Codec TrxProto}.
Context {VM : IVMHandler E (FinalityLedger Account Tr)}.
Context (tmjson_Unmarshal : (list Byte.byte -> string + GovParams) -> list Byte.byte -> string + GovParams).
Context (tx_hash : list Byte.byte -> list Byte.byte).
Context (vm_Query : Z -> list Byte.byte -> GoM (@World Tr E) (list Byte.byte)).
Context (vm_disk : E -> VD).
Abbreviation app := (@RigoApp Tr E DB).

Definition world_disk (w : @World Tr E) : (Tr * Tr * Tr) * Tr * (Tr * Tr * Tr * list Byte.byte) * VD :=
  (gov_disk (w_gov w), tree (w_acct w), stake_disk (w_stake w), vm_disk (w_vm w)).
Definition app_disk (a : app) := (world_disk (app_world a), md_db (app_meta a)).

Context {VF : VMFrame vm_disk} (vm_query_fixes : forall h d, fixes world_disk (vm_Query h d)).

Lemma fixes_on_gov {B} (m : GoM _ B) : fixes gov_disk m -> fixes world_disk (zoom l_gov m).
Proof. apply fixes_zoom. intros a w. unfold world_disk. cbn. by intros ->. Qed.
Lemma fixes_on_acct {B} (m : GoM _ B) : fixes tree m -> fixes world_disk (zoom l_acct m).
Proof. apply fixes_zoom. intros a w. unfold world_disk. cbn. by intros ->. Qed.
Lemma fixes_on_stake {B} (m : GoM _ B) : fixes stake_acct_disk m -> fixes world_disk (zoom l_stake_acct m).
Proof. apply fixes_zoom. intros a w [H1 H2]%pair_equal_spec. unfold world_disk. cbn in *. by rewrite H1, H2. Qed.
Lemma fixes_on_vm {B} (m : GoM _ B) : fixes (fun s => (vm_disk s.1, tree s.2)) m -> fixes world_disk (zoom l_vm_acct m).
Proof. apply fixes_zoom. intros a w [H1 H2]%pair_equal_spec. unfold world_disk. cbn in *. by rewrite H1, H2. Qed.

Definition x_disk (x : @World Tr E * TrxContext) := world_disk x.1.
Lemma fixes_on_world {B} (m : GoM (@World Tr E) B) : fixes world_disk m -> fixes x_disk (on_world m).
Proof. apply fixes_zoom. by intros a [w c]. Qed.
Lemma fixes_vm_ctx {B} (m : GoM _ B) : fixes (fun s => (vm_disk s.1.1, tree s.1.2)) m -> fixes x_disk (zoom l_vm_ctx m).
Proof. apply fixes_zoom. intros a [w c] [H1 H2]%pair_equal_spec. unfold x_disk, world_disk. cbn in *. by rewrite H1, H2. Qed.
Lemma fixes_world {B} (m : GoM (@World Tr E) B) : fixes world_disk m -> fixes app_disk (world (DB := DB) m).
Proof. apply fixes_zoom. intros a s. unfold app_disk. cbn. by intros ->. Qed.
Lemma fixes_meta {B} (m : GoM (@MetaDB DB) B) : fixes md_db m -> fixes app_disk (meta m).
Proof. apply fixes_zoom. intros a s. unfold app_disk. cbn. by intros ->. Qed.
Lemma fixes_md_get k : fixes md_db (md_get (DB := DB) k).
Proof. intros m. unfold md_get. by repeat case_match. Qed.
Hint Resolve fixes_md_get : frame.

Ltac app_tac :=
  repeat first
    [ progress frame_tac
    | apply fixes_on_gov | apply fixes_on_acct | apply fixes_on_stake | apply fixes_on_vm | apply fixes_on_world | apply fixes_vm_ctx
    | apply fixes_world | apply fixes_meta | by intros [] ].

Lemma fixes_execute_sync : fixes x_disk (ExecuteSync tmjson_Unmarshal).
Proof using VF.
  unfold ExecuteSync, validateTrx, runTrx, commonValidation0, commonValidation1, validate_by_type, run_by_type, run_vm, postRunTrx, Sender_, Receiver_.
  app_tac.
Qed.
Lemma fixes_execute ctx : fixes app_disk (execute (DB := DB) tmjson_Unmarshal ctx).
Proof using VF.
  intros a. unfold execute. pose proof (fixes_execute_sync (app_world a, ctx)) as H.
  unfold x_disk in H. destruct (ExecuteSync _ _) as [[u|e|] x]; unfold app_disk; cbn in *; by rewrite H.
Qed.
Lemma fixes_upd_next g : fixes app_disk (upd_next (DB := DB) g).
Proof. unfold upd_next, next_ctx. app_tac. Qed.
Hint Resolve fixes_execute fixes_upd_next : frame.

(** The calls of the consensus engine between two commits.  [Commit] itself is
    not one of them: it is the call that writes to the disk. *)
Inductive abci_call : Type :=
  | CallInfo (now : Z)
  | CallCheckTx (interval : Z) (ty : CheckTxType) (tx : list Byte.byte)
  | CallBeginBlock (req : RequestBeginBlock)
  | CallDeliverTx (tx : list Byte.byte)
  | CallEndBlock
  | CallQuery (path : string) (height : Z) (data : list Byte.byte).
Definition run_call (c : abci_call) : GoM app unit :=
  match c with
  | CallInfo now => let! _ := Info now in retM tt
  | CallCheckTx interval ty tx => let! _ := CheckTx tmjson_Unmarshal tx_hash interval ty tx in retM tt
  | CallBeginBlock req => let! _ := App_BeginBlock req in retM tt
  | CallDeliverTx tx => let! _ := DeliverTx tmjson_Unmarshal tx_hash tx in retM tt
  | CallEndBlock => let! _ := App_EndBlock tmjson_Unmarshal in retM tt
  | CallQuery path height data => let! _ := App_Query vm_Query path height data in retM tt
  end.

Lemma fixes_new_context bz h t i b (cb : GoM app unit) : fixes app_disk cb -> fixes app_disk (new_context tx_hash bz h t i b cb).
Proof. intros Hcb. unfold new_context, new_trx_context. cbn [FindAccount FindOrNewAccount AcctCtrler_handler]. app_tac. Qed.

Lemma fixes_call c : fixes app_disk (run_call c).
Proof using VF vm_query_fixes.
  destruct c; cbn [run_call]; unfold Info, CheckTx, App_BeginBlock, DeliverTx, deliverTxSync, App_EndBlock, App_Query, query_value, last_ctx, next_ctx,
    LastBlockContext, LastBlockHeight, LastBlockAppHash, md_ChainID.
  all: repeat first [progress app_tac | apply fixes_new_context].
Qed.

Lemma fixes_calls cs : fixes app_disk (forM_ cs run_call).
Proof using VF vm_query_fixes. apply fixes_forM. apply fixes_call. Qed.
End AppFrame.
