(* ===== verification/Restart.v ===== *)
(** * Stopping and starting: [NewRigoApp] of [node/app.go]

    A node that stops, at whatever point of a block, and is started again opens
    its databases and is asked for the last block ([Info]).  The theorems: the
    ledgers, the parameters and the last block are those of the last [Commit];
    the list of validators that the stake controller keeps in memory is not
    restored. *)

From Stdlib Require Import Strings.Byte.
From S2P Require Import Prelude Xerrors GoSem Bytes Crypto Ledger LedgerSpec LedgerClient LedgerProps Concrete GovParams Account Trx Context.
From S2P Require Import AcctCtrler Stake StakeLimiter StakeCtrler Proposal GovCtrler Executor MetaDB App Frame.

(** [tree.Load()] on the database of a tree: the latest version. *)
Class IavlOpen (Tr : Type) := { iavl_Load : Tr -> string + Tr }.

(** The tree is at its newest saved version. *)
Definition newest {Tr : Type} {I : Iavl Tr} {V : IavlView Tr} (t : Tr) : Prop :=
  forall n, is_Some (tree_saved t !! n) -> n <= iavl_Version t.

Class IavlOpenLaws (Tr : Type) {I : Iavl Tr} {V : IavlView Tr} {O : IavlOpen Tr} : Prop := {
  iavl_Load_newest : forall t m, newest t -> tree_saved t !! iavl_Version t = Some m ->
    exists t', iavl_Load t = inr t' /\ tree_map t' = m /\ tree_saved t' = tree_saved t /\ iavl_Version t' = iavl_Version t;
  iavl_Load_version : forall t t', newest t -> iavl_Load t = inr t' -> iavl_Version t' = iavl_Version t;
}.

#[export] Instance mapTree_open : IavlOpen mapTree := {|
  iavl_Load t := inr (MapTree (default ∅ (mt_saved t !! mt_version t)) (mt_saved t) (mt_version t)) |}.
#[export] Instance mapTree_open_laws : IavlOpenLaws mapTree.
Proof. constructor; [intros t m _ Hm; eexists; split; [done|]; cbn in *; by rewrite Hm|by intros t t' _ [= <-]]. Qed.

(** ** One ledger *)
Section LedgerRestart.
Context {T Tr : Type} {Item : ILedgerItem T} {Tree : Iavl Tr} {View : IavlView Tr} {Open : IavlOpen Tr} (ok : T -> Prop).

(** [NewFinalityLedger] of ledger/finality_ledger.go *)
Definition OpenFinalityLedger (t : Tr) : outcome (FinalityLedger T Tr) :=
  match iavl_Load t with
  | inl e => Err (NewOrdinary e)
  | inr t' => Ret (NewFinalityLedger t')
  end.

(** [L2] shows what [L1] shows, and will commit to the same next version. *)
Definition same_ledger (L1 L2 : FinalityLedger T Tr) : Prop :=
  ledger_inv ok L2 /\ newest (tree L2) /\ iavl_Version (tree L2) = iavl_Version (tree L1) /\
  forall sd k, visible L2 sd k = visible L1 sd k.
Definition ledger_ready (L : FinalityLedger T Tr) : Prop := ledger_inv ok L /\ newest (tree L).

Context {Laws : IavlLaws Tr} {Total : IavlTotal Tr} {ItemLaws : LedgerItemLaws ok} {OLaws : IavlOpenLaws Tr}.

Lemma commit_reopen L h v L1 :
  ledger_ready L -> Commit L = (Ret (h, v), L1) ->
  v = iavl_Version (tree L) + 1 /\ ledger_ready L1 /\
  (forall k, visible L1 Check k = pendOf L Deliver k) /\
  exists t, iavl_Load (tree L1) = inr t /\ same_ledger L1 (NewFinalityLedger t).
Proof.
  intros [Hi Hn] Hc. destruct (commit_spec ok L Hi) as (h' & v' & L1' & Hc' & Hi1 & Hv & Hver & Hs & Hrem & Ht & Hp).
  rewrite Hc in Hc'. injection Hc' as <- <- <-.
  assert (Hn1 : newest (tree L1)).
  { intros n. rewrite Hs, lookup_insert. case_decide; [lia|]. intros Hx%Hn. lia. }
  assert (Hvis : forall sd k, visible L1 sd k = pendOf L Deliver k).
  { intros sd k. unfold visible. by rewrite Hrem, decide_False, Hp by apply not_elem_of_nil. }
  split_and!; [done|by split|done|].
  destruct (iavl_Load_newest (tree L1) (tree_map (tree L1)) Hn1) as (t & Hl & Hm & Hsv & Hvr); [rewrite Hs, Hver; apply lookup_insert_eq|].
  exists t. split; [done|]. split_and!.
  - apply fresh_inv. intros k bz. rewrite Hm. apply (li_tree _ _ Hi1).
  - intros n. cbn. rewrite Hsv, Hvr. apply Hn1.
  - done.
  - intros sd k. rewrite Hvis, <- Ht. unfold visible. rewrite decide_False by (by destruct sd; apply not_elem_of_nil).
    rewrite fresh_pend. unfold tree_item. by rewrite Hm.
Qed.

(** The version of a commit that returns, whatever the state of the caches. *)
Lemma commit_version L h v L1 : Commit L = (Ret (h, v), L1) -> v = iavl_Version (tree L) + 1.
Proof.
  unfold Commit, commit_keys. intros (m & L0 & [= <- <-] & (m' & L0' & [= <- <-] & ([] & L2 & H2 & ([] & L3 & H3 & ([h' v'] & L4 & H4 & H)%bindM_inv)%bindM_inv)%bindM_inv)%bindM_inv)%bindM_inv.
  pose (ver := fun L : FinalityLedger T Tr => iavl_Version (tree L)).
  assert (K2 : ver L2 = ver L).
  { change L2 with (Ret (), L2).2. rewrite <- H2. apply (fixes_forM ver). intros k s. unfold tree_Remove, ver. destruct (iavl_Remove (tree s) k) eqn:Er; [done|]. apply iavl_Remove_spec in Er as (_ & _ & Er). exact Er. }
  assert (K3 : ver L3 = ver L2).
  { change L3 with (Ret (), L3).2. rewrite <- H3. apply (fixes_forM ver). intros k. unfold write_item. destruct (_ !! _); [|done].
    apply fixes_bind; [intros s; unfold load; by destruct (_ !! _)|]. intros x. apply fixes_bind; [done|]. intros bz s. unfold tree_Set, ver.
    destruct (iavl_Set (tree s) (Key x) bz) eqn:Er; [done|]. apply iavl_Set_spec in Er as (_ & _ & Er). exact Er. }
  unfold tree_SaveVersion in H4. destruct (iavl_SaveVersion (tree L3)) as [|[[h0 v0] t]] eqn:Er; [done|].
  injection H4 as <- <- <-. injection H as <- <- _. apply iavl_Save_spec in Er as (-> & _). unfold ver in *. by rewrite K3, K2.
Qed.
End LedgerRestart.

(** ** The node *)
Section Restart.
Context {Tr E DB VD : Type} {Tree : Iavl Tr} {View : IavlView Tr} {Open : IavlOpen Tr} {TDB : TmDB DB} {CB : Codec BlockContextJSON}.
Context {CA : Codec AcctProto} {CS : Codec Stake} {CD : Codec Delegatee} {CR : Codec RewardProto}.
Context {CGP : Codec GovParamsProto} {CGJ : Codec GovParamsJSON} {D : DecCodec} {CP : Codec GovProposal}.
Context {RL : RlpLib} {SL : EthCrypto}.
Context {CU : Codec TrxPayloadUnstakingProto} {CW : Codec TrxPayloadWithdrawProto}
        {CPP : Codec TrxPayloadProposalProto} {CV : Codec TrxPayloadVotingProto}
        {CC : Codec TrxPayloadContractProto} {CSD : Codec TrxPayloadSetDocProto} {CT : Codec TrxProto}.
Context {VM : IVMHandler E (FinalityLedger Account Tr)} (vm_disk : E -> VD) (open_vm : VD -> outcome E).
Abbreviation app := (@RigoApp Tr E DB).
Abbreviation disk := ((Tr * Tr * Tr) * Tr * (Tr * Tr * Tr * list Byte.byte) * VD * DB)%type.

Definition open_tree (t : Tr) : outcome Tr := match iavl_Load t with inl e => Err (NewOrdinary e) | inr t' => Ret t' end.

(** [NewRigoApp] over the databases that the last process has left; every error
    is a panic.  [open_vm] is [NewEVMCtrler]. *)
Definition NewRigoApp (d : disk) : outcome app :=
  let '((tparams, tprop, tgfrozen), tacct, (tdelg, tfrozen, trwd, rwdHash), vd, db) := d in
  ((let! tparams := mustM (liftO (open_tree tparams)) in
    let! tprop := mustM (liftO (open_tree tprop)) in
    let! tgfrozen := mustM (liftO (open_tree tgfrozen)) in
    let! gov := mustM (liftO (NewGovCtrler tparams tprop tgfrozen)) in
    let! acct := mustM (liftO (OpenFinalityLedger tacct)) in
    let! tdelg := mustM (liftO (open_tree tdelg)) in
    let! tfrozen := mustM (liftO (open_tree tfrozen)) in
    let! trwd := mustM (liftO (open_tree trwd)) in
    let! stake := mustM (liftO (NewStakeCtrler (gc_GovParams gov) tdelg tfrozen trwd rwdHash)) in
    let! vm := liftO (open_vm vd) in
    retM (mkApp None None (OpenMetaDB db) (mkWorld gov acct stake vm) "")) tt).1.

(** ** The state of the ledgers *)
Context {okP : GovParams -> Prop} {okG : GovProposal -> Prop} {okA : Account -> Prop} {okD : Delegatee -> Prop} {okS : Stake -> Prop} {okR : Reward_ -> Prop}.

(** The parameters in the ledger are those that the next commit puts in force. *)
Definition params_kept (c : @GovCtrler Tr) : Prop :=
  pendOf (gc_paramsLedger c) Deliver (ToLedgerKey (ZeroBytes 32)) = Some (default (gc_GovParams c) (gc_newGovParams c)).

Record node_ready (a : app) : Prop := {
  nr_params : ledger_ready okP (gc_paramsLedger (w_gov (app_world a)));
  nr_props : ledger_ready okG (gc_proposalLedger (w_gov (app_world a)));
  nr_gfrozen : ledger_ready okG (gc_frozenLedger (w_gov (app_world a)));
  nr_acct : ledger_ready okA (w_acct (app_world a));
  nr_delg : ledger_ready okD (sc_delegateeLedger (w_stake (app_world a)));
  nr_frozen : ledger_ready okS (sc_frozenLedger (w_stake (app_world a)));
  nr_rwd : ledger_ready okR (sc_rewardLedger (w_stake (app_world a)));
  nr_kept : params_kept (w_gov (app_world a));
  nr_hash : sc_lastRwdHash (w_stake (app_world a)) = sc_rwdHashDB (w_stake (app_world a));
  nr_meta : cache_ok (app_meta a);
  nr_chain : meta_value (app_meta a) keyChainID = Some (String.list_byte_of_string (app_ChainID a));
}.

(** The ledgers, the parameters and the reward hash of two nodes agree. *)
Record same_state (w1 w2 : @World Tr E) : Prop := {
  ss_params : same_ledger okP (gc_paramsLedger (w_gov w1)) (gc_paramsLedger (w_gov w2));
  ss_props : same_ledger okG (gc_proposalLedger (w_gov w1)) (gc_proposalLedger (w_gov w2));
  ss_gfrozen : same_ledger okG (gc_frozenLedger (w_gov w1)) (gc_frozenLedger (w_gov w2));
  ss_acct : same_ledger okA (w_acct w1) (w_acct w2);
  ss_delg : same_ledger okD (sc_delegateeLedger (w_stake w1)) (sc_delegateeLedger (w_stake w2));
  ss_frozen : same_ledger okS (sc_frozenLedger (w_stake w1)) (sc_frozenLedger (w_stake w2));
  ss_rwd : same_ledger okR (sc_rewardLedger (w_stake w1)) (sc_rewardLedger (w_stake w2));
  ss_govparams : params_of w2 = params_of w1;
  ss_hash : sc_lastRwdHash (w_stake w2) = sc_lastRwdHash (w_stake w1);
}.

Context {Laws : IavlLaws Tr} {Total : IavlTotal Tr} {OLaws : IavlOpenLaws Tr}.
Context {LP : LedgerItemLaws okP} {LG : LedgerItemLaws okG} {LA : LedgerItemLaws okA} {LD : LedgerItemLaws okD} {LS : LedgerItemLaws okS} {LR : LedgerItemLaws okR}.

(** *** The commits of the controllers *)
Lemma must_inv_ret {S B} (m : GoM S B) s b s' : mustM m s = (Ret b, s') -> m s = (Ret b, s').
Proof. unfold mustM. intros ([e|x] & s1 & H%tryM_inv & Hx)%bindM_inv; [done|]. by injection Hx as <- <-. Qed.
Lemma must_ret_run {S B} (m : GoM S B) s b s' : m s = (Ret b, s') -> mustM m s = (Ret b, s').
Proof. intros H. unfold mustM. by rewrite (bindM_step _ _ _ _ _ (tryM_ret _ _ _ _ H)). Qed.

Lemma gov_commit_inv (c c' : @GovCtrler Tr) hv :
  GovCtrler_Commit DefaultHash c = (Ret hv, c') ->
  exists h0 h1 h2, Commit (gc_paramsLedger c) = (Ret (h0, hv.2), gc_paramsLedger c') /\
    Commit (gc_proposalLedger c) = (Ret (h1, hv.2), gc_proposalLedger c') /\
    Commit (gc_frozenLedger c) = (Ret (h2, hv.2), gc_frozenLedger c') /\
    gc_GovParams c' = default (gc_GovParams c) (gc_newGovParams c).
Proof.
  unfold GovCtrler_Commit. intros ([h0 v0] & c0 & (P & H0 & ->)%zoom_inv & ([h1 v1] & c1 & (G & H1 & ->)%zoom_inv & ([h2 v2] & c2 & (F & H2 & ->)%zoom_inv & H)%bindM_inv)%bindM_inv)%bindM_inv.
  cbn in H0, H1, H2, H. destruct (v0 =? v1) eqn:E1, (v1 =? v2) eqn:E2; cbn in H; try done.
  apply Z.eqb_eq in E1 as ->, E2 as ->. injection H as <- <-. exists h0, h1, h2. cbn.
  destruct (gc_newGovParams c) eqn:En; cbn; rewrite ?En; cbn; by split_and!.
Qed.

Lemma stake_commit_inv (c c' : @StakeCtrler Tr) (x x' : FinalityLedger Account Tr) hv :
  StakeCtrler_Commit DefaultHash (c, x) = (Ret hv, (c', x')) ->
  x' = x /\ (exists h0 h1 h2, Commit (sc_delegateeLedger c) = (Ret (h0, hv.2), sc_delegateeLedger c') /\
    Commit (sc_frozenLedger c) = (Ret (h1, hv.2), sc_frozenLedger c') /\
    Commit (sc_rewardLedger c) = (Ret (h2, hv.2), sc_rewardLedger c')) /\
  (sc_lastRwdHash c = sc_rwdHashDB c -> sc_lastRwdHash c' = sc_rwdHashDB c').
Proof.
  unfold StakeCtrler_Commit. intros ([h0 v0] & c0 & (P & H0 & ->)%zoom_inv & ([h1 v1] & c1 & (G & H1 & ->)%zoom_inv & ([h2 v2] & c2 & (F & H2 & ->)%zoom_inv & H)%bindM_inv)%bindM_inv)%bindM_inv.
  cbn in H0, H1, H2, H. destruct (v0 =? v1) eqn:E1, (v1 =? v2) eqn:E2; cbn in H; try done.
  apply Z.eqb_eq in E1 as ->, E2 as ->. unfold bindM, getsM in H. cbn in H. destruct (_ =? 0); [done|].
  destruct (Z.rem _ _ =? 0); cbn in H; injection H as <- <- <-; (split_and!; [done|exists h0, h1, h2; cbn; by split_and!|done]).
Qed.

(** *** Opening them again *)
Lemma open_tree_run {T} `{ILedgerItem T} (ok : T -> Prop) (L1 : FinalityLedger T Tr) t :
  iavl_Load (tree L1) = inr t -> mustM (liftO (open_tree (tree L1))) tt = (Ret t, tt).
Proof. intros Hl. apply must_ret_run. unfold liftO, open_tree. by rewrite Hl. Qed.

Lemma reopen_gov (c c' : @GovCtrler Tr) hv :
  GovCtrler_Commit DefaultHash c = (Ret hv, c') -> ledger_ready okP (gc_paramsLedger c) -> ledger_ready okG (gc_proposalLedger c) ->
  ledger_ready okG (gc_frozenLedger c) -> params_kept c ->
  exists tp tg tf c2, iavl_Load (tree (gc_paramsLedger c')) = inr tp /\ iavl_Load (tree (gc_proposalLedger c')) = inr tg /\
    iavl_Load (tree (gc_frozenLedger c')) = inr tf /\ NewGovCtrler tp tg tf = Ret c2 /\
    same_ledger okP (gc_paramsLedger c') (gc_paramsLedger c2) /\ same_ledger okG (gc_proposalLedger c') (gc_proposalLedger c2) /\
    same_ledger okG (gc_frozenLedger c') (gc_frozenLedger c2) /\ gc_GovParams c2 = gc_GovParams c' /\
    hv.2 = iavl_Version (tree (gc_paramsLedger c)) + 1.
Proof.
  intros (h0 & h1 & h2 & H0 & H1 & H2 & Hg)%gov_commit_inv R0 R1 R2 Hk.
  destruct (commit_reopen okP _ _ _ _ R0 H0) as (Hv & _ & Hvis & tp & Hp & (Si & Sn & Sv & Ss)).
  destruct (commit_reopen okG _ _ _ _ R1 H1) as (_ & _ & _ & tg & Htg & Sg).
  destruct (commit_reopen okG _ _ _ _ R2 H2) as (_ & _ & _ & tf & Htf & Sf).
  destruct (read_opt_spec okP (NewFinalityLedger tp) Check (ToLedgerKey (ZeroBytes 32)) Si) as (L' & Hr & Hi' & Hpr).
  exists tp, tg, tf. eexists. split_and!; [done..| | | | | |done].
  - unfold NewGovCtrler. by rewrite Hr.
  - pose proof (preserved_view okP _ _ Si Hpr) as Hview. pose proof Hview as (Ht & _). split_and!; cbn; [done|by rewrite Ht|by rewrite Ht|].
    intros sd k. rewrite (same_view_visible _ _ _ _ Hview). apply Ss.
  - done.
  - done.
  - cbn [gc_GovParams]. by rewrite Ss, Hvis, Hk, Hg.
Qed.

Lemma new_stake_run g (t1 t2 t3 : Tr) h : 0 <= maxValidatorCnt g -> NewStakeCtrler g t1 t2 t3 h = Ret (newStakeCtrler g t1 t2 t3 h).
Proof.
  intros Hm. unfold NewStakeCtrler, updateValidators, bindM, getsM, liftO, selectValidators, newStakeCtrler. cbn [fst sc_allDelegatees length].
  unfold MIN. destruct (Z.of_nat 0 <? maxValidatorCnt g) eqn:El; [done|]. apply Z.ltb_ge in El. by replace (maxValidatorCnt g) with 0 by lia.
Qed.

Lemma reopen_stake (c c' : @StakeCtrler Tr) (x x' : FinalityLedger Account Tr) hv g :
  StakeCtrler_Commit DefaultHash (c, x) = (Ret hv, (c', x')) -> ledger_ready okD (sc_delegateeLedger c) -> ledger_ready okS (sc_frozenLedger c) ->
  ledger_ready okR (sc_rewardLedger c) -> sc_lastRwdHash c = sc_rwdHashDB c -> 0 <= maxValidatorCnt g ->
  exists td tf tr c2, iavl_Load (tree (sc_delegateeLedger c')) = inr td /\ iavl_Load (tree (sc_frozenLedger c')) = inr tf /\
    iavl_Load (tree (sc_rewardLedger c')) = inr tr /\ NewStakeCtrler g td tf tr (sc_rwdHashDB c') = Ret c2 /\
    same_ledger okD (sc_delegateeLedger c') (sc_delegateeLedger c2) /\ same_ledger okS (sc_frozenLedger c') (sc_frozenLedger c2) /\
    same_ledger okR (sc_rewardLedger c') (sc_rewardLedger c2) /\ sc_lastRwdHash c2 = sc_lastRwdHash c' /\ x' = x.
Proof.
  intros (-> & (h0 & h1 & h2 & H0 & H1 & H2) & Hh)%stake_commit_inv R0 R1 R2 Hk Hm.
  destruct (commit_reopen okD _ _ _ _ R0 H0) as (_ & _ & _ & td & Htd & Sd).
  destruct (commit_reopen okS _ _ _ _ R1 H1) as (_ & _ & _ & tf & Htf & Sf).
  destruct (commit_reopen okR _ _ _ _ R2 H2) as (_ & _ & _ & tr & Htr & Sr).
  exists td, tf, tr. eexists. split_and!; [done..|by apply new_stake_run|done|done|done| |done]. cbn. symmetry. auto.
Qed.

(** *** The commit of the application *)
Record commit_steps (a a' : app) (h : list Byte.byte) : Type := {
  cs_block : BlockContext; cs_hv0 : list Byte.byte * Z; cs_hv1 : list Byte.byte * Z; cs_hv2 : list Byte.byte * Z; cs_hv3 : list Byte.byte * Z;
  cs_x1 : FinalityLedger Account Tr; cs_x2 : FinalityLedger Account Tr;
  cs_m1 : @MetaDB DB; cs_r1 : string + unit; cs_r2 : string + unit;
  cs_next : app_next a = Some cs_block;
  cs_gov : GovCtrler_Commit DefaultHash (w_gov (app_world a)) = (Ret cs_hv0, w_gov (app_world a'));
  cs_acct : Commit (w_acct (app_world a)) = (Ret cs_hv1, cs_x1);
  cs_stake : StakeCtrler_Commit DefaultHash (w_stake (app_world a), cs_x1) = (Ret cs_hv2, (w_stake (app_world a'), cs_x2));
  cs_vm : vm_Commit (w_vm (app_world a), cs_x2) = (Ret cs_hv3, (w_vm (app_world a'), w_acct (app_world a')));
  cs_versions : cs_hv0.2 = cs_hv1.2 /\ cs_hv1.2 = cs_hv2.2 /\ cs_hv2.2 = cs_hv3.2;
  cs_last : app_last a' = Some (SetAppHash h cs_block);
  cs_put1 : PutLastBlockContext (SetAppHash h cs_block) (app_meta a) = (Ret cs_r1, cs_m1);
  cs_put2 : PutLastBlockHeight cs_hv0.2 cs_m1 = (Ret cs_r2, app_meta a');
  cs_chain : app_ChainID a' = app_ChainID a;
}.

Lemma world_inv {B C} (l : lens (@World Tr E) C) (m : GoM C B) (a a' : app) b :
  mustM (world (zoom l m)) a = (Ret b, a') -> exists x, m (lget l (app_world a)) = (Ret b, x) /\ a' = set_world (lset l x (app_world a)) a.
Proof. intros (w & (x & Hm & ->)%zoom_inv & ->)%must_inv_ret%zoom_inv. eauto. Qed.

Lemma app_commit_steps a a' h : App_Commit a = (Ret h, a') -> inhabited (commit_steps a a' h).
Proof.
  unfold App_Commit. intros (b0 & a00 & [-> _]%next_ctx_inv & (hv0 & a0 & (g & H0 & ->)%world_inv & (hv1 & a1 & (x & H1 & ->)%world_inv & (hv2 & a2 & ([c x2] & H2 & ->)%world_inv & (hv3 & a3 & ([e x3] & H3 & ->)%world_inv & H)%bindM_inv)%bindM_inv)%bindM_inv)%bindM_inv)%bindM_inv.
  cbn in H1, H2, H3. destruct (hv0.2 =? hv1.2) eqn:E1, (hv1.2 =? hv2.2) eqn:E2, (hv2.2 =? hv3.2) eqn:E3; try done. cbn in H.
  apply Z.eqb_eq in E1, E2, E3.
  apply bindM_inv in H as ([] & a4 & H4 & (b' & a5 & H5 & H)%bindM_inv).
  unfold upd_next, next_ctx, bindM, getsM, modifyM in H4. cbn in H4. destruct (app_next a) as [b3|] eqn:Eb; [|done]. injection H4 as <-.
  unfold next_ctx, bindM, getsM in H5. cbn in H5. injection H5 as <- <-.
  apply bindM_inv in H as ([] & a6 & H6 & ([] & a7 & H7 & H)%bindM_inv). unfold bindM, modifyM in H. injection H as <- <-.
  unfold ignoreM, meta, zoom in H6, H7. cbn in H6, H7.
  destruct (PutLastBlockContext _ (app_meta a)) as [[r1|?|] m1] eqn:P1; try done; injection H6 as <-; cbn in H7.
  - destruct (PutLastBlockHeight hv0.2 m1) as [[r2|?|] m2] eqn:P2; try done; injection H7 as <-.
    + constructor. by econstructor.
    + unfold PutLastBlockHeight, md_put in P2. by destruct (db_SetSync _ _ _).
  - unfold PutLastBlockContext, md_put in P1. destruct (BlockContext_MarshalJSON _); [done|]. by destruct (db_SetSync _ _ _).
Qed.

(** *** The theorems *)
Context {VF : VMFrame vm_disk} {TLaws : TmDBLaws DB} (db_set_total : forall (d : DB) k v, exists d', db_SetSync d k v = inr d').
Context {valid : BlockContextJSON -> Prop} {BL : CodecLaws BlockContextJSON valid} {BT : CodecTotal BlockContextJSON valid}.
Context (tmjson_Unmarshal : (list Byte.byte -> string + GovParams) -> list Byte.byte -> string + GovParams).
Context (tx_hash : list Byte.byte -> list Byte.byte).
Context (vm_Query : Z -> list Byte.byte -> GoM (@World Tr E) (list Byte.byte)).
Context (vm_query_fixes : forall h d, fixes (world_disk vm_disk) (vm_Query h d)).

(** The disk after a commit holds the node. *)
Lemma reopen_node a a' h e : node_ready a -> App_Commit a = (Ret h, a') -> 0 <= maxValidatorCnt (params_of (app_world a')) ->
  open_vm (vm_disk (w_vm (app_world a'))) = Ret e ->
  exists w, NewRigoApp (app_disk vm_disk a') = Ret (mkApp None None (OpenMetaDB (md_db (app_meta a'))) w "") /\
    same_state (app_world a') w /\ w_vm w = e.
Proof.
  intros [] [S]%app_commit_steps Hm He.
  destruct (reopen_gov _ _ _ (cs_gov _ _ _ S)) as (tp & tg & tf & g2 & L1 & L2 & L3 & Hg & Sp & Sg & Sf & Hgp & _); [done..|].
  destruct (reopen_stake _ _ _ _ _ (gc_GovParams g2) (cs_stake _ _ _ S)) as (td & tz & tr & c2 & M1 & M2 & M3 & Hc & Sd & Sz & Sr & Hh & Hx); [done..|by rewrite Hgp|].
  destruct (cs_hv1 _ _ _ S) as [h1 v1] eqn:E1. pose proof (cs_acct _ _ _ S) as HA. rewrite E1 in HA.
  destruct (commit_reopen okA _ _ _ _ nr_acct0 HA) as (_ & _ & _ & ta & Hta & Sa).
  pose proof (vm_commit_accounts (vm_disk := vm_disk) (w_vm (app_world a), cs_x2 _ _ _ S)) as Hv. rewrite (cs_vm _ _ _ S) in Hv. cbn in Hv.
  rewrite Hx in Hv.
  exists (mkWorld g2 (NewFinalityLedger ta) c2 e). split_and!; [|constructor; cbn; rewrite ?Hv; try done|done].
  unfold NewRigoApp, app_disk, world_disk, gov_disk, stake_disk.
  rewrite (bindM_step _ _ _ _ _ (open_tree_run okP _ _ L1)), (bindM_step _ _ _ _ _ (open_tree_run okG _ _ L2)), (bindM_step _ _ _ _ _ (open_tree_run okG _ _ L3)).
  erewrite bindM_step by (apply must_ret_run; unfold liftO; by rewrite Hg).
  erewrite bindM_step by (apply must_ret_run; unfold liftO, OpenFinalityLedger; by rewrite Hv, Hta).
  rewrite (bindM_step _ _ _ _ _ (open_tree_run okD _ _ M1)), (bindM_step _ _ _ _ _ (open_tree_run okS _ _ M2)), (bindM_step _ _ _ _ _ (open_tree_run okR _ _ M3)).
  erewrite bindM_step by (apply must_ret_run; unfold liftO; by rewrite Hc).
  by erewrite bindM_step by (unfold liftO; by rewrite He).
Qed.

(** Its metadata names the block. *)
Lemma reopen_meta a a' h : node_ready a -> App_Commit a = (Ret h, a') ->
  (forall b, app_next a = Some b -> valid (mkBlockContextJSON (bc_blockInfo b) (bc_feeSum b) (bc_txsCnt b) h)) ->
  exists b, app_next a = Some b /\ forall now (w : @World Tr E) c, exists a4 : app,
    Info now (mkApp None None (OpenMetaDB (md_db (app_meta a'))) w c) = (Ret (bc_Height b, h), a4) /\
    app_last a4 = Some (SetValUpdates [] (SetAppHash h b)) /\ app_next a4 = None /\ app_ChainID a4 = app_ChainID a /\ app_world a4 = w.
Proof.
  intros [] [S]%app_commit_steps Hval. exists (cs_block _ _ _ S). split; [apply cs_next|]. specialize (Hval _ (cs_next _ _ _ S)). intros now w c.
  pose proof (cs_put1 _ _ _ S) as P1. pose proof (cs_put2 _ _ _ S) as P2.
  assert (exists m1, PutLastBlockContext (SetAppHash h (cs_block _ _ _ S)) (app_meta a) = (Ret (inr tt), m1)) as [m1 P1'].
  { unfold PutLastBlockContext, BlockContext_MarshalJSON. cbn. destruct (codec_total _ Hval) as [bz Hbz]. rewrite Hbz.
    unfold md_put. destruct (db_set_total (md_db (app_meta a)) keyBlockContext bz) as [d' ->]. eauto. }
  rewrite P1 in P1'. injection P1' as Hr1 Hm1. rewrite Hr1 in P1.
  assert (exists m2, PutLastBlockHeight (cs_hv0 _ _ _ S).2 (cs_m1 _ _ _ S) = (Ret (inr tt), m2)) as [m2 P2'].
  { unfold PutLastBlockHeight, md_put. edestruct db_set_total as [d' Hd']. rewrite Hd'. eauto. }
  rewrite P2 in P2'. injection P2' as Hr2 Hm2. rewrite Hr2 in P2.
  destruct (last_block_values _ _ _ (SetAppHash h (cs_block _ _ _ S)) _ valid nr_meta0 Hval P1 P2) as (bz & Hctx & Hdec & _ & _ & Hoth).
  destruct (get_value (OpenMetaDB (md_db (app_meta a'))) keyBlockContext (open_cache_ok _)) as (n1 & G1 & K1 & V1).
  destruct (get_value n1 keyChainID K1) as (n2 & G2 & _ & _).
  assert (Hc : meta_value n1 keyChainID = Some (String.list_byte_of_string (app_ChainID a))) by (rewrite V1, <- nr_chain0, <- Hoth by done; done).
  change (meta_value (OpenMetaDB (md_db (app_meta a'))) keyBlockContext) with (meta_value (app_meta a') keyBlockContext) in G1. rewrite Hctx in G1.
  rewrite Hc in G2.
  assert (C1 : LastBlockContext (OpenMetaDB (md_db (app_meta a'))) = (Ret (Some (SetValUpdates [] (SetAppHash h (cs_block _ _ _ S)))), n1)).
  { unfold LastBlockContext. rewrite (bindM_step _ _ _ _ _ G1). unfold retM. by rewrite Hdec. }
  assert (C2 : md_ChainID n1 = (Ret (app_ChainID a), n2)).
  { unfold md_ChainID. rewrite (bindM_step _ _ _ _ _ G2). unfold retM. by rewrite String.string_of_list_byte_of_string. }
  eexists. unfold Info. erewrite bindM_step by (apply (zoom_eq l_meta), C1). erewrite bindM_step by (by unfold bindM, modifyM).
  erewrite bindM_step by (apply (zoom_eq l_meta), C2). by split; [unfold bindM, modifyM|].
Qed.

(** C4: restart.  Let a node commit a block and then stop before its next
    [Commit] begins, after whatever other calls of the next block (also in a
    panic); a stop inside [Commit] is the subject of [torn_commit_stuck].  Started
    again over its databases it reports the height and the hash of the committed block, has its
    block context and chain id, and all seven ledgers, the governance parameters
    and the reward hash are what they were after the commit. *)
Theorem restart_resumes a a1 h e cs now :
  node_ready a -> App_Commit a = (Ret h, a1) ->
  (forall b, app_next a = Some b -> valid (mkBlockContextJSON (bc_blockInfo b) (bc_feeSum b) (bc_txsCnt b) h)) ->
  0 <= maxValidatorCnt (params_of (app_world a1)) -> open_vm (vm_disk (w_vm (app_world a1))) = Ret e ->
  let a2 := (forM_ cs (run_call tmjson_Unmarshal tx_hash vm_Query) a1).2 in
  exists b a3 a4, app_next a = Some b /\ NewRigoApp (app_disk vm_disk a2) = Ret a3 /\ Info now a3 = (Ret (bc_Height b, h), a4) /\
    app_last a4 = Some (SetValUpdates [] (SetAppHash h b)) /\ app_next a4 = None /\ app_ChainID a4 = app_ChainID a /\
    same_state (app_world a1) (app_world a4) /\ w_vm (app_world a4) = e.
Proof using All.
  intros Hr Hc Hval Hm He a2. destruct (reopen_node _ _ _ _ Hr Hc Hm He) as (w & Hn & Hs & Hw).
  destruct (reopen_meta _ _ _ Hr Hc Hval) as (b & Hb & Hi). destruct (Hi now w ""%string) as (a4 & H1 & H2 & H3 & H4 & H5).
  exists b, (mkApp None None (OpenMetaDB (md_db (app_meta a1))) w ""), a4. rewrite H5.
  split_and!; try done. unfold a2. by rewrite (fixes_calls tmjson_Unmarshal tx_hash vm_Query vm_disk vm_query_fixes).
Qed.

(** *** What is lost *)
Lemma new_stake_inv g (t1 t2 t3 : Tr) h c : NewStakeCtrler g t1 t2 t3 h = Ret c -> c = newStakeCtrler g t1 t2 t3 h.
Proof.
  destruct (decide (0 <= maxValidatorCnt g)) as [Hm|Hm]; [rewrite new_stake_run by done; by intros [= <-]|].
  unfold NewStakeCtrler, updateValidators, bindM, getsM, liftO, selectValidators, MIN. cbn [fst sc_allDelegatees newStakeCtrler length].
  rewrite (proj2 (Z.ltb_ge (Z.of_nat 0) _)) by lia. by rewrite (proj2 (Z.ltb_lt _ 0)) by lia.
Qed.

Lemma new_gov_tree (t1 t2 t3 : Tr) c : NewGovCtrler t1 t2 t3 = Ret c -> tree (gc_paramsLedger c) = t1.
Proof.
  unfold NewGovCtrler. pose proof (fixes_bind tree _ (fun o => load_opt o) (fixes_get_opt (T := GovParams) (Tr := Tr) Check (ToLedgerKey (ZeroBytes 32))) fixes_load_opt (NewFinalityLedger t1)) as Hf.
  destruct (bindM _ _ _) as [[o|e|] L']; [|done..]. intros [= <-]. exact Hf.
Qed.

Lemma lift_inv {B} (o : outcome B) b (u u' : unit) : mustM (liftO o) u = (Ret b, u') -> o = Ret b.
Proof. intros H%must_inv_ret. by injection H. Qed.

Lemma new_app_inv d a : NewRigoApp d = Ret a ->
  sc_lastValidators (w_stake (app_world a)) = [] /\
  open_tree d.1.1.1.1.1.1 = Ret (tree (gc_paramsLedger (w_gov (app_world a)))) /\ open_tree d.1.1.1.2 = Ret (tree (w_acct (app_world a))).
Proof.
  destruct d as [[[[[[tp tg] tf] ta] [[[td tz] tr] h]] vd] db]. unfold NewRigoApp. cbn [fst snd]. intros H.
  destruct ((let! _ := _ in _) tt) as [o u] eqn:Er. cbn in H. subst o.
  do 10 apply bindM_inv in Er as (? & ? & ?Hx & Er). injection Er as <- <-. cbn.
  apply lift_inv in Hx, Hx2, Hx3, Hx7. apply new_stake_inv in Hx7 as ->. apply new_gov_tree in Hx2 as ->. split_and!; [done|done|].
  unfold OpenFinalityLedger in Hx3. unfold open_tree. destruct (iavl_Load ta); [done|]. by injection Hx3 as <-.
Qed.

Lemma updates_from_nothing n ns : (length ns <= n)%nat -> updates_loop n [] ns = map (fun d => mkValidatorUpdate (dg_PubKey d) (dg_TotalPower d)) ns.
Proof. revert ns. induction n as [|n IH]; intros [|d ns] Hl; cbn in *; [done|lia|done|]. rewrite IH by lia. done. Qed.

(** After a restart, until the first [EndBlock], there are no validators: every
    proposal is refused, also one that the nodes that were not restarted accept;
    and the first validator updates only add.  A validator that has left the set
    is not reported as removed. *)
Theorem restart_forgets_validators d a :
  NewRigoApp d = Ret a -> let w := app_world a in
  Validators (w_stake w) = ([], 0) /\ (forall addr, IsValidator addr (w_stake w) = false) /\
  (forall ctx, tx_Type (cx_Tx ctx) = TRX_PROPOSAL -> exists e, GovCtrler_ValidateTrx tmjson_Unmarshal (w_stake w) ctx (w_gov w) = (Err e, w_gov w)) /\
  (forall (c : @StakeCtrler Tr) (x : FinalityLedger Account Tr) n ups w', sc_lastValidators c = sc_lastValidators (w_stake w) -> updateValidators n (c, x) = (Ret ups, w') ->
     forall u, u ∈ ups -> exists v, v ∈ sc_allDelegatees c /\ u = mkValidatorUpdate (dg_PubKey v) (dg_TotalPower v)).
Proof.
  intros (Hl & _)%new_app_inv. cbn zeta. unfold Validators, IsValidator. rewrite Hl. split_and!; [done|done| |].
  - intros ctx Ht. unfold GovCtrler_ValidateTrx. rewrite Ht. cbn [Z.eqb]. rewrite Z.eqb_refl. unfold validate_proposal. destruct (negb _); [by eexists|].
    replace (sh_IsValidator (tx_From (cx_Tx ctx)) (w_stake (app_world a))) with false by (cbn; unfold IsValidator; by rewrite Hl). by eexists.
  - intros c x n ups w' Hc. unfold updateValidators, bindM, getsM, liftO. cbn [fst]. unfold selectValidators. destruct (_ <? 0); [done|].
    cbn. rewrite Hc. cbn. unfold validatorUpdates. cbn [length Nat.add]. rewrite updates_from_nothing by done. intros [= <- _] u.
    intros (v & -> & Hv)%list_elem_of_fmap. exists v. split; [|done]. rewrite elem_of_sort in Hv. rewrite <- (take_drop (Z.to_nat (MIN (Z.of_nat (length (sc_allDelegatees c))) n)) (sc_allDelegatees c)).
    apply elem_of_app. by left.
Qed.

(** *** A commit that is cut off *)
Lemma commit_never_err : never_err (App_Commit (Tr := Tr) (E := E) (DB := DB)).
Proof.
  unfold App_Commit, mustM, upd_next, next_ctx. ne_tac.
Qed.

(** The versions of the governance parameters and of the accounts. *)
Definition versions (a : app) : Z * Z := (iavl_Version (tree (gc_paramsLedger (w_gov (app_world a)))), iavl_Version (tree (w_acct (app_world a)))).

Lemma uneven_commit_panics a : (versions a).1 <> (versions a).2 -> exists a', App_Commit a = (Panic, a').
Proof.
  intros Hv. destruct (App_Commit a) as [[h|e|] a'] eqn:Hc; [|by destruct (commit_never_err a e); rewrite Hc|eauto].
  exfalso. apply app_commit_steps in Hc as [S]. destruct (cs_versions _ _ _ S) as [Hs _]. pose proof (cs_acct _ _ _ S) as HA.
  destruct (cs_hv1 _ _ _ S) as [h1 v1]. apply commit_version in HA. destruct (gov_commit_inv _ _ _ (cs_gov _ _ _ S)) as (h0 & ? & ? & HG & _).
  apply commit_version in HG. unfold versions in Hv. cbn in *. lia.
Qed.

(** The four controllers commit one after the other and none of them can go
    back.  A node that stops after the governance controller has committed and
    before the accounts have, is started again and processes the block once
    more, panics in [Commit], for whatever calls come in between: its ledgers are
    at different versions for good. *)
Theorem torn_commit_stuck a a1 a2 hv cs :
  node_ready a -> (versions a).1 = (versions a).2 ->
  mustM (world (zoom l_gov (GovCtrler_Commit DefaultHash))) a = (Ret hv, a1) -> NewRigoApp (app_disk vm_disk a1) = Ret a2 ->
  exists a3, App_Commit (forM_ cs (run_call tmjson_Unmarshal tx_hash vm_Query) a2).2 = (Panic, a3).
Proof using All.
  intros [] Hv (g & Hg & ->)%world_inv Ha2. apply uneven_commit_panics.
  change (lget l_gov (app_world a)) with (w_gov (app_world a)) in Hg. destruct (gov_commit_inv _ _ _ Hg) as (h0 & _ & _ & HG & _).
  destruct (commit_reopen okP _ _ _ _ nr_params0 HG) as (Hver & [_ Hn1] & _ & t & Hl & (_ & _ & Hvt & _)). cbn in Hvt.
  apply new_app_inv in Ha2 as (_ & Hp & Ha). cbn in Hp, Ha. unfold open_tree in Hp, Ha.
  rewrite Hl in Hp. injection Hp as Hp. destruct (iavl_Load (tree (w_acct (app_world a)))) as [|ta] eqn:El; [done|]. injection Ha as Ha.
  pose proof (iavl_Load_version _ _ (proj2 nr_acct0) El) as Hva.
  pose proof (fixes_calls tmjson_Unmarshal tx_hash vm_Query vm_disk vm_query_fixes cs a2) as Hf. set (a4 := (forM_ cs _ a2).2) in *.
  assert (versions a4 = versions a2) as ->.
  { unfold app_disk, world_disk, gov_disk in Hf. injection Hf as Hf1 _ _ Hf2 _ _ _ _ _ _. unfold versions. by rewrite Hf1, Hf2. }
  unfold versions. cbn. rewrite <- Hp, <- Ha, Hva. rewrite Hvt. unfold versions in Hv. cbn in Hv. rewrite <- Hv.
  destruct (commit_spec okP _ (proj1 nr_params0)) as (h' & v' & L' & Hc' & _ & Hv' & Hv'' & _). rewrite HG in Hc'. injection Hc' as _ _ <-. lia.
Qed.
End Restart.
