(* ===== verification/EvmFrame.v ===== *)
(** * The EVM controller between commits

    Contract transactions work on the EVM state in memory and on the caches of
    the account ledger: neither the databases of the controller nor the tree of
    the accounts change.  This is what Frame.v asks of a controller of the EVM,
    so a node with this controller can be restarted (Restart.v). *)

From Stdlib Require Import Strings.Byte.
From S2P Require Import Prelude Xerrors GoSem Bytes Crypto Ledger LedgerSpec GovParams Account Trx Context AcctCtrler.
From S2P Require Import Stake StakeCtrler Proposal GovCtrler MetaDB StateDB Executor EvmCtrler EvmProps App Frame Restart.

Section EvmFrame.
Context {G : GethState} {VM : EthVM} {DB Tr : Type} {TD : TmDB DB} {TB : TmBatch DB} {Tree : Iavl Tr} {CA : Codec AcctProto}.
Context (order : gmap (list Byte.byte) Z -> list (list Byte.byte)).
Abbreviation A := (FinalityLedger Account Tr).

Definition wrapper_disk (s : StateDBWrapper (G := G) * A) : Tr := tree s.2.
Definition evm_disk (c : EVMCtrler (G := G) (DB := DB)) : DB * EthDB := (ec_metadb c, ec_ethDB c).
Definition evm_acct_disk (s : EVMCtrler (G := G) (DB := DB) * A) := (evm_disk s.1, tree s.2).

(** *** The wrapper of the state *)
Lemma fixes_on_sdb {R} (f : GoM SDB R) : fixes wrapper_disk (on_sdb f).
Proof. apply (fixes_zoom _ _ (fun _ => tt)); [|done]. by intros x [w a]. Qed.
Lemma fixes_mod_wrapper f : fixes wrapper_disk (mod_wrapper f). Proof. done. Qed.
Lemma fixes_wrapper_acct {R} (m : GoM A R) : fixes tree m -> fixes wrapper_disk (zoom lens_snd m).
Proof. apply fixes_zoom. by intros x [w a]. Qed.
Hint Resolve @fixes_on_sdb fixes_mod_wrapper : frame.

Ltac wrapper_tac :=
  repeat first [progress frame_tac | apply fixes_wrapper_acct | by intros []].

Lemma fixes_accessed addr : fixes wrapper_disk (addAccessedObjAddr addr).
Proof. unfold addAccessedObjAddr, mod_sdb. cbn [FindOrNewAccount load_account AcctCtrler_handler]. wrapper_tac. Qed.
Hint Resolve fixes_accessed : frame.
Lemma fixes_wrapper_call {R} (op : SDBOp R) : fixes wrapper_disk (wrapper_call op).
Proof. destruct op; cbn [wrapper_call]; unfold PrepareAccessList, AddAddressToAccessList, AddSlotToAccessList, RevertToSnapshot, revertAccessedObjAddr, Snapshot; wrapper_tac. Qed.
Lemma fixes_interp {R} (p : evm_prog R) : fixes wrapper_disk (interp p).
Proof.
  induction p as [r|X op k IH]; [done|]. intros s. cbn [interp].
  apply (fixes_bind wrapper_disk (wrapper_call op) (fun x s => interp (k x) s)); [apply fixes_wrapper_call|]. intros x. apply IH.
Qed.
Lemma fixes_prepare h i f t n b : fixes wrapper_disk (Prepare h i f t n b).
Proof. unfold Prepare, AddAddressToAccessList, mod_sdb. wrapper_tac. Qed.
Lemma fixes_finish : fixes wrapper_disk (Finish order).
Proof. unfold Finish, write_back. cbn [FindOrNewAccount on_account SetAccountCommittable AcctCtrler_handler]. wrapper_tac. Qed.
Lemma fixes_revert n : fixes wrapper_disk (RevertToSnapshot n).
Proof. exact (fixes_wrapper_call (op_RevertToSnapshot n)). Qed.
Lemma fixes_snapshot : fixes wrapper_disk Snapshot.
Proof. exact (fixes_wrapper_call op_Snapshot). Qed.
Lemma fixes_mod_sdb f : fixes wrapper_disk (mod_sdb f).
Proof. unfold mod_sdb. wrapper_tac. Qed.
Hint Resolve @fixes_interp fixes_prepare fixes_finish fixes_revert fixes_snapshot fixes_mod_sdb : frame.

(** *** The controller *)
Lemma fixes_on_wrapper {R} (f : GoM _ R) : fixes wrapper_disk f -> fixes evm_acct_disk (on_wrapper f).
Proof.
  intros Hf [c a]. unfold on_wrapper. cbn [fst snd]. destruct (stateDBWrapper c) as [w|]; [|done]. specialize (Hf (w, a)).
  destruct (f (w, a)) as [r [w' a']]. unfold evm_acct_disk. cbn in *. unfold wrapper_disk in Hf. cbn in Hf. by rewrite Hf.
Qed.
Lemma fixes_evm_acct {R} (m : GoM A R) : fixes tree m -> fixes evm_acct_disk (zoom lens_snd m).
Proof. apply fixes_zoom. intros x [c a] Hx. unfold evm_acct_disk. cbn in *. by rewrite Hx. Qed.
Lemma fixes_l_ctrler {R} (m : GoM _ R) : fixes evm_acct_disk m -> fixes (fun s => evm_acct_disk s.1) (zoom l_ctrler m).
Proof. apply fixes_zoom. by intros x [s c]. Qed.
Lemma fixes_set_ctx f : fixes (fun s => evm_acct_disk s.1) (set_ctx f). Proof. done. Qed.
Hint Resolve fixes_set_ctx : frame.

Ltac evm_tac :=
  repeat first [progress frame_tac | apply fixes_on_wrapper | apply fixes_evm_acct | apply fixes_l_ctrler | by intros []].

Lemma fixes_exec_vm f t n g p m d : fixes evm_acct_disk (execVM f t n g p m d).
Proof. unfold execVM. evm_tac. Qed.
Lemma fixes_finalise h : fixes evm_acct_disk (finalise h).
Proof. unfold finalise. evm_tac. Qed.
Lemma fixes_revert_finish n : fixes evm_acct_disk (revert_finish order n).
Proof. unfold revert_finish. evm_tac. Qed.
Lemma fixes_record_contract ctx : fixes evm_acct_disk (record_contract ctx).
Proof. unfold record_contract. cbn [FindAccount on_account SetAccountCommittable AcctCtrler_handler]. evm_tac. Qed.
Hint Resolve fixes_exec_vm fixes_finalise fixes_revert_finish fixes_record_contract : frame.

Lemma fixes_evm_execute g : fixes (fun s => evm_acct_disk s.1) (EVM_ExecuteTrx order g).
Proof. unfold EVM_ExecuteTrx. cbn [load_account AcctCtrler_handler]. evm_tac. Qed.

#[export] Instance evm_frame : VMFrame (VM := EVM_handler order) evm_disk.
Proof.
  constructor; cbn [vm_ValidateTrx vm_ExecuteTrx vm_BeginBlock vm_EndBlock vm_Commit EVM_handler].
  - intros ctx. change (fixes evm_acct_disk (EVM_ValidateTrx ctx)). unfold EVM_ValidateTrx. cbn [load_account AcctCtrler_handler]. evm_tac.
  - intros g. exact (fixes_evm_execute g).
  - intros b [c a]. unfold EVM_BeginBlock. cbn [fst snd]. by repeat case_match.
  - done.
  - intros [c a]. unfold EVM_Commit. cbn [fst snd]. by repeat case_match.
Qed.
End EvmFrame.

(** The databases that a commit of the node leaves open to a controller at the
    next height: the assumption of [restart_resumes] about the EVM. *)
Section EvmRestart.
Context {G : GethState} {VM : EthVM} {DB Tr MD : Type} {TD : TmDB DB} {TB : TmBatch DB} {TBL : TmBatchLaws DB} {Tree : Iavl Tr}.
Context {TM : TmDB MD} {CB : Codec BlockContextJSON}.
Context {CA : Codec AcctProto} {CS : Codec Stake} {CD : Codec Delegatee} {CR : Codec RewardProto}.
Context {CGP : Codec GovParamsProto} {CGJ : Codec GovParamsJSON} {D : DecCodec} {CP : Codec GovProposal}.
Context {SL : EthCrypto} (order : gmap (list Byte.byte) Z -> list (list Byte.byte)).
#[local] Instance evmVM : IVMHandler (EVMCtrler (G := G) (DB := DB)) (FinalityLedger Account Tr) := EVM_handler order.

Definition open_evm (d : DB * EthDB) : outcome (EVMCtrler (G := G) (DB := DB)) := NewEVMCtrler d.1 d.2.

Lemma evm_opened (a a1 : @RigoApp Tr (EVMCtrler (G := G) (DB := DB)) MD) h :
  App_Commit a = (Ret h, a1) -> 0 <= ec_lastBlockHeight (w_vm (app_world a)) < 2 ^ 63 - 2 ->
  (forall kvs (d : DB), exists d', db_WriteBatch kvs d = inr d') ->
  exists e, open_evm (evm_disk (w_vm (app_world a1))) = Ret e /\ ec_lastBlockHeight e = ec_lastBlockHeight (w_vm (app_world a)) + 1.
Proof.
  intros [S]%app_commit_steps Hh Hb. pose proof (cs_vm _ _ _ S) as Hv. destruct (cs_hv3 _ _ _ S) as [root v].
  destruct (evm_commit_durable _ _ _ _ _ _ Hh Hv Hb) as (-> & _ & (e & He & _ & Hl & _) & _). by exists e.
Qed.
End EvmRestart.
