(* ===== verification/RestartScene.v ===== *)
(** * A node that is restarted

    The theorems of Restart.v on the concrete chain: one block is committed, a
    transfer of the next block is delivered, and the node stops. *)

From Stdlib Require Import Strings.Byte.
From S2P Require Import Prelude Xerrors GoSem Bytes Crypto Ledger LedgerSpec LedgerClient LedgerProps Concrete GovParams Account Trx TrxProps Context AcctCtrler AcctProps.
From S2P Require Import Stake StakeLimiter StakeCtrler Proposal GovCtrler GovProps GovBlock Executor Scene MetaDB App Staking Unfreezing Rewards Frame Restart.

#[export] Instance header_eq_dec : EqDecision Header. Proof. solve_decision. Defined.
#[export] Program Instance header_countable : Countable Header :=
  inj_countable' (fun h => (hd_Height h, hd_TimeNano h, hd_ProposerAddress h, hd_AppHash h)) (fun '(a, b, c, d) => mkHeader a b c d) _.
Next Obligation. by intros []. Qed.
#[export] Instance vote_info_eq_dec : EqDecision VoteInfo. Proof. solve_decision. Defined.
#[export] Program Instance vote_info_countable : Countable VoteInfo :=
  inj_countable' (fun v => (vi_Address v, vi_Power v, vi_SignedLastBlock v)) (fun '(a, b, c) => mkVoteInfo a b c) _.
Next Obligation. by intros []. Qed.
#[export] Instance evidence_eq_dec : EqDecision Evidence. Proof. solve_decision. Defined.
#[export] Program Instance evidence_countable : Countable Evidence :=
  inj_countable' (fun e => (ev_Type e, ev_Address e, ev_Power e, ev_Height e, ev_TotalVotingPower e)) (fun '(a, b, c, d, e) => mkEvidence a b c d e) _.
Next Obligation. by intros []. Qed.
#[export] Instance begin_eq_dec : EqDecision RequestBeginBlock. Proof. solve_decision. Defined.
#[export] Program Instance begin_countable : Countable RequestBeginBlock :=
  inj_countable' (fun r => (bi_Header r, bi_Votes r, bi_ByzantineValidators r)) (fun '(a, b, c) => mkBeginBlock a b c) _.
Next Obligation. by intros []. Qed.
#[export] Instance block_json_eq_dec : EqDecision BlockContextJSON. Proof. solve_decision. Defined.
#[export] Program Instance block_json_countable : Countable BlockContextJSON :=
  inj_countable' (fun j => (bj_BlockInfo j, bj_GasSum j, bj_TxsCnt j, bj_AppHash j)) (fun '(a, b, c, d) => mkBlockContextJSON a b c d) _.
Next Obligation. by intros []. Qed.
#[export] Instance blockCodec : Codec BlockContextJSON := countCodec BlockContextJSON.

Definition any {A : Type} (x : A) : Prop := True.
#[export] Instance blockCodec_laws : CodecLaws BlockContextJSON any := countCodec_laws _ _.
#[export] Instance blockCodec_total : CodecTotal BlockContextJSON any := countCodec_total _ _.

Lemma test1_ok : params_ok Test1GovParams.
Proof.
  split; [|unfold gov_set; split_and!; by eexists].
  unfold gov_range, is_u256, is_u64, is_i64, Test1GovParams, MaxUint64. cbn. split_and!; try (intros z [= <-]); lia.
Qed.

Definition sceneParamsLedger : FinalityLedger GovParams mapTree := ((let! p := alloc Test1GovParams in set_on Deliver p) noLedger).2.
Definition block1 : BlockContext := NewBlockContext (mkBeginBlock (mkHeader 1 1000 aliceAddr []) [] []).
Definition readyNode : @RigoApp mapTree Z (gmap string (list Byte.byte)) :=
  mkApp None (Some block1) (OpenMetaDB {[ keyChainID := String.list_byte_of_string "rigo" ]})
    (mkWorld (mkGovCtrler Test1GovParams None sceneParamsLedger noLedger noLedger) sceneAccts sceneStake 0) "rigo".

Lemma fresh_ready {T} `{ILedgerItem T} (ok : T -> Prop) : ledger_ready ok (noLedger : FinalityLedger T mapTree).
Proof. split; [apply fresh_inv; intros k bz; cbn; by rewrite lookup_empty|]. intros n. cbn. rewrite lookup_empty. by intros []. Qed.

Lemma sceneParams_ready : ledger_ready params_ok sceneParamsLedger /\ pendOf sceneParamsLedger Deliver (ToLedgerKey (ZeroBytes 32)) = Some Test1GovParams.
Proof.
  destruct (alloc_put params_ok _ Deliver Test1GovParams (proj1 (fresh_ready params_ok)) test1_ok) as (L & Hrun & Hi & Ht & Hr & Hv); [apply not_elem_of_nil|].
  unfold sceneParamsLedger. rewrite Hrun. cbn [snd]. split; [split; [done|]|].
  - rewrite Ht. apply (proj2 (fresh_ready params_ok)).
  - specialize (Hv Deliver (ToLedgerKey (ZeroBytes 32))). unfold visible in Hv. rewrite Hr, decide_False in Hv by apply not_elem_of_nil.
    rewrite Hv. by rewrite decide_True.
Qed.

Lemma readyNode_ok : node_ready (okP := params_ok) (okG := proposal_range) (okA := acct_ok anyStr) (okD := delegatee_ok) (okS := stake_ok) (okR := reward_ok) readyNode.
Proof.
  destruct sceneParams_ready as [Hp Hk]. destruct sceneAccts_ok as [Ha _]. constructor; try apply fresh_ready; try done.
  - split; [exact Ha|]. assert (Ht : tree sceneAccts = MapTree ∅ ∅ 0) by (vm_compute; reflexivity). intros n. cbn [readyNode app_world w_acct]. rewrite Ht. cbn. rewrite lookup_empty. by intros [].
Qed.

#[export] Instance sceneVM_frame : VMFrame (Tr := mapTree) (VM := sceneVM) (fun e : Z => e).
Proof. constructor; done. Qed.

Definition noQuery (h : Z) (d : list Byte.byte) : GoM (@World mapTree Z) (list Byte.byte) := retM [].
Definition noJson (f : list Byte.byte -> string + GovParams) (bz : list Byte.byte) : string + GovParams := f bz.
Definition nextCalls : list abci_call :=
  [CallBeginBlock (mkBeginBlock (mkHeader 2 2000 aliceAddr []) [] []); CallDeliverTx [Byte.x00]; CallEndBlock].

Lemma readyNode_commits : exists h, App_Commit readyNode = (Ret h, (App_Commit readyNode).2) /\ 0 <= maxValidatorCnt (params_of (app_world (App_Commit readyNode).2)).
Proof.
  assert (H : match (App_Commit readyNode).1 with Ret _ => 0 <=? maxValidatorCnt (params_of (app_world (App_Commit readyNode).2)) | _ => false end = true) by (vm_compute; reflexivity).
  destruct (App_Commit readyNode) as [[h|e|] a1]; [|done..]. exists h. split; [done|]. by apply Z.leb_le in H.
Qed.

Lemma mapDB_set_total (d : gmap string (list Byte.byte)) k v : exists d', db_SetSync d k v = inr d'.
Proof. by eexists. Qed.

(** The block of height 1 is committed, the next one is cut off by a panic: the
    transaction cannot be read. *)
Lemma restart_resumes_witness :
  exists h a1 a3 a4, App_Commit readyNode = (Ret h, a1) /\
    NewRigoApp (fun e => Ret e) (app_disk (fun e : Z => e) (forM_ nextCalls (run_call noJson (fun bz => bz) noQuery) a1).2) = Ret a3 /\
    Info 0 a3 = (Ret (1, h), a4) /\ app_ChainID a4 = "rigo"%string.
Proof.
  destruct readyNode_commits as (h & Hc & Hm).
  destruct (restart_resumes (fun e : Z => e) (fun e => Ret e) mapDB_set_total noJson (fun bz => bz) noQuery (fun _ _ _ => eq_refl)
    readyNode _ h _ nextCalls 0 readyNode_ok Hc (fun _ _ => I) Hm eq_refl) as (b & a3 & a4 & Hb & Hn & Hi & _ & _ & Hch & _).
  exists h, (App_Commit readyNode).2, a3, a4. split; [exact Hc|]. split; [exact Hn|]. split; [|exact Hch].
  injection Hb as <-. exact Hi.
Defined.

(** The same node, stopped between the first and the second of the four commits. *)
Abbreviation tornNode := (mustM (world (zoom l_gov (GovCtrler_Commit DefaultHash))) readyNode).

Lemma torn_opens : exists hv a2, tornNode = (Ret hv, tornNode.2) /\ NewRigoApp (fun e => Ret e) (app_disk (fun e : Z => e) tornNode.2) = Ret a2.
Proof.
  assert (H : match tornNode.1 with Ret _ => match NewRigoApp (fun e => Ret e) (app_disk (fun e : Z => e) tornNode.2) with Ret _ => true | _ => false end | _ => false end = true)
    by (vm_compute; reflexivity).
  destruct tornNode as [[hv|e|] a1]; [|done..]. cbn [fst snd] in *. destruct (NewRigoApp _ _) as [a2| |]; [|done..]. by exists hv, a2.
Qed.

Lemma torn_commit_stuck_witness : exists a2 a3, App_Commit (forM_ nextCalls (run_call noJson (fun bz => bz) noQuery) a2).2 = (Panic, a3).
Proof.
  destruct torn_opens as (hv & a2 & Hc & Hn). exists a2.
  apply (torn_commit_stuck (fun e : Z => e) (fun e => Ret e) mapDB_set_total noJson (fun bz => bz) noQuery (fun _ _ _ => eq_refl) readyNode tornNode.2 a2 hv nextCalls readyNode_ok);
    [vm_compute; reflexivity|exact Hc|exact Hn].
Defined.

Lemma restart_forgets_validators_witness : exists a : @RigoApp mapTree Z (gmap string (list Byte.byte)), Validators (w_stake (app_world a)) = ([], 0).
Proof.
  destruct torn_opens as (hv & a2 & _ & Hn). exists a2.
  destruct (restart_forgets_validators (fun e => Ret e) noJson _ a2 Hn) as [H _]. exact H.
Defined.
