(* ===== verification/Commands.v ===== *)
(** * The commands of the node: [cmd/commands/]

    [init] makes the files of a node: the key and the signing state of the
    validator, the node key and the genesis document, with the wallets of the
    initial holders for a chain of one's own.  [unsafe-reset-all] removes the
    data and resets the signing state; [start] checks the hash of the genesis
    file and finds the passphrase; [wallet-key] shows key files.  Flags and
    printing are left out: a command is a function of the values of its flags, of
    what is typed at the prompts and of the random keys. *)

From Stdlib Require Import Strings.Byte.
From S2P Require Import Prelude Xerrors GoSem Bytes Units Crypto Slice FileIO GovParams WalletKey WalletProps FilePV FilePVProps Sfeeder.
From S2P Require Import AcctCtrler Stake StakeCtrler App Genesis.

(** The paths of the configuration. *)
Record Config : Type := mkConfig {
  cf_RootDir : string; cf_PrivValidatorKeyFile : string; cf_PrivValidatorStateFile : string; cf_NodeKeyFile : string;
  cf_GenesisFile : string; cf_Genesis : string; cf_DBDir : string; cf_AddrBookFile : string;
}.

(** The calls on files and directories beyond those of FileIO.v, and Tendermint's
    node key. *)
Class NodeTools `{FS : FileSystem} := {
  os_Stat : string -> Disk -> bool;
  os_Remove : string -> GoM Disk unit;
  os_RemoveAll : string -> GoM Disk unit;
  tmos_EnsureDir : string -> GoM Disk unit;
  tmos_WriteFile : string -> list Byte.byte -> GoM Disk unit;
  p2p_LoadOrGenNodeKey : string -> GoM Disk string;
  p2p_LoadNodeKey : string -> Disk -> string + string;
}.

(** [inside dir p]: the file [p] lies in the directory [dir]. *)
Class NodeToolsLaws `{NT : NodeTools} (inside : string -> string -> Prop) : Prop := {
  stat_read : forall p d, is_Some (os_ReadFile p d) -> os_Stat p d = true;
  remove_frame : forall path p d, p <> path -> os_ReadFile p (os_Remove path d).2 = os_ReadFile p d;
  remove_all_frame : forall dir p d, ~ inside dir p -> os_ReadFile p (os_RemoveAll dir d).2 = os_ReadFile p d;
  ensure_dir_frame : forall dir d, files_kept d (tmos_EnsureDir dir d).2;
  write_file : forall path bz d,
    (exists d', tmos_WriteFile path bz d = (Ret tt, d') /\ file_set path bz d d') \/
    (exists e d', tmos_WriteFile path bz d = (Err e, d') /\ forall p, p <> path -> os_ReadFile p d' = os_ReadFile p d);
  node_key_frame : forall path p d, p <> path -> os_ReadFile p (p2p_LoadOrGenNodeKey path d).2 = os_ReadFile p d;
}.

Section Commands.
Context {EC : EthCrypto} {KL : KeyLib} {CV : Curve} `{NT : NodeTools} {CW : Codec WalletKeyJSON} {CL : Codec LastSignJSON} {CGP : Codec GovParamsProto}.

(** The JSON library, the clock and the version; the documents of the public
    networks are constants. *)
Context (tmjson_Marshal : GenesisAppState -> string + list Byte.byte) (gdoc_Marshal : GenesisDoc -> string + list Byte.byte)
        (GenesisDocFromJSON : list Byte.byte -> string + GenesisDoc) (now : Z) (ver : Version_).
Context (jsonBlobMainnetGenesis jsonBlobTestnetGenesis jsonBlobDevnetGenesis : list Byte.byte).

Abbreviation Env := (mem * Disk)%type.
Definition on_disk {B} (m : GoM Disk B) : GoM Env B := zoom lens_snd m.
Definition on_mem {B} (m : GoM mem B) : GoM Env B := zoom lens_fst m.

(** A method of the validator, or of a wallet key; the object afterwards. *)
Definition run_pv (m : GoM (SFilePV * Env) unit) (pv : SFilePV) : GoM Env SFilePV := fun e =>
  let '(r, (pv', e')) := m (pv, e) in (match r with Ret _ => Ret pv' | Err x => Err x | Panic => Panic end, e').
Definition run_wk (m : GoM (WalletKey * mem) unit) (w : WalletKey) : GoM mem WalletKey := fun mm =>
  let '(r, (w', mm')) := m (w, mm) in (match r with Ret _ => Ret w' | Err x => Err x | Panic => Panic end, mm').

(** [defer]: the cleanup runs on every way out. *)
Definition finally {S B} (m : GoM S B) (cleanup : GoM S unit) : GoM S B := fun s =>
  let '(r, s1) := m s in let '(c, s2) := cleanup s1 in (match c with Panic => Panic | _ => r end, s2).

(** ** [init] *)

(** The flag, or what is typed. *)
Definition secret_of (flag : string) (typed : option (list Byte.byte)) : option (list Byte.byte) :=
  if bool_decide (flag = ""%string) then typed else Some (String.list_byte_of_string flag).

Definition walkey_dir (cfg : Config) : string := cf_RootDir cfg +:+ "/walkeys".
Definition walkey_name (dir : string) (addr : list Byte.byte) : string :=
  dir +:+ "/wk" +:+ String.string_of_list_byte (hex_Upper addr) +:+ ".json".

Definition MainnetGenesisDoc (chainId : string) : string + GenesisDoc := GenesisDocFromJSON jsonBlobMainnetGenesis.
Definition set_chain_id (chainId : string) (doc : GenesisDoc) : GenesisDoc :=
  mkGenesisDoc chainId (gd_GenesisTime doc) (gd_PubKeyTypes doc) (gd_AppVersion doc) (gd_Validators doc) (gd_AppState doc) (gd_AppHash doc).
Definition TestnetGenesisDoc (chainId : string) : string + GenesisDoc :=
  match GenesisDocFromJSON jsonBlobTestnetGenesis with inl e => inl e | inr genDoc => inr (set_chain_id chainId genDoc) end.
Definition DevnetGenesisDoc (chainId : string) : string + GenesisDoc :=
  match GenesisDocFromJSON jsonBlobDevnetGenesis with inl e => inl e | inr genDoc => inr (set_chain_id chainId genDoc) end.
Definition of_doc (r : string + GenesisDoc) : outcome GenesisDoc := match r with inl e => Err (NewOrdinary e) | inr doc => Ret doc end.

(** The validator of the node: the existing one, or a new one that is saved. *)
Definition init_validator (cfg : Config) (prv salt iv : list Byte.byte) (secret : option (list Byte.byte)) : GoM Env SFilePV :=
  let! d := getsM snd in
  if tmos_FileExists (cf_PrivValidatorKeyFile cfg) d
  then LoadSFilePV (cf_PrivValidatorKeyFile cfg) (cf_PrivValidatorStateFile cfg) secret
  else
    let! pv := liftO (NewSFilePV prv (cf_PrivValidatorKeyFile cfg) (cf_PrivValidatorStateFile cfg)) in
    run_pv (SaveWith secret salt iv) pv.

Definition init_node_key (cfg : Config) : GoM Env unit :=
  let! d := getsM snd in
  if tmos_FileExists (cf_NodeKeyFile cfg) d then retM tt else let! _ := on_disk (p2p_LoadOrGenNodeKey (cf_NodeKeyFile cfg)) in retM tt.

Fixpoint unlock_all (secret : option (list Byte.byte)) (wks : list WalletKey) : GoM mem (list WalletKey) :=
  match wks with
  | [] => retM []
  | w :: wks' =>
      let! w' := run_wk (Unlock secret) w in
      let! r := unlock_all secret wks' in
      retM (w' :: r)
  end.
Definition lock_all (wks : list WalletKey) : GoM mem unit := forM_ wks (fun w => let! _ := run_wk wk_Lock w in retM tt).

(** [uint256.MustFromDecimal("100000000000000000000000000")] *)
Definition holder_balance : Z := 100000000 * 1000000000000000000.

(** The wallets of a chain of one's own: new ones for the holders, which are
    unlocked, and a copy of the key of the validator. *)
Definition init_wallets (cfg : Config) (secret : option (list Byte.byte)) (rnd : list (list Byte.byte * list Byte.byte * list Byte.byte)) : GoM Env (list WalletKey) :=
  let dir := walkey_dir cfg in
  do! on_disk (tmos_EnsureDir dir) in
  let! walkeys := CreateWalletKeyFiles (walkey_name dir) secret rnd in
  let! pvWalKey := OpenWalletKey (cf_PrivValidatorKeyFile cfg) in
  do! wk_Save pvWalKey (walkey_name dir (wk_Address pvWalKey)) in
  on_mem (unlock_all secret walkeys).

(** The validator is the only one; each holder starts with the same balance. *)
Definition local_genesis (chainID : string) (pv : SFilePV) (walkeys : list WalletKey) : outcome GenesisDoc :=
  match min_validator_power DefaultGovParams with
  | Ret power => NewGenesisDoc tmjson_Marshal now ver chainID [(k_PubKey (pv_Key pv), power)] (map (fun wk => mkHolder (wk_Address wk) holder_balance) walkeys) DefaultGovParams
  | Err e => Err e
  | Panic => Panic
  end.

Definition save_doc_as (doc : GenesisDoc) (path : string) : GoM Env unit :=
  match gdoc_Marshal doc with inl e => errM (NewOrdinary e) | inr bz => on_disk (tmos_WriteFile path bz) end.

Definition init_genesis (cfg : Config) (chainID : string) (pv : SFilePV) (secret : option (list Byte.byte))
    (rnd : list (list Byte.byte * list Byte.byte * list Byte.byte)) : GoM Env unit :=
  let! d := getsM snd in
  if tmos_FileExists (cf_GenesisFile cfg) d then retM tt
  else if bool_decide (chainID = "mainnet"%string) then let! doc := liftO (of_doc (MainnetGenesisDoc chainID)) in save_doc_as doc (cf_GenesisFile cfg)
  else if bool_decide (chainID = "testnet"%string) then let! doc := liftO (of_doc (TestnetGenesisDoc chainID)) in save_doc_as doc (cf_GenesisFile cfg)
  else if bool_decide (chainID = "devnet"%string) then let! doc := liftO (of_doc (DevnetGenesisDoc chainID)) in save_doc_as doc (cf_GenesisFile cfg)
  else
    let! walkeys := init_wallets cfg secret rnd in
    finally (let! doc := liftO (local_genesis chainID pv walkeys) in save_doc_as doc (cf_GenesisFile cfg)) (on_mem (lock_all walkeys)).

(** [rnd]: key, salt and initialisation vector of each new wallet. *)
Definition InitFilesWith (chainID : string) (cfg : Config) (secret : option (list Byte.byte)) (prv salt iv : list Byte.byte)
    (rnd : list (list Byte.byte * list Byte.byte * list Byte.byte)) : GoM Env unit :=
  let! pv := init_validator cfg prv salt iv secret in
  do! init_node_key cfg in
  init_genesis cfg chainID pv secret rnd.

(** ** [unsafe-reset-all], [unsafe-reset-priv-validator] *)
Definition removeAddrBook (addrBookFile : string) : GoM Disk unit := ignoreM (os_Remove addrBookFile).

Definition resetFilePV (keyFile stateFile : string) (secret : option (list Byte.byte)) (prv salt iv : list Byte.byte) : GoM Env unit :=
  let! d := getsM snd in
  if os_Stat keyFile d then
    let! pv := LoadSFilePVEmptyState keyFile stateFile secret in
    let! _ := run_pv (ResetWith secret salt iv) pv in retM tt
  else
    let! pv := liftO (NewSFilePV prv keyFile stateFile) in
    let! _ := run_pv (SaveWith secret salt iv) pv in retM tt.

(** Errors are logged and the reset goes on. *)
Definition ResetAll (keepAddrBook : bool) (cfg : Config) (secret : option (list Byte.byte)) (prv salt iv : list Byte.byte) : GoM Env unit :=
  do! (if keepAddrBook then retM tt else on_disk (removeAddrBook (cf_AddrBookFile cfg))) in
  do! ignoreM (on_disk (os_RemoveAll (cf_DBDir cfg))) in
  do! ignoreM (on_disk (tmos_EnsureDir (cf_DBDir cfg))) in
  resetFilePV (cf_PrivValidatorKeyFile cfg) (cf_PrivValidatorStateFile cfg) secret prv salt iv.

(** ** [start] *)
Definition checkGenesisHash (genesisHash : list Byte.byte) (cfg : Config) (d : Disk) : outcome unit :=
  if bool_decide (genesisHash = []) || bool_decide (cf_Genesis cfg = ""%string) then Ret tt
  else match os_ReadFile (cf_GenesisFile cfg) d with
       | None => Err (NewOrdinary "can't open genesis file: %w")
       | Some content =>
           if bool_decide (genesisHash = DefaultHash [content]) then Ret tt
           else Err (NewOrdinary "--genesis_hash=%X does not match %s hash: %X")
       end.

(** [RunE] until the node starts: the passphrase comes from the feeder, the flag
    or the prompt.  [dial] connects to a feeder, another process with its own
    files; [prv0] is the random key of the handshake; [provider] makes the node. *)
Definition run_node {N : Type} (genesisHash : list Byte.byte) (feederAddr flag : string) (typed : option (list Byte.byte)) (cfg : Config)
    (dial : string -> string + SecretFeederHandler * Disk) (prv0 : PrivateKey) (provider : option (list Byte.byte) -> GoM Env N) : GoM Env N :=
  let! d := getsM snd in
  do! liftO (checkGenesisHash genesisHash cfg d) in
  let! s := if bool_decide (feederAddr = ""%string) then retM (secret_of flag typed)
            else
              let! wkf := OpenWalletKey (cf_PrivValidatorKeyFile cfg) in
              let! id := liftO (match p2p_LoadNodeKey (cf_NodeKeyFile cfg) d with inl e => Err (NewOrdinary e) | inr id => Ret id end) in
              let! feeder := liftO (match dial feederAddr with inl e => Err (NewOrdinary e) | inr f => Ret f end) in
              let! s := liftO (ReadRemoteCredential id (wk_Address wkf) prv0 feeder).1 in
              retM (Some s) in
  let! r := tryM (provider s) in
  match r with inl _ => errM (NewOrdinary "failed to create rigo: %w") | inr n => retM n end.

(** [NewRigoNode] of node/node.go: [open_app] opens the application ([NewRigoApp],
    Restart.v) and [tmnode_NewNode] makes Tendermint's node of the validator, the
    node key and the application. *)
Definition NewRigoNode {A N : Type} (cfg : Config) (open_app : outcome A) (tmnode_NewNode : SFilePV -> string -> A -> outcome N)
    (prv salt iv : list Byte.byte) (s : option (list Byte.byte)) : GoM Env N :=
  let! r := tryM (on_disk (p2p_LoadOrGenNodeKey (cf_NodeKeyFile cfg))) in
  match r with
  | inl _ => errM (NewOrdinary "failed to load or gen rigo key %s: %w")
  | inr nodeKey =>
      let! pv := LoadOrGenSFilePV (cf_PrivValidatorKeyFile cfg) (cf_PrivValidatorStateFile cfg) s prv salt iv in
      let! app := liftO open_app in
      liftO (tmnode_NewNode pv nodeKey app)
  end.

(** ** [wallet-key] *)

(** What is printed of a key file: the wallet, the private and the public key.
    The deferred [Lock] runs after the printing. *)
Definition showWalletKeyFile (flag : string) (typed : option (list Byte.byte)) (path : string) : GoM Env (WalletKey * option (list Byte.byte) * list Byte.byte) :=
  let! wk := OpenWalletKey path in
  let! wk := on_mem (run_wk (Unlock (secret_of flag typed)) wk) in
  let! shown := getsM (fun e => (wk, PrvKey (wk, e.1), wk_pubKey wk)) in
  do! on_mem (let! _ := run_wk wk_Lock wk in retM tt) in
  retM shown.

(** The entries that [filepath.WalkDir] visits, in order: an error, or a path with
    whether it is a directory.  Showing a file does not change the disk. *)
Context (WalkDir : string -> Disk -> list (string + string * bool)).

Fixpoint show_entries (flag : string) (typed : string -> option (list Byte.byte)) (l : list (string + string * bool)) : GoM Env (list (WalletKey * option (list Byte.byte) * list Byte.byte)) :=
  match l with
  | [] => retM []
  | inl e :: _ => errM (NewOrdinary e)
  | inr (entry, isDir) :: l' =>
      if isDir then show_entries flag typed l'
      else
        let! shown := showWalletKeyFile flag (typed entry) entry in
        let! r := show_entries flag typed l' in
        retM (shown :: r)
  end.
Definition showWalletKeyDir (flag : string) (typed : string -> option (list Byte.byte)) (path : string) : GoM Env (list (WalletKey * option (list Byte.byte) * list Byte.byte)) :=
  let! d := getsM snd in
  show_entries flag typed (WalkDir path d).

(** [os.UserHomeDir] and the kind of an existing file; only a leading tilde is
    replaced. *)
Context (UserHomeDir : string + string) (os_IsDir : string -> Disk -> bool).

Definition expand_home (arg : string) : outcome string :=
  if String.prefix "~" arg
  then match UserHomeDir with inl e => Err (NewOrdinary e) | inr home => Ret (home +:+ String.substring 1 (String.length arg - 1) arg) end
  else Ret arg.

(** [typed], and what is typed for a change of the passphrase, by path; [rnd] is
    the salt and the initialisation vector of the new key. *)
Fixpoint handleWalletKey (changePass : bool) (flag : string) (typed : string -> option (list Byte.byte)) (typed1 : string -> list Byte.byte)
    (rnd : string -> list Byte.byte * list Byte.byte) (args : list string) : GoM Env (list (WalletKey * option (list Byte.byte) * list Byte.byte)) :=
  match args with
  | [] => retM []
  | arg :: args' =>
      let! arg := liftO (expand_home arg) in
      let! d := getsM snd in
      if os_Stat arg d then
        let! shown :=
          if changePass then let! _ := resetPassphrase arg (typed arg) (typed1 arg) (rnd arg).1 (rnd arg).2 in retM []
          else if os_IsDir arg d then showWalletKeyDir flag typed arg
          else let! x := showWalletKeyFile flag (typed arg) arg in retM [x] in
        let! r := handleWalletKey changePass flag typed typed1 rnd args' in
        retM (shown ++ r)
      else errM (NewOrdinary "no such file or directory")
  end.
End Commands.
