(* ===== verification/CommandProps.v ===== *)
(** * What the commands do to the files of a node

    [init] never overwrites a key, a signing state or a genesis document that is
    there; what it makes can be started; a reset keeps the key and forgets the
    signing state. *)

From Stdlib Require Import Strings.Byte.
From S2P Require Import Prelude Xerrors GoSem Bytes Units Crypto Slice FileIO GovParams WalletKey WalletProps FilePV FilePVProps Sfeeder.
From S2P Require Import AcctCtrler Stake StakeCtrler App Genesis Frame Commands.

Section Frames.
Context {EC : EthCrypto} {KL : KeyLib} {FS : FileSystem} {FSL : FileSystemLaws} {NT : NodeTools} (inside : string -> string -> Prop) {NTL : NodeToolsLaws inside}.
Context {CW : Codec WalletKeyJSON} {CL : Codec LastSignJSON} {CGP : Codec GovParamsProto}.
Context (p : string).

(** The content of the file [p]. *)
Abbreviation rd := (fun e : mem * Disk => os_ReadFile p e.2).
Abbreviation rd1 := (os_ReadFile p).

Lemma fixes_on_mem {B} (m : GoM mem B) : fixes rd (on_mem m).
Proof. intros [mm d]. unfold on_mem, zoom. by destruct (m _). Qed.
Lemma fixes_zoom_fst {B} (m : GoM mem B) : fixes rd (zoom lens_fst m).
Proof. exact (fixes_on_mem m). Qed.
Lemma fixes_on_disk {B} (m : GoM Disk B) : fixes rd1 m -> fixes rd (on_disk m).
Proof. apply fixes_zoom. by intros a [mm d]. Qed.
Lemma fixes_atomic path bz : p <> path -> fixes rd1 (tempfile_WriteFileAtomic path bz).
Proof. intros Hp d. destruct (write_atomic path bz d) as [(d' & -> & _ & H)|(e & d' & -> & H)]; cbn; auto. Qed.
Lemma fixes_file_io path bz : p <> path -> fixes rd1 (FileIO_Write path bz).
Proof. intros Hp d. by apply file_io_write_frame. Qed.
Hint Resolve @fixes_on_mem @fixes_zoom_fst fixes_atomic fixes_file_io : frame.

Lemma fixes_wk_save w path : p <> path -> fixes rd (wk_Save w path).
Proof. intros Hp. unfold wk_Save. frame_tac. apply (fixes_zoom _ _ rd1); [by intros ? [? ?]|]. by apply fixes_file_io. Qed.
Lemma fixes_open path : fixes rd (OpenWalletKey path).
Proof. unfold OpenWalletKey. frame_tac. Qed.
Hint Resolve fixes_wk_save fixes_open : frame.

Lemma fixes_create_keys keyName s rnd : (forall a, p <> keyName a) -> fixes rd (CreateWalletKeyFiles keyName s rnd).
Proof.
  intros Hp. induction rnd as [|[[prv salt] iv] rnd IH]; cbn [CreateWalletKeyFiles]; [done|]. unfold createWalletKeyFile. frame_tac.
Qed.

Lemma fixes_load_pv kf sf b s : fixes rd (loadSFilePV kf sf b s).
Proof.
  unfold loadSFilePV. frame_tac.
  intros [mm d]. destruct (Unlock _ _) as [[| |] [w' m']]; [|done..]. by destruct (wk_Lock _) as [? [? ?]].
Qed.

Lemma fixes_key_save k s salt iv : p <> k_filePath k -> fixes rd (Key_SaveWith k s salt iv).
Proof. intros Hp. unfold Key_SaveWith. frame_tac. Qed.
Lemma fixes_save lss : p <> ls_filePath lss -> fixes rd1 (Save lss).
Proof. intros Hp. unfold Save. frame_tac. Qed.

Lemma fixes_run_pv m pv : (forall e, os_ReadFile p (m (pv, e)).2.2.2 = rd e) -> fixes rd (run_pv m pv).
Proof. intros Hm e. unfold run_pv. specialize (Hm e). by destruct (m (pv, e)) as [r [pv' e']]. Qed.

Lemma fixes_save_with pv s salt iv : p <> k_filePath (pv_Key pv) -> p <> ls_filePath (LastSignState pv) -> fixes rd (run_pv (SaveWith s salt iv) pv).
Proof.
  intros Hk Hl. apply fixes_run_pv. intros e. unfold SaveWith. rewrite (bindM_step _ _ _ pv (pv, e)) by done.
  unfold bindM, zoom at 1. cbn [lget lens_env fst snd lset]. pose proof (fixes_key_save (pv_Key pv) s salt iv Hk e) as H1.
  destruct (Key_SaveWith _ _ _ _ e) as [[u|x|] e1]; cbn [fst snd] in *; [|done..].
  unfold zoom. cbn [lget lens_disk fst snd lset]. pose proof (fixes_save (LastSignState pv) Hl e1.2) as H2.
  destruct (Save _ e1.2) as [r d']. cbn in *. by rewrite H2.
Qed.

(** ** [init] *)
Context (tmjson_Marshal : GenesisAppState -> string + list Byte.byte) (gdoc_Marshal : GenesisDoc -> string + list Byte.byte)
        (GenesisDocFromJSON : list Byte.byte -> string + GenesisDoc) (now : Z) (ver : Version_).
Context (jsonBlobMainnetGenesis jsonBlobTestnetGenesis jsonBlobDevnetGenesis : list Byte.byte).
Abbreviation Init := (InitFilesWith tmjson_Marshal gdoc_Marshal GenesisDocFromJSON now ver jsonBlobMainnetGenesis jsonBlobTestnetGenesis jsonBlobDevnetGenesis).
Abbreviation InitGenesis := (init_genesis tmjson_Marshal gdoc_Marshal GenesisDocFromJSON now ver jsonBlobMainnetGenesis jsonBlobTestnetGenesis jsonBlobDevnetGenesis).

Lemma fixes_finally {S B D} (f : S -> D) (m : GoM S B) c : fixes f m -> fixes f c -> fixes f (finally m c).
Proof.
  intros Hm Hc s. unfold finally. specialize (Hm s). destruct (m s) as [r s1]. specialize (Hc s1). destruct (c s1) as [u s2]. cbn in *. by rewrite Hc.
Qed.
Lemma fixes_save_doc doc path : p <> path -> fixes rd (save_doc_as gdoc_Marshal doc path).
Proof using NTL.
  intros Hp. unfold save_doc_as. frame_tac. apply fixes_on_disk. intros d.
  match goal with |- context [tmos_WriteFile path ?bz d] => destruct (write_file (inside := inside) path bz d) as [(d' & -> & _ & Hx)|(e & d' & -> & Hx)] end; cbn; auto.
Qed.
Hint Resolve fixes_save_doc : frame.

Lemma fixes_init_wallets cfg s rnd : (forall a, p <> walkey_name (walkey_dir cfg) a) -> fixes rd (init_wallets cfg s rnd).
Proof using NTL FSL.
  intros Hp. unfold init_wallets. frame_tac.
  - apply fixes_on_disk. intros d. apply (ensure_dir_frame (inside := inside)).
  - by apply fixes_create_keys.
Qed.

Hint Resolve fixes_init_wallets : frame.

Lemma fixes_node_key cfg : p <> cf_NodeKeyFile cfg -> fixes rd (init_node_key cfg).
Proof using NTL. intros Hp. unfold init_node_key. frame_tac. apply fixes_on_disk. intros d. by apply (node_key_frame (inside := inside)). Qed.

Lemma fixes_init_genesis cfg ch pv s rnd : (forall a, p <> walkey_name (walkey_dir cfg) a) -> p <> cf_GenesisFile cfg -> fixes rd (InitGenesis cfg ch pv s rnd).
Proof using NTL FSL.
  intros Hp Hg. unfold init_genesis. frame_tac. apply fixes_finally; frame_tac.
Qed.

(** C31: what [init] keeps.  Whatever the outcome, a key file, a node key, a
    genesis document or any other file that is there keeps its content, with two
    exceptions: the signing state is kept only if there is a key file (a state file
    without one is overwritten by that of the new key), and the theorem does not
    speak of the files of wallets, which are named by their addresses. *)
Theorem init_never_overwrites chainID cfg secret prv salt iv rnd mm d bz :
  os_ReadFile p d = Some bz -> (p = cf_PrivValidatorStateFile cfg -> is_Some (os_ReadFile (cf_PrivValidatorKeyFile cfg) d)) ->
  (forall addr, p <> walkey_name (walkey_dir cfg) addr) ->
  os_ReadFile p (Init chainID cfg secret prv salt iv rnd (mm, d)).2.2 = Some bz.
Proof using NTL FSL.
  intros Hr Hs Hw. unfold InitFilesWith.
  assert (H1 : os_ReadFile p (init_validator cfg prv salt iv secret (mm, d)).2.2 = Some bz).
  { unfold init_validator. rewrite (bindM_step _ _ _ d (mm, d)) by done. destruct (tmos_FileExists (cf_PrivValidatorKeyFile cfg) d) eqn:Ek.
    - unfold LoadSFilePV. by rewrite (fixes_load_pv _ _ _ _ (mm, d)).
    - assert (Hk : p <> cf_PrivValidatorKeyFile cfg) by (intros ->; by rewrite (read_exists _ _ _ Hr) in Ek).
      assert (Hsf : p <> cf_PrivValidatorStateFile cfg) by (intros ->; destruct (Hs eq_refl) as [? Hx]; by rewrite (read_exists _ _ _ Hx) in Ek).
      unfold NewSFilePV, bindM, liftO. destruct (PubBytes2Addr _); [|done..]. rewrite <- Hr. by apply (fixes_save_with (mkSFilePV _ _)). }
  unfold bindM at 1. destruct (init_validator cfg prv salt iv secret (mm, d)) as [[pv|x|] e1]; [|done..]. cbn [snd] in H1.
  assert (H2 : os_ReadFile p (init_node_key cfg e1).2.2 = Some bz).
  { unfold init_node_key. rewrite (bindM_step _ _ _ e1.2 e1) by done. destruct (tmos_FileExists (cf_NodeKeyFile cfg) e1.2) eqn:En; [done|].
    assert (Hn : p <> cf_NodeKeyFile cfg) by (intros ->; by rewrite (read_exists _ _ _ H1) in En).
    pose proof (fixes_node_key cfg Hn e1) as Hx. unfold init_node_key in Hx. rewrite (bindM_step _ _ _ e1.2 e1), En in Hx by done. by rewrite Hx. }
  unfold bindM at 1. destruct (init_node_key cfg e1) as [[u|x|] e2]; [|done..]. cbn [snd] in H2.
  destruct (decide (p = cf_GenesisFile cfg)) as [->|Hg]; [|by rewrite (fixes_init_genesis cfg chainID pv secret rnd Hw Hg e2)].
  unfold init_genesis. rewrite (bindM_step _ _ _ e2.2 e2) by done. by rewrite (read_exists _ _ _ H2).
Qed.
End Frames.

(** ** Keys that are made and loaded *)
Section Keys.
Context {EC : EthCrypto} {KL : KeyLib} {KLL : KeyLibLaws} {FS : FileSystem} {FSL : FileSystemLaws} {NT : NodeTools} (inside : string -> string -> Prop) {NTL : NodeToolsLaws inside}.
Context {CW : Codec WalletKeyJSON} {KFL : KeyFileLaws} {CGP : Codec GovParamsProto}.
Context {CL : Codec LastSignJSON} {CLL : CodecLaws LastSignJSON lj_valid} {CLT : CodecTotal LastSignJSON lj_valid}.
Context (key pass : list Byte.byte) (Hkey : length key = 32%nat).

Lemma doc_holds_read path d d' : os_ReadFile path d' = os_ReadFile path d -> doc_holds key path pass d -> doc_holds key path pass d'.
Proof. intros Hr (bz & j & H & Hj). exists bz, j. by rewrite Hr. Qed.
Lemma state_file_read sf d d' j : os_ReadFile sf d' = os_ReadFile sf d -> state_file sf d j -> state_file sf d' j.
Proof. intros Hr (bz & H & Hj). exists bz. by rewrite Hr. Qed.

(** A state file in which nothing has been signed. *)
Definition unsigned : LastSignJSON := mkLastSignJSON 0 0 0 None None.
Lemma unsigned_valid : lj_valid unsigned. Proof. unfold lj_valid, is_i64, is_i32; cbn. split_and!; try done; lia. Qed.

Lemma key_save_doc k salt iv m d m' d' :
  heap_wf m -> k_PrivKey k = key -> length salt = 32%nat -> length iv = 16%nat -> Key_SaveWith k (Some pass) salt iv (m, d) = (Ret tt, (m', d')) ->
  doc_holds key (k_filePath k) pass d' /\ heap_wf m'.
Proof using Hkey KLL FSL KFL.
  intros Hwf Hk Hsalt Hiv Hs. unfold Key_SaveWith in Hs. destruct (bool_decide _); [done|]. rewrite Hk in Hs.
  assert (Hne : key <> []) by (by intros ->).
  destruct (smake_spec key m Hwf) as (m0 & Hm0 & Hwf0 & Hr0 & Hok0 & Hcap0 & _).
  destruct (new_holds key Hne _ pass salt iv m0 Hok0 Hwf0 Hr0 Hcap0 Hsalt Hiv) as (w & m1 & Hn & Hh & _ & Hv & Ha & Hal & _).
  erewrite bindM_step in Hs by (apply (zoom_eq lens_fst); exact Hm0). erewrite bindM_step in Hs by (apply (zoom_eq lens_fst); exact Hn).
  cbn [lset lens_fst fst snd] in Hs. rewrite must_inv in Hs. destruct (wk_Save w (k_filePath k) (m1, d)) as [[[]|e|] [m2 d2]] eqn:Hw; [|done..].
  injection Hs as <- <-.
  assert (m2 = m1) as ->.
  { unfold wk_Save in Hw. rewrite (bindM_step _ _ _ (wk_toJSON w m1) (m1, d)) in Hw by done. destruct (codec_Marshal _); [done|].
    apply zoom_inv in Hw as (d3 & _ & [= -> ->]). done. }
  split; [|apply Hh]. by apply (save_doc key Hkey pass w m1 _ d).
Qed.

Lemma save_with_ret pv j salt iv m d pv' m' d' :
  heap_wf m -> k_PrivKey (pv_Key pv) = key -> length salt = 32%nat -> length iv = 16%nat ->
  ls_toJSON (LastSignState pv) = j -> lj_valid j -> ls_filePath (LastSignState pv) <> k_filePath (pv_Key pv) ->
  run_pv (SaveWith (Some pass) salt iv) pv (m, d) = (Ret pv', (m', d')) ->
  pv' = pv /\ doc_holds key (k_filePath (pv_Key pv)) pass d' /\ state_file (ls_filePath (LastSignState pv)) d' j.
Proof using Hkey KLL FSL KFL CLL CLT.
  intros Hwf Hk Hsalt Hiv Hj Hval Hne Hs. unfold run_pv, SaveWith in Hs. rewrite (bindM_step _ _ _ pv (pv, (m, d))) in Hs by done.
  unfold bindM, zoom at 1 in Hs. cbn [lget lens_env fst snd lset] in Hs.
  destruct (Key_SaveWith (pv_Key pv) (Some pass) salt iv (m, d)) as [[[]|e|] [m1 d1]] eqn:Hks; [|done..].
  destruct (key_save_doc _ _ _ _ _ _ _ Hwf Hk Hsalt Hiv Hks) as [Hd _].
  unfold zoom in Hs. cbn [lget lens_disk fst snd lset] in Hs.
  assert (Hp : ls_filePath (LastSignState pv) <> ""%string).
  { intros Hx. unfold Save in Hs. by rewrite Hx in Hs. }
  destruct (save_spec _ Hp (LastSignState pv) d1 eq_refl) as [(d2 & Hsv & Hf & Ho)|(d2 & Hsv & _)]; [by rewrite Hj| |]; rewrite Hsv in Hs; [|done].
  injection Hs as <- <- <-. split_and!; [done| |by rewrite Hj in Hf]. apply (doc_holds_read _ d1); [by rewrite Ho|done].
Qed.

(** A start saves the key that the passphrase has decrypted to: nothing compares
    it with the address in the file.  A wrong passphrase whose padding happens to
    be right replaces the key of the validator. *)
Lemma start_saves_decrypted kf sf prv salt iv m d m1 pv pv' m' d' :
  tmos_FileExists kf d = true -> LoadSFilePV kf sf (Some pass) (m, d) = (Ret pv, (m1, d)) -> heap_wf m1 -> k_PrivKey (pv_Key pv) = key ->
  k_filePath (pv_Key pv) = kf -> ls_filePath (LastSignState pv) = sf -> sf <> kf -> lj_valid (ls_toJSON (LastSignState pv)) -> length salt = 32%nat -> length iv = 16%nat ->
  LoadOrGenSFilePV kf sf (Some pass) prv salt iv (m, d) = (Ret pv', (m', d')) -> doc_holds key kf pass d'.
Proof using Hkey KLL FSL KFL CLL CLT.
  intros Hex Hl Hwf Hk Hkf Hsf Hne Hv Hsalt Hiv Hr. unfold LoadOrGenSFilePV in Hr. rewrite (bindM_step _ _ _ d (m, d)) in Hr by done.
  rewrite Hex, (bindM_step _ _ _ _ _ Hl) in Hr.
  destruct (save_with_ret pv _ salt iv m1 d pv' m' d' Hwf Hk Hsalt Hiv eq_refl Hv ltac:(congruence)) as (_ & Hd & _); [|by rewrite <- Hkf].
  unfold run_pv. destruct (SaveWith (Some pass) salt iv (pv, (m1, d))) as [[u|e|] [pv2 e2]]; by injection Hr as <- <-.
Qed.

(** Loading gives the key back, with the state of the file or an empty one. *)
Definition loaded (kf sf : string) (j : LastSignJSON) : SFilePV :=
  mkSFilePV (mkSFilePVKey (tm_Address (tm_PubKey key)) (tm_PubKey key) key kf) (ls_fromJSON j sf).

Lemma load_key kf sf (b : bool) j m d :
  heap_wf m -> doc_holds key kf pass d -> (if b then state_file sf d j else j = unsigned) ->
  exists m', loadSFilePV kf sf b (Some pass) (m, d) = (Ret (loaded kf sf j), (m', d)) /\ heap_wf m'.
Proof using Hkey KLL.
  intros Hwf (bz & jw & Hr & _ & Hu & Hw) Hb. assert (Hne : key <> []) by (by intros ->).
  destruct (Hw m Hwf) as (w & m1 & Hj & Hh & _ & _). destruct (unlock_holds key Hne _ _ Hh) as ([w2 m2] & Hul & Hh2 & Hpk & _).
  destruct (lock_holds key _ _ Hh2) as ([w3 m3] & Hlk & Hh3 & _). exists m3. split; [|apply Hh3].
  unfold loadSFilePV. rewrite (bindM_step _ _ _ d (m, d)) by done. rewrite Hr, Hu.
  erewrite bindM_step by (apply (zoom_eq lens_fst); exact Hj). cbn [lset lens_fst fst snd].
  erewrite bindM_step by (cbn [fst snd]; rewrite Hul, Hpk, Hlk; reflexivity). cbn [default from_option id].
  erewrite bindM_step by (rewrite must_inv; unfold liftO, PubBytes2Addr; rewrite pubkey_length; reflexivity).
  destruct b; [|by subst j]. destruct Hb as (bz' & Hr' & Hu'). by rewrite Hr', Hu'.
Qed.

(** The files of a validator that has signed nothing: every start with the
    passphrase loads the key. *)
Definition starts_fresh (cfg : Config) (d : Disk) : Prop :=
  forall m, heap_wf m -> exists m', LoadSFilePV (cf_PrivValidatorKeyFile cfg) (cf_PrivValidatorStateFile cfg) (Some pass) (m, d) =
    (Ret (loaded (cf_PrivValidatorKeyFile cfg) (cf_PrivValidatorStateFile cfg) unsigned), (m', d)).
Lemma starts_fresh_files cfg d :
  doc_holds key (cf_PrivValidatorKeyFile cfg) pass d -> state_file (cf_PrivValidatorStateFile cfg) d unsigned -> starts_fresh cfg d.
Proof using Hkey KLL. intros Hd Hs m Hwf. destruct (load_key _ _ true unsigned m d Hwf Hd Hs) as (m' & H & _). by exists m'. Qed.

(** A reset keeps the key.  [unsafe-reset-all] with the passphrase of the key
    (which does not lie in the directory that is removed) leaves a validator that
    loads with the same passphrase to the same key, and whose signing state is
    empty. *)
Theorem reset_keeps_key keepAddrBook cfg prv salt iv m d m' d' :
  heap_wf m -> doc_holds key (cf_PrivValidatorKeyFile cfg) pass d -> length salt = 32%nat -> length iv = 16%nat ->
  cf_PrivValidatorStateFile cfg <> cf_PrivValidatorKeyFile cfg -> cf_PrivValidatorKeyFile cfg <> cf_AddrBookFile cfg ->
  ~ inside (cf_DBDir cfg) (cf_PrivValidatorKeyFile cfg) ->
  ResetAll keepAddrBook cfg (Some pass) prv salt iv (m, d) = (Ret tt, (m', d')) -> starts_fresh cfg d'.
Proof using All.
  intros Hwf Hd Hsalt Hiv Hsk Hab Hin Hr. unfold ResetAll in Hr. set (kf := cf_PrivValidatorKeyFile cfg) in *. set (sf := cf_PrivValidatorStateFile cfg) in *.
  apply bindM_inv in Hr as ([] & [m1 d1] & H1 & ([] & [m2 d2] & H2 & ([] & [m3 d3] & H3 & Hr)%bindM_inv)%bindM_inv).
  assert (K1 : m1 = m /\ os_ReadFile kf d1 = os_ReadFile kf d).
  { destruct keepAddrBook; [by injection H1 as <- <-|]. unfold on_disk, removeAddrBook, zoom, ignoreM in H1. cbn in H1.
    pose proof (remove_frame (inside := inside) (cf_AddrBookFile cfg) kf d Hab) as Hf. destruct (os_Remove _ d) as [[u|e|] dx]; [|..|done]; injection H1 as <- <-; done. }
  assert (K2 : m2 = m1 /\ os_ReadFile kf d2 = os_ReadFile kf d1).
  { unfold on_disk, zoom, ignoreM in H2. cbn in H2. pose proof (remove_all_frame (inside := inside) (cf_DBDir cfg) kf d1 Hin) as Hf.
    destruct (os_RemoveAll _ d1) as [[u|e|] dx]; [|..|done]; injection H2 as <- <-; done. }
  assert (K3 : m3 = m2 /\ os_ReadFile kf d3 = os_ReadFile kf d2).
  { unfold on_disk, zoom, ignoreM in H3. cbn in H3. pose proof (ensure_dir_frame (inside := inside) (cf_DBDir cfg) d2 kf) as Hf.
    destruct (tmos_EnsureDir _ d2) as [[u|e|] dx]; [|..|done]; injection H3 as <- <-; done. }
  destruct K1 as [-> K1], K2 as [-> K2], K3 as [-> K3]. apply (doc_holds_read _ d d3) in Hd; [|congruence].
  unfold resetFilePV in Hr. rewrite (bindM_step _ _ _ d3 (m, d3)) in Hr by done. fold kf sf in Hr.
  rewrite (stat_read (inside := inside)) in Hr by (destruct Hd as (bz & ? & Hx & _); rewrite Hx; eauto).
  destruct (load_key kf sf false unsigned m d3 Hwf Hd eq_refl) as (m4 & Hl & Hwf4). unfold LoadSFilePVEmptyState in Hr. rewrite (bindM_step _ _ _ _ _ Hl) in Hr.
  apply bindM_inv in Hr as (pv' & [m5 d5] & Hs & [= <- <-]).
  change (run_pv (ResetWith (Some pass) salt iv) (loaded kf sf unsigned) (m4, d3)) with (run_pv (SaveWith (Some pass) salt iv) (loaded kf sf unsigned) (m4, d3)) in Hs.
  destruct (save_with_ret (loaded kf sf unsigned) unsigned _ _ _ _ _ _ _ Hwf4 eq_refl Hsalt Hiv eq_refl unsigned_valid Hsk Hs) as (_ & Hd5 & Hf5). by apply starts_fresh_files.
Qed.

(** ** A new node *)
Context (tmjson_Marshal : GenesisAppState -> string + list Byte.byte) (gdoc_Marshal : GenesisDoc -> string + list Byte.byte)
        (GenesisDocFromJSON : list Byte.byte -> string + GenesisDoc) (now : Z) (ver : Version_).
Context (jsonBlobMainnetGenesis jsonBlobTestnetGenesis jsonBlobDevnetGenesis : list Byte.byte).
Abbreviation Init := (InitFilesWith tmjson_Marshal gdoc_Marshal GenesisDocFromJSON now ver jsonBlobMainnetGenesis jsonBlobTestnetGenesis jsonBlobDevnetGenesis).
Abbreviation InitGenesis := (init_genesis tmjson_Marshal gdoc_Marshal GenesisDocFromJSON now ver jsonBlobMainnetGenesis jsonBlobTestnetGenesis jsonBlobDevnetGenesis).

(** The document in the genesis file: a chain whose only validator has this key
    and whose holders start with the same balance. *)
Definition genesis_of (cfg : Config) (chainID : string) (pub : list Byte.byte) (d : Disk) : Prop :=
  exists doc bz wks gs, os_ReadFile (cf_GenesisFile cfg) d = Some bz /\ gdoc_Marshal doc = inr bz /\
    gd_ChainID doc = chainID /\ gd_Validators doc = [(pub, 7000000)] /\ tmjson_Marshal gs = inr (gd_AppState doc) /\ genesis_Hash gs = Ret (gd_AppHash doc) /\
    gs = mkGenesis (map (fun wk => mkHolder (wk_Address wk) holder_balance) wks) DefaultGovParams.

Lemma genesis_written cfg chainID pv s rnd e e' :
  chainID ∉ ["mainnet"; "testnet"; "devnet"]%string -> tmos_FileExists (cf_GenesisFile cfg) e.2 = false ->
  InitGenesis cfg chainID pv s rnd e = (Ret tt, e') -> genesis_of cfg chainID (k_PubKey (pv_Key pv)) e'.2.
Proof using All.
  intros Hch Hex Hr. unfold init_genesis in Hr. rewrite (bindM_step _ _ _ e.2 e) in Hr by done. rewrite Hex in Hr.
  rewrite !bool_decide_eq_false_2 in Hr by (intros ->; apply Hch; set_solver).
  apply bindM_inv in Hr as (wks & e1 & _ & Hr). unfold finally in Hr.
  destruct (bindM _ _ e1) as [r e2] eqn:Hb. destruct (on_mem (lock_all wks) e2) as [c e3] eqn:Hl. destruct c; try done; injection Hr as -> <-.
  all: assert (He : e3.2 = e2.2) by (unfold on_mem, zoom in Hl; destruct (lock_all wks _); by injection Hl as _ <-).
  all: apply bindM_inv in Hb as (doc & e4 & Hd & Hs); injection Hd as Hd <-.
  all: unfold save_doc_as in Hs; destruct (gdoc_Marshal doc) as [|bz] eqn:Hm; [done|]; unfold on_disk in Hs; apply zoom_inv in Hs as (d5 & Hw & ->).
  all: destruct (write_file (inside := inside) (cf_GenesisFile cfg) bz e1.2) as [(d' & Hw' & Hrd & _)|(x & d' & Hw' & _)]; cbn in Hw; rewrite Hw' in Hw; [|done]; injection Hw as ->.
  all: unfold local_genesis in Hd; change (min_validator_power DefaultGovParams) with (Ret 7000000 : outcome Z) in Hd; unfold NewGenesisDoc in Hd.
  all: destruct (tmjson_Marshal _) as [|blob] eqn:Hj; [done|]; destruct (genesis_Hash _) as [h| |] eqn:Hh; [|done..]; injection Hd as <-.
  all: eexists _, bz, wks, _; cbn; rewrite He; by split_and!.
Qed.

(** The document that comes with the program for a public network. *)
Definition public_document (chainID : string) : option (string + GenesisDoc) :=
  if bool_decide (chainID = "mainnet"%string) then Some (MainnetGenesisDoc GenesisDocFromJSON jsonBlobMainnetGenesis chainID)
  else if bool_decide (chainID = "testnet"%string) then Some (TestnetGenesisDoc GenesisDocFromJSON jsonBlobTestnetGenesis chainID)
  else if bool_decide (chainID = "devnet"%string) then Some (DevnetGenesisDoc GenesisDocFromJSON jsonBlobDevnetGenesis chainID)
  else None.
Definition genesis_made (cfg : Config) (chainID : string) (pub : list Byte.byte) (d : Disk) : Prop :=
  match public_document chainID with
  | Some r => exists doc bz, r = inr doc /\ gdoc_Marshal doc = inr bz /\ os_ReadFile (cf_GenesisFile cfg) d = Some bz
  | None => genesis_of cfg chainID pub d
  end.

Lemma doc_saved r path e e' : (let! doc := liftO (of_doc r) in save_doc_as gdoc_Marshal doc path) e = (Ret tt, e') ->
  exists doc bz, r = inr doc /\ gdoc_Marshal doc = inr bz /\ os_ReadFile path e'.2 = Some bz.
Proof using All.
  intros (doc & e1 & H1 & Hs)%bindM_inv. destruct r as [|doc0]; [done|]. injection H1 as -> <-. unfold save_doc_as in Hs.
  destruct (gdoc_Marshal doc) as [|bz] eqn:Hm; [done|]. unfold on_disk in Hs. apply zoom_inv in Hs as (d5 & Hw & ->).
  destruct (write_file (inside := inside) path bz e.2) as [(d' & Hw' & Hrd & _)|(x & d' & Hw' & _)]; cbn in Hw; rewrite Hw' in Hw; [|done]. injection Hw as ->.
  by exists doc, bz.
Qed.

Lemma genesis_made_written cfg chainID pv s rnd e e' : tmos_FileExists (cf_GenesisFile cfg) e.2 = false ->
  InitGenesis cfg chainID pv s rnd e = (Ret tt, e') -> genesis_made cfg chainID (k_PubKey (pv_Key pv)) e'.2.
Proof using All.
  intros Hex Hr. pose proof Hr as Hr0. unfold init_genesis in Hr. rewrite (bindM_step _ _ _ e.2 e) in Hr by done. rewrite Hex in Hr. unfold genesis_made, public_document.
  repeat case_bool_decide; try (by eapply doc_saved). eapply genesis_written; [|done|done]. set_solver.
Qed.

(** C30: a new node.  When [init] returns, on a disk without key and genesis
    document, the node can be started with the passphrase: its key loads, and has
    signed nothing.  For a chain of one's own the genesis document names exactly
    this key as the validator; for the names mainnet, testnet and devnet it is the
    document that comes with the program. *)
Theorem init_makes_node chainID cfg salt iv rnd m d m' d' :
  heap_wf m -> length salt = 32%nat -> length iv = 16%nat ->
  NoDup [cf_PrivValidatorKeyFile cfg; cf_PrivValidatorStateFile cfg; cf_NodeKeyFile cfg; cf_GenesisFile cfg] ->
  (forall addr, walkey_name (walkey_dir cfg) addr ∉ [cf_PrivValidatorKeyFile cfg; cf_PrivValidatorStateFile cfg]) ->
  tmos_FileExists (cf_PrivValidatorKeyFile cfg) d = false -> os_ReadFile (cf_GenesisFile cfg) d = None ->
  (forall d, tmos_FileExists (cf_GenesisFile cfg) d = true -> is_Some (os_ReadFile (cf_GenesisFile cfg) d)) ->
  Init chainID cfg (Some pass) key salt iv rnd (m, d) = (Ret tt, (m', d')) ->
  starts_fresh cfg d' /\ genesis_made cfg chainID (tm_PubKey key) d'.
Proof using All.
  intros Hwf Hsalt Hiv Hnd Hwk Hnk Hng Hread Hr.
  set (kf := cf_PrivValidatorKeyFile cfg) in *. set (sf := cf_PrivValidatorStateFile cfg) in *. set (nf := cf_NodeKeyFile cfg) in *. set (gf := cf_GenesisFile cfg) in *.
  assert (Hne : kf <> sf /\ kf <> nf /\ kf <> gf /\ sf <> nf /\ sf <> gf /\ nf <> gf).
  { rewrite !list.NoDup_cons in Hnd. set_solver. }
  destruct Hne as (N1 & N2 & N3 & N4 & N5 & N6).
  apply bindM_inv in Hr as (pv & [m1 d1] & H1 & (u & [m2 d2] & H2 & Hr)%bindM_inv). destruct u.
  unfold init_validator in H1. rewrite (bindM_step _ _ _ d (m, d)) in H1 by done. fold kf sf in H1. rewrite Hnk in H1.
  unfold NewSFilePV, PubBytes2Addr in H1. rewrite pubkey_length in H1. cbn [Nat.eqb] in H1. unfold bindM at 1, liftO in H1.
  change (mkSFilePV _ _) with (loaded kf sf unsigned) in H1.
  destruct (save_with_ret (loaded kf sf unsigned) unsigned _ _ _ _ _ _ _ Hwf eq_refl Hsalt Hiv eq_refl unsigned_valid (not_eq_sym N1) H1) as (-> & Hd1 & Hs1). cbn in Hd1, Hs1.
  assert (Hfr : forall q, q <> kf -> q <> sf -> os_ReadFile q d1 = os_ReadFile q d).
  { intros q Q1 Q2. pose proof (fixes_save_with (EC := EC) q (loaded kf sf unsigned) (Some pass) salt iv Q1 Q2 (m, d)) as Hq. by rewrite H1 in Hq. }
  assert (Hnkf : forall q, q <> nf -> os_ReadFile q d2 = os_ReadFile q d1).
  { intros q Q1. pose proof (fixes_node_key inside q cfg Q1 (m1, d1)) as Hq. by rewrite H2 in Hq. }
  assert (Hgf : tmos_FileExists gf d2 = false).
  { destruct (tmos_FileExists gf d2) eqn:Eg; [|done]. destruct (Hread _ Eg) as [? Hx]. rewrite Hnkf, Hfr in Hx by congruence. congruence. }
  assert (Hlast : forall q, q <> gf -> (forall a, q <> walkey_name (walkey_dir cfg) a) -> os_ReadFile q d' = os_ReadFile q d2).
  { intros q Q1 Q2. pose proof (fixes_init_genesis inside q tmjson_Marshal gdoc_Marshal GenesisDocFromJSON now ver jsonBlobMainnetGenesis jsonBlobTestnetGenesis jsonBlobDevnetGenesis
      cfg chainID (loaded kf sf unsigned) (Some pass) rnd Q2 Q1 (m2, d2)) as Hq. by rewrite Hr in Hq. }
  split; [|exact (genesis_made_written cfg chainID (loaded kf sf unsigned) _ _ (m2, d2) _ Hgf Hr)]. apply starts_fresh_files; fold kf sf.
  - apply (doc_holds_read _ d1); [|done]. rewrite Hlast, Hnkf; [done|done|done|]. intros a ->. apply (Hwk a). set_solver.
  - apply (state_file_read _ d1); [|done]. rewrite Hlast, Hnkf; [done|done|done|]. intros a ->. apply (Hwk a). set_solver.
Qed.
End Keys.

(** ** A start with the feeder *)
Section Feeder.
Context {EC : EthCrypto} {KL : KeyLib} {KLL : KeyLibLaws} {CV : Curve} {CVL : CurveLaws} {FS : FileSystem} {FSL : FileSystemLaws} {NT : NodeTools}.
Context {CW : Codec WalletKeyJSON} {KFL : KeyFileLaws} (key pass : list Byte.byte) (Hkey : length key = 32%nat).

(** C32: a start with the feeder.  When the passphrase of the key of the validator
    was stored at the feeder for the address of that key, [start] with the address
    of the feeder makes the node with exactly that passphrase, whatever is typed
    or flagged; it makes no node when the hash of the genesis file is wrong. *)
Theorem fed_node_starts {N} gh addr flag typed cfg dial prv0 (provider : option (list Byte.byte) -> GoM (mem * Disk) N) m d id h fd fpass fd0 fd1 :
  heap_wf m -> doc_holds key (cf_PrivValidatorKeyFile cfg) pass d -> pass <> [] -> len pass <= 1007 -> addr <> ""%string ->
  p2p_LoadNodeKey (cf_NodeKeyFile cfg) d = inr id -> dial addr = inr (h, fd) -> sf_getPass h = fpass ->
  WriteSecret (tm_Address (tm_PubKey key)) pass fpass (sf_storePath h) fd0 = (Ret tt, fd1) ->
  (forall p, os_ReadFile p fd = os_ReadFile p fd1) ->
  match checkGenesisHash gh cfg d with
  | Ret _ => exists m', heap_wf m' /\ run_node gh addr flag typed cfg dial prv0 provider (m, d) =
      (let! r := tryM (provider (Some pass)) in match r with inl _ => errM (NewOrdinary "failed to create rigo: %w") | inr n => retM n end) (m', d)
  | Err e => run_node gh addr flag typed cfg dial prv0 provider (m, d) = (Err e, (m, d))
  | Panic => False
  end.
Proof using All.
  intros Hwf Hd Hne Hlen Ha Hid Hdial Hgp Hw Hfd. unfold run_node. rewrite (bindM_step _ _ _ d (m, d)) by done.
  destruct (checkGenesisHash gh cfg d) as [[]|e|] eqn:Hg; [|done|].
  2: { unfold checkGenesisHash in Hg. by repeat case_match. }
  rewrite (bindM_step _ _ _ tt (m, d)) by done. rewrite bool_decide_eq_false_2 by done.
  destruct (doc_file_holds key Hkey _ _ _ Hd m Hwf) as (w & m' & Ho & Hh & _ & _ & Hadr & _). exists m'. split; [apply Hh|].
  rewrite (bindM_step _ _ _ (Some pass) (m', d)); [done|]. rewrite (bindM_step _ _ _ _ _ Ho). rewrite (bindM_step _ _ _ id (m', d)) by (unfold liftO; by rewrite Hid).
  rewrite (bindM_step _ _ _ (h, fd) (m', d)) by (unfold liftO; by rewrite Hdial). rewrite Hadr.
  destruct (fed_secret _ _ _ _ _ _ fd id prv0 h Hw Hne Hlen (Hfd _) eq_refl Hgp) as (h' & Hs & _). rewrite (bindM_step _ _ _ pass (m', d)) by (unfold liftO; by rewrite Hs). done.
Qed.
End Feeder.

(** ** Witnesses: a disk that is a map *)
Module CommandScene.
Import ToySigner.

Definition inDir (dir path : string) : Prop := String.prefix (dir +:+ "/") path = true.
#[export] Instance inDir_dec dir path : Decision (inDir dir path).
Proof. unfold inDir. apply _. Defined.
#[export] Instance mapTools : NodeTools (FS := mapFS) := {
  os_Stat p d := bool_decide (is_Some (d !! p));
  os_Remove p := fun d => (Ret tt, delete p d);
  os_RemoveAll dir := fun d => (Ret tt, filter (fun kv => ~ inDir dir kv.1) d);
  tmos_EnsureDir _ := retM tt;
  tmos_WriteFile := map_write;
  p2p_LoadOrGenNodeKey p := let! _ := map_write p [Byte.x01] in retM "node"%string;
  p2p_LoadNodeKey _ _ := inr "node"%string;
}.
#[export] Instance mapTools_laws : NodeToolsLaws inDir.
Proof.
  constructor; cbn.
  - intros p d Hs. by apply bool_decide_eq_true_2.
  - intros path p d Hp. by rewrite lookup_delete_ne.
  - intros dir p d Hp. apply option_eq. intros x. rewrite map_lookup_filter_Some. cbn. naive_solver.
  - by intros dir d p.
  - intros path bz d. left. apply map_write_spec.
  - intros path p d Hp. by rewrite lookup_insert_ne.
Qed.

#[export] Instance sceneParamsCodec : Codec GovParamsProto := countCodec GovParamsProto.
Definition cfg0 : Config := mkConfig "/r" "/r/key" "/r/state" "/r/node" "/r/genesis" "genesis" "/r/data" "/r/addr".
Definition salt0 : list Byte.byte := replicate 32 Byte.x02.
Definition iv0 : list Byte.byte := replicate 16 Byte.x03.
Definition rnd0 : list (list Byte.byte * list Byte.byte * list Byte.byte) := [(replicate 32 Byte.x09, salt0, iv0); (replicate 32 Byte.x0a, salt0, iv0)].
Definition write0 (gs : GenesisAppState) : string + list Byte.byte := inr [Byte.x01].
Definition writeDoc0 (doc : GenesisDoc) : string + list Byte.byte := inr [Byte.x02].
Definition readDoc0 (bz : list Byte.byte) : string + GenesisDoc := inl "no document"%string.

Abbreviation initRun := (InitFilesWith write0 writeDoc0 readDoc0 0 (mkVersion 1 0 0 0) [] [] [] "local" cfg0 (Some [Byte.x05]) key32 salt0 iv0 rnd0 (heap_empty, ∅)).

Lemma init_runs : exists m' d', initRun = (Ret tt, (m', d')).
Proof.
  assert (H : match initRun.1 with Ret tt => true | _ => false end = true) by (vm_compute; reflexivity).
  destruct initRun as [[[]|e|] [m' d']]; [|done..]. by exists m', d'.
Qed.

Lemma walkey_apart a : walkey_name (walkey_dir cfg0) a ∉ [cf_PrivValidatorKeyFile cfg0; cf_PrivValidatorStateFile cfg0].
Proof. rewrite !not_elem_of_cons. split_and!; [done|done|apply not_elem_of_nil]. Qed.

Lemma init_makes_node_witness : exists m' d', initRun = (Ret tt, (m', d')) /\ starts_fresh key32 [Byte.x05] cfg0 d'.
Proof.
  destruct init_runs as (m' & d' & Hr). exists m', d'. split; [exact Hr|].
  destruct (init_makes_node inDir key32 [Byte.x05] eq_refl write0 writeDoc0 readDoc0 0 (mkVersion 1 0 0 0) [] [] [] "local" cfg0 salt0 iv0 rnd0 heap_empty ∅ m' d') as [H _].
  - exact heap_wf_empty.
  - reflexivity.
  - reflexivity.
  - apply (bool_decide_unpack _). vm_compute. exact I.
  - exact walkey_apart.
  - reflexivity.
  - reflexivity.
  - intros d Hd. exact (bool_decide_eq_true_1 _ Hd).
  - exact Hr.
  - exact H.
Defined.

(** A signing state without its key does not survive. *)
Lemma init_resets_state :
  let d := ({[ "/r/state"%string := [Byte.x01] ]} : gmap string (list Byte.byte)) : Disk (FileSystem := mapFS) in
  os_ReadFile "/r/state" (InitFilesWith write0 writeDoc0 readDoc0 0 (mkVersion 1 0 0 0) [] [] [] "local" cfg0 (Some [Byte.x05]) key32 salt0 iv0 rnd0 (heap_empty, d)).2.2 <> Some [Byte.x01].
Proof. vm_compute. discriminate. Qed.

(** A second [init] on the same disk keeps the key. *)
Lemma init_never_overwrites_witness : exists d bz, os_ReadFile "/r/key" d = Some bz /\
  os_ReadFile "/r/key" (InitFilesWith write0 writeDoc0 readDoc0 0 (mkVersion 1 0 0 0) [] [] [] "other" cfg0 (Some [Byte.x06]) salt0 salt0 iv0 rnd0 (heap_empty, d)).2.2 = Some bz.
Proof.
  pose (d := ({[ "/r/key"%string := [Byte.x01] ]} : gmap string (list Byte.byte)) : Disk (FileSystem := mapFS)). exists d, [Byte.x01]. split; [reflexivity|].
  apply (init_never_overwrites inDir "/r/key" write0 writeDoc0 readDoc0 0 (mkVersion 1 0 0 0) [] [] [] "other" cfg0 (Some [Byte.x06]) salt0 salt0 iv0 rnd0 heap_empty d).
  - reflexivity.
  - discriminate.
  - intros addr. discriminate.
Defined.

(** A key that is saved, and reset. *)
Abbreviation savedKey := (Key_SaveWith (mkSFilePVKey [] [] key32 "/r/key") (Some [Byte.x05]) salt0 iv0 (heap_empty, ∅)).
Abbreviation resetRun := (ResetAll true cfg0 (Some [Byte.x05]) salt0 salt0 iv0 (heap_empty, savedKey.2.2)).

Lemma reset_runs : (exists m' d', resetRun = (Ret tt, (m', d'))) /\ doc_holds key32 "/r/key" [Byte.x05] savedKey.2.2.
Proof.
  assert (H : match savedKey.1, resetRun.1 with Ret tt, Ret tt => true | _, _ => false end = true) by (vm_compute; reflexivity). split.
  - destruct resetRun as [[[]|e|] [m' d']]; [by exists m', d'|..]; by destruct savedKey.1 as [[]| |].
  - destruct savedKey as [[[]|e|] [m1 d1]] eqn:Hs; [|done..]. by apply (key_save_doc key32 [Byte.x05] eq_refl (mkSFilePVKey [] [] key32 "/r/key") salt0 iv0 heap_empty ∅ m1 d1 heap_wf_empty eq_refl eq_refl eq_refl Hs).
Qed.

Lemma reset_keeps_key_witness : exists m' d', resetRun = (Ret tt, (m', d')) /\ starts_fresh key32 [Byte.x05] cfg0 d'.
Proof.
  destruct reset_runs as [(m' & d' & Hr) Hd]. exists m', d'. split; [exact Hr|].
  apply (reset_keeps_key inDir key32 [Byte.x05] eq_refl true cfg0 salt0 salt0 iv0 heap_empty savedKey.2.2 m' d').
  - exact heap_wf_empty.
  - exact Hd.
  - reflexivity.
  - reflexivity.
  - discriminate.
  - discriminate.
  - vm_compute. discriminate.
  - exact Hr.
Defined.
End CommandScene.

(** A feeder that has the passphrase of the key of a node. *)
Module FeedScene.
#[local] Instance fedCrypto : EthCrypto := {|
  PrivateKey := list Byte.byte; PublicKey := list Byte.byte; public_of prv := prv;
  eth_Sign h prv := inr prv; eth_SigToPub h sig := inr sig; eth_CompressPubkey pub := pub;
  eth_VerifySignature pub h sig := bool_decide (pub = sig); tm_Address pub := take 20 (pub ++ replicate 20 Byte.x00);
  sha256 m := take 32 (m ++ replicate 32 Byte.x00);
|}.
#[local] Instance fedCurve : Curve := {| eth_DecompressPubkey bz := inr bz; ScalarMult pub prv := (be_value pub * be_value prv, 0) |}.
#[local] Instance fedCurve_laws : CurveLaws.
Proof.
  constructor; [done| |intros m; cbn; rewrite length_take, length_app; cbn [length]; lia].
  intros a b. unfold ScalarMult, fedCurve. by rewrite Z.mul_comm.
Qed.
#[local] Instance fedKeys : KeyLib := toyKeys.
#[local] Instance fedKeys_laws : KeyLibLaws := toyKeys_laws.
#[local] Instance fedDoc : Codec WalletKeyJSON := docCodec.
#[local] Instance fedDoc_laws : KeyFileLaws.
Proof. constructor; [apply docCodec_laws|]. intros pub. cbn. rewrite length_take, length_app. cbn [length]. lia. Qed.
#[local] Existing Instances CommandScene.mapTools.

Definition key0 : list Byte.byte := replicate 32 Byte.x07.
Definition word : list Byte.byte := [Byte.x68; Byte.x75; Byte.x73; Byte.x68].
Definition feeder0 : SecretFeederHandler := NewSecretFeederHandler "/feed" [Byte.x70] [Byte.x03].
Definition feedDisk0 : Disk (FileSystem := mapFS) := (WriteSecret (tm_Address (tm_PubKey key0)) word [Byte.x70] "/feed" ∅).2.
Abbreviation keyRun := (Key_SaveWith (FS := mapFS) (mkSFilePVKey [] [] key0 "/r/key") (Some word) CommandScene.salt0 CommandScene.iv0 (heap_empty, ∅)).
Definition dial0 (addr : string) : string + SecretFeederHandler * Disk (FileSystem := mapFS) := inr (feeder0, feedDisk0).

Lemma key_saved : doc_holds key0 "/r/key" word keyRun.2.2.
Proof.
  assert (H : match keyRun.1 with Ret tt => true | _ => false end = true) by (vm_compute; reflexivity).
  destruct keyRun as [[[]|e|] [m1 d1]] eqn:Hs; [|done..].
  by apply (key_save_doc key0 word eq_refl (mkSFilePVKey [] [] key0 "/r/key") CommandScene.salt0 CommandScene.iv0 heap_empty ∅ m1 d1 heap_wf_empty eq_refl eq_refl eq_refl Hs).
Qed.

(** The node is made with the passphrase [word], not with the one typed. *)
Lemma fed_node_starts_witness :
  exists m', run_node [] "feeder:9000" "flag" (Some [Byte.x01]) CommandScene.cfg0 dial0 [Byte.x05] (fun s => retM s) (heap_empty, keyRun.2.2) = (Ret (Some word), (m', keyRun.2.2)).
Proof.
  destruct (fed_node_starts (FS := mapFS) key0 word eq_refl [] "feeder:9000" "flag" (Some [Byte.x01]) CommandScene.cfg0 dial0 [Byte.x05] (fun s => retM s) heap_empty keyRun.2.2
    "node" feeder0 feedDisk0 [Byte.x70] ∅ feedDisk0) as (m' & _ & H).
  - exact heap_wf_empty.
  - exact key_saved.
  - discriminate.
  - cbn. lia.
  - discriminate.
  - reflexivity.
  - reflexivity.
  - reflexivity.
  - vm_compute. reflexivity.
  - reflexivity.
  - exists m'. exact H.
Defined.
End FeedScene.
