(* ===== verification/GenesisDocs.v ===== *)
(** * The genesis documents of the public networks

    [genesis/genesis_mainnet.go], [genesis_testnet.go] and [genesis_devnet.go] hold
    the documents as JSON texts.  Here they are the same texts, read with the JSON
    of JsonText.v; their hashes are checked with the SHA-256 of Sha256.v over the
    wire format of ProtoWire.v, and [InitChain] is run on them: the main network
    and the test network start in the state that their documents describe, with
    the hash that they name, and the development network cannot start. *)

From Stdlib Require Import Strings.Byte.
From S2P Require Import Prelude Xerrors GoSem Bytes Crypto Ledger LedgerSpec LedgerClient LedgerProps Concrete GovParams Account Trx Context AcctCtrler AcctProps AcctClient.
From S2P Require Import Stake StakeProps StakeLimiter StakeCtrler Proposal GovCtrler GovProps Executor Scene Staking MetaDB App Delivery Units Genesis FileIO Commands.
From S2P Require Import ProtoWire Sha256 JsonText.

(** ** The texts; an apostrophe stands for a quotation mark *)
Definition quoted (s : string) : list Byte.byte :=
  map (fun b => if Byte.eqb b Byte.x27 then Byte.x22 else b) (String.list_byte_of_string s).

Definition jsonBlobMainnetGenesis : list Byte.byte := quoted "{
  'genesis_time': '2023-11-07T05:44:37.169318Z',
  'chain_id': 'mainnet',
  'initial_height': '0',
  'consensus_params': {
    'block': {
      'max_bytes': '22020096',
      'max_gas': '-1',
      'time_iota_ms': '1000'
    },
    'evidence': {
      'max_age_num_blocks': '100000',
      'max_age_duration': '172800000000000',
      'max_bytes': '1048576'
    },
    'validator': {
      'pub_key_types': [
        'secp256k1'
      ]
    },
    'version': {
      'app_version': '1'
    }
  },
  'validators': [
    {
      'address': 'A154CA44AB0FB8CC193C28C36506F10860B2F94B',
      'pub_key': {
        'type': 'tendermint/PubKeySecp256k1',
        'value': 'A129pIqszgELsjaGbrpkgQ8qOwc/VH83RIYCL+wvxDs7'
      },
      'power': '10000000',
      'name': 'Validator#1'
    },
    {
      'address': 'A593B9A2B5C77314D4ACA6F7BA2590E85D2C0948',
      'pub_key': {
        'type': 'tendermint/PubKeySecp256k1',
        'value': 'A9RNANFpSmGwzz3CIy/0doM4zR4MXJb4cAFSks6aeYUZ'
      },
      'power': '10000000',
      'name': 'Validator#2'
    },
    {
      'address': '34AE6A76203A2DBF1E3FDA3DD6729F125AB857F3',
      'pub_key': {
        'type': 'tendermint/PubKeySecp256k1',
        'value': 'A5FCbUmx0MNDouWCijFcoP5k8GRW+Grff/xORKf4Qtk5'
      },
      'power': '10000000',
      'name': 'Validator#3'
    },
    {
      'address': '417095FC2F970EC3939D63FBE6E7BB82D6858DEE',
      'pub_key': {
        'type': 'tendermint/PubKeySecp256k1',
        'value': 'A2xKI0+mnx0aeUYgKjPlLTFteKBFlRn/y7zZZzBulAEu'
      },
      'power': '10000000',
      'name': 'Validator#4'
    },
    {
      'address': '3686A6BDCAE57A234C44F65AAD21499D80132204',
      'pub_key': {
        'type': 'tendermint/PubKeySecp256k1',
        'value': 'A9UI2RBlso3kO0lYXiUNfrJtErtnKsmpr0Y1YHwPY2rg'
      },
      'power': '10000000',
      'name': 'Validator#5'
    }
  ],
  'app_hash': '84BA94A405CBFD316777252D5780340AB283FC804CE562BFB350BB171B99B843',
  'app_state': {
    'assetHolders': [
      {
        'address': 'B91BD76189D15FBC960F775070CE23EC5D38DE55',
        'balance': '923800000000000000000000000'
      },
      {
        'address': '18493824C4D8F044D53FADB521A79108783C4155',
        'balance': '6000000000000000000000000'
      },
      {
        'address': '5D27E6BD982B6B27122910C52D22BE49337C3A3A',
        'balance': '200000000000000000000000'
      },
      {
        'address': '2C8F07CEE602F9F7050F4CFA345992AF0D3A1D24',
        'balance': '20000000000000000000000000'
      }
    ],
    'govParams': {
      'version': '1',
      'maxValidatorCnt': '21',
      'minValidatorStake': '7000000000000000000000000',
      'rewardPerPower': '4756468797',
      'lazyRewardBlocks': '2592000',
      'lazyApplyingBlocks': '259200',
      'gasPrice': '250000000000',
      'minTrxGas': '4000',
      'maxTrxGas': '25000000',
      'maxBlockGas': '18446744073709551615',
      'minVotingPeriodBlocks': '259200',
      'maxVotingPeriodBlocks': '2592000',
      'minSelfStakeRatio': '50',
      'maxUpdatableStakeRatio': '33',
      'maxIndividualStakeRatio': '33',
      'slashRatio': '50',
      'signedBlocksWindow': '10000',
      'minSignedBlocks': '500'
    }
  }
}
".

Definition jsonBlobTestnetGenesis : list Byte.byte := quoted "{
  'genesis_time': '2023-11-09T08:21:21.503994Z',
  'chain_id': 'testnet',
  'initial_height': '0',
  'consensus_params': {
    'block': {
      'max_bytes': '22020096',
      'max_gas': '-1',
      'time_iota_ms': '1000'
    },
    'evidence': {
      'max_age_num_blocks': '100000',
      'max_age_duration': '172800000000000',
      'max_bytes': '1048576'
    },
    'validator': {
      'pub_key_types': [
        'secp256k1'
      ]
    },
    'version': {
      'app_version': '1'
    }
  },
  'validators': [
    {
      'address': '1594B3A79F75A81F0181DD6D113A95DCA419E7EC',
      'pub_key': {
        'type': 'tendermint/PubKeySecp256k1',
        'value': 'A7ek3mK550SOIpE3QPx+HkTx3C+4C6P2P8LLYn49/xry'
      },
      'power': '10000000',
      'name': 'Validator#1'
    },
    {
      'address': '3799CE8CE603BBE3F8D34FDF5C75A1E83AB23F76',
      'pub_key': {
        'type': 'tendermint/PubKeySecp256k1',
        'value': 'AsMXO+qyTobs7+3XzF4OxDXupRd9IYcfLkCSyICtp9uH'
      },
      'power': '10000000',
      'name': 'Validator#2'
    },
    {
      'address': '70723973BC6E29031386EFF74BDD2D845DDB3CBD',
      'pub_key': {
        'type': 'tendermint/PubKeySecp256k1',
        'value': 'Awe3jmsdM35SiBq7BocTVf0k3MJ5+3MiATKFgRx5xaDB'
      },
      'power': '10000000',
      'name': 'Validator#3'
    }
  ],
  'app_hash': '2039711216871C4E46B97FA3F3A12E4454DC4C50ABA6E787DA06133373413C3A',
  'app_state': {
    'assetHolders': [
      {
        'address': '1594B3A79F75A81F0181DD6D113A95DCA419E7EC',
        'balance': '100000000000000000000000000'
      },
      {
        'address': '3799CE8CE603BBE3F8D34FDF5C75A1E83AB23F76',
        'balance': '100000000000000000000000000'
      },
      {
        'address': '70723973BC6E29031386EFF74BDD2D845DDB3CBD',
        'balance': '100000000000000000000000000'
      },
      {
        'address': '96D9FC4BBE0D5D061187B3BF2275372179269265',
        'balance': '100000000000000000000000000'
      },
      {
        'address': 'E70B54C601F695A92E8D55299E8E2AA00E8061D5',
        'balance': '100000000000000000000000000'
      },
      {
        'address': 'E88F36DF6606FA3BDB74E5101C164A6F9C53BF6D',
        'balance': '100000000000000000000000000'
      },
      {
        'address': 'ED1805C5B90779CF87BD06023F951DB282D201B5',
        'balance': '100000000000000000000000000'
      },
      {
        'address': 'F21D3DE0B740FAFA459AA4E3C3278C8066DD20DD',
        'balance': '100000000000000000000000000'
      },
      {
        'address': 'F535500B493D03F2DF0F8C42F03E161C071FA529',
        'balance': '100000000000000000000000000'
      },
      {
        'address': 'F549E736F805841B23653ACED2151FEB77FA1F0B',
        'balance': '100000000000000000000000000'
      }
    ],
    'govParams': {
      'version': '1',
      'maxValidatorCnt': '21',
      'minValidatorStake': '7000000000000000000000000',
      'rewardPerPower': '4756468797',
      'lazyRewardBlocks': '2592000',
      'lazyApplyingBlocks': '259200',
      'gasPrice': '250000000000',
      'minTrxGas': '4000',
      'maxTrxGas': '25000000',
      'maxBlockGas': '18446744073709551615',
      'minVotingPeriodBlocks': '259200',
      'maxVotingPeriodBlocks': '2592000',
      'minSelfStakeRatio': '50',
      'maxUpdatableStakeRatio': '33',
      'maxIndividualStakeRatio': '33',
      'slashRatio': '50',
      'signedBlocksWindow': '10000',
      'minSignedBlocks': '500'
    }
  }
}".

Definition jsonBlobDevnetGenesis : list Byte.byte := quoted "{
  'genesis_time': '2023-11-08T03:24:02.686739Z',
  'chain_id': 'testnet',
  'initial_height': '0',
  'consensus_params': {
    'block': {
      'max_bytes': '22020096',
      'max_gas': '-1',
      'time_iota_ms': '1000'
    },
    'evidence': {
      'max_age_num_blocks': '100000',
      'max_age_duration': '172800000000000',
      'max_bytes': '1048576'
    },
    'validator': {
      'pub_key_types': [
        'secp256k1'
      ]
    },
    'version': {}
  },
  'validators': [
    {
      'address': '1594B3A79F75A81F0181DD6D113A95DCA419E7EC',
      'pub_key': {
        'type': 'tendermint/PubKeySecp256k1',
        'value': null
      },
      'power': '10000000',
      'name': 'Validator#1'
    },
    {
      'address': '3799CE8CE603BBE3F8D34FDF5C75A1E83AB23F76',
      'pub_key': {
        'type': 'tendermint/PubKeySecp256k1',
        'value': null
      },
      'power': '10000000',
      'name': 'Validator#2'
    },
    {
      'address': '70723973BC6E29031386EFF74BDD2D845DDB3CBD',
      'pub_key': {
        'type': 'tendermint/PubKeySecp256k1',
        'value': null
      },
      'power': '10000000',
      'name': 'Validator#3'
    }
  ],
  'app_hash': '2039711216871C4E46B97FA3F3A12E4454DC4C50ABA6E787DA06133373413C3A',
  'app_state': {
    'assetHolders': [
      {
        'address': '1594B3A79F75A81F0181DD6D113A95DCA419E7EC',
        'balance': '100000000000000000000000000'
      },
      {
        'address': '3799CE8CE603BBE3F8D34FDF5C75A1E83AB23F76',
        'balance': '100000000000000000000000000'
      },
      {
        'address': '70723973BC6E29031386EFF74BDD2D845DDB3CBD',
        'balance': '100000000000000000000000000'
      },
      {
        'address': '96D9FC4BBE0D5D061187B3BF2275372179269265',
        'balance': '100000000000000000000000000'
      },
      {
        'address': 'E70B54C601F695A92E8D55299E8E2AA00E8061D5',
        'balance': '100000000000000000000000000'
      },
      {
        'address': 'E88F36DF6606FA3BDB74E5101C164A6F9C53BF6D',
        'balance': '100000000000000000000000000'
      },
      {
        'address': 'ED1805C5B90779CF87BD06023F951DB282D201B5',
        'balance': '100000000000000000000000000'
      },
      {
        'address': 'F21D3DE0B740FAFA459AA4E3C3278C8066DD20DD',
        'balance': '100000000000000000000000000'
      },
      {
        'address': 'F535500B493D03F2DF0F8C42F03E161C071FA529',
        'balance': '100000000000000000000000000'
      },
      {
        'address': 'F549E736F805841B23653ACED2151FEB77FA1F0B',
        'balance': '100000000000000000000000000'
      }
    ],
    'govParams': {
      'version': '1',
      'maxValidatorCnt': '21',
      'minValidatorStake': '7000000000000000000000000',
      'rewardPerPower': '4756468797',
      'lazyRewardBlocks': '2592000',
      'lazyApplyingBlocks': '259200',
      'gasPrice': '250000000000',
      'minTrxGas': '4000',
      'maxTrxGas': '25000000',
      'maxBlockGas': '18446744073709551615',
      'minVotingPeriodBlocks': '259200',
      'maxVotingPeriodBlocks': '2592000',
      'minSelfStakeRatio': '50',
      'maxUpdatableStakeRatio': '33',
      'maxIndividualStakeRatio': '33',
      'slashRatio': '50',
      'signedBlocksWindow': '10000',
      'minSignedBlocks': '500'
    }
  }
}".

(** ** Reading a document *)

(** [encoding/base64], the standard alphabet with padding. *)
Definition base64_val (c : Byte.byte) : option Z :=
  let v := byte_val c in
  if (65 <=? v) && (v <=? 90) then Some (v - 65)
  else if (97 <=? v) && (v <=? 122) then Some (v - 71)
  else if (48 <=? v) && (v <=? 57) then Some (v + 4)
  else if v =? 43 then Some 62 else if v =? 47 then Some 63 else None.
Fixpoint base64_Decode (s : list Byte.byte) : option (list Byte.byte) :=
  match s with
  | [] => Some []
  | a :: b :: c :: d :: r =>
      x ← base64_val a; y ← base64_val b;
      if Byte.eqb c Byte.x3d then if Byte.eqb d Byte.x3d && bool_decide (r = []) then Some [byte_of_Z (x * 4 + y / 16)] else None
      else
        z ← base64_val c;
        if Byte.eqb d Byte.x3d then if bool_decide (r = []) then Some [byte_of_Z (x * 4 + y / 16); byte_of_Z (y * 16 + z / 4)] else None
        else w ← base64_val d; rest ← base64_Decode r; Some (byte_of_Z (x * 4 + y / 16) :: byte_of_Z (y * 16 + z / 4) :: byte_of_Z (z * 64 + w) :: rest)
  | _ => None
  end.

(** A time of RFC 3339 in UTC, in nanoseconds since 1970. *)
Definition days_from_civil (y m d : Z) : Z :=
  let y' := if m <=? 2 then y - 1 else y in
  let era := y' / 400 in let yoe := y' - era * 400 in
  let doy := (153 * (m + (if m <=? 2 then 9 else -3)) + 2) / 5 + d - 1 in
  era * 146097 + (yoe * 365 + yoe / 4 - yoe / 100 + doy) - 719468.
Definition digits_at (i n : nat) (s : list Byte.byte) : option Z :=
  if (length (take n (drop i s)) =? n)%nat then parse_digits (String.string_of_list_byte (take n (drop i s))) 0 else None.
Definition parse_time (s : list Byte.byte) : option Z :=
  y ← digits_at 0 4 s; mo ← digits_at 5 2 s; d ← digits_at 8 2 s; h ← digits_at 11 2 s; mi ← digits_at 14 2 s; se ← digits_at 17 2 s;
  let frac := (length s - 21)%nat in
  f ← digits_at 20 frac s;
  if bool_decide (drop (length s - 1) s = [Byte.x5a]) && (frac <=? 9)%nat then
    Some ((((days_from_civil y mo d * 24 + h) * 60 + mi) * 60 + se) * 1000000000 + f * 10 ^ Z.of_nat (9 - frac))
  else None.

(** A validator: the key, empty when it is null, and the power. *)
Definition read_validator (raw : list Byte.byte) : option (list Byte.byte * Z) :=
  fs ← raw_object raw;
  pk ← field "pub_key" fs; pfs ← raw_object pk; v ← field "value" pfs;
  key ← (if raw_null v then Some [] else t ← raw_text v; base64_Decode t);
  power ← int_field "power" fs;
  Some (key, power).
Definition validators_of (bz : list Byte.byte) : option (list (list Byte.byte)) := fs ← raw_object bz; v ← field "validators" fs; raw_array v.
(** The addresses that a document gives beside the keys. *)
Definition doc_addresses (bz : list Byte.byte) : option (list (list Byte.byte)) :=
  vs ← validators_of bz; mapM (fun raw => fs ← raw_object raw; a ← field "address" fs; HexBytes_UnmarshalJSON a) vs.

Definition read_document (bz : list Byte.byte) : option GenesisDoc :=
  fs ← raw_object bz;
  chain ← text_field "chain_id" fs;
  tm ← field "genesis_time" fs; tt ← raw_text tm; now ← parse_time tt;
  cp ← field "consensus_params" fs; cfs ← raw_object cp;
  vp ← field "validator" cfs; vfs ← raw_object vp; kt ← field "pub_key_types" vfs; kts ← raw_array kt; types ← mapM raw_text kts;
  vr ← field "version" cfs; rfs ← raw_object vr; appv ← uint_field "app_version" rfs;
  vs ← validators_of bz; vals ← mapM read_validator vs;
  state ← field "app_state" fs;
  ah ← field "app_hash" fs; hash ← HexBytes_UnmarshalJSON ah;
  Some (mkGenesisDoc chain now (map String.string_of_list_byte types) appv vals state hash).

(** The state of the application: every holder and the parameters are read by
    their own [UnmarshalJSON]. *)
#[local] Existing Instance decDec.
Definition of_outcome {A} (o : outcome A) : option A := match o with Ret a => Some a | _ => None end.
Definition read_state (bz : list Byte.byte) : option GenesisAppState :=
  fs ← raw_object bz;
  ah ← field "assetHolders" fs; hs ← raw_array ah; holders ← mapM (fun raw => of_outcome (holder_UnmarshalJSON raw)) hs;
  gp ← field "govParams" fs;
  match GovParams_UnmarshalJSON (JsonC := params_json) gp with
  | inr params => Some (mkGenesis holders params)
  | inl _ => None
  end.

(** ** What the texts say *)
Definition state_of (doc : GenesisDoc) : option GenesisAppState := read_state (gd_AppState doc).
Definition app_digest (gs : GenesisAppState) : option (list Byte.byte) :=
  match GovParams_Encode (ProtoC := proto_codec) (gs_GovParams gs) with
  | Ret bz => Some (SHA256 (bz ++ concat (map (fun h => SHA256 (gh_Address h ++ u256_Bytes (gh_Balance h))) (AssetHolders gs))))
  | _ => None
  end.
(** The coins of a document: the balances, and the stakes of the validators. *)
Definition coins (doc : GenesisDoc) (gs : GenesisAppState) : Z :=
  sumZ gh_Balance (AssetHolders gs) + sumZ (fun v => PowerToAmount v.2) (gd_Validators doc).

(** ** The checks, by evaluation *)
Definition network_ok (bz : list Byte.byte) : option Z :=
  doc ← read_document bz; gs ← state_of doc; d ← app_digest gs; addrs ← doc_addresses bz;
  if bool_decide (gd_ChainID doc <> ""%string) && bool_decide (d = gd_AppHash doc) && bool_decide (gs_GovParams gs = DefaultGovParams) &&
     bool_decide (Forall (fun v => length v.1 = 33%nat /\ 0 < v.2 < 2 ^ 63) (gd_Validators doc)) &&
     bool_decide (Forall (fun h => 0 <= gh_Balance h < 2 ^ 256) (AssetHolders gs)) &&
     bool_decide (NoDup (map (fun h => ToLedgerKey (gh_Address h)) (AssetHolders gs))) &&
     bool_decide (NoDup (map ToLedgerKey addrs)) && bool_decide (Forall (fun x => length x = AddrSize) addrs)
  then Some (coins doc gs) else None.

Lemma mainnet_checked : network_ok jsonBlobMainnetGenesis = Some (1000000000 * amountPerPower).
Proof. vm_compute. reflexivity. Qed.
Lemma testnet_checked : network_ok jsonBlobTestnetGenesis = Some (1030000000 * amountPerPower).
Proof. vm_compute. reflexivity. Qed.

(** What a successful check says. *)
Record network_facts (bz : list Byte.byte) (c : Z) (doc : GenesisDoc) (gs : GenesisAppState) (addrs : list (list Byte.byte)) : Prop := {
  nf_doc : read_document bz = Some doc;
  nf_state : state_of doc = Some gs;
  nf_addrs : doc_addresses bz = Some addrs;
  nf_chain : gd_ChainID doc <> ""%string;
  nf_hash : app_digest gs = Some (gd_AppHash doc);
  nf_params : gs_GovParams gs = DefaultGovParams;
  nf_vals : Forall (fun v => length v.1 = 33%nat /\ 0 < v.2 < 2 ^ 63) (gd_Validators doc);
  nf_balances : Forall (fun h => 0 <= gh_Balance h < 2 ^ 256) (AssetHolders gs);
  nf_holders : NoDup (map (fun h => ToLedgerKey (gh_Address h)) (AssetHolders gs));
  nf_keys : NoDup (map ToLedgerKey addrs);
  nf_sizes : Forall (fun x => length x = AddrSize) addrs;
  nf_coins : coins doc gs = c;
}.
Lemma network_ok_facts bz c : network_ok bz = Some c -> exists doc gs addrs, network_facts bz c doc gs addrs.
Proof.
  unfold network_ok. destruct (read_document bz) as [doc|] eqn:Hd; [|done]. cbn [mbind option_bind]. destruct (state_of doc) as [gs|] eqn:Hs; [|done]. cbn [mbind option_bind].
  destruct (app_digest gs) as [d|] eqn:Hh; [|done]. cbn [mbind option_bind]. destruct (doc_addresses bz) as [addrs|] eqn:Ha; [|done]. cbn [mbind option_bind].
  repeat case_bool_decide; cbn [andb]; try done. intros [= <-]. exists doc, gs, addrs. subst d. by constructor.
Qed.

(** ** Starting a chain from a document *)
Section Start.
Context {Tr E DB : Type} {Tree : Iavl Tr} {View : IavlView Tr} {Laws : IavlLaws Tr} {Total : IavlTotal Tr} {TDB : TmDB DB} {CB : Codec BlockContextJSON}.
Context {CA : Codec AcctProto} {CS : Codec Stake} {CD : Codec Delegatee} {CR : Codec RewardProto} {CGJ : Codec GovParamsJSON} {D : DecCodec} {CP : Codec GovProposal}.
Context {RL : RlpLib} {EC : EthCrypto} {VM : IVMHandler E (FinalityLedger Account Tr)}.
Context (valid_utf8 : string -> Prop) (utf8_empty : valid_utf8 ""%string).
Context {CL : CodecLaws AcctProto acct_proto_range} {CTot : CodecTotal AcctProto (acct_proto_valid valid_utf8)}.
Context {DL : CodecLaws Delegatee delegatee_range} {DT : CodecTotal Delegatee delegatee_range}.
Abbreviation ok := (acct_ok valid_utf8).
Abbreviation app := (@RigoApp Tr E DB).
Abbreviation PB := (@proto_codec GovParamsProto GovParamsProto_message).

(** The hash is SHA-256; the JSON library reads the state as above; Tendermint
    reads a document as above when its keys have 33 bytes, its powers are
    positive and its addresses are those of its keys. *)
Context (Hsha : forall m, sha256 m = SHA256 m).
Context (tmjson_genesis : list Byte.byte -> string + GenesisAppState) (Hjson : forall bz gs, read_state bz = Some gs -> tmjson_genesis bz = inr gs).
Definition keys_match (doc : GenesisDoc) (addrs : list (list Byte.byte)) : Prop :=
  Forall (fun v => length v.1 = 33%nat /\ 0 < v.2) (gd_Validators doc) /\ map (fun v => tm_Address v.1) (gd_Validators doc) = addrs.
Context (GenesisDocFromJSON : list Byte.byte -> string + GenesisDoc).
Context (Hread : forall bz doc addrs, read_document bz = Some doc -> doc_addresses bz = Some addrs -> keys_match doc addrs -> GenesisDocFromJSON bz = inr doc).
(** The addresses of the documents are those of the keys. *)
Definition addresses_right (bz : list Byte.byte) : Prop := forall doc addrs,
  read_document bz = Some doc -> doc_addresses bz = Some addrs -> map (fun v => tm_Address v.1) (gd_Validators doc) = addrs.

(** An application whose ledgers are consistent, as they are when it is new. *)
Record app_ready (a : app) : Prop := {
  ar_accounts : ledger_inv ok (w_acct (app_world a));
  ar_accounts_kept : no_removed (w_acct (app_world a));
  ar_delegatees : ledger_inv delegatee_ok (sc_delegateeLedger (w_stake (app_world a)));
  ar_delegatees_kept sd : removedKeys (mem_of sd (sc_delegateeLedger (w_stake (app_world a)))) = [];
}.
Definition init_request (doc : GenesisDoc) : RequestInitChain := mkInitChain (gd_ChainID doc) (gd_AppState doc) (gd_Validators doc).

Lemma digest_hash gs h : app_digest gs = Some h -> genesis_Hash (CGP := PB) gs = Ret h.
Proof.
  unfold app_digest, genesis_Hash. destruct (GovParams_Encode (gs_GovParams gs)) as [bz| |]; [|done..]. intros [= <-]. rewrite Hsha. do 4 f_equal.
  apply map_ext. intros x. unfold holder_Hash. apply Hsha.
Qed.

(** The state of the chain after [InitChain]: [supply] coins in all. *)
Definition started (doc : GenesisDoc) (supply : Z) (a a' : app) : Prop := exists gs,
  state_of doc = Some gs /\ coins doc gs = supply * amountPerPower /\
  InitChain (CGP := PB) tmjson_genesis (init_request doc) a = (Ret (gd_AppHash doc), a') /\
  params_of (app_world a') = DefaultGovParams /\ app_ChainID a' = gd_ChainID doc /\
  (forall h, h ∈ AssetHolders gs -> visible (w_acct (app_world a')) Deliver (ToLedgerKey (gh_Address h)) = Some (holder_account h)) /\
  (forall v, v ∈ gd_Validators doc -> exists d,
     visible (sc_delegateeLedger (w_stake (app_world a'))) Deliver (ToLedgerKey (tm_Address v.1)) = Some d /\ dg_SelfPower d = v.2 /\ dg_TotalPower d = v.2).

Lemma facts_ready bz c doc gs addrs chain a : network_facts bz c doc gs addrs -> addresses_right bz -> app_ready a -> chain <> ""%string ->
  genesis_ready tmjson_genesis valid_utf8 a (mkInitChain chain (gd_AppState doc) (gd_Validators doc)) gs.
Proof.
  intros Hf Hr Ha Hc. constructor; cbn; [done|apply Hjson, (nf_state _ _ _ _ _ Hf)|by destruct Ha..| |].
  - exact (nf_balances _ _ _ _ _ Hf).
  - pose proof (Hr doc addrs (nf_doc _ _ _ _ _ Hf) (nf_addrs _ _ _ _ _ Hf)) as Hm. pose proof (nf_sizes _ _ _ _ _ Hf) as Hs. rewrite <-Hm in Hs. apply list.Forall_fmap in Hs.
    pose proof (nf_vals _ _ _ _ _ Hf) as Hv. rewrite list.Forall_forall in Hs, Hv |- *. intros v Hin. specialize (Hs v Hin). destruct (Hv v Hin). unfold val_ok, val_addr. cbn in Hs. split_and!; [done|done|lia|lia].
Qed.

Lemma facts_start bz c doc gs addrs chain a : network_facts bz (c * amountPerPower) doc gs addrs -> addresses_right bz -> app_ready a -> chain <> ""%string ->
  exists a', started (set_chain_id chain doc) c a a'.
Proof.
  intros Hf Hr Ha Hc. pose proof (facts_ready _ _ _ _ _ chain a Hf Hr Ha Hc) as Hg.
  destruct (init_chain_run tmjson_genesis valid_utf8 utf8_empty (CGP := PB) a _ gs _ Hg (digest_hash gs _ (nf_hash _ _ _ _ _ Hf))) as (a' & Hrun & Hp & Hch & _ & _ & HvA & HvD). cbn [ic_Validators ic_ChainId] in *.
  exists a', gs. split_and!; [exact (nf_state _ _ _ _ _ Hf)|exact (nf_coins _ _ _ _ _ Hf)|exact Hrun|by rewrite Hp; apply (nf_params _ _ _ _ _ Hf)|exact Hch| |].
  - intros h Hin. rewrite HvA, decide_True by done. rewrite <-(new_key (gh_Address h) ""). change (Key (NewAccountWithName (gh_Address h) "")) with (Key (holder_account h)).
    rewrite (installed_in ok); [apply with_validators_some| |by apply list_elem_of_fmap_2]. rewrite map_map. pose proof (nf_holders _ _ _ _ _ Hf) as Hn.
    erewrite map_ext; [exact Hn|]. intros x. apply (new_key (gh_Address x) "").
  - intros v Hin. pose proof (proj1 (list.Forall_forall _ _) (gr_validators _ _ _ _ _ Hg) v Hin) as Hval. destruct (val_delegatee_ok v Hval) as (_ & Hkey & Hs & Ht). exists (val_delegatee v).
    split_and!; [|done|done]. rewrite HvD, decide_True by done. change (tm_Address v.1) with (val_addr v). rewrite <-Hkey. apply (installed_in delegatee_ok); [|by apply list_elem_of_fmap_2].
    rewrite delegatee_keys. pose proof (nf_keys _ _ _ _ _ Hf) as Hk. rewrite <-(Hr doc addrs (nf_doc _ _ _ _ _ Hf) (nf_addrs _ _ _ _ _ Hf)), map_map in Hk. exact Hk.
Qed.

Lemma facts_read bz c doc gs addrs : network_facts bz c doc gs addrs -> addresses_right bz -> GenesisDocFromJSON bz = inr doc.
Proof.
  intros Hf Hr. apply (Hread bz doc addrs); [apply (nf_doc _ _ _ _ _ Hf)|apply (nf_addrs _ _ _ _ _ Hf)|]. split; [|apply Hr; apply Hf].
  eapply list.Forall_impl; [exact (nf_vals _ _ _ _ _ Hf)|]. intros v [Hl Hp]. split; [done|lia].
Qed.

(** C13: the public networks start in the state of their documents.  The document
    of the main network, and that of the test network with any name of the chain,
    are read; [InitChain] of an application whose ledgers are consistent answers
    with the very hash that the document names, which is the SHA-256 of the
    parameters in protobuf and of the holders; the parameters are the default
    ones, every holder has an account with its balance and every validator a
    delegatee with its power as its own stake.  The main network has a thousand
    million coins, in balances and stakes together. *)
Theorem public_networks_start a chain :
  app_ready a -> addresses_right jsonBlobMainnetGenesis -> addresses_right jsonBlobTestnetGenesis -> chain <> ""%string ->
  (exists doc a', MainnetGenesisDoc GenesisDocFromJSON jsonBlobMainnetGenesis "mainnet" = inr doc /\ started doc 1000000000 a a') /\
  (exists doc a', TestnetGenesisDoc GenesisDocFromJSON jsonBlobTestnetGenesis chain = inr doc /\ gd_ChainID doc = chain /\ started doc 1030000000 a a').
Proof.
  intros Ha Hm Ht Hc. destruct (network_ok_facts _ _ mainnet_checked) as (dm & gm & am & Hfm). destruct (network_ok_facts _ _ testnet_checked) as (dt & gt & at_ & Hft). split.
  - destruct (facts_start _ _ _ _ _ (gd_ChainID dm) a Hfm Hm Ha (nf_chain _ _ _ _ _ Hfm)) as [a' Hs]. exists dm, a'. split; [exact (facts_read _ _ _ _ _ Hfm Hm)|].
    replace dm with (set_chain_id (gd_ChainID dm) dm) by by destruct dm. exact Hs.
  - destruct (facts_start _ _ _ _ _ chain a Hft Ht Ha Hc) as [a' Hs]. exists (set_chain_id chain dt), a'. split_and!; [|done|exact Hs].
    unfold TestnetGenesisDoc. by rewrite (facts_read _ _ _ _ _ Hft Ht).
Qed.

(** A validator whose key does not have 33 bytes stops the start. *)
Lemma bad_key_no_start req v r (a : app) h a' : ic_Validators req = v :: r -> length v.1 <> 33%nat -> InitChain (CGP := PB) tmjson_genesis req a <> (Ret h, a').
Proof.
  intros Hv Hl. unfold InitChain. case_bool_decide; [done|]. unfold bindM. destruct (modifyM _ a) as [[[]|e|] a1]; [|done..]. destruct (ignoreM _ a1) as [[[]|e|] a2]; [|done..].
  destruct (tmjson_genesis (ic_AppStateBytes req)) as [|gs]; [done|]. destruct (mustM _ a2) as [[x|e|] a3]; [|done..]. destruct (mustM _ a3) as [[[]|e|] a4]; [|done..].
  destruct (mustM _ a4) as [[[]|e|] a5]; [|done..]. rewrite Hv. cbn [foldM]. unfold bindM, genesis_stake, PubBytes2Addr. rewrite (proj2 (Nat.eqb_neq _ _)) by done. done.
Qed.

Definition null_keys (bz : list Byte.byte) : option bool := doc ← read_document bz; Some (bool_decide (gd_Validators doc <> []) && forallb (fun v => bool_decide (v.1 = [])) (gd_Validators doc)).

(** The document of the development network has no keys: [InitChain] never
    returns on it, whatever the name of the chain. *)
Lemma devnet_no_start : exists doc, read_document jsonBlobDevnetGenesis = Some doc /\
  forall chain (a : app) h a', InitChain (CGP := PB) tmjson_genesis (mkInitChain chain (gd_AppState doc) (gd_Validators doc)) a <> (Ret h, a').
Proof.
  assert (Hn : null_keys jsonBlobDevnetGenesis = Some true) by (vm_compute; reflexivity). unfold null_keys in Hn. destruct (read_document jsonBlobDevnetGenesis) as [doc|]; [|done].
  exists doc. split; [done|]. intros chain a h a'. cbn [mbind option_bind] in Hn. injection Hn as Hn. apply andb_prop in Hn as [Hne Hk]. apply bool_decide_eq_true_1 in Hne.
  destruct (gd_Validators doc) as [|v r] eqn:Hv; [done|]. cbn [forallb] in Hk. apply andb_prop in Hk as [Hk _]. apply bool_decide_eq_true_1 in Hk.
  eapply bad_key_no_start; [by cbn|]. rewrite Hk. done.
Qed.
End Start.

(** ** Witness: an empty application *)

(** The keys of both documents with their addresses. *)
Definition doc_keys (bz : list Byte.byte) : list (list Byte.byte * list Byte.byte) :=
  match read_document bz, doc_addresses bz with Some doc, Some addrs => combine (map fst (gd_Validators doc)) addrs | _, _ => [] end.
Definition known_keys : list (list Byte.byte * list Byte.byte) := doc_keys jsonBlobMainnetGenesis ++ doc_keys jsonBlobTestnetGenesis.
Definition known_address (k : list Byte.byte) : list Byte.byte :=
  match find (fun p => bool_decide (p.1 = k)) known_keys with Some p => p.2 | None => take 20 k end.
Definition shaCrypto : EthCrypto := {|
  PrivateKey := list Byte.byte; PublicKey := list Byte.byte; public_of k := k; eth_Sign m k := inr (take 32 k ++ m);
  eth_SigToPub _ sig := inr (take 33 sig); eth_CompressPubkey k := k; eth_VerifySignature _ _ _ := true; tm_Address := known_address; sha256 := SHA256;
|}.
Definition addresses_checked (bz : list Byte.byte) : bool :=
  match read_document bz, doc_addresses bz with Some doc, Some addrs => bool_decide (map (fun v => known_address v.1) (gd_Validators doc) = addrs) | _, _ => false end.

Lemma known_right bz : addresses_checked bz = true -> addresses_right (EC := shaCrypto) bz.
Proof. unfold addresses_checked, addresses_right. intros H doc addrs Hd Ha. rewrite Hd, Ha in H. by apply bool_decide_eq_true_1 in H. Qed.
Lemma mainnet_addresses : addresses_checked jsonBlobMainnetGenesis = true.
Proof. vm_compute. reflexivity. Qed.
Lemma testnet_addresses : addresses_checked jsonBlobTestnetGenesis = true.
Proof. vm_compute. reflexivity. Qed.

Definition read_json (bz : list Byte.byte) : string + GenesisAppState := match read_state bz with Some gs => inr gs | None => inl "invalid JSON"%string end.
Definition doc_json (bz : list Byte.byte) : string + GenesisDoc := match read_document bz with Some doc => inr doc | None => inl "invalid JSON"%string end.

Lemma genApp_ready : app_ready (CA := proto_codec) utf8 genApp.
Proof.
  constructor; [|by intros []|apply no_delegatee_inv|by intros []]. apply fresh_inv. intros k bz. cbn. by rewrite lookup_empty.
Qed.

Lemma public_networks_start_witness : exists doc a',
  MainnetGenesisDoc doc_json jsonBlobMainnetGenesis "mainnet" = inr doc /\ started (CA := proto_codec) (EC := shaCrypto) read_json doc 1000000000 genApp a'.
Proof.
  destruct (public_networks_start (EC := shaCrypto) utf8 eq_refl (fun m => eq_refl) read_json (fun bz gs H => ltac:(unfold read_json; by rewrite H)) doc_json
    (fun bz doc addrs H _ _ => ltac:(unfold doc_json; by rewrite H)) genApp "testnet" genApp_ready (known_right _ mainnet_addresses) (known_right _ testnet_addresses)) as [H _]; [done|exact H].
Defined.
