(* ===== verification/FeederCmds.v ===== *)
(** * The commands of the secret feeder: [sfeeder/cmds/]

    [set] stores secrets for the addresses of a flag and then for addresses that
    are typed, [get] shows the ends of a secret, [remove] deletes all, [start]
    makes the service.  What is typed is a list of answers, one line each; after
    the last one every read fails, an address is then empty and a passphrase
    ends the process ([libs/sprompt.go]). *)

From Stdlib Require Import Strings.Byte.
From S2P Require Import Prelude Xerrors GoSem Bytes Crypto Slice FileIO GovParams WalletKey WalletProps Sfeeder Commands CommandProps.

Section FeederCmds.
Context {EC : EthCrypto} {KL : KeyLib} {CV : Curve} `{NT : NodeTools}.
Context (os_MkdirAll : string -> GoM Disk unit).

(** The passphrase and the directory: from the flags, or from the prompt and the
    home directory. *)
Definition preRun (pass DataDir : string) (typed : option (list Byte.byte)) (home : string + string) : outcome (list Byte.byte * string) :=
  match (if bool_decide (pass = ""%string) then typed else Some (String.list_byte_of_string pass)) with
  | None => Panic
  | Some pass =>
      if bool_decide (DataDir = ""%string) then
        match home with inl e => Err (NewOrdinary e) | inr h => Ret (pass, h +:+ "/.sfeeder") end
      else Ret (pass, DataDir)
  end.

Definition ensureDir (dir : string) : GoM Disk unit :=
  let! r := tryM (os_MkdirAll dir) in
  match r with inl _ => errM (NewOrdinary "could not create directory %q: %w") | inr _ => retM tt end.

Definition hex_addr (hx : list Byte.byte) : outcome (list Byte.byte) :=
  match hex_DecodeString hx with None => Err (NewOrdinary "encoding/hex: invalid byte") | Some addr => Ret addr end.

(** The addresses of the flag: the secret of each is typed. *)
Fixpoint set_flagged (hexAddrs typed : list (list Byte.byte)) (pass : list Byte.byte) (DataDir : string) : GoM Disk (list (list Byte.byte)) :=
  match hexAddrs with
  | [] => retM typed
  | hx :: r =>
      let! addr := liftO (hex_addr hx) in
      match typed with
      | [] => panicM
      | secret :: typed' => do! WriteSecret addr secret pass DataDir in set_flagged r typed' pass DataDir
      end
  end.

(** The loop has no end of its own: an error leaves it. *)
Fixpoint set_typed (typed : list (list Byte.byte)) (pass : list Byte.byte) (DataDir : string) : GoM Disk unit :=
  match typed with
  | hx :: secret :: r =>
      let! addr := liftO (hex_addr hx) in
      do! WriteSecret addr secret pass DataDir in
      set_typed r pass DataDir
  | [hx] => do! liftO (hex_addr hx) in panicM
  | [] => do! liftO (hex_addr []) in panicM
  end.

Definition setSecret (hexAddrs typed : list (list Byte.byte)) (pass : list Byte.byte) (DataDir : string) : GoM Disk unit :=
  do! ensureDir DataDir in
  let! typed' := set_flagged hexAddrs typed pass DataDir in
  set_typed typed' pass DataDir.

(** What is shown of a secret. *)
Definition dots : list Byte.byte := [Byte.x2e; Byte.x2e].
Definition masked (secret : list Byte.byte) : list Byte.byte :=
  let l := length secret in
  if (l <=? 8)%nat then take (Nat.min 2 l) secret ++ dots
  else if (l <=? 16)%nat then take 2 secret ++ dots ++ drop (l - 2) secret
  else take 4 secret ++ dots ++ drop (l - 4) secret.

Definition cmd_getSecret (targetAddr pass : list Byte.byte) (DataDir : string) (d : Disk) : outcome (list Byte.byte) :=
  match ReadSecret targetAddr pass DataDir d with
  | Ret secret => Ret (masked secret)
  | Err e => Err e
  | Panic => Panic
  end.

Definition removeAll (DataDir : string) : GoM Disk unit := os_RemoveAll DataDir.

Definition feeder_start (pass : list Byte.byte) (DataDir : string) (prv : PrivateKey) : GoM Disk SecretFeederHandler :=
  do! ensureDir DataDir in
  retM (NewSecretFeederHandler DataDir pass prv).
End FeederCmds.

(** ** Theorems *)

(** At most eight bytes of a secret are shown, and of more than two never all. *)
Lemma masked_hides secret :
  exists a b, masked secret = a ++ dots ++ b /\ (length a + length b <= 8)%nat /\ (2 < length secret -> length a + length b < length secret)%nat.
Proof.
  unfold masked. set (l := length secret). destruct (Nat.leb_spec l 8); [|destruct (Nat.leb_spec l 16)].
  - exists (take (Nat.min 2 l) secret), []. rewrite app_nil_r. split_and!; [done| |]; rewrite length_take; cbn [length]; fold l; lia.
  - exists (take 2 secret), (drop (l - 2) secret). split_and!; [done| |]; rewrite length_take, length_drop; fold l; lia.
  - exists (take 4 secret), (drop (l - 4) secret). split_and!; [done| |]; rewrite length_take, length_drop; fold l; lia.
Qed.

Section FeederLaws.
Context {EC : EthCrypto} {KL : KeyLib} {KLL : KeyLibLaws} {CV : Curve} {CVL : CurveLaws} {FS : FileSystem} {FSL : FileSystemLaws}.

Definition flag_path (dir : string) (hx : list Byte.byte) : string := secret_path dir (DefaultHash [default [] (hex_DecodeString hx)]).

Lemma write_secret_frame addr secret pass dir d p : p <> secret_path dir (DefaultHash [addr]) -> os_ReadFile p (WriteSecret addr secret pass dir d).2 = os_ReadFile p d.
Proof.
  intros Hp. unfold WriteSecret, bindM, liftO. destruct (Enc _ _); [|done..]. by apply file_io_write_frame.
Qed.

Lemma flagged_frame hexAddrs : forall typed pass dir d p,
  p ∉ map (flag_path dir) hexAddrs -> os_ReadFile p (set_flagged hexAddrs typed pass dir d).2 = os_ReadFile p d.
Proof.
  induction hexAddrs as [|hx r IH]; intros typed pass dir d p Hp; [done|]. cbn [map] in Hp. apply not_elem_of_cons in Hp as [Hp1 Hp2].
  cbn [set_flagged]. unfold hex_addr, flag_path in *. destruct (hex_DecodeString hx) as [addr|]; [|done]. unfold bindM at 1, liftO. destruct typed as [|secret typed]; [done|].
  pose proof (write_secret_frame addr secret pass dir d p Hp1) as Hw. unfold bindM. destruct (WriteSecret addr secret pass dir d) as [[[]| |] d1]; [|done..]. rewrite IH by done. exact Hw.
Qed.

(** The secrets that were typed for the addresses of the flag are those that the
    feeder reads, when no two addresses share a file. *)
Lemma flagged_stored hexAddrs : forall typed pass dir d rest d',
  set_flagged hexAddrs typed pass dir d = (Ret rest, d') -> NoDup (map (flag_path dir) hexAddrs) ->
  (forall s, s ∈ typed -> s <> [] /\ len s <= 1007) ->
  exists secrets, typed = secrets ++ rest /\
    Forall2 (fun hx secret => exists addr, hex_DecodeString hx = Some addr /\ ReadSecret addr pass dir d' = Ret secret) hexAddrs secrets.
Proof.
  induction hexAddrs as [|hx r IH]; intros typed pass dir d rest d' Hrun Hnd Hlen; cbn [set_flagged] in Hrun.
  - injection Hrun as <- <-. by exists [].
  - apply bindM_inv in Hrun as (addr & d0 & Haddr & Hrun). unfold liftO, hex_addr in Haddr. destruct (hex_DecodeString hx) as [a|] eqn:Ehx; [|done]. injection Haddr as <- <-.
    destruct typed as [|secret typed]; [done|]. apply bindM_inv in Hrun as ([] & d1 & Hw & Hrun). cbn [map] in Hnd. apply list.NoDup_cons in Hnd as [Hn Hnd].
    destruct (IH typed pass dir d1 rest d' Hrun Hnd) as (secrets & -> & Hall); [intros s Hs; apply Hlen; by apply elem_of_cons; right|].
    exists (secret :: secrets). split; [done|]. constructor; [|done]. exists a. split; [done|]. destruct (Hlen secret) as [H1 H2]; [by apply elem_of_cons; left|].
    eapply (write_read_secret a secret pass dir d d1 d'); [done..|]. change d' with (Ret rest, d').2. rewrite <- Hrun. apply flagged_frame.
    unfold flag_path in Hn at 1. by rewrite Ehx in Hn.
Qed.
End FeederLaws.
